(* ===== verification/_CoqProject ===== *)
-Q . S2P
Prelude.v
Ring.v
RtList.v
RingBuffer.v
Keyboard.v
Sequencer.v
DevState.v
Gpio.v
KState.v
Scheduler.v
Object.v
Timer.v
Proc.v
Thread.v
Ipc.v
Mutex.v
Event.v
Mailbox.v
MsgQueue.v
Mem.v
Heap.v
KService.v
Printf.v
Conc.v
Completion.v
DataQueue.v
Device.v
Pin.v
I2c.v
Spi.v
SpiCore.v
SpiBus.v
Serial.v
Startup.v
App.v
Pipeline.v
Boot.v
Msh.v
Shell.v
Terminal.v
Console.v
