(* ===== verification/Prelude.v ===== *)
(** * CH32V307 drum machine: verification development

    The repository is the firmware of a step sequencer on a CH32V307 (RV32,
    one core): an input task scans a keyboard over SPI and drives its LEDs, a
    sequencer task toggles the steps of a pattern, both on RT-Thread 4.0.4.
    All paths below are under src/software/.

    ** How the parts interact

    rtthread_startup brings up the board, the kernel objects and the main
    thread, whose initialization registers the devices and starts the shell and
    two tasks.  The input task (applications/input/input.c) runs every 10 ms: it copies the shared array
    [kb_led_data], shifts it out while the key states come in
    (applications/input/keyboard.c), computes press and release edges and
    sends them through a message queue.  The sequencer task
    (applications/logic/sequencer.c) waits on that queue, flips steps and
    redraws [kb_led_data].  Below them is the kernel (rt-thread/src/): the
    tick interrupt counts time slices and fires timers, timers end waits, the
    scheduler picks the thread to run, the IPC objects queue waiting threads.

    ** Files

    - Prelude: machine integers ([wrap], [swrap]), C bit operations, the
      rewriting base [cbits] and generic lemmas.
    - Ring: the circular arrays that several components use.
    - RtList: rt-thread/include/rtservice.h; the pointer lists on a store.
    - RingBuffer: components/drivers/src/ringbuffer.c.
    - Keyboard, Sequencer: the sequential code of applications/input/keyboard.c
      and applications/logic/sequencer.c.
    - DevState: the structures of the device framework and of its drivers.
    - Gpio: the peripheral library for pins and external interrupts,
      ch32v30x_gpio.c and ch32v30x_exti.c.
    - KState: rtdef.h, rtdebug.h; the record [kst] of all kernel variables and
      objects, the monad [K] of kernel code with its two faults, a failed
      assertion and an access to no object.
    - Scheduler: scheduler.c, irq.c, [__rt_ffs] of kservice.c.
    - Object: object.c and the two name functions of kservice.c.
    - Timer: timer.c, clock.c; the call of a timer's function goes through the
      interface [TimeoutCall].
    - Proc: code that can block, as a tree of atomic sections.
    - Thread: thread.c, the defunct list of idle.c, the instance of
      [TimeoutCall], the tick handler of board/board.c.
    - Ipc, Mutex, Event, Mailbox, MsgQueue: the parts of ipc.c.
    - Mem, Heap: mem.c on the bytes of the heap, and its contract.
    - KService: the memory and string functions and the aligned allocation of
      kservice.c.
    - Printf: [rt_vsnprintf] and [rt_kprintf] of kservice.c.
    - Conc: systems of threads, a rely-guarantee logic, and [ends], which
      bounds the moves of a process in every interleaving.
    - Completion, DataQueue: completion.c and dataqueue.c of
      components/drivers/src/.
    - Device: device.c, with a driver's functions behind the interface
      [DriverOps], and the console and errno of kservice.c.
    - Pin: libraries/hal_drivers/drv_gpio.c and
      components/drivers/misc/pin.c.
    - I2c: components/drivers/i2c/ and libraries/hal_drivers/drv_soft_i2c.c,
      I2C buses in software.
    - Serial: components/drivers/serial/serial.c and
      libraries/hal_drivers/drv_usart.c; the UART's receiver has a data
      register of one character, which an arrival overruns and the clearing of
      the pending bit can discard.
    - Spi, SpiCore, SpiBus: drv_spi.c with the peripheral library below it;
      components/drivers/spi/: spi_core.c and spi_dev.c; and the threads that
      share a bus.
    - Startup: rt-thread/src/components.c, board/board.c, applications/main.c
      and the initialisation functions of the tasks and of the shell: from
      power-on to the loop of main.
    - App, Pipeline: the entry functions of the two tasks as processes, and the
      theorem on the whole system: what a run is observed to do at the shift
      registers, the queue and the LED array is what a front end does.
    - Boot: Startup in every interleaving with the tick, up to the states that
      the theorems of Pipeline and SpiBus start from.
    - Msh, Shell, Terminal: the console shell, components/finsh/: splitting,
      looking up and completing a command line (msh.c), the line editor with
      its history (shell.c), and a terminal that shows what it prints.
    - Console: the shell thread on its serial device.

    ** Conventions

    Every definition that models C code carries the name of the C function or,
    for a part of one, a name that says which part.  An integer of [w] bits is
    a [Z]; an operation that can wrap is wrapped ([u8], [u16], [u32], [i16],
    [i32]).  Code with interrupts disabled, or that nothing can interrupt, is
    one atomic computation; code that can block or be interrupted is a [proc],
    cut where the source enables interrupts or calls [rt_schedule].  Between
    two sections anything may run.  The kernel keeps its lists as sequences;
    RtList shows that the pointer code implements these operations.  The heap,
    memory functions and printing work on single bytes in [gmap Z Z].

    Configuration (rtconfig.h): 32 priorities, 1000 ticks a second, one
    processor, RT_ALIGN_SIZE 4, RT_DEBUG with context checks on, no hook
    installed anywhere, no soft timers, the small-memory allocator.

    ** What the theorems show

    - The whole system (Pipeline): in every run of the two tasks, ticks and
      other threads no task ever faults.  The actions observed in the run are
      read by [tell], which expects the event of each scan's edges to be the
      next message unless the queue was nearly full, the messages to leave in
      order and the bytes sent to the registers to be LED bytes since the scan
      before; whenever the sequencer waits the queue is empty and the LED row
      is the exclusive or of the presses that left it.
    - The boot (Boot): from power-on the start-up runs without a fault and
      switches to main; however ticks interrupt it, main gets through its
      initialization in a bounded number of sections, and the tasks, the queue,
      the LED array and the SPI bus are then as those theorems assume.
    - Scheduling (Scheduler, Thread): [rt_schedule] runs the first thread of
      the highest ready priority and re-queues the preempted one; a tick makes
      exactly those threads ready whose timers are due; sleeping, yielding,
      suspending, resuming and changing priorities on every branch, errors
      included; one invariant [kinv] of scheduler, timers and threads.
    - IPC: a unit released by a semaphore goes to a waiter or to the value; a
      mutex has one owner, at least as urgent as every waiter; no event is
      sent without waking every waiter it satisfies; mailboxes and message
      queues are FIFO queues, urgent mail first, under every interleaving of
      the critical sections, and message blocks are never lost or shared; each
      next section of a mailbox runs inside the pool, and stores, takes, waits
      or gives up as the number of mails says.
    - Data structures: the circular lists and the ring buffer refine lists and
      a bounded FIFO; timers stay in due order modulo 2^32; an object is found
      by its stored name.
    - The heap: malloc, calloc, realloc and free keep the block layout and the
      counters; malloc takes the lowest block that fits, but not a last block
      of exactly the size; through any legal use the live allocations are
      disjoint, keep their bytes and are given back completely.
    - Library code: the word loops of memset and memcpy are the byte loops,
      memmove moves overlapping regions, strstr finds the first occurrence;
      vsnprintf fills a buffer of any size with the cut text and nothing
      outside; the numerals that snprintf stores read back as its argument.
    - The application: the keyboard edges add up to the keys down, the LED
      image is the pattern, [struct InputEvents] survives the queue.
    - Devices: a device counts its openings less its closings; nobody waits for
      a completion that was announced; a data queue is a FIFO whose flags and
      length agree with it.
    - Pins: configuring a set of pins changes the four configuration bits of
      these pins and no others; through all calls and interrupts the enabled
      vectors are those that a pin needs, and an enabled line has the edges of
      its mode, a level mode none.  The runs at the end of Pin show handlers
      called for other pins and for disabled ones.
    - The serial line: the receive interrupt keeps the last [bufsz] - 1
      characters in order and reports what it drops; opening the device again
      without its interrupt hides them.  In the whole system (Console) the shell
      thread takes the characters in order; as long as no drop of the FIFO was
      reported just those are missing that the UART itself lost, and when the
      thread waits the FIFO is empty and everything is printed.
    - SPI: the control register is what the configuration says; every transfer
      ends, also on a dead peripheral; threads that share a bus get whole
      transactions, each under the settings of its own device, in every
      interleaving, and a thread that is over has made one for each request.
    - The shell: for any input the line editor stays in its arrays and follows
      an editor with a text, a cursor and a history of five lines, except
      after completing a discarded line, where it can overrun its buffer (the
      example [discarded_line_overruns]); the
      terminal shows the prompt and the text with the right cursor; the first
      matching command runs on the words of the line; completion gives the
      longest text the candidates share.

    ** Fuel and bounds

    Loops over C data that are not structural take fuel.  [rt_timer_check]
    needs one unit per timer that fires, and the tick theorem holds for every
    fuel above the number of active timers; a periodic timer of period 0 never
    ends, which is proved (Timer).  The searches of the heap get one unit per
    byte of the heap, each block has at least 16; string functions need one
    unit more than the string has characters; a number of 32 bits has at most
    10 digits, and 17 rounds of the digit loop are allowed; a format loop
    takes a character a round; the loops over a command line get one unit more
    than the buffer has bytes, and splitting takes at most ten rounds.  The
    receive loop gets one round for each character in the UART and one more,
    printing to the console 8 moves for each character and 16 more.  [exec] of Proc runs one process
    alone; the concurrent theorems are about the step relation and need no
    fuel.  A byte on the SPI bus takes at most 814 moves, because both of its
    polling loops stop after 201 reads of the status.

    ** Not modelled

    - The hardware below the registers: the SPI peripheral answers as it likes,
      a UART takes characters at once, and the devices of an I2C bus pull its
      lines as they like; clocks, the pin modes that the UART and SPI drivers
      set, the priorities of interrupts, the start-up code before
      [rtthread_startup] and context switch assembly are left out.  A context
      switch is a change of the current thread.
    - The two tasks take the answers of the SPI transfers as a parameter;
      SpiBus shows that a transfer returns what the wires gave.
    - Displays, and the registers of the encoder timer that encInit (encoder.c) sets.
    - That [rt_realloc], when it grows a block, gives up the heap's semaphore
      between the allocation, the copy and the release: it is one step.
    - Work queues and pipes, which no part of the program uses, and the DMA and
      POSIX parts of serial.c, which the configuration leaves out.
    - The commands of the shell: they are the functions of the command table.
    - Kernel files that rtconfig.h leaves out (memheap, slab, mempool, signal,
      SMP) and the vendored components (file systems, network stacks).
    - The contents of thread stacks.  [RT_KERNEL_MALLOC] in object creation is
      an argument there; the allocator itself is Mem and Heap. *)
From Stdlib Require Export ZArith Lia.
From stdpp Require Export base tactics numbers option gmap list.

Open Scope Z_scope.

(** ** Machine integers

    A w-bit unsigned C integer is a [Z] kept in range by [wrap w]; every
    assignment to a field or variable of that width writes the wrap out. *)
Definition wrap (w x : Z) : Z := x mod 2 ^ w.
Abbreviation u8 := (wrap 8).
Abbreviation u16 := (wrap 16).
Abbreviation u32 := (wrap 32).

(** A signed w-bit integer, by two's complement. *)
Definition swrap (w x : Z) : Z := (x + 2 ^ (w - 1)) mod 2 ^ w - 2 ^ (w - 1).
Abbreviation i16 := (swrap 16).
Abbreviation i32 := (swrap 32).

Lemma wrap_range w x : 0 <= w -> 0 <= wrap w x < 2 ^ w.
Proof. intros. apply Z.mod_pos_bound. lia. Qed.

Lemma wrap_small w x : 0 <= x < 2 ^ w -> wrap w x = x.
Proof. apply Z.mod_small. Qed.

Lemma wrap_wrap w x : wrap w (wrap w x) = wrap w x.
Proof. apply Zmod_mod. Qed.

Lemma wrap_testbit w x i :
  0 <= w -> 0 <= i -> Z.testbit (wrap w x) i = (i <? w) && Z.testbit x i.
Proof.
  intros Hw Hi. unfold wrap. destruct (Z.ltb_spec i w).
  - by rewrite Z.mod_pow2_bits_low by lia.
  - by rewrite Z.mod_pow2_bits_high by lia.
Qed.

(** The low [a] bits and the next [b] bits make [a + b] bits. *)
Lemma wrap_join a b v : 0 <= a -> 0 <= b ->
  Z.lor (wrap a v) (Z.shiftl (wrap b (Z.shiftr v a)) a) = wrap (a + b) v.
Proof.
  intros Ha Hb. apply Z.bits_inj'. intros i Hi. rewrite Z.lor_spec, Z.shiftl_spec by lia.
  rewrite (wrap_testbit a), (wrap_testbit (a + b)) by lia. destruct (Z.lt_ge_cases i a).
  - rewrite (Z.testbit_neg_r _ (i - a)) by lia. rewrite orb_false_r.
    by rewrite (proj2 (Z.ltb_lt i a)), (proj2 (Z.ltb_lt i (a + b))) by lia.
  - rewrite wrap_testbit, Z.shiftr_spec by lia. replace (i - a + a) with i by lia.
    rewrite (proj2 (Z.ltb_ge i a)) by lia. cbn [andb orb]. f_equal.
    destruct (Z.ltb_spec (i - a) b), (Z.ltb_spec i (a + b)); lia || done.
Qed.

Lemma swrap_wrap w x : 0 < w -> swrap w (wrap w x) = swrap w x.
Proof. intros Hw. unfold swrap, wrap. by rewrite Zplus_mod_idemp_l. Qed.

Lemma swrap_small w x : 0 < w -> - 2 ^ (w - 1) <= x < 2 ^ (w - 1) -> swrap w x = x.
Proof.
  intros Hw Hx. unfold swrap. rewrite Z.mod_small; [lia|].
  assert (2 ^ w = 2 * 2 ^ (w - 1)) as ->; [|lia].
  rewrite <- Z.pow_succ_r by lia. f_equal. lia.
Qed.

(** Bits above the width of an in-range number are zero. *)
Lemma testbit_above w x i : 0 <= x < 2 ^ w -> w <= i -> Z.testbit x i = false.
Proof.
  intros Hx Hi. destruct (Z.lt_ge_cases w 0).
  - rewrite Z.pow_neg_r in Hx by done. lia.
  - rewrite <- (Z.mod_small x (2 ^ w)) by done. by apply Z.mod_pow2_bits_high.
Qed.

(** A number is in range as soon as its high bits are zero. *)
Lemma testbit_range w x :
  0 <= w -> 0 <= x -> (forall i, w <= i -> Z.testbit x i = false) -> 0 <= x < 2 ^ w.
Proof.
  intros Hw Hx Hb. split; [done|].
  replace x with (x mod 2 ^ w); [apply Z.mod_pos_bound; lia|].
  apply Z.bits_inj'. intros i Hi. destruct (Z.lt_ge_cases i w).
  - by rewrite Z.mod_pow2_bits_low.
  - by rewrite Z.mod_pow2_bits_high, Hb.
Qed.

(** Rewriting base that pushes [Z.testbit] through the C bit operators. *)
Create Rewrite HintDb cbits.
#[export] Hint Rewrite Z.lor_spec Z.land_spec Z.lxor_spec Z.ldiff_spec
  Z.testbit_0_l Z.bits_0 : cbits.
#[export] Hint Rewrite Z.lnot_spec Z.shiftl_spec Z.shiftr_spec wrap_testbit
  using lia : cbits.

(** [bitwise i] proves an equality of integers bit by bit. *)
Ltac bitwise i :=
  apply Z.bits_inj'; intros i ?; autorewrite with cbits.

Lemma testbit_shiftl1 p i : 0 <= p -> 0 <= i ->
  Z.testbit (Z.shiftl 1 p) i = bool_decide (i = p).
Proof.
  intros Hp Hi. rewrite Z.shiftl_1_l, Z.pow2_bits_eqb by lia.
  destruct (Z.eqb_spec p i); case_bool_decide; lia.
Qed.

(** ** Arrays

    Reads and writes of a C array kept as a list, [None] out of bounds. *)
Definition aget (a : list Z) (i : nat) : option Z := a !! i.
Definition aset (a : list Z) (i : nat) (v : Z) : option (list Z) :=
  if (i <? length a)%nat then Some (<[i := v]> a) else None.

Lemma aset_app l x r v : aset (l ++ x :: r) (length l) v = Some (l ++ v :: r).
Proof.
  unfold aset. rewrite (proj2 (Nat.ltb_lt _ _)) by (rewrite length_app; cbn [length]; lia).
  by rewrite insert_app_r_alt, Nat.sub_diag by lia.
Qed.

Lemma aget_app l x r : aget (l ++ x :: r) (length l) = Some x.
Proof. unfold aget. by rewrite list_lookup_middle. Qed.

(** ** Streams

    The last [cap] elements: what a buffer that drops the oldest keeps. *)
Definition keep_last (cap : Z) (q : list Z) : list Z := drop (length q - Z.to_nat cap)%nat q.

Lemma keep_last_le cap q : Z.of_nat (length q) <= cap -> keep_last cap q = q.
Proof. intros. unfold keep_last. replace (_ - _)%nat with 0%nat by lia. done. Qed.

Lemma keep_last_app cap q d :
  keep_last cap (q ++ keep_last cap d) = keep_last cap (q ++ d).
Proof.
  unfold keep_last. destruct (decide (length d <= Z.to_nat cap)%nat).
  - replace (length d - Z.to_nat cap)%nat with 0%nat by lia. done.
  - rewrite !length_app, length_drop, !drop_app_ge, drop_drop by (rewrite ?length_drop; lia).
    f_equal. lia.
Qed.

Lemma keep_last_app_l cap q d : keep_last cap (keep_last cap q ++ d) = keep_last cap (q ++ d).
Proof.
  unfold keep_last. rewrite length_app, length_drop, length_app.
  destruct (decide (length q <= Z.to_nat cap)%nat) as [Hle|].
  - replace (length q - Z.to_nat cap)%nat with 0%nat by lia. rewrite drop_0. f_equal. lia.
  - destruct (decide (length d <= Z.to_nat cap)%nat).
    + rewrite !drop_app_le, drop_drop by (rewrite ?length_drop; lia). do 2 f_equal. lia.
    + rewrite !drop_app_ge by (rewrite ?length_drop; lia). rewrite length_drop. f_equal. lia.
Qed.

Lemma keep_last_snoc cap q c : 0 < cap -> Z.of_nat (length q) = cap -> keep_last cap (q ++ [c]) = drop 1 q ++ [c].
Proof.
  intros Hc Hq. unfold keep_last. rewrite length_app. cbn [length]. replace (length q + 1 - Z.to_nat cap)%nat with 1%nat by lia.
  apply drop_app_le. lia.
Qed.

Lemma keep_last_length cap q : 0 <= cap -> Z.of_nat (length (keep_last cap q)) <= cap.
Proof. intros. unfold keep_last. rewrite length_drop. lia. Qed.

Lemma Forall_sublist {A} (P : A -> Prop) l k : l `sublist_of` k -> Forall P k -> Forall P l.
Proof. induction 1 as [|x l k _ IH|x l k _ IH]; [done|..]; intros [? ?]%Forall_cons; [constructor|]; auto. Qed.
