(* ===== verification/Ring.v ===== *)
(** * Circular arrays

    An array of [n] slots used in a circle: [ring_at n base buf q] says that
    the slots from [base] on hold the elements of [q], oldest first.  Mailboxes,
    data queues and the receive FIFO of serial devices are such arrays. *)
From S2P Require Import Prelude.

(** The slot [i] places after [base]. *)
Definition slot_of (n base i : Z) : Z := (base + i) mod n.

Record ring_at {A} (n base : Z) (buf q : list A) : Prop := {
  ra_size : Z.of_nat (length buf) = n;
  ra_base : 0 <= base < n;
  ra_room : Z.of_nat (length q) <= n;
  ra_data i x : q !! i = Some x -> buf !! Z.to_nat (slot_of n base (Z.of_nat i)) = Some x
}.

Lemma slot_of_range n base i : 0 < n -> 0 <= slot_of n base i < n.
Proof. intros. apply Z.mod_pos_bound. lia. Qed.

Lemma slot_of_inj n base i j : 0 <= i < n -> 0 <= j < n -> slot_of n base i = slot_of n base j -> i = j.
Proof.
  unfold slot_of. intros Hi Hj E. assert ((i - j) mod n = 0) as E'.
  { replace (i - j) with ((base + i) - (base + j)) by lia. by rewrite Zminus_mod, E, Z.sub_diag, Z.mod_0_l by lia. }
  apply Z.mod_divide in E' as [k Ek]; [|lia]. assert (k = 0) by nia. subst k. lia.
Qed.

Lemma slot_of_0 n base : 0 <= base < n -> slot_of n base 0 = base.
Proof. intros. unfold slot_of. rewrite Z.add_0_r. by apply Z.mod_small. Qed.

Lemma slot_of_assoc n base i j : slot_of n (slot_of n base i) j = slot_of n base (i + j).
Proof. unfold slot_of. rewrite Zplus_mod_idemp_l. f_equal. lia. Qed.

(** How the code counts an index up: [i += 1; if (i >= n) i = 0]. *)
Lemma next_index n a : 0 <= a < n -> n < 2 ^ 16 ->
  (if n <=? u16 (a + 1) then 0 else u16 (a + 1)) = slot_of n a 1.
Proof.
  intros Ha Hn. rewrite wrap_small by lia. unfold slot_of. destruct (Z.leb_spec n (a + 1)).
  - replace (a + 1) with n by lia. symmetry. apply Z.mod_same. lia.
  - symmetry. apply Z.mod_small. lia.
Qed.

Section ring.
Context {A : Type}.
Implicit Types buf q : list A.

Lemma ring_empty n base buf : Z.of_nat (length buf) = n -> 0 <= base < n -> ring_at n base buf [].
Proof. intros Hb Hr. split; [done|done|cbn; lia|done]. Qed.

Lemma ring_push n base buf q v : ring_at n base buf q -> Z.of_nat (length q) < n ->
  ring_at n base (<[Z.to_nat (slot_of n base (Z.of_nat (length q))) := v]> buf) (q ++ [v]).
Proof.
  intros [H1 H2 H3 H4] Hroom. split; [by rewrite length_insert|done|rewrite length_app; cbn; lia|].
  intros i x Hx. pose proof (slot_of_range n base (Z.of_nat (length q)) ltac:(lia)) as Hr.
  destruct (decide (i = length q)) as [->|Hne].
  - rewrite lookup_app_r, Nat.sub_diag in Hx by lia. injection Hx as ->. apply list_lookup_insert_eq. lia.
  - assert (i < length (q ++ [v]))%nat as Hi by (eapply lookup_lt_Some; exact Hx).
    rewrite length_app in Hi. cbn in Hi. rewrite lookup_app_l in Hx by lia.
    rewrite list_lookup_insert_ne; [by apply H4|]. intros E.
    pose proof (slot_of_range n base (Z.of_nat i) ltac:(lia)).
    assert (Z.of_nat (length q) = Z.of_nat i) by (apply (slot_of_inj n base); lia). lia.
Qed.

Lemma ring_pop n base buf v q : ring_at n base buf (v :: q) ->
  buf !! Z.to_nat base = Some v /\ ring_at n (slot_of n base 1) buf q.
Proof.
  intros [H1 H2 H3 H4]. rewrite length_cons in H3. split.
  - rewrite <- (H4 0%nat v eq_refl). by rewrite slot_of_0.
  - split; [done|apply slot_of_range; lia|lia|]. intros i x Hx. rewrite slot_of_assoc.
    rewrite <- (H4 (S i) x Hx), Nat2Z.inj_succ, <- Z.add_1_l. done.
Qed.

(** An element put in front of the oldest. *)
Lemma ring_unpop n base buf v q : ring_at n base buf q -> Z.of_nat (length q) < n ->
  ring_at n (slot_of n base (-1)) (<[Z.to_nat (slot_of n base (-1)) := v]> buf) (v :: q).
Proof.
  intros [H1 H2 H3 H4] Hroom. pose proof (slot_of_range n base (-1) ltac:(lia)) as Hr.
  split; [by rewrite length_insert|done|cbn; lia|]. intros [|i] x Hx.
  - injection Hx as ->. rewrite slot_of_0 by done. apply list_lookup_insert_eq. lia.
  - cbn in Hx. pose proof (lookup_lt_Some _ _ _ Hx) as Hi. rewrite slot_of_assoc.
    replace (-1 + Z.of_nat (S i)) with (Z.of_nat i) by lia.
    rewrite list_lookup_insert_ne; [by apply H4|]. intros E.
    pose proof (slot_of_range n base (Z.of_nat i) ltac:(lia)).
    assert (slot_of n base (n - 1) = slot_of n base (Z.of_nat i)) as E'.
    { transitivity (slot_of n base (-1)); [|lia]. unfold slot_of. replace (base + (n - 1)) with (base + -1 + 1 * n) by lia.
      apply Z_mod_plus_full. }
    apply slot_of_inj in E'; lia.
Qed.

(** Data past the newest element does not matter. *)
Lemma ring_prefix n base buf q1 q2 : ring_at n base buf (q1 ++ q2) -> ring_at n base buf q1.
Proof.
  intros [H1 H2 H3 H4]. rewrite length_app in H3. split; [done|done|lia|]. intros i x Hx. apply H4.
  by apply lookup_app_l_Some.
Qed.
End ring.
