(* ===== verification/RtList.v ===== *)
(** * Intrusive doubly linked lists (rt-thread/include/rtservice.h)

    [rt_list_t] nodes live in a store [heap] that maps an address to the two
    pointers of the node there.  Every C statement is one read or one write of
    that store, in the order of the source; dereferencing an address without a
    node is [None].  [ring h (a :: xs)] says that the nodes [a :: xs] form one
    circular list in [h]; the theorems show that the operations of the header
    implement insertion, removal, the emptiness test and the length on the
    sequence of nodes, and touch no other node. *)
From S2P Require Import Prelude.

Abbreviation loc := positive.

Record rt_list_node := Node { next : loc; prev : loc }.

Abbreviation heap := (gmap loc rt_list_node).

Definition rd_next (h : heap) (l : loc) : option loc := next <$> h !! l.
Definition rd_prev (h : heap) (l : loc) : option loc := prev <$> h !! l.

Definition wr_next (h : heap) (l v : loc) : option heap :=
  nd ← h !! l; Some (<[l := Node v (prev nd)]> h).
Definition wr_prev (h : heap) (l v : loc) : option heap :=
  nd ← h !! l; Some (<[l := Node (next nd) v]> h).

(** [l->next = l->prev = l;] *)
Definition rt_list_init (l : loc) (h : heap) : option heap :=
  h ← wr_prev h l l;
  wr_next h l l.

Definition rt_list_insert_after (l n : loc) (h : heap) : option heap :=
  ln ← rd_next h l;
  h ← wr_prev h ln n;
  ln ← rd_next h l;
  h ← wr_next h n ln;
  h ← wr_next h l n;
  wr_prev h n l.

Definition rt_list_insert_before (l n : loc) (h : heap) : option heap :=
  lp ← rd_prev h l;
  h ← wr_next h lp n;
  lp ← rd_prev h l;
  h ← wr_prev h n lp;
  h ← wr_prev h l n;
  wr_next h n l.

Definition rt_list_remove (n : loc) (h : heap) : option heap :=
  nn ← rd_next h n;
  np ← rd_prev h n;
  h ← wr_prev h nn np;
  np ← rd_prev h n;
  nn ← rd_next h n;
  h ← wr_next h np nn;
  h ← wr_prev h n n;
  wr_next h n n.

Definition rt_list_isempty (l : loc) (h : heap) : option bool :=
  ln ← rd_next h l; Some (bool_decide (ln = l)).

(** The loop of [rt_list_len]: one unit of fuel per iteration; [len] is an
    [unsigned int]. *)
Fixpoint rt_list_len_loop (fuel : nat) (l p : loc) (len : Z) (h : heap) : option Z :=
  match fuel with
  | O => None
  | S fuel =>
      pn ← rd_next h p;
      if bool_decide (pn = l) then Some len
      else rt_list_len_loop fuel l pn (u32 (len + 1)) h
  end.

Definition rt_list_len (fuel : nat) (l : loc) (h : heap) : option Z :=
  rt_list_len_loop fuel l l 0 h.

(** ** Circular lists as sequences *)

Definition link (h : heap) (a b : loc) : Prop :=
  rd_next h a = Some b /\ rd_prev h b = Some a.

(** [chain h a xs b]: following [next] from [a] visits [xs] and arrives at
    [b], and [prev] goes back the same way. *)
Fixpoint chain (h : heap) (a : loc) (xs : list loc) (b : loc) : Prop :=
  match xs with
  | [] => link h a b
  | x :: xs => link h a x /\ chain h x xs b
  end.

Definition ring (h : heap) (c : list loc) : Prop :=
  match c with
  | [] => False
  | a :: xs => NoDup (a :: xs) /\ chain h a xs a
  end.

(** [same_outside h h' c]: the two stores agree off the nodes [c]. *)
Definition same_outside (h h' : heap) (c : list loc) : Prop :=
  forall l, l ∉ c -> h' !! l = h !! l.

Lemma chain_app h a xs z ys b :
  chain h a (xs ++ z :: ys) b <-> chain h a xs z /\ chain h z ys b.
Proof.
  revert a. induction xs as [|x xs IH]; intros a; simpl; [done|].
  rewrite IH. tauto.
Qed.

(** A ring can be read from any of its nodes. *)
Lemma ring_rotate h xs ys : ring h (xs ++ ys) -> ring h (ys ++ xs).
Proof.
  destruct xs as [|x xs]; [by rewrite app_nil_r|].
  destruct ys as [|y ys]; [by rewrite app_nil_r|].
  simpl. rewrite !chain_app. intros [Hnd [H1 H2]]. split; [|done].
  change (y :: ys ++ x :: xs) with ((y :: ys) ++ x :: xs).
  by rewrite (Permutation_app_comm (y :: ys) (x :: xs)).
Qed.

(** [chain] only reads [next] of its sources and [prev] of its targets. *)
Lemma chain_frame h h' a xs b :
  (forall l, l ∈ a :: xs -> rd_next h' l = rd_next h l) ->
  (forall l, l ∈ xs ++ [b] -> rd_prev h' l = rd_prev h l) ->
  chain h a xs b -> chain h' a xs b.
Proof.
  revert a. induction xs as [|x xs IH]; intros a Hn Hp; simpl; unfold link.
  - rewrite Hn, Hp by set_solver. done.
  - intros [[? ?] Hc]. split.
    + rewrite Hn, Hp by set_solver. done.
    + apply IH; set_solver.
Qed.

Lemma ring_frame h h' c :
  (forall l, l ∈ c -> h' !! l = h !! l) -> ring h c -> ring h' c.
Proof.
  destruct c as [|a xs]; simpl; [done|]. intros Heq [Hnd Hc]. split; [done|].
  eapply chain_frame; [..|done]; intros l Hl; unfold rd_next, rd_prev;
    rewrite Heq; set_solver.
Qed.

(** ** Symbolic execution of reads and writes *)
Definition set_next (l v : loc) (h : heap) : heap := alter (fun nd => Node v (prev nd)) l h.
Definition set_prev (l v : loc) (h : heap) : heap := alter (fun nd => Node (next nd) v) l h.

Section Exec.
  Implicit Types (h : heap) (a l v : loc).

Lemma wr_next_ok h l v : is_Some (h !! l) -> wr_next h l v = Some (set_next l v h).
Proof.
    intros [nd Hl]. unfold wr_next, set_next. rewrite Hl; simpl. f_equal.
    apply map_eq. intros i. destruct (decide (i = l)); simplify_map_eq; done.
Qed.
Lemma wr_prev_ok h l v : is_Some (h !! l) -> wr_prev h l v = Some (set_prev l v h).
Proof.
    intros [nd Hl]. unfold wr_prev, set_prev. rewrite Hl; simpl. f_equal.
    apply map_eq. intros i. destruct (decide (i = l)); simplify_map_eq; done.
Qed.
Lemma rd_next_set_next h l v a : is_Some (h !! l) ->
    rd_next (set_next l v h) a = if decide (a = l) then Some v else rd_next h a.
Proof.
    intros [nd Hl]. unfold rd_next, set_next.
    destruct (decide (a = l)); simplify_map_eq; done.
Qed.
Lemma rd_prev_set_prev h l v a : is_Some (h !! l) ->
    rd_prev (set_prev l v h) a = if decide (a = l) then Some v else rd_prev h a.
Proof.
    intros [nd Hl]. unfold rd_prev, set_prev.
    destruct (decide (a = l)); simplify_map_eq; done.
Qed.
Lemma rd_next_set_prev h l v a : rd_next (set_prev l v h) a = rd_next h a.
Proof.
    unfold rd_next, set_prev. rewrite lookup_alter. case_decide; [|done].
    subst. by destruct (h !! a).
Qed.
Lemma rd_prev_set_next h l v a : rd_prev (set_next l v h) a = rd_prev h a.
Proof.
    unfold rd_prev, set_next. rewrite lookup_alter. case_decide; [|done].
    subst. by destruct (h !! a).
Qed.
Lemma dom_set_next h l v a : is_Some (set_next l v h !! a) <-> is_Some (h !! a).
Proof. apply lookup_alter_is_Some. Qed.
Lemma dom_set_prev h l v a : is_Some (set_prev l v h !! a) <-> is_Some (h !! a).
Proof. apply lookup_alter_is_Some. Qed.
Lemma set_next_ne h l v a : a <> l -> set_next l v h !! a = h !! a.
Proof. intros. by apply lookup_alter_ne. Qed.
Lemma set_prev_ne h l v a : a <> l -> set_prev l v h !! a = h !! a.
Proof. intros. by apply lookup_alter_ne. Qed.
Lemma rd_next_is_Some h l v : rd_next h l = Some v -> is_Some (h !! l).
Proof. unfold rd_next. intros (? & ? & ?)%fmap_Some. eauto. Qed.
Lemma rd_prev_is_Some h l v : rd_prev h l = Some v -> is_Some (h !! l).
Proof. unfold rd_prev. intros (? & ? & ?)%fmap_Some. eauto. Qed.
End Exec.

Create HintDb rtlist.
#[export] Hint Resolve rd_next_is_Some rd_prev_is_Some : rtlist.
#[export] Hint Resolve <- dom_set_next dom_set_prev : rtlist.

(** [exec] runs the reads and writes of an operation whose nodes exist. *)
Ltac exec :=
  repeat (simpl; match goal with
  | |- context [wr_next ?h ?l ?v] => rewrite (wr_next_ok h l v) by eauto with rtlist
  | |- context [wr_prev ?h ?l ?v] => rewrite (wr_prev_ok h l v) by eauto with rtlist
  | |- context [rd_next (set_next ?l ?v ?h) ?a] =>
      rewrite (rd_next_set_next h l v a) by eauto with rtlist
  | |- context [rd_prev (set_prev ?l ?v ?h) ?a] =>
      rewrite (rd_prev_set_prev h l v a) by eauto with rtlist
  | |- context [rd_next (set_prev _ _ _) _] => rewrite rd_next_set_prev
  | |- context [rd_prev (set_next _ _ _) _] => rewrite rd_prev_set_next
  | H : rd_next ?h ?l = Some _ |- context [rd_next ?h ?l] => rewrite H
  | H : rd_prev ?h ?l = Some _ |- context [rd_prev ?h ?l] => rewrite H
  | |- context [decide (?x = ?x)] => rewrite (decide_True (P := x = x)) by done
  | _ => case_decide; subst; try congruence
  end).

(** [exec_off]: the same for a node [l] that the operation does not write. *)
Ltac exec_off :=
  repeat match goal with
  | |- context [rd_next (set_next ?l ?v ?h) ?a] =>
      rewrite (rd_next_set_next h l v a) by eauto with rtlist; rewrite decide_False by set_solver
  | |- context [rd_prev (set_prev ?l ?v ?h) ?a] =>
      rewrite (rd_prev_set_prev h l v a) by eauto with rtlist; rewrite decide_False by set_solver
  | |- context [rd_next (set_prev _ _ _) _] => rewrite rd_next_set_prev
  | |- context [rd_prev (set_next _ _ _) _] => rewrite rd_prev_set_next
  end.

Lemma NoDup_snoc (l : list loc) x : NoDup (l ++ [x]) <-> NoDup l /\ x ∉ l.
Proof.
  rewrite NoDup_app. pose proof (NoDup_singleton x). set_solver.
Qed.

Lemma chain_head h a xs b :
  chain h a xs b -> rd_next h a = Some (default b (head xs)) /\
                    rd_prev h (default b (head xs)) = Some a.
Proof. destruct xs; simpl; unfold link; tauto. Qed.

(** Inserting after the first node of a ring. *)
Lemma insert_after_ring h a n xs :
  ring h (a :: xs) -> n ∉ a :: xs -> is_Some (h !! n) ->
  exists h', rt_list_insert_after a n h = Some h' /\ ring h' (a :: n :: xs) /\
    same_outside h h' (a :: n :: xs).
Proof.
  intros [Hnd Hc] Hn Hdom. destruct (chain_head _ _ _ _ Hc) as [Hna Hpz].
  set (z := default a (head xs)) in *.
  assert (z ∈ a :: xs) by (unfold z; destruct xs; set_solver).
  assert (z <> n /\ a <> n) as [] by set_solver.
  eexists. split; [unfold rt_list_insert_after; exec; done|].
  split; [split; [rewrite !NoDup_cons; rewrite NoDup_cons in Hnd; set_solver|]|].
  - simpl. split.
    + split; exec; done.
    + destruct xs as [|x xs]; simpl in *; subst z.
      * split; exec; done.
      * apply NoDup_cons in Hnd as [? [? ?]%NoDup_cons].
        assert (x <> n /\ x <> a /\ a <> n) as (? & ? & ?) by set_solver.
        destruct Hc as [_ Hc]. split; [split; exec; done|].
        eapply chain_frame; [..|exact Hc]; intros l Hl; exec_off; done.
  - intros l Hl. rewrite !set_prev_ne, !set_next_ne, set_prev_ne by set_solver. done.
Qed.

Lemma chain_snoc h a xs z b :
  chain h a (xs ++ [z]) b <-> chain h a xs z /\ link h z b.
Proof. apply chain_app. Qed.

(** Inserting before the first node of a ring, that is, at its end. *)
Lemma insert_before_ring h b n ys :
  ring h (b :: ys) -> n ∉ b :: ys -> is_Some (h !! n) ->
  exists h', rt_list_insert_before b n h = Some h' /\ ring h' (b :: ys ++ [n]) /\
    same_outside h h' (b :: ys ++ [n]).
Proof.
  intros [Hnd Hc] Hn Hdom.
  assert (NoDup (b :: ys ++ [n])).
  { change (b :: ys ++ [n]) with ((b :: ys) ++ [n]). by rewrite NoDup_snoc. }
  destruct ys as [|z ys _] using rev_ind; simpl in *.
  - assert (b <> n) by set_solver. destruct Hc as [H1 H2]. eexists.
    split; [unfold rt_list_insert_before; exec; done|].
    split; [split; [done|simpl; repeat split; exec; done]|].
    intros l Hl. rewrite !set_next_ne, !set_prev_ne, set_next_ne by set_solver. done.
  - rewrite chain_snoc in Hc. destruct Hc as [Hc [H1 H2]].
    apply NoDup_cons in Hnd as [? [? ?]%NoDup_snoc].
    assert (b <> n /\ z <> n /\ z <> b) as (? & ? & ?) by set_solver.
    eexists. split; [unfold rt_list_insert_before; exec; done|].
    split; [split; [done|]|].
    + rewrite !chain_snoc. repeat split; [|exec; done..].
      eapply chain_frame; [..|exact Hc]; intros l Hl; exec_off; done.
    + intros l Hl. rewrite !set_next_ne, !set_prev_ne, set_next_ne by set_solver. done.
Qed.

(** Removing the first node of a ring leaves it in a ring of its own. *)
Lemma remove_ring h n xs :
  ring h (n :: xs) ->
  exists h', rt_list_remove n h = Some h' /\ ring h' [n] /\ (xs <> [] -> ring h' xs) /\
    same_outside h h' (n :: xs).
Proof.
  intros [Hnd Hc]. destruct xs as [|x xs _] using rev_ind.
  - destruct Hc as [H1 H2]. eexists. split; [unfold rt_list_remove; exec; done|].
    split; [split; [apply NoDup_singleton|split; exec; done]|]. split; [done|].
    intros l Hl. rewrite set_next_ne, set_prev_ne, set_next_ne, set_prev_ne by set_solver. done.
  - rewrite chain_snoc in Hc. destruct Hc as [Hc [H1 H2]].
    destruct (chain_head _ _ _ _ Hc) as [Hnn Hpn].
    set (y := default x (head xs)) in *.
    assert (y ∈ xs ++ [x]) by (unfold y; destruct xs; set_solver).
    apply NoDup_cons in Hnd as [? Hnd]. assert (x <> n) by set_solver.
    assert (y <> n) by set_solver.
    eexists. split; [unfold rt_list_remove; exec; done|].
    split; [split; [apply NoDup_singleton|split; exec; done]|]. split.
    + intros _. destruct xs as [|y' xs]; simpl in *; subst y.
      * split; [apply NoDup_singleton|split; exec; done].
      * split; [done|]. rewrite chain_snoc. destruct Hc as [_ Hc].
        apply NoDup_cons in Hnd as [? [? ?]%NoDup_snoc].
        assert (y' <> x) by set_solver. split; [|split; exec; done].
        eapply chain_frame; [..|exact Hc]; intros l Hl; exec_off; done.
    + intros l Hl. rewrite set_next_ne, set_prev_ne, set_next_ne, set_prev_ne by set_solver. done.
Qed.

(** ** Any position: the ring is rotated to start at the node written *)

Lemma insert_after_at h hd xs pre x post n :
  ring h (hd :: xs) -> hd :: xs = pre ++ x :: post ->
  n ∉ hd :: xs -> is_Some (h !! n) ->
  exists h', rt_list_insert_after x n h = Some h' /\ ring h' (pre ++ x :: n :: post) /\
    same_outside h h' (n :: hd :: xs).
Proof.
  intros Hr E Hn Hdom. rewrite E in *.
  destruct (insert_after_ring h x n (post ++ pre)) as (h' & He & Hr' & Hs);
    [by apply (ring_rotate h pre (x :: post))|set_solver|done|].
  exists h'. split; [done|]. split.
  - by apply (ring_rotate h' (x :: n :: post) pre).
  - intros l Hl. apply Hs. set_solver.
Qed.

Lemma insert_before_at h hd xs pre x post n :
  ring h (hd :: xs) -> hd :: xs = pre ++ x :: post ->
  n ∉ hd :: xs -> is_Some (h !! n) ->
  exists h', rt_list_insert_before x n h = Some h' /\ ring h' (x :: post ++ pre ++ [n]) /\
    same_outside h h' (n :: hd :: xs).
Proof.
  intros Hr E Hn Hdom. rewrite E in *.
  destruct (insert_before_ring h x n (post ++ pre)) as (h' & He & Hr' & Hs);
    [by apply (ring_rotate h pre (x :: post))|set_solver|done|].
  exists h'. rewrite <- (assoc_L (++)) in Hr'. split; [done|]. split; [done|].
  intros l Hl. apply Hs. set_solver.
Qed.

Lemma remove_at h hd pre n post :
  ring h (hd :: pre ++ n :: post) ->
  exists h', rt_list_remove n h = Some h' /\ ring h' [n] /\ ring h' (hd :: pre ++ post) /\
    same_outside h h' (hd :: pre ++ n :: post).
Proof.
  intros Hr.
  destruct (remove_ring h n (post ++ hd :: pre)) as (h' & He & Hn & Hr' & Hs);
    [by apply (ring_rotate h (hd :: pre) (n :: post))|].
  exists h'. split; [done|]. split; [done|]. split.
  - apply (ring_rotate h' post (hd :: pre)), Hr'. by destruct post.
  - intros l Hl. apply Hs. set_solver.
Qed.

(** ** Refinement: a store of disjoint rings

    [rings] maps the first node of every ring to the nodes that follow it.  A
    list head with no entries and a node that is in no list look the same: a
    ring of one node.  [list_step] is the specification on sequences;
    [exec_op] is the code. *)
Abbreviation rings := (gmap loc (list loc)).
Arguments ring : simpl never.

Inductive lop :=
  | InsertAfter (l n : loc)
  | InsertBefore (l n : loc)
  | Remove (n : loc).

Definition exec_op (o : lop) (h : heap) : option heap :=
  match o with
  | InsertAfter l n => rt_list_insert_after l n h
  | InsertBefore l n => rt_list_insert_before l n h
  | Remove n => rt_list_remove n h
  end.

Inductive list_step : rings -> lop -> rings -> Prop :=
  | step_push Q hd xs n :
      Q !! hd = Some xs -> Q !! n = Some [] -> n <> hd ->
      list_step Q (InsertAfter hd n) (<[hd := n :: xs]> (delete n Q))
  | step_after Q hd pre x post n :
      Q !! hd = Some (pre ++ x :: post) -> Q !! n = Some [] -> n <> hd ->
      list_step Q (InsertAfter x n) (<[hd := pre ++ x :: n :: post]> (delete n Q))
  | step_append Q hd xs n :
      Q !! hd = Some xs -> Q !! n = Some [] -> n <> hd ->
      list_step Q (InsertBefore hd n) (<[hd := xs ++ [n]]> (delete n Q))
  | step_before Q hd pre x post n :
      Q !! hd = Some (pre ++ x :: post) -> Q !! n = Some [] -> n <> hd ->
      list_step Q (InsertBefore x n) (<[hd := pre ++ n :: x :: post]> (delete n Q))
  | step_remove Q hd pre n post :
      Q !! hd = Some (pre ++ n :: post) ->
      list_step Q (Remove n) (<[n := []]> (<[hd := pre ++ post]> Q))
  | step_remove_loose Q n :
      Q !! n = Some [] -> list_step Q (Remove n) Q.

Definition store_rep (h : heap) (Q : rings) : Prop :=
  (forall hd xs, Q !! hd = Some xs -> ring h (hd :: xs)) /\
  (forall hd1 xs1 hd2 xs2 l, Q !! hd1 = Some xs1 -> Q !! hd2 = Some xs2 ->
    l ∈ hd1 :: xs1 -> l ∈ hd2 :: xs2 -> hd1 = hd2).

(** Replacing the ring at [hd] and absorbing the loose node [n]. *)
Lemma store_rep_absorb h h' Q hd xs n xs' :
  store_rep h Q -> Q !! hd = Some xs -> Q !! n = Some [] -> n <> hd ->
  ring h' (hd :: xs') -> (forall l, l ∈ xs' -> l = n \/ l ∈ xs) ->
  same_outside h h' (n :: hd :: xs) ->
  store_rep h' (<[hd := xs']> (delete n Q)).
Proof.
  intros [Hr Hd] Hhd Hn Hne Hr' Hsub Hs.
  assert (Hoff : forall k ys l, k <> hd -> k <> n -> Q !! k = Some ys -> l ∈ k :: ys ->
    l ∉ n :: hd :: xs).
  { intros k ys l ?? Hk Hl Hin. apply elem_of_cons in Hin as [->|Hin].
    - by specialize (Hd k ys n [] n Hk Hn Hl ltac:(set_solver)).
    - by specialize (Hd k ys hd xs l Hk Hhd Hl Hin). }
  split.
  - intros k ys Hk. destruct (decide (k = hd)) as [->|]; simplify_map_eq; [done|].
    destruct (decide (k = n)) as [->|]; simplify_map_eq.
    eapply ring_frame; [|by apply Hr]. intros l Hl. apply Hs. eauto.
  - intros k1 ys1 k2 ys2 l H1 H2 Hl1 Hl2.
    destruct (decide (k1 = n)) as [->|]; [simplify_map_eq|].
    destruct (decide (k2 = n)) as [->|]; [simplify_map_eq|].
    assert (Hx : l ∈ hd :: xs' -> l ∈ n :: hd :: xs) by set_solver.
    destruct (decide (k1 = hd)) as [->|], (decide (k2 = hd)) as [->|]; simplify_map_eq; eauto.
    + by destruct (Hoff k2 ys2 l); auto.
    + by destruct (Hoff k1 ys1 l); auto.
Qed.

(** Splitting the node [n] off the ring at [hd]. *)
Lemma store_rep_split h h' Q hd pre n post :
  store_rep h Q -> Q !! hd = Some (pre ++ n :: post) ->
  ring h' [n] -> ring h' (hd :: pre ++ post) ->
  same_outside h h' (hd :: pre ++ n :: post) ->
  store_rep h' (<[n := []]> (<[hd := pre ++ post]> Q)).
Proof.
  intros [Hr Hd] Hhd Hn Hr' Hs.
  assert (n ∉ hd :: pre ++ post) as Hnin.
  { destruct (Hr _ _ Hhd) as [Hnd _]. rewrite NoDup_cons, NoDup_app, NoDup_cons in Hnd. set_solver. }
  assert (Hoff : forall k ys l, k <> hd -> Q !! k = Some ys -> l ∈ k :: ys ->
    l ∉ hd :: pre ++ n :: post) by (intros; intros ?; by eauto using eq_sym).
  assert (Hlk : forall k ys, <[n := []]> (<[hd := pre ++ post]> Q) !! k = Some ys ->
    (k = n /\ ys = []) \/ (k <> n /\ k = hd /\ ys = pre ++ post) \/
    (k <> n /\ k <> hd /\ Q !! k = Some ys)).
  { intros k ys. destruct (decide (k = n)); [|destruct (decide (k = hd))];
      intros; simplify_map_eq; auto. }
  split.
  - intros k ys Hk. apply Hlk in Hk as [[-> ->]|[(? & -> & ->)|(? & ? & Hk)]]; [done..|].
    eapply ring_frame; [|by apply Hr]. intros l Hl. apply Hs. eauto.
  - intros k1 ys1 k2 ys2 l Hk1 Hk2 Hl1 Hl2.
    apply Hlk in Hk1 as [[-> ->]|[(? & -> & ->)|(? & ? & Hk1)]],
      Hk2 as [[-> ->]|[(? & -> & ->)|(? & ? & Hk2)]]; eauto; exfalso.
    + set_solver.
    + apply (Hoff k2 ys2 l); [done..|set_solver].
    + set_solver.
    + apply (Hoff k2 ys2 l); [done..|set_solver].
    + apply (Hoff k1 ys1 l); [done..|set_solver].
    + apply (Hoff k1 ys1 l); [done..|set_solver].
Qed.

Lemma store_rep_is_Some h Q hd xs : store_rep h Q -> Q !! hd = Some xs -> is_Some (h !! hd).
Proof.
  intros [Hr _] Hhd. destruct (Hr _ _ Hhd) as [_ Hc].
  apply chain_head in Hc as [? _]. eauto with rtlist.
Qed.

(** The queries. *)
Lemma isempty_ring h hd xs :
  ring h (hd :: xs) -> rt_list_isempty hd h = Some (bool_decide (xs = [])).
Proof.
  intros [Hnd Hc]. destruct (chain_head _ _ _ _ Hc) as [Hn _].
  unfold rt_list_isempty. rewrite Hn; simpl. f_equal. apply bool_decide_ext.
  destruct xs as [|x xs]; simpl; [done|]. apply NoDup_cons in Hnd as [? _].
  split; [set_solver|done].
Qed.

Lemma len_loop_chain h l xs : forall fuel p len,
  chain h p xs l -> l ∉ xs -> (length xs < fuel)%nat -> 0 <= len ->
  len + Z.of_nat (length xs) < 2 ^ 32 ->
  rt_list_len_loop fuel l p len h = Some (len + Z.of_nat (length xs)).
Proof.
  induction xs as [|x xs IH]; intros [|fuel] p len Hc Hl Hf Hle Hb; simpl in *; try lia.
  - destruct Hc as [-> _]; simpl. rewrite bool_decide_true by done. f_equal. lia.
  - destruct Hc as [[-> _] Hc]; simpl. rewrite bool_decide_false by set_solver.
    rewrite wrap_small by lia. rewrite IH; auto; [f_equal; lia|set_solver|lia..].
Qed.

(** C16: the pointer code of rtservice.h refines the operations on sequences:
    whenever the specification steps, the code runs without touching an
    address that holds no node, and the resulting store represents the
    resulting lists. *)
Theorem list_refines h Q o Q' :
  store_rep h Q -> list_step Q o Q' ->
  exists h', exec_op o h = Some h' /\ store_rep h' Q'.
Proof.
  intros Hrep Hstep. pose proof Hrep as [Hr Hd].
  assert (Hfresh : forall Q0 hd xs n, store_rep h Q0 -> Q0 !! hd = Some xs -> Q0 !! n = Some [] ->
    n <> hd -> n ∉ hd :: xs /\ is_Some (h !! n)).
  { intros Q0 hd0 xs0 n0 H0 H1 H2 H3. split; [|by eapply store_rep_is_Some].
    intros Hin. apply H3. eapply H0; eauto. set_solver. }
  inversion Hstep as [? hd xs n H1 H2 H3|? hd pre x post n H1 H2 H3|? hd xs n H1 H2 H3
    |? hd pre x post n H1 H2 H3|? hd pre n post H1|? n H1]; subst;
    try (destruct (Hfresh _ _ _ _ Hrep H1 H2 H3) as [Hnin Hdom]); simpl.
  - destruct (insert_after_at h hd xs [] hd xs n) as (h' & ? & ? & ?); auto.
    exists h'. split; [done|]. eapply store_rep_absorb; eauto. set_solver.
  - destruct (insert_after_at h hd _ (hd :: pre) x post n (Hr _ _ H1)) as (h' & ? & ? & ?); auto.
    exists h'. split; [done|]. eapply store_rep_absorb; eauto. set_solver.
  - destruct (insert_before_at h hd xs [] hd xs n) as (h' & ? & ? & ?); auto.
    exists h'. split; [done|]. eapply store_rep_absorb; eauto. set_solver.
  - destruct (insert_before_at h hd _ (hd :: pre) x post n (Hr _ _ H1)) as (h' & ? & Hr' & ?); auto.
    exists h'. split; [done|]. eapply store_rep_absorb; eauto; [|set_solver].
    apply (ring_rotate h' (x :: post) (hd :: pre ++ [n])) in Hr'.
    by simpl in Hr'; rewrite <- (assoc_L (++)) in Hr'.
  - destruct (remove_at h hd pre n post (Hr _ _ H1)) as (h' & ? & ? & ? & ?).
    exists h'. split; [done|]. eapply store_rep_split; eauto.
  - destruct (remove_ring h n [] (Hr _ _ H1)) as (h' & ? & Hn & _ & Hs).
    exists h'. split; [done|]. split; [|done]. intros hd xs Hhd.
    destruct (decide (hd = n)) as [->|Hne]; [by simplify_map_eq|].
    eapply ring_frame; [|by apply Hr]. intros l Hl. apply Hs.
    intros ->%list_elem_of_singleton. apply Hne. by eapply (Hd hd xs n [] n); [..|set_solver].
Qed.

(** [rt_list_isempty] decides emptiness, and the loop of [rt_list_len]
    ends and counts the entries, for any list shorter than 2^32. *)
Theorem list_queries h hd xs :
  ring h (hd :: xs) -> Z.of_nat (length xs) < 2 ^ 32 ->
  rt_list_isempty hd h = Some (bool_decide (xs = [])) /\
  (forall fuel, (length xs < fuel)%nat ->
    rt_list_len fuel hd h = Some (Z.of_nat (length xs))).
Proof.
  intros Hr Hb. split; [by apply isempty_ring|]. intros fuel Hf.
  destruct Hr as [Hnd Hc]. apply NoDup_cons in Hnd as [? _].
  unfold rt_list_len. rewrite (len_loop_chain h hd xs); auto; lia.
Qed.

(** A list head 1 with the entry 2, and a loose node 3. *)
Definition demo_heap : heap :=
  {[ 1%positive := Node 2 2; 2%positive := Node 1 1; 3%positive := Node 3 3 ]}.
Definition demo_rings : rings := {[ 1%positive := [2%positive]; 3%positive := [] ]}.

Lemma demo_rep : store_rep demo_heap demo_rings.
Proof.
  assert (Hc : forall k ys, demo_rings !! k = Some ys ->
    (k = 1%positive /\ ys = [2%positive]) \/ (k = 3%positive /\ ys = [])).
  { unfold demo_rings. intros k ys [[<- <-]|[? H]]%lookup_insert_Some; [auto|].
    apply lookup_singleton_Some in H as [<- <-]; auto. }
  split.
  - intros k ys [[-> ->]|[-> ->]]%Hc; (split; [repeat constructor; set_solver|vm_compute; auto]).
  - intros k1 ys1 k2 ys2 l [[-> ->]|[-> ->]]%Hc [[-> ->]|[-> ->]]%Hc; set_solver.
Qed.

Lemma list_refines_witness :
  exists h', exec_op (InsertBefore 1 3) demo_heap = Some h' /\
    store_rep h' (<[1%positive := [2; 3]%positive]> (delete 3%positive demo_rings)).
Proof.
  apply (list_refines _ demo_rings); [apply demo_rep|].
  apply (step_append demo_rings 1%positive [2%positive] 3%positive); [reflexivity..|done].
Defined.

Lemma list_queries_witness :
  rt_list_isempty 1 demo_heap = Some false /\
  (forall fuel, (1 < fuel)%nat -> rt_list_len fuel 1 demo_heap = Some 1).
Proof. apply (list_queries demo_heap 1%positive [2%positive]); [by apply demo_rep|done]. Defined.
