(* ===== verification/RingBuffer.v ===== *)
(** * Byte ring buffer (rt-thread/components/drivers/src/ringbuffer.c)

    The mirror-bit ring buffer of the device drivers.  A failed [RT_ASSERT] or
    a [memcpy] outside an array is [None].  [rb_content] is the abstract
    value, the bytes waiting to be read; the theorems show that every
    operation is the corresponding operation of a bounded FIFO. *)
From S2P Require Import Prelude.

(** The fields keep their C widths: 1-bit mirrors, 15-bit indices, a signed
    16-bit size.  [buffer_ptr] is the pool the field points to. *)
Record rt_ringbuffer := RB {
  buffer_ptr : list Z;
  read_mirror : Z;
  read_index : Z;
  write_mirror : Z;
  write_index : Z;
  buffer_size : Z
}.

Inductive rt_ringbuffer_state :=
  RT_RINGBUFFER_EMPTY | RT_RINGBUFFER_FULL | RT_RINGBUFFER_HALFFULL.

(** [~m] stored in a 1-bit field. *)
Definition flip (m : Z) : Z := wrap 1 (Z.lnot m).

(** [memcpy(&dst[doff], &src[soff], n)]; out of bounds is [None]. *)
Definition memcpy (dst : list Z) (doff : Z) (src : list Z) (soff n : Z) : option (list Z) :=
  if bool_decide (0 <= doff /\ 0 <= soff /\ 0 <= n /\
      doff + n <= Z.of_nat (length dst) /\ soff + n <= Z.of_nat (length src))
  then Some (take (Z.to_nat doff) dst ++ take (Z.to_nat n) (drop (Z.to_nat soff) src)
             ++ drop (Z.to_nat (doff + n)) dst)
  else None.

Definition rt_ringbuffer_status (rb : rt_ringbuffer) : rt_ringbuffer_state :=
  if read_index rb =? write_index rb then
    if read_mirror rb =? write_mirror rb then RT_RINGBUFFER_EMPTY else RT_RINGBUFFER_FULL
  else RT_RINGBUFFER_HALFFULL.

(** The result is an [rt_size_t]. *)
Definition rt_ringbuffer_data_len (rb : rt_ringbuffer) : Z :=
  u32 match rt_ringbuffer_status rb with
  | RT_RINGBUFFER_EMPTY => 0
  | RT_RINGBUFFER_FULL => buffer_size rb
  | RT_RINGBUFFER_HALFFULL =>
      if write_index rb >? read_index rb then write_index rb - read_index rb
      else buffer_size rb - (read_index rb - write_index rb)
  end.

Definition rt_ringbuffer_space_len (rb : rt_ringbuffer) : Z :=
  u32 (buffer_size rb - rt_ringbuffer_data_len rb).

(** [size] has type [rt_int16_t]; [RT_ALIGN_DOWN(size, 4)] is [size & ~3]. *)
Definition rt_ringbuffer_init (pool : list Z) (size : Z) : option rt_ringbuffer :=
  if size >? 0 then
    Some (RB pool 0 0 0 0 (i16 (Z.land size (Z.lnot (4 - 1)))))
  else None.

Definition rt_ringbuffer_reset (rb : rt_ringbuffer) : rt_ringbuffer :=
  RB (buffer_ptr rb) 0 0 0 0 (buffer_size rb).

Definition set_write (rb : rt_ringbuffer) (buf : list Z) (wm wi : Z) : rt_ringbuffer :=
  RB buf (read_mirror rb) (read_index rb) wm (wrap 15 wi) (buffer_size rb).
Definition set_read (rb : rt_ringbuffer) (rm ri : Z) : rt_ringbuffer :=
  RB (buffer_ptr rb) rm (wrap 15 ri) (write_mirror rb) (write_index rb) (buffer_size rb).

(** The copy shared by [put] and [put_force]: one [memcpy] when the data fits
    before the end of the pool, two and a mirror flip when it does not. *)
Definition write_block (rb : rt_ringbuffer) (ptr : list Z) (length : Z) : option rt_ringbuffer :=
  let tail := buffer_size rb - write_index rb in
  if tail >? length then
    buf ← memcpy (buffer_ptr rb) (write_index rb) ptr 0 length;
    Some (set_write rb buf (write_mirror rb) (write_index rb + length))
  else
    buf ← memcpy (buffer_ptr rb) (write_index rb) ptr 0 tail;
    buf ← memcpy buf 0 ptr tail (length - tail);
    Some (set_write rb buf (flip (write_mirror rb)) (length - tail)).

(** The result is the returned count and the new buffer. *)
Definition rt_ringbuffer_put (rb : rt_ringbuffer) (ptr : list Z) (length : Z)
    : option (Z * rt_ringbuffer) :=
  let size := u16 (rt_ringbuffer_space_len rb) in
  if size =? 0 then Some (0, rb) else
  let length := if size <? length then size else length in
  rb ← write_block rb ptr length;
  Some (length, rb).

Definition rt_ringbuffer_put_force (rb : rt_ringbuffer) (ptr : list Z) (length : Z)
    : option (Z * rt_ringbuffer) :=
  let space_length := u16 (rt_ringbuffer_space_len rb) in
  let ptr := if length >? buffer_size rb
             then drop (Z.to_nat (length - buffer_size rb)) ptr else ptr in
  let length := if length >? buffer_size rb then buffer_size rb else length in
  if buffer_size rb - write_index rb >? length then
    rb ← write_block rb ptr length;
    Some (length,
      if length >? space_length then set_read rb (read_mirror rb) (write_index rb) else rb)
  else
    rb ← write_block rb ptr length;
    Some (length,
      if length >? space_length
      then set_read rb (flip (read_mirror rb)) (write_index rb) else rb).

(** [get] fills the caller's array [ptr]; the result is the count, the array
    and the new buffer. *)
Definition rt_ringbuffer_get (rb : rt_ringbuffer) (ptr : list Z) (length : Z)
    : option (Z * list Z * rt_ringbuffer) :=
  let size := rt_ringbuffer_data_len rb in
  if size =? 0 then Some (0, ptr, rb) else
  let length := if size <? length then u16 size else length in
  let tail := buffer_size rb - read_index rb in
  if tail >? length then
    ptr ← memcpy ptr 0 (buffer_ptr rb) (read_index rb) length;
    Some (length, ptr, set_read rb (read_mirror rb) (read_index rb + length))
  else
    ptr ← memcpy ptr 0 (buffer_ptr rb) (read_index rb) tail;
    ptr ← memcpy ptr tail (buffer_ptr rb) 0 (length - tail);
    Some (length, ptr, set_read rb (flip (read_mirror rb)) (length - tail)).

(** [peak] returns an address inside the pool: its offset, [None] for
    [RT_NULL]. *)
Definition rt_ringbuffer_peak (rb : rt_ringbuffer) : Z * option Z * rt_ringbuffer :=
  let size := rt_ringbuffer_data_len rb in
  if size =? 0 then (0, None, rb) else
  if buffer_size rb - read_index rb >? size then
    (size, Some (read_index rb), set_read rb (read_mirror rb) (read_index rb + size))
  else
    (buffer_size rb - read_index rb, Some (read_index rb),
     set_read rb (flip (read_mirror rb)) 0).

(** [rb->buffer_ptr[i] = ch] *)
Definition store_byte (buf : list Z) (i ch : Z) : option (list Z) := memcpy buf i [ch] 0 1.

Definition rt_ringbuffer_putchar (rb : rt_ringbuffer) (ch : Z) : option (Z * rt_ringbuffer) :=
  if rt_ringbuffer_space_len rb =? 0 then Some (0, rb) else
  buf ← store_byte (buffer_ptr rb) (write_index rb) ch;
  Some (1, if write_index rb =? buffer_size rb - 1
           then set_write rb buf (flip (write_mirror rb)) 0
           else set_write rb buf (write_mirror rb) (write_index rb + 1)).

Definition is_full (st : rt_ringbuffer_state) : bool :=
  match st with RT_RINGBUFFER_FULL => true | _ => false end.

Definition rt_ringbuffer_putchar_force (rb : rt_ringbuffer) (ch : Z)
    : option (Z * rt_ringbuffer) :=
  let old_state := rt_ringbuffer_status rb in
  buf ← store_byte (buffer_ptr rb) (write_index rb) ch;
  Some (1,
    if write_index rb =? buffer_size rb - 1 then
      let rb := set_write rb buf (flip (write_mirror rb)) 0 in
      if is_full old_state then set_read rb (flip (read_mirror rb)) (write_index rb) else rb
    else
      let rb := set_write rb buf (write_mirror rb) (write_index rb + 1) in
      if is_full old_state then set_read rb (read_mirror rb) (write_index rb) else rb).

Definition rt_ringbuffer_getchar (rb : rt_ringbuffer) : option (Z * option Z * rt_ringbuffer) :=
  if rt_ringbuffer_data_len rb =? 0 then Some (0, None, rb) else
  ch ← buffer_ptr rb !! Z.to_nat (read_index rb);
  Some (1, Some ch,
    if read_index rb =? buffer_size rb - 1
    then set_read rb (flip (read_mirror rb)) 0
    else set_read rb (read_mirror rb) (read_index rb + 1)).

Definition rt_ringbuffer_get_size (rb : rt_ringbuffer) : Z := u16 (buffer_size rb).

(** [rt_ringbuffer_create]: the two allocations are [alloc] (the address or
    [None] for [RT_NULL]), whose contents are arbitrary; the middle result is
    what the function frees again on the way out. *)
Definition rt_ringbuffer_create (size : Z) (alloc_rb : option unit) (alloc_pool : option (list Z))
    : option (option rt_ringbuffer * bool) :=
  if size >? 0 then
    let size := u16 (Z.land size (Z.lnot (4 - 1))) in
    match alloc_rb with
    | None => Some (None, false)
    | Some _ =>
        match alloc_pool with
        | None => Some (None, true)
        | Some pool => rb ← rt_ringbuffer_init pool (i16 size); Some (Some rb, false)
        end
    end
  else None.

(** ** Rotations of the pool *)

Section Rotation.
Context {A : Type}.
  Implicit Types (l d : list A).
  Local Open Scope nat_scope.

  (** The pool read circularly from offset [r]. *)
Definition rot (r : nat) l : list A := drop r l ++ take r l.

Lemma length_rot r l : length (rot r l) = length l.
Proof. unfold rot. rewrite length_app, length_drop, length_take. lia. Qed.

  (** Advancing the starting point by [n], with wrap-around. *)
Definition adv (size r n : nat) : nat := if r + n <? size then r + n else r + n - size.

Lemma rot_adv r n l : r < length l -> n <= length l ->
    rot (adv (length l) r n) l = drop n (rot r l) ++ take n (rot r l).
Proof.
    intros Hr Hn. unfold adv, rot. destruct (Nat.ltb_spec (r + n) (length l)).
    - rewrite drop_app_le, take_app_le by (rewrite length_drop; lia).
      rewrite drop_drop, <- (assoc_L (++)), take_take_drop. done.
    - rewrite drop_app_ge, take_app_ge by (rewrite length_drop; lia).
      rewrite length_drop, take_take, Nat.min_l by lia.
      rewrite (assoc_L (++)). f_equal; [|f_equal; lia].
      transitivity (drop (r + n - length l) (take r l ++ drop r l)); [by rewrite take_drop|].
      rewrite drop_app_le by (rewrite length_take; lia). f_equal. f_equal. lia.
Qed.

  (** A block written circularly at [w] replaces the first bytes of the
      rotation at [w]. *)
Lemma rot_write_inside w d l : w + length d < length l ->
    rot w (take w l ++ d ++ drop (w + length d) l) = d ++ drop (length d) (rot w l).
Proof.
    intros. unfold rot. rewrite drop_app_length', take_app_length' by (rewrite length_take; lia).
    rewrite drop_app_le, drop_drop by (rewrite length_drop; lia).
    by rewrite <- (assoc_L (++)).
Qed.
Lemma rot_write_wrap w d1 d2 l : w + length d1 = length l -> length d2 <= w ->
    rot w (d2 ++ drop (length d2) (take w l ++ d1)) =
    (d1 ++ d2) ++ drop (length d1 + length d2) (rot w l).
Proof.
    intros. unfold rot. rewrite (drop_app_le (take w l)) by (rewrite length_take; lia).
    rewrite (assoc_L (++) d2), drop_app_length', take_app_length'
      by (rewrite length_app, length_drop, length_take; lia).
    rewrite drop_app_ge by (rewrite length_drop; lia). rewrite length_drop.
    rewrite <- (assoc_L (++)). do 3 f_equal. lia.
Qed.
End Rotation.

(** ** Well-formed buffers and their contents *)

Record rb_wf (rb : rt_ringbuffer) : Prop := {
  wf_size : 0 < buffer_size rb < 2 ^ 15;
  wf_pool : Z.of_nat (length (buffer_ptr rb)) = buffer_size rb;
  wf_ri : 0 <= read_index rb < buffer_size rb;
  wf_wi : 0 <= write_index rb < buffer_size rb;
  wf_mirrors : (read_mirror rb = 0 \/ read_mirror rb = 1) /\
               (write_mirror rb = 0 \/ write_mirror rb = 1);
  wf_same : read_mirror rb = write_mirror rb -> read_index rb <= write_index rb;
  wf_diff : read_mirror rb <> write_mirror rb -> write_index rb <= read_index rb
}.

Definition rb_count (rb : rt_ringbuffer) : Z :=
  if read_mirror rb =? write_mirror rb then write_index rb - read_index rb
  else buffer_size rb - read_index rb + write_index rb.

(** The bytes waiting to be read, oldest first. *)
Definition rb_content (rb : rt_ringbuffer) : list Z :=
  take (Z.to_nat (rb_count rb)) (rot (Z.to_nat (read_index rb)) (buffer_ptr rb)).

Lemma flip_0 : flip 0 = 1. Proof. reflexivity. Qed.
Lemma flip_1 : flip 1 = 0. Proof. reflexivity. Qed.
#[export] Hint Rewrite flip_0 flip_1 : rb.

Section Content.
Variable rb : rt_ringbuffer.
Hypothesis Hwf : rb_wf rb.

Lemma rb_count_range : 0 <= rb_count rb <= buffer_size rb.
Proof.
    destruct Hwf. unfold rb_count. destruct (Z.eqb_spec (read_mirror rb) (write_mirror rb)); lia.
Qed.

Lemma data_len_count : rt_ringbuffer_data_len rb = rb_count rb.
Proof.
    pose proof rb_count_range as Hr. destruct Hwf.
    unfold rt_ringbuffer_data_len. rewrite wrap_small; unfold rb_count, rt_ringbuffer_status in *;
      destruct (Z.eqb_spec (read_index rb) (write_index rb)),
        (Z.eqb_spec (read_mirror rb) (write_mirror rb));
      rewrite ?Z.gtb_ltb in *; try destruct (Z.ltb_spec (read_index rb) (write_index rb)); lia.
Qed.

Lemma space_len_count : rt_ringbuffer_space_len rb = buffer_size rb - rb_count rb.
Proof.
    unfold rt_ringbuffer_space_len. rewrite data_len_count.
    pose proof rb_count_range. destruct Hwf. apply wrap_small. lia.
Qed.

Lemma length_content : Z.of_nat (length (rb_content rb)) = rb_count rb.
Proof.
    pose proof rb_count_range. destruct Hwf. unfold rb_content.
    rewrite length_take, length_rot. lia.
Qed.

Lemma wi_adv : Z.to_nat (write_index rb) =
    adv (length (buffer_ptr rb)) (Z.to_nat (read_index rb)) (Z.to_nat (rb_count rb))
    \/ rb_count rb = buffer_size rb /\ write_index rb = read_index rb.
Proof.
    pose proof rb_count_range. destruct Hwf. unfold adv, rb_count in *.
    destruct (Z.eqb_spec (read_mirror rb) (write_mirror rb)); [left|
      destruct (decide (write_index rb = read_index rb)); [right; lia|left]];
    match goal with |- context [Nat.ltb ?a ?b] => destruct (Nat.ltb_spec a b) end; lia.
Qed.

  (** The contents are the bytes just before the write index. *)
Lemma content_before_write : rb_content rb =
    drop (Z.to_nat (buffer_size rb - rb_count rb))
      (rot (Z.to_nat (write_index rb)) (buffer_ptr rb)).
Proof.
    pose proof rb_count_range. destruct Hwf as [Hs Hp Hri Hwi _ _ _].
    assert (Hl : length (rot (Z.to_nat (read_index rb)) (buffer_ptr rb)) = Z.to_nat (buffer_size rb))
      by (rewrite length_rot; lia).
    destruct wi_adv as [->|[Hc Hw]].
    - rewrite rot_adv by lia. rewrite drop_app_length'; [done|].
      rewrite length_drop, Hl. lia.
    - unfold rb_content. rewrite Hc, Hw, Z.sub_diag, drop_0, take_ge; [done|lia].
Qed.
End Content.

Lemma memcpy_ok dst doff src soff n :
  0 <= doff -> 0 <= soff -> 0 <= n -> doff + n <= Z.of_nat (length dst) ->
  soff + n <= Z.of_nat (length src) ->
  memcpy dst doff src soff n = Some (take (Z.to_nat doff) dst ++
    take (Z.to_nat n) (drop (Z.to_nat soff) src) ++ drop (Z.to_nat (doff + n)) dst).
Proof. intros. unfold memcpy. by rewrite bool_decide_true. Qed.

(** [write_block] runs without a bad access, moves the write index by
    [len] and overwrites the [len] bytes that follow it. *)
Lemma write_block_spec rb ptr len :
  rb_wf rb -> 0 <= len <= buffer_size rb -> len <= Z.of_nat (length ptr) ->
  exists buf,
    write_block rb ptr len = Some (
      if buffer_size rb - write_index rb >? len
      then set_write rb buf (write_mirror rb) (write_index rb + len)
      else set_write rb buf (flip (write_mirror rb)) (len - (buffer_size rb - write_index rb))) /\
    Z.of_nat (length buf) = buffer_size rb /\
    rot (Z.to_nat (write_index rb)) buf =
      take (Z.to_nat len) ptr ++
      drop (Z.to_nat len) (rot (Z.to_nat (write_index rb)) (buffer_ptr rb)).
Proof.
  intros [Hs Hp Hri Hwi _ _ _] Hlen Hptr. unfold write_block.
  rewrite Z.gtb_ltb. destruct (Z.ltb_spec len (buffer_size rb - write_index rb)).
  - rewrite memcpy_ok by lia. simpl. eexists. split; [done|].
    rewrite drop_0. split.
    + rewrite !length_app, !length_take, length_drop. lia.
    + set (d := take (Z.to_nat len) ptr).
      assert (length d = Z.to_nat len) as Hd by (unfold d; rewrite length_take; lia).
      rewrite Z2Nat.inj_add, <- Hd by lia. apply rot_write_inside. lia.
  - set (t := buffer_size rb - write_index rb) in *.
    rewrite memcpy_ok by lia. simpl. rewrite drop_0, (drop_ge (buffer_ptr rb)), app_nil_r by lia.
    set (d1 := take (Z.to_nat t) ptr).
    assert (length d1 = Z.to_nat t) as Hd1 by (unfold d1; rewrite length_take; lia).
    rewrite memcpy_ok by (rewrite ?length_app, ?length_take, ?Hd1; lia). simpl.
    set (d2 := take (Z.to_nat (len - t)) (drop (Z.to_nat t) ptr)).
    assert (length d2 = Z.to_nat (len - t)) as Hd2 by (unfold d2; rewrite length_take, length_drop; lia).
    eexists. split; [done|]. replace (Z.to_nat (0 + (len - t))) with (length d2) by lia. split.
    + rewrite !length_app, length_drop, length_app, length_take. lia.
    + rewrite rot_write_wrap by lia. f_equal; [|f_equal; lia].
      unfold d1, d2. rewrite take_take_drop. f_equal. lia.
Qed.

(** The write index after a block, as an advance of the rotation. *)
Lemma write_advance size wi len (buf : list Z) :
  0 < size -> Z.of_nat (length buf) = size -> 0 <= wi < size -> 0 <= len <= size ->
  (if size - wi >? len then wi + len else len - (size - wi)) =
  Z.of_nat (adv (length buf) (Z.to_nat wi) (Z.to_nat len)).
Proof.
  intros. unfold adv. rewrite Z.gtb_ltb.
  destruct (Z.ltb_spec len (size - wi)), (Nat.ltb_spec (Z.to_nat wi + Z.to_nat len) (length buf)); lia.
Qed.

(** Case analysis on the two mirror bits. *)
Ltac mirrors :=
  match goal with
  | H : (?a = 0 \/ ?a = 1) /\ (?b = 0 \/ ?b = 1) |- _ =>
      destruct H as [[Hrm|Hrm] [Hwm|Hwm]]; rewrite Hrm, Hwm in *
  end.

(** The state after a block of [len] bytes that fits in the free space. *)
Lemma write_block_fits rb ptr len :
  rb_wf rb -> 0 <= len <= buffer_size rb - rb_count rb -> len <= Z.of_nat (length ptr) ->
  exists rb', write_block rb ptr len = Some rb' /\ rb_wf rb' /\
    buffer_size rb' = buffer_size rb /\
    rb_content rb' = rb_content rb ++ take (Z.to_nat len) ptr.
Proof.
  intros Hwf Hlen Hptr. pose proof (rb_count_range _ Hwf) as Hc.
  destruct (write_block_spec rb ptr len Hwf) as (buf & He & Hbuf & Hrot); [lia..|].
  rewrite He. eexists. split; [done|].
  match goal with |- rb_wf ?x /\ _ => set (rb' := x) end.
  pose proof Hwf as [Hs Hp Hri Hwi Hm Hsm Hdf].
  assert (Hwf' : rb_wf rb' /\ rb_count rb' = rb_count rb + len).
  { unfold rb_count in Hlen, Hc |- *. unfold rb'. rewrite Z.gtb_ltb.
    destruct (Z.ltb_spec len (buffer_size rb - write_index rb));
      (split; [split|]); simpl; rewrite ?wrap_small by lia;
      mirrors; rewrite ?flip_0, ?flip_1; simpl in *; lia. }
  destruct Hwf' as [Hwf' Hcount]. split; [done|].
  assert (Hsz : buffer_size rb' = buffer_size rb) by (unfold rb'; by destruct (_ >? _)).
  assert (Hb : buffer_ptr rb' = buf) by (unfold rb'; by destruct (_ >? _)).
  assert (Hw : Z.to_nat (write_index rb') =
      adv (length buf) (Z.to_nat (write_index rb)) (Z.to_nat len)).
  { rewrite <- (Nat2Z.id (adv _ _ _)), <- (write_advance (buffer_size rb)) by lia.
    unfold rb'. rewrite Z.gtb_ltb.
    destruct (Z.ltb_spec len (buffer_size rb - write_index rb)); simpl; by rewrite wrap_small by lia. }
  split; [done|]. rewrite !content_before_write, Hsz, Hb, Hw, rot_adv, Hrot, Hcount by (done || lia).
  set (d := take _ ptr). assert (length d = Z.to_nat len) as Hd by (unfold d; rewrite length_take; lia).
  set (R := rot _ (buffer_ptr rb)). assert (length R = length buf) by (unfold R; rewrite length_rot; lia).
  rewrite (drop_app_length' d), (take_app_length' d) by done.
  rewrite drop_app_le by (rewrite length_drop; lia). rewrite drop_drop. do 2 f_equal. lia.
Qed.

(** The read side: [k] bytes consumed from the read index. *)
Definition advance_read (rb : rt_ringbuffer) (k : Z) : rt_ringbuffer :=
  if buffer_size rb - read_index rb >? k then set_read rb (read_mirror rb) (read_index rb + k)
  else set_read rb (flip (read_mirror rb)) (k - (buffer_size rb - read_index rb)).

Lemma advance_read_spec rb k :
  rb_wf rb -> 0 <= k <= rb_count rb ->
  rb_wf (advance_read rb k) /\ buffer_size (advance_read rb k) = buffer_size rb /\
  rb_content (advance_read rb k) = drop (Z.to_nat k) (rb_content rb).
Proof.
  intros Hwf Hk. pose proof (rb_count_range _ Hwf) as Hc.
  pose proof Hwf as [Hs Hp Hri Hwi Hm Hsm Hdf].
  assert (Hwf' : rb_wf (advance_read rb k) /\ rb_count (advance_read rb k) = rb_count rb - k).
  { unfold rb_count in Hk, Hc |- *. unfold advance_read. rewrite Z.gtb_ltb.
    destruct (Z.ltb_spec k (buffer_size rb - read_index rb));
      (split; [split|]); simpl; rewrite ?wrap_small by lia;
      mirrors; rewrite ?flip_0, ?flip_1; simpl in *; lia. }
  destruct Hwf' as [Hwf' Hcount]. split; [done|].
  assert (Hr : buffer_size (advance_read rb k) = buffer_size rb /\
    buffer_ptr (advance_read rb k) = buffer_ptr rb /\
    Z.to_nat (read_index (advance_read rb k)) =
      adv (length (buffer_ptr rb)) (Z.to_nat (read_index rb)) (Z.to_nat k)).
  { rewrite <- (Nat2Z.id (adv _ _ _)), <- (write_advance (buffer_size rb)) by lia.
    unfold advance_read. rewrite Z.gtb_ltb.
    destruct (Z.ltb_spec k (buffer_size rb - read_index rb)); simpl; by rewrite wrap_small by lia. }
  destruct Hr as (Hsz & Hb & Hr). split; [done|].
  unfold rb_content. rewrite Hcount, Hr, Hb, rot_adv by lia.
  set (R := rot _ _). assert (length R = length (buffer_ptr rb)) by apply length_rot.
  rewrite take_app_le by (rewrite length_drop; lia).
  rewrite take_drop_commute. do 2 f_equal. lia.
Qed.

Lemma content_head rb k :
  rb_wf rb -> 0 <= k <= rb_count rb ->
  take (Z.to_nat k) (rb_content rb) =
    if buffer_size rb - read_index rb >? k
    then take (Z.to_nat k) (drop (Z.to_nat (read_index rb)) (buffer_ptr rb))
    else drop (Z.to_nat (read_index rb)) (buffer_ptr rb) ++
         take (Z.to_nat (k - (buffer_size rb - read_index rb))) (buffer_ptr rb).
Proof.
  intros Hwf Hk. pose proof (rb_count_range _ Hwf) as Hc. destruct Hwf.
  unfold rb_content, rot. rewrite take_take, Nat.min_l by lia. rewrite Z.gtb_ltb.
  destruct (Z.ltb_spec k (buffer_size rb - read_index rb)).
  - by rewrite take_app_le by (rewrite length_drop; lia).
  - rewrite take_app_ge by (rewrite length_drop; lia). f_equal.
    rewrite length_drop, take_take. f_equal. lia.
Qed.

(** ** The bounded FIFO that the buffer implements *)
Definition fifo_put (cap : Z) (q data : list Z) : Z * list Z :=
  let n := Z.min (Z.of_nat (length data)) (cap - Z.of_nat (length q)) in
  (n, q ++ take (Z.to_nat n) data).
Definition fifo_get (q : list Z) (n : Z) : Z * list Z * list Z :=
  let n := Z.min n (Z.of_nat (length q)) in
  (n, take (Z.to_nat n) q, drop (Z.to_nat n) q).
(** [put] on a buffer that holds [rb_content rb]. *)
Lemma put_spec rb ptr len :
  rb_wf rb -> len = Z.of_nat (length ptr) -> len < 2 ^ 16 ->
  exists rb', rt_ringbuffer_put rb ptr len =
      Some (fst (fifo_put (buffer_size rb) (rb_content rb) ptr), rb') /\
    rb_wf rb' /\ buffer_size rb' = buffer_size rb /\
    rb_content rb' = snd (fifo_put (buffer_size rb) (rb_content rb) ptr).
Proof.
  intros Hwf -> Hlen. pose proof (rb_count_range _ Hwf). pose proof (wf_size _ Hwf).
  unfold rt_ringbuffer_put, fifo_put; simpl.
  rewrite space_len_count, length_content, wrap_small by (done || lia).
  destruct (Z.eqb_spec (buffer_size rb - rb_count rb) 0) as [E|Hne].
  - exists rb. rewrite E, Z.min_r by lia. by rewrite take_0, app_nil_r.
  - set (n := if _ <? _ then _ else _).
    assert (n = Z.min (Z.of_nat (length ptr)) (buffer_size rb - rb_count rb)) as <-
      by (unfold n; destruct (Z.ltb_spec (buffer_size rb - rb_count rb) (Z.of_nat (length ptr))); lia).
    destruct (write_block_fits rb ptr n Hwf) as (rb' & -> & ? & ? & ?);
      [unfold n; destruct (Z.ltb_spec (buffer_size rb - rb_count rb) (Z.of_nat (length ptr))); lia..|].
    exists rb'. done.
Qed.

(** [get] into an array [ptr] of at least [len] bytes. *)
Lemma get_spec rb ptr len :
  rb_wf rb -> 0 <= len < 2 ^ 16 -> len <= Z.of_nat (length ptr) ->
  let '(n, out, rest) := fifo_get (rb_content rb) len in
  exists rb', rt_ringbuffer_get rb ptr len = Some (n, out ++ drop (Z.to_nat n) ptr, rb') /\
    rb_wf rb' /\ buffer_size rb' = buffer_size rb /\ rb_content rb' = rest.
Proof.
  intros Hwf Hlen Hptr. pose proof (rb_count_range _ Hwf). pose proof (wf_size _ Hwf).
  pose proof (wf_ri _ Hwf). pose proof (wf_pool _ Hwf).
  unfold rt_ringbuffer_get, fifo_get. cbv zeta. rewrite data_len_count, length_content by done.
  destruct (Z.eqb_spec (rb_count rb) 0) as [E|Hne].
  - exists rb. rewrite E, Z.min_r by lia. by rewrite take_0, !drop_0.
  - set (n := if _ <? _ then _ else _).
    assert (Hn : n = Z.min len (rb_count rb)).
    { unfold n. rewrite wrap_small by lia. destruct (Z.ltb_spec (rb_count rb) len); lia. }
    rewrite <- Hn. destruct (advance_read_spec rb n Hwf) as (? & ? & ?); [lia|].
    exists (advance_read rb n). split; [|done].
    rewrite content_head by (done || lia). unfold advance_read. rewrite Z.gtb_ltb.
    destruct (Z.ltb_spec n (buffer_size rb - read_index rb)).
    + rewrite memcpy_ok by lia. simpl. by rewrite ?take_0.
    + set (t := buffer_size rb - read_index rb) in *.
      rewrite memcpy_ok by lia. simpl. rewrite ?take_0; simpl.
      rewrite (take_ge (drop _ (buffer_ptr rb))) by (rewrite length_drop; lia).
      set (d := drop _ (buffer_ptr rb)).
      assert (length d = Z.to_nat t) as Hd by (unfold d; rewrite length_drop; lia).
      rewrite memcpy_ok by (rewrite ?length_app, ?length_drop; lia). simpl.
      rewrite drop_0, (take_app_length' d) by lia. rewrite drop_app_ge by lia.
      rewrite drop_drop, <- (assoc_L (++)). do 6 f_equal. lia.
Qed.

Lemma memcpy_none dst src i : 0 <= i <= Z.of_nat (length src) -> memcpy dst 0 src i 0 = Some dst.
Proof. intros. rewrite memcpy_ok by lia. by rewrite take_0, drop_0. Qed.

(** [putchar] is [put] of one byte. *)
Lemma putchar_put rb ch : rb_wf rb ->
  rt_ringbuffer_putchar rb ch =
    if rt_ringbuffer_space_len rb =? 0 then Some (0, rb)
    else rb' ← write_block rb [ch] 1; Some (1, rb').
Proof.
  intros [Hs Hp Hri Hwi _ _ _]. unfold rt_ringbuffer_putchar, write_block, store_byte.
  destruct (_ =? 0); [done|]. rewrite Z.gtb_ltb.
  destruct (Z.ltb_spec 1 (buffer_size rb - write_index rb)),
    (Z.eqb_spec (write_index rb) (buffer_size rb - 1)); try lia.
  - by destruct (memcpy _ _ _ _ _).
  - replace (buffer_size rb - write_index rb) with 1 by lia.
    destruct (memcpy _ _ _ _ _); simpl; [|done]. by rewrite memcpy_none by (simpl; lia).
Qed.

(** A block that overwrites unread data, with the read index moved to the
    write index on the other side of the mirror. *)
Lemma write_block_over rb ptr len :
  rb_wf rb -> 0 <= len <= buffer_size rb -> buffer_size rb - rb_count rb <= len ->
  len = Z.of_nat (length ptr) ->
  exists rb1, write_block rb ptr len = Some rb1 /\ buffer_size rb1 = buffer_size rb /\
    read_mirror rb1 = read_mirror rb /\
    write_mirror rb1 = (if buffer_size rb - write_index rb >? len then write_mirror rb
                        else flip (write_mirror rb)) /\
    (forall rm, (rm = 0 \/ rm = 1) ->
      let rb2 := set_read rb1 rm (write_index rb1) in
      rb_wf rb2 /\ (rm <> write_mirror rb1 ->
        rb_content rb2 = keep_last (buffer_size rb) (rb_content rb ++ ptr)) /\
      (rm = write_mirror rb1 -> rb_content rb2 = [])).
Proof.
  intros Hwf Hlen Hover Hptr. pose proof (rb_count_range _ Hwf) as Hc.
  destruct (write_block_spec rb ptr len Hwf) as (buf & He & Hbuf & Hrot); [lia..|].
  rewrite He. eexists. split; [done|].
  pose proof Hwf as [Hs Hp Hri Hwi Hm _ _].
  match goal with |- buffer_size ?x = _ /\ _ => set (rb1 := x) end.
  assert (H1 : buffer_size rb1 = buffer_size rb /\ buffer_ptr rb1 = buf /\
      read_mirror rb1 = read_mirror rb) by (unfold rb1; by destruct (_ >? _)).
  assert (Hw : write_index rb1 = Z.of_nat
      (adv (length buf) (Z.to_nat (write_index rb)) (Z.to_nat len))).
  { rewrite <- (write_advance (buffer_size rb)) by lia. unfold rb1. rewrite Z.gtb_ltb.
    destruct (Z.ltb_spec len (buffer_size rb - write_index rb)); simpl; by rewrite wrap_small by lia. }
  assert (Hw1 : 0 <= write_index rb1 < buffer_size rb).
  { rewrite Hw. unfold adv. destruct (Nat.ltb_spec (Z.to_nat (write_index rb) + Z.to_nat len) (length buf)); lia. }
  assert (Hm1 : write_mirror rb1 = 0 \/ write_mirror rb1 = 1).
  { unfold rb1. mirrors; destruct (_ >? _); simpl; rewrite ?Hwm, ?flip_0, ?flip_1; auto. }
  destruct H1 as (H1 & H2 & H3). split; [done|]. split; [done|].
  split; [unfold rb1; by destruct (_ >? _)|]. intros rm Hrm rb2.
  split; [|split].
  - split; simpl; rewrite ?wrap_small by lia; rewrite ?H1, ?H2; try lia.
  - intros Hne. assert (Hcnt : rb_count rb2 = buffer_size rb).
    { unfold rb_count; simpl. rewrite wrap_small by lia.
      destruct (Z.eqb_spec rm (write_mirror rb1)); [done|]. lia. }
    unfold rb_content. rewrite Hcnt. simpl. rewrite wrap_small, H2, take_ge by (rewrite ?length_rot; lia).
    rewrite Hw, Nat2Z.id, rot_adv, Hrot, (take_ge ptr) by lia.
    rewrite drop_app_length', take_app_length' by lia.
    fold (rb_content rb). rewrite content_before_write by done. unfold keep_last.
    set (R := rot _ (buffer_ptr rb)). assert (length R = length buf) by (unfold R; rewrite length_rot; lia).
    rewrite length_app, length_drop, drop_app_le, drop_drop by (rewrite length_drop; lia).
    do 2 f_equal. lia.
  - intros Heq. unfold rb_content, rb_count; simpl.
    rewrite wrap_small by lia. rewrite Heq, Z.eqb_refl, Z.sub_diag. done.
Qed.

Lemma getchar_spec rb : rb_wf rb ->
  exists rb', rt_ringbuffer_getchar rb =
      Some (match rb_content rb with [] => 0 | _ => 1 end, head (rb_content rb), rb') /\
    rb_wf rb' /\ buffer_size rb' = buffer_size rb /\ rb_content rb' = tail (rb_content rb).
Proof.
  intros Hwf. pose proof (length_content _ Hwf) as Hl. pose proof Hwf as [Hs Hp Hri Hwi _ _ _].
  unfold rt_ringbuffer_getchar. rewrite data_len_count by done.
  destruct (Z.eqb_spec (rb_count rb) 0) as [E|Hne].
  - exists rb. destruct (rb_content rb); [done|simpl in Hl; lia].
  - destruct (advance_read_spec rb 1 Hwf) as (H1 & H2 & H3); [lia|].
    pose proof (content_head rb 1 Hwf ltac:(lia)) as Hh.
    destruct (rb_content rb) as [|ch q] eqn:E; [simpl in Hl; lia|]. simpl in Hh.
    destruct (drop (Z.to_nat (read_index rb)) (buffer_ptr rb)) as [|ch' l'] eqn:Ed.
    { apply (f_equal length) in Ed. rewrite length_drop in Ed. simpl in Ed. lia. }
    assert (buffer_ptr rb !! Z.to_nat (read_index rb) = Some ch') as ->.
    { rewrite <- (Nat.add_0_r (Z.to_nat _)), <- lookup_drop, Ed. done. }
    assert (ch' = ch) as -> by (destruct (_ >? _); by simplify_eq/=).
    exists (advance_read rb 1). split; [|done]. simpl. do 2 f_equal.
    unfold advance_read. rewrite Z.gtb_ltb.
    destruct (Z.ltb_spec 1 (buffer_size rb - read_index rb)),
      (Z.eqb_spec (read_index rb) (buffer_size rb - 1)); try lia; [done|].
    f_equal. lia.
Qed.

(** [putchar_force]: the oldest byte is dropped when the buffer is full. *)
Lemma putchar_force_spec rb ch : rb_wf rb ->
  exists rb', rt_ringbuffer_putchar_force rb ch = Some (1, rb') /\ rb_wf rb' /\
    buffer_size rb' = buffer_size rb /\
    rb_content rb' = keep_last (buffer_size rb) (rb_content rb ++ [ch]).
Proof.
  intros Hwf. pose proof (rb_count_range _ Hwf) as Hc. pose proof (length_content _ Hwf) as Hl.
  pose proof Hwf as [Hs Hp Hri Hwi Hm Hsm Hdf].
  assert (Hst : is_full (rt_ringbuffer_status rb) = bool_decide (rb_count rb = buffer_size rb)).
  { unfold rt_ringbuffer_status, rb_count.
    destruct (Z.eqb_spec (read_index rb) (write_index rb)),
      (Z.eqb_spec (read_mirror rb) (write_mirror rb)); simpl; case_bool_decide; try done; lia. }
  assert (Hput : rt_ringbuffer_putchar_force rb ch =
    rb1 ← write_block rb [ch] 1;
    Some (1, if bool_decide (rb_count rb = buffer_size rb)
             then set_read rb1 (if write_index rb =? buffer_size rb - 1
                                then flip (read_mirror rb1) else read_mirror rb1) (write_index rb1)
             else rb1)).
  { unfold rt_ringbuffer_putchar_force, write_block, store_byte. rewrite Hst, Z.gtb_ltb.
    destruct (Z.ltb_spec 1 (buffer_size rb - write_index rb)),
      (Z.eqb_spec (write_index rb) (buffer_size rb - 1)); try lia.
    - destruct (memcpy _ _ _ _ _); simpl; [|done]. by case_bool_decide.
    - replace (buffer_size rb - write_index rb) with 1 by lia.
      destruct (memcpy _ _ _ _ _); simpl; [|done]. rewrite memcpy_none by (simpl; lia).
      simpl. by case_bool_decide. }
  rewrite Hput. case_bool_decide as Hfull.
  - destruct (write_block_over rb [ch] 1 Hwf) as (rb1 & -> & Hb & Hr & Hw & Hover); [simpl; lia..|].
    simpl. eexists. split; [done|].
    assert (read_mirror rb <> write_mirror rb).
    { unfold rb_count in Hfull. destruct (Z.eqb_spec (read_mirror rb) (write_mirror rb)); lia. }
    rewrite Hr. rewrite Z.gtb_ltb in Hw.
    destruct (Hover (if write_index rb =? buffer_size rb - 1 then flip (read_mirror rb) else read_mirror rb))
      as (? & Hcont & _).
    { mirrors; rewrite ?flip_0, ?flip_1; destruct (_ =? _); lia. }
    split; [done|]. split; [done|]. apply Hcont. rewrite Hw.
    destruct (Z.ltb_spec 1 (buffer_size rb - write_index rb)),
      (Z.eqb_spec (write_index rb) (buffer_size rb - 1)); try lia.
    mirrors; rewrite ?flip_0, ?flip_1; lia.
  - destruct (write_block_fits rb [ch] 1 Hwf) as (rb1 & -> & ? & ? & Hcont); [simpl; lia..|].
    simpl. eexists. split; [done|]. split; [done|]. split; [done|].
    rewrite Hcont, keep_last_le; [done|]. rewrite length_app. simpl. lia.
Qed.

(** ** Sequences of operations *)
Inductive rb_op :=
  | OpPut (data : list Z)
  | OpGet (n : Z)
  | OpPutchar (ch : Z)
  | OpPutcharForce (ch : Z)
  | OpGetchar
  | OpDataLen
  | OpReset.

(** The lengths are [rt_uint16_t] arguments. *)
Definition op_ok (o : rb_op) : Prop :=
  match o with
  | OpPut data => Z.of_nat (length data) < 2 ^ 16
  | OpGet n => 0 <= n < 2 ^ 16
  | _ => True
  end.

(** One call: what it returns, the bytes it delivers, the new buffer.  [get]
    is given a zeroed array of the requested size. *)
Definition rb_exec (o : rb_op) (rb : rt_ringbuffer) : option (Z * list Z * rt_ringbuffer) :=
  match o with
  | OpPut data => r ← rt_ringbuffer_put rb data (Z.of_nat (length data)); Some (r.1, [], r.2)
  | OpGet n =>
      r ← rt_ringbuffer_get rb (replicate (Z.to_nat n) 0) n;
      Some (r.1.1, take (Z.to_nat r.1.1) r.1.2, r.2)
  | OpPutchar ch => r ← rt_ringbuffer_putchar rb ch; Some (r.1, [], r.2)
  | OpPutcharForce ch => r ← rt_ringbuffer_putchar_force rb ch; Some (r.1, [], r.2)
  | OpGetchar => r ← rt_ringbuffer_getchar rb; Some (r.1.1, option_list r.1.2, r.2)
  | OpDataLen => Some (rt_ringbuffer_data_len rb, [], rb)
  | OpReset => Some (0, [], rt_ringbuffer_reset rb)
  end.

(** The same call on a bounded FIFO. *)
Definition fifo_exec (cap : Z) (o : rb_op) (q : list Z) : Z * list Z * list Z :=
  match o with
  | OpPut data => ((fifo_put cap q data).1, [], (fifo_put cap q data).2)
  | OpGet n => fifo_get q n
  | OpPutchar ch => ((fifo_put cap q [ch]).1, [], (fifo_put cap q [ch]).2)
  | OpPutcharForce ch => (1, [], keep_last cap (q ++ [ch]))
  | OpGetchar => fifo_get q 1
  | OpDataLen => (Z.of_nat (length q), [], q)
  | OpReset => (0, [], [])
  end.

Fixpoint rb_run (ops : list rb_op) (rb : rt_ringbuffer) : option (list (Z * list Z) * rt_ringbuffer) :=
  match ops with
  | [] => Some ([], rb)
  | o :: ops => r ← rb_exec o rb; r' ← rb_run ops r.2; Some (r.1 :: r'.1, r'.2)
  end.

Fixpoint fifo_run (cap : Z) (ops : list rb_op) (q : list Z) : list (Z * list Z) * list Z :=
  match ops with
  | [] => ([], q)
  | o :: ops =>
      let r := fifo_exec cap o q in let r' := fifo_run cap ops r.2 in (r.1 :: r'.1, r'.2)
  end.

Lemma putchar_spec rb ch : rb_wf rb ->
  exists rb', rt_ringbuffer_putchar rb ch = Some ((fifo_put (buffer_size rb) (rb_content rb) [ch]).1, rb') /\
    rb_wf rb' /\ buffer_size rb' = buffer_size rb /\
    rb_content rb' = (fifo_put (buffer_size rb) (rb_content rb) [ch]).2.
Proof.
  intros Hwf. pose proof (rb_count_range _ Hwf). rewrite putchar_put by done.
  unfold fifo_put; simpl. rewrite space_len_count, length_content by done.
  destruct (Z.eqb_spec (buffer_size rb - rb_count rb) 0) as [E|Hne].
  - exists rb. rewrite E. by rewrite app_nil_r.
  - rewrite Z.min_l by lia.
    destruct (write_block_fits rb [ch] 1 Hwf) as (rb1 & -> & ? & ? & ?); [simpl; lia..|].
    exists rb1. done.
Qed.

Lemma rb_exec_refines o rb : rb_wf rb -> op_ok o ->
  exists rb', rb_exec o rb = Some ((fifo_exec (buffer_size rb) o (rb_content rb)).1, rb') /\
    rb_wf rb' /\ buffer_size rb' = buffer_size rb /\
    rb_content rb' = (fifo_exec (buffer_size rb) o (rb_content rb)).2.
Proof.
  intros Hwf Hok. destruct o as [data|n|ch|ch| | |]; simpl in *.
  - destruct (put_spec rb data _ Hwf eq_refl Hok) as (rb' & -> & ?). by exists rb'.
  - pose proof (get_spec rb (replicate (Z.to_nat n) 0) n Hwf Hok) as Hg.
    rewrite length_replicate in Hg. unfold fifo_get in *; simpl in *.
    destruct Hg as (rb' & -> & ?); [lia|]. exists rb'. split; [|done]. simpl. do 2 f_equal.
    set (m := Z.min _ _). rewrite take_app_le, take_ge; [done|..]; rewrite length_take; lia.
  - destruct (putchar_spec rb ch Hwf) as (rb' & -> & ?). by exists rb'.
  - destruct (putchar_force_spec rb ch Hwf) as (rb' & -> & ?). by exists rb'.
  - destruct (getchar_spec rb Hwf) as (rb' & -> & ? & ? & Hc). exists rb'. simpl.
    destruct (rb_content rb) as [|c q]; simpl in *; rewrite Hc; [done|].
    rewrite Z.min_l by lia. by simpl; rewrite take_0, drop_0.
  - exists rb. by rewrite data_len_count, length_content.
  - exists (rt_ringbuffer_reset rb). split; [done|]. pose proof Hwf as [Hs Hp Hri Hwi _ _ _].
    split; [split; simpl; lia|done].
Qed.

(** C13: over any sequence of [put], [get], [putchar], [putchar_force],
    [getchar], [data_len] and [reset], a well-formed ring buffer returns the
    counts and delivers the bytes of a bounded FIFO of its size, never
    accesses memory outside its pool, and stays well formed. *)
Theorem rb_run_refines ops rb : rb_wf rb -> Forall op_ok ops ->
  exists rb', rb_run ops rb = Some ((fifo_run (buffer_size rb) ops (rb_content rb)).1, rb') /\
    rb_wf rb' /\ rb_content rb' = (fifo_run (buffer_size rb) ops (rb_content rb)).2.
Proof.
  intros Hwf Hok. revert rb Hwf. induction Hok as [|o ops Ho _ IH]; intros rb Hwf; simpl.
  - by exists rb.
  - destruct (rb_exec_refines o rb Hwf Ho) as (rb1 & -> & Hwf1 & Hsz & Hc). simpl.
    destruct (IH rb1 Hwf1) as (rb2 & -> & Hwf2 & Hc2). rewrite Hsz, Hc in *.
    by exists rb2.
Qed.

(** [put_force] keeps the last [buffer_size] bytes of the old contents
    followed by the data, provided the data fit in the free space, or end
    before the end of the pool, or the two indices are on different sides of
    the mirror. *)
Theorem put_force_spec rb ptr len :
  rb_wf rb -> len = Z.of_nat (length ptr) -> len < 2 ^ 16 ->
  len <= buffer_size rb - rb_count rb \/ len < buffer_size rb - write_index rb \/
    read_mirror rb <> write_mirror rb ->
  exists rb', rt_ringbuffer_put_force rb ptr len = Some (Z.min len (buffer_size rb), rb') /\
    rb_wf rb' /\ rb_content rb' = keep_last (buffer_size rb) (rb_content rb ++ ptr).
Proof.
  intros Hwf -> Hlt Hcase. pose proof (rb_count_range _ Hwf) as Hc.
  pose proof (length_content _ Hwf) as Hl. pose proof Hwf as [Hs Hp Hri Hwi Hm Hsm Hdf].
  rewrite <- keep_last_app. unfold rt_ringbuffer_put_force. cbv zeta.
  rewrite space_len_count, wrap_small, !Z.gtb_ltb by (done || lia).
  set (d := keep_last (buffer_size rb) ptr).
  set (n := Z.min (Z.of_nat (length ptr)) (buffer_size rb)).
  replace (if buffer_size rb <? Z.of_nat (length ptr) then _ else ptr) with d; [|
    unfold d, keep_last; destruct (Z.ltb_spec (buffer_size rb) (Z.of_nat (length ptr)));
      [|replace (_ - _)%nat with 0%nat by lia]; [f_equal; lia|done]].
  replace (if buffer_size rb <? Z.of_nat (length ptr) then _ else _) with n by
    (unfold n; destruct (Z.ltb_spec (buffer_size rb) (Z.of_nat (length ptr))); lia).
  assert (Hd : n = Z.of_nat (length d)) by (unfold d, n, keep_last; rewrite length_drop; lia).
  destruct (Z.ltb_spec (buffer_size rb - rb_count rb) n) as [Hov|Hfit].
  - destruct (write_block_over rb d n Hwf) as (rb1 & -> & Hb & Hr & Hw & Hover); [lia..|]. simpl.
    assert (Hdiff : read_mirror rb <> write_mirror rb).
    { destruct Hcase as [|[|]]; [lia| |done]. intros Heq. specialize (Hsm Heq).
      unfold rb_count in Hov. rewrite Heq, Z.eqb_refl in Hov. lia. }
    rewrite Z.gtb_ltb in Hw. rewrite Hr.
    destruct (Z.ltb_spec n (buffer_size rb - write_index rb)); eexists; (split; [done|]);
      (split; [apply Hover|apply Hover]); mirrors; rewrite ?Hw, ?flip_0, ?flip_1; lia.
  - destruct (write_block_fits rb d n Hwf) as (rb1 & -> & ? & Hsz & Hcont); [lia..|]. simpl.
    rewrite Hd, Nat2Z.id, take_ge in Hcont by done.
    destruct (Z.ltb_spec n (buffer_size rb - write_index rb)); eexists; (split; [done|]);
      (split; [done|]); rewrite Hcont, keep_last_le; try done; rewrite length_app; lia.
Qed.

(** otherwise, when the data run past the end of the pool and overwrite
    unread bytes while both indices are on the same side of the mirror,
    [put_force] leaves the buffer empty: it flips both mirror bits. *)
Theorem put_force_loses_data rb ptr len :
  rb_wf rb -> len = Z.of_nat (length ptr) -> len <= buffer_size rb ->
  buffer_size rb - rb_count rb < len -> read_mirror rb = write_mirror rb ->
  exists rb', rt_ringbuffer_put_force rb ptr len = Some (len, rb') /\ rb_content rb' = [].
Proof.
  intros Hwf Hlen Hle Hov Heq. pose proof (rb_count_range _ Hwf) as Hc.
  pose proof Hwf as [Hs Hp Hri Hwi Hm Hsm Hdf]. specialize (Hsm Heq).
  unfold rt_ringbuffer_put_force. cbv zeta.
  rewrite space_len_count, wrap_small, !Z.gtb_ltb by (done || lia).
  destruct (Z.ltb_spec (buffer_size rb) len); [lia|].
  destruct (Z.ltb_spec (buffer_size rb - rb_count rb) len); [|lia].
  destruct (write_block_over rb ptr len Hwf) as (rb1 & -> & Hb & Hr & Hw & Hover); [lia..|].
  assert (len >= buffer_size rb - write_index rb)
    by (unfold rb_count in Hov; rewrite Heq, Z.eqb_refl in Hov; lia).
  rewrite Z.gtb_ltb in Hw. destruct (Z.ltb_spec len (buffer_size rb - write_index rb)); [lia|].
  simpl. eexists. split; [done|]. rewrite Hr.
  apply Hover; [|by rewrite Hw, Heq]. mirrors; rewrite ?flip_0, ?flip_1; auto.
Qed.

(** [peak] hands out the longest contiguous prefix of the contents, in place,
    and consumes it. *)
Lemma peak_spec rb : rb_wf rb ->
  let '(n, off, rb') := rt_ringbuffer_peak rb in
  rb_wf rb' /\ rb_content rb' = drop (Z.to_nat n) (rb_content rb) /\
  n = Z.min (rb_count rb) (buffer_size rb - read_index rb) /\
  match off with
  | Some o => take (Z.to_nat n) (rb_content rb) = take (Z.to_nat n) (drop (Z.to_nat o) (buffer_ptr rb))
  | None => rb_content rb = []
  end.
Proof.
  intros Hwf. pose proof (rb_count_range _ Hwf). pose proof (length_content _ Hwf) as Hl.
  pose proof (wf_ri _ Hwf). pose proof (wf_pool _ Hwf).
  unfold rt_ringbuffer_peak. rewrite data_len_count by done. cbv zeta.
  destruct (Z.eqb_spec (rb_count rb) 0) as [E|Hne].
  { split; [done|]. split; [done|]. split; [lia|]. destruct (rb_content rb); [done|simpl in Hl; lia]. }
  set (n := Z.min (rb_count rb) (buffer_size rb - read_index rb)).
  destruct (advance_read_spec rb n Hwf) as (? & _ & ?); [lia|].
  pose proof (content_head rb n Hwf ltac:(lia)) as Hh. unfold advance_read in *.
  rewrite Z.gtb_ltb in *. destruct (Z.ltb_spec (rb_count rb) (buffer_size rb - read_index rb)).
  - replace (rb_count rb) with n in * by lia. destruct (Z.ltb_spec n (buffer_size rb - read_index rb)); [|lia].
    done.
  - assert (length (drop (Z.to_nat (read_index rb)) (buffer_ptr rb)) = Z.to_nat n)
      by (rewrite length_drop; lia).
    replace (buffer_size rb - read_index rb) with n in * by lia. rewrite Z.ltb_irrefl, Z.sub_diag in *.
    split; [done|]. split; [done|]. split; [done|]. rewrite Hh, take_0, app_nil_r.
    symmetry. apply take_ge. lia.
Qed.

(** A fresh buffer over a pool of [size] bytes, [size >= 4], is empty. *)
Lemma init_spec pool size :
  4 <= size < 2 ^ 15 -> Z.of_nat (length pool) = Z.land size (Z.lnot 3) ->
  exists rb, rt_ringbuffer_init pool size = Some rb /\ rb_wf rb /\
    buffer_size rb = size - size mod 4 /\ rb_content rb = [].
Proof.
  intros Hs Hp. unfold rt_ringbuffer_init. rewrite Z.gtb_ltb.
  destruct (Z.ltb_spec 0 size); [|lia]. change (4 - 1) with 3.
  assert (Hl : Z.land size (Z.lnot 3) = size - size mod 4).
  { change 3 with (Z.ones 2). rewrite <- Z.ldiff_land, Z.ldiff_ones_r, Z.shiftr_div_pow2,
      Z.shiftl_mul_pow2 by lia. change (2 ^ 2) with 4. pose proof (Z.div_mod size 4). lia. }
  pose proof (Z.mod_pos_bound size 4).
  assert (Hi : i16 (Z.land size (Z.lnot 3)) = size - size mod 4) by (rewrite Hl; apply swrap_small; lia).
  rewrite Hi. eexists. split; [done|]. split; [split; simpl; try lia|done].
Qed.

Definition demo_rb : rt_ringbuffer := RB [10; 11; 12; 13] 0 1 0 3 4.
Lemma demo_rb_wf : rb_wf demo_rb.
Proof. split; simpl; lia. Qed.

Lemma rb_run_refines_witness :
  exists rb', rb_run [OpPut [7; 8]; OpGet 3; OpPutcharForce 9] demo_rb =
      Some ([(2, []); (3, [11; 12; 7]); (1, [])], rb') /\ rb_wf rb' /\ rb_content rb' = [8; 9].
Proof.
  apply (rb_run_refines [OpPut [7; 8]; OpGet 3; OpPutcharForce 9] demo_rb demo_rb_wf).
  repeat constructor; simpl; lia.
Defined.

Definition demo_rb_split : rt_ringbuffer := RB [10; 11; 12; 13] 1 3 0 2 4.
Lemma put_force_spec_witness :
  exists rb', rt_ringbuffer_put_force demo_rb_split [1; 2; 3] 3 = Some (3, rb') /\
    rb_wf rb' /\ rb_content rb' = [11; 1; 2; 3].
Proof.
  apply (put_force_spec demo_rb_split [1; 2; 3] 3); [split; simpl; lia|reflexivity|reflexivity|].
  right. right. discriminate.
Defined.

Lemma put_force_loses_data_witness :
  exists rb', rt_ringbuffer_put_force demo_rb [1; 2; 3] 3 = Some (3, rb') /\ rb_content rb' = [].
Proof. apply (put_force_loses_data demo_rb [1; 2; 3] 3 demo_rb_wf); (reflexivity || (vm_compute; congruence)). Defined.
