(* ===== verification/Keyboard.v ===== *)
(** * Keyboard and LED chain (applications/input/keyboard.c, keyboard.h)

    The keyboard is a chain of three shift registers read over SPI: byte 0
    holds keys 16..9 of the main row, byte 1 keys 8..1, byte 2 the function
    keys.  The file-scope array [kb_led_data] and the function-static array
    [button_data_prev] are the state; SPI and the pins are the hardware, a
    parameter and an event list.  An access outside an array is [None]. *)
From S2P Require Import Prelude.

Definition KB_CHAIN_LENGTH : nat := 3.
Definition KB_LATCH_PIN : Z := 3.
Definition PIN_LOW : Z := 0.
Definition PIN_HIGH : Z := 1.

Record ButtonData := { main_row : Z; function : Z }.
Record ButtonEvents := { is_held : ButtonData; just_pressed : ButtonData; just_released : ButtonData }.
Record InputEvents := { button_events : ButtonEvents; enc_button : Z; enc_rotation : Z }.

Inductive FunctionKeys :=
  shift | write_record | page | tuplet | mute_solo | accent_flam | mode | play_pause.

(** [memcpy(led_data, kb_led_data, KB_CHAIN_LENGTH)] *)
Definition kbLEDDataGet (kb_led_data led_data : list Z) : option (list Z) :=
  if ((KB_CHAIN_LENGTH <=? length kb_led_data) && (KB_CHAIN_LENGTH <=? length led_data))%nat%bool
  then Some (take KB_CHAIN_LENGTH kb_led_data ++ drop KB_CHAIN_LENGTH led_data)
  else None.

Inductive hw_event :=
  | PinWrite (pin value : Z)
  | SpiTransfer (sent : list Z)
  | Kprintf.

Section Transfer.
  (** The bytes the chain shifts back while the LED bytes are shifted out;
      [None] when [rt_spi_transfer] returns 0, which leaves the zeroed
      receive buffer as it was. *)
Variable spi_transfer : list Z -> option (list Z).

  (** The inversion loop, [for (i = 0; i < KB_CHAIN_LENGTH; i++)]. *)
Fixpoint invert_loop (n i : nat) (temp button_data : list Z) : option (list Z) :=
    match n with
    | O => Some button_data
    | S n =>
        t ← aget temp i;
        button_data ← aset button_data i (u8 (Z.lnot t));
        invert_loop n (S i) temp button_data
    end.

Definition kbTransferData (led_data button_data : list Z) : option (list hw_event * list Z) :=
    let latch := [PinWrite KB_LATCH_PIN PIN_LOW; PinWrite KB_LATCH_PIN PIN_HIGH] in
    let sent := take KB_CHAIN_LENGTH led_data in
    let '(button_data_temp, log) :=
      match spi_transfer sent with
      | Some received => (received, [])
      | None => (replicate KB_CHAIN_LENGTH 0, [Kprintf])
      end in
    button_data ← invert_loop KB_CHAIN_LENGTH 0 button_data_temp button_data;
    Some (latch ++ [SpiTransfer sent] ++ log, button_data).
End Transfer.

(** The local arrays of [kbParseButtons] and the static one. *)
Record parse_state := Parse {
  p_held : list Z; p_pressed : list Z; p_released : list Z;
  button_data_prev : list Z; update : Z
}.

(** One iteration of the first loop. *)
Definition parse_byte (button_data : list Z) (i : nat) (st : parse_state) : option parse_state :=
  now ← aget button_data i;
  prev ← aget (button_data_prev st) i;
  if now =? prev then Some st
  else
    held ← aset (p_held st) i now;
    pressed ← aset (p_pressed st) i (u8 (Z.land now (Z.lnot prev)));
    released ← aset (p_released st) i (u8 (Z.land (Z.lnot now) prev));
    prevs ← aset (button_data_prev st) i now;
    Some (Parse held pressed released prevs 1).

(** [row |= ((uint16_t)a[i]) << ((1 - i) * 8)] on a 16-bit field. *)
Definition or_byte (a : list Z) (i : nat) (row : Z) : option Z :=
  b ← aget a i; Some (u16 (Z.lor row (Z.shiftl (u16 b) ((1 - Z.of_nat i) * 8)))).

(** The second loop on one of the three [main_row] fields. *)
Definition pack_row (a : list Z) : option Z :=
  row ← or_byte a 0 0; or_byte a 1 row.

Definition kbParseButtons (button_data prevs : list Z) (input_events : InputEvents)
    : option (Z * list Z * InputEvents) :=
  let zero := replicate KB_CHAIN_LENGTH 0 in
  st ← parse_byte button_data 0 (Parse zero zero zero prevs 0);
  st ← parse_byte button_data 1 st;
  if update st =? 0 then Some (update st, button_data_prev st, input_events)
  else
    (* memset of button_events to zero, then the rows are or-ed in *)
    held_row ← pack_row (p_held st);
    pressed_row ← pack_row (p_pressed st);
    released_row ← pack_row (p_released st);
    held_fn ← aget (p_held st) 2;
    pressed_fn ← aget (p_pressed st) 2;
    released_fn ← aget (p_released st) 2;
    Some (update st, button_data_prev st,
      {| button_events :=
           {| is_held := {| main_row := held_row; function := held_fn |};
              just_pressed := {| main_row := pressed_row; function := pressed_fn |};
              just_released := {| main_row := released_row; function := released_fn |} |};
         enc_button := enc_button input_events;
         enc_rotation := enc_rotation input_events |}).

(** ** Facts *)

(** Three bytes, as the chain delivers them. *)
Definition chain_bytes (a : list Z) : Prop :=
  length a = KB_CHAIN_LENGTH /\ Forall (fun b => 0 <= b < 2 ^ 8) a.

(** The main row of a scan: byte 1 is the low half, byte 0 the high half. *)
Definition row_of (b0 b1 : Z) : Z := Z.lor (Z.shiftl b0 8) b1.

Lemma row_testbit b0 b1 k :
  0 <= b0 < 2 ^ 8 -> 0 <= b1 < 2 ^ 8 -> 0 <= k ->
  Z.testbit (row_of b0 b1) k = if k <? 8 then Z.testbit b1 k else Z.testbit b0 (k - 8).
Proof.
  intros H0 H1 Hk. unfold row_of. rewrite Z.lor_spec, Z.shiftl_spec by lia.
  destruct (Z.ltb_spec k 8).
  - by rewrite (Z.testbit_neg_r b0) by lia.
  - by rewrite (testbit_above 8 b1), orb_false_r by lia.
Qed.

Lemma row_range b0 b1 : 0 <= b0 < 2 ^ 8 -> 0 <= b1 < 2 ^ 8 -> 0 <= row_of b0 b1 < 2 ^ 16.
Proof.
  intros H0 H1. apply testbit_range; [lia| |].
  - unfold row_of. apply Z.lor_nonneg. rewrite Z.shiftl_nonneg. lia.
  - intros i Hi. rewrite row_testbit by lia. destruct (Z.ltb_spec i 8); [lia|].
    apply (testbit_above 8); lia.
Qed.

Lemma row_bitwise (f : Z -> Z -> Z) (g : bool -> bool -> bool) :
  (forall a b i, 0 <= i -> Z.testbit (f a b) i = g (Z.testbit a i) (Z.testbit b i)) ->
  (forall a b, 0 <= a < 2 ^ 8 -> 0 <= b < 2 ^ 8 -> 0 <= f a b < 2 ^ 8) ->
  forall a0 a1 b0 b1, 0 <= a0 < 2 ^ 8 -> 0 <= a1 < 2 ^ 8 -> 0 <= b0 < 2 ^ 8 -> 0 <= b1 < 2 ^ 8 ->
  f (row_of a0 a1) (row_of b0 b1) = row_of (f a0 b0) (f a1 b1).
Proof.
  intros Hf Hr a0 a1 b0 b1 ????. apply Z.bits_inj'. intros i Hi.
  rewrite Hf, !row_testbit by auto. destruct (Z.ltb_spec i 8); by rewrite Hf by lia.
Qed.

Lemma byte_ldiff a b : 0 <= a < 2 ^ 8 -> u8 (Z.land a (Z.lnot b)) = Z.ldiff a b.
Proof.
  intros Ha. rewrite <- Z.ldiff_land. apply wrap_small, testbit_range; [lia| |].
  - apply Z.ldiff_nonneg. lia.
  - intros i Hi. by rewrite Z.ldiff_spec, (testbit_above 8 a).
Qed.

Lemma ldiff_range a b : 0 <= a < 2 ^ 8 -> 0 <= b < 2 ^ 8 -> 0 <= Z.ldiff a b < 2 ^ 8.
Proof. intros. rewrite <- byte_ldiff by done. apply wrap_range. lia. Qed.

Lemma row_ldiff a0 a1 b0 b1 :
  0 <= a0 < 2 ^ 8 -> 0 <= a1 < 2 ^ 8 -> 0 <= b0 < 2 ^ 8 -> 0 <= b1 < 2 ^ 8 ->
  row_of (Z.ldiff a0 b0) (Z.ldiff a1 b1) = Z.ldiff (row_of a0 a1) (row_of b0 b1).
Proof.
  intros. symmetry. apply (row_bitwise Z.ldiff (fun x y => x && negb y)); auto.
  - intros. apply Z.ldiff_spec.
  - apply ldiff_range.
Qed.

Lemma pack_row_spec b0 b1 b2 : 0 <= b0 < 2 ^ 8 -> 0 <= b1 < 2 ^ 8 ->
  pack_row [b0; b1; b2] = Some (row_of b0 b1).
Proof.
  intros H0 H1. pose proof (row_range b0 b1 H0 H1).
  pose proof (row_range b0 0 H0 ltac:(lia)) as Hr. unfold row_of in Hr. rewrite Z.lor_0_r in Hr.
  unfold pack_row, or_byte, aget; cbn -[Z.shiftl Z.lor wrap Z.mul].
  change ((1 - Z.of_nat 0) * 8) with 8. change ((1 - Z.of_nat 1) * 8) with 0.
  rewrite Z.shiftl_0_r, (wrap_small 16 b0), (wrap_small 16 b1) by lia.
  rewrite Z.lor_0_l, (wrap_small 16 (Z.shiftl b0 8)) by lia. by rewrite wrap_small.
Qed.

(** What a held key contributes: only bytes that changed are copied. *)
Definition changed (now prev : Z) : Z := if now =? prev then 0 else now.

(** The events of a scan [a0 a1] after a scan [p0 p1]. *)
Definition scan_events (a0 a1 p0 p1 : Z) : ButtonEvents :=
  {| is_held := {| main_row := row_of (changed a0 p0) (changed a1 p1); function := 0 |};
     just_pressed := {| main_row := Z.ldiff (row_of a0 a1) (row_of p0 p1); function := 0 |};
     just_released := {| main_row := Z.ldiff (row_of p0 p1) (row_of a0 a1); function := 0 |} |}.

Lemma parse_byte_eq a i st now prev :
  aget a i = Some now -> aget (button_data_prev st) i = Some prev ->
  (i < length (p_held st))%nat -> (i < length (p_pressed st))%nat ->
  (i < length (p_released st))%nat -> 0 <= now < 2 ^ 8 -> 0 <= prev < 2 ^ 8 ->
  parse_byte a i st = Some (if now =? prev then st else
    Parse (<[i := now]> (p_held st)) (<[i := Z.ldiff now prev]> (p_pressed st))
      (<[i := Z.ldiff prev now]> (p_released st)) (<[i := now]> (button_data_prev st)) 1).
Proof.
  intros Ha Hp H1 H2 H3 Hn Hpr. unfold parse_byte. rewrite Ha, Hp; simpl.
  destruct (now =? prev); [done|]. unfold aset.
  apply lookup_lt_Some in Hp.
  repeat (rewrite (proj2 (Nat.ltb_lt _ _)) by done; simpl).
  by rewrite byte_ldiff, (Z.land_comm (Z.lnot now)), byte_ldiff by done.
Qed.

Lemma kbParseButtons_spec' a0 a1 a2 p0 p1 p2 ev :
  chain_bytes [a0; a1; a2] -> chain_bytes [p0; p1; p2] ->
  kbParseButtons [a0; a1; a2] [p0; p1; p2] ev =
    if (a0 =? p0) && (a1 =? p1) then Some (0, [p0; p1; p2], ev)
    else Some (1, [a0; a1; p2],
      {| button_events := scan_events a0 a1 p0 p1;
         enc_button := enc_button ev; enc_rotation := enc_rotation ev |}).
Proof.
  intros [_ Ha] [_ Hp]. rewrite !Forall_cons in Ha, Hp.
  destruct Ha as (? & ? & ? & _), Hp as (? & ? & ? & _).
  unfold kbParseButtons, scan_events, KB_CHAIN_LENGTH. cbv zeta. rewrite <- !row_ldiff by done. unfold changed.
  erewrite parse_byte_eq by (reflexivity || simpl; lia). cbn -[pack_row parse_byte].
  destruct (Z.eqb_spec a0 p0) as [->|]; cbn -[pack_row parse_byte];
    (erewrite parse_byte_eq by (reflexivity || simpl; lia); cbn -[pack_row parse_byte]);
    destruct (Z.eqb_spec a1 p1) as [->|]; cbn -[pack_row parse_byte]; [done|..];
    rewrite !pack_row_spec by (lia || (apply ldiff_range; done)); simpl;
    rewrite ?Z.ldiff_diag; done.
Qed.

(** [kbParseButtons] on three bytes.  It reports an update exactly when
    one of the two main-row bytes changed, and then stores the edges: the keys
    down now and up before as just pressed, the reverse as just released.  The
    function byte is never looked at, and [is_held] covers only the bytes
    that changed. *)
Theorem kbParseButtons_spec a0 a1 a2 p0 p1 p2 ev :
  chain_bytes [a0; a1; a2] -> chain_bytes [p0; p1; p2] ->
  kbParseButtons [a0; a1; a2] [p0; p1; p2] ev =
    if (a0 =? p0) && (a1 =? p1) then Some (0, [p0; p1; p2], ev)
    else Some (1, [a0; a1; p2],
      {| button_events := scan_events a0 a1 p0 p1;
         enc_button := enc_button ev; enc_rotation := enc_rotation ev |}).
Proof. apply kbParseButtons_spec'. Qed.

(** ** Runs of scans *)

(** One scan by the input task: the previous bytes and the event structure
    are updated in place; the events are delivered when the return is not 0. *)
Definition scan_step (s : list Z * InputEvents) (a : list Z)
    : option (list Z * InputEvents * list ButtonEvents) :=
  r ← kbParseButtons a s.1 s.2;
  let '(upd, prevs, ev) := r in
  Some (prevs, ev, if upd =? 0 then [] else [button_events ev]).

Fixpoint scan_run (scans : list (list Z)) (s : list Z * InputEvents)
    : option (list Z * InputEvents * list ButtonEvents) :=
  match scans with
  | [] => Some (s.1, s.2, [])
  | a :: scans =>
      r ← scan_step s a; r' ← scan_run scans r.1; Some (r'.1, r.2 ++ r'.2)
  end.

Lemma scan_run_snoc scans a s : scan_run (scans ++ [a]) s =
  (r ← scan_run scans s; r' ← scan_step (r.1.1, r.1.2) a; Some (r'.1, r.2 ++ r'.2)).
Proof.
  revert s. induction scans as [|b scans IH]; intros [p ev]; cbn [app scan_run fst snd].
  - cbn. destruct (scan_step (p, ev) a) as [[[]]|]; cbn; [by rewrite app_nil_r|done].
  - destruct (scan_step (p, ev) b) as [[s1 e1]|]; cbn; [|done]. rewrite IH.
    destruct (scan_run scans s1) as [[[p2 v2] e2]|]; cbn; [|done].
    destruct (scan_step (p2, v2) a) as [[s3 e3]|]; cbn; [by rewrite app_assoc|done].
Qed.

(** A receiver that keeps the pressed keys up to date from the edges alone. *)
Definition track (row : Z) (ev : ButtonEvents) : Z :=
  Z.lor (Z.ldiff row (main_row (just_released ev))) (main_row (just_pressed ev)).

(** The keys down in the last scan, [row] if there was none. *)
Definition last_row (scans : list (list Z)) (row : Z) : Z :=
  foldl (fun row a => match a with [a0; a1; _] => row_of a0 a1 | _ => row end) row scans.

Lemma track_edges r r' :
  Z.lor (Z.ldiff r (Z.ldiff r r')) (Z.ldiff r' r) = r'.
Proof.
  bitwise i. destruct (Z.testbit r i), (Z.testbit r' i); done.
Qed.

Lemma edges_disjoint r r' : Z.land (Z.ldiff r' r) (Z.ldiff r r') = 0.
Proof. bitwise i. destruct (Z.testbit r i), (Z.testbit r' i); done. Qed.

Lemma row_inj a0 a1 b0 b1 :
  0 <= a0 < 2 ^ 8 -> 0 <= a1 < 2 ^ 8 -> 0 <= b0 < 2 ^ 8 -> 0 <= b1 < 2 ^ 8 ->
  row_of a0 a1 = row_of b0 b1 -> a0 = b0 /\ a1 = b1.
Proof.
  intros ???? E. assert (Hb : forall k, 0 <= k ->
    Z.testbit (row_of a0 a1) k = Z.testbit (row_of b0 b1) k) by (intros; by rewrite E).
  split; apply Z.bits_inj'; intros k Hk.
  - specialize (Hb (k + 8) ltac:(lia)). rewrite !row_testbit in Hb by lia.
    destruct (Z.ltb_spec (k + 8) 8); [lia|]. by replace (k + 8 - 8) with k in Hb by lia.
  - destruct (Z.lt_ge_cases k 8).
    + specialize (Hb k Hk). rewrite !row_testbit in Hb by lia.
      by rewrite (proj2 (Z.ltb_lt k 8)) in Hb by done.
    + by rewrite !(testbit_above 8) by lia.
Qed.

(** C23: no edge is lost or invented.  Over any sequence of scans the run
    succeeds, and a receiver that starts from the row of the first previous
    bytes and applies the delivered edges ends with exactly the keys that
    are down in the last scan; no event has a key both pressed and released. *)
Theorem scans_tracked scans p0 p1 p2 ev :
  chain_bytes [p0; p1; p2] -> Forall chain_bytes scans ->
  exists prevs ev' evs, scan_run scans ([p0; p1; p2], ev) = Some (prevs, ev', evs) /\
    foldl track (row_of p0 p1) evs = last_row scans (row_of p0 p1) /\
    Forall (fun e => Z.land (main_row (just_pressed e)) (main_row (just_released e)) = 0) evs.
Proof.
  intros Hp Hs. revert p0 p1 Hp ev. induction Hs as [|a scans Ha Hs IH]; intros p0 p1 Hp ev.
  { by exists [p0; p1; p2], ev, []. }
  destruct a as [|a0 [|a1 [|a2 [|]]]]; try (destruct Ha; done).
  assert (Ha2 : chain_bytes [a0; a1; p2]).
  { destruct Ha as [? Ha], Hp as [? Hp]. split; [done|]. rewrite !Forall_cons in *. tauto. }
  cbn [scan_run]. unfold scan_step. cbn [fst snd]. rewrite kbParseButtons_spec' by done.
  change (last_row _ _) with (last_row scans (row_of a0 a1)).
  destruct ((a0 =? p0) && (a1 =? p1)) eqn:E; cbn.
  - apply andb_true_iff in E as [->%Z.eqb_eq ->%Z.eqb_eq].
    destruct (IH p0 p1 Hp ev) as (prevs & ev' & evs & -> & ? & ?). by exists prevs, ev', evs.
  - set (ev1 := Build_InputEvents _ _ _).
    destruct (IH a0 a1 Ha2 ev1) as (prevs & ev' & evs & -> & Htr & Hd).
    exists prevs, ev', (button_events ev1 :: evs). split; [done|]. split.
    + cbn [foldl]. unfold track at 2. cbn. by rewrite track_edges.
    + constructor; [apply edges_disjoint|done].
Qed.

Lemma kbTransferData_run spi led_data button_data :
  length button_data = KB_CHAIN_LENGTH ->
  (forall sent r, spi sent = Some r -> chain_bytes r) ->
  let sent := take KB_CHAIN_LENGTH led_data in
  let latch := [PinWrite KB_LATCH_PIN PIN_LOW; PinWrite KB_LATCH_PIN PIN_HIGH; SpiTransfer sent] in
  kbTransferData spi led_data button_data = Some (
    match spi sent with
    | Some r => (latch, (fun b => 255 - b) <$> r)
    | None => (latch ++ [Kprintf], [255; 255; 255])
    end).
Proof.
  intros Hlen Hspi. cbv zeta. unfold kbTransferData, KB_CHAIN_LENGTH in *.
  destruct button_data as [|d0 [|d1 [|d2 [|]]]]; try done.
  destruct (spi (take 3 led_data)) as [r|] eqn:E; [|reflexivity].
  destruct (Hspi _ _ E) as [Hr Hb]. destruct r as [|r0 [|r1 [|r2 [|]]]]; try done.
  rewrite !Forall_cons in Hb. destruct Hb as (? & ? & ? & _).
  assert (Hinv : forall b, 0 <= b < 2 ^ 8 -> u8 (Z.lnot b) = 255 - b).
  { intros b Hb. unfold wrap, Z.lnot. symmetry. apply (Z.mod_unique_pos _ _ (-1)); lia. }
  cbn -[wrap Z.lnot]. by rewrite !Hinv by done.
Qed.

(** [kbTransferData] latches (low, then high) before it shifts, sends the
    first three LED bytes and stores the complement of the bytes received, so
    a key pulled low reads as 1.  When the transfer fails the receive buffer
    is still zero, so every key reads as pressed. *)
Theorem kbTransferData_spec spi led_data button_data :
  length button_data = KB_CHAIN_LENGTH ->
  (forall sent r, spi sent = Some r -> chain_bytes r) ->
  let sent := take KB_CHAIN_LENGTH led_data in
  let latch := [PinWrite KB_LATCH_PIN PIN_LOW; PinWrite KB_LATCH_PIN PIN_HIGH; SpiTransfer sent] in
  kbTransferData spi led_data button_data = Some (
    match spi sent with
    | Some r => (latch, (fun b => 255 - b) <$> r)
    | None => (latch ++ [Kprintf], [255; 255; 255])
    end).
Proof. apply kbTransferData_run. Qed.

(** ** Witnesses *)
Definition no_events : InputEvents :=
  let z := {| main_row := 0; function := 0 |} in
  {| button_events := {| is_held := z; just_pressed := z; just_released := z |};
     enc_button := 0; enc_rotation := 0 |}.

Ltac bytes := split; [reflexivity|repeat constructor; lia].

(** Key 9 stays down while key 1 is pressed: key 9 is not reported held. *)
Lemma kbParseButtons_spec_witness :
  kbParseButtons [1; 1; 0] [1; 0; 0] no_events =
    Some (1, [1; 1; 0],
      {| button_events :=
           {| is_held := {| main_row := 1; function := 0 |};
              just_pressed := {| main_row := 1; function := 0 |};
              just_released := {| main_row := 0; function := 0 |} |};
         enc_button := 0; enc_rotation := 0 |}).
Proof. apply (kbParseButtons_spec 1 1 0 1 0 0 no_events); bytes. Defined.

Lemma scans_tracked_witness :
  exists prevs ev' evs,
    scan_run [[0; 1; 0]; [128; 1; 0]; [128; 0; 0]] ([0; 0; 0], no_events) = Some (prevs, ev', evs) /\
    foldl track 0 evs = 32768 /\
    Forall (fun e => Z.land (main_row (just_pressed e)) (main_row (just_released e)) = 0) evs.
Proof.
  apply (scans_tracked [[0; 1; 0]; [128; 1; 0]; [128; 0; 0]] 0 0 0 no_events); [bytes|].
  repeat constructor; simpl; lia.
Defined.

Lemma kbTransferData_spec_witness :
  kbTransferData (fun _ => Some [255; 254; 255]) [0; 3; 0] [9; 9; 9] =
  Some ([PinWrite 3 0; PinWrite 3 1; SpiTransfer [0; 3; 0]], [0; 1; 0]).
Proof.
  apply (kbTransferData_spec (fun _ => Some [255; 254; 255]) [0; 3; 0] [9; 9; 9]); [reflexivity|].
  intros sent r [= <-]. bytes.
Defined.
