(* ===== verification/Sequencer.v ===== *)
(** * Step sequencer data (applications/logic/sequencer.c, sequencer.h)

    A step's [type] is an [int]-sized enum that the code changes with [^=] and
    shifts into LED bytes.  [seq] is the array the task owns; [CUR_SEQ] and
    [CUR_PAGE] index it through the machine state, and an index outside an
    array is [None]. *)
From S2P Require Import Prelude Keyboard.

Inductive StepType := empty | simple | complex.
Definition step_type_Z (t : StepType) : Z :=
  match t with empty => 0 | simple => 1 | complex => 2 end.

Record StepData := { type : Z; tuplet_length : Z; tuplet_data : Z }.
Record PageData := { step : list StepData; page_length : Z }.
Record SeqData := { page : list PageData; seq_length : Z }.
Record MachineState := {
  st_step : Z; st_page : Z; st_seq : Z; st_inst : Z; st_bpm : Z; st_swing : Z; st_mode : Z
}.

(** All-zero storage: [memset(sequence, 0, ..)] and the static state. *)
Definition zero_step : StepData := {| type := 0; tuplet_length := 0; tuplet_data := 0 |}.
Definition zero_page : PageData := {| step := replicate 16 zero_step; page_length := 0 |}.
Definition zero_seq : SeqData := {| page := replicate 16 zero_page; seq_length := 0 |}.
Definition zero_state : MachineState :=
  {| st_step := 0; st_page := 0; st_seq := 0; st_inst := 0; st_bpm := 0; st_swing := 0; st_mode := 0 |}.

(** [seq[CUR_SEQ].page[CUR_PAGE].step[i].type], read and written. *)
Definition get_type (seq : list SeqData) (state : MachineState) (i : nat) : option Z :=
  sq ← seq !! Z.to_nat (st_seq state);
  pg ← page sq !! Z.to_nat (st_page state);
  sp ← step pg !! i;
  Some (type sp).

Definition set_type (seq : list SeqData) (state : MachineState) (i : nat) (t : Z)
    : option (list SeqData) :=
  sq ← seq !! Z.to_nat (st_seq state);
  pg ← page sq !! Z.to_nat (st_page state);
  sp ← step pg !! i;
  let sp' := {| type := t; tuplet_length := tuplet_length sp; tuplet_data := tuplet_data sp |} in
  let pg' := {| step := <[i := sp']> (step pg); page_length := page_length pg |} in
  let sq' := {| page := <[Z.to_nat (st_page state) := pg']> (page sq); seq_length := seq_length sq |} in
  Some (<[Z.to_nat (st_seq state) := sq']> seq).

(** [led_data[i + 1] |= type << j], on a byte. *)
Definition led_or (led_data : list Z) (seq : list SeqData) (state : MachineState) (i j : nat)
    : option (list Z) :=
  t ← get_type seq state (j + i * 8);
  b ← aget led_data (i + 1);
  aset led_data (i + 1) (u8 (Z.lor b (Z.shiftl t (Z.of_nat j)))).

(** The two nested loops; [n] counts the iterations left. *)
Fixpoint led_inner (n j : nat) (led_data : list Z) (seq : list SeqData) (state : MachineState) (i : nat)
    : option (list Z) :=
  match n with
  | O => Some led_data
  | S n => led_data ← led_or led_data seq state i j; led_inner n (S j) led_data seq state i
  end.
Fixpoint led_outer (n i : nat) (led_data : list Z) (seq : list SeqData) (state : MachineState)
    : option (list Z) :=
  match n with
  | O => Some led_data
  | S n => led_data ← led_inner 8 0 led_data seq state i; led_outer n (S i) led_data seq state
  end.

Definition kbLEDDataSend (led_data : list Z) (seq : list SeqData) (state : MachineState)
    : option (list Z) :=
  if (KB_CHAIN_LENGTH <=? length led_data)%nat then
    led_outer 2 0 (replicate KB_CHAIN_LENGTH 0 ++ drop KB_CHAIN_LENGTH led_data) seq state
  else None.

(** [type ^= (just_pressed.main_row >> i) & 1] *)
Definition toggle_one (seq : list SeqData) (ev : InputEvents) (state : MachineState) (i : nat)
    : option (list SeqData) :=
  t ← get_type seq state i;
  set_type seq state i
    (Z.lxor t (Z.land (Z.shiftr (main_row (just_pressed (button_events ev))) (Z.of_nat i)) 1)).

Fixpoint toggle_loop (n i : nat) (seq : list SeqData) (ev : InputEvents) (state : MachineState)
    : option (list SeqData) :=
  match n with
  | O => Some seq
  | S n => seq ← toggle_one seq ev state i; toggle_loop n (S i) seq ev state
  end.

Definition seqStepToggle (seq : list SeqData) (ev : InputEvents) (state : MachineState)
    : option (list SeqData) :=
  toggle_loop 16 0 seq ev state.

(** ** Reads and writes of step types *)

(** The current page exists and has its 16 steps. *)
Definition cur_page_ok (seq : list SeqData) (state : MachineState) : Prop :=
  forall i, (i < 16)%nat -> is_Some (get_type seq state i).

(** Two machine states that select the same page. *)
Definition same_page (s1 s2 : MachineState) : Prop :=
  Z.to_nat (st_seq s1) = Z.to_nat (st_seq s2) /\ Z.to_nat (st_page s1) = Z.to_nat (st_page s2).
#[export] Instance same_page_dec s1 s2 : Decision (same_page s1 s2).
Proof. unfold same_page. apply _. Defined.

Lemma set_type_is_Some seq st i t : is_Some (get_type seq st i) -> is_Some (set_type seq st i t).
Proof.
  unfold get_type, set_type. intros [v Hv].
  destruct (seq !! _) as [sq|]; [|done]; simpl in *.
  destruct (page sq !! _) as [pg|]; [|done]; simpl in *.
  destruct (step pg !! i); [|done]. simpl. eauto.
Qed.

Lemma get_set_type seq st i t seq' st' j :
  set_type seq st i t = Some seq' ->
  get_type seq' st' j = if decide (same_page st st' /\ i = j) then Some t else get_type seq st' j.
Proof.
  unfold get_type, set_type. intros H.
  destruct (seq !! _) as [sq|] eqn:E1; [|done]; simpl in *.
  destruct (page sq !! _) as [pg|] eqn:E2; [|done]; simpl in *.
  destruct (step pg !! i) as [sp|] eqn:E3; [|done]; simplify_eq/=.
  destruct (decide (Z.to_nat (st_seq st) = Z.to_nat (st_seq st'))) as [Hs|Hs].
  2:{ rewrite list_lookup_insert_ne by done. case_decide as Hd; [unfold same_page in Hd; tauto|done]. }
  rewrite <- Hs, list_lookup_insert_eq by (by eapply lookup_lt_Some). rewrite E1; simpl.
  destruct (decide (Z.to_nat (st_page st) = Z.to_nat (st_page st'))) as [Hp|Hp].
  2:{ rewrite list_lookup_insert_ne by done. case_decide as Hd; [unfold same_page in Hd; tauto|done]. }
  rewrite <- Hp, list_lookup_insert_eq by (by eapply lookup_lt_Some). rewrite E2; simpl.
  destruct (decide (i = j)) as [<-|Hi].
  - rewrite list_lookup_insert_eq by (by eapply lookup_lt_Some). by rewrite decide_True by (unfold same_page; done).
  - rewrite list_lookup_insert_ne by done. case_decide as Hd; [unfold same_page in Hd; tauto|done].
Qed.

Abbreviation pressed ev := (main_row (just_pressed (button_events ev))).

Lemma bit_land1 x i : 0 <= i -> Z.land (Z.shiftr x i) 1 = Z.b2z (Z.testbit x i).
Proof.
  intros Hi. change 1 with (Z.ones 1). rewrite Z.land_ones, Z.shiftr_div_pow2 by lia.
  change (2 ^ 1) with 2. by rewrite Z.testbit_spec'.
Qed.

(** What the loop does to the steps [i .. i + n - 1]. *)
Lemma toggle_loop_spec n : forall i seq ev st,
  (i + n <= 16)%nat -> cur_page_ok seq st ->
  exists seq', toggle_loop n i seq ev st = Some seq' /\
    forall st' j, get_type seq' st' j =
      if decide (same_page st st' /\ (i <= j < i + n)%nat)
      then (fun t => Z.lxor t (Z.b2z (Z.testbit (pressed ev) (Z.of_nat j)))) <$> get_type seq st' j
      else get_type seq st' j.
Proof.
  induction n as [|n IH]; intros i seq ev st Hn Hok; simpl.
  - exists seq. split; [done|]. intros. case_decide; [lia|done].
  - unfold toggle_one. destruct (Hok i ltac:(lia)) as [t Ht]. rewrite Ht; simpl.
    rewrite bit_land1 by lia. set (t' := Z.lxor t _).
    destruct (set_type_is_Some seq st i t') as [seq1 H1]; [by eauto|]. rewrite H1; simpl.
    pose proof (fun j => get_set_type _ _ _ _ _ st j H1) as Hg.
    destruct (IH (S i) seq1 ev st ltac:(lia)) as (seq' & -> & Hs).
    { intros j Hj. rewrite Hg. case_decide; eauto. }
    exists seq'. split; [done|]. intros st' j. rewrite Hs, (get_set_type _ _ _ _ _ st' _ H1).
    destruct (decide (same_page st st')) as [Hp|Hp].
    2:{ rewrite !decide_False by tauto. done. }
    destruct (decide (j = i)) as [->|Hj].
    + assert (get_type seq st' i = Some t) as ->.
      { rewrite <- Ht. unfold get_type. by destruct Hp as [-> ->]. }
      rewrite decide_False, !decide_True by (done || lia || (split; [done|lia])). done.
    + rewrite (decide_False (P := same_page st st' /\ i = j)) by (intros [_ ?]; congruence).
      destruct (decide (same_page st st' /\ (S i <= j < S i + n)%nat)).
      * rewrite decide_True; [done|]. split; [done|lia].
      * rewrite decide_False; [done|]. intros [_ ?]. naive_solver lia.
Qed.

(** [seqStepToggle] flips the type of step [j] of the current page by bit
    [j] of the just-pressed row, for all 16 steps, and changes no step type
    of any other page or sequence. *)
Theorem seqStepToggle_spec seq ev st :
  cur_page_ok seq st ->
  exists seq', seqStepToggle seq ev st = Some seq' /\ cur_page_ok seq' st /\
    (forall j t, (j < 16)%nat -> get_type seq st j = Some t ->
      get_type seq' st j = Some (Z.lxor t (Z.b2z (Z.testbit (pressed ev) (Z.of_nat j))))) /\
    (forall st' j, ~ same_page st st' -> get_type seq' st' j = get_type seq st' j).
Proof.
  intros Hok. destruct (toggle_loop_spec 16 0 seq ev st) as (seq' & Hl & Hs); [lia|done|].
  assert (Hcur : forall j t, (j < 16)%nat -> get_type seq st j = Some t ->
      get_type seq' st j = Some (Z.lxor t (Z.b2z (Z.testbit (pressed ev) (Z.of_nat j))))).
  { intros j t Hj Ht. rewrite Hs, decide_True, Ht; [done|]. split; [done|lia]. }
  exists seq'. split; [done|]. split; [|split; [done|]].
  - intros j Hj. destruct (Hok j Hj) as [t Ht]. eauto.
  - intros st' j Hne. rewrite Hs, decide_False; [done|tauto].
Qed.

(** ** LED image *)

(** Every step of the current page is empty or simple. *)
Definition plain_page (seq : list SeqData) (state : MachineState) : Prop :=
  forall i, (i < 16)%nat -> get_type seq state i = Some 0 \/ get_type seq state i = Some 1.

Definition lit (seq : list SeqData) (state : MachineState) (i : nat) : bool :=
  bool_decide (get_type seq state i = Some 1).

Lemma plain_type seq st i : plain_page seq st -> (i < 16)%nat ->
  get_type seq st i = Some (Z.b2z (lit seq st i)).
Proof.
  intros Hp Hi. unfold lit. destruct (Hp i Hi) as [H|H]; rewrite H; by case_bool_decide.
Qed.

Lemma led_inner_spec seq st i n : forall j led b,
  plain_page seq st -> (i < 2)%nat -> (j + n <= 8)%nat -> aget led (i + 1) = Some b -> 0 <= b < 2 ^ 8 ->
  exists b', led_inner n j led seq st i = Some (<[(i + 1)%nat := b']> led) /\ 0 <= b' < 2 ^ 8 /\
    forall k, (k < 8)%nat -> Z.testbit b' (Z.of_nat k) =
      Z.testbit b (Z.of_nat k) || (bool_decide (j <= k < j + n)%nat && lit seq st (k + i * 8)).
Proof.
  induction n as [|n IH]; intros j led b Hp Hi Hn Hb Hr; simpl.
  - exists b. split; [by rewrite list_insert_id|]. split; [done|]. intros k Hk.
    rewrite bool_decide_false by lia. by rewrite orb_false_r.
  - unfold led_or. rewrite plain_type by (done || lia). simpl. rewrite Hb; simpl.
    unfold aset. pose proof (lookup_lt_Some _ _ _ Hb) as Hlen.
    rewrite (proj2 (Nat.ltb_lt _ _)) by done. simpl. set (b1 := u8 _).
    destruct (IH (S j) (<[(i + 1)%nat := b1]> led) b1) as (b' & -> & Hr' & Hk'); try done; [lia| |apply wrap_range; lia|].
    { unfold aget. by rewrite list_lookup_insert_eq. }
    exists b'. rewrite list_insert_insert_eq. split; [done|]. split; [done|].
    intros k Hk. rewrite Hk' by done. unfold b1.
    rewrite wrap_testbit, Z.lor_spec, Z.shiftl_spec by lia. rewrite (proj2 (Z.ltb_lt _ _)) by lia.
    rewrite andb_true_l, <- orb_assoc. f_equal.
    destruct (decide (k = j)) as [->|Hne].
    + rewrite Z.sub_diag, Z.b2z_bit0, (bool_decide_true (j <= j < j + S n)%nat) by lia.
      rewrite bool_decide_false by lia. by rewrite orb_false_r.
    + assert (Z.testbit (Z.b2z (lit seq st (j + i * 8))) (Z.of_nat k - Z.of_nat j) = false) as ->.
      { destruct (Z.lt_ge_cases (Z.of_nat k - Z.of_nat j) 0); [by apply Z.testbit_neg_r|].
        destruct (lit _ _ _); [|apply Z.testbit_0_l]. apply Z.bits_above_log2; simpl; lia. }
      simpl. f_equal. apply bool_decide_ext. lia.
Qed.

Lemma led_image led_data seq st :
  length led_data = KB_CHAIN_LENGTH -> plain_page seq st ->
  exists b1 b2, kbLEDDataSend led_data seq st = Some [0; b1; b2] /\
    0 <= b1 < 2 ^ 8 /\ 0 <= b2 < 2 ^ 8 /\
    forall j, (j < 16)%nat -> Z.testbit (row_of b2 b1) (Z.of_nat j) = lit seq st j.
Proof.
  intros Hlen Hp. unfold kbLEDDataSend. rewrite Hlen, Nat.leb_refl, drop_ge by lia.
  cbn [led_outer]. change (replicate KB_CHAIN_LENGTH 0 ++ []) with [0; 0; 0].
  destruct (led_inner_spec seq st 0 8 0 [0; 0; 0] 0) as (b1 & -> & Hr1 & H1); [done|lia|lia|done|lia|].
  cbn [mbind option_bind]. cbn [insert list_insert Nat.add].
  destruct (led_inner_spec seq st 1 8 0 [0; b1; 0] 0) as (b2 & -> & Hr2 & H2); [done|lia|lia|done|lia|].
  exists b1, b2. split; [done|]. split; [done|]. split; [done|].
  intros j Hj. rewrite row_testbit by lia. destruct (Z.ltb_spec (Z.of_nat j) 8).
  - rewrite H1, Z.testbit_0_l, bool_decide_true by lia. simpl. f_equal. lia.
  - replace (Z.of_nat j - 8) with (Z.of_nat (j - 8)) by lia.
    rewrite H2, Z.testbit_0_l, bool_decide_true by lia. simpl. f_equal. lia.
Qed.

(** [kbLEDDataSend] clears the function-row byte and shows the current
    page in the other two: bit [j] of byte [i + 1] is lit exactly when step
    [j + 8 i] is active, for pages of empty and simple steps. *)
Theorem kbLEDDataSend_spec led_data seq st :
  length led_data = KB_CHAIN_LENGTH -> plain_page seq st ->
  exists b1 b2, kbLEDDataSend led_data seq st = Some [0; b1; b2] /\
    0 <= b1 < 2 ^ 8 /\ 0 <= b2 < 2 ^ 8 /\
    forall j, (j < 16)%nat -> Z.testbit (row_of b2 b1) (Z.of_nat j) = lit seq st j.
Proof. apply led_image. Qed.

(** What the main-row LEDs show. *)
Definition led_row (led_data : list Z) : option Z :=
  match led_data with [_; b1; b2] => Some (row_of b2 b1) | _ => None end.

Lemma lit_toggle seq ev st seq' j : plain_page seq st -> (j < 16)%nat ->
  (forall j t, (j < 16)%nat -> get_type seq st j = Some t ->
    get_type seq' st j = Some (Z.lxor t (Z.b2z (Z.testbit (pressed ev) (Z.of_nat j))))) ->
  get_type seq' st j = Some (Z.b2z (xorb (lit seq st j) (Z.testbit (pressed ev) (Z.of_nat j)))).
Proof.
  intros Hp Hj Ht. rewrite (Ht j _ Hj (plain_type _ _ _ Hp Hj)).
  by destruct (lit seq st j), (Z.testbit _ _).
Qed.

(** C24: from key edges to LEDs.  On a page of empty and simple steps,
    toggling with an event and redrawing changes the main-row LED image by
    exactly the just-pressed row, and the page stays empty or simple. *)
Theorem press_flips_led led_data seq ev st before :
  length led_data = KB_CHAIN_LENGTH -> plain_page seq st -> 0 <= pressed ev < 2 ^ 16 ->
  kbLEDDataSend led_data seq st = Some before ->
  exists seq' after, seqStepToggle seq ev st = Some seq' /\ plain_page seq' st /\
    kbLEDDataSend before seq' st = Some after /\
    exists r, led_row before = Some r /\ led_row after = Some (Z.lxor r (pressed ev)).
Proof.
  intros Hlen Hp Hev Hbefore.
  destruct (toggle_loop_spec 16 0 seq ev st) as (seq' & Hl & Hs); [lia| |].
  { intros i Hi. rewrite plain_type by done. eauto. }
  assert (Hl' : forall j, (j < 16)%nat -> get_type seq' st j =
      Some (Z.b2z (xorb (lit seq st j) (Z.testbit (pressed ev) (Z.of_nat j))))).
  { intros j Hj. apply (lit_toggle seq ev); [done..|]. intros k t Hk Ht.
    rewrite Hs, decide_True, Ht; [done|]. split; [done|lia]. }
  assert (Hp' : plain_page seq' st).
  { intros j Hj. rewrite Hl' by done. destruct (xorb _ _); auto. }
  destruct (led_image led_data seq st Hlen Hp) as (b1 & b2 & Hb & ? & ? & Hbits).
  rewrite Hbefore in Hb. injection Hb as ->.
  destruct (led_image [0; b1; b2] seq' st eq_refl Hp') as (c1 & c2 & Hc & ? & ? & Hbits').
  exists seq', [0; c1; c2]. split; [done|]. split; [done|]. split; [done|].
  exists (row_of b2 b1). split; [done|]. simpl. f_equal.
  apply Z.bits_inj'. intros k Hk. rewrite Z.lxor_spec. destruct (Z.lt_ge_cases k 16).
  - rewrite <- (Z2Nat.id k) by done. rewrite Hbits, Hbits' by lia. unfold lit at 1.
    rewrite Hl' by lia. by destruct (xorb _ _).
  - by rewrite !(testbit_above 16) by (done || apply row_range; done).
Qed.

(** ** Witnesses: the task's initial sequence, key 3 pressed *)
Lemma zero_plain : plain_page [zero_seq] zero_state.
Proof. intros i Hi. left. do 16 (destruct i as [|i]; [reflexivity|]). lia. Qed.

Definition press3 : InputEvents :=
  {| button_events := scan_events 0 4 0 0; enc_button := 0; enc_rotation := 0 |}.

Lemma seqStepToggle_spec_witness :
  exists seq', seqStepToggle [zero_seq] press3 zero_state = Some seq' /\ cur_page_ok seq' zero_state /\
    (forall j t, (j < 16)%nat -> get_type [zero_seq] zero_state j = Some t ->
      get_type seq' zero_state j = Some (Z.lxor t (Z.b2z (Z.testbit 4 (Z.of_nat j))))) /\
    (forall st' j, ~ same_page zero_state st' -> get_type seq' st' j = get_type [zero_seq] st' j).
Proof.
  apply (seqStepToggle_spec [zero_seq] press3 zero_state).
  intros i Hi. destruct (zero_plain i Hi) as [H|H]; rewrite H; eauto.
Defined.

Lemma kbLEDDataSend_spec_witness :
  exists b1 b2, kbLEDDataSend [9; 9; 9] [zero_seq] zero_state = Some [0; b1; b2] /\
    0 <= b1 < 2 ^ 8 /\ 0 <= b2 < 2 ^ 8 /\
    forall j, (j < 16)%nat -> Z.testbit (row_of b2 b1) (Z.of_nat j) = lit [zero_seq] zero_state j.
Proof. apply kbLEDDataSend_spec; [reflexivity|apply zero_plain]. Defined.

Lemma press_flips_led_witness :
  exists seq' after, seqStepToggle [zero_seq] press3 zero_state = Some seq' /\
    plain_page seq' zero_state /\
    kbLEDDataSend [0; 0; 0] seq' zero_state = Some after /\
    exists r, led_row [0; 0; 0] = Some r /\ led_row after = Some (Z.lxor r 4).
Proof.
  apply (press_flips_led [0; 0; 0] [zero_seq] press3 zero_state [0; 0; 0]);
    [reflexivity|apply zero_plain|split; [discriminate|reflexivity]|reflexivity].
Defined.
