(* ===== verification/DevState.v ===== *)
(** * Data of the device framework (rt-thread/include/rtdef.h,
    components/drivers/include: serial.h, spi.h, completion.h, dataqueue.h)

    A device, completion or queue is found by its address.  Function pointers
    are names: [dev_driver] says which driver's six operations a device has
    ([RT_USING_DEVICE_OPS] is off, so they are six fields set together), and a
    callback is a number.  The lists of suspended threads are the kernel's
    thread queues of the object's address. *)
From stdpp Require Import gmap.
From S2P Require Import Prelude.

(** The driver whose functions fill [init] .. [control]: serial.c, the two of
    spi_dev.c, pin.c, i2c_dev.c, or none. *)
Inductive driver := no_driver | serial_driver | spi_bus_driver | spi_dev_driver | pin_driver | i2c_driver.

(** [struct rt_device]; its [parent] is the object at the same address. *)
Record rt_device := Device {
  dev_type : Z;
  dev_flag : Z;
  dev_open_flag : Z;
  dev_ref_count : Z;
  dev_rx_indicate : option positive;
  dev_tx_complete : option positive;
  dev_driver : driver
}.
Definition set_dev_flag (v : Z) (d : rt_device) : rt_device :=
  Device (dev_type d) v (dev_open_flag d) (dev_ref_count d) (dev_rx_indicate d) (dev_tx_complete d) (dev_driver d).
Definition set_dev_open_flag (v : Z) (d : rt_device) : rt_device :=
  Device (dev_type d) (dev_flag d) v (dev_ref_count d) (dev_rx_indicate d) (dev_tx_complete d) (dev_driver d).
Definition set_dev_ref_count (v : Z) (d : rt_device) : rt_device :=
  Device (dev_type d) (dev_flag d) (dev_open_flag d) v (dev_rx_indicate d) (dev_tx_complete d) (dev_driver d).
Definition set_dev_rx_indicate (v : option positive) (d : rt_device) : rt_device :=
  Device (dev_type d) (dev_flag d) (dev_open_flag d) (dev_ref_count d) v (dev_tx_complete d) (dev_driver d).
Definition set_dev_tx_complete (v : option positive) (d : rt_device) : rt_device :=
  Device (dev_type d) (dev_flag d) (dev_open_flag d) (dev_ref_count d) (dev_rx_indicate d) v (dev_driver d).

(** [struct serial_configure] *)
Record serial_configure := SerialCfg {
  baud_rate : Z; data_bits : Z; stop_bits : Z; parity : Z; bit_order : Z; invert : Z; bufsz : Z; cfg_reserved : Z
}.

(** [struct rt_serial_rx_fifo], allocated when the device is opened. *)
Record rt_serial_rx_fifo := RxFifo { rx_buffer : list Z; rx_put : Z; rx_get : Z; rx_full : bool }.

(** The fields of [USART_InitTypeDef] that the driver computes. *)
Record usart_init := UsartInit {
  USART_BaudRate : Z; USART_WordLength : Z; USART_StopBits : Z; USART_Parity : Z
}.

(** The receiving half of a UART: all the characters that ever came over its
    line; the one in the data register that was not read (the flag RXNE); what
    the line brings before each of the next times the driver looks at the
    status or clears it; and how many characters were lost in the UART. *)
Record receiver := Receiver {
  rc_line : list Z; rc_data : option Z; rc_coming : list (option Z); rc_lost : nat
}.

(** The UART behind a serial device: its receiver; the characters given to
    [putc], in order; whether the receive interrupt is on; and how it was
    initialized. *)
Record uart := Uart {
  ua_rx : receiver; ua_sent : list Z; ua_rx_int : bool; ua_init : option usart_init
}.
Definition set_ua_rx (v : receiver) (u : uart) : uart := Uart v (ua_sent u) (ua_rx_int u) (ua_init u).
Definition set_ua_sent (v : list Z) (u : uart) : uart := Uart (ua_rx u) v (ua_rx_int u) (ua_init u).
Definition set_ua_rx_int (v : bool) (u : uart) : uart := Uart (ua_rx u) (ua_sent u) v (ua_init u).
Definition set_ua_init (v : option usart_init) (u : uart) : uart := Uart (ua_rx u) (ua_sent u) (ua_rx_int u) v.

(** [struct rt_serial_device]: its [parent] is the device at the same address;
    [serial_rx] is the receive FIFO, [serial_tx] the completion in the
    transmit FIFO. *)
Record rt_serial_device := Serial {
  ser_config : serial_configure;
  serial_rx : option rt_serial_rx_fifo;
  serial_tx : option positive;
  ser_uart : uart
}.
Definition set_ser_config (v : serial_configure) (x : rt_serial_device) : rt_serial_device :=
  Serial v (serial_rx x) (serial_tx x) (ser_uart x).
Definition set_serial_rx (v : option rt_serial_rx_fifo) (x : rt_serial_device) : rt_serial_device :=
  Serial (ser_config x) v (serial_tx x) (ser_uart x).
Definition set_serial_tx (v : option positive) (x : rt_serial_device) : rt_serial_device :=
  Serial (ser_config x) (serial_rx x) v (ser_uart x).
Definition set_ser_uart (v : uart) (x : rt_serial_device) : rt_serial_device :=
  Serial (ser_config x) (serial_rx x) (serial_tx x) v.

(** [struct rt_data_queue]; [dq_queue] is the allocated array of items. *)
Record rt_data_queue := DataQueue {
  dq_magic : Z;
  dq_size : Z;
  dq_lwm : Z;
  dq_get : Z;
  dq_is_empty : bool;
  dq_put : Z;
  dq_is_full : bool;
  dq_queue : list (Z * Z);
  dq_evt_notify : option positive
}.

(** [struct rt_spi_configuration] *)
Record rt_spi_configuration := SpiCfg { spi_mode : Z; spi_data_width : Z; spi_max_hz : Z }.

(** [SPI_InitTypeDef] (libraries/hal_libraries/ch32v307_hal/include/
    ch32v30x_spi.h) *)
Record SPI_InitTypeDef := SpiInit {
  SPI_Direction : Z;
  SPI_Mode : Z;
  SPI_DataSize : Z;
  SPI_CPOL : Z;
  SPI_CPHA : Z;
  SPI_NSS : Z;
  SPI_BaudRatePrescaler : Z;
  SPI_FirstBit : Z;
  SPI_CRCPolynomial : Z
}.

(** What happens on the wires: a pin of a port is set to a level, a data word
    goes out under the settings of the control register, a word is read. *)
Inductive wire := Pin_set (port pin level : Z) | Shift_out (ctlr1 data : Z) | Shift_in (data : Z).

(** An SPI peripheral: its registers, how many times its status and data
    registers were read, and what happened on its wires, in order. *)
Record spi_port := SpiPort {
  sp_ctlr1 : Z;
  sp_i2scfgr : Z;
  sp_crcr : Z;
  sp_reads : nat;
  sp_wire : list wire
}.

(** [struct rt_spi_bus] inside [struct ch32_spi]: [bus_config] is
    [parent.user_data] with [handle.Instance] (the number of the peripheral),
    set when the bus is registered; the three parts of [handle] that the
    driver uses; and the peripheral.  Its [lock] is the mutex at
    [bus_lock]. *)
Record rt_spi_bus := SpiBus {
  bus_mode : Z;
  bus_owner : option positive;
  bus_config : option Z;
  bus_init : SPI_InitTypeDef;
  bus_xfer_size : Z * Z;
  bus_port : spi_port
}.
Definition bus_lock (bus : positive) : positive := xI bus.
Definition set_bus_owner (v : option positive) (b : rt_spi_bus) : rt_spi_bus :=
  SpiBus (bus_mode b) v (bus_config b) (bus_init b) (bus_xfer_size b) (bus_port b).
Definition set_bus_config (v : option Z) (b : rt_spi_bus) : rt_spi_bus :=
  SpiBus (bus_mode b) (bus_owner b) v (bus_init b) (bus_xfer_size b) (bus_port b).
Definition set_bus_init (v : SPI_InitTypeDef) (b : rt_spi_bus) : rt_spi_bus :=
  SpiBus (bus_mode b) (bus_owner b) (bus_config b) v (bus_xfer_size b) (bus_port b).
Definition set_bus_port (v : spi_port) (b : rt_spi_bus) : rt_spi_bus :=
  SpiBus (bus_mode b) (bus_owner b) (bus_config b) (bus_init b) (bus_xfer_size b) v.

(** [struct rt_spi_device]: [sd_cs] is [parent.user_data], the port and pin of
    its chip select. *)
Record rt_spi_device := SpiDevice {
  sd_bus : option positive;
  sd_config : rt_spi_configuration;
  sd_cs : option (Z * Z)
}.
Definition set_sd_config (v : rt_spi_configuration) (d : rt_spi_device) : rt_spi_device :=
  SpiDevice (sd_bus d) v (sd_cs d).

(** The registers of a GPIO port that the library uses (ch32v30x.h:
    [GPIO_TypeDef]); [INDR] is what the pins show. *)
Record gpio_port := GpioPort { CFGLR : Z; CFGHR : Z; INDR : Z; OUTDR : Z }.
Definition set_CFGLR (v : Z) (p : gpio_port) : gpio_port := GpioPort v (CFGHR p) (INDR p) (OUTDR p).
Definition set_CFGHR (v : Z) (p : gpio_port) : gpio_port := GpioPort (CFGLR p) v (INDR p) (OUTDR p).
Definition set_OUTDR (v : Z) (p : gpio_port) : gpio_port := GpioPort (CFGLR p) (CFGHR p) (INDR p) v.

(** [EXTI_TypeDef], without the software trigger. *)
Record exti_regs := Exti { INTENR : Z; EVENR : Z; RTENR : Z; FTENR : Z; INTFR : Z }.

(** [struct rt_pin_irq_hdr]: the pin, the mode, the function and its argument. *)
Record rt_pin_irq_hdr := PinIrq { irq_pin : Z; irq_mode : Z; irq_hdr : option positive; irq_args : Z }.

(** The pins: the ports A to E, the external interrupts with the ports selected
    for them ([AFIO->EXTICR]) and the vectors enabled in the interrupt
    controller; the two static variables of drv_gpio.c; and whether
    [_hw_pin.ops] is set. *)
Record pins := Pins {
  pn_ports : list gpio_port;
  pn_exti : exti_regs;
  pn_exticr : list Z;
  pn_vectors : gset Z;
  pin_irq_hdr_tab : list rt_pin_irq_hdr;
  pin_irq_enable_mask : Z;
  pn_ops : bool
}.
Definition set_pn_ports v (x : pins) : pins :=
  Pins v (pn_exti x) (pn_exticr x) (pn_vectors x) (pin_irq_hdr_tab x) (pin_irq_enable_mask x) (pn_ops x).
Definition set_pn_exti v (x : pins) : pins :=
  Pins (pn_ports x) v (pn_exticr x) (pn_vectors x) (pin_irq_hdr_tab x) (pin_irq_enable_mask x) (pn_ops x).
Definition set_pn_exticr v (x : pins) : pins :=
  Pins (pn_ports x) (pn_exti x) v (pn_vectors x) (pin_irq_hdr_tab x) (pin_irq_enable_mask x) (pn_ops x).
Definition set_pn_vectors v (x : pins) : pins :=
  Pins (pn_ports x) (pn_exti x) (pn_exticr x) v (pin_irq_hdr_tab x) (pin_irq_enable_mask x) (pn_ops x).
Definition set_pn_tab v (x : pins) : pins :=
  Pins (pn_ports x) (pn_exti x) (pn_exticr x) (pn_vectors x) v (pin_irq_enable_mask x) (pn_ops x).
Definition set_pn_mask v (x : pins) : pins :=
  Pins (pn_ports x) (pn_exti x) (pn_exticr x) (pn_vectors x) (pin_irq_hdr_tab x) v (pn_ops x).
Definition set_pn_ops v (x : pins) : pins :=
  Pins (pn_ports x) (pn_exti x) (pn_exticr x) (pn_vectors x) (pin_irq_hdr_tab x) (pin_irq_enable_mask x) v.

(** After a reset: every pin floats. *)
Definition reset_pins : pins :=
  Pins (replicate 5 (GpioPort 0x44444444 0x44444444 0 0)) (Exti 0 0 0 0 0) [0; 0; 0; 0] ∅
    (replicate 16 (PinIrq (-1) 0 None 0)) 0 false.

(** [struct rt_i2c_bus_device] with [priv] and [ops], unset before the bus is
    registered; [priv] gives the pins of the clock and of the data line.  Its
    [lock] is the mutex at [bus_lock]. *)
Record rt_i2c_bus_device := I2cBus {
  i2c_ops : bool;
  i2c_flags : Z;
  i2c_addr : Z;
  i2c_timeout : Z;
  i2c_retries : Z;
  i2c_priv : option (Z * Z)
}.

(** The device framework's part of the kernel state, with the static variables
    [already_output] of [_serial_check_buffer_size] and [__rt_errno] and
    [_console_device] of kservice.c; and the transfers of the keyboard's shift
    registers so far, the bytes sent and the answer of each. *)
Record drivers := Drivers {
  dr_devs : gmap positive rt_device;
  dr_serials : gmap positive rt_serial_device;
  dr_comps : gmap positive Z;
  dr_queues : gmap positive rt_data_queue;
  dr_buses : gmap positive rt_spi_bus;
  dr_spidevs : gmap positive rt_spi_device;
  dr_i2cs : gmap positive rt_i2c_bus_device;
  dr_pins : pins;
  dr_warned : bool;
  dr_errno : Z;
  dr_console : option positive;
  dr_chain : list (list Z * option (list Z))
}.
Definition set_dr_devs v (x : drivers) : drivers :=
  Drivers v (dr_serials x) (dr_comps x) (dr_queues x) (dr_buses x) (dr_spidevs x) (dr_i2cs x) (dr_pins x) (dr_warned x) (dr_errno x) (dr_console x) (dr_chain x).
Definition set_dr_serials v (x : drivers) : drivers :=
  Drivers (dr_devs x) v (dr_comps x) (dr_queues x) (dr_buses x) (dr_spidevs x) (dr_i2cs x) (dr_pins x) (dr_warned x) (dr_errno x) (dr_console x) (dr_chain x).
Definition set_dr_comps v (x : drivers) : drivers :=
  Drivers (dr_devs x) (dr_serials x) v (dr_queues x) (dr_buses x) (dr_spidevs x) (dr_i2cs x) (dr_pins x) (dr_warned x) (dr_errno x) (dr_console x) (dr_chain x).
Definition set_dr_queues v (x : drivers) : drivers :=
  Drivers (dr_devs x) (dr_serials x) (dr_comps x) v (dr_buses x) (dr_spidevs x) (dr_i2cs x) (dr_pins x) (dr_warned x) (dr_errno x) (dr_console x) (dr_chain x).
Definition set_dr_buses v (x : drivers) : drivers :=
  Drivers (dr_devs x) (dr_serials x) (dr_comps x) (dr_queues x) v (dr_spidevs x) (dr_i2cs x) (dr_pins x) (dr_warned x) (dr_errno x) (dr_console x) (dr_chain x).
Definition set_dr_spidevs v (x : drivers) : drivers :=
  Drivers (dr_devs x) (dr_serials x) (dr_comps x) (dr_queues x) (dr_buses x) v (dr_i2cs x) (dr_pins x) (dr_warned x) (dr_errno x) (dr_console x) (dr_chain x).
Definition set_dr_i2cs v (x : drivers) : drivers :=
  Drivers (dr_devs x) (dr_serials x) (dr_comps x) (dr_queues x) (dr_buses x) (dr_spidevs x) v (dr_pins x) (dr_warned x) (dr_errno x) (dr_console x) (dr_chain x).
Definition set_dr_pins v (x : drivers) : drivers :=
  Drivers (dr_devs x) (dr_serials x) (dr_comps x) (dr_queues x) (dr_buses x) (dr_spidevs x) (dr_i2cs x) v (dr_warned x) (dr_errno x) (dr_console x) (dr_chain x).
Definition set_dr_warned v (x : drivers) : drivers :=
  Drivers (dr_devs x) (dr_serials x) (dr_comps x) (dr_queues x) (dr_buses x) (dr_spidevs x) (dr_i2cs x) (dr_pins x) v (dr_errno x) (dr_console x) (dr_chain x).
Definition set_dr_errno v (x : drivers) : drivers :=
  Drivers (dr_devs x) (dr_serials x) (dr_comps x) (dr_queues x) (dr_buses x) (dr_spidevs x) (dr_i2cs x) (dr_pins x) (dr_warned x) v (dr_console x) (dr_chain x).
Definition set_dr_console v (x : drivers) : drivers :=
  Drivers (dr_devs x) (dr_serials x) (dr_comps x) (dr_queues x) (dr_buses x) (dr_spidevs x) (dr_i2cs x) (dr_pins x) (dr_warned x) (dr_errno x) v (dr_chain x).
Definition set_dr_chain v (x : drivers) : drivers :=
  Drivers (dr_devs x) (dr_serials x) (dr_comps x) (dr_queues x) (dr_buses x) (dr_spidevs x) (dr_i2cs x) (dr_pins x) (dr_warned x) (dr_errno x) (dr_console x) v.

Definition empty_drivers : drivers := Drivers ∅ ∅ ∅ ∅ ∅ ∅ ∅ reset_pins false 0 None [].
