(* ===== verification/Gpio.v ===== *)
(** * The peripheral library for pins (libraries/hal_libraries/
    ch32v307_hal/source: ch32v30x_gpio.c, ch32v30x_exti.c; the interrupt
    controller of bmsis/include/core_riscv.h)

    A port is its registers.  A write to BSHR sets or clears bits of OUTDR, a
    write to BCR clears bits, and a write to the pending register of the
    external interrupts clears the bits that are 1.

    [GPIO_Init_spec]: the four configuration bits of each selected pin, and
    nothing else. *)
From stdpp Require Import gmap.
From S2P Require Import Prelude DevState.
#[local] Open Scope Z_scope.

Definition GPIO_Speed_50MHz : Z := 3.
Definition GPIO_Mode_AIN : Z := 0x0.
Definition GPIO_Mode_IN_FLOATING : Z := 0x04.
Definition GPIO_Mode_IPD : Z := 0x28.
Definition GPIO_Mode_IPU : Z := 0x48.
Definition GPIO_Mode_Out_OD : Z := 0x14.
Definition GPIO_Mode_Out_PP : Z := 0x10.
Definition EXTI_Mode_Interrupt : Z := 0x00.
Definition EXTI_Trigger_Rising : Z := 0x08.
Definition EXTI_Trigger_Falling : Z := 0x0C.
Definition EXTI_Trigger_Rising_Falling : Z := 0x10.

Record GPIO_InitTypeDef := GpioInit { GPIO_Pin : Z; GPIO_Speed : Z; GPIO_Mode : Z }.
Record EXTI_InitTypeDef := ExtiInit { EXTI_Line : Z; EXTI_Mode : Z; EXTI_Trigger : Z; EXTI_LineCmd : bool }.

(** ** Ports *)
Definition write_BSHR (v : Z) (p : gpio_port) : gpio_port :=
  set_OUTDR (Z.lor (Z.land (OUTDR p) (Z.lnot (Z.shiftr v 16))) (u16 v)) p.
Definition write_BCR (v : Z) (p : gpio_port) : gpio_port := set_OUTDR (Z.land (OUTDR p) (Z.lnot (u16 v))) p.

Definition GPIO_SetBits (pin : Z) (p : gpio_port) : gpio_port := write_BSHR pin p.
Definition GPIO_ResetBits (pin : Z) (p : gpio_port) : gpio_port := write_BCR pin p.
Definition GPIO_WriteBit (pin value : Z) (p : gpio_port) : gpio_port :=
  if negb (value =? 0) then write_BSHR pin p else write_BCR pin p.
Definition GPIO_ReadInputDataBit (p : gpio_port) (pin : Z) : Z :=
  if negb (Z.land (INDR p) pin =? 0) then 1 else 0.

(** The mode bits of a pin: those of the mode, and the speed of an output. *)
Definition current_mode (init : GPIO_InitTypeDef) : Z :=
  let mode := Z.land (GPIO_Mode init) 0x0F in
  if negb (Z.land (GPIO_Mode init) 0x10 =? 0) then Z.lor mode (GPIO_Speed init) else mode.

(** The loop over eight pins, from pin [first] of the port: the register and
    the port. *)
Fixpoint init_loop (init : GPIO_InitTypeDef) (first : Z) (n : nat) (pinpos tmpreg : Z) (p : gpio_port) : Z * gpio_port :=
  match n with
  | O => (tmpreg, p)
  | S n =>
      let pos := Z.shiftl 1 (pinpos + first) in
      if Z.land (GPIO_Pin init) pos =? pos then
        let tmpreg := Z.land tmpreg (Z.lnot (Z.shiftl 0x0F (Z.shiftl pinpos 2))) in
        init_loop init first n (pinpos + 1) (Z.lor tmpreg (u32 (Z.shiftl (current_mode init) (Z.shiftl pinpos 2))))
          (if GPIO_Mode init =? GPIO_Mode_IPD then write_BCR pos p
           else if GPIO_Mode init =? GPIO_Mode_IPU then write_BSHR pos p else p)
      else init_loop init first n (pinpos + 1) tmpreg p
  end.

Definition GPIO_Init (init : GPIO_InitTypeDef) (p : gpio_port) : gpio_port :=
  let p := if negb (Z.land (GPIO_Pin init) 0xFF =? 0) then
             let '(tmpreg, p) := init_loop init 0 8 0 (CFGLR p) p in set_CFGLR tmpreg p
           else p in
  if 0xFF <? GPIO_Pin init then
    let '(tmpreg, p) := init_loop init 8 8 0 (CFGHR p) p in set_CFGHR tmpreg p
  else p.

(** [AFIO->EXTICR], a register of four pins each. *)
Definition GPIO_EXTILineConfig (port_source pin_source : Z) (exticr : list Z) : option (list Z) :=
  let k := Z.to_nat (Z.shiftr pin_source 2) in
  let shift := 4 * Z.land pin_source 3 in
  r ← aget exticr k;
  aset exticr k (Z.lor (Z.land r (Z.lnot (Z.shiftl 0x0F shift))) (u32 (Z.shiftl port_source shift))).

(** ** External interrupts *)

(** [EXTI_BASE + offset] with the bits of [line] set. *)
Definition exti_or (offset line : Z) (e : exti_regs) : option exti_regs :=
  if offset =? 0x00 then Some (Exti (Z.lor (INTENR e) line) (EVENR e) (RTENR e) (FTENR e) (INTFR e))
  else if offset =? 0x04 then Some (Exti (INTENR e) (Z.lor (EVENR e) line) (RTENR e) (FTENR e) (INTFR e))
  else if offset =? 0x08 then Some (Exti (INTENR e) (EVENR e) (Z.lor (RTENR e) line) (FTENR e) (INTFR e))
  else if offset =? 0x0C then Some (Exti (INTENR e) (EVENR e) (RTENR e) (Z.lor (FTENR e) line) (INTFR e))
  else None.
Definition exti_and_not (offset line : Z) (e : exti_regs) : option exti_regs :=
  let off r := Z.land r (Z.lnot line) in
  if offset =? 0x00 then Some (Exti (off (INTENR e)) (EVENR e) (RTENR e) (FTENR e) (INTFR e))
  else if offset =? 0x04 then Some (Exti (INTENR e) (off (EVENR e)) (RTENR e) (FTENR e) (INTFR e))
  else None.

Definition EXTI_Init (init : EXTI_InitTypeDef) (e : exti_regs) : option exti_regs :=
  let line := EXTI_Line init in
  let off r := Z.land r (Z.lnot line) in
  if EXTI_LineCmd init then
    e ← exti_or (EXTI_Mode init) line (Exti (off (INTENR e)) (off (EVENR e)) (RTENR e) (FTENR e) (INTFR e));
    let e := Exti (INTENR e) (EVENR e) (off (RTENR e)) (off (FTENR e)) (INTFR e) in
    if EXTI_Trigger init =? EXTI_Trigger_Rising_Falling then
      Some (Exti (INTENR e) (EVENR e) (Z.lor (RTENR e) line) (Z.lor (FTENR e) line) (INTFR e))
    else exti_or (EXTI_Trigger init) line e
  else exti_and_not (EXTI_Mode init) line e.

Definition EXTI_GetITStatus (e : exti_regs) (line : Z) : bool :=
  negb (Z.land (INTFR e) line =? 0) && negb (Z.land (INTENR e) line =? 0).
(** Writing ones to the pending register clears them. *)
Definition EXTI_ClearITPendingBit (line : Z) (e : exti_regs) : exti_regs :=
  Exti (INTENR e) (EVENR e) (RTENR e) (FTENR e) (Z.land (INTFR e) (Z.lnot line)).

Definition NVIC_EnableIRQ (irq : Z) (vectors : gset Z) : gset Z := {[irq]} ∪ vectors.
Definition NVIC_DisableIRQ (irq : Z) (vectors : gset Z) : gset Z := vectors ∖ {[irq]}.

(** ** What [GPIO_Init] does to each pin *)

(** The four configuration bits of pin [i]. *)
Definition pin_config (p : gpio_port) (i : Z) : Z :=
  Z.land (Z.shiftr (if i <? 8 then CFGLR p else CFGHR p) (4 * (i mod 8))) 15.

Lemma pin_config_bit p i k : 0 <= i -> 0 <= k < 4 ->
  Z.testbit (pin_config p i) k = Z.testbit (if i <? 8 then CFGLR p else CFGHR p) (4 * (i mod 8) + k).
Proof.
  intros Hi Hk. pose proof (Z.mod_pos_bound i 8 ltac:(lia)). unfold pin_config. rewrite Z.land_spec, Z.shiftr_spec by lia.
  assert (Z.testbit 15 k = true) as -> by (assert (k = 0 \/ k = 1 \/ k = 2 \/ k = 3) as [-> |[-> |[-> | ->]]] by lia; done).
  rewrite andb_true_r. f_equal. lia.
Qed.

Lemma single_bit pin i : 0 <= i -> (Z.land pin (Z.shiftl 1 i) =? Z.shiftl 1 i) = Z.testbit pin i.
Proof.
  intros Hi. destruct (Z.eqb_spec (Z.land pin (Z.shiftl 1 i)) (Z.shiftl 1 i)) as [E|E].
  - apply (f_equal (fun x => Z.testbit x i)) in E. rewrite Z.land_spec, testbit_shiftl1, bool_decide_eq_true_2 in E by lia.
    by rewrite andb_true_r in E.
  - destruct (Z.testbit pin i) eqn:Ep; [|done]. exfalso. apply E. apply Z.bits_inj'. intros k Hk.
    rewrite Z.land_spec, testbit_shiftl1 by lia. case_bool_decide as Hik; [by subst; rewrite Ep|apply andb_false_r].
Qed.

Lemma testbit_15 k : 0 <= k -> Z.testbit 15 k = (k <? 4).
Proof.
  intros Hk. change 15 with (Z.ones 4). apply Z.testbit_ones_nonneg; lia.
Qed.

Lemma current_mode_range init : 0 <= GPIO_Speed init < 4 -> 0 <= current_mode init < 16.
Proof.
  intros Hs. assert (0 <= Z.land (GPIO_Mode init) 15 < 16) as Hm.
  { change 15 with (Z.ones 4). rewrite Z.land_ones by lia. apply Z.mod_pos_bound. lia. }
  unfold current_mode. cbv zeta. destruct (negb _); [|done]. change 16 with (2 ^ 4) in *. apply testbit_range; [lia|apply Z.lor_nonneg; lia|].
  intros k Hk. rewrite Z.lor_spec, (testbit_above 4 _ k Hm), (testbit_above 2 _ k) by lia. done.
Qed.

(** The output bit that a mode with a pull resistor sets. *)
Definition pulled (init : GPIO_InitTypeDef) (old : bool) : bool :=
  if GPIO_Mode init =? GPIO_Mode_IPD then false else if GPIO_Mode init =? GPIO_Mode_IPU then true else old.

(** One pin's step of the loop, on the register and on the outputs. *)
Lemma config_step cm q t i k : 0 <= cm < 16 -> 0 <= q < 8 -> 0 <= i -> 0 <= k < 4 ->
  Z.testbit (Z.lor (Z.land t (Z.lnot (Z.shiftl 15 (Z.shiftl q 2)))) (u32 (Z.shiftl cm (Z.shiftl q 2)))) (4 * i + k) =
  if bool_decide (i = q) then Z.testbit cm k else Z.testbit t (4 * i + k).
Proof.
  intros Hcm Hq Hi Hk. replace (Z.shiftl q 2) with (4 * q) by (rewrite Z.shiftl_mul_pow2 by lia; lia).
  rewrite Z.lor_spec, Z.land_spec, Z.lnot_spec, wrap_testbit, !Z.shiftl_spec by lia. case_bool_decide as E.
  - subst i. replace (4 * q + k - 4 * q) with k by lia. rewrite testbit_15 by lia.
    rewrite (proj2 (Z.ltb_lt k 4)), (proj2 (Z.ltb_lt (4 * q + k) 32)) by lia. cbn. by rewrite andb_false_r.
  - assert (Z.testbit 15 (4 * i + k - 4 * q) = false /\ Z.testbit cm (4 * i + k - 4 * q) = false) as [-> ->].
    { destruct (Z.lt_ge_cases i q); [by rewrite !Z.testbit_neg_r by lia|].
      rewrite (testbit_above 4 15), (testbit_above 4 cm) by lia. done. }
    by rewrite andb_true_r, andb_false_r, orb_false_r.
Qed.

Definition pull_pin (init : GPIO_InitTypeDef) (pos : Z) (p : gpio_port) : gpio_port :=
  if GPIO_Mode init =? GPIO_Mode_IPD then write_BCR pos p
  else if GPIO_Mode init =? GPIO_Mode_IPU then write_BSHR pos p else p.

Lemma pull_step init q p i : 0 <= q < 16 -> 0 <= i < 16 ->
  Z.testbit (OUTDR (pull_pin init (Z.shiftl 1 q) p)) i =
  if bool_decide (i = q) then pulled init (Z.testbit (OUTDR p) i) else Z.testbit (OUTDR p) i.
Proof.
  intros Hq Hi. unfold pull_pin, pulled. destruct (_ =? GPIO_Mode_IPD); [|destruct (_ =? GPIO_Mode_IPU)].
  - cbn. rewrite Z.land_spec, Z.lnot_spec, wrap_testbit, testbit_shiftl1 by lia.
    rewrite (proj2 (Z.ltb_lt i 16)) by lia. case_bool_decide; cbn; [apply andb_false_r|apply andb_true_r].
  - cbn. rewrite Z.lor_spec, Z.land_spec, Z.lnot_spec, Z.shiftr_spec, wrap_testbit, !testbit_shiftl1 by lia.
    rewrite (bool_decide_eq_false_2 (i + 16 = q)), (proj2 (Z.ltb_lt i 16)) by lia. cbn.
    rewrite andb_true_r. case_bool_decide; [apply orb_true_r|apply orb_false_r].
  - by case_bool_decide.
Qed.

Lemma pull_rest init pos p :
  CFGLR (pull_pin init pos p) = CFGLR p /\ CFGHR (pull_pin init pos p) = CFGHR p /\ INDR (pull_pin init pos p) = INDR p.
Proof. unfold pull_pin. by repeat case_match. Qed.

Lemma in_range_S a n i x : 0 <= n -> (a <=? i) && (i <? a + Z.succ n) && x =
  if bool_decide (i = a) then x else (a + 1 <=? i) && (i <? a + 1 + n) && x.
Proof.
  intros Hn. case_bool_decide as E.
  - subst. by rewrite (proj2 (Z.leb_le a a)), (proj2 (Z.ltb_lt a (a + Z.succ n))) by lia.
  - f_equal. f_equal; [|f_equal; lia]. apply eq_true_iff_eq. rewrite !Z.leb_le. lia.
Qed.

Lemma init_loop_spec init first n : 0 <= first <= 8 -> 0 <= current_mode init < 16 -> forall pinpos t p,
  0 <= pinpos -> pinpos + Z.of_nat n <= 8 -> exists t' p', init_loop init first n pinpos t p = (t', p') /\
  CFGLR p' = CFGLR p /\ CFGHR p' = CFGHR p /\ INDR p' = INDR p /\
  (forall i k, 0 <= i -> 0 <= k < 4 -> Z.testbit t' (4 * i + k) =
     if (pinpos <=? i) && (i <? pinpos + Z.of_nat n) && Z.testbit (GPIO_Pin init) (i + first)
     then Z.testbit (current_mode init) k else Z.testbit t (4 * i + k)) /\
  (forall i, 0 <= i < 16 -> Z.testbit (OUTDR p') i =
     if (pinpos + first <=? i) && (i <? pinpos + first + Z.of_nat n) && Z.testbit (GPIO_Pin init) i
     then pulled init (Z.testbit (OUTDR p) i) else Z.testbit (OUTDR p) i).
Proof.
  intros Hf Hcm. induction n as [|n IH]; intros q t p Hq Hn; cbn [init_loop].
  { exists t, p. do 4 (split; [done|]).
    split; intros i; [intros k Hi Hk|intros Hi]; (case_match eqn:E; [|done]);
      rewrite !andb_true_iff, Z.leb_le, Z.ltb_lt in E; lia. }
  rewrite single_bit by lia. fold (pull_pin init (Z.shiftl 1 (q + first)) p). rewrite Nat2Z.inj_succ.
  destruct (Z.testbit (GPIO_Pin init) (q + first)) eqn:Eb.
  - set (t1 := Z.lor _ _). set (p1 := pull_pin _ _ _).
    destruct (IH (q + 1) t1 p1 ltac:(lia) ltac:(lia)) as (t' & p' & -> & E1 & E2 & E3 & Ht & Ho).
    destruct (pull_rest init (Z.shiftl 1 (q + first)) p) as (R1 & R2 & R3). fold p1 in R1, R2, R3.
    exists t', p'. split; [done|]. split; [by rewrite E1|]. split; [by rewrite E2|]. split; [by rewrite E3|]. split.
    + intros i k Hi Hk. rewrite Ht, in_range_S by lia. unfold t1. rewrite config_step by lia.
      case_bool_decide; [subst i; by rewrite Eb, (proj2 (Z.leb_gt (q + 1) q)) by lia|done].
    + intros i Hi. rewrite Ho, in_range_S by lia. unfold p1. rewrite pull_step by lia.
      replace (q + 1 + first) with (q + first + 1) by lia.
      case_bool_decide; [subst i; by rewrite Eb, (proj2 (Z.leb_gt (q + first + 1) (q + first))) by lia|done].
  - destruct (IH (q + 1) t p ltac:(lia) ltac:(lia)) as (t' & p' & -> & E1 & E2 & E3 & Ht & Ho).
    exists t', p'. do 4 (split; [done|]). split.
    + intros i k Hi Hk. rewrite Ht, in_range_S by lia.
      case_bool_decide; [subst i; by rewrite Eb, (proj2 (Z.leb_gt (q + 1) q)) by lia|done].
    + intros i Hi. rewrite Ho, in_range_S by lia. replace (q + 1 + first) with (q + first + 1) by lia.
      case_bool_decide; [subst i; by rewrite Eb, (proj2 (Z.leb_gt (q + first + 1) (q + first))) by lia|done].
Qed.

(** What a pin is after a configuration. *)
Definition pin_set_up (init : GPIO_InitTypeDef) (p p' : gpio_port) (i : Z) : Prop :=
  pin_config p' i = (if Z.testbit (GPIO_Pin init) i then current_mode init else pin_config p i) /\
  Z.testbit (OUTDR p') i =
    (if Z.testbit (GPIO_Pin init) i then pulled init (Z.testbit (OUTDR p) i) else Z.testbit (OUTDR p) i).

(** The two halves of [GPIO_Init]. *)
Definition init_low (init : GPIO_InitTypeDef) (p : gpio_port) : gpio_port :=
  if negb (Z.land (GPIO_Pin init) 0xFF =? 0) then
    let '(tmpreg, p) := init_loop init 0 8 0 (CFGLR p) p in set_CFGLR tmpreg p
  else p.
Definition init_high (init : GPIO_InitTypeDef) (p : gpio_port) : gpio_port :=
  if 0xFF <? GPIO_Pin init then
    let '(tmpreg, p) := init_loop init 8 8 0 (CFGHR p) p in set_CFGHR tmpreg p
  else p.

Lemma init_low_spec init p : 0 <= current_mode init < 16 ->
  CFGHR (init_low init p) = CFGHR p /\ INDR (init_low init p) = INDR p /\
  (forall i k, 0 <= i < 8 -> 0 <= k < 4 -> Z.testbit (CFGLR (init_low init p)) (4 * i + k) =
     if Z.testbit (GPIO_Pin init) i then Z.testbit (current_mode init) k else Z.testbit (CFGLR p) (4 * i + k)) /\
  (forall i, 0 <= i < 16 -> Z.testbit (OUTDR (init_low init p)) i =
     if (i <? 8) && Z.testbit (GPIO_Pin init) i then pulled init (Z.testbit (OUTDR p) i) else Z.testbit (OUTDR p) i).
Proof.
  intros Hcm. unfold init_low. destruct (Z.eqb_spec (Z.land (GPIO_Pin init) 0xFF) 0) as [E|E]; cbn [negb].
  - assert (forall i, 0 <= i < 8 -> Z.testbit (GPIO_Pin init) i = false) as Hz.
    { intros i Hi. apply (f_equal (fun x => Z.testbit x i)) in E. rewrite Z.land_spec, Z.bits_0 in E.
      change 0xFF with (Z.ones 8) in E. rewrite Z.testbit_ones_nonneg, (proj2 (Z.ltb_lt i 8)) in E by lia. by rewrite andb_true_r in E. }
    do 2 (split; [done|]). split; [intros i k Hi _; by rewrite Hz|].
    intros i Hi. destruct (Z.ltb_spec i 8); [by rewrite Hz by lia|done].
  - destruct (init_loop_spec init 0 8 ltac:(lia) Hcm 0 (CFGLR p) p ltac:(lia) ltac:(lia)) as (t' & p' & -> & E1 & E2 & E3 & Ht & Ho).
    do 2 (split; [done|]). split.
    + intros i k Hi Hk. cbn. rewrite Ht, Z.add_0_r, (proj2 (Z.leb_le 0 i)), (proj2 (Z.ltb_lt i _)) by lia. done.
    + intros i Hi. cbn. rewrite Ho, (proj2 (Z.leb_le (0 + 0) i)) by lia. done.
Qed.

Lemma init_high_spec init p : 0 <= current_mode init < 16 -> 0 <= GPIO_Pin init ->
  CFGLR (init_high init p) = CFGLR p /\ INDR (init_high init p) = INDR p /\
  (forall i k, 8 <= i < 16 -> 0 <= k < 4 -> Z.testbit (CFGHR (init_high init p)) (4 * (i - 8) + k) =
     if Z.testbit (GPIO_Pin init) i then Z.testbit (current_mode init) k else Z.testbit (CFGHR p) (4 * (i - 8) + k)) /\
  (forall i, 0 <= i < 16 -> Z.testbit (OUTDR (init_high init p)) i =
     if (8 <=? i) && Z.testbit (GPIO_Pin init) i then pulled init (Z.testbit (OUTDR p) i) else Z.testbit (OUTDR p) i).
Proof.
  intros Hcm Hp. unfold init_high. destruct (Z.ltb_spec 0xFF (GPIO_Pin init)) as [E|E].
  - destruct (init_loop_spec init 8 8 ltac:(lia) Hcm 0 (CFGHR p) p ltac:(lia) ltac:(lia)) as (t' & p' & -> & E1 & E2 & E3 & Ht & Ho).
    do 2 (split; [done|]). split.
    + intros i k Hi Hk. cbn. rewrite Ht, (proj2 (Z.leb_le 0 (i - 8))), (proj2 (Z.ltb_lt (i - 8) _)) by lia.
      by replace (i - 8 + 8) with i by lia.
    + intros i Hi. cbn. rewrite Ho, (proj2 (Z.ltb_lt i _)), andb_true_r by lia. done.
  - assert (forall i, 8 <= i -> Z.testbit (GPIO_Pin init) i = false) as Hz by (intros i Hi; apply (testbit_above 8); lia).
    do 2 (split; [done|]). split; [intros i k Hi _; by rewrite Hz by lia|].
    intros i Hi. destruct (Z.leb_spec 8 i); [by rewrite Hz|done].
Qed.

Lemma init_config init p i : 0 <= GPIO_Pin init < 2 ^ 16 -> 0 <= GPIO_Speed init < 4 -> 0 <= i < 16 ->
  pin_set_up init p (GPIO_Init init p) i.
Proof.
  intros Hp Hs Hi. pose proof (current_mode_range init Hs) as Hcm.
  change (GPIO_Init init p) with (init_high init (init_low init p)).
  destruct (init_low_spec init p Hcm) as (L1 & _ & L3 & L4).
  destruct (init_high_spec init (init_low init p) Hcm ltac:(lia)) as (H1 & _ & H3 & H4). split.
  - apply Z.bits_inj'. intros k Hk. destruct (Z.lt_ge_cases k 4) as [Hlt|Hge].
    + rewrite pin_config_bit by lia. destruct (Z.ltb_spec i 8).
      * rewrite H1, Z.mod_small, L3 by lia. case_match; [done|].
        rewrite pin_config_bit, (proj2 (Z.ltb_lt i 8)), Z.mod_small by lia. done.
      * assert (i mod 8 = i - 8) as Hm by (symmetry; apply (Z.mod_unique_pos _ _ 1); lia).
        rewrite Hm, H3, L1 by lia. case_match; [done|].
        rewrite pin_config_bit, (proj2 (Z.ltb_ge i 8)), Hm by lia. done.
    + assert (forall q j, Z.testbit (pin_config q j) k = false) as Hz.
      { intros q j. unfold pin_config. rewrite Z.land_spec, (testbit_above 4 15 k) by lia. apply andb_false_r. }
      rewrite Hz. case_match; [by rewrite (testbit_above 4 _ k) by lia|by rewrite Hz].
  - rewrite H4, L4 by lia. destruct (Z.ltb_spec i 8); [rewrite (proj2 (Z.leb_gt 8 i)) by lia|rewrite (proj2 (Z.leb_le 8 i)) by lia];
      cbn [andb]; by case_match.
Qed.

(** C22: [GPIO_Init], for any set of pins of a port: each pin of the set gets the
    mode's configuration bits, with the speed if it is an output, and a pin
    with a pull resistor the output bit that selects it; every other pin and
    the input register stay as they are. *)
Theorem GPIO_Init_spec init p : 0 <= GPIO_Pin init < 2 ^ 16 -> 0 <= GPIO_Speed init < 4 ->
  INDR (GPIO_Init init p) = INDR p /\ forall i, 0 <= i < 16 -> pin_set_up init p (GPIO_Init init p) i.
Proof.
  intros Hp Hs. pose proof (current_mode_range init Hs) as Hcm. split; [|intros i Hi; by apply init_config].
  change (GPIO_Init init p) with (init_high init (init_low init p)).
  destruct (init_low_spec init p Hcm) as (_ & L2 & _). destruct (init_high_spec init (init_low init p) Hcm ltac:(lia)) as (_ & H2 & _).
  by rewrite H2.
Qed.

(** Pins 1 and 9 as outputs, on a port where every pin floats. *)
Definition demo_init : GPIO_InitTypeDef := GpioInit 0x0202 GPIO_Speed_50MHz GPIO_Mode_Out_PP.
Definition demo_port : gpio_port := GpioPort 0x44444444 0x44444444 0 0.
Lemma GPIO_Init_spec_witness : CFGLR (GPIO_Init demo_init demo_port) = 0x44444434 /\
  pin_set_up demo_init demo_port (GPIO_Init demo_init demo_port) 9.
Proof. split; [done|]. apply (GPIO_Init_spec demo_init demo_port); cbn; unfold GPIO_Speed_50MHz; lia. Defined.
