(* ===== verification/KState.v ===== *)
(** * Kernel state: data, memory and the monad of kernel code
    (rt-thread/include/rtdef.h, rtdebug.h)

    One record [kst] holds the kernel's global and static variables and the
    objects in memory.  A pointer is a [positive]; a C pointer that may be
    [RT_NULL] is an [option ptr].  The arguments that the code asserts to be
    non-null are plain [ptr]s, so those assertions hold by typing.

    The intrusive lists are kept as sequences: [k_qs] maps each thread queue
    (a ready list, the suspend list of an object, ...) to the threads linked
    through [tlist].  [RtList] proves that the pointer code implements exactly
    these operations on disjoint circular lists; its precondition that an
    inserted node is in no list is checked here ([BadPtr] otherwise).

    Kernel code is a value of [K A]: a function from states to a result and a
    state, or a fault.  An [RT_ASSERT] that fails is the fault [AssertFail]
    (the handler never returns), an access to no object is [BadPtr]. *)
From stdpp Require Import gmap countable.
From S2P Require Import Prelude DevState.

Abbreviation ptr := positive.

(** ** Constants of rtdef.h *)
Definition RT_EOK : Z := 0.
Definition RT_ERROR : Z := 1.
Definition RT_ETIMEOUT : Z := 2.
Definition RT_EFULL : Z := 3.
Definition RT_EEMPTY : Z := 4.
Definition RT_ENOMEM : Z := 5.
Definition RT_ENOSYS : Z := 6.
Definition RT_EBUSY : Z := 7.
Definition RT_EIO : Z := 8.
Definition RT_EINTR : Z := 9.
Definition RT_EINVAL : Z := 10.

Definition RT_UINT8_MAX : Z := 255.
Definition RT_UINT16_MAX : Z := 65535.
Definition RT_TICK_MAX : Z := 4294967295.
Definition RT_NAME_MAX : nat := 8.
Definition RT_THREAD_PRIORITY_MAX : Z := 32.
Definition RT_TICK_PER_SECOND : Z := 1000.
Definition RT_WAITING_FOREVER : Z := -1.
Definition RT_WAITING_NO : Z := 0.

(** Thread status, timer flags, object classes. *)
Definition RT_THREAD_INIT : Z := 0.
Definition RT_THREAD_READY : Z := 1.
Definition RT_THREAD_SUSPEND : Z := 2.
Definition RT_THREAD_RUNNING : Z := 3.
Definition RT_THREAD_CLOSE : Z := 4.
Definition RT_THREAD_STAT_MASK : Z := 7.
Definition RT_THREAD_STAT_YIELD : Z := 8.
Definition RT_TIMER_FLAG_ACTIVATED : Z := 1.
Definition RT_TIMER_FLAG_ONE_SHOT : Z := 0.
Definition RT_TIMER_FLAG_PERIODIC : Z := 2.
Definition RT_Object_Class_Null : Z := 0.
Definition RT_Object_Class_Thread : Z := 1.
Definition RT_Object_Class_Semaphore : Z := 2.
Definition RT_Object_Class_Mutex : Z := 3.
Definition RT_Object_Class_Event : Z := 4.
Definition RT_Object_Class_MailBox : Z := 5.
Definition RT_Object_Class_MessageQueue : Z := 6.
Definition RT_Object_Class_Device : Z := 9.
Definition RT_Object_Class_Timer : Z := 10.
Definition RT_Object_Class_Static : Z := 128.

(** ** Data *)
(** [struct rt_object]: the name is the array of [RT_NAME_MAX] bytes; the
    node [list] is the membership in [k_cont] below. *)
Record rt_object := Object {
  ob_name : list Z;
  ob_type : Z;
  ob_flag : Z
}.
Definition set_ob_name (v : list Z) (r : rt_object) : rt_object :=
  Object v (ob_type r) (ob_flag r).
Definition set_ob_type (v : Z) (r : rt_object) : rt_object :=
  Object (ob_name r) v (ob_flag r).
Definition set_ob_flag (v : Z) (r : rt_object) : rt_object :=
  Object (ob_name r) (ob_type r) v.

(** The function pointer of a timer: the thread timeout of thread.c, or an
    application function, identified by a number. *)
Inductive tfunc := rt_thread_timeout_func | app_func (f : positive).

(** [struct rt_timer]: its [parent] is the object at the same address, its
    node [row[0]] the membership in [k_tlist] or [k_tlocal]. *)
Record rt_timer := Timer {
  tm_timeout_func : tfunc;
  tm_parameter : ptr;
  tm_init_tick : Z;
  tm_timeout_tick : Z
}.
Definition set_tm_timeout_func (v : tfunc) (r : rt_timer) : rt_timer :=
  Timer v (tm_parameter r) (tm_init_tick r) (tm_timeout_tick r).
Definition set_tm_parameter (v : ptr) (r : rt_timer) : rt_timer :=
  Timer (tm_timeout_func r) v (tm_init_tick r) (tm_timeout_tick r).
Definition set_tm_init_tick (v : Z) (r : rt_timer) : rt_timer :=
  Timer (tm_timeout_func r) (tm_parameter r) v (tm_timeout_tick r).
Definition set_tm_timeout_tick (v : Z) (r : rt_timer) : rt_timer :=
  Timer (tm_timeout_func r) (tm_parameter r) (tm_init_tick r) v.

(** The address of the timer embedded in a thread. *)
Definition thread_timer (t : ptr) : ptr := xI t.

(** [struct rt_thread]: name, type, flags and [list] are the object at the
    same address, [tlist] is the membership in [k_qs], [thread_timer] is the
    timer at the address [thread_timer t]. *)
Record rt_thread := Thread {
  th_entry : Z;
  th_parameter : Z;
  th_stack_addr : Z;
  th_stack_size : Z;
  th_error : Z;
  th_stat : Z;
  th_current_priority : Z;
  th_init_priority : Z;
  th_number_mask : Z;
  th_event_set : Z;
  th_event_info : Z;
  th_init_tick : Z;
  th_remaining_tick : Z;
  th_cleanup : option positive;
  th_user_data : Z
}.
Definition set_th_entry (v : Z) (r : rt_thread) : rt_thread :=
  Thread v (th_parameter r) (th_stack_addr r) (th_stack_size r) (th_error r) (th_stat r)
    (th_current_priority r) (th_init_priority r) (th_number_mask r) (th_event_set r)
    (th_event_info r) (th_init_tick r) (th_remaining_tick r) (th_cleanup r) (th_user_data r).
Definition set_th_parameter (v : Z) (r : rt_thread) : rt_thread :=
  Thread (th_entry r) v (th_stack_addr r) (th_stack_size r) (th_error r) (th_stat r)
    (th_current_priority r) (th_init_priority r) (th_number_mask r) (th_event_set r)
    (th_event_info r) (th_init_tick r) (th_remaining_tick r) (th_cleanup r) (th_user_data r).
Definition set_th_stack_addr (v : Z) (r : rt_thread) : rt_thread :=
  Thread (th_entry r) (th_parameter r) v (th_stack_size r) (th_error r) (th_stat r)
    (th_current_priority r) (th_init_priority r) (th_number_mask r) (th_event_set r)
    (th_event_info r) (th_init_tick r) (th_remaining_tick r) (th_cleanup r) (th_user_data r).
Definition set_th_stack_size (v : Z) (r : rt_thread) : rt_thread :=
  Thread (th_entry r) (th_parameter r) (th_stack_addr r) v (th_error r) (th_stat r)
    (th_current_priority r) (th_init_priority r) (th_number_mask r) (th_event_set r)
    (th_event_info r) (th_init_tick r) (th_remaining_tick r) (th_cleanup r) (th_user_data r).
Definition set_th_error (v : Z) (r : rt_thread) : rt_thread :=
  Thread (th_entry r) (th_parameter r) (th_stack_addr r) (th_stack_size r) v (th_stat r)
    (th_current_priority r) (th_init_priority r) (th_number_mask r) (th_event_set r)
    (th_event_info r) (th_init_tick r) (th_remaining_tick r) (th_cleanup r) (th_user_data r).
Definition set_th_stat (v : Z) (r : rt_thread) : rt_thread :=
  Thread (th_entry r) (th_parameter r) (th_stack_addr r) (th_stack_size r) (th_error r) v
    (th_current_priority r) (th_init_priority r) (th_number_mask r) (th_event_set r)
    (th_event_info r) (th_init_tick r) (th_remaining_tick r) (th_cleanup r) (th_user_data r).
Definition set_th_current_priority (v : Z) (r : rt_thread) : rt_thread :=
  Thread (th_entry r) (th_parameter r) (th_stack_addr r) (th_stack_size r) (th_error r)
    (th_stat r) v (th_init_priority r) (th_number_mask r) (th_event_set r) (th_event_info r)
    (th_init_tick r) (th_remaining_tick r) (th_cleanup r) (th_user_data r).
Definition set_th_init_priority (v : Z) (r : rt_thread) : rt_thread :=
  Thread (th_entry r) (th_parameter r) (th_stack_addr r) (th_stack_size r) (th_error r)
    (th_stat r) (th_current_priority r) v (th_number_mask r) (th_event_set r) (th_event_info r)
    (th_init_tick r) (th_remaining_tick r) (th_cleanup r) (th_user_data r).
Definition set_th_number_mask (v : Z) (r : rt_thread) : rt_thread :=
  Thread (th_entry r) (th_parameter r) (th_stack_addr r) (th_stack_size r) (th_error r)
    (th_stat r) (th_current_priority r) (th_init_priority r) v (th_event_set r)
    (th_event_info r) (th_init_tick r) (th_remaining_tick r) (th_cleanup r) (th_user_data r).
Definition set_th_event_set (v : Z) (r : rt_thread) : rt_thread :=
  Thread (th_entry r) (th_parameter r) (th_stack_addr r) (th_stack_size r) (th_error r)
    (th_stat r) (th_current_priority r) (th_init_priority r) (th_number_mask r) v
    (th_event_info r) (th_init_tick r) (th_remaining_tick r) (th_cleanup r) (th_user_data r).
Definition set_th_event_info (v : Z) (r : rt_thread) : rt_thread :=
  Thread (th_entry r) (th_parameter r) (th_stack_addr r) (th_stack_size r) (th_error r)
    (th_stat r) (th_current_priority r) (th_init_priority r) (th_number_mask r) (th_event_set r)
    v (th_init_tick r) (th_remaining_tick r) (th_cleanup r) (th_user_data r).
Definition set_th_init_tick (v : Z) (r : rt_thread) : rt_thread :=
  Thread (th_entry r) (th_parameter r) (th_stack_addr r) (th_stack_size r) (th_error r)
    (th_stat r) (th_current_priority r) (th_init_priority r) (th_number_mask r) (th_event_set r)
    (th_event_info r) v (th_remaining_tick r) (th_cleanup r) (th_user_data r).
Definition set_th_remaining_tick (v : Z) (r : rt_thread) : rt_thread :=
  Thread (th_entry r) (th_parameter r) (th_stack_addr r) (th_stack_size r) (th_error r)
    (th_stat r) (th_current_priority r) (th_init_priority r) (th_number_mask r) (th_event_set r)
    (th_event_info r) (th_init_tick r) v (th_cleanup r) (th_user_data r).
Definition set_th_cleanup (v : option positive) (r : rt_thread) : rt_thread :=
  Thread (th_entry r) (th_parameter r) (th_stack_addr r) (th_stack_size r) (th_error r)
    (th_stat r) (th_current_priority r) (th_init_priority r) (th_number_mask r) (th_event_set r)
    (th_event_info r) (th_init_tick r) (th_remaining_tick r) v (th_user_data r).
Definition set_th_user_data (v : Z) (r : rt_thread) : rt_thread :=
  Thread (th_entry r) (th_parameter r) (th_stack_addr r) (th_stack_size r) (th_error r)
    (th_stat r) (th_current_priority r) (th_init_priority r) (th_number_mask r) (th_event_set r)
    (th_event_info r) (th_init_tick r) (th_remaining_tick r) (th_cleanup r) v.

(** [struct rt_semaphore]; the [suspend_thread] list of an IPC object at
    address [o] is the queue [QSuspend o]. *)
Record rt_semaphore := Sem {
  sem_value : Z
}.
Definition set_sem_value (v : Z) (r : rt_semaphore) : rt_semaphore :=
  Sem v.

(** [struct rt_mutex] *)
Record rt_mutex := Mutex {
  mtx_value : Z;
  mtx_original_priority : Z;
  mtx_hold : Z;
  mtx_owner : option ptr
}.
Definition set_mtx_value (v : Z) (r : rt_mutex) : rt_mutex :=
  Mutex v (mtx_original_priority r) (mtx_hold r) (mtx_owner r).
Definition set_mtx_original_priority (v : Z) (r : rt_mutex) : rt_mutex :=
  Mutex (mtx_value r) v (mtx_hold r) (mtx_owner r).
Definition set_mtx_hold (v : Z) (r : rt_mutex) : rt_mutex :=
  Mutex (mtx_value r) (mtx_original_priority r) v (mtx_owner r).
Definition set_mtx_owner (v : option ptr) (r : rt_mutex) : rt_mutex :=
  Mutex (mtx_value r) (mtx_original_priority r) (mtx_hold r) v.

(** [struct rt_event] *)
Record rt_event := Event {
  ev_set : Z
}.
Definition set_ev_set (v : Z) (r : rt_event) : rt_event :=
  Event v.

(** [struct rt_mailbox]: the pool is the array of words behind [msg_pool];
    [suspend_sender_thread] is the queue [QSender o]. *)
Record rt_mailbox := Mailbox {
  mb_msg_pool : list Z;
  mb_size : Z;
  mb_entry : Z;
  mb_in_offset : Z;
  mb_out_offset : Z
}.
Definition set_mb_msg_pool (v : list Z) (r : rt_mailbox) : rt_mailbox :=
  Mailbox v (mb_size r) (mb_entry r) (mb_in_offset r) (mb_out_offset r).
Definition set_mb_size (v : Z) (r : rt_mailbox) : rt_mailbox :=
  Mailbox (mb_msg_pool r) v (mb_entry r) (mb_in_offset r) (mb_out_offset r).
Definition set_mb_entry (v : Z) (r : rt_mailbox) : rt_mailbox :=
  Mailbox (mb_msg_pool r) (mb_size r) v (mb_in_offset r) (mb_out_offset r).
Definition set_mb_in_offset (v : Z) (r : rt_mailbox) : rt_mailbox :=
  Mailbox (mb_msg_pool r) (mb_size r) (mb_entry r) v (mb_out_offset r).
Definition set_mb_out_offset (v : Z) (r : rt_mailbox) : rt_mailbox :=
  Mailbox (mb_msg_pool r) (mb_size r) (mb_entry r) (mb_in_offset r) v.

(** [struct rt_mq_message], with the bytes that follow the header. *)
Record rt_mq_message := MqMsg { msg_next : option Z; msg_data : list Z }.

(** [struct rt_messagequeue]: the pool maps the offset of a message header in
    [msg_pool] to its [next] pointer and the bytes behind it. *)
Record rt_messagequeue := Mq {
  mq_pool : gmap Z rt_mq_message;
  mq_msg_size : Z;
  mq_max_msgs : Z;
  mq_entry : Z;
  mq_queue_head : option Z;
  mq_queue_tail : option Z;
  mq_queue_free : option Z
}.
Definition set_mq_pool (v : gmap Z rt_mq_message) (r : rt_messagequeue) : rt_messagequeue :=
  Mq v (mq_msg_size r) (mq_max_msgs r) (mq_entry r) (mq_queue_head r) (mq_queue_tail r)
    (mq_queue_free r).
Definition set_mq_msg_size (v : Z) (r : rt_messagequeue) : rt_messagequeue :=
  Mq (mq_pool r) v (mq_max_msgs r) (mq_entry r) (mq_queue_head r) (mq_queue_tail r)
    (mq_queue_free r).
Definition set_mq_max_msgs (v : Z) (r : rt_messagequeue) : rt_messagequeue :=
  Mq (mq_pool r) (mq_msg_size r) v (mq_entry r) (mq_queue_head r) (mq_queue_tail r)
    (mq_queue_free r).
Definition set_mq_entry (v : Z) (r : rt_messagequeue) : rt_messagequeue :=
  Mq (mq_pool r) (mq_msg_size r) (mq_max_msgs r) v (mq_queue_head r) (mq_queue_tail r)
    (mq_queue_free r).
Definition set_mq_queue_head (v : option Z) (r : rt_messagequeue) : rt_messagequeue :=
  Mq (mq_pool r) (mq_msg_size r) (mq_max_msgs r) (mq_entry r) v (mq_queue_tail r)
    (mq_queue_free r).
Definition set_mq_queue_tail (v : option Z) (r : rt_messagequeue) : rt_messagequeue :=
  Mq (mq_pool r) (mq_msg_size r) (mq_max_msgs r) (mq_entry r) (mq_queue_head r) v
    (mq_queue_free r).
Definition set_mq_queue_free (v : option Z) (r : rt_messagequeue) : rt_messagequeue :=
  Mq (mq_pool r) (mq_msg_size r) (mq_max_msgs r) (mq_entry r) (mq_queue_head r)
    (mq_queue_tail r) v.

(** The lists a thread's [tlist] can be linked in: the ready list of a
    priority, [suspend_thread] and [suspend_sender_thread] of an object,
    and [_rt_thread_defunct]. *)
Inductive qid := QReady (p : Z) | QSuspend (o : ptr) | QSender (o : ptr) | QDefunct.

(** A code that computes fast. *)
Definition qid_code (q : qid) : positive :=
  match q with
  | QReady Z0 => 1~0 | QReady (Zpos p) => p~0~0 | QReady (Zneg p) => p~1~0
  | QSuspend o => o~0~1 | QSender o => o~1~1 | QDefunct => 1
  end.
Definition qid_decode (c : positive) : option qid :=
  match c with
  | 1 => Some QDefunct | 1~0 => Some (QReady Z0)
  | p~0~0 => Some (QReady (Zpos p)) | p~1~0 => Some (QReady (Zneg p))
  | o~0~1 => Some (QSuspend o) | o~1~1 => Some (QSender o)
  | 1~1 => None
  end%positive.
Lemma qid_decode_code q : qid_decode (qid_code q) = Some q.
Proof. by destruct q as [[]| | |]. Qed.
Lemma qid_code_inj x y : qid_code x = qid_code y -> x = y.
Proof. intros E. apply (f_equal qid_decode) in E. rewrite !qid_decode_code in E. congruence. Qed.

#[export] Instance qid_eq_dec : EqDecision qid :=
  fun x y => match decide (qid_code x = qid_code y) with
             | left e => left (qid_code_inj x y e)
             | right n => right (fun e => n (f_equal qid_code e))
             end.
#[export] Instance qid_countable : Countable qid :=
  {| encode := qid_code; decode := qid_decode; decode_encode := qid_decode_code |}.

(** The kernel state: the static and global variables of scheduler.c,
    clock.c, irq.c, timer.c, idle.c and object.c, the objects in memory, and
    ([k_mem]) the global byte arrays of the application; [k_drv] holds the data
    of the device framework. *)
Record kst := KSt {
  k_tick : Z;
  k_nest : Z;
  k_lock : Z;
  k_cur : option ptr;
  k_curprio : Z;
  k_group : Z;
  k_qs : gmap qid (list ptr);
  k_threads : gmap ptr rt_thread;
  k_objs : gmap ptr rt_object;
  k_cont : gmap Z (list ptr);
  k_timers : gmap ptr rt_timer;
  k_tlist : list ptr;
  k_tlocal : list ptr;
  k_random : Z;
  k_sems : gmap ptr rt_semaphore;
  k_mutexes : gmap ptr rt_mutex;
  k_events : gmap ptr rt_event;
  k_mbs : gmap ptr rt_mailbox;
  k_mqs : gmap ptr rt_messagequeue;
  k_mem : gmap ptr (list Z);
  k_drv : drivers
}.
Definition set_k_tick (v : Z) (r : kst) : kst :=
  KSt v (k_nest r) (k_lock r) (k_cur r) (k_curprio r) (k_group r) (k_qs r) (k_threads r)
    (k_objs r) (k_cont r) (k_timers r) (k_tlist r) (k_tlocal r) (k_random r) (k_sems r)
    (k_mutexes r) (k_events r) (k_mbs r) (k_mqs r) (k_mem r) (k_drv r).
Definition set_k_nest (v : Z) (r : kst) : kst :=
  KSt (k_tick r) v (k_lock r) (k_cur r) (k_curprio r) (k_group r) (k_qs r) (k_threads r)
    (k_objs r) (k_cont r) (k_timers r) (k_tlist r) (k_tlocal r) (k_random r) (k_sems r)
    (k_mutexes r) (k_events r) (k_mbs r) (k_mqs r) (k_mem r) (k_drv r).
Definition set_k_lock (v : Z) (r : kst) : kst :=
  KSt (k_tick r) (k_nest r) v (k_cur r) (k_curprio r) (k_group r) (k_qs r) (k_threads r)
    (k_objs r) (k_cont r) (k_timers r) (k_tlist r) (k_tlocal r) (k_random r) (k_sems r)
    (k_mutexes r) (k_events r) (k_mbs r) (k_mqs r) (k_mem r) (k_drv r).
Definition set_k_cur (v : option ptr) (r : kst) : kst :=
  KSt (k_tick r) (k_nest r) (k_lock r) v (k_curprio r) (k_group r) (k_qs r) (k_threads r)
    (k_objs r) (k_cont r) (k_timers r) (k_tlist r) (k_tlocal r) (k_random r) (k_sems r)
    (k_mutexes r) (k_events r) (k_mbs r) (k_mqs r) (k_mem r) (k_drv r).
Definition set_k_curprio (v : Z) (r : kst) : kst :=
  KSt (k_tick r) (k_nest r) (k_lock r) (k_cur r) v (k_group r) (k_qs r) (k_threads r) (k_objs r)
    (k_cont r) (k_timers r) (k_tlist r) (k_tlocal r) (k_random r) (k_sems r) (k_mutexes r)
    (k_events r) (k_mbs r) (k_mqs r) (k_mem r) (k_drv r).
Definition set_k_group (v : Z) (r : kst) : kst :=
  KSt (k_tick r) (k_nest r) (k_lock r) (k_cur r) (k_curprio r) v (k_qs r) (k_threads r)
    (k_objs r) (k_cont r) (k_timers r) (k_tlist r) (k_tlocal r) (k_random r) (k_sems r)
    (k_mutexes r) (k_events r) (k_mbs r) (k_mqs r) (k_mem r) (k_drv r).
Definition set_k_qs (v : gmap qid (list ptr)) (r : kst) : kst :=
  KSt (k_tick r) (k_nest r) (k_lock r) (k_cur r) (k_curprio r) (k_group r) v (k_threads r)
    (k_objs r) (k_cont r) (k_timers r) (k_tlist r) (k_tlocal r) (k_random r) (k_sems r)
    (k_mutexes r) (k_events r) (k_mbs r) (k_mqs r) (k_mem r) (k_drv r).
Definition set_k_threads (v : gmap ptr rt_thread) (r : kst) : kst :=
  KSt (k_tick r) (k_nest r) (k_lock r) (k_cur r) (k_curprio r) (k_group r) (k_qs r) v (k_objs r)
    (k_cont r) (k_timers r) (k_tlist r) (k_tlocal r) (k_random r) (k_sems r) (k_mutexes r)
    (k_events r) (k_mbs r) (k_mqs r) (k_mem r) (k_drv r).
Definition set_k_objs (v : gmap ptr rt_object) (r : kst) : kst :=
  KSt (k_tick r) (k_nest r) (k_lock r) (k_cur r) (k_curprio r) (k_group r) (k_qs r)
    (k_threads r) v (k_cont r) (k_timers r) (k_tlist r) (k_tlocal r) (k_random r) (k_sems r)
    (k_mutexes r) (k_events r) (k_mbs r) (k_mqs r) (k_mem r) (k_drv r).
Definition set_k_cont (v : gmap Z (list ptr)) (r : kst) : kst :=
  KSt (k_tick r) (k_nest r) (k_lock r) (k_cur r) (k_curprio r) (k_group r) (k_qs r)
    (k_threads r) (k_objs r) v (k_timers r) (k_tlist r) (k_tlocal r) (k_random r) (k_sems r)
    (k_mutexes r) (k_events r) (k_mbs r) (k_mqs r) (k_mem r) (k_drv r).
Definition set_k_timers (v : gmap ptr rt_timer) (r : kst) : kst :=
  KSt (k_tick r) (k_nest r) (k_lock r) (k_cur r) (k_curprio r) (k_group r) (k_qs r)
    (k_threads r) (k_objs r) (k_cont r) v (k_tlist r) (k_tlocal r) (k_random r) (k_sems r)
    (k_mutexes r) (k_events r) (k_mbs r) (k_mqs r) (k_mem r) (k_drv r).
Definition set_k_tlist (v : list ptr) (r : kst) : kst :=
  KSt (k_tick r) (k_nest r) (k_lock r) (k_cur r) (k_curprio r) (k_group r) (k_qs r)
    (k_threads r) (k_objs r) (k_cont r) (k_timers r) v (k_tlocal r) (k_random r) (k_sems r)
    (k_mutexes r) (k_events r) (k_mbs r) (k_mqs r) (k_mem r) (k_drv r).
Definition set_k_tlocal (v : list ptr) (r : kst) : kst :=
  KSt (k_tick r) (k_nest r) (k_lock r) (k_cur r) (k_curprio r) (k_group r) (k_qs r)
    (k_threads r) (k_objs r) (k_cont r) (k_timers r) (k_tlist r) v (k_random r) (k_sems r)
    (k_mutexes r) (k_events r) (k_mbs r) (k_mqs r) (k_mem r) (k_drv r).
Definition set_k_random (v : Z) (r : kst) : kst :=
  KSt (k_tick r) (k_nest r) (k_lock r) (k_cur r) (k_curprio r) (k_group r) (k_qs r)
    (k_threads r) (k_objs r) (k_cont r) (k_timers r) (k_tlist r) (k_tlocal r) v (k_sems r)
    (k_mutexes r) (k_events r) (k_mbs r) (k_mqs r) (k_mem r) (k_drv r).
Definition set_k_sems (v : gmap ptr rt_semaphore) (r : kst) : kst :=
  KSt (k_tick r) (k_nest r) (k_lock r) (k_cur r) (k_curprio r) (k_group r) (k_qs r)
    (k_threads r) (k_objs r) (k_cont r) (k_timers r) (k_tlist r) (k_tlocal r) (k_random r) v
    (k_mutexes r) (k_events r) (k_mbs r) (k_mqs r) (k_mem r) (k_drv r).
Definition set_k_mutexes (v : gmap ptr rt_mutex) (r : kst) : kst :=
  KSt (k_tick r) (k_nest r) (k_lock r) (k_cur r) (k_curprio r) (k_group r) (k_qs r)
    (k_threads r) (k_objs r) (k_cont r) (k_timers r) (k_tlist r) (k_tlocal r) (k_random r)
    (k_sems r) v (k_events r) (k_mbs r) (k_mqs r) (k_mem r) (k_drv r).
Definition set_k_events (v : gmap ptr rt_event) (r : kst) : kst :=
  KSt (k_tick r) (k_nest r) (k_lock r) (k_cur r) (k_curprio r) (k_group r) (k_qs r)
    (k_threads r) (k_objs r) (k_cont r) (k_timers r) (k_tlist r) (k_tlocal r) (k_random r)
    (k_sems r) (k_mutexes r) v (k_mbs r) (k_mqs r) (k_mem r) (k_drv r).
Definition set_k_mbs (v : gmap ptr rt_mailbox) (r : kst) : kst :=
  KSt (k_tick r) (k_nest r) (k_lock r) (k_cur r) (k_curprio r) (k_group r) (k_qs r)
    (k_threads r) (k_objs r) (k_cont r) (k_timers r) (k_tlist r) (k_tlocal r) (k_random r)
    (k_sems r) (k_mutexes r) (k_events r) v (k_mqs r) (k_mem r) (k_drv r).
Definition set_k_mqs (v : gmap ptr rt_messagequeue) (r : kst) : kst :=
  KSt (k_tick r) (k_nest r) (k_lock r) (k_cur r) (k_curprio r) (k_group r) (k_qs r)
    (k_threads r) (k_objs r) (k_cont r) (k_timers r) (k_tlist r) (k_tlocal r) (k_random r)
    (k_sems r) (k_mutexes r) (k_events r) (k_mbs r) v (k_mem r) (k_drv r).
Definition set_k_mem (v : gmap ptr (list Z)) (r : kst) : kst :=
  KSt (k_tick r) (k_nest r) (k_lock r) (k_cur r) (k_curprio r) (k_group r) (k_qs r)
    (k_threads r) (k_objs r) (k_cont r) (k_timers r) (k_tlist r) (k_tlocal r) (k_random r)
    (k_sems r) (k_mutexes r) (k_events r) (k_mbs r) (k_mqs r) v (k_drv r).
Definition set_k_drv (v : drivers) (r : kst) : kst :=
  KSt (k_tick r) (k_nest r) (k_lock r) (k_cur r) (k_curprio r) (k_group r) (k_qs r)
    (k_threads r) (k_objs r) (k_cont r) (k_timers r) (k_tlist r) (k_tlocal r) (k_random r)
    (k_sems r) (k_mutexes r) (k_events r) (k_mbs r) (k_mqs r) (k_mem r) v.

(** ** The monad *)
Inductive fault := AssertFail | BadPtr | OutOfFuel.
Inductive res (A : Type) := Ok (a : A) (s : kst) | Fail (e : fault).
Arguments Ok {A}.
Arguments Fail {A}.

Definition K (A : Type) : Type := kst -> res A.
#[export] Instance K_ret : MRet K := fun A a s => Ok a s.
#[export] Instance K_bind : MBind K := fun A B f m s =>
  match m s with Ok a s' => f a s' | Fail e => Fail e end.
Arguments K_bind : simpl never.

Definition kfail {A} (e : fault) : K A := fun _ => Fail e.
Definition gets {A} (f : kst -> A) : K A := fun s => Ok (f s) s.
Definition modify (f : kst -> kst) : K unit := fun s => Ok tt (f s).
Definition lift {A} (o : option A) : K A := match o with Some a => mret a | None => kfail BadPtr end.

(** [RT_ASSERT(b)] *)
Definition RT_ASSERT (b : bool) : K unit := if b then mret tt else kfail AssertFail.

(** Reads and writes through pointers. *)
Definition get_thread (t : ptr) : K rt_thread := fun s => lift (k_threads s !! t) s.
Definition put_thread (t : ptr) (th : rt_thread) : K unit :=
  modify (fun s => set_k_threads (<[t := th]> (k_threads s)) s).
Definition get_timer (p : ptr) : K rt_timer := fun s => lift (k_timers s !! p) s.
Definition put_timer (p : ptr) (tm : rt_timer) : K unit :=
  modify (fun s => set_k_timers (<[p := tm]> (k_timers s)) s).
Definition get_obj (p : ptr) : K rt_object := fun s => lift (k_objs s !! p) s.
Definition put_obj (p : ptr) (o : rt_object) : K unit :=
  modify (fun s => set_k_objs (<[p := o]> (k_objs s)) s).
Definition obj_flag (p : ptr) : K Z := o ← get_obj p; mret (ob_flag o).
Definition put_obj_flag (p : ptr) (v : Z) : K unit :=
  o ← get_obj p; put_obj p (set_ob_flag v o).

(** [rt_thread_self()] dereferenced: a fault before the scheduler started. *)
Definition self : K ptr := fun s => lift (k_cur s) s.

(** ** The lists *)
Abbreviation queues := (gmap qid (list ptr)).

Definition getq (m : queues) (q : qid) : list ptr := default [] (m !! q).

(** Is [tlist] of the thread linked in some list? *)
Definition linked (t : ptr) (m : queues) : bool :=
  bool_decide (map_Exists (fun _ l => t ∈ l) m).

(** [rt_list_remove(&thread->tlist)] *)
Definition unlink (t : ptr) (m : queues) : queues := filter (fun x => x <> t) <$> m.

(** [rt_list_insert_before(&queue, &thread->tlist)] *)
Definition enqueue (q : qid) (t : ptr) : K unit := fun s =>
  if linked t (k_qs s) then Fail BadPtr
  else Ok tt (set_k_qs (<[q := getq (k_qs s) q ++ [t]]> (k_qs s)) s).
(** [rt_list_insert_after(&queue, &thread->tlist)] *)
Definition enqueue_front (q : qid) (t : ptr) : K unit := fun s =>
  if linked t (k_qs s) then Fail BadPtr
  else Ok tt (set_k_qs (<[q := t :: getq (k_qs s) q]> (k_qs s)) s).

(** [rt_list_insert_before(&x->tlist, &thread->tlist)] for [x] in the queue:
    insertion before the element [x]. *)
Fixpoint insert_before (x t : ptr) (l : list ptr) : list ptr :=
  match l with
  | [] => []
  | y :: l => if bool_decide (y = x) then t :: y :: l else y :: insert_before x t l
  end.
Definition enqueue_before (q : qid) (x t : ptr) : K unit := fun s =>
  if linked t (k_qs s) || negb (bool_decide (x ∈ getq (k_qs s) q)) then Fail BadPtr
  else Ok tt (set_k_qs (<[q := insert_before x t (getq (k_qs s) q)]> (k_qs s)) s).

Definition dequeue_node (t : ptr) : K unit := modify (fun s => set_k_qs (unlink t (k_qs s)) s).
Definition queue_empty (q : qid) : K bool :=
  gets (fun s => match getq (k_qs s) q with [] => true | _ => false end).
(** The first element, [rt_list_entry(queue.next, struct rt_thread, tlist)]:
    not a thread when the list is empty. *)
Definition queue_head (q : qid) : K ptr := fun s => lift (head (getq (k_qs s) q)) s.

(** ** Context checks of rtdebug.h *)
Definition RT_DEBUG_NOT_IN_INTERRUPT : K unit :=
  n ← gets k_nest; RT_ASSERT (n =? 0).
Definition RT_DEBUG_IN_THREAD_CONTEXT : K unit :=
  c ← gets k_cur; RT_ASSERT (bool_decide (is_Some c));; RT_DEBUG_NOT_IN_INTERRUPT.

(** ** Running code

    [wp m Q s]: from [s] the code ends without a fault, in a result and a
    state that satisfy [Q]. *)
Definition wp {A} (m : K A) (Q : A -> kst -> Prop) (s : kst) : Prop :=
  match m s with Ok a s' => Q a s' | Fail _ => False end.

Lemma run_bind {A B} (m : K A) (f : A -> K B) s a s' :
  m s = Ok a s' -> (m ≫= f) s = f a s'.
Proof. intros H. unfold mbind, K_bind. by rewrite H. Qed.

Lemma run_bind_fail {A B} (m : K A) (f : A -> K B) s e :
  m s = Fail e -> (m ≫= f) s = Fail e.
Proof. intros H. unfold mbind, K_bind. by rewrite H. Qed.

Lemma wp_run {A} (m : K A) Q s a s' : m s = Ok a s' -> Q a s' -> wp m Q s.
Proof. unfold wp. by intros ->. Qed.

Lemma wp_inv {A} (m : K A) Q s : wp m Q s -> exists a s', m s = Ok a s' /\ Q a s'.
Proof. unfold wp. destruct (m s); [eauto|done]. Qed.

Lemma wp_bind {A B} (m : K A) (f : A -> K B) Q s :
  wp m (fun a s' => wp (f a) Q s') s -> wp (m ≫= f) Q s.
Proof. unfold wp, mbind, K_bind. by destruct (m s). Qed.

Lemma wp_ret {A} (a : A) (Q : A -> kst -> Prop) s : Q a s -> wp (mret a) Q s.
Proof. done. Qed.

Lemma wp_mono {A} (m : K A) (Q Q' : A -> kst -> Prop) s :
  wp m Q s -> (forall a s', Q a s' -> Q' a s') -> wp m Q' s.
Proof. unfold wp. destruct (m s); [auto|done]. Qed.

Lemma get_thread_run s t th : k_threads s !! t = Some th -> get_thread t s = Ok th s.
Proof. unfold get_thread. by intros ->. Qed.
Lemma get_timer_run s p tm : k_timers s !! p = Some tm -> get_timer p s = Ok tm s.
Proof. unfold get_timer. by intros ->. Qed.
Lemma get_obj_run s p o : k_objs s !! p = Some o -> get_obj p s = Ok o s.
Proof. unfold get_obj. by intros ->. Qed.
Lemma obj_flag_run s p o : k_objs s !! p = Some o -> obj_flag p s = Ok (ob_flag o) s.
Proof. intros H. unfold obj_flag. by rewrite (run_bind _ _ _ _ _ (get_obj_run _ _ _ H)). Qed.
Lemma put_obj_flag_run s p o v : k_objs s !! p = Some o ->
  put_obj_flag p v s = Ok tt (set_k_objs (<[p := set_ob_flag v o]> (k_objs s)) s).
Proof. intros H. unfold put_obj_flag. by rewrite (run_bind _ _ _ _ _ (get_obj_run _ _ _ H)). Qed.
Lemma self_run s t : k_cur s = Some t -> self s = Ok t s.
Proof. unfold self. by intros ->. Qed.
Lemma assert_run b s : b = true -> RT_ASSERT b s = Ok tt s.
Proof. by intros ->. Qed.
Lemma queue_head_run s q t l : getq (k_qs s) q = t :: l -> queue_head q s = Ok t s.
Proof. unfold queue_head. by intros ->. Qed.
Lemma enqueue_run s q t : linked t (k_qs s) = false ->
  enqueue q t s = Ok tt (set_k_qs (<[q := getq (k_qs s) q ++ [t]]> (k_qs s)) s).
Proof. unfold enqueue. by intros ->. Qed.
Lemma enqueue_front_run s q t : linked t (k_qs s) = false ->
  enqueue_front q t s = Ok tt (set_k_qs (<[q := t :: getq (k_qs s) q]> (k_qs s)) s).
Proof. unfold enqueue_front. by intros ->. Qed.
Lemma enqueue_before_run s q x t : linked t (k_qs s) = false -> x ∈ getq (k_qs s) q ->
  enqueue_before q x t s = Ok tt (set_k_qs (<[q := insert_before x t (getq (k_qs s) q)]> (k_qs s)) s).
Proof. unfold enqueue_before. intros -> H. by rewrite bool_decide_eq_true_2. Qed.
Lemma not_in_interrupt_run s : k_nest s = 0 -> RT_DEBUG_NOT_IN_INTERRUPT s = Ok tt s.
Proof.
  intros H. unfold RT_DEBUG_NOT_IN_INTERRUPT. erewrite run_bind by reflexivity. by rewrite H.
Qed.
Lemma in_thread_context_run s t :
  k_cur s = Some t -> k_nest s = 0 -> RT_DEBUG_IN_THREAD_CONTEXT s = Ok tt s.
Proof.
  intros Hc H. unfold RT_DEBUG_IN_THREAD_CONTEXT. erewrite run_bind by reflexivity.
  rewrite Hc. by apply not_in_interrupt_run.
Qed.

#[export] Hint Resolve get_thread_run get_timer_run get_obj_run obj_flag_run put_obj_flag_run
  self_run assert_run queue_head_run enqueue_run enqueue_front_run not_in_interrupt_run
  in_thread_context_run : krun.

(** ** Queues as sequences *)
Lemma getq_insert_eq m q l : getq (<[q := l]> m) q = l.
Proof. unfold getq. by rewrite lookup_insert_eq. Qed.
Lemma getq_insert_ne m q q' l : q <> q' -> getq (<[q := l]> m) q' = getq m q'.
Proof. intros. unfold getq. by rewrite lookup_insert_ne. Qed.
Lemma getq_insert m q q' l :
  getq (<[q := l]> m) q' = if bool_decide (q = q') then l else getq m q'.
Proof.
  case_bool_decide; [subst; apply getq_insert_eq|by apply getq_insert_ne].
Qed.
Lemma getq_unlink m t q : getq (unlink t m) q = filter (fun x => x <> t) (getq m q).
Proof. unfold getq, unlink. rewrite lookup_fmap. by destruct (m !! q). Qed.

Lemma linked_false m t : linked t m = false <-> forall q, t ∉ getq m q.
Proof.
  unfold linked. rewrite bool_decide_eq_false, map_Exists_lookup. split.
  - intros H q Hin. apply H. exists q, (getq m q). unfold getq in *.
    destruct (m !! q); [done|]. by apply not_elem_of_nil in Hin.
  - intros H (q & l & Hl & Hin). apply (H q). unfold getq. by rewrite Hl.
Qed.
Lemma linked_unlink m t : linked t (unlink t m) = false.
Proof.
  apply linked_false. intros q. rewrite getq_unlink, list_elem_of_filter. naive_solver.
Qed.
Lemma filter_id (P : ptr -> Prop) `{forall x, Decision (P x)} (l : list ptr) :
  (forall x, x ∈ l -> P x) -> filter P l = l.
Proof.
  induction l as [|x l IH]; intros HP; [done|].
  rewrite filter_cons_True by set_solver. f_equal. set_solver.
Qed.
Lemma unlink_not_linked m t q : linked t m = false -> getq (unlink t m) q = getq m q.
Proof.
  rewrite linked_false, getq_unlink. intros H. apply filter_id. intros x Hx ->. by apply (H q).
Qed.
#[export] Hint Resolve linked_unlink : krun.
