(* ===== verification/Scheduler.v ===== *)
(** * The scheduler (rt-thread/src/scheduler.c, irq.c, and __rt_ffs of kservice.c)

    A bitmap of the non-empty ready lists, 32 ready lists, the current thread
    and the scheduler lock.  Every function that runs with interrupts disabled
    is one atomic [K] computation.  The context switch primitives only change
    which thread the processor executes; the model reads that off [k_cur].
    No hook is installed anywhere in the repository, so the hook calls of the
    source are no-ops, and [RT_DEBUG_SCHEDULER] is 0, so nothing is logged.

    [sinv] is the scheduler's invariant; the theorems show that the bitmap
    search is right, that [rt_schedule] runs the first thread of the highest
    ready priority and re-queues the preempted one, and that every operation
    keeps the invariant. *)
From S2P Require Import Prelude DevState KState.

(** ** Find first set *)
Definition lowest_bit_row (hi : Z) : list Z :=
  [hi; 0; 1; 0; 2; 0; 1; 0; 3; 0; 1; 0; 2; 0; 1; 0].
(** The 16 rows of the table differ in their first entry only. *)
Definition __lowest_bit_bitmap : list Z :=
  lowest_bit_row 0 ++ lowest_bit_row 4 ++ lowest_bit_row 5 ++ lowest_bit_row 4 ++
  lowest_bit_row 6 ++ lowest_bit_row 4 ++ lowest_bit_row 5 ++ lowest_bit_row 4 ++
  lowest_bit_row 7 ++ lowest_bit_row 4 ++ lowest_bit_row 5 ++ lowest_bit_row 4 ++
  lowest_bit_row 6 ++ lowest_bit_row 4 ++ lowest_bit_row 5 ++ lowest_bit_row 4.

Definition lowest_bit (b : Z) : Z := nth (Z.to_nat b) __lowest_bit_bitmap 0.

Definition __rt_ffs (value : Z) : Z :=
  if value =? 0 then 0
  else if negb (Z.land value 0xff =? 0) then
    lowest_bit (Z.land value 0xff) + 1
  else if negb (Z.land value 0xff00 =? 0) then
    lowest_bit (Z.shiftr (Z.land value 0xff00) 8) + 9
  else if negb (Z.land value 0xff0000 =? 0) then
    lowest_bit (Z.shiftr (Z.land value 0xff0000) 16) + 17
  else lowest_bit (Z.shiftr (Z.land value 0xff000000) 24) + 25.

(** ** Interrupt nesting (irq.c) *)
Definition rt_interrupt_enter : K unit := modify (fun s => set_k_nest (u8 (k_nest s + 1)) s).
Definition rt_interrupt_leave : K unit := modify (fun s => set_k_nest (u8 (k_nest s - 1)) s).
Definition rt_interrupt_get_nest : K Z := gets k_nest.

(** ** scheduler.c *)
Definition rt_thread_self : K (option ptr) := gets k_cur.

(** [rt_thread_priority_table[p]]: 32 entries. *)
Definition rt_thread_priority_table (p : Z) : K qid :=
  if (0 <=? p) && (p <? RT_THREAD_PRIORITY_MAX) then mret (QReady p) else kfail BadPtr.

Definition _get_highest_priority_thread : K (ptr * Z) :=
  group ← gets k_group;
  let highest_ready_priority := u32 (__rt_ffs group - 1) in
  q ← rt_thread_priority_table highest_ready_priority;
  highest_priority_thread ← queue_head q;
  mret (highest_priority_thread, highest_ready_priority).

Fixpoint scheduler_init_loop (n : nat) (offset : Z) (s : kst) : kst :=
  match n with
  | O => s
  | S n => scheduler_init_loop n (offset + 1) (set_k_qs (<[QReady offset := []]> (k_qs s)) s)
  end.
Definition rt_system_scheduler_init : K unit :=
  modify (set_k_lock 0);;
  modify (scheduler_init_loop (Z.to_nat RT_THREAD_PRIORITY_MAX) 0);;
  modify (set_k_group 0).

(** [stat = v | (stat & ~RT_THREAD_STAT_MASK)] *)
Definition with_state (v : Z) (th : rt_thread) : rt_thread :=
  set_th_stat (Z.lor v (Z.land (th_stat th) (Z.lnot RT_THREAD_STAT_MASK))) th.
(** [stat & RT_THREAD_STAT_MASK] *)
Definition state_of (th : rt_thread) : Z := Z.land (th_stat th) RT_THREAD_STAT_MASK.

Definition rt_schedule_insert_thread (thread : ptr) : K unit :=
  cur ← rt_thread_self;
  th ← get_thread thread;
  if bool_decide (cur = Some thread) then
    put_thread thread (with_state RT_THREAD_RUNNING th)
  else
    put_thread thread (with_state RT_THREAD_READY th);;
    q ← rt_thread_priority_table (th_current_priority th);
    enqueue q thread;;
    modify (fun s => set_k_group (Z.lor (k_group s) (th_number_mask th)) s).

Definition rt_schedule_remove_thread (thread : ptr) : K unit :=
  th ← get_thread thread;
  dequeue_node thread;;
  q ← rt_thread_priority_table (th_current_priority th);
  empty ← queue_empty q;
  if empty : bool then
    modify (fun s => set_k_group (Z.land (k_group s) (Z.lnot (th_number_mask th))) s)
  else mret tt.

Definition rt_system_scheduler_start : K unit :=
  '(to_thread, _) ← _get_highest_priority_thread;
  modify (set_k_cur (Some to_thread));;
  rt_schedule_remove_thread to_thread;;
  th ← get_thread to_thread;
  put_thread to_thread (set_th_stat RT_THREAD_RUNNING th).

Definition rt_schedule : K unit :=
  lock ← gets k_lock;
  group ← gets k_group;
  if (lock =? 0) && negb (group =? 0) then
    '(highest, highest_ready_priority) ← _get_highest_priority_thread;
    cur ← self;
    th ← get_thread cur;
    '(to_thread, need_insert_from_thread) ←
      (if state_of th =? RT_THREAD_RUNNING then
         put_thread cur (set_th_stat (Z.land (th_stat th) (Z.lnot RT_THREAD_STAT_YIELD)) th);;
         mret (if th_current_priority th <? highest_ready_priority then (cur, false)
               else if (th_current_priority th =? highest_ready_priority)
                       && (Z.land (th_stat th) RT_THREAD_STAT_YIELD =? 0) then (cur, false)
               else (highest, true))
       else mret (highest, false));
    if negb (bool_decide (to_thread = cur)) then
      modify (set_k_curprio (u8 highest_ready_priority));;
      modify (set_k_cur (Some to_thread));;
      (if need_insert_from_thread : bool then rt_schedule_insert_thread cur else mret tt);;
      rt_schedule_remove_thread to_thread;;
      tth ← get_thread to_thread;
      put_thread to_thread (with_state RT_THREAD_RUNNING tth)
    else
      rt_schedule_remove_thread cur;;
      cth ← get_thread cur;
      put_thread cur (with_state RT_THREAD_RUNNING cth)
  else mret tt.

Definition rt_enter_critical : K unit := modify (fun s => set_k_lock (i16 (k_lock s + 1)) s).

Definition rt_exit_critical : K unit :=
  modify (fun s => set_k_lock (i16 (k_lock s - 1)) s);;
  lock ← gets k_lock;
  if lock <=? 0 then
    modify (set_k_lock 0);;
    cur ← rt_thread_self;
    if bool_decide (is_Some cur) then rt_schedule else mret tt
  else mret tt.

Definition rt_critical_level : K Z := gets (fun s => u16 (k_lock s)).

(** ** The bitmap search *)

(** The table gives the lowest set bit of every non-zero byte. *)
Lemma lowest_bit_byte b : 0 < b < 256 ->
  0 <= lowest_bit b < 8 /\ Z.testbit b (lowest_bit b) = true /\
  (forall i, 0 <= i < lowest_bit b -> Z.testbit b i = false).
Proof.
  intros Hb.
  assert (forallb (fun n => let b := Z.of_nat n in let r := lowest_bit b in
    (0 <=? r) && (r <? 8) && Z.testbit b r &&
    forallb (fun i => negb (Z.testbit b (Z.of_nat i))) (seq 0 (Z.to_nat r))) (seq 1 255) = true)
    as H by (vm_compute; reflexivity).
  rewrite forallb_forall in H. specialize (H (Z.to_nat b)).
  rewrite in_seq, Z2Nat.id in H by lia. specialize (H ltac:(lia)).
  cbv zeta in H. rewrite !andb_true_iff, forallb_forall in H.
  destruct H as [[[H1 H2] H3] H4]. repeat split; [lia..|done|].
  intros i Hi. specialize (H4 (Z.to_nat i)). rewrite in_seq, Z2Nat.id in H4 by lia.
  apply negb_true_iff, H4. lia.
Qed.

(** Byte [k / 8] of a word, as the code extracts it. *)
Lemma byte_at_testbit v k i : 0 <= k -> 0 <= i ->
  Z.testbit (Z.shiftr (Z.land v (Z.shiftl 255 k)) k) i = (i <? 8) && Z.testbit v (i + k).
Proof.
  intros Hk Hi. rewrite Z.shiftr_spec, Z.land_spec, Z.shiftl_spec by lia.
  replace (i + k - k) with i by lia. change 255 with (Z.ones 8).
  rewrite Z.testbit_ones by lia. rewrite andb_comm. by destruct (Z.leb_spec 0 i); [|lia].
Qed.

Lemma byte_at_range v k : 0 <= k -> 0 <= Z.shiftr (Z.land v (Z.shiftl 255 k)) k < 256.
Proof.
  intros Hk. apply (testbit_range 8); [lia| |].
  - apply Z.shiftr_nonneg, Z.land_nonneg. right. apply Z.shiftl_nonneg. lia.
  - intros i Hi. rewrite byte_at_testbit by lia. by destruct (Z.ltb_spec i 8); [lia|].
Qed.

Definition lowest_set (v r : Z) : Prop :=
  0 <= r /\ Z.testbit v r = true /\ forall i, 0 <= i < r -> Z.testbit v i = false.

Lemma byte_at_lowest v k : 0 <= k ->
  (forall i, 0 <= i < k -> Z.testbit v i = false) ->
  Z.shiftr (Z.land v (Z.shiftl 255 k)) k <> 0 ->
  let r := lowest_bit (Z.shiftr (Z.land v (Z.shiftl 255 k)) k) in
  0 <= r < 8 /\ lowest_set v (r + k).
Proof.
  intros Hk Hlow Hne r. pose proof (byte_at_range v k Hk) as Hr.
  destruct (lowest_bit_byte _ (conj (proj2 (Z.le_neq _ _) (conj (proj1 Hr) (not_eq_sym Hne))) (proj2 Hr)))
    as (Hr8 & Hb & Hz).
  fold r in Hr8, Hb, Hz. split; [done|]. split; [lia|]. split.
  - rewrite byte_at_testbit in Hb by lia. by destruct (Z.testbit v (r + k)); [|rewrite andb_false_r in Hb].
  - intros i Hi. destruct (Z.lt_ge_cases i k); [apply Hlow; lia|].
    specialize (Hz (i - k) ltac:(lia)). rewrite byte_at_testbit in Hz by lia.
    replace (i - k + k) with i in Hz by lia. by destruct (Z.ltb_spec (i - k) 8); [|lia].
Qed.

(** A zero byte extends the run of zero bits below. *)
Lemma byte_at_zero v k : 0 <= k ->
  (forall i, 0 <= i < k -> Z.testbit v i = false) ->
  Z.shiftr (Z.land v (Z.shiftl 255 k)) k = 0 ->
  forall i, 0 <= i < k + 8 -> Z.testbit v i = false.
Proof.
  intros Hk Hlow Hz i Hi. destruct (Z.lt_ge_cases i k); [apply Hlow; lia|].
  assert (Z.testbit (Z.shiftr (Z.land v (Z.shiftl 255 k)) k) (i - k) = false) as H1
    by (rewrite Hz; apply Z.testbit_0_l).
  rewrite byte_at_testbit in H1 by lia. replace (i - k + k) with i in H1 by lia.
  by destruct (Z.ltb_spec (i - k) 8); [|lia].
Qed.

Lemma byte_at_eq0 v k : 0 <= k ->
  (Z.land v (Z.shiftl 255 k) =? 0) = (Z.shiftr (Z.land v (Z.shiftl 255 k)) k =? 0).
Proof.
  intros Hk. apply Bool.eq_true_iff_eq. rewrite !Z.eqb_eq. split; intros H.
  - by rewrite H, Z.shiftr_0_l.
  - apply Z.bits_inj'. intros i Hi. rewrite Z.testbit_0_l.
    destruct (Z.lt_ge_cases i k).
    + rewrite Z.land_spec, Z.shiftl_spec_low by lia. apply andb_false_r.
    + replace i with (i - k + k) by lia. rewrite <- Z.shiftr_spec by lia. by rewrite H, Z.testbit_0_l.
Qed.

Ltac fold_bytes H :=
  try change (Z.shiftl 255 0) with 255 in H; try change (Z.shiftl 255 8) with 65280 in H;
  try change (Z.shiftl 255 16) with 16711680 in H; try change (Z.shiftl 255 24) with 4278190080 in H;
  cbn [Z.add Pos.add Pos.succ] in H; cbv zeta in H.

Lemma rt_ffs_lowest v : 0 < v < 2 ^ 32 ->
  1 <= __rt_ffs v <= 32 /\ lowest_set v (__rt_ffs v - 1).
Proof.
  intros Hv. unfold __rt_ffs. destruct (Z.eqb_spec v 0); [lia|].
  pose proof (byte_at_eq0 v) as E. pose proof (byte_at_zero v) as Z0.
  pose proof (byte_at_lowest v) as L.
  pose proof (fun i (Hi : 0 <= i < 0) => False_ind (Z.testbit v i = false) ltac:(lia)) as H0.
  pose proof (E 0 ltac:(lia)) as E0. pose proof (E 8 ltac:(lia)) as E8.
  pose proof (E 16 ltac:(lia)) as E16. fold_bytes E0. fold_bytes E8. fold_bytes E16.
  assert (forall a, lowest_bit a + 1 - 1 = lowest_bit a + 0 /\ lowest_bit a + 9 - 1 = lowest_bit a + 8
    /\ lowest_bit a + 17 - 1 = lowest_bit a + 16 /\ lowest_bit a + 25 - 1 = lowest_bit a + 24) as A by lia.
  pose proof (Z0 0 ltac:(lia) H0) as Z1. pose proof (L 0 ltac:(lia) H0) as L0. fold_bytes Z1. fold_bytes L0.
  rewrite ?Z.shiftr_0_r in *.
  destruct (Z.eqb_spec (Z.land v 255) 0) as [B0|B0]; cbn [negb]; cycle 1.
  { rewrite (proj1 (A _)). specialize (L0 B0). split; [lia|tauto]. }
  specialize (Z1 B0). pose proof (L 8 ltac:(lia) Z1) as L8. pose proof (Z0 8 ltac:(lia) Z1) as Z2.
  fold_bytes L8. fold_bytes Z2. rewrite E8.
  destruct (Z.eqb_spec (Z.shiftr (Z.land v 65280) 8) 0) as [B1|B1]; cbn [negb]; cycle 1.
  { rewrite (proj1 (proj2 (A _))). specialize (L8 B1). split; [lia|tauto]. }
  specialize (Z2 B1). pose proof (L 16 ltac:(lia) Z2) as L16. pose proof (Z0 16 ltac:(lia) Z2) as Z3.
  fold_bytes L16. fold_bytes Z3. rewrite E16.
  destruct (Z.eqb_spec (Z.shiftr (Z.land v 16711680) 16) 0) as [B2|B2]; cbn [negb]; cycle 1.
  { rewrite (proj1 (proj2 (proj2 (A _)))). specialize (L16 B2). split; [lia|tauto]. }
  specialize (Z3 B2). pose proof (L 24 ltac:(lia) Z3) as L24. fold_bytes L24.
  rewrite (proj2 (proj2 (proj2 (A _)))).
  destruct (Z.eq_dec (Z.shiftr (Z.land v 4278190080) 24) 0) as [B3|B3].
  - exfalso. pose proof (Z0 24 ltac:(lia) Z3) as Z4. fold_bytes Z4. specialize (Z4 B3).
    apply n. apply Z.bits_inj'. intros i Hi. rewrite Z.testbit_0_l.
    destruct (Z.lt_ge_cases i 32); [apply Z4; lia|apply (testbit_above 32); lia].
  - specialize (L24 B3). split; [lia|tauto].
Qed.

(** ** The invariant *)

(** What being linked in a queue says of a thread. *)
Definition fits (q : qid) (th : rt_thread) : Prop :=
  match q with
  | QReady p => state_of th = RT_THREAD_READY /\ th_current_priority th = p
  | QSuspend _ | QSender _ => state_of th = RT_THREAD_SUSPEND
  | QDefunct => state_of th = RT_THREAD_CLOSE
  end.

(** Field ranges; a started thread's mask is the bit of its priority. *)
Definition mask_ok (th : rt_thread) : Prop :=
  th_number_mask th = 2 ^ th_current_priority th \/
  (th_number_mask th = 0 /\ (state_of th = RT_THREAD_INIT \/ state_of th = RT_THREAD_CLOSE)).
Definition thread_wf (th : rt_thread) : Prop :=
  0 <= th_current_priority th < RT_THREAD_PRIORITY_MAX /\
  0 <= th_init_priority th < RT_THREAD_PRIORITY_MAX /\
  0 <= th_stat th < 2 ^ 8 /\ mask_ok th.

(** The queues: no duplicates, every thread in at most one queue, and
    in the one its status and priority say; a ready thread is in its list. *)
Record queues_ok (m : queues) (ths : gmap ptr rt_thread) : Prop := {
  qo_nodup q : NoDup (getq m q);
  qo_unique q q' t : t ∈ getq m q -> t ∈ getq m q' -> q = q';
  qo_fits q t : t ∈ getq m q -> exists th, ths !! t = Some th /\ fits q th;
  qo_ready t th : ths !! t = Some th -> state_of th = RT_THREAD_READY ->
    t ∈ getq m (QReady (th_current_priority th))
}.

(** The bitmap: bit [p] is set exactly when the ready list [p] is not empty. *)
Definition group_ok (g : Z) (m : queues) : Prop :=
  0 <= g < 2 ^ 32 /\
  forall p, 0 <= p < 32 -> Z.testbit g p = bool_decide (getq m (QReady p) <> []).

(** The current thread is neither ready nor new, and no other one is running. *)
Definition cur_ok (c : option ptr) (ths : gmap ptr rt_thread) : Prop :=
  (forall t, c = Some t -> exists th, ths !! t = Some th /\
     state_of th <> RT_THREAD_READY /\ state_of th <> RT_THREAD_INIT) /\
  (forall t th, ths !! t = Some th -> state_of th = RT_THREAD_RUNNING -> c = Some t).

Record ready_ok (g : Z) (m : queues) (ths : gmap ptr rt_thread) : Prop := {
  ro_wf t th : ths !! t = Some th -> thread_wf th;
  ro_queues : queues_ok m ths;
  ro_group : group_ok g m
}.

Definition rinv (s : kst) : Prop := ready_ok (k_group s) (k_qs s) (k_threads s).
Definition sinv (s : kst) : Prop := rinv s /\ cur_ok (k_cur s) (k_threads s).

(** ** Status bits *)
Lemma state_with_state v th : 0 <= v < 8 -> state_of (with_state v th) = v.
Proof.
  intros Hv. unfold state_of, with_state. cbn. unfold RT_THREAD_STAT_MASK.
  change 7 with (Z.ones 3). bitwise i. rewrite Z.testbit_ones by lia.
  destruct (Z.leb_spec 0 i); [|lia]. destruct (Z.ltb_spec i 3); cbn.
  - by rewrite andb_false_r, orb_false_r, andb_true_r.
  - rewrite andb_false_r. symmetry. apply (testbit_above 3); lia.
Qed.

Lemma stat_with_state_range v th : 0 <= v < 8 -> 0 <= th_stat th < 2 ^ 8 ->
  0 <= th_stat (with_state v th) < 2 ^ 8.
Proof.
  intros Hv Hs. cbn. apply testbit_range; [lia| |].
  - apply Z.lor_nonneg. split; [lia|]. apply Z.land_nonneg. lia.
  - intros i Hi. autorewrite with cbits.
    rewrite (testbit_above 3 v) by lia. by rewrite (testbit_above 8 (th_stat th)) by lia.
Qed.

(** The yield bit is not part of the state. *)
Lemma state_clear_yield th x :
  state_of (set_th_stat (Z.land (th_stat th) (Z.lnot RT_THREAD_STAT_YIELD)) x) = state_of th.
Proof.
  unfold state_of, RT_THREAD_STAT_YIELD, RT_THREAD_STAT_MASK. cbn [th_stat set_th_stat].
  rewrite <- Z.land_assoc. f_equal.
Qed.
Lemma state_set_yield th x :
  state_of (set_th_stat (Z.lor (th_stat th) RT_THREAD_STAT_YIELD) x) = state_of th.
Proof.
  unfold state_of, RT_THREAD_STAT_YIELD, RT_THREAD_STAT_MASK. cbn [th_stat set_th_stat].
  rewrite Z.land_lor_distr_l. cbn. by rewrite Z.lor_0_r.
Qed.
Lemma stat_clear_range x m : 0 <= x < 2 ^ 8 -> 0 <= Z.land x (Z.lnot m) < 2 ^ 8.
Proof.
  intros H. apply testbit_range; [lia|apply Z.land_nonneg; lia|].
  intros i Hi. autorewrite with cbits. by rewrite (testbit_above 8 x) by lia.
Qed.
Lemma stat_or_range x m : 0 <= x < 2 ^ 8 -> 0 <= m < 2 ^ 8 -> 0 <= Z.lor x m < 2 ^ 8.
Proof.
  intros H Hm. apply testbit_range; [lia|apply Z.lor_nonneg; lia|].
  intros i Hi. autorewrite with cbits. rewrite (testbit_above 8 x), (testbit_above 8 m) by lia. done.
Qed.

(** ** Moving one thread

    Every operation of the kernel moves one thread out of whatever queue it
    is in, changes its record and possibly links it somewhere else. *)
Lemma queues_ok_move m ths t th' oq m' :
  queues_ok m ths ->
  (forall q, oq <> Some q -> getq m' q = filter (fun x => x <> t) (getq m q)) ->
  (forall q, oq = Some q -> fits q th' /\ exists l1 l2,
     filter (fun x => x <> t) (getq m q) = l1 ++ l2 /\ getq m' q = l1 ++ t :: l2) ->
  (oq = None -> state_of th' <> RT_THREAD_READY) ->
  queues_ok m' (<[t := th']> ths).
Proof.
  intros [Hnd Hun Hf Hr] Hother Hin Hnone.
  assert (Hel : forall q x, x ∈ getq m' q <-> (x <> t /\ x ∈ getq m q) \/ (x = t /\ oq = Some q)).
  { intros q x. destruct (decide (oq = Some q)) as [Hq|Hq].
    - destruct (Hin _ Hq) as (_ & l1 & l2 & E & E').
      rewrite E', elem_of_app, elem_of_cons.
      assert (x ∈ filter (fun x => x <> t) (getq m q) <-> x ∈ l1 \/ x ∈ l2) as Hx
        by (rewrite E; apply elem_of_app).
      rewrite list_elem_of_filter in Hx. tauto.
    - rewrite Hother, list_elem_of_filter by done. tauto. }
  split.
  - intros q. destruct (decide (oq = Some q)) as [Hq|Hq].
    + destruct (Hin _ Hq) as (_ & l1 & l2 & E & E'). rewrite E'.
      assert (NoDup (l1 ++ l2)) as H by (rewrite <- E; by apply NoDup_filter).
      assert (t ∉ l1 ++ l2) as H' by (rewrite <- E, list_elem_of_filter; tauto).
      apply NoDup_app in H as (? & ? & ?). apply NoDup_app. set_solver by (rewrite ?NoDup_cons; set_solver).
    + rewrite Hother by done. by apply NoDup_filter.
  - intros q q' x. rewrite !Hel. intros [[? ?]|[-> Hq]] [[? ?]|[? Hq']]; try congruence.
    by apply (Hun _ _ x).
  - intros q x. rewrite Hel. intros [[Hne Hx]|[-> Hq]].
    + rewrite lookup_insert_ne by done. by apply Hf.
    + rewrite lookup_insert_eq. exists th'. split; [done|]. by apply Hin.
  - intros x th. rewrite Hel. destruct (decide (x = t)) as [->|Hne].
    + rewrite lookup_insert_eq. intros [= ->] Hst. right. split; [done|].
      destruct oq as [q|]; [|by destruct (Hnone eq_refl)].
      destruct (Hin q eq_refl) as [Hfit _]. f_equal.
      destruct q; simpl in Hfit; unfold RT_THREAD_READY, RT_THREAD_SUSPEND, RT_THREAD_CLOSE in *;
        [by destruct Hfit; subst|lia..].
    + rewrite lookup_insert_ne by done. intros Hx Hst. left. auto.
Qed.

(** A bit of the mask of a priority. *)
Lemma mask_bit p i : 0 <= p -> 0 <= i -> Z.testbit (2 ^ p) i = bool_decide (i = p).
Proof. intros. rewrite <- Z.shiftl_1_l. by apply testbit_shiftl1. Qed.

Lemma group_ok_same g m m' :
  group_ok g m -> (forall p, getq m' (QReady p) = [] <-> getq m (QReady p) = []) -> group_ok g m'.
Proof.
  intros [Hr Hb] H. split; [done|]. intros p Hp. rewrite Hb by done.
  apply bool_decide_ext. by rewrite H.
Qed.

Lemma group_ok_add g m m' p :
  0 <= p < 32 -> group_ok g m -> getq m' (QReady p) <> [] ->
  (forall p', p' <> p -> getq m' (QReady p') = [] <-> getq m (QReady p') = []) ->
  group_ok (Z.lor g (2 ^ p)) m'.
Proof.
  intros Hp [Hr Hb] Hne Ho. split.
  - apply testbit_range; [lia|apply Z.lor_nonneg; lia|]. intros i Hi.
    rewrite Z.lor_spec, mask_bit, (testbit_above 32 g) by lia. by rewrite bool_decide_eq_false_2 by lia.
  - intros i Hi. rewrite Z.lor_spec, mask_bit, Hb by lia.
    destruct (decide (i = p)) as [->|Hip].
    + rewrite (bool_decide_eq_true_2 (p = p)), orb_true_r by done. by rewrite bool_decide_eq_true_2.
    + rewrite (bool_decide_eq_false_2 (i = p)), orb_false_r by done.
      apply bool_decide_ext. by rewrite Ho.
Qed.

Lemma group_ok_del g m m' p :
  0 <= p < 32 -> group_ok g m -> getq m' (QReady p) = [] ->
  (forall p', p' <> p -> getq m' (QReady p') = [] <-> getq m (QReady p') = []) ->
  group_ok (Z.land g (Z.lnot (2 ^ p))) m'.
Proof.
  intros Hp [Hr Hb] He Ho. split.
  - apply testbit_range; [lia|apply Z.land_nonneg; lia|]. intros i Hi.
    by rewrite Z.land_spec, (testbit_above 32 g) by lia.
  - intros i Hi. rewrite Z.land_spec, Z.lnot_spec, mask_bit, Hb by lia.
    destruct (decide (i = p)) as [->|Hip].
    + rewrite (bool_decide_eq_true_2 (p = p)), andb_false_r by done. by rewrite bool_decide_eq_false_2; auto.
    + rewrite (bool_decide_eq_false_2 (i = p)), andb_true_r by done.
      apply bool_decide_ext. by rewrite Ho.
Qed.

(** ** What the two queue operations compute *)

(** The state after [rt_schedule_remove_thread]. *)
Definition removed (t : ptr) (th : rt_thread) (s : kst) : kst :=
  let m := unlink t (k_qs s) in
  let s := set_k_qs m s in
  if bool_decide (getq m (QReady (th_current_priority th)) = []) then
    set_k_group (Z.land (k_group s) (Z.lnot (th_number_mask th))) s
  else s.

Lemma priority_table_run p s : 0 <= p < RT_THREAD_PRIORITY_MAX ->
  rt_thread_priority_table p s = Ok (QReady p) s.
Proof.
  unfold rt_thread_priority_table. intros Hp.
  destruct (Z.leb_spec 0 p), (Z.ltb_spec p RT_THREAD_PRIORITY_MAX); try lia. done.
Qed.

Lemma remove_thread_run s t th :
  k_threads s !! t = Some th -> 0 <= th_current_priority th < RT_THREAD_PRIORITY_MAX ->
  rt_schedule_remove_thread t s = Ok tt (removed t th s).
Proof.
  intros Ht Hp. unfold rt_schedule_remove_thread, removed.
  erewrite run_bind by (by apply get_thread_run).
  erewrite run_bind by done. erewrite run_bind by (by apply priority_table_run).
  erewrite run_bind by done. cbn [k_qs set_k_qs].
  destruct (getq (unlink t (k_qs s)) (QReady (th_current_priority th))); [|done].
  by rewrite bool_decide_eq_true_2.
Qed.

(** The state after [rt_schedule_insert_thread] of a thread that is not current. *)
Definition inserted (t : ptr) (th : rt_thread) (s : kst) : kst :=
  let q := QReady (th_current_priority th) in
  set_k_group (Z.lor (k_group s) (th_number_mask th))
    (set_k_qs (<[q := getq (k_qs s) q ++ [t]]> (k_qs s))
      (set_k_threads (<[t := with_state RT_THREAD_READY th]> (k_threads s)) s)).

Lemma insert_thread_run s t th :
  k_threads s !! t = Some th -> 0 <= th_current_priority th < RT_THREAD_PRIORITY_MAX ->
  k_cur s <> Some t -> linked t (k_qs s) = false ->
  rt_schedule_insert_thread t s = Ok tt (inserted t th s).
Proof.
  intros Ht Hp Hc Hl. unfold rt_schedule_insert_thread, inserted.
  erewrite run_bind by done. erewrite run_bind by (by apply get_thread_run).
  rewrite bool_decide_eq_false_2 by done. erewrite run_bind by done.
  erewrite run_bind by (by apply priority_table_run).
  erewrite run_bind by (by apply enqueue_run). done.
Qed.

Lemma insert_current_run s t th :
  k_threads s !! t = Some th -> k_cur s = Some t ->
  rt_schedule_insert_thread t s =
  Ok tt (set_k_threads (<[t := with_state RT_THREAD_RUNNING th]> (k_threads s)) s).
Proof.
  intros Ht Hc. unfold rt_schedule_insert_thread.
  erewrite run_bind by done. erewrite run_bind by (by apply get_thread_run).
  by rewrite bool_decide_eq_true_2.
Qed.

(** Removing a thread keeps the bitmap right whenever the only ready list it
    can be in is the one of its priority. *)
Lemma group_ok_removed s t th :
  group_ok (k_group s) (k_qs s) ->
  (forall p, t ∈ getq (k_qs s) (QReady p) -> p = th_current_priority th) ->
  0 <= th_current_priority th < 32 ->
  (th_number_mask th = 2 ^ th_current_priority th \/
   th_number_mask th = 0 /\ forall p, t ∉ getq (k_qs s) (QReady p)) ->
  group_ok (k_group (removed t th s)) (k_qs (removed t th s)).
Proof.
  intros Hg Hp Hr Hmask. unfold removed.
  assert (Hother : forall p, p <> th_current_priority th ->
    getq (unlink t (k_qs s)) (QReady p) = [] <-> getq (k_qs s) (QReady p) = []).
  { intros p Hne. rewrite getq_unlink, filter_id; [done|]. intros x Hx ->. by apply Hne, Hp. }
  case_bool_decide as He; cbn [k_qs k_group set_k_qs set_k_group].
  - destruct Hmask as [->| [-> Hno]]; [by eapply group_ok_del|].
    change (Z.lnot 0) with (-1). rewrite Z.land_m1_r.
    apply (group_ok_same _ (k_qs s)); [done|]. intros p.
    rewrite getq_unlink, filter_id; [done|]. intros x Hx ->. by apply (Hno p).
  - apply (group_ok_same _ (k_qs s)); [done|]. intros p.
    destruct (decide (p = th_current_priority th)) as [->|]; [|by apply Hother].
    split; [done|]. intros E. rewrite getq_unlink, E in He. done.
Qed.

(** In a good state every thread is in the position the last lemma asks for. *)
Lemma removable s t th : rinv s -> k_threads s !! t = Some th ->
  0 <= th_current_priority th < 32 /\
  (forall p, t ∈ getq (k_qs s) (QReady p) -> p = th_current_priority th) /\
  (th_number_mask th = 2 ^ th_current_priority th \/
   th_number_mask th = 0 /\ forall p, t ∉ getq (k_qs s) (QReady p)).
Proof.
  intros [Hwf [Hnd Hun Hf Hr] Hg] Ht. destruct (Hwf _ _ Ht) as (Hp & _ & _ & Hm).
  split; [done|]. split.
  - intros p Hin. destruct (Hf _ _ Hin) as (th' & E & Hs & <-). congruence.
  - destruct Hm as [|[Hm Hst]]; [by left|right]. split; [done|]. intros p Hin.
    destruct (Hf _ _ Hin) as (th' & E & Hs & _). assert (th' = th) as -> by congruence.
    rewrite Hs in Hst. by destruct Hst.
Qed.

Lemma getq_removed s t th q :
  getq (k_qs (removed t th s)) q = filter (fun x => x <> t) (getq (k_qs s) q).
Proof. unfold removed. case_bool_decide; cbn; apply getq_unlink. Qed.
Lemma threads_removed s t th : k_threads (removed t th s) = k_threads s.
Proof. unfold removed. by case_bool_decide. Qed.
Lemma cur_removed s t th : k_cur (removed t th s) = k_cur s.
Proof. unfold removed. by case_bool_decide. Qed.
Lemma curprio_removed s t th : k_curprio (removed t th s) = k_curprio s.
Proof. unfold removed. by case_bool_decide. Qed.
Lemma linked_removed s t th : linked t (k_qs (removed t th s)) = false.
Proof. unfold removed. case_bool_decide; cbn; apply linked_unlink. Qed.

(** A thread that is neither ready, suspended nor closed is in no queue. *)
Lemma rinv_unlinked s t th : rinv s -> k_threads s !! t = Some th ->
  state_of th = RT_THREAD_RUNNING \/ state_of th = RT_THREAD_INIT -> linked t (k_qs s) = false.
Proof.
  intros [_ [_ _ Hf _] _] Ht Hst. apply linked_false. intros q Hin.
  destruct (Hf _ _ Hin) as (th' & E & Hfit). assert (th' = th) as -> by congruence.
  destruct q; cbn in Hfit; [destruct Hfit as [Hfit _]|..]; rewrite Hfit in Hst; by destruct Hst.
Qed.

Lemma state_stat th th' : th_stat th' = th_stat th -> state_of th' = state_of th.
Proof. unfold state_of. by intros ->. Qed.

Lemma thread_wf_state v th : 0 <= v < 8 -> thread_wf th ->
  (v = RT_THREAD_INIT \/ v = RT_THREAD_CLOSE \/ th_number_mask th = 2 ^ th_current_priority th) ->
  thread_wf (with_state v th).
Proof.
  intros Hv (H1 & H2 & H3 & H4) Hm. split; [done|]. split; [done|].
  split; [by apply stat_with_state_range|]. unfold mask_ok. rewrite state_with_state by done.
  cbn [with_state th_number_mask th_current_priority set_th_stat].
  destruct H4 as [H4|[H4 _]]; [by left|]. destruct Hm as [->|[->|Hm]]; [auto..|by left].
Qed.

(** A thread that leaves the queues for a state that is not ready. *)
Lemma rinv_leave s t th th' :
  rinv s -> k_threads s !! t = Some th -> thread_wf th' -> state_of th' <> RT_THREAD_READY ->
  ready_ok (k_group (removed t th s)) (k_qs (removed t th s)) (<[t := th']> (k_threads s)).
Proof.
  intros Hs Ht Hwf' Hst. destruct (removable _ _ _ Hs Ht) as (Hp & Hin & Hm).
  destruct Hs as [Hwf Hq Hg]. split.
  - intros x thx. rewrite lookup_insert_Some. intros [[<- <-]|[_ Hx]]; [done|by eapply Hwf].
  - eapply (queues_ok_move _ _ t th' None); [done|..].
    + intros q _. apply getq_removed.
    + done.
    + done.
  - by apply group_ok_removed.
Qed.

(** An unlinked thread that becomes ready. *)
Lemma rinv_inserted s t th :
  rinv s -> k_threads s !! t = Some th -> linked t (k_qs s) = false ->
  th_number_mask th = 2 ^ th_current_priority th -> rinv (inserted t th s).
Proof.
  intros [Hwf Hq Hg] Ht Hl Hm. destruct (Hwf _ _ Ht) as (Hp & Hwf').
  rewrite linked_false in Hl.
  assert (Hid : forall q, filter (fun x => x <> t) (getq (k_qs s) q) = getq (k_qs s) q).
  { intros q. apply filter_id. intros x Hx ->. by apply (Hl q). }
  unfold rinv, inserted. cbn [k_group k_qs k_threads set_k_group set_k_qs set_k_threads]. split.
  - intros x thx. rewrite lookup_insert_Some. intros [[<- <-]|[_ Hx]]; [|by eapply Hwf].
    apply thread_wf_state; [done|by eapply Hwf|auto].
  - eapply (queues_ok_move _ _ t _ (Some (QReady (th_current_priority th)))); [done|..|done].
    + intros q Hne. rewrite getq_insert_ne by congruence. by rewrite Hid.
    + intros q [= <-]. split; [split; [by apply state_with_state|done]|].
      exists (getq (k_qs s) (QReady (th_current_priority th))), [].
      by rewrite getq_insert_eq, Hid, app_nil_r.
  - rewrite Hm. apply (group_ok_add _ (k_qs s)); [done|done|..].
    + rewrite getq_insert_eq. by destruct (getq (k_qs s) _).
    + intros p' Hne. by rewrite getq_insert_ne by congruence.
Qed.

(** ** The choice of the scheduler *)

(** [p] is the most urgent priority with a ready thread, [x] the first one. *)
Definition highest_ready (m : queues) (p : Z) (x : ptr) : Prop :=
  0 <= p < RT_THREAD_PRIORITY_MAX /\ head (getq m (QReady p)) = Some x /\
  forall p', 0 <= p' < p -> getq m (QReady p') = [].

Lemma head_elem {A} (l : list A) x : head l = Some x -> x ∈ l.
Proof. destruct l; [done|]. intros [= ->]. set_solver. Qed.
Lemma head_cons {A} (l : list A) x : head l = Some x -> exists l', l = x :: l'.
Proof. destruct l; [done|]. intros [= ->]. eauto. Qed.

Lemma highest_run s : rinv s -> k_group s <> 0 ->
  exists p x, _get_highest_priority_thread s = Ok (x, p) s /\ highest_ready (k_qs s) p x.
Proof.
  intros [_ _ [Hr Hb]] Hne.
  destruct (rt_ffs_lowest (k_group s)) as [Hf [H0 [H1 H2]]]; [lia|].
  rewrite Hb in H1 by lia. apply bool_decide_eq_true in H1.
  destruct (getq (k_qs s) (QReady (__rt_ffs (k_group s) - 1))) as [|x l] eqn:E; [done|].
  exists (__rt_ffs (k_group s) - 1), x. split.
  - unfold _get_highest_priority_thread. erewrite run_bind by done.
    rewrite wrap_small by lia. erewrite run_bind by (apply priority_table_run; unfold RT_THREAD_PRIORITY_MAX; lia).
    by erewrite run_bind by (by eapply queue_head_run).
  - split; [unfold RT_THREAD_PRIORITY_MAX; lia|]. split; [by rewrite E|].
    intros p' Hp'. specialize (H2 p' Hp'). rewrite Hb in H2 by lia.
    apply bool_decide_eq_false, dec_stable in H2. done.
Qed.

Lemma group_zero s : rinv s ->
  k_group s = 0 <-> forall p, 0 <= p < RT_THREAD_PRIORITY_MAX -> getq (k_qs s) (QReady p) = [].
Proof.
  intros [_ _ [Hr Hb]]. unfold RT_THREAD_PRIORITY_MAX. split.
  - intros H0 p Hp. specialize (Hb p Hp). rewrite H0, Z.testbit_0_l in Hb.
    symmetry in Hb. by apply bool_decide_eq_false, dec_stable in Hb.
  - intros He. apply Z.bits_inj'. intros i Hi. rewrite Z.testbit_0_l.
    destruct (Z.lt_ge_cases i 32); [|by apply (testbit_above 32)].
    rewrite Hb by lia. rewrite He by lia. done.
Qed.

Lemma highest_fun m p x p' x' : highest_ready m p x -> highest_ready m p' x' -> p = p' /\ x = x'.
Proof.
  intros (H1 & H2 & H3) (H1' & H2' & H3').
  assert (p = p') as <-.
  { destruct (Z.lt_trichotomy p p') as [H|[H|H]]; [|done|].
    - by rewrite H3' in H2 by lia.
    - by rewrite H3 in H2' by lia. }
  split; [done|congruence].
Qed.

Lemma set_stat_same th : set_th_stat (th_stat th) th = th.
Proof. by destruct th. Qed.

Lemma with_state_same v th : state_of th = v -> with_state v th = th.
Proof.
  intros <-. unfold with_state, state_of, RT_THREAD_STAT_MASK.
  transitivity (set_th_stat (th_stat th) th); [f_equal|apply set_stat_same]. bitwise i.
  by destruct (Z.testbit (th_stat th) i), (Z.testbit 7 i).
Qed.

(** Only the last change of state counts. *)
Lemma with_state_over v w th : 0 <= w < 8 -> with_state v (with_state w th) = with_state v th.
Proof.
  intros Hw. unfold with_state. cbn [th_stat set_th_stat].
  assert (Z.land w (Z.lnot RT_THREAD_STAT_MASK) = 0) as E.
  { unfold RT_THREAD_STAT_MASK. bitwise i. destruct (Z.lt_ge_cases i 3).
    - change 7 with (Z.ones 3). rewrite Z.ones_spec_low by lia. apply andb_false_r.
    - by rewrite (testbit_above 3 w) by lia. }
  rewrite Z.land_lor_distr_l, E, Z.lor_0_l, <- Z.land_assoc, Z.land_diag. by destruct th.
Qed.

(** The thread record with the yield bit cleared. *)
Definition clear_yield (th : rt_thread) : rt_thread :=
  set_th_stat (Z.land (th_stat th) (Z.lnot RT_THREAD_STAT_YIELD)) th.

Lemma thread_wf_clear_yield th : thread_wf th -> thread_wf (clear_yield th).
Proof.
  intros (H1 & H2 & H3 & H4). split; [done|]. split; [done|]. split; [by apply stat_clear_range|].
  destruct H4 as [H4|[H4 H5]]; [by left|right]. split; [done|]. unfold clear_yield. by rewrite state_clear_yield.
Qed.

(** Does the current thread keep the processor against ready priority [p]? *)
Definition keeps (th : rt_thread) (p : Z) : bool :=
  (state_of th =? RT_THREAD_RUNNING) &&
  ((th_current_priority th <? p) ||
   ((th_current_priority th =? p) && (Z.land (th_stat th) RT_THREAD_STAT_YIELD =? 0))).

(** The parts of the state the scheduler does not touch. *)
Definition other_parts (s : kst) : kst :=
  set_k_cur None (set_k_curprio 0 (set_k_group 0 (set_k_qs ∅ (set_k_threads ∅ s)))).
Definition sched_frame (s s' : kst) : Prop := other_parts s' = other_parts s.

Lemma frame_removed t th s : sched_frame s (removed t th s).
Proof. unfold sched_frame, removed. by case_bool_decide. Qed.

Lemma sinv_running s t th : sinv s -> k_threads s !! t = Some th ->
  state_of th = RT_THREAD_RUNNING -> k_cur s = Some t.
Proof. intros [_ [_ H]]. apply H. Qed.

Lemma rt_schedule_idle s : sinv s -> (k_lock s <> 0 \/ k_group s = 0) -> rt_schedule s = Ok tt s.
Proof.
  intros _ H. unfold rt_schedule. do 2 erewrite run_bind by done.
  destruct (Z.eqb_spec (k_lock s) 0), (Z.eqb_spec (k_group s) 0); try done. lia.
Qed.

(** A change of a record that the scheduler does not look at. *)
Definition same_place (th th' : rt_thread) : Prop :=
  state_of th' = state_of th /\ th_current_priority th' = th_current_priority th.

Lemma ready_ok_touch g m ths t th th' :
  ready_ok g m ths -> ths !! t = Some th -> same_place th th' -> thread_wf th' ->
  ready_ok g m (<[t := th']> ths).
Proof.
  intros [Hwf [Hnd Hun Hf Hr] Hg] Ht [Hst Hp] Hw. split; [|split|done]; [| done..| |].
  - intros x thx. rewrite lookup_insert_Some. intros [[<- <-]|[_ Hx]]; [done|by eapply Hwf].
  - intros q x Hx. destruct (Hf _ _ Hx) as (thx & Ex & Hfit). destruct (decide (x = t)) as [->|].
    + rewrite lookup_insert_eq. exists th'. split; [done|]. assert (thx = th) as -> by congruence.
      destruct q; cbn in *; [destruct Hfit; split|..]; congruence.
    + rewrite lookup_insert_ne by done. eauto.
  - intros x thx. rewrite lookup_insert_Some. intros [[<- <-]|[_ Hx]]; [|by apply Hr].
    rewrite Hst, Hp. by apply Hr.
Qed.

Lemma cur_ok_touch c ths t th th' :
  cur_ok c ths -> ths !! t = Some th -> state_of th' = state_of th -> cur_ok c (<[t := th']> ths).
Proof.
  intros [H1 H2] Ht Hst. split.
  - intros x Hx. destruct (H1 x Hx) as (thx & Ex & Hs). destruct (decide (x = t)) as [->|].
    + rewrite lookup_insert_eq. exists th'. rewrite Hst. assert (thx = th) as -> by congruence. done.
    + rewrite lookup_insert_ne by done. eauto.
  - intros x thx. rewrite lookup_insert_Some. intros [[<- <-]|[_ Hx]] Hs; [|by eapply H2].
    rewrite Hst in Hs. by eapply H2.
Qed.

Lemma clear_yield_place th : same_place th (clear_yield th).
Proof. split; [apply state_clear_yield|done]. Qed.

Lemma highest_group s p x : rinv s -> highest_ready (k_qs s) p x -> k_group s <> 0.
Proof.
  intros Hs (Hp & Hx & _) H0. rewrite (proj1 (group_zero s Hs) H0 p Hp) in Hx. done.
Qed.

(** The current thread keeps the processor. *)
Lemma rt_schedule_keep s t th x p :
  sinv s -> k_lock s = 0 -> k_cur s = Some t -> k_threads s !! t = Some th ->
  highest_ready (k_qs s) p x -> keeps th p = true ->
  exists s', rt_schedule s = Ok tt s' /\ sinv s' /\ sched_frame s s' /\
    k_cur s' = Some t /\ k_threads s' = <[t := clear_yield th]> (k_threads s) /\
    (forall q, getq (k_qs s') q = getq (k_qs s) q).
Proof.
  intros [Hs Hc] Hl Hcur Ht Hh Hk. pose proof (highest_group _ _ _ Hs Hh) as Hg.
  destruct (highest_run s Hs Hg) as (p' & x' & Hrun & Hh').
  destruct (highest_fun _ _ _ _ _ Hh Hh') as [<- <-].
  apply andb_true_iff in Hk as [Hst Hk]. pose proof Hst as Hst0. apply Z.eqb_eq in Hst.
  pose proof (ro_wf _ _ _ Hs _ _ Ht) as Hwf.
  set (s1 := set_k_threads (<[t := clear_yield th]> (k_threads s)) s).
  assert (Ht1 : k_threads s1 !! t = Some (clear_yield th)) by (cbn; apply lookup_insert_eq).
  assert (Hs1 : rinv s1) by (eapply ready_ok_touch; eauto using clear_yield_place, thread_wf_clear_yield).
  assert (Hun : linked t (k_qs s1) = false) by (eapply (rinv_unlinked s); eauto).
  exists (removed t (clear_yield th) s1). split.
  - unfold rt_schedule. do 2 erewrite run_bind by done.
    rewrite Hl. destruct (Z.eqb_spec (k_group s) 0); [done|]. cbn [Z.eqb andb negb].
    rewrite (run_bind _ _ _ _ _ Hrun). cbv beta iota.
    erewrite run_bind by (by apply self_run). erewrite run_bind by (by apply get_thread_run).
    rewrite Hst0. erewrite run_bind; [|erewrite run_bind by done; done]. fold s1.
    assert ((if th_current_priority th <? p then (t, false)
       else if (th_current_priority th =? p) && (Z.land (th_stat th) RT_THREAD_STAT_YIELD =? 0)
       then (t, false) else (x, true)) = (t, false)) as ->
      by (destruct (th_current_priority th <? p); [done|]; cbn in Hk; by rewrite Hk).
    cbv beta iota. rewrite bool_decide_eq_true_2 by done. cbn [negb].
    erewrite run_bind by (eapply (remove_thread_run s1); [done|apply Hwf]).
    erewrite run_bind by (apply get_thread_run; by rewrite threads_removed).
    rewrite with_state_same by (unfold clear_yield; by rewrite state_clear_yield).
    unfold put_thread, modify. rewrite threads_removed, insert_id by done. f_equal.
    unfold removed. by case_bool_decide.
  - assert (rinv (removed t (clear_yield th) s1)) as Hs2.
    { unfold rinv. rewrite threads_removed, <- (insert_id (k_threads s1) t (clear_yield th)) by done.
      apply rinv_leave with (th := clear_yield th); try done; [by apply thread_wf_clear_yield|].
      unfold clear_yield. rewrite state_clear_yield. by rewrite Hst. }
    split; [split; [done|]|split; [|split; [|split]]].
    + rewrite cur_removed, threads_removed. cbn. eapply cur_ok_touch; [done..|apply clear_yield_place].
    + unfold sched_frame. by rewrite frame_removed.
    + by rewrite cur_removed.
    + by rewrite threads_removed.
    + intros q. rewrite getq_removed, <- getq_unlink. by apply unlink_not_linked.
Qed.

(** The record of the preempted thread: ready again if it was running. *)
Definition running (th : rt_thread) : bool := state_of th =? RT_THREAD_RUNNING.
Definition requeue (th : rt_thread) : rt_thread :=
  if running th then with_state RT_THREAD_READY (clear_yield th) else th.
Definition requeued (t : ptr) (th : rt_thread) (q : qid) : list ptr :=
  if running th && bool_decide (q = QReady (th_current_priority th)) then [t] else [].

(** The state just after the choice of a new thread: the old one is ready again. *)
Definition preempted (t : ptr) (th : rt_thread) (x : ptr) (p : Z) (s : kst) : kst :=
  if running th then
    inserted t (clear_yield th)
      (set_k_cur (Some x) (set_k_curprio (u8 p)
         (set_k_threads (<[t := clear_yield th]> (k_threads s)) s)))
  else set_k_cur (Some x) (set_k_curprio (u8 p) s).

Lemma preempted_facts s t th x p :
  rinv s -> k_threads s !! t = Some th -> (running th = true -> linked t (k_qs s) = false) ->
  rinv (preempted t th x p s) /\ k_cur (preempted t th x p s) = Some x /\
  k_curprio (preempted t th x p s) = u8 p /\
  k_threads (preempted t th x p s) = <[t := requeue th]> (k_threads s) /\
  (forall q, getq (k_qs (preempted t th x p s)) q = getq (k_qs s) q ++ requeued t th q) /\
  sched_frame s (preempted t th x p s).
Proof.
  intros Hs Ht Hl. pose proof (ro_wf _ _ _ Hs _ _ Ht) as Hwf.
  unfold preempted, requeue, requeued. destruct (running th) eqn:Hrun; cbn [andb].
  - set (s1 := set_k_cur _ _). assert (Ht1 : k_threads s1 !! t = Some (clear_yield th))
      by (cbn; apply lookup_insert_eq).
    assert (rinv s1) as Hs1
      by (eapply ready_ok_touch; eauto using clear_yield_place, thread_wf_clear_yield).
    split; [|split; [done|split; [done|split; [|split]]]].
    + apply rinv_inserted; [done..|by apply Hl|]. destruct Hwf as (_ & _ & _ & [Hm|[_ Hst]]); [done|].
      apply Z.eqb_eq in Hrun. rewrite Hrun in Hst. by destruct Hst.
    + cbn. by rewrite insert_insert_eq.
    + intros q. cbn. rewrite getq_insert. case_bool_decide as Hq; subst.
      * by rewrite bool_decide_eq_true_2.
      * by rewrite bool_decide_eq_false_2, app_nil_r by done.
    + done.
  - split; [done|split; [done|split; [done|split; [|split]]]].
    + cbn. by rewrite insert_id.
    + intros q. cbn. by rewrite app_nil_r.
    + done.
Qed.

Lemma rt_schedule_switch s t th x p thx :
  sinv s -> k_lock s = 0 -> k_cur s = Some t -> k_threads s !! t = Some th ->
  highest_ready (k_qs s) p x -> keeps th p = false -> k_threads s !! x = Some thx ->
  exists s', rt_schedule s = Ok tt s' /\ sinv s' /\ sched_frame s s' /\ t <> x /\
    k_cur s' = Some x /\ k_curprio s' = p /\
    k_threads s' = <[x := with_state RT_THREAD_RUNNING thx]> (<[t := requeue th]> (k_threads s)) /\
    (forall q, getq (k_qs s') q = filter (fun y => y <> x) (getq (k_qs s) q ++ requeued t th q)).
Proof.
  intros [Hs Hc] Hl Hcur Ht Hh Hk Hx. pose proof (highest_group _ _ _ Hs Hh) as Hg.
  destruct (highest_run s Hs Hg) as (p' & x' & Hrun & Hh').
  destruct (highest_fun _ _ _ _ _ Hh Hh') as [<- <-].
  pose proof (ro_wf _ _ _ Hs _ _ Ht) as Hwf. pose proof (ro_wf _ _ _ Hs _ _ Hx) as Hwfx.
  assert (state_of thx = RT_THREAD_READY) as Hrx.
  { destruct Hh as (_ & Hin & _). apply head_elem in Hin.
    destruct (qo_fits _ _ (ro_queues _ _ _ Hs) _ _ Hin) as (? & ? & Hfit & _). congruence. }
  assert (state_of th <> RT_THREAD_READY) as Hnr.
  { destruct (proj1 Hc t Hcur) as (? & ? & ? & _). congruence. }
  assert (t <> x) as Htx by congruence.
  destruct (preempted_facts s t th x p Hs Ht) as (Hs1 & Hc1 & Hcp1 & Ht1 & Hq1 & Hf1).
  { intros Hrn. eapply rinv_unlinked; [done..|left]. by apply Z.eqb_eq. }
  set (s1 := preempted t th x p s) in *.
  assert (k_threads s1 !! x = Some thx) as Hx1 by (rewrite Ht1, lookup_insert_ne; done).
  assert (state_of (requeue th) <> RT_THREAD_RUNNING) as Hnrun.
  { unfold requeue. destruct (running th) eqn:E; [by rewrite state_with_state|].
    by apply Z.eqb_neq in E. }
  exists (set_k_threads (<[x := with_state RT_THREAD_RUNNING thx]> (k_threads s1)) (removed x thx s1)).
  split; [|split; [split|split; [|split; [done|split; [|split; [|split]]]]]].
  - unfold rt_schedule. do 2 erewrite run_bind by done.
    rewrite Hl. destruct (Z.eqb_spec (k_group s) 0); [done|]. cbn [Z.eqb andb negb].
    rewrite (run_bind _ _ _ _ _ Hrun). cbv beta iota.
    erewrite run_bind by (by apply self_run). erewrite run_bind by (by apply get_thread_run).
    change (state_of th =? RT_THREAD_RUNNING) with (running th).
    assert (forall s2 b, (running th = b) -> s2 = (if b then set_k_threads (<[t := clear_yield th]> (k_threads s)) s else s) ->
      (if running th then put_thread t (set_th_stat (Z.land (th_stat th) (Z.lnot RT_THREAD_STAT_YIELD)) th);;
         mret (if th_current_priority th <? p then (t, false)
               else if (th_current_priority th =? p) && (Z.land (th_stat th) RT_THREAD_STAT_YIELD =? 0)
               then (t, false) else (x, true))
       else mret (x, false)) s = Ok (x, b) s2) as Hsel.
    { intros s2 b <- ->. unfold keeps in Hk. change (state_of th =? RT_THREAD_RUNNING) with (running th) in Hk.
      destruct (running th); [|done]. erewrite run_bind by done. cbn in Hk.
      apply orb_false_iff in Hk as [-> ->]. done. }
    erewrite run_bind by (by apply Hsel). cbv beta iota.
    rewrite bool_decide_eq_false_2 by done. cbn [negb]. do 2 erewrite run_bind by done.
    assert ((if running th then rt_schedule_insert_thread t else mret tt)
      (set_k_cur (Some x) (set_k_curprio (u8 p) (if running th then
         set_k_threads (<[t:=clear_yield th]> (k_threads s)) s else s))) = Ok tt s1) as Hins.
    { unfold s1, preempted. destruct (running th) eqn:E; [|done].
      apply (insert_thread_run _ t (clear_yield th)); [cbn; apply lookup_insert_eq|apply Hwf|cbn; congruence|].
      eapply (rinv_unlinked s); [done..|left]. by apply Z.eqb_eq. }
    rewrite (run_bind _ _ _ _ _ Hins).
    erewrite run_bind by (by eapply remove_thread_run; [|apply Hwfx]).
    erewrite run_bind by (apply get_thread_run; by rewrite threads_removed).
    unfold put_thread, modify. by rewrite threads_removed.
  - apply rinv_leave with (th := thx); [done..| |by rewrite state_with_state].
    apply thread_wf_state; [done..|]. right. right. destruct Hwfx as (_ & _ & _ & [Hm|[_ Hst]]); [done|].
    rewrite Hrx in Hst. by destruct Hst.
  - cbn [k_cur k_threads set_k_threads]. rewrite cur_removed, Hc1, Ht1. split.
    + intros y [= <-]. rewrite lookup_insert_eq. eexists. split; [done|]. by rewrite state_with_state.
    + intros y thy. rewrite lookup_insert_Some. intros [[<- _]|[Hyx Hy]] Hry; [done|].
      rewrite lookup_insert_Some in Hy. destruct Hy as [[<- <-]|[Hyt Hy]]; [done|].
      pose proof (proj2 Hc _ _ Hy Hry). congruence.
  - unfold sched_frame. rewrite <- Hf1. exact (frame_removed x thx s1).
  - cbn. by rewrite cur_removed.
  - cbn [k_curprio set_k_threads]. rewrite curprio_removed, Hcp1. apply wrap_small.
    destruct Hh as [Hp _]. unfold RT_THREAD_PRIORITY_MAX in Hp. lia.
  - cbn. by rewrite Ht1.
  - intros q. cbn [k_qs set_k_threads]. by rewrite getq_removed, Hq1.
Qed.

(** ** What every caller of the scheduler may rely on *)
Definition runnable (th : rt_thread) : Prop :=
  state_of th = RT_THREAD_READY \/ state_of th = RT_THREAD_RUNNING.
#[export] Instance runnable_dec th : Decision (runnable th).
Proof. unfold runnable. apply _. Defined.

Definition is_ready_q (q : qid) : bool := match q with QReady _ => true | _ => false end.

(** Only the status of runnable threads changes, and they stay runnable. *)
Definition same_but_stat (th th' : rt_thread) : Prop :=
  th' = set_th_stat (th_stat th') th /\ (runnable th -> runnable th') /\ (~ runnable th -> th' = th).

(** A thread that became the current one is runnable. *)
Definition switched (s s' : kst) : Prop :=
  forall t, k_cur s' = Some t -> k_cur s = Some t \/
    exists th, k_threads s' !! t = Some th /\ runnable th.

Record sched_step (s s' : kst) : Prop := {
  ss_frame : sched_frame s s';
  ss_queues q : is_ready_q q = false -> getq (k_qs s') q = getq (k_qs s) q;
  ss_threads t : match k_threads s !! t with
                 | Some th => exists th', k_threads s' !! t = Some th' /\ same_but_stat th th'
                 | None => k_threads s' !! t = None
                 end;
  ss_cur : is_Some (k_cur s) -> is_Some (k_cur s');
  ss_switched : switched s s'
}.

Section frame.
Context {s s' : kst} (H : sched_frame s s').
Lemma fr_tick : k_tick s' = k_tick s. Proof. exact (f_equal k_tick H). Qed.
Lemma fr_nest : k_nest s' = k_nest s. Proof. exact (f_equal k_nest H). Qed.
Lemma fr_lock : k_lock s' = k_lock s. Proof. exact (f_equal k_lock H). Qed.
Lemma fr_objs : k_objs s' = k_objs s. Proof. exact (f_equal k_objs H). Qed.
Lemma fr_cont : k_cont s' = k_cont s. Proof. exact (f_equal k_cont H). Qed.
Lemma fr_timers : k_timers s' = k_timers s. Proof. exact (f_equal k_timers H). Qed.
Lemma fr_tlist : k_tlist s' = k_tlist s. Proof. exact (f_equal k_tlist H). Qed.
Lemma fr_tlocal : k_tlocal s' = k_tlocal s. Proof. exact (f_equal k_tlocal H). Qed.
Lemma fr_sems : k_sems s' = k_sems s. Proof. exact (f_equal k_sems H). Qed.
Lemma fr_mutexes : k_mutexes s' = k_mutexes s. Proof. exact (f_equal k_mutexes H). Qed.
Lemma fr_events : k_events s' = k_events s. Proof. exact (f_equal k_events H). Qed.
Lemma fr_mbs : k_mbs s' = k_mbs s. Proof. exact (f_equal k_mbs H). Qed.
Lemma fr_mqs : k_mqs s' = k_mqs s. Proof. exact (f_equal k_mqs H). Qed.
Lemma fr_mem : k_mem s' = k_mem s. Proof. exact (f_equal k_mem H). Qed.
End frame.

Lemma same_but_stat_refl th : same_but_stat th th.
Proof. split; [by rewrite set_stat_same|auto]. Qed.

Lemma sched_step_refl s : sched_step s s.
Proof.
  split; [done..| |done|by left]. intros t. destruct (k_threads s !! t) as [th|]; eauto using same_but_stat_refl.
Qed.

(** A runnable thread stays one. *)
Lemma sched_step_runnable s s' t th : sched_step s s' -> k_threads s !! t = Some th -> runnable th ->
  exists th', k_threads s' !! t = Some th' /\ runnable th'.
Proof.
  intros H Ht Hr. pose proof (ss_threads _ _ H t) as Hx. rewrite Ht in Hx. destruct Hx as (th' & E & _ & Hr' & _). eauto.
Qed.

Lemma same_but_stat_trans a b c : same_but_stat a b -> same_but_stat b c -> same_but_stat a c.
Proof.
  intros (E1 & R1 & N1) (E2 & R2 & N2). split; [|split].
  - rewrite E2, E1. done.
  - auto.
  - intros H. rewrite N2; rewrite N1; done.
Qed.

Lemma sched_step_trans a b c : sched_step a b -> sched_step b c -> sched_step a c.
Proof.
  intros H1 H2. pose proof H1 as [F1 Q1 T1 C1 W1]. pose proof H2 as [F2 Q2 T2 C2 W2]. split; [|..|by auto|].
  - unfold sched_frame. by rewrite F2.
  - intros q Hq. by rewrite Q2, Q1.
  - intros t. specialize (T1 t). specialize (T2 t). destruct (k_threads a !! t) as [th|].
    + destruct T1 as (th' & E & H). rewrite E in T2. destruct T2 as (th'' & ? & ?).
      eauto using same_but_stat_trans.
    + by rewrite T1 in T2.
  - intros t Ht. destruct (W2 t Ht) as [Hc|]; [|by right]. destruct (W1 t Hc) as [|(th & E & Hr)]; [by left|right].
    by eapply sched_step_runnable.
Qed.

Lemma same_but_stat_with th v :
  runnable th -> v = RT_THREAD_READY \/ v = RT_THREAD_RUNNING -> same_but_stat th (with_state v th).
Proof.
  intros Hr Hv. split; [done|split; [|done]]. intros _. unfold runnable.
  by rewrite state_with_state by (destruct Hv; subst; unfold RT_THREAD_READY, RT_THREAD_RUNNING; lia).
Qed.
Lemma same_but_stat_clear th : runnable th -> same_but_stat th (clear_yield th).
Proof.
  intros Hr. split; [done|split; [|done]]. unfold runnable, clear_yield. by rewrite state_clear_yield.
Qed.
Lemma same_but_stat_requeue th : same_but_stat th (requeue th).
Proof.
  unfold requeue. destruct (running th) eqn:E; [|apply same_but_stat_refl]. apply Z.eqb_eq in E.
  assert (runnable (clear_yield th)) by (right; unfold clear_yield; by rewrite state_clear_yield).
  eapply same_but_stat_trans; [apply same_but_stat_clear; by right|].
  apply same_but_stat_with; [done|by left].
Qed.

Lemma sched_step_insert s s' t th th' :
  sched_step s s' -> k_threads s' !! t = Some th -> same_but_stat th th' ->
  forall s'', k_threads s'' = <[t := th']> (k_threads s') -> sched_frame s' s'' ->
  (forall q, is_ready_q q = false -> getq (k_qs s'') q = getq (k_qs s') q) ->
  (is_Some (k_cur s') -> is_Some (k_cur s'')) -> switched s' s'' -> sched_step s s''.
Proof.
  intros H Ht Hth s'' Hths Hf Hq Hc Hsw. eapply sched_step_trans; [done|]. split; [done..| |done|done].
  intros y. rewrite Hths. destruct (decide (y = t)) as [->|Hne].
  - rewrite Ht, lookup_insert_eq. eauto.
  - rewrite lookup_insert_ne by done. destruct (k_threads s' !! y); eauto using same_but_stat_refl.
Qed.

Lemma rt_schedule_ok s : sinv s -> is_Some (k_cur s) ->
  exists s', rt_schedule s = Ok tt s' /\ sinv s' /\ sched_step s s'.
Proof.
  intros Hs [t Ht]. destruct (proj1 (proj2 Hs) t Ht) as (th & Hth & _ & _).
  destruct (decide (k_lock s <> 0 \/ k_group s = 0)) as [H|H].
  { exists s. auto using rt_schedule_idle, sched_step_refl. }
  destruct (highest_run s (proj1 Hs)) as (p & x & _ & Hh); [lia|].
  destruct (keeps th p) eqn:Hk.
  - destruct (rt_schedule_keep s t th x p) as (s' & Hrun & Hs' & Hf & Hc & Hths & Hq); [done|lia|done..|].
    exists s'. split; [done|split; [done|]].
    eapply (sched_step_insert s s t th (clear_yield th)); eauto using sched_step_refl.
    2:{ intros y. rewrite Hc. intros [= <-]. by left. }
    apply same_but_stat_clear. right. apply andb_true_iff in Hk as [Hk _]. by apply Z.eqb_eq.
  - destruct (qo_fits _ _ (ro_queues _ _ _ (proj1 Hs)) (QReady p) x) as (thx & Hx & Hrx & _).
    { apply head_elem, Hh. }
    destruct (rt_schedule_switch s t th x p thx) as (s' & Hrun & Hs' & Hf & Hne & Hc & _ & Hths & Hq);
      [done|lia|done..|].
    exists s'. split; [done|split; [done|]].
    eapply (sched_step_insert s (set_k_threads (<[t := requeue th]> (k_threads s)) s) x thx).
    + eapply (sched_step_insert s s t th); eauto using sched_step_refl, same_but_stat_requeue; [done|by left].
    + cbn. by rewrite lookup_insert_ne.
    + apply same_but_stat_with; [by left|by right].
    + by rewrite Hths.
    + by unfold sched_frame in *; rewrite Hf.
    + intros q Hqr. cbn. rewrite Hq. unfold requeued. rewrite (bool_decide_eq_false_2 (q = _)), andb_false_r, app_nil_r.
      * apply filter_id. intros y Hy ->.
        pose proof (qo_unique _ _ (ro_queues _ _ _ (proj1 Hs)) q (QReady p) x Hy (head_elem _ _ (proj1 (proj2 Hh)))) as ->.
        done.
      * by intros ->.
    + by rewrite Hc.
    + intros y. rewrite Hc. intros [= <-]. right. rewrite Hths, lookup_insert_eq. eexists. split; [done|]. right.
      by apply state_with_state.
Qed.

(** With a ready thread and the scheduler unlocked, the current thread runs. *)
Lemma rt_schedule_runs s s' : sinv s -> is_Some (k_cur s) -> k_lock s = 0 -> k_group s <> 0 ->
  rt_schedule s = Ok tt s' ->
  exists c th, k_cur s' = Some c /\ k_threads s' !! c = Some th /\ state_of th = RT_THREAD_RUNNING.
Proof.
  intros Hs [t Ht] Hl Hg Hrun. destruct (proj1 (proj2 Hs) t Ht) as (th & Hth & _ & _).
  destruct (highest_run s (proj1 Hs) Hg) as (p & x & _ & Hh). destruct (keeps th p) eqn:Hk.
  - destruct (rt_schedule_keep s t th x p) as (s1 & Hrun1 & _ & _ & Hc & Hths & _); [done..|].
    rewrite Hrun in Hrun1. injection Hrun1 as <-. exists t, (clear_yield th). rewrite Hths, lookup_insert_eq.
    split; [done|split; [done|]]. unfold clear_yield. rewrite state_clear_yield.
    apply andb_true_iff in Hk as [Hk _]. by apply Z.eqb_eq.
  - destruct (qo_fits _ _ (ro_queues _ _ _ (proj1 Hs)) (QReady p) x) as (thx & Hx & _); [apply head_elem, Hh|].
    destruct (rt_schedule_switch s t th x p thx) as (s1 & Hrun1 & _ & _ & _ & Hc & _ & Hths & _); [done..|].
    rewrite Hrun in Hrun1. injection Hrun1 as <-. exists x, (with_state RT_THREAD_RUNNING thx).
    rewrite Hths, lookup_insert_eq. split; [done|split; [done|]]. by apply state_with_state.
Qed.

(** ** Theorems *)

(** [__rt_ffs] of a non-zero word is one plus the index of its lowest set
    bit, and 0 for the word 0. *)
Theorem rt_ffs_spec v : 0 <= v < 2 ^ 32 ->
  if decide (v = 0) then __rt_ffs v = 0
  else 1 <= __rt_ffs v <= 32 /\ Z.testbit v (__rt_ffs v - 1) = true /\
       forall i, 0 <= i < __rt_ffs v - 1 -> Z.testbit v i = false.
Proof.
  intros Hv. destruct (decide (v = 0)) as [->|Hne]; [done|].
  destruct (rt_ffs_lowest v) as [H (H0 & H1 & H2)]; [lia|]. auto.
Qed.

(** C7: [rt_schedule], with the scheduler unlocked and some thread ready:
    the current thread keeps the processor exactly when it is running and
    either more urgent than every ready thread or as urgent and not yielding;
    otherwise the first thread of the most urgent ready list runs, leaves its
    list, and the preempted running thread goes to the tail of its own list.
    No other queue and nothing outside the scheduler changes, and the
    scheduler's invariant is kept. *)
Theorem rt_schedule_spec s t th p x thx :
  sinv s -> k_lock s = 0 -> k_cur s = Some t -> k_threads s !! t = Some th ->
  highest_ready (k_qs s) p x -> k_threads s !! x = Some thx ->
  exists s', rt_schedule s = Ok tt s' /\ sinv s' /\ sched_frame s s' /\
    if keeps th p then
      k_cur s' = Some t /\ k_threads s' = <[t := clear_yield th]> (k_threads s) /\
      forall q, getq (k_qs s') q = getq (k_qs s) q
    else
      k_cur s' = Some x /\
      k_threads s' = <[x := with_state RT_THREAD_RUNNING thx]> (<[t := requeue th]> (k_threads s)) /\
      forall q, getq (k_qs s') q = filter (fun y => y <> x) (getq (k_qs s) q ++ requeued t th q).
Proof.
  intros Hs Hl Hc Ht Hh Hx. destruct (keeps th p) eqn:Hk.
  - destruct (rt_schedule_keep s t th x p) as (s' & ? & ? & ? & ? & ? & ?); eauto 10.
  - destruct (rt_schedule_switch s t th x p thx) as (s' & ? & ? & ? & ? & ? & ? & ? & ?); eauto 10.
Qed.

(** after [rt_schedule] with the scheduler unlocked, either nothing is
    ready, or the current thread is running and no ready thread is more
    urgent than it (fixed-priority preemption). *)
Theorem rt_schedule_most_urgent s t :
  sinv s -> k_lock s = 0 -> k_cur s = Some t ->
  exists s', rt_schedule s = Ok tt s' /\
    (k_group s = 0 /\ s' = s \/
     exists c thc, k_cur s' = Some c /\ k_threads s' !! c = Some thc /\ state_of thc = RT_THREAD_RUNNING /\
       forall p y, y ∈ getq (k_qs s') (QReady p) -> th_current_priority thc <= p).
Proof.
  intros Hs Hl Ht. destruct (proj1 (proj2 Hs) t Ht) as (th & Hth & _ & _).
  destruct (decide (k_group s = 0)) as [H0|Hg].
  { exists s. split; [by apply rt_schedule_idle; auto|by left]. }
  destruct (highest_run s (proj1 Hs) Hg) as (p & x & _ & Hh).
  destruct (qo_fits _ _ (ro_queues _ _ _ (proj1 Hs)) (QReady p) x) as (thx & Hx & Hrx & Hpx).
  { apply head_elem, Hh. }
  assert (forall p' y, y ∈ getq (k_qs s) (QReady p') -> p <= p') as Hmin.
  { intros p' y Hy. destruct Hh as (Hp & _ & Hh). destruct (Z.lt_ge_cases p' p); [|done].
    destruct (qo_fits _ _ (ro_queues _ _ _ (proj1 Hs)) _ _ Hy) as (thy & Hthy & _ & <-).
    rewrite Hh in Hy by (split; [apply (ro_wf _ _ _ (proj1 Hs) _ _ Hthy)|done]).
    by apply not_elem_of_nil in Hy. }
  destruct (keeps th p) eqn:Hk.
  - destruct (rt_schedule_keep s t th x p) as (s' & Hrun & Hs' & Hf & Hc & Hths & Hq); [done..|].
    exists s'. split; [done|right]. exists t, (clear_yield th).
    rewrite Hths, lookup_insert_eq. apply andb_true_iff in Hk as [Hst Hk]. apply Z.eqb_eq in Hst.
    split; [done|split; [done|split; [by unfold clear_yield; rewrite state_clear_yield|]]].
    intros p' y. rewrite Hq. intros Hy. specialize (Hmin _ _ Hy). cbn.
    apply orb_true_iff in Hk as [Hk|Hk]; [lia|]. apply andb_true_iff in Hk as [Hk _]. lia.
  - destruct (rt_schedule_switch s t th x p thx) as (s' & Hrun & Hs' & Hf & Hne & Hc & _ & Hths & Hq); [done..|].
    exists s'. split; [done|right]. exists x, (with_state RT_THREAD_RUNNING thx).
    rewrite Hths, lookup_insert_eq. split; [done|split; [done|split; [by rewrite state_with_state|]]].
    intros p' y. rewrite Hq, list_elem_of_filter, elem_of_app. cbn. rewrite Hpx. intros [_ [Hy|Hy]]; [by eapply Hmin|].
    unfold requeued in Hy. destruct (running th) eqn:Hr; [|by apply not_elem_of_nil in Hy].
    unfold keeps in Hk. unfold running in Hr. rewrite Hr in Hk. cbn in Hk.
    case_bool_decide as Hq'; [|by apply not_elem_of_nil in Hy]. injection Hq' as ->.
    apply orb_false_iff in Hk as [Hk _]. lia.
Qed.

(** ** Concrete states: the invariant as a check *)
Definition sched_check (c : option ptr) (g : Z) (m : queues) (ths : gmap ptr rt_thread) : Prop :=
  map_Forall (fun t th => thread_wf th /\
    (state_of th = RT_THREAD_READY -> t ∈ getq m (QReady (th_current_priority th))) /\
    (state_of th = RT_THREAD_RUNNING -> c = Some t)) ths /\
  map_Forall (fun q l => NoDup l /\
    Forall (fun t => match ths !! t with Some th => fits q th | None => False end) l /\
    map_Forall (fun q' l' => q = q' \/ Forall (fun t => t ∉ l') l) m) m /\
  0 <= g < 2 ^ 32 /\
  Forall (fun n => Z.testbit g (Z.of_nat n) = bool_decide (getq m (QReady (Z.of_nat n)) <> [])) (seq 0 32) /\
  match c with
  | Some t => match ths !! t with
              | Some th => state_of th <> RT_THREAD_READY /\ state_of th <> RT_THREAD_INIT
              | None => False
              end
  | None => True
  end.

#[export] Instance thread_wf_dec th : Decision (thread_wf th).
Proof. unfold thread_wf, mask_ok. apply _. Defined.
#[export] Instance fits_dec q th : Decision (fits q th).
Proof. destruct q; cbn; apply _. Defined.
#[export] Instance sched_check_dec c g m ths : Decision (sched_check c g m ths).
Proof.
  unfold sched_check. repeat apply and_dec; try apply _.
  - apply map_Forall_dec. intros q l. repeat apply and_dec; try apply _.
    apply Forall_dec. intros t. destruct (ths !! t); apply _.
  - destruct c as [t|]; [destruct (ths !! t)|]; apply _.
Defined.

Lemma getq_elem m q t : t ∈ getq m q -> exists l, m !! q = Some l /\ t ∈ l.
Proof. unfold getq. destruct (m !! q); [eauto|]. intros H. by apply not_elem_of_nil in H. Qed.

Lemma sched_check_ok s : sched_check (k_cur s) (k_group s) (k_qs s) (k_threads s) -> sinv s.
Proof.
  intros (H1 & H2 & H3 & H4 & H5). split; [split; [|split|split; [done|]]|split].
  - intros t th Ht. by apply (H1 t th Ht).
  - intros q. unfold getq. destruct (k_qs s !! q) as [l|] eqn:E; [by apply (H2 q l E)|constructor].
  - intros q q' t Ht Ht'. apply getq_elem in Ht as (l & E & Hin). apply getq_elem in Ht' as (l' & E' & Hin').
    destruct (H2 q l E) as (_ & _ & H). destruct (H q' l' E') as [|Hf]; [done|].
    rewrite Forall_forall in Hf. by destruct (Hf t Hin).
  - intros q t Ht. apply getq_elem in Ht as (l & E & Hin). destruct (H2 q l E) as (_ & H & _).
    rewrite Forall_forall in H. specialize (H t Hin). destruct (k_threads s !! t); [eauto|done].
  - intros t th Ht Hst. by apply (H1 t th Ht).
  - intros p Hp. rewrite Forall_forall in H4. specialize (H4 (Z.to_nat p)).
    rewrite Z2Nat.id in H4 by lia. apply H4. apply elem_of_seq. lia.
  - intros t Ht. rewrite Ht in H5. destruct (k_threads s !! t) as [th|] eqn:E; [|done]. eauto.
  - intros t th Ht Hst. by apply (H1 t th Ht).
Qed.

(** [sinv] of a concrete state by evaluation. *)
Ltac check_sinv := apply sched_check_ok; apply (bool_decide_unpack _); vm_compute; exact I.

(** The ready lists below a priority, by evaluation. *)
Lemma no_ready_below m b :
  forallb (fun n => match getq m (QReady (Z.of_nat n)) with [] => true | _ => false end)
    (seq 0 (Z.to_nat b)) = true ->
  forall p, 0 <= p < b -> getq m (QReady p) = [].
Proof.
  rewrite forallb_forall. intros H p Hp. specialize (H (Z.to_nat p)).
  rewrite in_seq, Z2Nat.id in H by lia. specialize (H ltac:(lia)).
  by destruct (getq m (QReady p)).
Qed.

(** ** Witnesses *)
Definition demo_thread (stat prio : Z) : rt_thread :=
  Thread 0 0 0 0 0 stat prio prio (2 ^ prio) 0 0 10 10 None 0.
Definition empty_kst : kst :=
  KSt 0 0 0 None 0 0 ∅ ∅ ∅ ∅ ∅ [] [] 0 ∅ ∅ ∅ ∅ ∅ ∅ empty_drivers.
(** Thread 1 runs at priority 10, threads 2 and 3 are ready at 7 and 10. *)
Definition demo_sched : kst :=
  set_k_cur (Some 1%positive) (set_k_group (2 ^ 7 + 2 ^ 10)
   (set_k_qs (<[QReady 7 := [2%positive]]> (<[QReady 10 := [3%positive]]> ∅))
    (set_k_threads (<[1%positive := demo_thread RT_THREAD_RUNNING 10]>
       (<[2%positive := demo_thread RT_THREAD_READY 7]>
       (<[3%positive := demo_thread RT_THREAD_READY 10]> ∅))) empty_kst))).

Lemma demo_sched_ok : sinv demo_sched.
Proof. check_sinv. Qed.

Lemma rt_ffs_spec_witness : 0 <= 0x120000 < 2 ^ 32 /\ __rt_ffs 0x120000 = 18 /\
  Z.testbit 0x120000 17 = true.
Proof.
  split; [lia|]. pose proof (rt_ffs_spec 0x120000 ltac:(lia)) as H.
  split; [by vm_compute|]. exact (proj1 (proj2 H)).
Defined.

Lemma rt_schedule_spec_witness : exists s', rt_schedule demo_sched = Ok tt s' /\
  k_cur s' = Some 2%positive /\ getq (k_qs s') (QReady 10) = [3%positive; 1%positive].
Proof.
  destruct (rt_schedule_spec demo_sched 1%positive (demo_thread RT_THREAD_RUNNING 10) 7 2%positive
    (demo_thread RT_THREAD_READY 7)) as (s' & Hrun & _ & _ & Hc & _ & Hq);
    [apply demo_sched_ok|done|done|done| |done|].
  - split; [by unfold RT_THREAD_PRIORITY_MAX|]. split; [done|]. intros p Hp.
    apply (no_ready_below _ 7); [by vm_compute|done].
  - exists s'. split; [done|]. split; [done|]. by rewrite Hq.
Defined.

Lemma rt_schedule_most_urgent_witness : exists s', rt_schedule demo_sched = Ok tt s' /\
  exists c, k_cur s' = Some c /\ forall p y, y ∈ getq (k_qs s') (QReady p) -> 7 <= p.
Proof.
  destruct (rt_schedule_most_urgent demo_sched 1%positive demo_sched_ok eq_refl eq_refl)
    as (s' & Hrun & [[Hg _]|(c & thc & Hc & Hthc & _ & H)]); [done|].
  exists s'. split; [done|]. exists c. split; [done|]. intros p y Hy.
  vm_compute in Hrun. injection Hrun as <-. injection Hc as <-.
  vm_compute in Hthc. injection Hthc as <-. exact (H p y Hy).
Defined.
