(* ===== verification/Object.v ===== *)
(** * Kernel objects (rt-thread/src/object.c, and rt_strncpy, rt_strncmp of kservice.c)

    Every kernel object starts with a [struct rt_object] and is linked in the
    container list of its class.  [k_objs] holds the headers, [k_cont] the
    container lists, newest object first.  The allocating functions take the
    result of [RT_KERNEL_MALLOC] as the argument [mem]; freed memory is not
    reused by the model.  No hook is installed, so the hook calls are no-ops.

    A critical section of this file that calls [rt_exit_critical] may
    reschedule; the theorems give the container invariant and what a lookup
    by name returns. *)
From S2P Require Import Prelude KState Scheduler.

(** ** Strings: [char] arrays, the end of a list standing for the final NUL *)
Fixpoint rt_strncpy (src : list Z) (n : nat) {struct n} : list Z :=
  match n with
  | O => []
  | S n =>
      match src with
      | [] => 0 :: replicate n 0
      | c :: src => if c =? 0 then 0 :: replicate n 0 else c :: rt_strncpy src n
      end
  end.

Fixpoint rt_strncmp (cs ct : list Z) (count : nat) : Z :=
  match count with
  | O => 0
  | S count =>
      let c := hd 0 cs in
      let res := swrap 8 (c - hd 0 ct) in
      if negb (res =? 0) || (c =? 0) then res else rt_strncmp (tail cs) (tail ct) count
  end.

(** ** Containers *)

(** The classes of [rt_object_container], in order. *)
Definition rt_object_container : list Z :=
  [RT_Object_Class_Thread; RT_Object_Class_Semaphore; RT_Object_Class_Mutex;
   RT_Object_Class_Event; RT_Object_Class_MailBox; RT_Object_Class_MessageQueue;
   RT_Object_Class_Device; RT_Object_Class_Timer].

(** The loop over the table; an information record is named by its class. *)
Fixpoint information_loop (tbl : list Z) (type : Z) : option Z :=
  match tbl with
  | [] => None
  | t :: tbl => if t =? type then Some t else information_loop tbl type
  end.
Definition rt_object_get_information (type : Z) : option Z :=
  information_loop rt_object_container type.

Definition objects_of (s : kst) (cls : Z) : list ptr := default [] (k_cont s !! cls).

Definition rt_object_get_length (type : Z) : K Z :=
  match rt_object_get_information type with
  | None => mret 0
  | Some cls => l ← gets (fun s => objects_of s cls); mret (i32 (Z.of_nat (length l)))
  end.

(** The loop stops when [maxlen] pointers are stored. *)
Fixpoint pointers_loop (l : list ptr) (index maxlen : Z) (pointers : list ptr) : list ptr :=
  match l with
  | [] => pointers
  | o :: l =>
      if index + 1 >=? maxlen then pointers ++ [o]
      else pointers_loop l (index + 1) maxlen (pointers ++ [o])
  end.
(** The pointers stored in the caller's array; their number is returned. *)
Definition rt_object_get_pointers (type maxlen : Z) : K (list ptr) :=
  if maxlen <=? 0 then mret []
  else match rt_object_get_information type with
  | None => mret []
  | Some cls => l ← gets (fun s => objects_of s cls); mret (pointers_loop l 0 maxlen [])
  end.

(** Is [object->list] linked in some container? *)
Definition in_container (o : ptr) (m : gmap Z (list ptr)) : bool :=
  bool_decide (map_Exists (fun _ l => o ∈ l) m).

(** [rt_list_insert_after(&information->object_list, &object->list)] *)
Definition container_push (cls : Z) (o : ptr) : K unit := fun s =>
  if in_container o (k_cont s) then Fail BadPtr
  else Ok tt (set_k_cont (<[cls := o :: objects_of s cls]> (k_cont s)) s).
(** [rt_list_remove(&object->list)] *)
Definition container_remove (o : ptr) : K unit :=
  modify (fun s => set_k_cont (filter (fun x => x <> o) <$> k_cont s) s).

Definition rt_object_init (object : ptr) (type : Z) (name : list Z) : K unit :=
  information ← (match rt_object_get_information type with
                 | Some cls => mret cls | None => kfail AssertFail end);
  rt_enter_critical;;
  l ← gets (fun s => objects_of s information);
  RT_ASSERT (bool_decide (object ∉ l));;
  rt_exit_critical;;
  flag ← gets (fun s => match k_objs s !! object with Some o => ob_flag o | None => 0 end);
  put_obj object (Object (rt_strncpy name RT_NAME_MAX) (Z.lor type RT_Object_Class_Static) flag);;
  container_push information object.

Definition rt_object_detach (object : ptr) : K unit :=
  o ← get_obj object;
  put_obj object (set_ob_type 0 o);;
  container_remove object.

(** [RT_KERNEL_MALLOC] returned [mem]. *)
Definition rt_object_allocate (type : Z) (name : list Z) (mem : option ptr) : K (option ptr) :=
  RT_DEBUG_NOT_IN_INTERRUPT;;
  information ← (match rt_object_get_information type with
                 | Some cls => mret cls | None => kfail AssertFail end);
  match mem with
  | None => mret None
  | Some object =>
      put_obj object (Object (rt_strncpy name RT_NAME_MAX) type 0);;
      container_push information object;;
      mret (Some object)
  end.

Definition rt_object_delete (object : ptr) : K unit :=
  o ← get_obj object;
  RT_ASSERT (Z.land (ob_type o) RT_Object_Class_Static =? 0);;
  put_obj object (set_ob_type RT_Object_Class_Null o);;
  container_remove object.

Definition rt_object_is_systemobject (object : ptr) : K bool :=
  o ← get_obj object;
  mret (negb (Z.land (ob_type o) RT_Object_Class_Static =? 0)).

Definition rt_object_get_type (object : ptr) : K Z :=
  o ← get_obj object;
  mret (Z.land (ob_type o) (Z.lnot RT_Object_Class_Static)).

Fixpoint find_loop (l : list ptr) (name : list Z) : K (option ptr) :=
  match l with
  | [] => mret None
  | object :: l =>
      o ← get_obj object;
      if rt_strncmp (ob_name o) name RT_NAME_MAX =? 0 then mret (Some object)
      else find_loop l name
  end.
Definition rt_object_find (name : list Z) (type : Z) : K (option ptr) :=
  match rt_object_get_information type with
  | None => mret None
  | Some information =>
      RT_DEBUG_NOT_IN_INTERRUPT;;
      rt_enter_critical;;
      l ← gets (fun s => objects_of s information);
      r ← find_loop l name;
      rt_exit_critical;;
      mret r
  end.

(** ** Names *)

(** A C string: bytes without the final NUL. *)
Definition char_ok (c : Z) : Prop := 0 <= c < 2 ^ 8.

Lemma strncpy_length src n : length (rt_strncpy src n) = n.
Proof.
  revert src. induction n as [|n IH]; intros [|c src]; cbn; [done..|by rewrite length_replicate|].
  destruct (c =? 0); cbn; [by rewrite length_replicate|by rewrite IH].
Qed.

Lemma char_diff c d : char_ok c -> char_ok d -> swrap 8 (c - d) = 0 <-> c = d.
Proof.
  unfold char_ok, swrap. intros Hc Hd. change (2 ^ (8 - 1)) with 128. change (2 ^ 8) with 256 in *.
  split; [|intros ->; by rewrite Z.sub_diag].
  intros H. assert ((c - d + 128) mod 256 = 128) as E by lia.
  pose proof (Z.div_mod (c - d + 128) 256 ltac:(lia)). rewrite E in *.
  lia.
Qed.

Lemma strncpy_cons src n : rt_strncpy src (S n) =
  hd 0 src :: (if hd 0 src =? 0 then replicate n 0 else rt_strncpy (tail src) n).
Proof. destruct src as [|c src]; cbn; [done|]. destruct (Z.eqb_spec c 0) as [->|]; done. Qed.

(** Comparing a stored name with a string compares the first [n] characters. *)
Lemma strncmp_stored a b n : Forall char_ok a -> Forall char_ok b ->
  rt_strncmp (rt_strncpy a n) b n = 0 <-> rt_strncpy a n = rt_strncpy b n.
Proof.
  revert a b. induction n as [|n IH]; intros a b Ha Hb; [by split|].
  rewrite !strncpy_cons. cbn [rt_strncmp hd tail].
  assert (forall l, Forall char_ok l -> char_ok (hd 0 l)) as Hhd
    by (intros [|? ?] H; cbn; [by unfold char_ok|by inversion H]).
  assert (forall l, Forall char_ok l -> Forall char_ok (tail l)) as Htl
    by (intros [|? ?] H; cbn; [done|by inversion H]).
  pose proof (char_diff _ _ (Hhd a Ha) (Hhd b Hb)) as Hd.
  destruct (Z.eqb_spec (swrap 8 (hd 0 a - hd 0 b)) 0) as [E|Hne]; cbn [negb orb].
  - pose proof (proj1 Hd E) as E'. rewrite E'. destruct (Z.eqb_spec (hd 0 b) 0) as [H0|Hn0].
    + rewrite E' in E. by rewrite E.
    + rewrite IH by auto. split; [by intros ->|by intros [= ->]].
  - split; [done|]. intros [= H _]. tauto.
Qed.

(** ** The container invariant *)
Definition ob_class (ob : rt_object) : Z := Z.land (ob_type ob) (Z.lnot RT_Object_Class_Static).

Record containers_ok (objs : gmap ptr rt_object) (s : kst) : Prop := {
  co_nodup cls : NoDup (objects_of s cls);
  co_class cls o : o ∈ objects_of s cls -> exists ob, objs !! o = Some ob /\ ob_class ob = cls;
  co_name o ob : objs !! o = Some ob ->
    exists n, Forall char_ok n /\ ob_name ob = rt_strncpy n RT_NAME_MAX
}.
Definition oinv (s : kst) : Prop := containers_ok (k_objs s) s.

Lemma in_container_false m o : in_container o m = false <-> forall cls, o ∉ default [] (m !! cls).
Proof.
  unfold in_container. rewrite bool_decide_eq_false, map_Exists_lookup. split.
  - intros H cls Hin. apply H. exists cls, (default [] (m !! cls)).
    destruct (m !! cls); [done|]. by apply not_elem_of_nil in Hin.
  - intros H (cls & l & Hl & Hin). apply (H cls). by rewrite Hl.
Qed.

Lemma oinv_unlinked s o : oinv s ->
  (forall ob, k_objs s !! o = Some ob -> objects_of s (ob_class ob) = [] \/ o ∉ objects_of s (ob_class ob)) ->
  in_container o (k_cont s) = false.
Proof.
  intros [_ Hc _] H. apply in_container_false. intros cls Hin.
  destruct (Hc cls o Hin) as (ob & E & <-). destruct (H ob E) as [He|]; [|done].
  unfold objects_of in *. rewrite He in Hin. by apply not_elem_of_nil in Hin.
Qed.

Lemma critical_section s : rinv s -> 0 <= k_lock s < 32767 ->
  cur_ok (k_cur s) (k_threads s) ->
  exists s', rt_exit_critical (set_k_lock (i16 (k_lock s + 1)) s) = Ok tt s' /\ sinv s' /\ sched_step s s'.
Proof.
  intros Hs Hl Hc. assert (sinv s) as Hsi by done. unfold rt_exit_critical. do 2 erewrite run_bind by done.
  cbn [k_lock set_k_lock]. rewrite (swrap_small 16 (k_lock s + 1)) by lia.
  replace (k_lock s + 1 - 1) with (k_lock s) by lia. rewrite (swrap_small 16 (k_lock s)) by lia.
  assert (set_k_lock (k_lock s) (set_k_lock (k_lock s + 1) s) = s) as E by (by destruct s). rewrite E.
  destruct (Z.leb_spec (k_lock s) 0) as [H0|Hpos]; [|eauto using sched_step_refl].
  assert (k_lock s = 0) as El by lia. erewrite run_bind by done.
  assert (set_k_lock 0 s = s) as -> by (rewrite <- El; by destruct s).
  unfold rt_thread_self. erewrite run_bind by done. case_bool_decide as Hcur.
  - by apply rt_schedule_ok.
  - eauto using sched_step_refl.
Qed.

(** Linking a fresh object and unlinking an object keep the invariant. *)
Lemma oinv_push s o ob cls :
  oinv s -> (forall c, o ∉ objects_of s c) -> ob_class ob = cls ->
  (exists n, Forall char_ok n /\ ob_name ob = rt_strncpy n RT_NAME_MAX) ->
  oinv (set_k_cont (<[cls := o :: objects_of s cls]> (k_cont s)) (set_k_objs (<[o := ob]> (k_objs s)) s)).
Proof.
  intros [Hnd Hcl Hn] Ho Hob Hname.
  assert (Hobj : forall c, objects_of (set_k_cont (<[cls := o :: objects_of s cls]> (k_cont s))
    (set_k_objs (<[o := ob]> (k_objs s)) s)) c = if bool_decide (cls = c) then o :: objects_of s cls else objects_of s c).
  { intros c. unfold objects_of at 1. cbn. case_bool_decide as E.
    - subst c. by rewrite lookup_insert_eq.
    - by rewrite lookup_insert_ne. }
  split.
  - intros c. rewrite Hobj. case_bool_decide; [|done]. constructor; [apply Ho|done].
  - intros c x. rewrite Hobj. cbn [k_objs set_k_cont set_k_objs].
    assert (x ∈ objects_of s c -> exists ob', <[o := ob]> (k_objs s) !! x = Some ob' /\ ob_class ob' = c) as H.
    { intros Hx. rewrite lookup_insert_ne by (intros <-; by apply (Ho c)). by apply Hcl. }
    case_bool_decide as E; [subst c|done]. rewrite elem_of_cons. intros [->|Hx]; [|by apply H].
    rewrite lookup_insert_eq. eauto.
  - intros x obx. cbn. rewrite lookup_insert_Some. intros [[<- <-]|[_ Hx]]; [done|by eapply Hn].
Qed.

Lemma oinv_remove s o ob :
  oinv s -> k_objs s !! o = Some ob ->
  oinv (set_k_cont (filter (fun x => x <> o) <$> k_cont s)
    (set_k_objs (<[o := set_ob_type RT_Object_Class_Null ob]> (k_objs s)) s)).
Proof.
  intros [Hnd Hcl Hn] Ho.
  assert (Hobj : forall c, objects_of (set_k_cont (filter (fun x => x <> o) <$> k_cont s)
    (set_k_objs (<[o := set_ob_type RT_Object_Class_Null ob]> (k_objs s)) s)) c
    = filter (fun x => x <> o) (objects_of s c)).
  { intros c. unfold objects_of. cbn. rewrite lookup_fmap. by destruct (k_cont s !! c). }
  split.
  - intros c. rewrite Hobj. by apply NoDup_filter.
  - intros c x. rewrite Hobj, list_elem_of_filter. intros [Hne Hx]. cbn. rewrite lookup_insert_ne by done. auto.
  - intros x obx. cbn. rewrite lookup_insert_Some. intros [[<- <-]|[_ Hx]]; [by apply (Hn o ob)|by eapply Hn].
Qed.

Lemma sched_step_objects s s' c : sched_step s s' -> objects_of s' c = objects_of s c.
Proof. intros H. unfold objects_of. by rewrite (fr_cont (ss_frame _ _ H)). Qed.
Lemma sched_step_oinv s s' : sched_step s s' -> oinv s -> oinv s'.
Proof.
  intros H [Hnd Hcl Hn]. split.
  - intros c. by rewrite (sched_step_objects s).
  - intros c x. rewrite (sched_step_objects s), (fr_objs (ss_frame _ _ H)) by done. apply Hcl.
  - intros x ob. rewrite (fr_objs (ss_frame _ _ H)). apply Hn.
Qed.

(** A class is in the table under its own number. *)
Definition object_class (cls : Z) : Prop := cls ∈ rt_object_container.
Lemma information_of cls : object_class cls -> rt_object_get_information cls = Some cls.
Proof. unfold object_class, rt_object_container. intros H. repeat (apply elem_of_cons in H as [->|H]; [done|]).
  by apply not_elem_of_nil in H. Qed.
Lemma class_of_static cls : object_class cls ->
  Z.land (Z.lor cls RT_Object_Class_Static) (Z.lnot RT_Object_Class_Static) = cls /\
  Z.land cls (Z.lnot RT_Object_Class_Static) = cls /\
  Z.land (Z.lor cls RT_Object_Class_Static) RT_Object_Class_Static <> 0 /\
  Z.land cls RT_Object_Class_Static = 0.
Proof. unfold object_class, rt_object_container. intros H. repeat (apply elem_of_cons in H as [->|H]; [done|]).
  by apply not_elem_of_nil in H. Qed.

(** initialising a fresh object puts it first in the container of its
    class, with that class, the static bit and the first eight characters of
    its name, and keeps the container invariant; initialising an object that is
    already in the container fails the assertion. *)
Theorem rt_object_init_spec s o cls name :
  sinv s -> oinv s -> 0 <= k_lock s < 32767 -> object_class cls -> Forall char_ok name ->
  if decide (o ∈ objects_of s cls) then rt_object_init o cls name s = Fail AssertFail
  else (forall c, o ∉ objects_of s c) ->
    exists s' ob, rt_object_init o cls name s = Ok tt s' /\ sinv s' /\ oinv s' /\
      (forall c, objects_of s' c = if bool_decide (c = cls) then o :: objects_of s c else objects_of s c) /\
      k_objs s' = <[o := ob]> (k_objs s) /\ rt_object_get_type o s' = Ok cls s' /\
      rt_object_is_systemobject o s' = Ok true s' /\ ob_name ob = rt_strncpy name RT_NAME_MAX.
Proof.
  intros [Hs Hc] Ho Hl Hcls Hname. pose proof (class_of_static _ Hcls) as (Hc1 & _ & Hc3 & _).
  assert (Hpre : rt_object_init o cls name s =
    (RT_ASSERT (bool_decide (o ∉ objects_of s cls));; rt_exit_critical;;
     flag ← gets (fun s => match k_objs s !! o with Some o => ob_flag o | None => 0 end);
     put_obj o (Object (rt_strncpy name RT_NAME_MAX) (Z.lor cls RT_Object_Class_Static) flag);;
     container_push cls o) (set_k_lock (i16 (k_lock s + 1)) s)).
  { unfold rt_object_init. rewrite information_of by done.
    do 3 erewrite run_bind by done. done. }
  rewrite Hpre. clear Hpre. destruct (decide _) as [Hin|Hni].
  { rewrite bool_decide_eq_false_2 by tauto. by erewrite run_bind_fail by done. }
  intros Hfresh. rewrite bool_decide_eq_true_2 by done. erewrite run_bind by done.
  destruct (critical_section s Hs Hl Hc) as (s1 & Hrun & Hs1 & Hstep).
  rewrite (run_bind _ _ _ _ _ Hrun). do 2 erewrite run_bind by done.
  set (ob := Object _ _ _). unfold container_push. rewrite (proj2 (in_container_false _ _)).
  2:{ intros c. cbn. change (o ∉ objects_of s1 c). by rewrite (sched_step_objects s). }
  eexists _, ob. split; [done|]. cbn [k_objs set_k_objs set_k_cont]. split; [exact Hs1|]. split; [|split; [|split; [|split; [|split]]]].
  - apply (oinv_push s1 o ob cls); [by eapply sched_step_oinv|intros c; by rewrite (sched_step_objects s)|done|eauto].
  - intros c. rewrite <- !(sched_step_objects s s1) by done. unfold objects_of at 1. cbn. case_bool_decide as E.
    + subst c. by rewrite lookup_insert_eq.
    + by rewrite lookup_insert_ne.
  - by rewrite (fr_objs (ss_frame _ _ Hstep)).
  - unfold rt_object_get_type. erewrite run_bind by (apply get_obj_run; cbn; apply lookup_insert_eq).
    cbn [ob_type ob]. by rewrite Hc1.
  - unfold rt_object_is_systemobject. erewrite run_bind by (apply get_obj_run; cbn; apply lookup_insert_eq).
    cbn [ob_type ob]. by destruct (Z.eqb_spec (Z.land (Z.lor cls RT_Object_Class_Static) RT_Object_Class_Static) 0).
  - done.
Qed.

(** ** Lookup by name *)

(** Does the object carry the name, in its first eight characters? *)
Definition named (objs : gmap ptr rt_object) (name : list Z) (o : ptr) : bool :=
  match objs !! o with
  | Some ob => bool_decide (ob_name ob = rt_strncpy name RT_NAME_MAX)
  | None => false
  end.

Lemma find_loop_run s l name :
  oinv s -> Forall char_ok name -> (forall o, o ∈ l -> is_Some (k_objs s !! o)) ->
  find_loop l name s = Ok (head (filter (fun o => named (k_objs s) name o = true) l)) s.
Proof.
  intros Ho Hn. induction l as [|o l IH]; intros Hl; [done|]. cbn [find_loop].
  destruct (Hl o) as [ob E]; [set_solver|]. erewrite run_bind by (by apply get_obj_run).
  destruct (co_name _ _ Ho o ob E) as (n & Hn' & En).
  pose proof (strncmp_stored n name RT_NAME_MAX Hn' Hn) as Hcmp. rewrite <- En in Hcmp.
  assert (named (k_objs s) name o = bool_decide (ob_name ob = rt_strncpy name RT_NAME_MAX)) as Hnm
    by (unfold named; by rewrite E).
  rewrite filter_cons.
  destruct (Z.eqb_spec (rt_strncmp (ob_name ob) name RT_NAME_MAX) 0) as [Hz|Hz].
  - rewrite bool_decide_eq_true_2 in Hnm by tauto. by rewrite decide_True.
  - rewrite bool_decide_eq_false_2 in Hnm by tauto. rewrite decide_False by congruence. apply IH.
    intros y Hy. apply Hl, elem_of_cons. by right.
Qed.

(** [rt_object_find] from a thread returns the most recently added object
    of the class whose name has the same first eight characters, and [RT_NULL]
    when there is none; apart from a possible reschedule it changes nothing. *)
Theorem rt_object_find_spec s cls name :
  sinv s -> oinv s -> 0 <= k_lock s < 32767 -> k_nest s = 0 -> object_class cls -> Forall char_ok name ->
  exists s', rt_object_find name cls s =
      Ok (head (filter (fun o => named (k_objs s) name o = true) (objects_of s cls))) s' /\
    sinv s' /\ oinv s' /\ sched_step s s'.
Proof.
  intros [Hs Hc] Ho Hl Hnest Hcls Hname. unfold rt_object_find. rewrite information_of by done.
  erewrite run_bind by (by apply not_in_interrupt_run). do 2 erewrite run_bind by done.
  erewrite run_bind.
  2:{ apply find_loop_run; [|done|].
      - destruct Ho as [? ? ?]. by split.
      - intros o Hin. destruct (co_class _ _ Ho cls o Hin) as (ob & E & _). cbn. eauto. }
  destruct (critical_section s Hs Hl Hc) as (s1 & Hrun & Hs1 & Hstep).
  rewrite (run_bind _ _ _ _ _ Hrun). exists s1. eauto using sched_step_oinv.
Qed.

(** ** Witnesses *)

(** Two semaphores, "kb" (3) and "seq" (4). *)
Definition demo_objs : kst :=
  set_k_cont (<[RT_Object_Class_Semaphore := [4%positive; 3%positive]]> ∅)
    (set_k_objs (<[3%positive := Object (rt_strncpy [107; 98] 8) 130 0]>
       (<[4%positive := Object (rt_strncpy [115; 101; 113] 8) 2 0]> ∅)) demo_sched).

Lemma demo_objs_ok : oinv demo_objs.
Proof.
  split.
  - intros c. unfold objects_of. cbn. destruct (decide (RT_Object_Class_Semaphore = c)) as [<-|].
    + rewrite lookup_insert_eq. by apply (bool_decide_unpack _).
    + rewrite lookup_insert_ne by done. constructor.
  - intros c o. unfold objects_of. cbn. destruct (decide (RT_Object_Class_Semaphore = c)) as [<-|].
    + rewrite lookup_insert_eq. cbn. rewrite !elem_of_cons. intros [->|[->|H]]; [by eexists..|].
      by apply not_elem_of_nil in H.
    + rewrite lookup_insert_ne by done. intros H. by apply not_elem_of_nil in H.
  - intros o ob. cbn. rewrite !lookup_insert_Some.
    intros [[_ <-]|[_ [[_ <-]|[_ H]]]]; [exists [107; 98]|exists [115; 101; 113]|by rewrite lookup_empty in H];
      (split; [repeat constructor; by unfold char_ok|done]).
Qed.

Lemma demo_objs_sinv : sinv demo_objs.
Proof. check_sinv. Qed.

Lemma rt_object_init_spec_witness : exists s' ob,
  rt_object_init 9 RT_Object_Class_Event [101] demo_objs = Ok tt s' /\
  k_objs s' !! 9%positive = Some ob /\ ob_name ob = [101; 0; 0; 0; 0; 0; 0; 0].
Proof.
  pose proof (rt_object_init_spec demo_objs 9 RT_Object_Class_Event [101] demo_objs_sinv demo_objs_ok
    ltac:(by vm_compute) ltac:(by apply (bool_decide_unpack _); vm_compute)
    ltac:(repeat constructor; by unfold char_ok)) as H.
  rewrite decide_False in H by (apply (bool_decide_unpack _); by vm_compute).
  destruct H as (s' & ob & Hrun & _ & _ & _ & Hobj & _ & _ & Hname).
  - intros c. apply (proj1 (in_container_false _ _)). by vm_compute.
  - exists s', ob. split; [done|]. rewrite Hobj, lookup_insert_eq. split; [done|by rewrite Hname].
Defined.

Lemma rt_object_find_spec_witness : exists s',
  rt_object_find [107; 98] RT_Object_Class_Semaphore demo_objs = Ok (Some 3%positive) s'.
Proof.
  destruct (rt_object_find_spec demo_objs RT_Object_Class_Semaphore [107; 98] demo_objs_sinv demo_objs_ok)
    as (s' & Hrun & _); [by vm_compute|done|by apply (bool_decide_unpack _); vm_compute|
      repeat constructor; by unfold char_ok|].
  exists s'. exact Hrun.
Defined.
