(* ===== verification/Proc.v ===== *)
(** * Threads of control: code that can be interrupted or can block

    A [proc A] is C code as a sequence of atomic sections: [Sec m k] runs the
    section [m] (code with interrupts disabled, or one call of the scheduler)
    and goes on with [k]; between two sections a tick interrupt or, if the
    scheduler chose another thread, any other thread can run.  [Iter] is a
    [while] loop, [inl] going round again and [inr] leaving it.  [step] runs
    one section; [exec] runs a process without interference, with fuel. *)
From S2P Require Import Prelude KState.

Inductive proc : Type -> Type :=
| Ret {A} (a : A) : proc A
| Sec {A X} (m : K X) (k : X -> proc A) : proc A
| Iter {A X Y} (body : X -> proc (X + Y)) (x : X) (k : Y -> proc A) : proc A.

Fixpoint pbind {A B} (p : proc A) : (A -> proc B) -> proc B :=
  match p in proc A return (A -> proc B) -> proc B with
  | Ret a => fun f => f a
  | Sec m k => fun f => Sec m (fun x => pbind (k x) f)
  | Iter body x k => fun f => Iter body x (fun y => pbind (k y) f)
  end.

(** One section, as a process. *)
Definition atomic {A} (m : K A) : proc A := Sec m Ret.

Declare Scope proc_scope.
Delimit Scope proc_scope with proc.
Notation "x <~ p ; q" := (pbind p (fun x => q%proc))
  (at level 20, p at level 100, q at level 200, right associativity) : proc_scope.
Notation "p ~; q" := (pbind p (fun _ => q%proc))
  (at level 100, q at level 200, right associativity) : proc_scope.

(** [while (1) body], with the state of the loop's variables. *)
Definition loop {X Y} (body : X -> proc (X + Y)) (x : X) : proc Y := Iter body x Ret.

(** One section of a process (unfolding a loop is not a step). *)
Fixpoint unfold_step {A} (fuel : nat) (p : proc A) : K (proc A) :=
  match fuel with
  | O => kfail OutOfFuel
  | S fuel =>
      match p in proc A return K (proc A) with
      | Ret a => mret (Ret a)
      | Sec m k => fun s => match m s with Ok x s' => Ok (k x) s' | Fail e => Fail e end
      | @Iter A X Y body x k =>
          unfold_step fuel
            (pbind (body x) (fun r : X + Y => match r with inl x' => Iter body x' k | inr y => k y end))
      end
  end.

(** A run without interference to the end. *)
Fixpoint exec {A} (fuel : nat) (p : proc A) : K A :=
  match fuel with
  | O => kfail OutOfFuel
  | S fuel =>
      match p in proc A return K A with
      | Ret a => mret a
      | Sec m k => fun s => match m s with Ok x s' => exec fuel (k x) s' | Fail e => Fail e end
      | @Iter A X Y body x k =>
          exec fuel
            (pbind (body x) (fun r : X + Y => match r with inl x' => Iter body x' k | inr y => k y end))
      end
  end.

(** One section; loops of this program start with a section, directly or one
    loop deeper. *)
Definition step {A} (p : proc A) : K (proc A) := unfold_step 3 p.

Fixpoint steps {A} (n : nat) (p : proc A) : K (proc A) :=
  match n with
  | O => mret p
  | S n => p' ← step p; steps n p'
  end.

Lemma step_sec {A X} (m : K X) (k : X -> proc A) s x s' :
  m s = Ok x s' -> step (Sec m k) s = Ok (k x) s'.
Proof. intros H. unfold step. cbn. by rewrite H. Qed.

(** The form that names the result [x] of the section. *)
Lemma step_to {A X} (m : K X) (k : X -> proc A) s x s' p :
  m s = Ok x s' -> k x = p -> step (Sec m k) s = Ok p s'.
Proof. intros H <-. by apply step_sec. Qed.
Ltac step_to x := eapply (step_to _ _ _ x); [|try reflexivity].

Lemma step_loop {A X Y Z} (m : K Z) (k : Z -> proc (X + Y)) (body : X -> proc (X + Y)) x (f : Y -> proc A) s z s' :
  body x = Sec m k -> m s = Ok z s' ->
  step (Iter body x f) s =
  Ok (pbind (k z) (fun r => match r with inl x' => Iter body x' f | inr y => f y end)) s'.
Proof. intros Hb H. unfold step. cbn. rewrite Hb. cbn. by rewrite H. Qed.

Lemma steps_S {A} n (p p' : proc A) s s' : step p s = Ok p' s' -> steps (S n) p s = steps n p' s'.
Proof. intros H. cbn [steps]. by rewrite (run_bind _ _ _ _ _ H). Qed.
