(* ===== verification/Thread.v ===== *)
(** * Threads (rt-thread/src/thread.c, and the defunct queue of idle.c)

    A thread's record, its object header and its embedded timer live at the
    addresses [t], [t] and [thread_timer t].  Functions that wait are
    processes, cut where the code enables interrupts or calls [rt_schedule];
    the code after [rt_schedule()] is the section the thread runs when it is
    current again.  [RT_KERNEL_MALLOC] results are arguments; the stack's
    contents and the saved stack pointer are not modelled.

    [kinv] is the invariant of scheduler, timers and threads together; the
    operations of this file keep it, the timeout function never meets its
    assertions, and a tick makes exactly the threads ready whose timers are
    due. *)
From Stdlib Require Import Sorting.Sorted.
From S2P Require Import Prelude KState Scheduler Object Timer Proc.

(** Calling a thread's [cleanup] function. *)
Class CleanupCall := call_cleanup : positive -> ptr -> K unit.

(** [rt_thread_self()] asserted not to be [RT_NULL]. *)
Definition self_assert : K ptr :=
  c ← rt_thread_self;
  match c with Some t => mret t | None => kfail AssertFail end.

Definition assert_thread (thread : ptr) : K unit := assert_type thread RT_Object_Class_Thread.

(** ** Suspend, resume, timeout *)
Definition rt_thread_suspend (thread : ptr) : K Z :=
  assert_thread thread;;
  th ← get_thread thread;
  let stat := state_of th in
  if negb (stat =? RT_THREAD_READY) && negb (stat =? RT_THREAD_RUNNING) then mret (- RT_ERROR)
  else
    cur ← rt_thread_self;
    (if stat =? RT_THREAD_RUNNING then RT_ASSERT (bool_decide (cur = Some thread)) else mret tt);;
    rt_schedule_remove_thread thread;;
    th ← get_thread thread;
    put_thread thread (with_state RT_THREAD_SUSPEND th);;
    rt_timer_stop (thread_timer thread);;
    mret RT_EOK.

Definition rt_thread_resume (thread : ptr) : K Z :=
  assert_thread thread;;
  th ← get_thread thread;
  if negb (state_of th =? RT_THREAD_SUSPEND) then mret (- RT_ERROR)
  else
    dequeue_node thread;;
    rt_timer_stop (thread_timer thread);;
    rt_schedule_insert_thread thread;;
    mret RT_EOK.

Definition rt_thread_timeout (thread : ptr) : K unit :=
  th ← get_thread thread;
  RT_ASSERT (state_of th =? RT_THREAD_SUSPEND);;
  assert_thread thread;;
  put_thread thread (set_th_error (- RT_ETIMEOUT) th);;
  dequeue_node thread;;
  rt_schedule_insert_thread thread;;
  rt_schedule.

(** ** Creation *)
Definition zero_thread : rt_thread := Thread 0 0 0 0 0 0 0 0 0 0 0 0 0 None 0.

(** [rt_list_init(&thread->tlist)]: the node must not be in a list. *)
Definition thread_node_init (t : ptr) : K unit := fun s =>
  if linked t (k_qs s) then Fail BadPtr else Ok tt s.

Definition _rt_thread_init (thread : ptr) (name : list Z) (entry parameter stack_start stack_size
    priority tick : Z) : K Z :=
  thread_node_init thread;;
  RT_ASSERT (priority <? RT_THREAD_PRIORITY_MAX);;
  old ← gets (fun s => default zero_thread (k_threads s !! thread));
  put_thread thread
    (Thread entry parameter stack_start stack_size RT_EOK RT_THREAD_INIT priority priority 0
       (th_event_set old) (th_event_info old) tick tick None 0);;
  rt_timer_init (thread_timer thread) name rt_thread_timeout_func thread 0 RT_TIMER_FLAG_ONE_SHOT;;
  mret RT_EOK.

Definition rt_thread_init (thread : ptr) (name : list Z) (entry parameter stack_start stack_size
    priority tick : Z) : K Z :=
  rt_object_init thread RT_Object_Class_Thread name;;
  _rt_thread_init thread name entry parameter stack_start stack_size priority tick.

Definition rt_thread_create (name : list Z) (entry parameter stack_size priority tick : Z)
    (mem : option ptr) (stack : option Z) : K (option ptr) :=
  thread ← rt_object_allocate RT_Object_Class_Thread name mem;
  match thread with
  | None => mret None
  | Some thread =>
      put_thread thread zero_thread;;
      match stack with
      | None => rt_object_delete thread;; mret None
      | Some stack_start =>
          _rt_thread_init thread name entry parameter stack_start stack_size priority tick;;
          mret (Some thread)
      end
  end.

Definition rt_thread_startup (thread : ptr) : K Z :=
  th ← get_thread thread;
  RT_ASSERT (state_of th =? RT_THREAD_INIT);;
  assert_thread thread;;
  put_thread thread (set_th_stat RT_THREAD_SUSPEND
    (set_th_number_mask (u32 (Z.shiftl 1 (th_init_priority th)))
      (set_th_current_priority (th_init_priority th) th)));;
  rt_thread_resume thread;;
  cur ← rt_thread_self;
  (if bool_decide (is_Some cur) then rt_schedule else mret tt);;
  mret RT_EOK.

(** ** The defunct queue (idle.c) *)
Definition rt_thread_defunct_enqueue (thread : ptr) : K unit := enqueue_front QDefunct thread.

Definition rt_thread_defunct_dequeue : K (option ptr) :=
  l ← gets (fun s => getq (k_qs s) QDefunct);
  match l with
  | [] => mret None
  | thread :: _ => dequeue_node thread;; mret (Some thread)
  end.

(** ** Exit, detach, delete *)
Section cleanup.
Context `{CleanupCall}.

Definition _rt_thread_cleanup_execute (thread : ptr) : K unit :=
  th ← get_thread thread;
  match th_cleanup th with Some f => call_cleanup f thread | None => mret tt end.

Definition set_stat (thread : ptr) (v : Z) : K unit :=
  th ← get_thread thread; put_thread thread (set_th_stat v th).

Definition _rt_thread_exit : K unit :=
  thread ← self;
  _rt_thread_cleanup_execute thread;;
  rt_schedule_remove_thread thread;;
  set_stat thread RT_THREAD_CLOSE;;
  rt_timer_detach (thread_timer thread);;
  sys ← rt_object_is_systemobject thread;
  (if sys : bool then rt_object_detach thread else rt_thread_defunct_enqueue thread);;
  rt_schedule.

Definition rt_thread_detach (thread : ptr) : K Z :=
  assert_thread thread;;
  sys ← rt_object_is_systemobject thread; RT_ASSERT sys;;
  th ← get_thread thread;
  if state_of th =? RT_THREAD_CLOSE then mret RT_EOK
  else
    (if negb (state_of th =? RT_THREAD_INIT) then rt_schedule_remove_thread thread else mret tt);;
    _rt_thread_cleanup_execute thread;;
    rt_timer_detach (thread_timer thread);;
    set_stat thread RT_THREAD_CLOSE;;
    sys ← rt_object_is_systemobject thread;
    (if sys : bool then rt_object_detach thread else rt_thread_defunct_enqueue thread);;
    mret RT_EOK.

Definition rt_thread_delete (thread : ptr) : K Z :=
  assert_thread thread;;
  sys ← rt_object_is_systemobject thread; RT_ASSERT (negb sys);;
  th ← get_thread thread;
  if state_of th =? RT_THREAD_CLOSE then mret RT_EOK
  else
    (if negb (state_of th =? RT_THREAD_INIT) then rt_schedule_remove_thread thread else mret tt);;
    _rt_thread_cleanup_execute thread;;
    rt_timer_detach (thread_timer thread);;
    set_stat thread RT_THREAD_CLOSE;;
    rt_thread_defunct_enqueue thread;;
    mret RT_EOK.

(** One round of [rt_defunct_execute]: was a thread reclaimed? *)
Definition defunct_execute_one : K bool :=
  RT_DEBUG_NOT_IN_INTERRUPT;;
  thread ← rt_thread_defunct_dequeue;
  match thread with
  | None => mret false
  | Some thread =>
      _rt_thread_cleanup_execute thread;;
      sys ← rt_object_is_systemobject thread;
      (if sys : bool then rt_object_detach thread else rt_object_delete thread);;
      mret true
  end.
Definition rt_defunct_execute : proc unit :=
  loop (fun _ : unit => r <~ atomic defunct_execute_one; Ret (if r : bool then inl tt else inr tt))%proc tt.

(** ** Control *)
Inductive thread_cmd := RT_THREAD_CTRL_CHANGE_PRIORITY (prio : Z) | RT_THREAD_CTRL_STARTUP
  | RT_THREAD_CTRL_CLOSE | thread_ctrl_other (cmd : Z).

Definition set_priority (v : Z) (th : rt_thread) : rt_thread :=
  set_th_number_mask (u32 (Z.shiftl 1 v)) (set_th_current_priority v th).

Definition rt_thread_control (thread : ptr) (cmd : thread_cmd) : K Z :=
  assert_thread thread;;
  match cmd with
  | RT_THREAD_CTRL_CHANGE_PRIORITY prio =>
      th ← get_thread thread;
      (if state_of th =? RT_THREAD_READY then
         rt_schedule_remove_thread thread;;
         put_thread thread (set_priority prio th);;
         rt_schedule_insert_thread thread
       else put_thread thread (set_priority prio th));;
      mret RT_EOK
  | RT_THREAD_CTRL_STARTUP => rt_thread_startup thread
  | RT_THREAD_CTRL_CLOSE =>
      sys ← rt_object_is_systemobject thread;
      r ← (if sys : bool then rt_thread_detach thread else rt_thread_delete thread);
      rt_schedule;;
      mret r
  | thread_ctrl_other _ => mret RT_EOK
  end.
End cleanup.

(** ** Giving up the processor *)
Definition rt_thread_yield : K Z :=
  thread ← self;
  th ← get_thread thread;
  put_thread thread (set_th_stat (Z.lor (th_stat th) RT_THREAD_STAT_YIELD)
                       (set_th_remaining_tick (th_init_tick th) th));;
  rt_schedule;;
  mret RT_EOK.

(** [rt_timer_control(SET_TIME); rt_timer_start] of the thread's own timer *)
Definition start_thread_timer (thread : ptr) (tick : Z) : K unit :=
  rt_timer_control (thread_timer thread) RT_TIMER_CTRL_SET_TIME tick;;
  rt_timer_start (thread_timer thread);;
  mret tt.

Definition clear_timeout_error (thread : ptr) : K unit :=
  th ← get_thread thread;
  if th_error th =? - RT_ETIMEOUT then put_thread thread (set_th_error RT_EOK th) else mret tt.

Definition rt_thread_sleep (tick : Z) : proc Z :=
  (thread <~ atomic (thread ← self_assert; assert_thread thread;;
                     rt_thread_suspend thread;; start_thread_timer thread tick;; mret thread);
   atomic rt_schedule ~;
   atomic (clear_timeout_error thread) ~;
   Ret RT_EOK)%proc.

Definition rt_thread_delay (tick : Z) : proc Z := rt_thread_sleep tick.

(** [tick] is the word behind the pointer; the result pairs the return value
    with that word afterwards. *)
Definition delay_until_section (tick inc_tick : Z) : K (option ptr * Z) :=
  thread ← self_assert; assert_thread thread;;
  cur_tick ← rt_tick_get;
  if u32 (cur_tick - tick) <? inc_tick then
    let tick' := u32 (tick + inc_tick) in
    let left_tick := u32 (tick' - cur_tick) in
    rt_thread_suspend thread;;
    start_thread_timer thread left_tick;;
    mret (Some thread, tick')
  else mret (None, cur_tick).
Definition rt_thread_delay_until (tick inc_tick : Z) : proc (Z * Z) :=
  (r <~ atomic (delay_until_section tick inc_tick);
   match r with
   | (Some thread, tick') =>
       (atomic rt_schedule ~; atomic (clear_timeout_error thread) ~; Ret (RT_EOK, tick'))%proc
   | (None, tick') => Ret (RT_EOK, tick')
   end)%proc.

Definition rt_thread_mdelay (ms : Z) : proc Z := rt_thread_sleep (rt_tick_from_millisecond ms).

Definition rt_thread_find (name : list Z) : K (option ptr) := rt_object_find name RT_Object_Class_Thread.

(** The functions of timers: thread timers call [rt_thread_timeout];
    application timers are supplied from outside. *)
#[export] Instance thread_timeouts (app : positive -> ptr -> K unit) : TimeoutCall := fun f p =>
  match f with rt_thread_timeout_func => rt_thread_timeout p | app_func n => app n p end.

(** ** The kernel invariant, with timer distances seen from [b] *)
Record kinv_at (b : Z) (s : kst) : Prop := {
  ki_sched : sinv s;
  ki_timer : tinv_at b s;
  ki_object t th : k_threads s !! t = Some th -> state_of th <> RT_THREAD_CLOSE ->
    exists ob, k_objs s !! t = Some ob /\ ob_class ob = RT_Object_Class_Thread;
  ki_own t th : k_threads s !! t = Some th -> state_of th <> RT_THREAD_CLOSE ->
    exists tm ob, k_timers s !! thread_timer t = Some tm /\
      tm_timeout_func tm = rt_thread_timeout_func /\ tm_parameter tm = t /\
      is_timer (k_objs s) (thread_timer t) ob /\ periodic ob = false;
  ki_waits p : p ∈ k_tlist s -> exists t th, p = thread_timer t /\
    k_threads s !! t = Some th /\ state_of th = RT_THREAD_SUSPEND;
  ki_tick : 0 <= k_tick s < 2 ^ 32
}.
Definition kinv (s : kst) : Prop := kinv_at (k_tick s) s.

Lemma thread_timer_inj t t' : thread_timer t = thread_timer t' -> t = t'.
Proof. by intros [= ->]. Qed.

(** ** What the thread operations leave alone *)

(** The parts no thread operation touches, and object headers up to the flags
    of timers. *)
Definition kernel_rest (s : kst) : kst :=
  set_k_cur None (set_k_curprio 0 (set_k_group 0 (set_k_qs ∅ (set_k_threads ∅ (set_k_objs ∅
    (set_k_timers ∅ (set_k_tlist [] (set_k_tlocal [] (set_k_random 0 s))))))))).

Definition objs_step (o o' : gmap ptr rt_object) : Prop :=
  forall p, match o !! p with
            | Some ob => exists v, o' !! p = Some (set_ob_flag v ob) /\
                           (ob_class ob <> RT_Object_Class_Timer -> v = ob_flag ob)
            | None => o' !! p = None
            end.

Record kstep (s s' : kst) : Prop := {
  ks_rest : kernel_rest s' = kernel_rest s;
  ks_objs : objs_step (k_objs s) (k_objs s')
}.

Lemma set_flag_same ob : set_ob_flag (ob_flag ob) ob = ob.
Proof. by destruct ob. Qed.

Lemma objs_step_refl o : objs_step o o.
Proof. intros p. destruct (o !! p) as [ob|]; [|done]. exists (ob_flag ob). by rewrite set_flag_same. Qed.

Lemma objs_step_trans a b c : objs_step a b -> objs_step b c -> objs_step a c.
Proof.
  intros H1 H2 p. specialize (H1 p). specialize (H2 p). destruct (a !! p) as [ob|].
  - destruct H1 as (v & E & H1). rewrite E in H2. destruct H2 as (v' & E' & H2).
    exists v'. split; [done|]. intros Hc. rewrite (H2 Hc). by apply H1.
  - by rewrite H1 in H2.
Qed.

Lemma objs_step_flag o p ob v : o !! p = Some ob -> ob_class ob = RT_Object_Class_Timer ->
  objs_step o (<[p := set_ob_flag v ob]> o).
Proof.
  intros Hp Hc x. destruct (decide (p = x)) as [<-|].
  - rewrite Hp, lookup_insert_eq. exists v. by split.
  - rewrite lookup_insert_ne by done. apply objs_step_refl.
Qed.

Lemma kstep_refl s : kstep s s.
Proof. split; [done|apply objs_step_refl]. Qed.
Lemma kstep_trans a b c : kstep a b -> kstep b c -> kstep a c.
Proof. intros [F1 O1] [F2 O2]. split; [by rewrite F2|by eapply objs_step_trans]. Qed.

Lemma sched_frame_kstep s s' : sched_frame s s' -> kstep s s'.
Proof.
  intros H. split.
  - exact (f_equal (fun x => set_k_objs ∅ (set_k_timers ∅ (set_k_tlist [] (set_k_tlocal [] (set_k_random 0 x))))) H).
  - rewrite (fr_objs H). apply objs_step_refl.
Qed.

Section kstep_facts.
Context {s s' : kst} (H : kstep s s').
Lemma ks_tick : k_tick s' = k_tick s. Proof. exact (f_equal k_tick (ks_rest _ _ H)). Qed.
Lemma ks_nest : k_nest s' = k_nest s. Proof. exact (f_equal k_nest (ks_rest _ _ H)). Qed.
Lemma ks_lock : k_lock s' = k_lock s. Proof. exact (f_equal k_lock (ks_rest _ _ H)). Qed.
Lemma ks_cont : k_cont s' = k_cont s. Proof. exact (f_equal k_cont (ks_rest _ _ H)). Qed.
Lemma ks_sems : k_sems s' = k_sems s. Proof. exact (f_equal k_sems (ks_rest _ _ H)). Qed.
Lemma ks_mutexes : k_mutexes s' = k_mutexes s. Proof. exact (f_equal k_mutexes (ks_rest _ _ H)). Qed.
Lemma ks_events : k_events s' = k_events s. Proof. exact (f_equal k_events (ks_rest _ _ H)). Qed.
Lemma ks_mbs : k_mbs s' = k_mbs s. Proof. exact (f_equal k_mbs (ks_rest _ _ H)). Qed.
Lemma ks_mqs : k_mqs s' = k_mqs s. Proof. exact (f_equal k_mqs (ks_rest _ _ H)). Qed.
Lemma ks_mem : k_mem s' = k_mem s. Proof. exact (f_equal k_mem (ks_rest _ _ H)). Qed.
Lemma ks_drv : k_drv s' = k_drv s. Proof. exact (f_equal k_drv (ks_rest _ _ H)). Qed.
Lemma ks_obj o ob : k_objs s !! o = Some ob -> ob_class ob <> RT_Object_Class_Timer ->
  k_objs s' !! o = Some ob.
Proof.
  intros Ho Hc. pose proof (ks_objs _ _ H o) as Hx. rewrite Ho in Hx. destruct Hx as (v & E & Hv).
  by rewrite E, (Hv Hc), set_flag_same.
Qed.
End kstep_facts.

(** ** Keeping the invariant *)

(** A scheduler step (or any change with its effect on threads) keeps it. *)
Lemma kinv_sched_step b s s' : kinv_at b s -> sched_step s s' -> sinv s' -> kinv_at b s'.
Proof.
  intros [Hs [Hnd Hso Hin Hac] Hob Hown Hw Ht] H Hs'. pose proof (ss_frame _ _ H) as F.
  assert (Hback : forall t th', k_threads s' !! t = Some th' ->
    exists th, k_threads s !! t = Some th /\ same_but_stat th th').
  { intros t th' E. pose proof (ss_threads _ _ H t) as X. destruct (k_threads s !! t); [|congruence].
    destruct X as (? & E' & ?). rewrite E in E'. injection E' as <-. eauto. }
  assert (Hclose : forall th th', same_but_stat th th' -> state_of th' <> RT_THREAD_CLOSE ->
    state_of th <> RT_THREAD_CLOSE).
  { intros th th' (_ & _ & X) Hc E. rewrite X in Hc; [done|]. unfold runnable. rewrite E. by intros [?|?]. }
  split.
  - done.
  - split; rewrite ?(fr_tlist F), ?(fr_timers F), ?(fr_objs F); done.
  - intros t th' E Hc. destruct (Hback _ _ E) as (th & E' & X). rewrite (fr_objs F). eauto.
  - intros t th' E Hc. destruct (Hback _ _ E) as (th & E' & X). rewrite (fr_objs F), (fr_timers F). eauto.
  - intros p. rewrite (fr_tlist F). intros Hp. destruct (Hw p Hp) as (t & th & -> & E & Hst).
    exists t, th. split; [done|]. split; [|done]. pose proof (ss_threads _ _ H t) as X. rewrite E in X.
    destruct X as (th' & -> & _ & _ & X). rewrite X; [done|]. unfold runnable. rewrite Hst. by intros [?|?].
  - by rewrite (fr_tick F).
Qed.

(** A thread that is not suspended has no active timer. *)
Lemma own_timer_idle b s t th ob : kinv_at b s -> k_threads s !! t = Some th ->
  state_of th <> RT_THREAD_SUSPEND -> is_timer (k_objs s) (thread_timer t) ob -> active ob = false.
Proof.
  intros Hk Ht Hst Hob. destruct (active ob) eqn:Ha; [|done]. exfalso.
  pose proof (ti_active _ _ (ki_timer _ _ Hk) _ _ Hob Ha) as Hin.
  destruct (ki_waits _ _ Hk _ Hin) as (t' & th' & E & Ht' & Hst'). apply thread_timer_inj in E as <-. congruence.
Qed.

(** A change of thread records that keeps suspended threads with an active
    timer suspended and closed threads closed. *)
Lemma kinv_threads b s s' :
  kinv_at b s -> sinv s' -> k_timers s' = k_timers s -> k_objs s' = k_objs s ->
  k_tlist s' = k_tlist s -> k_tick s' = k_tick s ->
  (forall t th', k_threads s' !! t = Some th' -> state_of th' <> RT_THREAD_CLOSE ->
     exists th, k_threads s !! t = Some th /\ state_of th <> RT_THREAD_CLOSE) ->
  (forall t th, k_threads s !! t = Some th -> state_of th = RT_THREAD_SUSPEND ->
     thread_timer t ∈ k_tlist s ->
     exists th', k_threads s' !! t = Some th' /\ state_of th' = RT_THREAD_SUSPEND) ->
  kinv_at b s'.
Proof.
  intros [Hs [Hnd Hso Hin Hac] Hob Hown Hw Ht] Hs' Em Eo El Et Hback Hfw. split.
  - done.
  - split; rewrite ?El, ?Em, ?Eo; done.
  - intros t th' E Hc. destruct (Hback _ _ E Hc) as (th & E' & X). rewrite Eo. eauto.
  - intros t th' E Hc. destruct (Hback _ _ E Hc) as (th & E' & X). rewrite Eo, Em. eauto.
  - intros p. rewrite El. intros Hp. destruct (Hw p Hp) as (t & th & -> & E & Hst).
    destruct (Hfw _ _ E Hst Hp) as (th' & ? & ?). eauto.
  - by rewrite Et.
Qed.

(** The invariant does not look at anything else. *)
Lemma kinv_ext b s s' :
  kinv_at b s -> k_cur s' = k_cur s -> k_group s' = k_group s -> k_qs s' = k_qs s ->
  k_threads s' = k_threads s -> k_objs s' = k_objs s -> k_timers s' = k_timers s ->
  k_tlist s' = k_tlist s -> 0 <= k_tick s' < 2 ^ 32 -> kinv_at b s'.
Proof.
  intros [Hs [Hnd Hso Hin Hac] Hob Hown Hw Ht] E1 E2 E3 E4 E5 E6 E7 E8. split.
  - unfold sinv, rinv. by rewrite E1, E2, E3, E4.
  - split; rewrite ?E5, ?E6, ?E7; done.
  - by rewrite E4, E5.
  - by rewrite E4, E5, E6.
  - by rewrite E4, E7.
  - done.
Qed.

Lemma cur_ok_set c ths t th' :
  cur_ok c ths -> state_of th' <> RT_THREAD_READY -> state_of th' <> RT_THREAD_INIT ->
  (state_of th' = RT_THREAD_RUNNING -> c = Some t) -> cur_ok c (<[t := th']> ths).
Proof.
  intros [H1 H2] Hr Hi Hc. split.
  - intros x Hx. destruct (decide (x = t)) as [->|Hne].
    + rewrite lookup_insert_eq. eauto.
    + rewrite lookup_insert_ne by done. auto.
  - intros x thx. rewrite lookup_insert_Some. intros [[<- <-]|[_ Hx]]; [done|by eapply H2].
Qed.

Lemma cur_ok_other c ths t th' :
  cur_ok c ths -> c <> Some t -> state_of th' <> RT_THREAD_RUNNING -> cur_ok c (<[t := th']> ths).
Proof.
  intros [H1 H2] Hne Hr. split.
  - intros x Hx. rewrite lookup_insert_ne by congruence. auto.
  - intros x thx. rewrite lookup_insert_Some. intros [[<- <-]|[_ Hx]]; [done|by eapply H2].
Qed.

(** ** Suspending *)
Definition suspended (t : ptr) (th : rt_thread) (s : kst) : kst :=
  set_k_threads (<[t := with_state RT_THREAD_SUSPEND th]> (k_threads s)) (removed t th s).

Lemma frame_suspended t th s : sched_frame s (suspended t th s).
Proof. unfold suspended, sched_frame. by rewrite <- (frame_removed t th s). Qed.

Lemma mask_of_started th : thread_wf th -> state_of th <> RT_THREAD_INIT -> state_of th <> RT_THREAD_CLOSE ->
  th_number_mask th = 2 ^ th_current_priority th.
Proof. intros (_ & _ & _ & [|[_ [|]]]); tauto. Qed.

Lemma runnable_mask th : thread_wf th -> runnable th -> th_number_mask th = 2 ^ th_current_priority th.
Proof. intros Hw [E|E]; apply mask_of_started; rewrite ?E; done. Qed.

Lemma suspended_ok b s t th : kinv_at b s -> k_threads s !! t = Some th -> runnable th ->
  kinv_at b (suspended t th s) /\ kstep s (suspended t th s).
Proof.
  intros Hk Ht Hr. pose proof (ki_sched _ _ Hk) as [Hs Hc].
  pose proof (ro_wf _ _ _ Hs _ _ Ht) as Hwf.
  assert (state_of (with_state RT_THREAD_SUSPEND th) = RT_THREAD_SUSPEND) as Est by (by apply state_with_state).
  split.
  - apply (kinv_threads b s); [done|split|..]; unfold suspended; cbn;
      try (unfold removed; by case_bool_decide).
    + apply rinv_leave; [done|done| |by rewrite Est].
      apply thread_wf_state; [done|done|]. right. right. by apply runnable_mask.
    + rewrite cur_removed. apply cur_ok_set; by rewrite ?Est.
    + intros x thx. rewrite lookup_insert_Some. intros [[<- <-]|[_ Hx]] Hcl; [|eauto].
      exists th. split; [done|]. destruct Hr as [E|E]; by rewrite E.
    + intros x thx Hx Hst _. destruct (decide (x = t)) as [->|]; [rewrite lookup_insert_eq|rewrite lookup_insert_ne]; eauto.
  - apply sched_frame_kstep, frame_suspended.
Qed.

Lemma rt_thread_suspend_run b s t th : kinv_at b s -> k_threads s !! t = Some th -> runnable th ->
  rt_thread_suspend t s = Ok RT_EOK (suspended t th s).
Proof.
  intros Hk Ht Hr. pose proof (ki_sched _ _ Hk) as [Hs Hc].
  assert (state_of th <> RT_THREAD_CLOSE) as Hcl by (destruct Hr as [E|E]; by rewrite E).
  destruct (ki_object _ _ Hk _ _ Ht Hcl) as (ob & Hob & Hcls).
  destruct (ki_own _ _ Hk _ _ Ht Hcl) as (tm & tob & _ & _ & _ & Htob & _).
  assert (active tob = false) as Hact.
  { eapply own_timer_idle; [done|done| |done]. destruct Hr as [E|E]; by rewrite E. }
  unfold rt_thread_suspend. erewrite run_bind by (by eapply assert_type_run).
  erewrite run_bind by (by apply get_thread_run).
  assert (negb (state_of th =? RT_THREAD_READY) && negb (state_of th =? RT_THREAD_RUNNING) = false) as ->
    by (destruct Hr as [E|E]; by rewrite E).
  unfold rt_thread_self. erewrite run_bind by done.
  assert ((if state_of th =? RT_THREAD_RUNNING then RT_ASSERT (bool_decide (k_cur s = Some t)) else mret tt) s = Ok tt s) as Ha.
  { destruct (Z.eqb_spec (state_of th) RT_THREAD_RUNNING) as [E|]; [|done].
    rewrite bool_decide_eq_true_2; [done|]. by eapply (proj2 Hc). }
  rewrite (run_bind _ _ _ _ _ Ha).
  erewrite run_bind by (eapply remove_thread_run; [done|apply (ro_wf _ _ _ Hs _ _ Ht)]).
  erewrite run_bind by (apply get_thread_run; by rewrite threads_removed).
  erewrite run_bind by done. unfold put_thread, modify. rewrite threads_removed. fold (suspended t th s).
  erewrite run_bind by (rewrite (rt_timer_stop_run _ _ tob) by (by rewrite (fr_objs (frame_suspended t th s)));
    rewrite Hact; done).
  done.
Qed.

Lemma getq_suspended s t th q :
  getq (k_qs (suspended t th s)) q = filter (fun x => x <> t) (getq (k_qs s) q).
Proof. unfold suspended. cbn. apply getq_removed. Qed.

(** ** Waking *)
Definition woken_state (c : option ptr) (t : ptr) : Z :=
  if decide (c = Some t) then RT_THREAD_RUNNING else RT_THREAD_READY.
Definition woken_q (c : option ptr) (t : ptr) (th : rt_thread) (q : qid) : list ptr :=
  if decide (c = Some t) then [] else if decide (q = QReady (th_current_priority th)) then [t] else [].

Lemma woken_state_range c t : 0 <= woken_state c t < 8.
Proof. unfold woken_state. by case_decide. Qed.
Lemma woken_runnable c t th : runnable (with_state (woken_state c t) th).
Proof.
  unfold runnable. rewrite state_with_state by apply woken_state_range.
  unfold woken_state. case_decide; [by right|by left].
Qed.

Lemma rinv_unlink s t th : rinv s -> k_threads s !! t = Some th -> state_of th <> RT_THREAD_READY ->
  rinv (set_k_qs (unlink t (k_qs s)) s).
Proof.
  intros [Hwf Hq Hg] Ht Hst. split; cbn; [done|..].
  - rewrite <- (insert_id (k_threads s) t th) by done.
    eapply (queues_ok_move _ _ t th None); [done|..|done|done]. intros q _. apply getq_unlink.
  - eapply group_ok_same; [done|]. intros p. rewrite getq_unlink, filter_id; [done|].
    intros x Hx ->. destruct (qo_fits _ _ Hq _ _ Hx) as (th' & E & Hr & _). congruence.
Qed.

(** An unlinked thread can change state to anything but ready. *)
Lemma rinv_set s t th th' :
  rinv s -> k_threads s !! t = Some th -> linked t (k_qs s) = false -> thread_wf th' ->
  state_of th' <> RT_THREAD_READY -> ready_ok (k_group s) (k_qs s) (<[t := th']> (k_threads s)).
Proof.
  intros [Hwf Hq Hg] Ht Hl Hw Hst. split; [|..|done].
  - intros x thx. rewrite lookup_insert_Some. intros [[<- <-]|[_ Hx]]; [done|by eapply Hwf].
  - eapply (queues_ok_move _ _ t th' None); [done|..|done|done]. intros q _. symmetry.
    rewrite <- getq_unlink. by apply unlink_not_linked.
Qed.

Lemma wake_run s t th :
  sinv s -> k_threads s !! t = Some th -> state_of th = RT_THREAD_SUSPEND ->
  exists s', rt_schedule_insert_thread t (set_k_qs (unlink t (k_qs s)) s) = Ok tt s' /\
    sinv s' /\ sched_frame s s' /\ k_cur s' = k_cur s /\
    k_threads s' = <[t := with_state (woken_state (k_cur s) t) th]> (k_threads s) /\
    forall q, getq (k_qs s') q = filter (fun x => x <> t) (getq (k_qs s) q) ++ woken_q (k_cur s) t th q.
Proof.
  intros [Hs Hc] Ht Hst. pose proof (ro_wf _ _ _ Hs _ _ Ht) as Hwf.
  assert (th_number_mask th = 2 ^ th_current_priority th) as Hm by (apply mask_of_started; by rewrite ?Hst).
  set (s1 := set_k_qs (unlink t (k_qs s)) s).
  assert (rinv s1) as Hs1 by (eapply rinv_unlink; [done..|by rewrite Hst]).
  unfold woken_state, woken_q. destruct (decide (k_cur s = Some t)) as [Hcur|Hcur].
  - rewrite (insert_current_run s1 t th) by done. eexists. split; [done|]. cbn. split; [split|split; [done|split; [done|split; [done|]]]].
    + apply (rinv_set s1 t th); [done|done|apply linked_unlink|by apply thread_wf_state; auto|].
      by rewrite state_with_state.
    + apply cur_ok_set; rewrite ?state_with_state; done.
    + intros q. by rewrite app_nil_r, getq_unlink.
  - rewrite (insert_thread_run s1 t th); [|done|apply Hwf|done|apply linked_unlink].
    eexists. split; [done|]. split; [split|split; [done|split; [done|split; [done|]]]].
    + by apply rinv_inserted; [..|apply linked_unlink|].
    + apply cur_ok_other; [done|done|by rewrite state_with_state].
    + intros q. cbn. rewrite getq_insert, !getq_unlink. destruct (decide (q = QReady (th_current_priority th))) as [->|Hne].
      * by rewrite bool_decide_eq_true_2.
      * by rewrite bool_decide_eq_false_2, app_nil_r by congruence.
Qed.

(** Stopping a thread's own timer. *)
Definition timer_stopped (t : ptr) (ob : rt_object) (s : kst) : kst :=
  if active ob then stopped (thread_timer t) ob s else s.

Lemma ob_class_flag v ob : ob_class (set_ob_flag v ob) = ob_class ob.
Proof. done. Qed.

Lemma stopped_ok b s t ob : kinv_at b s -> is_timer (k_objs s) (thread_timer t) ob ->
  kinv_at b (stopped (thread_timer t) ob s) /\ kstep s (stopped (thread_timer t) ob s).
Proof.
  intros [Hs Hti Hob Hown Hw Ht] Hp. destruct Hp as [Ho Hc]. split.
  - split; cbn.
    + done.
    + by apply tinv_stopped.
    + intros x thx Hx Hcl. destruct (Hob x thx Hx Hcl) as (obx & E & Ec).
      rewrite lookup_insert_ne; [eauto|]. intros E'. rewrite E' in Ho. rewrite E in Ho. injection Ho as ->.
      by rewrite Ec in Hc.
    + intros x thx Hx Hcl. destruct (Hown x thx Hx Hcl) as (tm & obx & H1 & H2 & H3 & H4 & H5).
      exists tm. destruct (decide (thread_timer t = thread_timer x)) as [E|Hne].
      * exists (deactivated ob). rewrite <- E in *. assert (obx = ob) as -> by (destruct H4; congruence).
        split; [done|split; [done|split; [done|split]]]; [by apply is_timer_deactivated|by rewrite periodic_deactivated].
      * exists obx. split; [done|split; [done|split; [done|split; [|done]]]]. by apply is_timer_insert.
    + intros p. rewrite list_elem_of_filter. intros [_ Hp]. by apply Hw.
    + done.
  - split; [done|]. cbn. by apply objs_step_flag.
Qed.

Lemma timer_stopped_ok b s t ob : kinv_at b s -> is_timer (k_objs s) (thread_timer t) ob ->
  kinv_at b (timer_stopped t ob s) /\ kstep s (timer_stopped t ob s) /\
  thread_timer t ∉ k_tlist (timer_stopped t ob s) /\
  k_tlist (timer_stopped t ob s) = filter (fun x => x <> thread_timer t) (k_tlist s).
Proof.
  intros Hk Hp. unfold timer_stopped. destruct (active ob) eqn:Ha.
  - destruct (stopped_ok b s t ob Hk Hp). split; [done|split; [done|split; [|done]]].
    cbn. rewrite list_elem_of_filter. tauto.
  - assert (thread_timer t ∉ k_tlist s) as Hni.
    { intros Hin. destruct (ti_in _ _ (ki_timer _ _ Hk) _ Hin) as (ob' & [E _] & Ha').
      destruct Hp as [E' _]. congruence. }
    split; [done|split; [apply kstep_refl|split; [done|]]].
    symmetry. apply filter_id. by intros x Hx ->.
Qed.

Lemma kinv_not_close b s t th : kinv_at b s -> k_threads s !! t = Some th -> state_of th <> RT_THREAD_CLOSE ->
  exists ob tm tob, k_objs s !! t = Some ob /\ ob_class ob = RT_Object_Class_Thread /\
    k_timers s !! thread_timer t = Some tm /\ is_timer (k_objs s) (thread_timer t) tob /\ periodic tob = false.
Proof.
  intros Hk Ht Hcl. destruct (ki_object _ _ Hk _ _ Ht Hcl) as (ob & ? & ?).
  destruct (ki_own _ _ Hk _ _ Ht Hcl) as (tm & tob & ? & ? & ? & ? & ?). eauto 10.
Qed.

(** What becomes of a woken thread [t] whose record is then [th]. *)
Record woken (t : ptr) (th : rt_thread) (s s' : kst) : Prop := {
  wk_cur : k_cur s' = k_cur s;
  wk_threads : k_threads s' = <[t := with_state (woken_state (k_cur s) t) th]> (k_threads s);
  wk_queues q : getq (k_qs s') q = filter (fun x => x <> t) (getq (k_qs s) q) ++ woken_q (k_cur s) t th q;
  wk_timers : k_timers s' = k_timers s;
  wk_tlist : k_tlist s' = filter (fun x => x <> thread_timer t) (k_tlist s)
}.

Lemma rt_thread_resume_ok b s t th :
  kinv_at b s -> k_threads s !! t = Some th -> state_of th = RT_THREAD_SUSPEND ->
  exists s', rt_thread_resume t s = Ok RT_EOK s' /\ kinv_at b s' /\ kstep s s' /\ woken t th s s'.
Proof.
  intros Hk Ht Hst. assert (state_of th <> RT_THREAD_CLOSE) as Hcl by (by rewrite Hst).
  destruct (kinv_not_close _ _ _ _ Hk Ht Hcl) as (ob & tm & tob & Hob & Hcls & Htm & Htob & Hper).
  destruct (timer_stopped_ok b s t tob Hk Htob) as (Hk1 & Hstep1 & Hni & Hl1).
  set (s1 := timer_stopped t tob s) in *.
  assert (E1 : k_threads s1 = k_threads s /\ k_qs s1 = k_qs s /\ k_cur s1 = k_cur s /\ k_timers s1 = k_timers s)
    by (unfold s1, timer_stopped; by destruct (active tob)).
  destruct E1 as (Eth & Eqs & Ecur & Etm).
  assert (k_threads s1 !! t = Some th) as Ht1 by (by rewrite Eth).
  destruct (wake_run s1 t th (ki_sched _ _ Hk1) Ht1 Hst) as (s2 & Hrun & Hs2 & Hf2 & Hc2 & Hth2 & Hq2).
  exists s2. split; [|split; [|split]].
  - unfold rt_thread_resume. erewrite run_bind by (by eapply assert_type_run).
    erewrite run_bind by (by apply get_thread_run). rewrite Hst. cbn [Z.eqb negb]. change (negb _) with false. cbv iota.
    erewrite run_bind by done.
    erewrite (run_bind _ _ _ (if active tob then RT_EOK else - RT_ERROR) (set_k_qs (unlink t (k_qs s1)) s1)).
    2:{ rewrite (rt_timer_stop_run _ _ tob) by exact Htob. unfold s1, timer_stopped. by destruct (active tob). }
    rewrite (run_bind _ _ _ _ _ Hrun). done.
  - apply (kinv_threads b s1); [done|done|apply (fr_timers Hf2)|apply (fr_objs Hf2)|apply (fr_tlist Hf2)|apply (fr_tick Hf2)|..].
    + rewrite Hth2. intros x thx. rewrite lookup_insert_Some. intros [[<- <-]|[_ Hx]] Hc; [|by eauto].
      exists th. by rewrite Hst.
    + rewrite Hth2. intros x thx Hx Hsx Hin. rewrite lookup_insert_ne by (by intros <-). eauto.
  - eapply kstep_trans; [exact Hstep1|]. by apply sched_frame_kstep.
  - split.
    + by rewrite Hc2.
    + by rewrite Hth2, Eth, Ecur.
    + intros q. by rewrite Hq2, Eqs, Ecur.
    + by rewrite (fr_timers Hf2).
    + by rewrite (fr_tlist Hf2).
Qed.

(** [rt_thread_timeout], called with the timer already out of the list, up to
    the reschedule at its end. *)
Lemma rt_thread_timeout_ok b s t th :
  kinv_at b s -> k_threads s !! t = Some th -> state_of th = RT_THREAD_SUSPEND ->
  thread_timer t ∉ k_tlist s -> is_Some (k_cur s) ->
  exists s1 s', rt_thread_timeout t s = Ok tt s' /\ kinv_at b s' /\ sched_frame s s' /\
    woken t (set_th_error (- RT_ETIMEOUT) th) s s1 /\ sched_step s1 s'.
Proof.
  intros Hk Ht Hst Hni Hcur. assert (state_of th <> RT_THREAD_CLOSE) as Hcl by (by rewrite Hst).
  destruct (ki_object _ _ Hk _ _ Ht Hcl) as (ob & Hob & Hcls).
  set (th' := set_th_error (- RT_ETIMEOUT) th). set (s0 := set_k_threads (<[t := th']> (k_threads s)) s).
  destruct (ki_sched _ _ Hk) as [Hs Hc]. pose proof (ro_wf _ _ _ Hs _ _ Ht) as Hwf.
  assert (sinv s0) as Hs0.
  { split; [by eapply ready_ok_touch|by eapply cur_ok_touch]. }
  assert (k_threads s0 !! t = Some th') as Ht0 by apply lookup_insert_eq.
  destruct (wake_run s0 t th' Hs0 Ht0 Hst) as (s1 & Hrun & Hs1 & Hf1 & Hc1 & Hth1 & Hq1).
  destruct (rt_schedule_ok s1 Hs1) as (s2 & Hrun2 & Hs2 & Hstep2); [by rewrite Hc1|].
  cbn in Hth1. rewrite insert_insert_eq in Hth1.
  assert (sched_frame s s1) as Hfs1 by (unfold sched_frame in *; by rewrite Hf1).
  assert (kinv_at b s1) as Hk1.
  { apply (kinv_threads b s); [done|done|apply (fr_timers Hfs1)|apply (fr_objs Hfs1)|apply (fr_tlist Hfs1)|apply (fr_tick Hfs1)|..].
    + rewrite Hth1. intros x thx. rewrite lookup_insert_Some. intros [[<- <-]|[_ Hx]] Hc'; [|by eauto].
      exists th. by rewrite Hst.
    + rewrite Hth1. intros x thx Hx Hsx Hin. rewrite lookup_insert_ne by (by intros <-). eauto. }
  exists s1, s2. split; [|split; [|split; [|split]]].
  - unfold rt_thread_timeout. erewrite run_bind by (by apply get_thread_run).
    erewrite run_bind by (apply assert_run; by rewrite Hst).
    erewrite run_bind by (by eapply assert_type_run).
    do 2 erewrite run_bind by done. rewrite (run_bind _ _ _ _ _ Hrun). exact Hrun2.
  - by eapply kinv_sched_step.
  - unfold sched_frame. by rewrite (ss_frame _ _ Hstep2).
  - split; [done|exact Hth1|exact Hq1|apply (fr_timers Hfs1)|].
    rewrite (fr_tlist Hfs1). symmetry. apply filter_id. by intros x Hx ->.
  - done.
Qed.

(** ** The tick *)

(** The record of thread [x] after the timers of the threads [ts] fired, up to
    the status changes of the scheduler. *)
Definition expired (ts : list ptr) (x : ptr) (th : rt_thread) : rt_thread :=
  if decide (x ∈ ts) then with_state RT_THREAD_READY (set_th_error (- RT_ETIMEOUT) th) else th.

Record fired (ts : list ptr) (s s' : kst) : Prop := {
  fd_step : kstep s s';
  fd_queues q : is_ready_q q = false -> getq (k_qs s') q = filter (fun x => x ∉ ts) (getq (k_qs s) q);
  fd_threads x : match k_threads s !! x with
                 | Some th => exists th', k_threads s' !! x = Some th' /\ same_but_stat (expired ts x th) th'
                 | None => k_threads s' !! x = None
                 end;
  fd_cur : is_Some (k_cur s) -> is_Some (k_cur s');
  fd_timers : k_timers s' = k_timers s;
  fd_switched : switched s s'
}.

Lemma filter_filter_notin (t : ptr) (ts l : list ptr) :
  filter (fun x => x ∉ ts) (filter (fun x => x ∉ [t]) l) = filter (fun x => x ∉ t :: ts) l.
Proof.
  rewrite list_filter_filter. apply list_filter_iff. intros x.
  rewrite !not_elem_of_cons. pose proof (not_elem_of_nil x). tauto.
Qed.

Lemma same_but_stat_ready th v v' :
  same_but_stat (with_state RT_THREAD_READY (set_th_stat v th)) v' -> same_but_stat (with_state RT_THREAD_READY th) v'.
Proof.
  intros (E & H1 & H2). split; [|split].
  - rewrite E. by destruct th.
  - intros _. apply H1. left. by apply state_with_state.
  - intros H. destruct H. left. by apply state_with_state.
Qed.

Lemma fired_nil s s' : sched_step s s' -> fired [] s s'.
Proof.
  intros H. split.
  - apply sched_frame_kstep, H.
  - intros q Hq. rewrite (ss_queues _ _ H q Hq). symmetry. apply filter_id. intros x _. apply not_elem_of_nil.
  - intros x. pose proof (ss_threads _ _ H x) as Hx. destruct (k_threads s !! x) as [th|]; [|done].
    destruct Hx as (th' & ? & ?). exists th'. unfold expired. by rewrite decide_False by apply not_elem_of_nil.
  - apply H.
  - by rewrite (fr_timers (ss_frame _ _ H)).
  - apply H.
Qed.

Lemma expired_runnable ts x th th' : same_but_stat (expired ts x th) th' -> runnable th -> runnable th'.
Proof.
  unfold expired. intros (_ & H & _) Hr. case_decide; [|auto]. apply H. left. by apply state_with_state.
Qed.

Lemma fired_cons t ts s s1 s' : t ∉ ts -> fired [t] s s1 -> fired ts s1 s' -> fired (t :: ts) s s'.
Proof.
  intros Ht [S1 Q1 T1 C1 M1 W1] [S2 Q2 T2 C2 M2 W2]. split; cycle -1.
  { intros x Hx. destruct (W2 x Hx) as [Hc|]; [|by right]. destruct (W1 x Hc) as [|(th & E & Hr)]; [by left|right].
    specialize (T2 x). rewrite E in T2. destruct T2 as (th2 & E2 & H2). exists th2. eauto using expired_runnable. }
  - by eapply kstep_trans.
  - intros q Hq. rewrite Q2, Q1 by done. apply filter_filter_notin.
  - intros x. specialize (T1 x). specialize (T2 x). destruct (k_threads s !! x) as [th|]; [|by rewrite T1 in T2].
    destruct T1 as (th1 & E1 & H1). rewrite E1 in T2. destruct T2 as (th2 & E2 & H2). exists th2. split; [done|].
    unfold expired in *. destruct (decide (x = t)) as [->|Hne].
    + rewrite decide_True in H1 by set_solver. rewrite decide_False in H2 by done.
      rewrite decide_True by set_solver. by eapply same_but_stat_trans.
    + rewrite decide_False in H1 by set_solver. destruct (decide (x ∈ ts)) as [Hin|Hni].
      * rewrite decide_True by set_solver. destruct H1 as (E & _ & _). rewrite E in H2.
        apply (same_but_stat_ready _ (th_stat th1)). destruct th; exact H2.
      * rewrite decide_False by set_solver. by eapply same_but_stat_trans.
  - auto.
  - by rewrite M2.
Qed.

Section fire.
Context (app : positive -> ptr -> K unit).
#[local] Existing Instance thread_timeouts.
#[local] Instance timeouts : TimeoutCall := thread_timeouts app.

Lemma fire_timer_ok b s t l :
  kinv_at b s -> k_tlist s = thread_timer t :: l -> is_Some (k_cur s) ->
  exists s', fire_timer (thread_timer t) s = Ok (k_tick s) s' /\ kinv_at b s' /\ fired [t] s s' /\
    k_tlist s' = l.
Proof.
  intros Hk Hl Hcur.
  destruct (ki_waits _ _ Hk (thread_timer t)) as (t' & th & E & Ht & Hst); [rewrite Hl; set_solver|].
  apply thread_timer_inj in E as <-. assert (state_of th <> RT_THREAD_CLOSE) as Hcl by (by rewrite Hst).
  destruct (ki_own _ _ Hk _ _ Ht Hcl) as (tm & tob & Htm & Hfun & Hpar & Htob & Hper).
  destruct (stopped_ok b s t tob Hk Htob) as [Hk1 Hstep1].
  assert (filter (fun x => x <> thread_timer t) (k_tlist s) = l) as Hfl.
  { rewrite Hl, filter_cons_False by tauto. apply filter_id. intros x Hx ->.
    pose proof (ti_nodup _ _ (ki_timer _ _ Hk)) as Hnd. rewrite Hl in Hnd. by apply NoDup_cons in Hnd as [? _]. }
  assert (Hl4 : filter (fun x => x <> thread_timer t) l = l).
  { apply filter_id. intros x Hx ->. rewrite <- Hfl in Hx. apply list_elem_of_filter in Hx. tauto. }
  set (s1 := set_k_tlocal (thread_timer t :: k_tlocal (stopped (thread_timer t) tob s)) (stopped (thread_timer t) tob s)).
  assert (kinv_at b s1) as Hk1' by (apply (kinv_ext b _ _ Hk1); try done; apply Hk).
  assert (k_objs s1 !! thread_timer t = Some (deactivated tob)) as Hob1 by (cbn; apply lookup_insert_eq).
  destruct (rt_thread_timeout_ok b s1 t th) as (s2 & s3 & Hrun & Hk3 & Hf3 & Hw & Hss); [done|done|done| |done|].
  { cbn. rewrite list_elem_of_filter. tauto. }
  assert (Hl3 : k_tlist s3 = l) by (rewrite (fr_tlist Hf3); exact Hfl).
  set (s4 := set_k_tlist l (set_k_tlocal (filter (fun x => x <> thread_timer t) (k_tlocal s3)) s3)).
  assert (kinv_at b s4) as Hk4.
  { apply (kinv_ext b _ _ Hk3); try done. apply Hk3. }
  exists s4. split; [|split; [exact Hk4|split; [|done]]].
  - unfold fire_timer. erewrite run_bind by done. erewrite run_bind by (apply obj_flag_run, Htob).
    unfold periodic in Hper. apply negb_false_iff in Hper. rewrite Hper.
    erewrite run_bind by (apply clear_activated_run, Htob). erewrite run_bind by done.
    erewrite run_bind by (by apply get_timer_run). rewrite Hfun, Hpar.
    erewrite (run_bind _ _ _ _ s3) by exact Hrun.
    unfold rt_tick_get. do 2 erewrite run_bind by done. rewrite (fr_tlocal Hf3), (fr_tick Hf3).
    cbn [k_tlocal s1 set_k_tlocal]. erewrite run_bind by done.
    erewrite run_bind by (apply obj_flag_run; cbn; rewrite (fr_objs Hf3); exact Hob1).
    fold (periodic (deactivated tob)). rewrite periodic_deactivated. unfold periodic. rewrite Hper. cbn [negb andb].
    erewrite run_bind by done. cbn. rewrite Hl3, Hl4. done.
  - assert (kstep s s3) as Hks3.
    { eapply kstep_trans; [|by apply sched_frame_kstep]. eapply kstep_trans; [exact Hstep1|].
      split; [done|apply objs_step_refl]. }
    split.
    + eapply kstep_trans; [exact Hks3|]. split; [done|apply objs_step_refl].
    + intros q Hq. cbn. rewrite (ss_queues _ _ Hss q Hq), (wk_queues _ _ _ _ Hw). cbn.
      assert (woken_q (k_cur s) t (set_th_error (- RT_ETIMEOUT) th) q = []) as ->.
      { unfold woken_q. case_decide; [done|]. case_decide; [by subst|done]. }
      rewrite app_nil_r. apply list_filter_iff. intros x. set_solver.
    + intros x. pose proof (ss_threads _ _ Hss x) as Hx. rewrite (wk_threads _ _ _ _ Hw) in Hx. cbn in Hx |- *.
      destruct (decide (x = t)) as [->|Hne].
      * rewrite lookup_insert_eq in Hx. rewrite Ht. destruct Hx as (th' & E & H). exists th'. split; [done|].
        unfold expired. rewrite decide_True by set_solver. eapply same_but_stat_trans; [|exact H].
        split; [|split].
        -- by destruct th.
        -- intros _. apply woken_runnable.
        -- intros Hn. destruct Hn. left. by apply state_with_state.
      * rewrite lookup_insert_ne in Hx by done. destruct (k_threads s !! x) as [thx|]; [|done].
        destruct Hx as (th' & E & H). exists th'. unfold expired. by rewrite decide_False by set_solver.
    + intros _. apply (ss_cur _ _ Hss). rewrite (wk_cur _ _ _ _ Hw). exact Hcur.
    + cbn. by rewrite (fr_timers Hf3).
    + intros x Hx. destruct (ss_switched _ _ Hss x Hx) as [Hc'|]; [|by right]. left. by rewrite (wk_cur _ _ _ _ Hw) in Hc'.
Qed.

(** The thread a timer of the list belongs to. *)
Definition owner (p : ptr) : ptr := match p with xI t => t | _ => p end.
Lemma owner_thread_timer t : owner (thread_timer t) = t.
Proof. done. Qed.

(** The timers that fire at the tick after [b]. *)
Definition due (b : Z) (s : kst) (p : ptr) : bool := due_in b (k_timers s) p <=? 1.
Definition due_threads (b : Z) (s : kst) : list ptr :=
  owner <$> filter (fun p => due b s p = true) (k_tlist s).

Lemma due_test b T s p tm : T = u32 (b + 1) -> k_timers s !! p = Some tm ->
  due_in b (k_timers s) p < HALF_TICK ->
  (u32 (T - tm_timeout_tick tm) <? HALF_TICK) = due b s p.
Proof.
  intros -> Htm Hd. unfold due. assert (due_in b (k_timers s) p = u32 (tm_timeout_tick tm - b)) as E
    by (unfold due_in; by rewrite Htm). rewrite E in *.
  rewrite (u32_sub (u32 (b + 1)) (tm_timeout_tick tm) b).
  assert (u32 (u32 (b + 1) - b) = 1) as ->.
  { unfold wrap. rewrite Zminus_mod_idemp_l. by replace (b + 1 - b) with 1 by lia. }
  set (d := u32 (tm_timeout_tick tm - b)) in *.
  pose proof (wrap_range 32 (tm_timeout_tick tm - b) ltac:(lia)) as R. fold d in R.
  change HALF_TICK with 2147483647 in *. change (2 ^ 32) with 4294967296 in *.
  destruct (Z.leb_spec d 1).
  - rewrite wrap_small by (change (2 ^ 32) with 4294967296; lia). apply Z.ltb_lt. lia.
  - assert (u32 (1 - d) = 1 - d + 4294967296) as ->.
    { unfold wrap. change (2 ^ 32) with 4294967296. symmetry. apply (Z.mod_unique_pos _ _ (-1)); lia. }
    apply Z.ltb_ge. lia.
Qed.

Lemma not_due_all b s p l : StronglySorted (fun x y => due_in b (k_timers s) x <= due_in b (k_timers s) y) (p :: l) ->
  due b s p = false -> filter (fun p => due b s p = true) (p :: l) = [].
Proof.
  intros Hs Hp. apply StronglySorted_inv in Hs as [_ Hs]. rewrite filter_cons_False by congruence.
  unfold due in *. apply Z.leb_gt in Hp. induction l as [|x l IH]; [done|].
  apply Forall_cons in Hs as [Hx Hs]. rewrite filter_cons_False; [by apply IH|].
  rewrite Z.leb_le. lia.
Qed.

Lemma timer_check_loop_ok b fuel s :
  kinv_at b s -> is_Some (k_cur s) -> k_tick s = u32 (b + 1) -> (length (k_tlist s) < fuel)%nat ->
  exists s', timer_check_loop fuel (k_tick s) s = Ok tt s' /\ kinv_at b s' /\ fired (due_threads b s) s s' /\
    k_tlist s' = filter (fun p => due b s p = false) (k_tlist s).
Proof.
  remember (k_tlist s) as l eqn:El. revert fuel s El.
  induction l as [|p l IH]; intros fuel s El Hk Hcur Ht Hfuel; (destruct fuel as [|fuel]; [cbn in Hfuel; lia|]).
  - exists s. unfold due_threads. rewrite <- El. cbn [timer_check_loop]. unfold gets. erewrite run_bind by done.
    rewrite <- El. split; [done|split; [done|split; [|done]]]. apply fired_nil, sched_step_refl.
  - destruct (ti_sorted _ _ (ki_timer _ _ Hk)) as [Hso Hf]. rewrite <- El in Hso, Hf.
    pose proof Hf as Hf'. apply Forall_cons in Hf' as [[[tm Htm] Hd] _].
    cbn [timer_check_loop]. erewrite run_bind by done. rewrite <- El.
    erewrite run_bind by (by apply get_timer_run). rewrite (due_test b _ s p tm) by done.
    destruct (due b s p) eqn:Edue.
    + destruct (ki_waits _ _ Hk p) as (t & th & -> & Hth & Hst); [rewrite <- El; set_solver|].
      destruct (fire_timer_ok b s t l Hk (eq_sym El) Hcur) as (s1 & Hrun & Hk1 & Hfd1 & Hl1).
      rewrite (run_bind _ _ _ _ _ Hrun).
      pose proof (ks_tick (fd_step _ _ _ Hfd1)) as Et1.
      destruct (IH fuel s1 (eq_sym Hl1) Hk1) as (s2 & Hrun2 & Hk2 & Hfd2 & Hl2).
      { by apply (fd_cur _ _ _ Hfd1). }
      { by rewrite Et1. }
      { cbn in Hfuel. lia. }
      rewrite Et1 in Hrun2. exists s2. split; [done|split; [done|split]].
      * unfold due_threads in *. rewrite <- El. rewrite Hl1 in Hfd2. rewrite filter_cons_True by done. cbn [fmap list_fmap].
        assert (filter (fun p => due b s p = true) l = filter (fun p => due b s1 p = true) l) as ->.
        { apply list_filter_iff. intros x. unfold due. by rewrite (fd_timers _ _ _ Hfd1). }
        apply (fired_cons t _ s s1 s2); [|done|done].
        rewrite list_elem_of_fmap. intros (x & Ex & Hx). apply list_elem_of_filter in Hx as [_ Hx].
        destruct (ki_waits _ _ Hk x) as (tx & _ & -> & _); [rewrite <- El; set_solver|].
        cbn in Ex. subst tx. pose proof (ti_nodup _ _ (ki_timer _ _ Hk)) as Hnd. rewrite <- El in Hnd.
        by apply NoDup_cons in Hnd as [? _].
      * rewrite Hl2, filter_cons_False by congruence. apply list_filter_iff. intros x. unfold due.
        by rewrite (fd_timers _ _ _ Hfd1).
    + exists s. split; [done|split; [done|split]].
      * unfold due_threads. rewrite <- El, (not_due_all b s p l) by done. apply fired_nil, sched_step_refl.
      * rewrite <- El. symmetry. apply filter_id. intros x Hx. destruct (due b s x) eqn:E; [|done].
        pose proof (not_due_all b s p l Hso Edue) as En.
        assert (x ∈ filter (fun p => due b s p = true) (p :: l)) as Hin by (by apply list_elem_of_filter).
        rewrite En in Hin. by apply not_elem_of_nil in Hin.
Qed.

(** After the due timers fired, the distances are seen from the new tick. *)
Lemma due_in_succ b timers p : 1 < due_in b timers p -> due_in (u32 (b + 1)) timers p = due_in b timers p - 1.
Proof.
  unfold due_in. destruct (timers !! p) as [tm|]; [|lia]. intros H.
  rewrite (u32_sub (tm_timeout_tick tm) (u32 (b + 1)) b).
  assert (u32 (u32 (b + 1) - b) = 1) as ->.
  { unfold wrap. rewrite Zminus_mod_idemp_l. by replace (b + 1 - b) with 1 by lia. }
  apply wrap_small. pose proof (wrap_range 32 (tm_timeout_tick tm - b) ltac:(lia)). lia.
Qed.

Lemma kinv_rebase b s : kinv_at b s -> k_tick s = u32 (b + 1) ->
  (forall p, p ∈ k_tlist s -> due b s p = false) -> kinv s.
Proof.
  intros [Hs [Hnd [Hso Hf] Hin Hac] Hob Hown Hw Ht] Et Hdue. unfold kinv. rewrite Et.
  assert (Hd : forall p, p ∈ k_tlist s -> due_in (u32 (b + 1)) (k_timers s) p = due_in b (k_timers s) p - 1).
  { intros p Hp. apply due_in_succ. specialize (Hdue p Hp). unfold due in Hdue. by apply Z.leb_gt in Hdue. }
  split; [done|split; [done| |done..]|done..]. split.
  - clear Hdue Hf Hnd Hin Hac Hw. induction Hso as [|x l Hso IH Hx]; [constructor|].
    constructor; [apply IH; set_solver|]. rewrite Forall_forall in *. intros y Hy.
    rewrite !Hd by set_solver. specialize (Hx y Hy). lia.
  - rewrite Forall_forall in *. intros x Hx. rewrite Hd by done. destruct (Hf x Hx). split; [done|lia].
Qed.

(** What a tick does to a thread's record: status of a runnable thread and
    time slice. *)
Definition tick_rel (th th' : rt_thread) : Prop :=
  th' = set_th_stat (th_stat th') (set_th_remaining_tick (th_remaining_tick th') th) /\
  (runnable th -> runnable th') /\ (~ runnable th -> state_of th' = state_of th).

Lemma tick_rel_trans a b c : tick_rel a b -> tick_rel b c -> tick_rel a c.
Proof.
  intros (E1 & R1 & N1) (E2 & R2 & N2). split; [|split].
  - rewrite E2, E1. by destruct a.
  - auto.
  - intros H. rewrite <- N1 by done. apply N2. unfold runnable in *. by rewrite N1.
Qed.
Lemma tick_rel_refl a : tick_rel a a.
Proof. split; [by destruct a|auto]. Qed.
Lemma tick_rel_stat a b : same_but_stat a b -> tick_rel a b.
Proof.
  intros (E & H1 & H2). split; [|split; [done|]].
  - rewrite E. by destruct a.
  - intros Hn. by rewrite H2.
Qed.

Lemma kinv_touch b s t th th' :
  kinv_at b s -> k_threads s !! t = Some th -> same_place th th' -> thread_wf th' ->
  kinv_at b (set_k_threads (<[t := th']> (k_threads s)) s).
Proof.
  intros Hk Ht [Hst Hp] Hwf. destruct (ki_sched _ _ Hk) as [Hs Hc].
  apply (kinv_threads b s); try done.
  - split; [by eapply ready_ok_touch|by eapply cur_ok_touch].
  - cbn. intros x thx. rewrite lookup_insert_Some. intros [[<- <-]|[_ Hx]] Hcl; [|eauto]. rewrite Hst in Hcl. eauto.
  - cbn. intros x thx Hx Hsx _. destruct (decide (x = t)) as [->|Hne].
    + rewrite lookup_insert_eq. exists th'. split; [done|]. rewrite Hst. congruence.
    + rewrite lookup_insert_ne by done. eauto.
Qed.

(** A tick takes one from the current thread's slice and reloads it at the end. *)
Definition next_slice (th : rt_thread) : Z :=
  let remaining := u32 (th_remaining_tick th - 1) in if remaining =? 0 then th_init_tick th else remaining.
Definition slices (t : ptr) (s s' : kst) : Prop := forall x thx thx',
  k_threads s !! x = Some thx -> k_threads s' !! x = Some thx' ->
  th_remaining_tick thx' = if decide (x = t) then next_slice thx else th_remaining_tick thx.

Lemma slices_put t th s th' : k_threads s !! t = Some th -> th_remaining_tick th' = next_slice th ->
  slices t s (set_k_threads (<[t := th']> (k_threads s)) s).
Proof.
  intros Ht E x thx thx' Hx. cbn. rewrite lookup_insert_Some. intros [[<- <-]|[Hne Hx']].
  - rewrite decide_True by done. congruence.
  - rewrite decide_False by done. congruence.
Qed.

(** Later changes of states keep the slices. *)
Lemma same_stat_slice ts x a b : same_but_stat (expired ts x a) b -> th_remaining_tick b = th_remaining_tick a.
Proof. intros (E & _). rewrite E. unfold expired. by case_decide. Qed.

(** The time slice part of [rt_tick_increase]. *)
Lemma tick_slice_ok b s t th :
  kinv_at b s -> k_cur s = Some t -> k_threads s !! t = Some th ->
  exists s', (let remaining := u32 (th_remaining_tick th - 1) in
     if remaining =? 0 then
       put_thread t (set_th_stat (Z.lor (th_stat th) RT_THREAD_STAT_YIELD)
                       (set_th_remaining_tick (th_init_tick th) th));; rt_schedule
     else put_thread t (set_th_remaining_tick remaining th)) s = Ok tt s' /\
    kinv_at b s' /\ sched_frame s s' /\ is_Some (k_cur s') /\
    (forall q, is_ready_q q = false -> getq (k_qs s') q = getq (k_qs s) q) /\
    (forall x, match k_threads s !! x with
               | Some th => exists th', k_threads s' !! x = Some th' /\ tick_rel th th'
               | None => k_threads s' !! x = None end) /\
    switched s s' /\ slices t s s'.
Proof.
  intros Hk Hcur Ht. pose proof (ro_wf _ _ _ (proj1 (ki_sched _ _ Hk)) _ _ Ht) as Hwf. cbv zeta.
  assert (Hput : forall th', tick_rel th th' -> same_place th th' -> forall x,
    match k_threads s !! x with
    | Some th => exists th'', <[t := th']> (k_threads s) !! x = Some th'' /\ tick_rel th th''
    | None => <[t := th']> (k_threads s) !! x = None end).
  { intros th' Hrel _ x. destruct (decide (x = t)) as [->|Hne].
    - rewrite Ht, lookup_insert_eq. eauto.
    - rewrite lookup_insert_ne by done. destruct (k_threads s !! x); eauto using tick_rel_refl. }
  destruct (u32 (th_remaining_tick th - 1) =? 0) eqn:Er.
  - set (th' := set_th_stat _ _). assert (th_remaining_tick th' = next_slice th) as Esl by (unfold next_slice; cbv zeta; by rewrite Er).
    assert (state_of th' = state_of th) as Est by apply state_set_yield.
    assert (tick_rel th th') as Hrel.
    { split; [done|]. unfold runnable. rewrite Est. tauto. }
    assert (same_place th th') as Hsp by done.
    assert (thread_wf th') as Hwf'.
    { destruct Hwf as (? & ? & ? & Hm). split; [done|split; [done|split; [by apply stat_or_range|]]].
      unfold mask_ok in *. by rewrite Est. }
    pose proof (kinv_touch b s t th th' Hk Ht Hsp Hwf') as Hk1.
    erewrite run_bind by done. destruct (rt_schedule_ok _ (ki_sched _ _ Hk1)) as (s' & Hrun & Hs' & Hss); [done|].
    exists s'. split; [done|]. split; [by eapply kinv_sched_step|]. split; [unfold sched_frame; by rewrite (ss_frame _ _ Hss)|].
    split; [by apply (ss_cur _ _ Hss)|]. split; [by apply (ss_queues _ _ Hss)|].
    split; [|split; [exact (ss_switched _ _ Hss)|]].
    2:{ intros x thx thx' Hx Hx'. pose proof (ss_threads _ _ Hss x) as Hs2.
        destruct (k_threads (set_k_threads (<[t := th']> (k_threads s)) s) !! x) as [th1|] eqn:E1.
        2:{ congruence. }
        destruct Hs2 as (th2 & E2 & Hst). assert (th2 = thx') as -> by congruence.
        rewrite (same_stat_slice [] x th1 thx') by (unfold expired; by rewrite decide_False by set_solver).
        exact (slices_put t th s th' Ht Esl x thx th1 Hx E1). }
    intros x. specialize (Hput th' Hrel Hsp x). pose proof (ss_threads _ _ Hss x) as Hx. cbn in Hx.
    destruct (k_threads s !! x) as [thx|].
    + destruct Hput as (thx' & E & Hr). rewrite E in Hx. destruct Hx as (thx'' & E' & Hr').
      exists thx''. split; [done|]. eapply tick_rel_trans; [done|by apply tick_rel_stat].
    + by rewrite Hput in Hx.
  - set (th' := set_th_remaining_tick _ th). assert (th_remaining_tick th' = next_slice th) as Esl by (unfold next_slice; cbv zeta; by rewrite Er).
    assert (tick_rel th th') as Hrel by (split; [by destruct th|done]).
    eexists. split; [done|]. split; [by apply (kinv_touch b s t th th')|]. split; [done|].
    split; [done|]. split; [done|]. split; [by apply Hput|]. split; [by left|]. by apply slices_put with (th := th).
Qed.

(** Everything a tick changes besides threads, queues and timers. *)
Definition tick_rest (s : kst) : kst := set_k_tick 0 (kernel_rest s).

Record ticked (s s' : kst) : Prop := {
  tk_tick : k_tick s' = u32 (k_tick s + 1);
  tk_rest : tick_rest s' = tick_rest s;
  tk_objs : objs_step (k_objs s) (k_objs s');
  tk_timers : k_timers s' = k_timers s;
  tk_tlist : k_tlist s' = filter (fun p => due (k_tick s) s p = false) (k_tlist s);
  tk_queues q : is_ready_q q = false ->
    getq (k_qs s') q = filter (fun x => x ∉ due_threads (k_tick s) s) (getq (k_qs s) q);
  tk_threads x : match k_threads s !! x with
                 | Some th => exists th', k_threads s' !! x = Some th' /\
                                tick_rel (expired (due_threads (k_tick s) s) x th) th'
                 | None => k_threads s' !! x = None
                 end;
  tk_cur : is_Some (k_cur s');
  tk_switched : switched s s';
  tk_slices t : k_cur s = Some t -> slices t s s'
}.

Lemma expired_tick_rel ts x th th1 th2 :
  tick_rel th th1 -> same_but_stat (expired ts x th1) th2 -> tick_rel (expired ts x th) th2.
Proof.
  intros H1 H2. eapply tick_rel_trans; [|by apply tick_rel_stat]. unfold expired. case_decide; [|done].
  destruct H1 as (E & _ & _). split; [|split].
  - rewrite E. by destruct th.
  - intros _. left. by apply state_with_state.
  - intros Hn. destruct Hn. left. by apply state_with_state.
Qed.

Lemma SysTick_ok fuel s :
  kinv s -> is_Some (k_cur s) -> 0 <= k_nest s < 2 ^ 8 -> (length (k_tlist s) < fuel)%nat ->
  exists s', SysTick_Handler fuel s = Ok tt s' /\ kinv s' /\ ticked s s'.
Proof.
  intros Hk [t Hcur] Hnest Hfuel.
  destruct (proj1 (proj2 (ki_sched _ _ Hk)) t Hcur) as (th & Ht & _ & _).
  set (s0 := set_k_tick (u32 (k_tick s + 1)) (set_k_nest (u8 (k_nest s + 1)) s)).
  assert (kinv_at (k_tick s) s0) as Hk0.
  { apply (kinv_ext _ s); try done. apply wrap_range. lia. }
  destruct (tick_slice_ok (k_tick s) s0 t th Hk0 Hcur Ht) as (s1 & Hrun1 & Hk1 & Hf1 & Hc1 & Hq1 & Ht1 & Hsw1 & Hsl1).
  destruct (timer_check_loop_ok (k_tick s) fuel (set_k_tlocal [] s1)) as (s2 & Hrun2 & Hk2 & Hfd & Hl2).
  { apply (kinv_ext _ _ _ Hk1); try done. apply Hk1. }
  { done. }
  { exact (fr_tick Hf1). }
  { cbn. by rewrite (fr_tlist Hf1). }
  assert (Hdue : forall p, due (k_tick s) (set_k_tlocal [] s1) p = due (k_tick s) s p).
  { intros p. unfold due. cbn. by rewrite (fr_timers Hf1). }
  assert (Hdt : due_threads (k_tick s) (set_k_tlocal [] s1) = due_threads (k_tick s) s).
  { unfold due_threads. cbn. rewrite (fr_tlist Hf1). f_equal. apply list_filter_iff. intros p. by rewrite Hdue. }
  rewrite Hdt in Hfd.
  assert (k_tick s2 = u32 (k_tick s + 1)) as Et2 by (rewrite (ks_tick (fd_step _ _ _ Hfd)); cbn; by rewrite (fr_tick Hf1)).
  assert (k_nest s2 = u8 (k_nest s + 1)) as En2 by (rewrite (ks_nest (fd_step _ _ _ Hfd)); cbn; by rewrite (fr_nest Hf1)).
  assert (Hl : k_tlist s2 = filter (fun p => due (k_tick s) s p = false) (k_tlist s)).
  { rewrite Hl2. cbn. rewrite (fr_tlist Hf1). apply list_filter_iff. intros p. by rewrite Hdue. }
  assert (k_timers s2 = k_timers s) as Em by (rewrite (fd_timers _ _ _ Hfd); exact (fr_timers Hf1)).
  exists (set_k_nest (k_nest s) s2). split; [|split].
  - unfold SysTick_Handler. erewrite run_bind by done.
    erewrite run_bind.
    2:{ unfold rt_tick_increase. erewrite run_bind by done. erewrite run_bind by (apply self_run; exact Hcur).
        erewrite run_bind by (apply get_thread_run; exact Ht). rewrite (run_bind _ _ _ _ _ Hrun1).
        unfold rt_timer_check. do 2 erewrite run_bind by done. exact Hrun2. }
    unfold rt_interrupt_leave, modify. rewrite En2. do 2 f_equal.
    unfold wrap. rewrite Zminus_mod_idemp_l. replace (k_nest s + 1 - 1) with (k_nest s) by lia. by apply Z.mod_small.
  - unfold kinv. apply (kinv_ext (k_tick s2) s2); try done; [|apply Hk2].
    apply (kinv_rebase (k_tick s)); [done|done|]. intros p. rewrite Hl, list_elem_of_filter. intros [Hp _].
    unfold due in *. by rewrite Em.
  - split; cbn.
    + done.
    + pose proof (f_equal (fun x => set_k_nest (k_nest s) (set_k_tick 0 x)) (ks_rest _ _ (fd_step _ _ _ Hfd))) as E.
      pose proof (f_equal (fun x => set_k_nest (k_nest s) (set_k_tick 0 x))
        (ks_rest _ _ (sched_frame_kstep _ _ Hf1))) as E'. unfold tick_rest.
      transitivity (set_k_nest (k_nest s) (set_k_tick 0 (kernel_rest s2))); [done|].
      rewrite E. transitivity (set_k_nest (k_nest s) (set_k_tick 0 (kernel_rest s1))); [done|].
      rewrite E'. by destruct s.
    + eapply objs_step_trans; [|apply (fd_step _ _ _ Hfd)]. cbn. rewrite (fr_objs Hf1). apply objs_step_refl.
    + done.
    + done.
    + intros q Hq. rewrite (fd_queues _ _ _ Hfd) by done. cbn. by rewrite Hq1.
    + intros x. specialize (Ht1 x). pose proof (fd_threads _ _ _ Hfd x) as Hx. cbn in Hx, Ht1.
      destruct (k_threads s !! x) as [thx|]; [|by rewrite Ht1 in Hx].
      destruct Ht1 as (th1 & E1 & R1). rewrite E1 in Hx. destruct Hx as (th2 & E2 & R2).
      exists th2. split; [done|]. by eapply expired_tick_rel.
    + by apply (fd_cur _ _ _ Hfd).
    + intros x Hx. destruct (fd_switched _ _ _ Hfd x Hx) as [Hc|]; [|by right].
      destruct (Hsw1 x Hc) as [|(th1 & E1 & R1)]; [by left|right].
      pose proof (fd_threads _ _ _ Hfd x) as Hx'. cbn in Hx'. rewrite E1 in Hx'. destruct Hx' as (th2 & E2 & R2).
      exists th2. eauto using expired_runnable.
    + intros y Hy x thx thx' Hx Hx'. assert (y = t) as -> by congruence. pose proof (fd_threads _ _ _ Hfd x) as Hf2. cbn in Hf2, Hx'.
      destruct (k_threads s1 !! x) as [th1|] eqn:E1; [|congruence]. destruct Hf2 as (th2 & E2 & Hst).
      assert (th2 = thx') as -> by congruence. rewrite (same_stat_slice _ _ _ _ Hst). exact (Hsl1 x thx th1 Hx E1).
Qed.
End fire.

(** ** Waiting with a timeout *)

(** Suspended, with the own timer due in [n] ticks. *)
Definition asleep (t : ptr) (n : Z) (s : kst) : Prop :=
  exists th, k_threads s !! t = Some th /\ state_of th = RT_THREAD_SUSPEND /\
    thread_timer t ∈ k_tlist s /\ due_in (k_tick s) (k_timers s) (thread_timer t) = n.

(** The parts that starting a timer leaves alone. *)
Definition timer_rest (s : kst) : kst :=
  set_k_objs ∅ (set_k_timers ∅ (set_k_tlist [] (set_k_tlocal [] (set_k_random 0 s)))).

Lemma kinv_set_own b s t tm tm' :
  kinv_at b s -> k_timers s !! thread_timer t = Some tm ->
  tm_timeout_func tm' = tm_timeout_func tm -> tm_parameter tm' = tm_parameter tm ->
  tinv_at b (set_k_timers (<[thread_timer t := tm']> (k_timers s)) s) ->
  kinv_at b (set_k_timers (<[thread_timer t := tm']> (k_timers s)) s).
Proof.
  intros [Hs Hti Hob Hown Hw Ht] Htm Ef Ep Hti'. split; cbn; try done.
  intros x thx Hx Hcl. destruct (Hown x thx Hx Hcl) as (tmx & obx & H1 & H2 & H3 & H4).
  destruct (decide (thread_timer t = thread_timer x)) as [E|Hne].
  - exists tm', obx. rewrite <- E in *. rewrite lookup_insert_eq. assert (tmx = tm) as -> by congruence.
    by rewrite Ef, Ep.
  - exists tmx, obx. rewrite lookup_insert_ne by done. done.
Qed.

Lemma start_thread_timer_ok s t th n :
  kinv s -> k_threads s !! t = Some th -> state_of th = RT_THREAD_SUSPEND -> 0 <= n < HALF_TICK ->
  exists s' l1 l2, start_thread_timer t n s = Ok tt s' /\ kinv s' /\ timer_rest s' = timer_rest s /\
    objs_step (k_objs s) (k_objs s') /\ asleep t n s' /\
    filter (fun x => x <> thread_timer t) (k_tlist s) = l1 ++ l2 /\ k_tlist s' = l1 ++ thread_timer t :: l2 /\
    (forall p, p <> thread_timer t -> k_timers s' !! p = k_timers s !! p).
Proof.
  intros Hk Ht Hst Hn. assert (state_of th <> RT_THREAD_CLOSE) as Hcl by (by rewrite Hst).
  destruct (ki_own _ _ Hk _ _ Ht Hcl) as (tm & tob & Htm & Hfun & Hpar & Htob & Hper).
  assert (u32 n = n) as En by (apply wrap_small; change HALF_TICK with 2147483647 in Hn; lia).
  set (tm1 := set_tm_init_tick (u32 n) tm).
  set (s1 := set_k_timers (<[thread_timer t := tm1]> (k_timers s)) s).
  assert (kinv_at (k_tick s) s1) as Hk1.
  { apply (kinv_set_own _ _ _ tm); [done..|]. apply tinv_set_init; [apply Hk|done]. }
  assert (tm_init_tick tm1 = n) as Ei by (cbn; exact En).
  assert (u32 (k_tick s1 + tm_init_tick tm1 - k_tick s) = n) as ET.
  { rewrite Ei. cbn. by replace (k_tick s + n - k_tick s) with n by lia. }
  assert (k_timers s1 !! thread_timer t = Some tm1) as Htm1 by apply lookup_insert_eq.
  destruct (rt_timer_start_run (k_tick s) s1 (thread_timer t) tob tm1) as (l1 & l2 & E & Hrun & H1 & H2);
    [done|done|apply due_sorted_filter, Hk1|lia|lia|].
  assert (tinv_at (k_tick s) (started (thread_timer t) tob tm1 l1 l2 s1)) as Hti2.
  { apply tinv_started; try done; [apply Hk1|lia]. }
  exists (started (thread_timer t) tob tm1 l1 l2 s1), l1, l2. split; [|split; [|split; [done|split; [|split]]]].
  - unfold start_thread_timer. erewrite run_bind by (by eapply rt_timer_set_time_run).
    rewrite (run_bind _ _ _ _ _ Hrun). done.
  - destruct Hk1 as [Hs Hti Hob Hown Hw Htick]. unfold kinv. cbn [k_tick started set_k_objs set_k_tlist set_k_tlocal set_k_random set_k_timers s1].
    split; [exact Hs|exact Hti2| | | |exact Htick]; cbn.
    + intros x thx Hx Hclx. destruct (Hob x thx Hx Hclx) as (obx & Eo & Ec).
      rewrite lookup_insert_ne; [eauto|]. intros E'. destruct Htob as [Ho Hc]. cbn in Eo.
      assert (obx = tob) as -> by congruence. by rewrite Ec in Hc.
    + intros x thx Hx Hclx. destruct (Hown x thx Hx Hclx) as (tmx & obx & X1 & X2 & X3 & X4 & X5).
      destruct (decide (thread_timer t = thread_timer x)) as [Ex|Hne].
      * apply thread_timer_inj in Ex as <-. cbn in X1. rewrite lookup_insert_eq in X1. injection X1 as <-. rewrite lookup_insert_eq.
        eexists _, _. split; [done|]. split; [done|]. split; [done|]. split; [split; [apply lookup_insert_eq|exact (proj2 Htob)]|].
        change (k_objs s1) with (k_objs s) in X4.
        assert (obx = tob) as -> by (destruct X4, Htob; congruence).
        by rewrite periodic_activated, periodic_deactivated.
      * rewrite lookup_insert_ne by done. cbn in X1. exists tmx, obx. split; [done|split; [done|split; [done|split; [|done]]]].
        by apply is_timer_insert.
    + intros p Hp. assert (p = thread_timer t \/ p ∈ l1 ++ l2) as [->|Hp'] by set_solver; [eauto|].
      apply Hw. rewrite <- E in Hp'. by apply list_elem_of_filter in Hp' as [_ Hp'].
  - cbn. destruct Htob as [Ho Hc].
    unfold activated. apply objs_step_flag with (ob := tob); [done|done].
  - exists th. split; [done|split; [done|]]. cbn. split; [set_solver|].
    rewrite due_in_insert_eq. cbn. rewrite En. rewrite <- ET at 2. rewrite Ei. cbn. unfold wrap. by rewrite Zminus_mod_idemp_l.
  - split; [done|split; [done|]]. intros p Hp. cbn. by rewrite !lookup_insert_ne.
Qed.

Lemma asleep_sched t n s s' : asleep t n s -> sched_step s s' -> asleep t n s'.
Proof.
  intros (th & Ht & Hst & Hin & Hd) H. pose proof (ss_frame _ _ H) as F.
  pose proof (ss_threads _ _ H t) as Hx. rewrite Ht in Hx. destruct Hx as (th' & E & _ & _ & Hs).
  exists th'. rewrite (fr_tlist F), (fr_timers F), (fr_tick F). split; [done|]. split; [|done].
  rewrite Hs; [done|]. unfold runnable. rewrite Hst. by intros [?|?].
Qed.

Lemma due_threads_own b s t n : kinv_at b s -> asleep t n s ->
  t ∈ due_threads (k_tick s) s <-> n <= 1.
Proof.
  intros Hk (th & Ht & Hst & Hin & Hd). unfold due_threads, due. rewrite list_elem_of_fmap. split.
  - intros (p & E & Hp). apply list_elem_of_filter in Hp as [Hp Hp'].
    destruct (ki_waits _ _ Hk p Hp') as (t' & _ & -> & _). cbn in E. subst t'.
    apply Z.leb_le in Hp. by rewrite Hd in Hp.
  - intros Hn. exists (thread_timer t). split; [done|]. apply list_elem_of_filter. split; [|done].
    apply Z.leb_le. by rewrite Hd.
Qed.

(** A sleeping thread sleeps on, or is woken with a timeout. *)
Lemma asleep_tick t n s s' : kinv s -> asleep t n s -> ticked s s' ->
  if n <=? 1 then exists th', k_threads s' !! t = Some th' /\ runnable th' /\ th_error th' = - RT_ETIMEOUT
  else asleep t (n - 1) s'.
Proof.
  intros Hk Ha Hti. pose proof (due_threads_own _ _ _ _ Hk Ha) as Hdue.
  destruct Ha as (th & Ht & Hst & Hin & Hd). pose proof (tk_threads _ _ Hti t) as Hx. rewrite Ht in Hx.
  destruct Hx as (th' & E & Hrel). destruct (Z.leb_spec n 1) as [Hn|Hn].
  - exists th'. split; [done|]. unfold expired in Hrel. rewrite decide_True in Hrel by tauto.
    destruct Hrel as (Eth & Hr & _). split.
    + apply Hr. left. by apply state_with_state.
    + by rewrite Eth.
  - unfold expired in Hrel. rewrite decide_False in Hrel by (rewrite Hdue; lia).
    destruct Hrel as (_ & _ & Hns). exists th'. split; [done|]. split; [|split].
    + rewrite Hns; [done|]. unfold runnable. rewrite Hst. by intros [?|?].
    + rewrite (tk_tlist _ _ Hti). apply list_elem_of_filter. split; [|done]. unfold due. apply Z.leb_gt. lia.
    + rewrite (tk_tick _ _ Hti), (tk_timers _ _ Hti), due_in_succ by lia. lia.
Qed.

Section sleep.
Context (app : positive -> ptr -> K unit).
#[local] Instance sleep_timeouts : TimeoutCall := thread_timeouts app.

(** [n] tick interrupts. *)
Fixpoint ticks (fuel n : nat) : K unit :=
  match n with O => mret tt | S n => SysTick_Handler fuel;; ticks fuel n end.

Lemma ticked_nest s s' : ticked s s' -> k_nest s' = k_nest s.
Proof. intros H. exact (f_equal k_nest (tk_rest _ _ H)). Qed.
Lemma ticked_length s s' : ticked s s' -> (length (k_tlist s') <= length (k_tlist s))%nat.
Proof. intros H. rewrite (tk_tlist _ _ H). apply length_filter. Qed.

Lemma ticks_asleep fuel t k n s :
  kinv s -> is_Some (k_cur s) -> 0 <= k_nest s < 2 ^ 8 -> (length (k_tlist s) < fuel)%nat ->
  asleep t n s -> Z.of_nat k < n \/ k = O ->
  exists s', ticks fuel k s = Ok tt s' /\ kinv s' /\ is_Some (k_cur s') /\ 0 <= k_nest s' < 2 ^ 8 /\
    (length (k_tlist s') < fuel)%nat /\ asleep t (n - Z.of_nat k) s'.
Proof.
  revert n s. induction k as [|k IH]; intros n s Hk Hc Hn Hf Ha Hlt.
  { exists s. cbn. by rewrite Z.sub_0_r. }
  destruct (SysTick_ok app fuel s Hk Hc Hn Hf) as (s1 & Hrun & Hk1 & Hti).
  pose proof (asleep_tick t n s s1 Hk Ha Hti) as Ha1. destruct (Z.leb_spec n 1); [lia|].
  destruct (IH (n - 1) s1) as (s' & Hrun' & ? & ? & ? & ? & Ha'); [done|apply Hti|by rewrite (ticked_nest _ _ Hti)| |done|lia|].
  { pose proof (ticked_length _ _ Hti). lia. }
  exists s'. cbn [ticks]. rewrite (run_bind _ _ _ _ _ Hrun). split; [done|].
  replace (n - Z.of_nat (S k)) with (n - 1 - Z.of_nat k) by lia. done.
Qed.

Lemma ticks_snoc fuel n s s1 : ticks fuel n s = Ok tt s1 -> ticks fuel (S n) s = SysTick_Handler fuel s1.
Proof.
  revert s. induction n as [|n IH]; intros s H.
  - cbn in H. injection H as ->. cbn [ticks]. unfold mbind, K_bind. by destruct (SysTick_Handler fuel s1) as [[]|].
  - cbn [ticks] in H |- *. unfold mbind, K_bind in *. destruct (SysTick_Handler fuel s) as [[] s'|]; [|done].
    by apply IH.
Qed.

(** Woken at the tick it is due, and not before; a delay of 0 waits one tick. *)
Lemma asleep_wakes fuel t n s :
  kinv s -> is_Some (k_cur s) -> 0 <= k_nest s < 2 ^ 8 -> (length (k_tlist s) < fuel)%nat ->
  asleep t n s ->
  (forall k, Z.of_nat k < n -> exists s', ticks fuel k s = Ok tt s' /\ asleep t (n - Z.of_nat k) s') /\
  exists s' th', ticks fuel (Z.to_nat (Z.max 1 n)) s = Ok tt s' /\ kinv s' /\
    k_threads s' !! t = Some th' /\ runnable th' /\ th_error th' = - RT_ETIMEOUT.
Proof.
  intros Hk Hc Hn Hf Ha. split.
  - intros k Hlt. destruct (ticks_asleep fuel t k n s) as (s' & ? & _ & _ & _ & _ & ?); eauto.
  - destruct (ticks_asleep fuel t (Z.to_nat (n - 1)) n s) as (s1 & Hrun & Hk1 & Hc1 & Hn1 & Hf1 & Ha1); [done..|lia|].
    destruct (SysTick_ok app fuel s1 Hk1 Hc1 Hn1 Hf1) as (s2 & Hrun2 & Hk2 & Hti).
    pose proof (asleep_tick t _ s1 s2 Hk1 Ha1 Hti) as Hw. destruct (Z.leb_spec (n - Z.of_nat (Z.to_nat (n - 1))) 1); [|lia].
    destruct Hw as (th' & ? & ? & ?). exists s2, th'.
    replace (Z.to_nat (Z.max 1 n)) with (S (Z.to_nat (n - 1))) by lia.
    by rewrite (ticks_snoc _ _ _ _ Hrun).
Qed.
End sleep.

(** ** Concrete states: the invariant as a check *)
Fixpoint due_sortedb (b : Z) (timers : gmap ptr rt_timer) (l : list ptr) : bool :=
  match l with
  | [] => true
  | p :: l => bool_decide (is_Some (timers !! p)) && (due_in b timers p <? HALF_TICK) &&
              forallb (fun y => due_in b timers p <=? due_in b timers y) l && due_sortedb b timers l
  end.

Definition own_check (s : kst) (t : ptr) : bool :=
  match k_objs s !! t, k_timers s !! thread_timer t, k_objs s !! thread_timer t with
  | Some ob, Some tm, Some tob =>
      (ob_class ob =? RT_Object_Class_Thread) &&
      (match tm_timeout_func tm with rt_thread_timeout_func => true | _ => false end) &&
      bool_decide (tm_parameter tm = t) && (ob_class tob =? RT_Object_Class_Timer) && negb (periodic tob)
  | _, _, _ => false
  end.

Definition waits_check (s : kst) (p : ptr) : bool :=
  match p, k_objs s !! p with
  | xI t, Some ob =>
      (ob_class ob =? RT_Object_Class_Timer) && active ob &&
      match k_threads s !! t with Some th => state_of th =? RT_THREAD_SUSPEND | None => false end
  | _, _ => false
  end.

Definition kinv_check (s : kst) : bool :=
  bool_decide (sched_check (k_cur s) (k_group s) (k_qs s) (k_threads s)) &&
  bool_decide (NoDup (k_tlist s)) && due_sortedb (k_tick s) (k_timers s) (k_tlist s) &&
  forallb (waits_check s) (k_tlist s) &&
  forallb (fun '(p, ob) => negb (ob_class ob =? RT_Object_Class_Timer) || negb (active ob) ||
                           bool_decide (p ∈ k_tlist s)) (map_to_list (k_objs s)) &&
  forallb (fun '(t, th) => (state_of th =? RT_THREAD_CLOSE) || own_check s t) (map_to_list (k_threads s)) &&
  (0 <=? k_tick s) && (k_tick s <? 2 ^ 32).

Lemma due_sortedb_ok b timers l : due_sortedb b timers l = true -> due_sorted b timers l.
Proof.
  induction l as [|p l IH]; cbn; [split; constructor|]. rewrite !andb_true_iff.
  intros [[[H1 H2] H3] H4]. destruct (IH H4) as [Hs Hf]. rewrite forallb_forall in H3. split.
  - constructor; [done|]. rewrite Forall_forall. intros y Hy. apply Z.leb_le, H3. by apply list_elem_of_In.
  - constructor; [|done]. split; [by apply bool_decide_eq_true in H1|lia].
Qed.

Lemma own_check_ok s t : own_check s t = true -> exists ob tm tob,
  k_objs s !! t = Some ob /\ ob_class ob = RT_Object_Class_Thread /\
  k_timers s !! thread_timer t = Some tm /\ tm_timeout_func tm = rt_thread_timeout_func /\
  tm_parameter tm = t /\ is_timer (k_objs s) (thread_timer t) tob /\ periodic tob = false.
Proof.
  unfold own_check. destruct (k_objs s !! t) as [ob|]; [|done].
  destruct (k_timers s !! thread_timer t) as [tm|]; [|done].
  destruct (k_objs s !! thread_timer t) as [tob|] eqn:E; [|done].
  rewrite !andb_true_iff. intros [[[[H1 H2] H3] H4] H5]. exists ob, tm, tob.
  apply Z.eqb_eq in H1, H4. apply bool_decide_eq_true in H3. apply negb_true_iff in H5.
  repeat split; try done. by destruct (tm_timeout_func tm).
Qed.

Lemma kinv_check_ok s : kinv_check s = true -> kinv s.
Proof.
  unfold kinv_check. rewrite !andb_true_iff. intros [[[[[[[H1 H2] H3] H4] H5] H6] H7] H8].
  apply bool_decide_eq_true in H1, H2. rewrite forallb_forall in H4, H5, H6.
  assert (Hw : forall p, p ∈ k_tlist s -> exists t th ob, p = thread_timer t /\ k_threads s !! t = Some th /\
    state_of th = RT_THREAD_SUSPEND /\ is_timer (k_objs s) p ob /\ active ob = true).
  { intros p Hp. apply list_elem_of_In, H4 in Hp. unfold waits_check in Hp. destruct p as [t|t|]; try done.
    destruct (k_objs s !! (t~1)%positive) as [ob|] eqn:E; [|done]. rewrite !andb_true_iff in Hp.
    destruct Hp as [[Ha Hb] Hc]. destruct (k_threads s !! t) as [th|] eqn:Eth; [|done].
    apply Z.eqb_eq in Ha, Hc. exists t, th, ob. done. }
  assert (Ho : forall t th, k_threads s !! t = Some th -> state_of th <> RT_THREAD_CLOSE -> own_check s t = true).
  { intros t th Ht Hcl. specialize (H6 (t, th)). rewrite <- list_elem_of_In, elem_of_map_to_list in H6.
    specialize (H6 Ht). cbn in H6. apply orb_true_iff in H6 as [E|]; [|done]. by apply Z.eqb_eq in E. }
  split.
  - by apply sched_check_ok.
  - split; [done|by apply due_sortedb_ok| |].
    + intros p Hp. destruct (Hw p Hp) as (? & ? & ob & ? & ? & ? & ? & ?). eauto.
    + intros p ob [Hp Hc] Ha. specialize (H5 (p, ob)). rewrite <- list_elem_of_In, elem_of_map_to_list in H5.
      specialize (H5 Hp). cbn in H5. rewrite Ha, Hc in H5. by apply bool_decide_eq_true in H5.
  - intros t th Ht Hcl. destruct (own_check_ok s t (Ho t th Ht Hcl)) as (ob & ? & ? & ? & ? & _). eauto.
  - intros t th Ht Hcl. destruct (own_check_ok s t (Ho t th Ht Hcl)) as (ob & tm & tob & _ & _ & ? & ? & ? & ? & ?). eauto 10.
  - intros p Hp. destruct (Hw p Hp) as (t & th & _ & ? & ? & ? & _). eauto.
  - lia.
Qed.

(** ** Sleeping *)

Lemma rest_fields s s' : timer_rest s' = timer_rest s ->
  k_cur s' = k_cur s /\ k_group s' = k_group s /\ k_qs s' = k_qs s /\ k_threads s' = k_threads s /\
  k_lock s' = k_lock s /\ k_nest s' = k_nest s /\ k_tick s' = k_tick s /\ kernel_rest s' = kernel_rest s.
Proof.
  intros H. repeat split.
  - exact (f_equal k_cur H).
  - exact (f_equal k_group H).
  - exact (f_equal k_qs H).
  - exact (f_equal k_threads H).
  - exact (f_equal k_lock H).
  - exact (f_equal k_nest H).
  - exact (f_equal k_tick H).
  - exact (f_equal (fun x => set_k_cur None (set_k_curprio 0 (set_k_group 0 (set_k_qs ∅ (set_k_threads ∅ x))))) H).
Qed.

(** The current thread suspends itself and starts its timer. *)
Record slept (t : ptr) (th : rt_thread) (n : Z) (s s' : kst) : Prop := {
  sl_kinv : kinv s';
  sl_asleep : asleep t n s';
  sl_rest : timer_rest s' = timer_rest (suspended t th s);
  sl_step : kstep s s';
  sl_length : (length (k_tlist s') <= S (length (k_tlist s)))%nat;
  sl_timers p : p ∈ k_tlist s' -> p ∈ k_tlist s \/ p = thread_timer t
}.

Lemma sleep_section_ok s t th n :
  kinv s -> k_cur s = Some t -> k_threads s !! t = Some th -> runnable th -> 0 <= n < HALF_TICK ->
  exists s', (forall {A} (k : K A), (rt_thread_suspend t;; start_thread_timer t n;; k) s = k s') /\ slept t th n s s'.
Proof.
  intros Hk Hc Ht Hr Hn. destruct (suspended_ok _ s t th Hk Ht Hr) as [Hk1 Hstep].
  assert (kinv (suspended t th s)) as Hk1' by (unfold kinv; by rewrite (ks_tick Hstep)).
  destruct (start_thread_timer_ok (suspended t th s) t (with_state RT_THREAD_SUSPEND th) n)
    as (s2 & l1 & l2 & Hrun & Hk2 & Hrest & Ho & Ha & El & El' & _); [done| |by apply state_with_state|done|].
  { cbn. by rewrite lookup_insert_eq. }
  exists s2. split; [|split; [done|done|done|..]].
  - intros A k. erewrite run_bind by (by eapply rt_thread_suspend_run). by rewrite (run_bind _ _ _ _ _ Hrun).
  - eapply kstep_trans; [exact Hstep|]. split; [|done]. apply (rest_fields _ _ Hrest).
  - rewrite El'. apply (f_equal length) in El. rewrite length_app in El |- *. cbn.
    pose proof (length_filter (fun x => x <> thread_timer t) (k_tlist (suspended t th s))).
    rewrite (fr_tlist (frame_suspended t th s)) in *. lia.
  - intros p. rewrite El'. intros Hp.
    assert (p ∈ l1 ++ l2 \/ p = thread_timer t) as [Hin| ->] by set_solver; [|by right].
    left. rewrite <- El, list_elem_of_filter, (fr_tlist (frame_suspended t th s)) in Hin. by destruct Hin.
Qed.

(** With something else ready and the scheduler unlocked, a suspended current
    thread loses the processor. *)
Lemma schedule_away s t th :
  sinv s -> k_lock s = 0 -> k_cur s = Some t -> k_threads s !! t = Some th ->
  state_of th = RT_THREAD_SUSPEND -> k_group s <> 0 ->
  exists s', rt_schedule s = Ok tt s' /\ sinv s' /\ sched_step s s' /\ k_cur s' <> Some t.
Proof.
  intros Hs Hl Hc Ht Hst Hg. destruct (highest_run s (proj1 Hs) Hg) as (p & x & _ & Hh).
  destruct (qo_fits _ _ (ro_queues _ _ _ (proj1 Hs)) (QReady p) x) as (thx & Hx & Hrx & _).
  { apply head_elem, Hh. }
  destruct (rt_schedule_switch s t th x p thx) as (s' & Hrun & Hs' & _ & Hne & Hc' & _); try done.
  { unfold keeps. by rewrite Hst. }
  destruct (rt_schedule_ok s Hs) as (s'' & Hrun' & _ & Hstep); [by rewrite Hc|].
  rewrite Hrun in Hrun'. injection Hrun' as <-. exists s'. split; [done|]. split; [done|]. split; [done|].
  rewrite Hc'. congruence.
Qed.

(** A running thread is in no ready list: suspending it empties none. *)
Lemma group_after_suspend b s t th : kinv_at b s -> k_threads s !! t = Some th ->
  state_of th = RT_THREAD_RUNNING -> k_group s <> 0 -> k_group (suspended t th s) <> 0.
Proof.
  intros Hk Ht Hr Hg H0. destruct (suspended_ok b s t th Hk Ht (or_intror Hr)) as [Hk1 _].
  apply Hg, (group_zero s (proj1 (ki_sched _ _ Hk))). intros p Hp.
  pose proof (proj1 (group_zero _ (proj1 (ki_sched _ _ Hk1))) H0 p Hp) as E.
  rewrite getq_suspended, filter_id in E; [done|]. intros x Hx ->.
  destruct (qo_fits _ _ (ro_queues _ _ _ (proj1 (ki_sched _ _ Hk))) _ _ Hx) as (th' & E' & Hr' & _).
  assert (th' = th) as -> by congruence. by rewrite Hr in Hr'.
Qed.

Lemma sleep_schedules_away s s1 t th :
  kinv s -> k_cur s = Some t -> k_threads s !! t = Some th -> state_of th = RT_THREAD_RUNNING ->
  k_lock s = 0 -> k_group s <> 0 -> timer_rest s1 = timer_rest (suspended t th s) -> kinv s1 ->
  exists s2, rt_schedule s1 = Ok tt s2 /\ kinv s2 /\ sched_step s1 s2 /\ k_cur s2 <> Some t /\ k_nest s2 = k_nest s.
Proof.
  intros Hk Hc Ht Hr Hl Hg Hrest Hk1.
  destruct (rest_fields _ _ Hrest) as (Ec & Eg & Eq & Et & El & En & _ & _).
  pose proof (frame_suspended t th s) as F.
  destruct (schedule_away s1 t (with_state RT_THREAD_SUSPEND th)) as (s2 & Hrun2 & Hs2 & Hstep2 & Hne).
  { apply Hk1. }
  { by rewrite El, (fr_lock F). }
  { rewrite Ec. cbn. by rewrite cur_removed. }
  { rewrite Et. cbn. by rewrite lookup_insert_eq. }
  { by apply state_with_state. }
  { rewrite Eg. by eapply group_after_suspend. }
  exists s2. split; [done|]. split; [|split; [done|split; [done|]]].
  - unfold kinv. rewrite (fr_tick (ss_frame _ _ Hstep2)). by eapply kinv_sched_step.
  - by rewrite (fr_nest (ss_frame _ _ Hstep2)), En, (fr_nest F).
Qed.

Section theorems.
Context (app : positive -> ptr -> K unit).
#[local] Instance app_timeouts : TimeoutCall := thread_timeouts app.

(** C8: the tick interrupt, from any good state with a current thread: it
    raises no assertion and ends; the tick advances by one modulo 2^32; exactly
    the timers due by then leave the timer list; their threads become runnable
    with error -RT_ETIMEOUT and leave every wait queue; every other thread
    keeps its record up to time slice and running status and its place in the
    wait queues; the current thread's slice drops by one tick and is reloaded
    at its end, no other slice changes; IPC objects are untouched; the
    invariant holds again. *)
Theorem SysTick_Handler_spec fuel s :
  kinv s -> is_Some (k_cur s) -> 0 <= k_nest s < 2 ^ 8 -> (length (k_tlist s) < fuel)%nat ->
  exists s', SysTick_Handler fuel s = Ok tt s' /\ kinv s' /\ ticked s s'.
Proof. apply SysTick_ok. Qed.

(** C37: [rt_thread_sleep(n)], called by the running thread while another
    thread is ready: the caller loses the processor, stays suspended for
    exactly n tick interrupts (one if n is 0) and is then made runnable; when
    it runs again the call returns RT_EOK with the timeout error cleared. *)
Theorem rt_thread_sleep_spec fuel s t th n :
  kinv s -> k_cur s = Some t -> k_threads s !! t = Some th -> state_of th = RT_THREAD_RUNNING ->
  k_lock s = 0 -> 0 <= k_nest s < 2 ^ 8 -> k_group s <> 0 -> 0 <= n < HALF_TICK ->
  (S (length (k_tlist s)) < fuel)%nat ->
  exists p s1, steps 2 (rt_thread_sleep n) s = Ok p s1 /\ kinv s1 /\ k_cur s1 <> Some t /\
    (forall k, Z.of_nat k < n -> exists s2, ticks app fuel k s1 = Ok tt s2 /\ asleep t (n - Z.of_nat k) s2) /\
    (exists s2 th2, ticks app fuel (Z.to_nat (Z.max 1 n)) s1 = Ok tt s2 /\ kinv s2 /\
       k_threads s2 !! t = Some th2 /\ runnable th2 /\ th_error th2 = - RT_ETIMEOUT) /\
    (forall s3 th3, k_threads s3 !! t = Some th3 -> th_error th3 = - RT_ETIMEOUT ->
       step p s3 = Ok (Ret RT_EOK) (set_k_threads (<[t := set_th_error RT_EOK th3]> (k_threads s3)) s3)).
Proof.
  intros Hk Hc Ht Hr Hl Hn Hg Hrange Hf.
  destruct (sleep_section_ok s t th n Hk Hc Ht (or_intror Hr) Hrange) as (s1 & Hrun1 & [Hk1 Ha1 Hrest _ Hlen _]).
  destruct (sleep_schedules_away s s1 t th Hk Hc Ht Hr Hl Hg Hrest Hk1) as (s2 & Hrun2 & Hk2 & Hstep2 & Hne & Hn2).
  pose proof (asleep_sched _ _ _ _ Ha1 Hstep2) as Ha2.
  destruct (asleep_wakes app fuel t n s2) as [H1 H2]; [done|..|done|].
  { apply (ss_cur _ _ Hstep2). destruct (rest_fields _ _ Hrest) as (-> & _). cbn. rewrite cur_removed, Hc. eauto. }
  { by rewrite Hn2. }
  { rewrite (fr_tlist (ss_frame _ _ Hstep2)). lia. }
  eexists _, s2. split; [|split; [done|split; [done|split; [done|split; [done|]]]]].
  - erewrite steps_S.
    2:{ apply step_sec. unfold self_assert, rt_thread_self. erewrite run_bind by (erewrite run_bind by done; rewrite Hc; done).
        destruct (kinv_not_close _ s t th Hk Ht) as (ob & _ & _ & Hob & Hcls & _); [by rewrite Hr|].
        erewrite run_bind by (by eapply assert_type_run). rewrite Hrun1. done. }
    erewrite steps_S by (by apply step_sec). done.
  - intros s3 th3 Ht3 Herr.
    refine (step_sec (clear_timeout_error t) (fun _ => Ret RT_EOK) s3 tt _ _). unfold clear_timeout_error.
    erewrite run_bind by (by apply get_thread_run). by rewrite Herr.
Qed.
End theorems.

(** The record after [rt_thread_yield] set the flag and a new time slice. *)
Definition yielding (th : rt_thread) : rt_thread :=
  set_th_stat (Z.lor (th_stat th) RT_THREAD_STAT_YIELD) (set_th_remaining_tick (th_init_tick th) th).

Lemma yielding_place th : same_place th (yielding th).
Proof. split; [apply state_set_yield|done]. Qed.
Lemma yielding_wf th : thread_wf th -> thread_wf (yielding th).
Proof.
  intros (? & ? & ? & Hm). split; [done|split; [done|split; [by apply stat_or_range|]]].
  unfold mask_ok in *. pose proof (proj1 (yielding_place th)) as ->. exact Hm.
Qed.
Lemma yield_bit th : Z.land (th_stat (yielding th)) RT_THREAD_STAT_YIELD <> 0.
Proof.
  cbn. unfold RT_THREAD_STAT_YIELD. rewrite Z.land_lor_distr_l. change (Z.land 8 8) with 8.
  intros E. apply Z.lor_eq_0_iff in E. by destruct E.
Qed.

(** [rt_thread_yield] is round robin within a priority: the first thread of
    the same priority runs next and the caller goes to the tail of that ready
    list with a fresh time slice; when every ready thread is less urgent the
    caller keeps the processor. *)
Theorem rt_thread_yield_spec s t th p x l :
  kinv s -> k_lock s = 0 -> k_cur s = Some t -> k_threads s !! t = Some th ->
  state_of th = RT_THREAD_RUNNING -> highest_ready (k_qs s) p x ->
  th_current_priority th <= p -> getq (k_qs s) (QReady p) = x :: l ->
  exists s', rt_thread_yield s = Ok RT_EOK s' /\ kinv s' /\
    if th_current_priority th =? p then
      k_cur s' = Some x /\ getq (k_qs s') (QReady p) = l ++ [t] /\
      exists th', k_threads s' !! t = Some th' /\ th_remaining_tick th' = th_init_tick th /\
        state_of th' = RT_THREAD_READY
    else
      k_cur s' = Some t /\ (forall q, getq (k_qs s') q = getq (k_qs s) q) /\
      exists th', k_threads s' !! t = Some th' /\ th_remaining_tick th' = th_init_tick th /\
        state_of th' = RT_THREAD_RUNNING.
Proof.
  intros Hk Hl Hc Ht Hr Hh Hp Hq. pose proof (ro_wf _ _ _ (proj1 (ki_sched _ _ Hk)) _ _ Ht) as Hwf.
  assert (kinv_at (k_tick s) (set_k_threads (<[t := yielding th]> (k_threads s)) s)) as Hk1.
  { eapply kinv_touch; [done..|apply yielding_place|by apply yielding_wf]. }
  set (s1 := set_k_threads (<[t := yielding th]> (k_threads s)) s) in *.
  assert (k_threads s1 !! t = Some (yielding th)) as Ht1 by apply lookup_insert_eq.
  assert (Hrun0 : rt_thread_yield s = (rt_schedule;; mret RT_EOK) s1).
  { unfold rt_thread_yield. erewrite run_bind by (by apply self_run).
    erewrite run_bind by (by apply get_thread_run). by erewrite run_bind by done. }
  pose proof (yield_bit th) as Hy. apply Z.eqb_neq in Hy.
  assert (Hkeep : keeps (yielding th) p = negb (th_current_priority th =? p)).
  { unfold keeps. rewrite (proj1 (yielding_place th)), Hr, Hy, andb_false_r, orb_false_r. cbn [Z.eqb andb].
    change (th_current_priority (yielding th)) with (th_current_priority th).
    destruct (Z.ltb_spec (th_current_priority th) p), (Z.eqb_spec (th_current_priority th) p); cbn; lia || done. }
  assert (kinv s1 -> forall s', sched_step s1 s' -> sinv s' -> kinv s') as Hkeepinv.
  { intros _ s' Hstep Hs'. unfold kinv. rewrite (fr_tick (ss_frame _ _ Hstep)). by eapply kinv_sched_step. }
  destruct (rt_schedule_ok s1 (ki_sched _ _ Hk1)) as (s' & Hrun & Hs' & Hstep); [by exists t|].
  exists s'. rewrite Hrun0, (run_bind _ _ _ _ _ Hrun). split; [done|]. split; [by apply Hkeepinv|].
  destruct (Z.eqb_spec (th_current_priority th) p) as [Ep|Ep].
  - destruct (qo_fits _ _ (ro_queues _ _ _ (proj1 (ki_sched _ _ Hk1))) (QReady p) x) as (thx & Hx & _).
    { change (k_qs s1) with (k_qs s). rewrite Hq. set_solver. }
    destruct (rt_schedule_switch s1 t (yielding th) x p thx) as (s2 & Hrun2 & _ & _ & Hne & Hc2 & _ & Hth2 & Hq2);
      [apply Hk1|done..|].
    rewrite Hrun in Hrun2. injection Hrun2 as <-.
    assert (running (yielding th) = true) as Hrn by (unfold running; rewrite (proj1 (yielding_place th)); by rewrite Hr).
    split; [done|]. split.
    + rewrite Hq2. change (k_qs s1) with (k_qs s). rewrite Hq. unfold requeued. rewrite Hrn. cbn [andb].
      rewrite bool_decide_eq_true_2 by (by rewrite <- Ep). cbn [app].
      rewrite filter_cons_False by tauto. apply filter_id. intros y Hy' ->.
      pose proof (qo_nodup _ _ (ro_queues _ _ _ (proj1 (ki_sched _ _ Hk))) (QReady p)) as Hnd. rewrite Hq in Hnd.
      apply NoDup_cons in Hnd as [Hni _]. set_solver.
    + rewrite Hth2, lookup_insert_ne, lookup_insert_eq by done. eexists. split; [done|].
      unfold requeue. rewrite Hrn. split; [done|]. by apply state_with_state.
  - destruct (rt_schedule_keep s1 t (yielding th) x p) as (s2 & Hrun2 & _ & _ & Hc2 & Hth2 & Hq2);
      [apply Hk1|done..|].
    rewrite Hrun in Hrun2. injection Hrun2 as <-. split; [done|]. split; [done|].
    rewrite Hth2, lookup_insert_eq. eexists. split; [done|]. split; [done|].
    unfold clear_yield. by rewrite state_clear_yield, (proj1 (yielding_place th)).
Qed.

(** [rt_thread_resume] and [rt_thread_suspend] refuse, with -RT_ERROR and no
    effect, a thread that is not suspended, respectively not runnable;
    otherwise resuming takes the thread out of its wait queue, stops its timer
    and appends it to the ready list of its priority (or marks it running when
    it is still current), and suspending takes it out of its ready list. *)
Theorem rt_thread_suspend_resume_spec s t th :
  kinv s -> k_threads s !! t = Some th -> state_of th <> RT_THREAD_CLOSE ->
  (if decide (runnable th) then
     rt_thread_suspend t s = Ok RT_EOK (suspended t th s) /\ kinv (suspended t th s) /\
     forall q, getq (k_qs (suspended t th s)) q = filter (fun x => x <> t) (getq (k_qs s) q)
   else rt_thread_suspend t s = Ok (- RT_ERROR) s) /\
  (if decide (state_of th = RT_THREAD_SUSPEND) then
     exists s', rt_thread_resume t s = Ok RT_EOK s' /\ kinv s' /\ kstep s s' /\ woken t th s s'
   else rt_thread_resume t s = Ok (- RT_ERROR) s).
Proof.
  intros Hk Ht Hcl. destruct (kinv_not_close _ _ _ _ Hk Ht Hcl) as (ob & _ & _ & Hob & Hcls & _). split.
  - destruct (decide (runnable th)) as [Hr|Hr].
    + destruct (suspended_ok _ s t th Hk Ht Hr) as [Hk1 Hstep].
      split; [by eapply rt_thread_suspend_run|]. split; [unfold kinv; by rewrite (ks_tick Hstep)|apply getq_suspended].
    + unfold rt_thread_suspend. erewrite run_bind by (by eapply assert_type_run).
      erewrite run_bind by (by apply get_thread_run). unfold runnable in Hr.
      destruct (Z.eqb_spec (state_of th) RT_THREAD_READY); [tauto|].
      destruct (Z.eqb_spec (state_of th) RT_THREAD_RUNNING); [tauto|]. done.
  - destruct (decide _) as [Hst|Hst].
    + destruct (rt_thread_resume_ok _ s t th Hk Ht Hst) as (s' & Hrun & Hk' & Hstep & Hw).
      exists s'. split; [done|]. split; [unfold kinv; by rewrite (ks_tick Hstep)|done].
    + unfold rt_thread_resume. erewrite run_bind by (by eapply assert_type_run).
      erewrite run_bind by (by apply get_thread_run). by destruct (Z.eqb_spec (state_of th) RT_THREAD_SUSPEND).
Qed.

(** The first section of [rt_thread_delay_until]. *)
Lemma delay_until_run s t th tick inc :
  kinv s -> k_cur s = Some t -> k_threads s !! t = Some th -> state_of th = RT_THREAD_RUNNING -> inc < HALF_TICK ->
  let elapsed := u32 (k_tick s - tick) in
  if elapsed <? inc then
    exists s', delay_until_section tick inc s = Ok (Some t, u32 (tick + inc)) s' /\ slept t th (inc - elapsed) s s'
  else delay_until_section tick inc s = Ok (None, k_tick s) s.
Proof.
  intros Hk Hc Ht Hr Hinc elapsed.
  destruct (kinv_not_close _ s t th Hk Ht) as (ob & _ & _ & Hob & Hcls & _); [by rewrite Hr|].
  assert (Hpre : forall {A} (k : ptr -> Z -> K A),
    (thread ← self_assert; assert_thread thread;; cur_tick ← rt_tick_get; k thread cur_tick) s = k t (k_tick s) s).
  { intros A k. unfold self_assert, rt_thread_self. erewrite run_bind by (erewrite run_bind by done; rewrite Hc; done).
    erewrite run_bind by (by eapply assert_type_run). unfold rt_tick_get. by erewrite run_bind by done. }
  pose proof (wrap_range 32 (k_tick s - tick) ltac:(lia)) as He. fold elapsed in He.
  assert (u32 (u32 (tick + inc) - k_tick s) = u32 (inc - elapsed)) as Eleft.
  { unfold elapsed, wrap. rewrite Zminus_mod_idemp_l, Zminus_mod_idemp_r. f_equal. lia. }
  unfold delay_until_section. destruct (Z.ltb_spec elapsed inc) as [Hlt|Hge].
  - assert (u32 (inc - elapsed) = inc - elapsed) as Ew.
    { apply wrap_small. change HALF_TICK with 2147483647 in Hinc. change (2 ^ 32) with 4294967296. lia. }
    destruct (sleep_section_ok s t th (inc - elapsed) Hk Hc Ht (or_intror Hr)) as (s1 & Hrun1 & Hsl); [lia|].
    exists s1. split; [|done]. rewrite Hpre. fold elapsed.
    destruct (Z.ltb_spec elapsed inc); [|lia]. rewrite Eleft, Ew. by rewrite Hrun1.
  - rewrite Hpre. fold elapsed. by destruct (Z.ltb_spec elapsed inc); [lia|].
Qed.

(** [rt_thread_delay_until(&tick, inc)]: if fewer than [inc] ticks passed
    since [tick], the stored tick advances by exactly [inc] and the caller
    sleeps until that very tick, however late it called; otherwise the stored
    tick is reset to now and the call returns at once. *)
Theorem rt_thread_delay_until_spec s t th tick inc :
  kinv s -> k_cur s = Some t -> k_threads s !! t = Some th -> state_of th = RT_THREAD_RUNNING ->
  0 <= tick < 2 ^ 32 -> 0 <= inc < HALF_TICK ->
  let elapsed := u32 (k_tick s - tick) in
  if elapsed <? inc then
    exists s', step (rt_thread_delay_until tick inc) s =
        Ok (atomic rt_schedule ~; atomic (clear_timeout_error t) ~; Ret (RT_EOK, u32 (tick + inc)))%proc s' /\
      kinv s' /\ asleep t (inc - elapsed) s' /\ u32 (k_tick s' + (inc - elapsed)) = u32 (tick + inc)
  else step (rt_thread_delay_until tick inc) s = Ok (Ret (RT_EOK, k_tick s)) s.
Proof.
  intros Hk Hc Ht Hr _ [_ Hinc] elapsed. pose proof (delay_until_run s t th tick inc Hk Hc Ht Hr Hinc) as H.
  cbv zeta in H. fold elapsed in H. destruct (elapsed <? inc); [|by apply step_to with (x := (None, k_tick s))].
  destruct H as (s1 & Hrun & [Hk1 Ha1 Hrest _ _ _]). exists s1.
  split; [by apply step_to with (x := (Some t, u32 (tick + inc)))|]. split; [done|]. split; [done|].
  destruct (rest_fields _ _ Hrest) as (_ & _ & _ & _ & _ & _ & -> & _).
  rewrite (fr_tick (frame_suspended t th s)). unfold elapsed, wrap.
  rewrite Z.add_sub_assoc, Zminus_mod_idemp_r. f_equal. lia.
Qed.

(** ** Changing the priority *)
Lemma set_priority_mask v th : 0 <= v < 32 -> th_number_mask (set_priority v th) = 2 ^ v.
Proof.
  intros Hv. cbn. rewrite Z.shiftl_1_l. apply wrap_small. split; [apply Z.pow_nonneg; lia|].
  apply Z.pow_lt_mono_r; lia.
Qed.
Lemma set_priority_wf v th : 0 <= v < 32 -> thread_wf th -> thread_wf (set_priority v th).
Proof.
  intros Hv (H1 & H2 & H3 & _). split; [done|split; [done|split; [done|]]]. left. by apply set_priority_mask.
Qed.

(** The queues after a priority change: only a ready thread moves. *)
Definition reprioritised (t : ptr) (th : rt_thread) (v : Z) (m : queues) (q : qid) : list ptr :=
  if decide (state_of th = RT_THREAD_READY) then
    filter (fun x => x <> t) (getq m q) ++ (if decide (q = QReady v) then [t] else [])
  else getq m q.

Lemma rt_change_priority_ok `{CleanupCall} b s t th v :
  kinv_at b s -> k_threads s !! t = Some th -> state_of th <> RT_THREAD_CLOSE -> 0 <= v < 32 ->
  exists s', rt_thread_control t (RT_THREAD_CTRL_CHANGE_PRIORITY v) s = Ok RT_EOK s' /\ kinv_at b s' /\
    sched_frame s s' /\ k_cur s' = k_cur s /\ k_threads s' = <[t := set_priority v th]> (k_threads s) /\
    forall q, getq (k_qs s') q = reprioritised t th v (k_qs s) q.
Proof.
  intros Hk Ht Hcl Hv. destruct (ki_sched _ _ Hk) as [Hs Hc]. pose proof (ro_wf _ _ _ Hs _ _ Ht) as Hwf.
  destruct (ki_object _ _ Hk _ _ Ht Hcl) as (ob & Hob & Hcls).
  pose proof (set_priority_wf v th Hv Hwf) as Hwf'.
  assert (state_of (set_priority v th) = state_of th) as Est by done.
  unfold rt_thread_control. erewrite run_bind by (by eapply assert_type_run).
  erewrite run_bind by (by apply get_thread_run).
  destruct (Z.eqb_spec (state_of th) RT_THREAD_READY) as [Hr|Hnr].
  - assert (k_cur s <> Some t) as Hcur.
    { intros E. destruct (proj1 Hc t E) as (? & ? & ? & _). congruence. }
    destruct (suspended_ok b s t th Hk Ht (or_introl Hr)) as [Hk1 _].
    destruct (ki_sched _ _ Hk1) as [Hs1 Hc1].
    set (s1 := set_k_threads (<[t := set_priority v th]> (k_threads s)) (removed t th s)).
    assert (k_threads s1 !! t = Some (set_priority v th)) as Ht1 by apply lookup_insert_eq.
    (* the intermediate state, read with the thread suspended, is good *)
    set (thS := with_state RT_THREAD_SUSPEND (set_priority v th)).
    set (sS := set_k_threads (<[t := thS]> (k_threads s)) (removed t th s)).
    assert (rinv sS) as HsS.
    { unfold rinv, sS. cbn. apply rinv_leave; [done..| |by unfold thS; rewrite state_with_state].
      apply thread_wf_state; [done|done|]. right. right. by apply set_priority_mask. }
    assert (Eins : with_state RT_THREAD_READY thS = set_priority v th).
    { unfold thS. rewrite with_state_over by done. apply with_state_same. by rewrite Est. }
    exists (inserted t thS sS).
    assert (inserted t (set_priority v th) s1 = inserted t thS sS) as Einst.
    { unfold inserted, s1, sS. cbn. rewrite Eins, !insert_insert_eq.
      rewrite (with_state_same RT_THREAD_READY) by (by rewrite Est). done. }
    split; [|split; [|split; [|split; [|split]]]].
    + assert ((rt_schedule_remove_thread t;; put_thread t (set_priority v th);; rt_schedule_insert_thread t) s
        = Ok tt (inserted t thS sS)) as Hin.
      { erewrite run_bind by (eapply remove_thread_run; [done|apply Hwf]).
        erewrite run_bind by done. rewrite threads_removed. change (set_k_threads _ _) with s1.
        rewrite (insert_thread_run s1 t (set_priority v th)); [by rewrite Einst|done|exact Hv| |].
        - cbn. by rewrite cur_removed.
        - cbn. apply linked_removed. }
      by rewrite (run_bind _ _ _ _ _ Hin).
    + assert (sched_frame s (inserted t thS sS)) as F.
      { unfold sched_frame. rewrite <- (frame_removed t th s). done. }
      apply (kinv_threads b s); [done|split|apply (fr_timers F)|apply (fr_objs F)|apply (fr_tlist F)|apply (fr_tick F)|..].
      * apply rinv_inserted; [done|apply lookup_insert_eq|cbn; apply linked_removed|by apply set_priority_mask].
      * cbn. rewrite cur_removed, insert_insert_eq. apply cur_ok_other; [done|done|].
        rewrite Eins, Est, Hr. done.
      * cbn. rewrite insert_insert_eq. intros x thx. rewrite lookup_insert_Some. intros [[<- <-]|[_ Hx]] Hc'; eauto.
      * cbn. rewrite insert_insert_eq. intros x thx Hx Hsx _. rewrite lookup_insert_ne; [eauto|]. intros <-.
        rewrite Ht in Hx. injection Hx as <-. by rewrite Hr in Hsx.
    + unfold sched_frame. rewrite <- (frame_removed t th s). done.
    + cbn. by rewrite cur_removed.
    + cbn. by rewrite insert_insert_eq, Eins.
    + intros q. unfold reprioritised. rewrite decide_True by done. cbn. rewrite getq_insert, !getq_removed.
      destruct (decide (q = QReady v)) as [->|Hne].
      * by rewrite bool_decide_eq_true_2.
      * by rewrite bool_decide_eq_false_2, app_nil_r by congruence.
  - eexists. split; [by erewrite run_bind by done|].
    split; [|split; [done|split; [done|split; [done|]]]].
    2:{ intros q. unfold reprioritised. by rewrite decide_False. }
    apply (kinv_threads b s); try done.
    + split; cbn; [|by eapply cur_ok_touch]. destruct Hs as [Hw Hq Hg]. split; cbn; [|..|done].
      * intros x thx. rewrite lookup_insert_Some. intros [[<- <-]|[_ Hx]]; [done|by eapply Hw].
      * destruct Hq as [Hnd Hun Hf Hrd]. split; [done..| |].
        -- intros q x Hx. destruct (Hf q x Hx) as (thx & Ex & Hfx). destruct (decide (x = t)) as [->|Hne].
           ++ rewrite lookup_insert_eq. eexists. split; [done|]. assert (thx = th) as -> by congruence.
              destruct q; [by destruct Hfx|done..].
           ++ rewrite lookup_insert_ne by done. eauto.
        -- intros x thx. rewrite lookup_insert_Some. intros [[<- <-]|[_ Hx]]; [done|by apply Hrd].
    + cbn. intros x thx. rewrite lookup_insert_Some. intros [[<- <-]|[_ Hx]] Hc'; eauto.
    + cbn. intros x thx Hx Hsx _. destruct (decide (x = t)) as [->|Hne].
      * rewrite lookup_insert_eq. eexists. split; [done|]. rewrite Est. congruence.
      * rewrite lookup_insert_ne by done. eauto.
Qed.

(** C38: RT_THREAD_CTRL_CHANGE_PRIORITY with a priority below 32 gives the thread
    that priority and the matching bit mask; a ready thread moves to the tail of
    the ready list of its new priority, and a thread in any other state stays
    where it is: in particular a waiting thread keeps its place in its wait
    queue, whatever the order of that queue. *)
Theorem rt_change_priority_spec `{CleanupCall} s t th v :
  kinv s -> k_threads s !! t = Some th -> state_of th <> RT_THREAD_CLOSE -> 0 <= v < 32 ->
  exists s', rt_thread_control t (RT_THREAD_CTRL_CHANGE_PRIORITY v) s = Ok RT_EOK s' /\ kinv s' /\
    k_threads s' = <[t := set_priority v th]> (k_threads s) /\
    th_number_mask (set_priority v th) = 2 ^ v /\
    forall q, getq (k_qs s') q =
      (if decide (state_of th = RT_THREAD_READY) then
         filter (fun x => x <> t) (getq (k_qs s) q) ++ (if decide (q = QReady v) then [t] else [])
       else getq (k_qs s) q).
Proof.
  intros Hk Ht Hcl Hv. destruct (rt_change_priority_ok _ s t th v Hk Ht Hcl Hv) as (s' & ? & Hk' & F & _ & ? & ?).
  exists s'. split; [done|]. split; [unfold kinv; by rewrite (fr_tick F)|]. split; [done|].
  split; [by apply set_priority_mask|done].
Qed.

(** ** Witnesses

    Thread 2 runs at priority 10, thread 4 is the idle thread (31), thread 6
    (priority 7) waits for the object 20 with a timeout in 5 ticks, thread 8 is
    ready at priority 10. *)
Definition demo_object (type flag : Z) : rt_object := Object [] type flag.
Definition demo_own (t : ptr) (due : Z) : rt_timer := Timer rt_thread_timeout_func t 5 due.
Definition demo_kernel : kst :=
  set_k_tick 100 (set_k_cur (Some 2%positive) (set_k_group (2 ^ 10 + 2 ^ 31)
   (set_k_qs (<[QReady 10 := [8%positive]]> (<[QReady 31 := [4%positive]]>
      (<[QSuspend 20 := [6%positive]]> ∅)))
    (set_k_threads (<[2%positive := demo_thread RT_THREAD_RUNNING 10]>
       (<[4%positive := demo_thread RT_THREAD_READY 31]>
       (<[6%positive := demo_thread RT_THREAD_SUSPEND 7]>
       (<[8%positive := demo_thread RT_THREAD_READY 10]> ∅))))
    (set_k_objs (<[2%positive := demo_object 129 0]> (<[4%positive := demo_object 129 0]>
       (<[6%positive := demo_object 129 0]> (<[8%positive := demo_object 129 0]>
       (<[5%positive := demo_object 138 0]> (<[9%positive := demo_object 138 0]>
       (<[13%positive := demo_object 138 1]> (<[17%positive := demo_object 138 0]>
       (<[20%positive := demo_object 130 1]> ∅)))))))))
    (set_k_timers (<[5%positive := demo_own 2 0]> (<[9%positive := demo_own 4 0]>
       (<[13%positive := demo_own 6 105]> (<[17%positive := demo_own 8 0]> ∅))))
    (set_k_tlist [13%positive] empty_kst))))))).

Lemma demo_kernel_ok : kinv demo_kernel.
Proof. apply kinv_check_ok. by vm_compute. Qed.

Definition no_app : positive -> ptr -> K unit := fun _ _ => mret tt.

Lemma SysTick_Handler_spec_witness : exists s',
  @SysTick_Handler (thread_timeouts no_app) 3 demo_kernel = Ok tt s' /\ kinv s' /\ k_tick s' = 101.
Proof.
  destruct (SysTick_Handler_spec no_app 3 demo_kernel demo_kernel_ok) as (s' & Hrun & Hk & Ht);
    [by eexists|by vm_compute|by (cbn; lia)|].
  exists s'. split; [exact Hrun|]. split; [exact Hk|]. exact (tk_tick _ _ Ht).
Defined.

Lemma rt_thread_sleep_spec_witness : exists p s1 s2 th2,
  steps 2 (rt_thread_sleep 3) demo_kernel = Ok p s1 /\ k_cur s1 <> Some 2%positive /\
  ticks no_app 9 3 s1 = Ok tt s2 /\ k_threads s2 !! 2%positive = Some th2 /\ th_error th2 = - RT_ETIMEOUT.
Proof.
  destruct (rt_thread_sleep_spec no_app 9 demo_kernel 2 (demo_thread RT_THREAD_RUNNING 10) 3 demo_kernel_ok)
    as (p & s1 & Hrun & _ & Hne & _ & (s2 & th2 & Ht & _ & Hth2 & _ & Herr) & _);
    [done|done|by vm_compute|done|by vm_compute|by vm_compute|by vm_compute|by (cbn; lia)|].
  exists p, s1, s2, th2. done.
Defined.

Lemma rt_thread_yield_spec_witness : exists s',
  rt_thread_yield demo_kernel = Ok RT_EOK s' /\ k_cur s' = Some 8%positive /\
  getq (k_qs s') (QReady 10) = [2%positive].
Proof.
  destruct (rt_thread_yield_spec demo_kernel 2 (demo_thread RT_THREAD_RUNNING 10) 10 8 [] demo_kernel_ok)
    as (s' & Hrun & _ & Hc & Hq & _); [done|done|done|by vm_compute| |by vm_compute|done|].
  - split; [by vm_compute|]. split; [done|]. apply (no_ready_below _ 10). by vm_compute.
  - exists s'. done.
Defined.

Lemma rt_thread_suspend_resume_spec_witness : exists s',
  rt_thread_resume 6 demo_kernel = Ok RT_EOK s' /\ getq (k_qs s') (QReady 7) = [6%positive].
Proof.
  destruct (rt_thread_suspend_resume_spec demo_kernel 6 (demo_thread RT_THREAD_SUSPEND 7) demo_kernel_ok)
    as [_ H]; [done|by vm_compute|].
  rewrite decide_True in H by (by vm_compute). destruct H as (s' & Hrun & _ & _ & Hw).
  exists s'. split; [done|]. by rewrite (wk_queues _ _ _ _ Hw).
Defined.

Lemma rt_thread_delay_until_spec_witness : exists s',
  step (rt_thread_delay_until 97 10) demo_kernel =
    Ok (atomic rt_schedule ~; atomic (clear_timeout_error 2) ~; Ret (RT_EOK, 107))%proc s' /\
  asleep 2 7 s'.
Proof.
  destruct (rt_thread_delay_until_spec demo_kernel 2 (demo_thread RT_THREAD_RUNNING 10) 97 10 demo_kernel_ok)
    as (s' & Hrun & _ & Ha & _); [done|done|by vm_compute|by vm_compute|by vm_compute|].
  exists s'. split; [exact Hrun|exact Ha].
Defined.

Lemma rt_change_priority_spec_witness : exists s',
  @rt_thread_control (fun _ _ => mret tt) 8 (RT_THREAD_CTRL_CHANGE_PRIORITY 3) demo_kernel = Ok RT_EOK s' /\
  getq (k_qs s') (QReady 3) = [8%positive].
Proof.
  destruct (@rt_change_priority_spec (fun _ _ => mret tt) demo_kernel 8 (demo_thread RT_THREAD_READY 10) 3
    demo_kernel_ok) as (s' & Hrun & _ & _ & _ & Hq); [done|by vm_compute|done|].
  exists s'. split; [exact Hrun|]. rewrite Hq. by vm_compute.
Defined.
