(* ===== verification/Ipc.v ===== *)
(** * IPC objects and semaphores (rt-thread/src/ipc.c, first part)

    The wait queues shared by all IPC objects, and semaphores.  A function
    that can wait is a process: its first section runs to the point where the
    code enables interrupts before [rt_schedule()], then comes the call of the
    scheduler, then the section that looks at [thread->error].  Functions that
    create or destroy an object are sequential.

    The theorems: where a waiter is queued (FIFO or by priority), what each
    branch of take and release does, the handover from a releasing thread to
    the first waiter, the timeout, and that a semaphore with a positive value
    has no waiters. *)
From S2P Require Import Prelude KState Scheduler Object Timer Proc Thread.

Definition RT_IPC_FLAG_FIFO : Z := 0.
Definition RT_IPC_FLAG_PRIO : Z := 1.

(** [rt_list_init] of a wait queue; a queue with waiters would be corrupted. *)
Definition queue_init (q : qid) : K unit := fun s =>
  match getq (k_qs s) q with
  | [] => Ok tt (set_k_qs (<[q := []]> (k_qs s)) s)
  | _ => Fail BadPtr
  end.

Definition rt_ipc_object_init (ipc : ptr) : K Z := queue_init (QSuspend ipc);; mret RT_EOK.

(** The search of [rt_ipc_list_suspend]: the first waiter that is less urgent
    than [prio]. *)
Fixpoint suspend_loop (prio : Z) (l : list ptr) : K (option ptr) :=
  match l with
  | [] => mret None
  | n :: l =>
      sthread ← get_thread n;
      if prio <? th_current_priority sthread then mret (Some n) else suspend_loop prio l
  end.

Definition rt_ipc_list_suspend (list : qid) (thread : ptr) (flag : Z) : K Z :=
  rt_thread_suspend thread;;
  (if flag =? RT_IPC_FLAG_FIFO then enqueue list thread
   else if flag =? RT_IPC_FLAG_PRIO then
     th ← get_thread thread;
     l ← gets (fun s => getq (k_qs s) list);
     n ← suspend_loop (th_current_priority th) l;
     match n with
     | Some sthread => enqueue_before list sthread thread
     | None => enqueue list thread
     end
   else kfail AssertFail);;
  mret RT_EOK.

Definition rt_ipc_list_resume (list : qid) : K Z :=
  thread ← queue_head list;
  rt_thread_resume thread;;
  mret RT_EOK.

(** One unit of fuel per waiter: each round takes one off the queue, and if a
    round could not the loop of the source would not end. *)
Fixpoint resume_all_loop (fuel : nat) (list : qid) : K unit :=
  match fuel with
  | O => kfail OutOfFuel
  | S fuel =>
      empty ← queue_empty list;
      if empty : bool then mret tt
      else
        thread ← queue_head list;
        th ← get_thread thread;
        put_thread thread (set_th_error (- RT_ERROR) th);;
        rt_thread_resume thread;;
        resume_all_loop fuel list
  end.
Definition rt_ipc_list_resume_all (list : qid) : K Z := fun s =>
  (resume_all_loop (S (length (getq (k_qs s) list))) list;; mret RT_EOK) s.

(** [rt_ipc_list_suspend] of the caller, with its timer started if the time is
    positive: the common part of all waits. *)
Definition suspend_with_timeout (list : qid) (thread : ptr) (flag time : Z) : K unit :=
  rt_ipc_list_suspend list thread flag;;
  if 0 <? time then start_thread_timer thread time else mret tt.

(** [thread->error = e] *)
Definition set_error (thread : ptr) (e : Z) : K unit :=
  th ← get_thread thread; put_thread thread (set_th_error e th).

(** ** Semaphores *)
Definition get_sem (sem : ptr) : K rt_semaphore := fun s => lift (k_sems s !! sem) s.
Definition put_sem (sem : ptr) (v : rt_semaphore) : K unit :=
  modify (fun s => set_k_sems (<[sem := v]> (k_sems s)) s).

Definition rt_sem_init (sem : ptr) (name : list Z) (value flag : Z) : K Z :=
  RT_ASSERT (value <? 0x10000);;
  rt_object_init sem RT_Object_Class_Semaphore name;;
  rt_ipc_object_init sem;;
  put_sem sem (Sem (u16 value));;
  put_obj_flag sem flag;;
  mret RT_EOK.

Definition rt_sem_detach (sem : ptr) : K Z :=
  assert_type sem RT_Object_Class_Semaphore;;
  sys ← rt_object_is_systemobject sem; RT_ASSERT sys;;
  rt_ipc_list_resume_all (QSuspend sem);;
  rt_object_detach sem;;
  mret RT_EOK.

Definition rt_sem_create (name : list Z) (value flag : Z) (mem : option ptr) : K (option ptr) :=
  RT_DEBUG_NOT_IN_INTERRUPT;;
  RT_ASSERT (value <? 0x10000);;
  sem ← rt_object_allocate RT_Object_Class_Semaphore name mem;
  match sem with
  | None => mret None
  | Some sem =>
      rt_ipc_object_init sem;;
      put_sem sem (Sem (u16 value));;
      put_obj_flag sem flag;;
      mret (Some sem)
  end.

Definition rt_sem_delete (sem : ptr) : K Z :=
  RT_DEBUG_NOT_IN_INTERRUPT;;
  assert_type sem RT_Object_Class_Semaphore;;
  sys ← rt_object_is_systemobject sem; RT_ASSERT (negb sys);;
  rt_ipc_list_resume_all (QSuspend sem);;
  rt_object_delete sem;;
  mret RT_EOK.

(** The first section of [rt_sem_take]: a result, or the thread that waits. *)
Definition sem_take_section (sem : ptr) (time : Z) : K (Z + ptr) :=
  assert_type sem RT_Object_Class_Semaphore;;
  v ← get_sem sem;
  if 0 <? sem_value v then
    put_sem sem (Sem (u16 (sem_value v - 1)));; mret (inl RT_EOK)
  else if time =? 0 then mret (inl (- RT_ETIMEOUT))
  else
    RT_DEBUG_IN_THREAD_CONTEXT;;
    thread ← self;
    set_error thread RT_EOK;;
    flag ← obj_flag sem;
    suspend_with_timeout (QSuspend sem) thread flag time;;
    mret (inr thread).

(** The code from [rt_schedule()] on: the result is the error the waking left. *)
Definition wait_result (thread : ptr) : K Z := th ← get_thread thread; mret (th_error th).

Definition wait_end (thread : ptr) : proc Z :=
  (e <~ atomic (wait_result thread);
   Ret (if negb (e =? RT_EOK) then e else RT_EOK))%proc.
Definition after_wait (thread : ptr) : proc Z := (atomic rt_schedule ~; wait_end thread)%proc.

Definition rt_sem_take (sem : ptr) (time : Z) : proc Z :=
  (r <~ atomic (sem_take_section sem time);
   match r with inl e => Ret e | inr thread => after_wait thread end)%proc.

Definition rt_sem_trytake (sem : ptr) : proc Z := rt_sem_take sem RT_WAITING_NO.

(** The section of [rt_sem_release]: the result and [need_schedule]. *)
Definition sem_release_section (sem : ptr) : K (Z * bool) :=
  assert_type sem RT_Object_Class_Semaphore;;
  v ← get_sem sem;
  empty ← queue_empty (QSuspend sem);
  if negb empty then rt_ipc_list_resume (QSuspend sem);; mret (RT_EOK, true)
  else if sem_value v <? RT_UINT16_MAX then
    put_sem sem (Sem (u16 (sem_value v + 1)));; mret (RT_EOK, false)
  else mret (- RT_EFULL, false).

Definition rt_sem_release (sem : ptr) : proc Z :=
  (r <~ atomic (sem_release_section sem);
   if snd r then atomic rt_schedule ~; Ret (fst r) else Ret (fst r))%proc.

Inductive ipc_cmd := RT_IPC_CMD_RESET | ipc_cmd_other (cmd : Z).

Definition rt_sem_control (sem : ptr) (cmd : ipc_cmd) (arg : Z) : proc Z :=
  match cmd with
  | RT_IPC_CMD_RESET =>
      (atomic (assert_type sem RT_Object_Class_Semaphore;;
               rt_ipc_list_resume_all (QSuspend sem);;
               put_sem sem (Sem (u16 arg))) ~;
       atomic rt_schedule ~; Ret RT_EOK)%proc
  | ipc_cmd_other _ => (atomic (assert_type sem RT_Object_Class_Semaphore) ~; Ret (- RT_ERROR))%proc
  end.

(** ** The waiting loop of mailboxes and message queues

    [while (condition)] around a wait, entered and left with interrupts
    disabled.  One section runs from the start, or from the return of
    [rt_schedule()], to the point where the caller waits or is done. *)

(** The suspension of the loop's body: the value of [tick_delta]. *)
Definition timed_suspend (list : qid) (o thread : ptr) (timeout : Z) : K Z :=
  flag ← obj_flag o;
  rt_ipc_list_suspend list thread flag;;
  if 0 <? timeout then
    tick_delta ← rt_tick_get;
    start_thread_timer thread timeout;;
    mret tick_delta
  else mret 0.

(** [timeout] after a wait that began at [tick_delta]. *)
Definition remaining (timeout tick_delta now : Z) : Z :=
  if 0 <? timeout then
    let timeout := swrap 32 (timeout - u32 (now - tick_delta)) in
    if timeout <? 0 then 0 else timeout
  else timeout.

(** How a section ends: with a value, with an error to return, or waiting. *)
Inductive ipc_result (A : Type) :=
| ipc_done (a : A)
| ipc_fail (e : Z)
| ipc_wait (thread : ptr) (timeout tick_delta : Z).
Arguments ipc_done {A}.
Arguments ipc_fail {A}.
Arguments ipc_wait {A}.

(** The timeout at the start of a section: as given, or what is left of it. *)
Definition timeout_left (timeout : Z) (since : option Z) : K Z :=
  match since with
  | None => mret timeout
  | Some tick_delta => now ← rt_tick_get; mret (remaining timeout tick_delta now)
  end.

(** The loop: [section timeout since] is told the timeout and, after a wait,
    the tick at which that wait began. *)
Definition ipc_loop {A} (section : Z -> option Z -> K (ipc_result A)) (timeout : Z) : proc (Z + A) :=
  loop (fun st : Z * option Z =>
    r <~ atomic (section (fst st) (snd st));
    match r with
    | ipc_done a => Ret (inr (inr a))
    | ipc_fail e => Ret (inr (inl e))
    | ipc_wait thread timeout tick_delta =>
        atomic rt_schedule ~;
        e <~ atomic (wait_result thread);
        if negb (e =? RT_EOK) then e <~ atomic (wait_result thread); Ret (inr (inl e))
        else Ret (inl (timeout, Some tick_delta))
    end)%proc (timeout, None).

(** [if (!rt_list_isempty(list)) rt_ipc_list_resume(list)]: whether to call
    the scheduler. *)
Definition resume_one (list : qid) : K bool :=
  empty ← queue_empty list;
  if empty : bool then mret false else rt_ipc_list_resume list;; mret true.

(** ** Joining a wait queue *)

Definition is_wait_q (q : qid) : bool := match q with QSuspend _ | QSender _ => true | _ => false end.

Definition prio_of (ths : gmap ptr rt_thread) (t : ptr) : Z :=
  match ths !! t with Some th => th_current_priority th | None => 0 end.

(** The place of a new waiter of priority [prio]: at the tail (FIFO), or before
    the first waiter that is less urgent. *)
Definition joins (ths : gmap ptr rt_thread) (flag prio : Z) (l1 l2 : list ptr) : Prop :=
  (flag = RT_IPC_FLAG_FIFO /\ l2 = []) \/
  (flag = RT_IPC_FLAG_PRIO /\ Forall (fun x => prio_of ths x <= prio) l1 /\
   match l2 with [] => True | y :: _ => prio < prio_of ths y end).

Lemma suspend_loop_run s prio l :
  (forall x, x ∈ l -> is_Some (k_threads s !! x)) ->
  exists l1 l2, l = l1 ++ l2 /\ suspend_loop prio l s = Ok (head l2) s /\
    Forall (fun x => prio_of (k_threads s) x <= prio) l1 /\
    match l2 with [] => True | y :: _ => prio < prio_of (k_threads s) y end.
Proof.
  induction l as [|n l IH]; intros Hl; [exists [], []; by repeat split|].
  destruct (Hl n) as [th Hth]; [set_solver|]. cbn [suspend_loop].
  erewrite run_bind by (by apply get_thread_run).
  assert (prio_of (k_threads s) n = th_current_priority th) as En by (unfold prio_of; by rewrite Hth).
  destruct (Z.ltb_spec prio (th_current_priority th)).
  - exists [], (n :: l). split; [done|]. split; [done|]. split; [done|]. by rewrite En.
  - destruct IH as (l1 & l2 & -> & Hrun & H1 & H2); [intros x Hx; apply Hl; set_solver|].
    exists (n :: l1), l2. split; [done|]. split; [done|]. split; [|done]. constructor; [|done]. by rewrite En.
Qed.

Lemma insert_before_head l1 y l2 t : y ∉ l1 -> insert_before y t (l1 ++ y :: l2) = l1 ++ t :: y :: l2.
Proof.
  induction l1 as [|x l1 IH]; intros Hy; cbn; [by rewrite bool_decide_eq_true_2|].
  rewrite bool_decide_eq_false_2 by set_solver. f_equal. apply IH. set_solver.
Qed.

Lemma with_state_prio v th : th_current_priority (with_state v th) = th_current_priority th.
Proof. done. Qed.

(** What joining the queue [q] does. *)
Record joined (q : qid) (t : ptr) (th : rt_thread) (flag : Z) (s s' : kst) : Prop := {
  jn_cur : k_cur s' = k_cur s;
  jn_threads : k_threads s' = <[t := with_state RT_THREAD_SUSPEND th]> (k_threads s);
  jn_queue : exists l1 l2, getq (k_qs s) q = l1 ++ l2 /\ getq (k_qs s') q = l1 ++ t :: l2 /\
    joins (k_threads s) flag (th_current_priority th) l1 l2;
  jn_others q' : q' <> q -> getq (k_qs s') q' = filter (fun x => x <> t) (getq (k_qs s) q');
  jn_group : k_group s' = k_group (suspended t th s)
}.

Lemma runnable_not_waiting s t th q : sinv s -> k_threads s !! t = Some th -> runnable th ->
  is_wait_q q = true -> t ∉ getq (k_qs s) q.
Proof.
  intros [Hs _] Ht Hr Hq Hin. destruct (qo_fits _ _ (ro_queues _ _ _ Hs) _ _ Hin) as (th' & E & Hf).
  assert (th' = th) as -> by congruence. destruct q; try done; cbn in Hf; destruct Hr as [E'|E']; by rewrite Hf in E'.
Qed.

(** A suspended, unlinked thread can be put anywhere into a wait queue. *)
Lemma kinv_enqueue_at b s t th q l1 l2 :
  kinv_at b s -> k_threads s !! t = Some th -> state_of th = RT_THREAD_SUSPEND ->
  linked t (k_qs s) = false -> is_wait_q q = true -> getq (k_qs s) q = l1 ++ l2 ->
  kinv_at b (set_k_qs (<[q := l1 ++ t :: l2]> (k_qs s)) s).
Proof.
  intros Hk Ht Hst Hl Hq E. destruct (ki_sched _ _ Hk) as [[Hwf Hqo Hg] Hc].
  assert (Hid : forall q, filter (fun x => x <> t) (getq (k_qs s) q) = getq (k_qs s) q).
  { intros q'. rewrite <- getq_unlink. by apply unlink_not_linked. }
  apply (kinv_threads b s); [done| |done..|by eauto|by eauto].
  split; [|done]. split; cbn; [done|..].
  - rewrite <- (insert_id (k_threads s) t th) by done.
    eapply (queues_ok_move _ _ t th (Some q)); [done|..|done].
    + intros q' Hne. rewrite getq_insert_ne by congruence. by rewrite Hid.
    + intros q' [= <-]. split; [destruct q; done|]. exists l1, l2. by rewrite getq_insert_eq, Hid.
  - eapply group_ok_same; [done|]. intros p. by rewrite getq_insert_ne by (intros ->; done).
Qed.

Lemma rt_ipc_list_suspend_ok b s q t th flag :
  kinv_at b s -> k_threads s !! t = Some th -> runnable th -> is_wait_q q = true ->
  flag = RT_IPC_FLAG_FIFO \/ flag = RT_IPC_FLAG_PRIO ->
  exists s', rt_ipc_list_suspend q t flag s = Ok RT_EOK s' /\ kinv_at b s' /\ sched_frame s s' /\
    joined q t th flag s s'.
Proof.
  intros Hk Ht Hr Hq Hflag. destruct (suspended_ok _ s t th Hk Ht Hr) as [Hk1 _].
  set (s1 := suspended t th s) in *.
  assert (k_threads s1 !! t = Some (with_state RT_THREAD_SUSPEND th)) as Ht1 by apply lookup_insert_eq.
  assert (state_of (with_state RT_THREAD_SUSPEND th) = RT_THREAD_SUSPEND) as Hst1 by (by apply state_with_state).
  assert (linked t (k_qs s1) = false) as Hl1 by (cbn; apply linked_removed).
  assert (Hq1 : getq (k_qs s1) q = getq (k_qs s) q).
  { unfold s1. rewrite getq_suspended. apply filter_id. intros x Hx ->.
    by eapply (runnable_not_waiting s t th q); [apply Hk|..]. }
  assert (Hfin : forall l1 l2, getq (k_qs s) q = l1 ++ l2 ->
    joins (k_threads s) flag (th_current_priority th) l1 l2 ->
    let s' := set_k_qs (<[q := l1 ++ t :: l2]> (k_qs s1)) s1 in
    kinv_at b s' /\ sched_frame s s' /\ joined q t th flag s s').
  { intros l1 l2 E Hj s'. split; [|split; [|split]].
    - eapply kinv_enqueue_at; try done. by rewrite Hq1.
    - unfold sched_frame. rewrite <- (frame_suspended t th s). done.
    - unfold s', s1, suspended. cbn. by rewrite cur_removed.
    - done.
    - exists l1, l2. split; [done|]. split; [|done]. cbn. by rewrite getq_insert_eq.
    - intros q' Hne. change (k_qs s') with (<[q := l1 ++ t :: l2]> (k_qs s1)).
      rewrite getq_insert_ne by done. apply getq_suspended.
    - done. }
  unfold rt_ipc_list_suspend. erewrite run_bind by (by eapply rt_thread_suspend_run). fold s1.
  destruct Hflag as [->| ->].
  - destruct (Hfin (getq (k_qs s) q) []) as (Hk' & Hf' & Hj'); [by rewrite app_nil_r|by left|].
    eexists. split; [|done]. cbn [Z.eqb]. change (RT_IPC_FLAG_FIFO =? RT_IPC_FLAG_FIFO) with true. cbv iota.
    erewrite run_bind by (by apply enqueue_run). by rewrite Hq1.
  - change (RT_IPC_FLAG_PRIO =? RT_IPC_FLAG_FIFO) with false.
    change (RT_IPC_FLAG_PRIO =? RT_IPC_FLAG_PRIO) with true. cbv iota.
    destruct (suspend_loop_run s1 (th_current_priority th) (getq (k_qs s) q)) as (l1 & l2 & E & Hrun & H1 & H2).
    { intros x Hx. rewrite <- Hq1 in Hx.
      destruct (qo_fits _ _ (ro_queues _ _ _ (proj1 (ki_sched _ _ Hk1))) _ _ Hx) as (? & ? & _). eauto. }
    assert (Hprio : forall x, prio_of (k_threads s1) x = prio_of (k_threads s) x).
    { intros x. unfold prio_of. cbn. destruct (decide (x = t)) as [->|]; [by rewrite lookup_insert_eq, Ht|].
      by rewrite lookup_insert_ne. }
    destruct (Hfin l1 l2) as (Hk' & Hf' & Hj'); [done| |].
    { right. split; [done|]. split.
      - eapply Forall_impl; [exact H1|]. intros x Hx. by rewrite <- Hprio.
      - destruct l2; [done|]. by rewrite <- Hprio. }
    eexists. split; [|done].
    assert ((th ← get_thread t; l ← gets (fun s => getq (k_qs s) q); n ← suspend_loop (th_current_priority th) l;
      match n with Some sthread => enqueue_before q sthread t | None => enqueue q t end) s1
      = Ok tt (set_k_qs (<[q := l1 ++ t :: l2]> (k_qs s1)) s1)) as Hmid.
    { erewrite run_bind by (by apply get_thread_run). erewrite run_bind by done. rewrite Hq1.
      rewrite (run_bind _ _ _ _ _ Hrun). destruct l2 as [|y l2]; cbn [head].
      - rewrite enqueue_run by done. by rewrite Hq1, E, app_nil_r.
      - rewrite enqueue_before_run; [|done|rewrite Hq1, E; set_solver].
        rewrite Hq1, E, insert_before_head; [done|].
        pose proof (qo_nodup _ _ (ro_queues _ _ _ (proj1 (ki_sched _ _ Hk))) q) as Hnd. rewrite E in Hnd.
        apply NoDup_app in Hnd as (_ & Hd & _). intros Hy. apply (Hd y Hy). set_solver. }
    by rewrite (run_bind _ _ _ _ _ Hmid).
Qed.

Lemma joined_touch q t th th' flag s s' :
  k_threads s !! t = Some th -> th_current_priority th' = th_current_priority th ->
  joined q t th' flag (set_k_threads (<[t := th']> (k_threads s)) s) s' -> joined q t th' flag s s'.
Proof.
  intros Ht Hp [H1 H2 (l1 & l2 & E & E' & Hj) H4 H5]. cbn in H2. rewrite insert_insert_eq in H2. split; try done.
  - exists l1, l2. split; [done|]. split; [done|].
    assert (Hprio : forall x, prio_of (<[t := th']> (k_threads s)) x = prio_of (k_threads s) x).
    { intros x. unfold prio_of. destruct (decide (x = t)) as [->|]; [by rewrite lookup_insert_eq, Ht|].
      by rewrite lookup_insert_ne. }
    destruct Hj as [|(Hf & H6 & H7)]; [by left|right]. split; [done|]. cbn in H6, H7. split.
    + eapply Forall_impl; [exact H6|]. intros x Hx. by rewrite <- Hprio.
    + destruct l2; [done|]. by rewrite <- Hprio.
  - rewrite H5. unfold suspended, removed. cbn [k_qs k_group set_k_qs set_k_threads]. by destruct (bool_decide _).
Qed.

(** The caller waits in [q], its record being [th], for at most [time] ticks
    ([time <= 0]: for ever). *)
Record waits (q : qid) (t : ptr) (th : rt_thread) (flag time : Z) (s s' : kst) : Prop := {
  wt_kinv : kinv s';
  wt_step : kstep s s';
  wt_joined : joined q t th flag s s';
  wt_timer : 0 < time -> asleep t time s';
  wt_forever : time <= 0 -> k_tlist s' = k_tlist s;
  wt_length : (length (k_tlist s') <= S (length (k_tlist s)))%nat;
  wt_timers p : p ∈ k_tlist s' -> p ∈ k_tlist s \/ p = thread_timer t
}.

Lemma joined_timer q t th flag s s1 s' :
  joined q t th flag s s1 -> timer_rest s' = timer_rest s1 -> joined q t th flag s s'.
Proof.
  intros [H1 H2 H3 H4 H5] Hr. destruct (rest_fields _ _ Hr) as (E1 & E2 & E3 & E4 & _).
  split; rewrite ?E1, ?E2, ?E3, ?E4; assumption.
Qed.

Lemma suspend_with_timeout_ok s q t th flag time :
  kinv s -> k_threads s !! t = Some th -> runnable th -> is_wait_q q = true ->
  flag = RT_IPC_FLAG_FIFO \/ flag = RT_IPC_FLAG_PRIO -> time < HALF_TICK ->
  exists s', suspend_with_timeout q t flag time s = Ok tt s' /\ waits q t th flag time s s'.
Proof.
  intros Hk Ht Hr Hq Hf Htime.
  destruct (rt_ipc_list_suspend_ok _ s q t th flag Hk Ht Hr Hq Hf) as (s1 & Hrun & Hk1 & F & Hj).
  unfold suspend_with_timeout. rewrite (run_bind _ _ _ _ _ Hrun).
  assert (kinv s1) as Hk1' by (unfold kinv; by rewrite (fr_tick F)).
  destruct (Z.ltb_spec 0 time) as [Hpos|Hneg].
  - assert (k_threads s1 !! t = Some (with_state RT_THREAD_SUSPEND th)) as Ht1.
    { rewrite (jn_threads _ _ _ _ _ _ Hj). apply lookup_insert_eq. }
    destruct (start_thread_timer_ok s1 t _ time Hk1' Ht1) as (s2 & l1 & l2 & Hrun2 & Hk2 & Hrest & Ho & Ha & El & El' & _);
      [by apply state_with_state|lia|].
    exists s2. split; [done|]. split; [done| | |done|lia| |].
    + eapply kstep_trans; [by apply sched_frame_kstep|]. split; [|done]. apply (rest_fields _ _ Hrest).
    + by eapply joined_timer.
    + rewrite El'. apply (f_equal length) in El. rewrite length_app in El |- *. cbn.
      pose proof (length_filter (fun x => x <> thread_timer t) (k_tlist s1)). rewrite (fr_tlist F) in *. lia.
    + intros p. rewrite El'. intros Hp.
      assert (p ∈ l1 ++ l2 \/ p = thread_timer t) as [Hin| ->] by set_solver; [|by right].
      left. rewrite <- El, list_elem_of_filter, (fr_tlist F) in Hin. by destruct Hin.
  - exists s1. split; [done|]. split; [done| |done|lia| | |].
    + by apply sched_frame_kstep.
    + intros _. apply (fr_tlist F).
    + rewrite (fr_tlist F). lia.
    + intros p. rewrite (fr_tlist F). by left.
Qed.

Lemma waits_touch q t th th' flag time s s' :
  k_threads s !! t = Some th -> th_current_priority th' = th_current_priority th ->
  waits q t th' flag time (set_k_threads (<[t := th']> (k_threads s)) s) s' -> waits q t th' flag time s s'.
Proof.
  intros Ht Hp [H1 H2 H3 H4 H5 H6 H7]. split; try done.
  - by destruct H2.
  - by eapply joined_touch.
Qed.

(** The usual beginning of a wait: [thread->error = RT_EOK], then the queue. *)
Definition with_error (t : ptr) (th : rt_thread) (e : Z) (s : kst) : kst :=
  set_k_threads (<[t := set_th_error e th]> (k_threads s)) s.

Lemma with_error_twice t th e e' s :
  with_error t (set_th_error e th) e' (with_error t th e s) = with_error t th e' s.
Proof. unfold with_error. cbn. by rewrite insert_insert_eq. Qed.

Lemma set_error_run s t th e : k_threads s !! t = Some th -> set_error t e s = Ok tt (with_error t th e s).
Proof. intros H. unfold set_error. by erewrite run_bind by (by apply get_thread_run). Qed.

Lemma kinv_with_error b s t th e : kinv_at b s -> k_threads s !! t = Some th -> kinv_at b (with_error t th e s).
Proof.
  intros Hk Ht. pose proof (ro_wf _ _ _ (proj1 (ki_sched _ _ Hk)) _ _ Ht) as Hwf.
  by apply (kinv_touch _ s t th).
Qed.

Lemma wait_ok s q t th flag time :
  kinv s -> k_threads s !! t = Some th -> runnable th -> is_wait_q q = true ->
  flag = RT_IPC_FLAG_FIFO \/ flag = RT_IPC_FLAG_PRIO -> time < HALF_TICK ->
  exists s', suspend_with_timeout q t flag time (with_error t th RT_EOK s) = Ok tt s' /\
    waits q t (set_th_error RT_EOK th) flag time s s'.
Proof.
  intros Hk Ht Hr Hq Hf Htime.
  destruct (suspend_with_timeout_ok (with_error t th RT_EOK s) q t (set_th_error RT_EOK th) flag time)
    as (s' & Hrun & Hw); [by apply kinv_with_error|apply lookup_insert_eq|done..|].
  exists s'. split; [done|by eapply waits_touch].
Qed.

(** ** IPC objects *)

(** A well-formed IPC object: its header, its class, a legal queue order. *)
Definition ipc_object (s : kst) (o : ptr) (cls : Z) (ob : rt_object) : Prop :=
  k_objs s !! o = Some ob /\ ob_class ob = cls /\
  (ob_flag ob = RT_IPC_FLAG_FIFO \/ ob_flag ob = RT_IPC_FLAG_PRIO).

Lemma ipc_assert_run s o cls ob : ipc_object s o cls ob -> assert_type o cls s = Ok tt s.
Proof. intros (H & Hc & _). by eapply assert_type_run. Qed.
Lemma ipc_flag_run s o cls ob : ipc_object s o cls ob -> obj_flag o s = Ok (ob_flag ob) s.
Proof. intros (H & _). by apply obj_flag_run. Qed.

Lemma queue_empty_run s q : queue_empty q s = Ok (match getq (k_qs s) q with [] => true | _ => false end) s.
Proof. done. Qed.

(** A thread found in a wait queue is suspended. *)
Lemma waiter_suspended s q t : sinv s -> is_wait_q q = true -> t ∈ getq (k_qs s) q ->
  exists th, k_threads s !! t = Some th /\ state_of th = RT_THREAD_SUSPEND.
Proof.
  intros [Hs _] Hq Hin. destruct (qo_fits _ _ (ro_queues _ _ _ Hs) _ _ Hin) as (th & E & Hf).
  exists th. split; [done|]. by destruct q.
Qed.

Lemma rt_ipc_list_resume_ok b s q t l :
  kinv_at b s -> is_wait_q q = true -> getq (k_qs s) q = t :: l ->
  exists th s', k_threads s !! t = Some th /\ state_of th = RT_THREAD_SUSPEND /\
    rt_ipc_list_resume q s = Ok RT_EOK s' /\ kinv_at b s' /\ kstep s s' /\ woken t th s s'.
Proof.
  intros Hk Hq E. destruct (waiter_suspended s q t (ki_sched _ _ Hk) Hq) as (th & Ht & Hst); [rewrite E; set_solver|].
  destruct (rt_thread_resume_ok b s t th Hk Ht Hst) as (s' & Hrun & Hk' & Hstep & Hw).
  exists th, s'. split; [done|]. split; [done|]. split; [|done]. unfold rt_ipc_list_resume.
  erewrite run_bind by (by eapply queue_head_run). by rewrite (run_bind _ _ _ _ _ Hrun).
Qed.

(** Waking removes the thread from its queue and from no other wait queue. *)
Lemma woken_wait_queue t th s s' q : woken t th s s' -> is_wait_q q = true ->
  getq (k_qs s') q = filter (fun x => x <> t) (getq (k_qs s) q).
Proof.
  intros H Hq. rewrite (wk_queues _ _ _ _ H). unfold woken_q. repeat case_decide; subst; try done; by rewrite app_nil_r.
Qed.

Lemma woken_head t th s s' q l : sinv s -> woken t th s s' -> is_wait_q q = true ->
  getq (k_qs s) q = t :: l -> getq (k_qs s') q = l.
Proof.
  intros [Hs _] H Hq E. rewrite (woken_wait_queue t th s s' q), E by done.
  pose proof (qo_nodup _ _ (ro_queues _ _ _ Hs) q) as Hnd. rewrite E in Hnd. apply NoDup_cons in Hnd as [Hn _].
  rewrite filter_cons_False by tauto. apply filter_id. by intros x Hx ->.
Qed.

Lemma kinv_put_sems b s m : kinv_at b s -> kinv_at b (set_k_sems m s).
Proof. intros Hk. apply (kinv_ext b s); try done. apply Hk. Qed.

(** [rt_ipc_list_resume_all]: every waiter becomes runnable with error
    -RT_ERROR and the queue is empty. *)
Definition cancelled (ts : list ptr) (x : ptr) (th : rt_thread) (c : option ptr) : rt_thread :=
  if decide (x ∈ ts) then with_state (woken_state c x) (set_th_error (- RT_ERROR) th) else th.

Lemma resume_all_loop_ok b q l s fuel :
  kinv_at b s -> is_wait_q q = true -> getq (k_qs s) q = l -> (length l < fuel)%nat ->
  exists s', resume_all_loop fuel q s = Ok tt s' /\ kinv_at b s' /\ kstep s s' /\ k_cur s' = k_cur s /\
    getq (k_qs s') q = [] /\
    (forall q', is_wait_q q' = true -> q' <> q -> getq (k_qs s') q' = filter (fun x => x ∉ l) (getq (k_qs s) q')) /\
    (forall x, k_threads s' !! x = (fun th => cancelled l x th (k_cur s)) <$> k_threads s !! x).
Proof.
  revert s fuel. induction l as [|t l IH]; intros s fuel Hk Hq E Hfuel; (destruct fuel as [|fuel]; [cbn in Hfuel; lia|]);
    cbn [resume_all_loop]; (erewrite run_bind by (by apply queue_empty_run)); rewrite E.
  - exists s. split; [done|split; [done|split; [apply kstep_refl|split; [done|split; [done|split]]]]].
    + intros q' _ _. symmetry. apply filter_id. intros x _. apply not_elem_of_nil.
    + intros x. destruct (k_threads s !! x); [|done]. cbn. unfold cancelled.
      by rewrite decide_False by apply not_elem_of_nil.
  - destruct (waiter_suspended s q t (ki_sched _ _ Hk) Hq) as (th & Ht & Hst); [rewrite E; set_solver|].
    set (th' := set_th_error (- RT_ERROR) th). set (s0 := set_k_threads (<[t := th']> (k_threads s)) s).
    pose proof (ro_wf _ _ _ (proj1 (ki_sched _ _ Hk)) _ _ Ht) as Hwf.
    assert (kinv_at b s0) as Hk0 by (by apply (kinv_touch _ s t th th')).
    destruct (rt_thread_resume_ok b s0 t th' Hk0) as (s1 & Hrun & Hk1 & Hstep & Hw); [apply lookup_insert_eq|done|].
    destruct (IH s1 fuel Hk1 Hq) as (s' & Hrun' & Hk' & Hstep' & Hc' & Hq' & Ho' & Ht').
    { by eapply (woken_head t th' s0); [apply Hk0|..]. }
    { cbn in Hfuel. lia. }
    pose proof (wk_cur _ _ _ _ Hw) as Hc1. cbn in Hc1. exists s'. split.
    { erewrite run_bind by (by eapply queue_head_run). erewrite run_bind by (by apply get_thread_run).
      erewrite run_bind by done. fold th'. unfold modify. fold s0. by rewrite (run_bind _ _ _ _ _ Hrun). }
    split; [done|]. split; [|split; [by rewrite Hc'|split; [done|split]]].
    + eapply kstep_trans; [|exact Hstep']. by destruct Hstep.
    + intros q'' Hw'' Hne. rewrite Ho' by done. rewrite (woken_wait_queue t th' s0 s1) by done.
      rewrite list_filter_filter. apply list_filter_iff. intros x. rewrite not_elem_of_cons. tauto.
    + intros x. rewrite Ht', (wk_threads _ _ _ _ Hw). cbn [k_threads set_k_threads s0]. rewrite insert_insert_eq, Hc1.
      assert (t ∉ l) as Hnl.
      { pose proof (qo_nodup _ _ (ro_queues _ _ _ (proj1 (ki_sched _ _ Hk))) q) as Hnd. rewrite E in Hnd.
        by apply NoDup_cons in Hnd as [Hn _]. }
      unfold cancelled. destruct (decide (x = t)) as [->|Hne].
      * rewrite lookup_insert_eq, Ht. cbn. rewrite decide_False by done. by rewrite decide_True by set_solver.
      * rewrite lookup_insert_ne by done. destruct (k_threads s !! x) as [thx|]; [|done]. cbn. f_equal.
        destruct (decide (x ∈ l)); [by rewrite decide_True by set_solver|by rewrite decide_False by set_solver].
Qed.

Lemma rt_ipc_list_resume_all_ok b q s :
  kinv_at b s -> is_wait_q q = true ->
  exists s', rt_ipc_list_resume_all q s = Ok RT_EOK s' /\ kinv_at b s' /\ kstep s s' /\ k_cur s' = k_cur s /\
    getq (k_qs s') q = [] /\
    (forall q', is_wait_q q' = true -> q' <> q ->
       getq (k_qs s') q' = filter (fun x => x ∉ getq (k_qs s) q) (getq (k_qs s) q')) /\
    (forall x, k_threads s' !! x = (fun th => cancelled (getq (k_qs s) q) x th (k_cur s)) <$> k_threads s !! x).
Proof.
  intros Hk Hq. destruct (resume_all_loop_ok b q _ s (S (length (getq (k_qs s) q))) Hk Hq eq_refl) as (s' & Hrun & H); [lia|].
  exists s'. split; [|done]. unfold rt_ipc_list_resume_all. by rewrite (run_bind _ _ _ _ _ Hrun).
Qed.

(** ** What happens between the sections of IPC code

    A tick interrupt or a call of the scheduler, from a good state with a
    current thread: IPC objects keep their data and can only lose waiters. *)
Inductive background (app : positive -> ptr -> K unit) : kst -> kst -> Prop :=
| background_tick fuel s s' : (length (k_tlist s) < fuel)%nat ->
    @SysTick_Handler (thread_timeouts app) fuel s = Ok tt s' -> background app s s'
| background_schedule s s' : rt_schedule s = Ok tt s' -> background app s s'.

(** The states IPC code runs in. *)
Record calm (s : kst) : Prop := {
  cm_kinv : kinv s;
  cm_cur : is_Some (k_cur s);
  cm_nest : k_nest s = 0
}.

(** A thread keeps its priority and the bits it waits for, and is not closed. *)
Definition kept (th th' : rt_thread) : Prop :=
  (th_current_priority th', th_event_set th', th_event_info th')
    = (th_current_priority th, th_event_set th, th_event_info th) /\
  (state_of th <> RT_THREAD_CLOSE -> state_of th' <> RT_THREAD_CLOSE).

Record quiet (s s' : kst) : Prop := {
  qt_rest : tick_rest s' = tick_rest s;
  qt_objs : objs_step (k_objs s) (k_objs s');
  qt_queues q : is_wait_q q = true -> getq (k_qs s') q `sublist_of` getq (k_qs s) q;
  qt_threads x : match k_threads s !! x with
                 | Some th => exists th', k_threads s' !! x = Some th' /\ kept th th'
                 | None => k_threads s' !! x = None
                 end;
  qt_runnable x th : k_threads s !! x = Some th -> runnable th ->
    exists th', k_threads s' !! x = Some th' /\ runnable th';
  qt_switched : switched s s';
  qt_tlist p : p ∈ k_tlist s' -> p ∈ k_tlist s;
  qt_error x : thread_timer x ∉ k_tlist s -> th_error <$> k_threads s' !! x = th_error <$> k_threads s !! x;
  qt_stays q x : is_wait_q q = true -> thread_timer x ∉ k_tlist s -> x ∈ getq (k_qs s) q -> x ∈ getq (k_qs s') q
}.

#[export] Instance runnable_dec th : Decision (runnable th).
Proof. unfold runnable. apply _. Defined.

Lemma same_but_stat_kept th th' : same_but_stat th th' -> kept th th'.
Proof.
  intros (E & H1 & H2). split; [by rewrite E|]. intros Hc. destruct (decide (runnable th')) as [[->| ->]|Hn]; [done..|].
  rewrite H2; [done|]. intros Hr. by apply Hn, H1.
Qed.

Lemma tick_rel_kept ts x th th' :
  tick_rel (expired ts x th) th' -> kept th th'.
Proof.
  intros (E & H1 & H2). unfold expired in *. destruct (decide (x ∈ ts)).
  - split; [by rewrite E|]. intros _. assert (runnable th') as [->| ->]; [|done..].
    apply H1. left. by apply state_with_state.
  - split; [by rewrite E|]. intros Hc. destruct (decide (runnable th')) as [[->| ->]|Hn]; [done..|].
    rewrite H2; [done|]. intros Hr. by apply Hn, H1.
Qed.


Lemma wait_not_ready q : is_wait_q q = true -> is_ready_q q = false.
Proof. by destruct q. Qed.

Lemma untimed_not_due b s x : kinv s -> thread_timer x ∉ k_tlist s -> x ∉ due_threads b s.
Proof.
  intros Hk Hx. unfold due_threads. rewrite list_elem_of_fmap. intros (p & -> & Hp). apply list_elem_of_filter in Hp as [_ Hp].
  destruct (ki_waits _ _ Hk p Hp) as (t & _ & -> & _). done.
Qed.

Lemma background_ok app s s' : calm s -> background app s s' -> calm s' /\ quiet s s'.
Proof.
  intros [Hk Hc Hn] H. destruct H as [fuel s s' Hf Hrun|s s' Hrun].
  - destruct (SysTick_ok app fuel s Hk Hc) as (s1 & Hrun1 & Hk1 & Ht); [by rewrite Hn|done|].
    assert (Ok tt s' = Ok tt s1) as E by exact (eq_trans (eq_sym Hrun) Hrun1). injection E as <-. split.
    + split; [done|apply Ht|]. rewrite (ticked_nest _ _ Ht). done.
    + split; [apply Ht|apply Ht|..].
      * intros q Hq. rewrite (tk_queues _ _ Ht) by (by apply wait_not_ready). apply sublist_filter.
      * intros x. pose proof (tk_threads _ _ Ht x) as Hx. destruct (k_threads s !! x) as [th|]; [|done].
        destruct Hx as (th' & E' & Hx). exists th'. split; [done|]. by eapply tick_rel_kept.
      * intros x th Ex Hr. pose proof (tk_threads _ _ Ht x) as Hx. rewrite Ex in Hx. destruct Hx as (th' & E' & _ & Hx & _).
        exists th'. split; [done|]. apply Hx. unfold expired. case_decide; [|done]. left. by apply state_with_state.
      * apply Ht.
      * intros p. rewrite (tk_tlist _ _ Ht), list_elem_of_filter. by intros [_ ?].
      * intros x Hx. pose proof (tk_threads _ _ Ht x) as Hth. destruct (k_threads s !! x) as [th|]; [|by rewrite Hth].
        destruct Hth as (th' & E' & E & _). rewrite E'. cbn. f_equal. rewrite E. unfold expired. rewrite decide_False; [by destruct th|].
        by apply untimed_not_due.
      * intros q x Hq Hx Hin. rewrite (tk_queues _ _ Ht) by (by apply wait_not_ready). apply list_elem_of_filter.
        split; [by apply untimed_not_due|done].
  - destruct (rt_schedule_ok s (ki_sched _ _ Hk) Hc) as (s1 & Hrun1 & Hs1 & Hstep).
    rewrite Hrun in Hrun1. injection Hrun1 as <-. pose proof (ss_frame _ _ Hstep) as F. split.
    + split.
      * unfold kinv. rewrite (fr_tick F). by eapply kinv_sched_step.
      * by apply (ss_cur _ _ Hstep).
      * by rewrite (fr_nest F).
    + split.
      * unfold tick_rest. by rewrite (ks_rest _ _ (sched_frame_kstep _ _ F)).
      * rewrite (fr_objs F). apply objs_step_refl.
      * intros q Hq. by rewrite (ss_queues _ _ Hstep) by (by apply wait_not_ready).
      * intros x. pose proof (ss_threads _ _ Hstep x) as Hx. destruct (k_threads s !! x) as [th|]; [|done].
        destruct Hx as (th' & E & Hx). exists th'. split; [done|]. by apply same_but_stat_kept.
      * intros x th. by apply sched_step_runnable.
      * apply Hstep.
      * intros p. by rewrite (fr_tlist F).
      * intros x _. pose proof (ss_threads _ _ Hstep x) as Hx. destruct (k_threads s !! x) as [th|]; [|by rewrite Hx].
        destruct Hx as (th' & E & E' & _). rewrite E. cbn. by rewrite E'.
      * intros q x Hq _. by rewrite (ss_queues _ _ Hstep) by (by apply wait_not_ready).
Qed.

Lemma ipc_object_step s s' o cls ob : objs_step (k_objs s) (k_objs s') -> cls <> RT_Object_Class_Timer ->
  ipc_object s o cls ob -> ipc_object s' o cls ob.
Proof.
  intros H Hne (Ho & Hc & Hf). split; [|done]. specialize (H o). rewrite Ho in H. destruct H as (v & E & Hv).
  by rewrite E, (Hv ltac:(congruence)), set_flag_same.
Qed.

Lemma quiet_empty s s' q : quiet s s' -> is_wait_q q = true -> getq (k_qs s) q = [] -> getq (k_qs s') q = [].
Proof. intros H Hq E. pose proof (qt_queues _ _ H q Hq) as Hs. rewrite E in Hs. by apply sublist_nil_r in Hs. Qed.

(** ** Semaphore properties *)

Lemma get_sem_run s o v : k_sems s !! o = Some v -> get_sem o s = Ok v s.
Proof. unfold get_sem. by intros ->. Qed.

Lemma sem_wait_ok s t th o ob v time :
  kinv s -> k_cur s = Some t -> k_threads s !! t = Some th -> runnable th -> k_nest s = 0 ->
  ipc_object s o RT_Object_Class_Semaphore ob -> k_sems s !! o = Some v ->
  ~ 0 < sem_value v -> time <> 0 -> time < HALF_TICK ->
  exists s', sem_take_section o time s = Ok (inr t) s' /\
    waits (QSuspend o) t (set_th_error RT_EOK th) (ob_flag ob) time s s'.
Proof.
  intros Hk Hc Ht Hr Hn Ho Hv Hpos Hnz Hlt.
  destruct (wait_ok s (QSuspend o) t th (ob_flag ob) time Hk Ht Hr eq_refl (proj2 (proj2 Ho)) Hlt) as (s' & Hrun & Hw).
  exists s'. split; [|done]. unfold sem_take_section. erewrite run_bind by (by eapply ipc_assert_run).
  erewrite run_bind by (by apply get_sem_run). destruct (Z.ltb_spec 0 (sem_value v)); [lia|].
  destruct (Z.eqb_spec time 0); [lia|]. erewrite run_bind by (by eapply in_thread_context_run).
  erewrite run_bind by (by apply self_run). erewrite run_bind by (by apply set_error_run).
  erewrite run_bind by (by eapply (ipc_flag_run _ _ RT_Object_Class_Semaphore ob)).
  by rewrite (run_bind _ _ _ _ _ Hrun).
Qed.

Lemma wait_end_run s t th : k_threads s !! t = Some th ->
  step (wait_end t) s = Ok (Ret (th_error th)) s.
Proof.
  intros Ht. step_to (th_error th).
  - unfold wait_result. by erewrite run_bind by (by apply get_thread_run).
  - destruct (Z.eqb_spec (th_error th) RT_EOK) as [->|]; done.
Qed.

(** C36: [rt_sem_take(sem, time)] by the running thread: a positive value is
    decremented and the call returns RT_EOK at once; with value 0 and time 0
    it returns -RT_ETIMEOUT and changes nothing; otherwise the caller, with
    its error cleared, becomes a suspended waiter of the semaphore, at the
    tail of the queue or behind the last waiter at least as urgent, according
    to the object's flag, with its timer due in [time] ticks if [time] is
    positive and without a timer if it is negative. *)
Theorem rt_sem_take_spec s t th o ob v time :
  kinv s -> k_cur s = Some t -> k_threads s !! t = Some th -> runnable th -> k_nest s = 0 ->
  ipc_object s o RT_Object_Class_Semaphore ob -> k_sems s !! o = Some v ->
  0 <= sem_value v <= RT_UINT16_MAX -> time < HALF_TICK ->
  if 0 <? sem_value v then
    step (rt_sem_take o time) s = Ok (Ret RT_EOK) (set_k_sems (<[o := Sem (sem_value v - 1)]> (k_sems s)) s)
  else if time =? 0 then step (rt_sem_take o time) s = Ok (Ret (- RT_ETIMEOUT)) s
  else exists s', step (rt_sem_take o time) s = Ok (after_wait t) s' /\
    waits (QSuspend o) t (set_th_error RT_EOK th) (ob_flag ob) time s s'.
Proof.
  intros Hk Hc Ht Hr Hn Ho Hv Hrange Hlt. destruct (Z.ltb_spec 0 (sem_value v)) as [Hpos|Hneg].
  - step_to (inl RT_EOK : Z + ptr). unfold sem_take_section. erewrite run_bind by (by eapply ipc_assert_run).
    erewrite run_bind by (by apply get_sem_run). destruct (Z.ltb_spec 0 (sem_value v)); [|lia].
    erewrite run_bind by done. unfold RT_UINT16_MAX in Hrange.
    by rewrite wrap_small by (change (2 ^ 16) with 65536; lia).
  - destruct (Z.eqb_spec time 0) as [->|Hnz].
    + step_to (inl (- RT_ETIMEOUT) : Z + ptr). unfold sem_take_section. erewrite run_bind by (by eapply ipc_assert_run).
      erewrite run_bind by (by apply get_sem_run). by destruct (Z.ltb_spec 0 (sem_value v)); [lia|].
    + destruct (sem_wait_ok s t th o ob v time) as (s' & Hrun & Hw); try done; [lia|].
      exists s'. split; [|done]. by step_to (inr t : Z + ptr).
Qed.

(** [rt_sem_release(sem)]: with waiters, the first one leaves the queue and
    becomes runnable with its record unchanged - so a waiter whose error is
    still RT_EOK gets RT_EOK from its take - and the value stays as it was;
    without waiters the value is incremented, up to 65535, where the call
    returns -RT_EFULL and changes nothing. *)
Theorem rt_sem_release_spec s o ob v :
  kinv s -> ipc_object s o RT_Object_Class_Semaphore ob -> k_sems s !! o = Some v ->
  0 <= sem_value v <= RT_UINT16_MAX ->
  match getq (k_qs s) (QSuspend o) with
  | t :: l =>
      exists th s', k_threads s !! t = Some th /\
        step (rt_sem_release o) s = Ok (atomic rt_schedule ~; Ret RT_EOK)%proc s' /\ kinv s' /\ kstep s s' /\
        woken t th s s' /\ getq (k_qs s') (QSuspend o) = l /\
        (th_error th = RT_EOK -> forall s1 th1, k_threads s1 !! t = Some th1 -> th_error th1 = th_error th ->
           step (wait_end t) s1 = Ok (Ret RT_EOK) s1)
  | [] =>
      step (rt_sem_release o) s =
      if sem_value v <? RT_UINT16_MAX
      then Ok (Ret RT_EOK) (set_k_sems (<[o := Sem (sem_value v + 1)]> (k_sems s)) s)
      else Ok (Ret (- RT_EFULL)) s
  end.
Proof.
  intros Hk Ho Hv Hrange. destruct (getq (k_qs s) (QSuspend o)) as [|t l] eqn:E.
  - destruct (Z.ltb_spec (sem_value v) RT_UINT16_MAX);
      [step_to (RT_EOK, false)|step_to (- RT_EFULL, false)];
      unfold sem_release_section; (erewrite run_bind by (by eapply ipc_assert_run));
      (erewrite run_bind by (by apply get_sem_run)); (erewrite run_bind by (by apply queue_empty_run)); rewrite E;
      cbn [negb]; destruct (Z.ltb_spec (sem_value v) RT_UINT16_MAX); try lia; [|done].
    erewrite run_bind by done. unfold RT_UINT16_MAX in *.
    by rewrite wrap_small by (change (2 ^ 16) with 65536; lia).
  - destruct (rt_ipc_list_resume_ok _ s (QSuspend o) t l Hk eq_refl E) as (th & s' & Ht & Hst & Hrun & Hk' & Hstep & Hw).
    exists th, s'. split; [done|]. split; [|split; [|split; [done|split; [done|split]]]].
    + step_to (RT_EOK, true). unfold sem_release_section. erewrite run_bind by (by eapply ipc_assert_run).
      erewrite run_bind by (by apply get_sem_run). erewrite run_bind by (by apply queue_empty_run). rewrite E.
      cbn [negb]. by rewrite (run_bind _ _ _ _ _ Hrun).
    + unfold kinv. by rewrite (ks_tick Hstep).
    + eapply woken_head; [apply Hk|done..].
    + intros He s1 th1 Ht1 Herr. rewrite (wait_end_run s1 t th1 Ht1). by rewrite Herr, He.
Qed.

(** ** Sections of the waiting loop *)

Lemma timed_suspend_ok s q o cls ob t th timeout :
  calm s -> k_threads s !! t = Some th -> runnable th -> is_wait_q q = true ->
  ipc_object s o cls ob -> timeout < HALF_TICK ->
  exists td s', timed_suspend q o t timeout (with_error t th RT_EOK s) = Ok td s' /\
    waits q t (set_th_error RT_EOK th) (ob_flag ob) timeout s s' /\ (0 < timeout -> td = k_tick s).
Proof.
  intros [Hk _ _] Ht Hr Hq Ho Htime.
  destruct (wait_ok s q t th (ob_flag ob) timeout Hk Ht Hr Hq (proj2 (proj2 Ho)) Htime) as (s' & Hrun & Hw).
  exists (if 0 <? timeout then k_tick s else 0), s'. split; [|split; [done|]].
  2:{ intros. by destruct (Z.ltb_spec 0 timeout); [|lia]. }
  unfold timed_suspend. erewrite run_bind by (by apply (ipc_flag_run (with_error t th RT_EOK s) o cls ob)).
  destruct (rt_ipc_list_suspend_ok (k_tick s) (with_error t th RT_EOK s) q t (set_th_error RT_EOK th) (ob_flag ob))
    as (s1 & Hrun1 & _ & F & _); [by apply kinv_with_error|apply lookup_insert_eq|done|done|apply Ho|].
  unfold suspend_with_timeout in Hrun. erewrite run_bind in Hrun by exact Hrun1. rewrite (run_bind _ _ _ _ _ Hrun1).
  destruct (0 <? timeout); [|by injection Hrun as ->].
  unfold rt_tick_get. erewrite run_bind by done. rewrite (run_bind _ _ _ _ _ Hrun). by rewrite (fr_tick F).
Qed.

Lemma remaining_range timeout d now : timeout < HALF_TICK -> (0 < timeout -> u32 (now - d) < 2 ^ 31) -> remaining timeout d now < HALF_TICK.
Proof.
  intros Ht Hd. unfold remaining. destruct (Z.ltb_spec 0 timeout) as [Hp|]; [|done].
  specialize (Hd Hp). pose proof (wrap_range 32 (now - d) ltac:(lia)). change HALF_TICK with 2147483647 in *. change (2 ^ 31) with 2147483648 in *.
  rewrite swrap_small; [|lia|change (2 ^ (32 - 1)) with 2147483648; lia]. destruct (Z.ltb_spec (timeout - u32 (now - d)) 0); lia.
Qed.

(** Who may run a section: anybody who will not wait, or the running thread,
    less than 2^31 ticks after a timed wait began. *)
Definition caller (s : kst) (thread : option ptr) (timeout : Z) (since : option Z) : Prop :=
  timeout = 0 /\ since = None \/
  exists t th, thread = Some t /\ k_cur s = Some t /\ k_threads s !! t = Some th /\
    state_of th = RT_THREAD_RUNNING /\ timeout < HALF_TICK /\
    match since with Some td => 0 < timeout -> u32 (k_tick s - td) < 2 ^ 31 | None => True end.

Lemma timeout_left_run s thread timeout since : caller s thread timeout since ->
  exists left, timeout_left timeout since s = Ok left s /\ left < HALF_TICK.
Proof.
  intros [[-> ->]|(t & th & _ & _ & _ & _ & Hlt & Hs)]; [by exists 0|].
  destruct since as [td|]; [|by exists timeout].
  exists (remaining timeout td (k_tick s)). split; [done|by apply remaining_range].
Qed.

Lemma caller_running s thread timeout since left : caller s thread timeout since ->
  timeout_left timeout since s = Ok left s ->
  (left =? 0) && bool_decide (since = None) = false -> exists t th, thread = Some t /\ k_cur s = Some t /\
    k_threads s !! t = Some th /\ state_of th = RT_THREAD_RUNNING.
Proof.
  intros [[-> ->]|(t & th & H1 & H2 & H3 & H4 & _)] Hl Hb; [|by exists t, th].
  injection Hl as <-. by rewrite bool_decide_eq_true_2 in Hb.
Qed.

(** [calm] and an object's class survive a wait, an error code and a wake-up. *)
Lemma calm_kstep s s' : calm s -> kinv s' -> kstep s s' -> k_cur s' = k_cur s -> calm s'.
Proof. intros [H1 H2 H3] Hk Hs Hc. split; [done|by rewrite Hc|by rewrite (ks_nest Hs)]. Qed.

Lemma calm_wait s q t th flag timeout s' : calm s -> waits q t th flag timeout s s' -> calm s'.
Proof. intros Hc Hw. apply (calm_kstep s); [done|apply Hw|apply Hw|apply (wt_joined _ _ _ _ _ _ _ Hw)]. Qed.

Lemma calm_error s t th e : calm s -> k_threads s !! t = Some th -> calm (with_error t th e s).
Proof. intros [H1 H2 H3] Ht. split; [by apply kinv_with_error|done|done]. Qed.

(** What a section of the thread [t] does to the rest of the system: the
    current thread, the lock and the application's memory stay; other threads
    stay runnable if they were, keep their error, and join no wait queue; with
    [go] the thread [t] does not wait either. *)
Record gentle (go : bool) (t : ptr) (s s' : kst) : Prop := {
  gn_cur : k_cur s' = k_cur s;
  gn_lock : k_lock s' = k_lock s;
  gn_mem : k_mem s' = k_mem s;
  gn_drv : k_drv s' = k_drv s;
  gn_runnable x th : x <> t \/ go = true -> k_threads s !! x = Some th -> runnable th ->
    exists th', k_threads s' !! x = Some th' /\ runnable th';
  gn_error x : x <> t -> th_error <$> k_threads s' !! x = th_error <$> k_threads s !! x;
  gn_queues q x : is_wait_q q = true -> x <> t \/ go = true -> x ∈ getq (k_qs s') q -> x ∈ getq (k_qs s) q;
  gn_tlist p : p ∈ k_tlist s' -> p ∈ k_tlist s \/ (go = false /\ p = thread_timer t)
}.

Lemma gentle_refl go t s : gentle go t s s.
Proof. split; eauto. Qed.

Lemma gentle_trans go t s s1 s2 : gentle go t s s1 -> gentle go t s1 s2 -> gentle go t s s2.
Proof.
  intros [A1 A2 A3 AD A4 A5 A6 A7] [B1 B2 B3 BD B4 B5 B6 B7]. split; [congruence..| | | |].
  - intros x th Ho Hx Hr. destruct (A4 x th Ho Hx Hr) as (th1 & E1 & H1). by apply (B4 x th1).
  - intros x Ho. by rewrite B5, A5.
  - intros q x Hq Ho Hx. apply A6; [done..|]. by apply B6.
  - intros p Hp. destruct (B7 p Hp); [auto|by right].
Qed.

Lemma gentle_blocks t s s' : gentle true t s s' -> gentle false t s s'.
Proof.
  intros [A1 A2 A3 AD A4 A5 A6 A7]. split; try done; [intros x th _; apply A4; by right|intros q x Hq _; apply A6; [done|by right]|].
  intros p Hp. destruct (A7 p Hp) as [|[? _]]; [by left|done].
Qed.

Lemma gentle_error s t th e : k_threads s !! t = Some th -> gentle true t s (with_error t th e s).
Proof.
  intros Ht. split; try done; [| |by left].
  - intros x thx _ Hx Hr. cbn. destruct (decide (x = t)) as [->|Hne].
    + rewrite lookup_insert_eq. eexists. split; [done|]. by assert (thx = th) as -> by congruence.
    + rewrite lookup_insert_ne by done. eauto.
  - intros x Hne. cbn. by rewrite lookup_insert_ne.
Qed.

Lemma gentle_woken t s s' w th : k_threads s !! w = Some th -> kstep s s' -> woken w th s s' -> gentle true t s s'.
Proof.
  intros Hth Hk Hw. split; [apply Hw|apply (ks_lock Hk)|apply (ks_mem Hk)|apply (ks_drv Hk)|..].
  - intros x thx _ Hx Hr. rewrite (wk_threads _ _ _ _ Hw). destruct (decide (x = w)) as [->|Hne].
    + rewrite lookup_insert_eq. eexists. split; [done|]. apply woken_runnable.
    + rewrite lookup_insert_ne by done. eauto.
  - intros x _. rewrite (wk_threads _ _ _ _ Hw). destruct (decide (x = w)) as [->|Hne].
    + by rewrite lookup_insert_eq, Hth.
    + by rewrite lookup_insert_ne.
  - intros q x Hq _. rewrite (woken_wait_queue _ _ _ _ _ Hw Hq), list_elem_of_filter. by intros [_ ?].
  - intros p. rewrite (wk_tlist _ _ _ _ Hw), list_elem_of_filter. intros [_ ?]. by left.
Qed.

Lemma gentle_waits s s' q t th flag time : waits q t th flag time s s' -> gentle false t s s'.
Proof.
  intros Hw. pose proof (wt_step _ _ _ _ _ _ _ Hw) as Hk. pose proof (wt_joined _ _ _ _ _ _ _ Hw) as Hj.
  split; [apply Hj|apply (ks_lock Hk)|apply (ks_mem Hk)|apply (ks_drv Hk)|..].
  - intros x thx [Hne|?] Hx Hr; [|done]. rewrite (jn_threads _ _ _ _ _ _ Hj), lookup_insert_ne by done. eauto.
  - intros x Hne. by rewrite (jn_threads _ _ _ _ _ _ Hj), lookup_insert_ne.
  - intros q' x _ [Hne|?] Hx; [|done]. destruct (decide (q' = q)) as [->|Hq].
    + destruct (jn_queue _ _ _ _ _ _ Hj) as (l1 & l2 & E & E' & _). rewrite E' in Hx. rewrite E.
      rewrite elem_of_app, elem_of_cons in Hx. rewrite elem_of_app. destruct Hx as [?|[->|?]]; [by left|done|by right].
    + rewrite (jn_others _ _ _ _ _ _ Hj q' Hq), list_elem_of_filter in Hx. by destruct Hx.
  - intros p Hp. destruct (Z.lt_ge_cases 0 time) as [Hpos|Hneg].
    + destruct (wt_timers _ _ _ _ _ _ _ Hw p Hp); auto.
    + left. by rewrite (wt_forever _ _ _ _ _ _ _ Hw Hneg) in Hp.
Qed.

Lemma gentle_slept s s' t th n : slept t th n s s' -> k_cur s = Some t -> gentle false t s s'.
Proof.
  intros Hsl Hc. destruct (rest_fields _ _ (sl_rest _ _ _ _ _ Hsl)) as (E1 & _ & E3 & E4 & _).
  pose proof (sl_step _ _ _ _ _ Hsl) as Hk. split; [|apply (ks_lock Hk)|apply (ks_mem Hk)|apply (ks_drv Hk)|..].
  - rewrite E1. unfold suspended, removed. cbn. by case_bool_decide.
  - intros x thx [Hne|?] Hx Hr; [|done]. rewrite E4. unfold suspended. cbn. rewrite lookup_insert_ne by done. eauto.
  - intros x Hne. rewrite E4. unfold suspended. cbn. by rewrite lookup_insert_ne.
  - intros q x _ _. rewrite E3, getq_suspended, list_elem_of_filter. by intros [_ ?].
  - intros p Hp. destruct (sl_timers _ _ _ _ _ Hsl p Hp); auto.
Qed.

Lemma resume_one_ok s q : calm s -> is_wait_q q = true ->
  exists b s', resume_one q s = Ok b s' /\ calm s' /\ kstep s s' /\ forall t, gentle true t s s'.
Proof.
  intros Hc Hq. unfold resume_one. erewrite run_bind by (by apply queue_empty_run).
  destruct (getq (k_qs s) q) as [|t l] eqn:E.
  { exists false, s. split; [done|split; [done|split; [apply kstep_refl|intros t; apply gentle_refl]]]. }
  destruct (rt_ipc_list_resume_ok _ s q t l (cm_kinv _ Hc) Hq E) as (th & s' & Ht & Hst & Hrun & Hk' & Hks & Hw).
  exists true, s'. rewrite (run_bind _ _ _ _ _ Hrun). split; [done|]. split; [|split; [done|intros t'; by eapply gentle_woken]].
  apply (calm_kstep s); [done| |done|apply Hw]. unfold kinv. by rewrite (ks_tick Hks).
Qed.

(** It wakes the first one. *)
Lemma resume_one_first s q b s' x : calm s -> is_wait_q q = true -> resume_one q s = Ok b s' ->
  x ∈ getq (k_qs s') q -> x ∈ tail (getq (k_qs s) q).
Proof.
  intros Hc Hq. unfold resume_one. erewrite run_bind by (by apply queue_empty_run).
  destruct (getq (k_qs s) q) as [|t l] eqn:E; [by intros [= _ <-]; rewrite E|].
  destruct (rt_ipc_list_resume_ok _ s q t l (cm_kinv _ Hc) Hq E) as (th & s1 & _ & _ & Hrun & _ & _ & Hw).
  rewrite (run_bind _ _ _ _ _ Hrun). intros [= _ <-].
  rewrite (woken_wait_queue _ _ _ _ _ Hw Hq), list_elem_of_filter, E, elem_of_cons. by intros [? [|]].
Qed.

(** ** Threads of a system that never runs out of ready threads *)

(** When [t] runs it is runnable. *)
Definition awake (t : ptr) (s : kst) : Prop :=
  k_cur s = Some t -> exists th, k_threads s !! t = Some th /\ runnable th.

(** A runnable current thread is running. *)
Lemma awake_running t s : calm s -> k_cur s = Some t -> awake t s ->
  exists th, k_threads s !! t = Some th /\ state_of th = RT_THREAD_RUNNING.
Proof.
  intros Hc Hcur Ha. destruct (Ha Hcur) as (th & E & [Hr|Hr]); [|by exists th].
  destruct (proj1 (proj2 (ki_sched _ _ (cm_kinv _ Hc))) t Hcur) as (th' & E' & Hn & _). congruence.
Qed.

Lemma awake_gentle t s s' go : k_cur s = Some t -> gentle go t s s' -> go = true -> awake t s -> awake t s'.
Proof.
  intros Hcur Hf -> Ha _. destruct (Ha Hcur) as (th & E & Hr).
  apply (gn_runnable _ _ _ _ Hf t th); [by right|done..].
Qed.

(** Giving up the processor while the idle thread [tid] is ready: whichever
    thread goes on is runnable. *)
Lemma schedule_awake app t tid s : calm s -> k_lock s = 0 -> (exists th, k_threads s !! tid = Some th /\ runnable th) ->
  t <> tid -> k_cur s = Some t ->
  exists s', rt_schedule s = Ok tt s' /\ background app s s' /\ forall x, awake x s'.
Proof.
  intros Hc Hl (th & Eth & Hr) Hne Hcur. pose proof (ki_sched _ _ (cm_kinv _ Hc)) as Hs.
  destruct (rt_schedule_ok s Hs) as (s' & Hrun & _ & _); [by eexists|].
  exists s'. split; [done|]. split; [by apply background_schedule|].
  assert (state_of th = RT_THREAD_READY) as Hrdy.
  { destruct Hr as [|Hr]; [done|]. pose proof (proj2 (proj2 Hs) tid th Eth Hr). congruence. }
  assert (k_group s <> 0) as Hg.
  { intros H0. pose proof (qo_ready _ _ (ro_queues _ _ _ (proj1 Hs)) tid th Eth Hrdy) as Hin.
    rewrite (proj1 (group_zero s (proj1 Hs)) H0) in Hin by apply (ro_wf _ _ _ (proj1 Hs) _ _ Eth).
    by apply not_elem_of_nil in Hin. }
  destruct (rt_schedule_runs s s' Hs) as (c & thc & Hc' & Ec & Hrc); [by eexists|done..|].
  intros x Hx. rewrite Hc' in Hx. injection Hx as <-. exists thc. split; [done|by right].
Qed.

(** *** The semaphore's invariant and the count of its units *)

(** The semaphore [o] with value [n]: a positive value means no waiters. *)
Record sem_ok (o : ptr) (n : Z) (s : kst) : Prop := {
  so_calm : calm s;
  so_object : exists ob, ipc_object s o RT_Object_Class_Semaphore ob;
  so_value : k_sems s !! o = Some (Sem n);
  so_range : 0 <= n <= RT_UINT16_MAX;
  so_waiters : 0 < n -> getq (k_qs s) (QSuspend o) = []
}.

(** One section of a thread that uses the semaphore, or of the kernel: the
    units released (a release that returned RT_EOK) and granted (a take that
    got its unit at once, or a waiter that was handed one). *)
Inductive sem_step (app : positive -> ptr -> K unit) (o : ptr) : kst -> Z -> Z -> kst -> Prop :=
| sem_step_take s t th time r s' :
    k_cur s = Some t -> k_threads s !! t = Some th -> state_of th = RT_THREAD_RUNNING -> time < HALF_TICK ->
    sem_take_section o time s = Ok r s' ->
    sem_step app o s 0 (match r with inl e => if e =? RT_EOK then 1 else 0 | inr _ => 0 end) s'
| sem_step_release s e handed s' :
    sem_release_section o s = Ok (e, handed) s' ->
    sem_step app o s (if e =? RT_EOK then 1 else 0) (if handed : bool then 1 else 0) s'
| sem_step_background s s' : background app s s' -> sem_step app o s 0 0 s'.

Inductive sem_steps (app : positive -> ptr -> K unit) (o : ptr) : kst -> Z -> Z -> kst -> Prop :=
| sem_steps_nil s : sem_steps app o s 0 0 s
| sem_steps_cons s r1 g1 s1 r g s' : sem_step app o s r1 g1 s1 -> sem_steps app o s1 r g s' ->
    sem_steps app o s (r1 + r) (g1 + g) s'.

Lemma calm_put_sems s m : calm s -> calm (set_k_sems m s).
Proof. intros [H1 H2 H3]. split; [by apply kinv_put_sems|done|done]. Qed.

(** Arithmetic with comparisons of return codes. *)
Ltac ret_codes :=
  change (- RT_ETIMEOUT =? RT_EOK) with false; change (- RT_EFULL =? RT_EOK) with false;
  change (RT_EOK =? RT_EOK) with true; cbn; lia.

Lemma sem_step_ok app o n s r g s' : sem_ok o n s -> sem_step app o s r g s' ->
  exists n', sem_ok o n' s' /\ n' + g = n + r.
Proof.
  intros [Hc [ob Ho] Hv Hr Hw] H. destruct H as [s t th time r s' Hcur Ht Hst Htime Hrun|s e handed s' Hrun|s s' Hbg].
  - destruct (decide (0 < n)) as [Hpos|Hneg]; [|destruct (decide (time = 0)) as [->|Hnz]].
    + assert (sem_take_section o time s = Ok (inl RT_EOK) (set_k_sems (<[o := Sem (n - 1)]> (k_sems s)) s)) as E.
      { unfold sem_take_section. erewrite run_bind by (by eapply ipc_assert_run).
        erewrite run_bind by (by apply get_sem_run). cbn [sem_value]. destruct (Z.ltb_spec 0 n); [|lia].
        erewrite run_bind by done. unfold RT_UINT16_MAX in Hr.
        by rewrite wrap_small by (change (2 ^ 16) with 65536; lia). }
      rewrite Hrun in E. injection E as -> ->. exists (n - 1). split; [|ret_codes].
      split; [by apply calm_put_sems|by exists ob|apply lookup_insert_eq|lia|auto].
    + assert (sem_take_section o 0 s = Ok (inl (- RT_ETIMEOUT)) s) as E.
      { unfold sem_take_section. erewrite run_bind by (by eapply ipc_assert_run).
        erewrite run_bind by (by apply get_sem_run). cbn [sem_value]. by destruct (Z.ltb_spec 0 n); [lia|]. }
      rewrite Hrun in E. injection E as -> ->. exists n. split; [by split; eauto|ret_codes].
    + destruct (sem_wait_ok s t th o ob (Sem n) time) as (s1 & Hrun1 & Hwt); try done; [apply Hc|by right|apply Hc|].
      rewrite Hrun in Hrun1. injection Hrun1 as -> ->. exists n. split; [|ret_codes].
      pose proof (wt_step _ _ _ _ _ _ _ Hwt) as Hks. split.
      * apply (calm_kstep s); [done|apply Hwt|done|apply (wt_joined _ _ _ _ _ _ _ Hwt)].
      * exists ob. eapply ipc_object_step; [apply Hks|done|done].
      * by rewrite (ks_sems Hks).
      * done.
      * lia.
  - unfold sem_release_section in Hrun. erewrite run_bind in Hrun by (by eapply ipc_assert_run).
    erewrite run_bind in Hrun by (by apply get_sem_run). erewrite run_bind in Hrun by (by apply queue_empty_run).
    destruct (getq (k_qs s) (QSuspend o)) as [|t l] eqn:E; cbn [negb sem_value] in Hrun.
    + destruct (Z.ltb_spec n RT_UINT16_MAX).
      * erewrite run_bind in Hrun by done. unfold RT_UINT16_MAX in *.
        rewrite wrap_small in Hrun by (change (2 ^ 16) with 65536; lia). injection Hrun as <- <- <-.
        exists (n + 1). split; [|ret_codes].
        split; [by apply calm_put_sems|by exists ob|apply lookup_insert_eq|unfold RT_UINT16_MAX; lia|done].
      * injection Hrun as <- <- <-. exists n. split; [by split; eauto|ret_codes].
    + destruct (rt_ipc_list_resume_ok _ s (QSuspend o) t l (cm_kinv _ Hc) eq_refl E)
        as (th & s1 & Ht & Hst & Hrun1 & Hk1 & Hstep & Hwk).
      rewrite (run_bind _ _ _ _ _ Hrun1) in Hrun. injection Hrun as <- <- <-. exists n. split; [|ret_codes]. split.
      * apply (calm_kstep s); [done| |done|apply Hwk]. unfold kinv. by rewrite (ks_tick Hstep).
      * exists ob. eapply ipc_object_step; [apply Hstep|done|done].
      * by rewrite (ks_sems Hstep).
      * done.
      * intros Hpos. specialize (Hw Hpos). congruence.
  - destruct (background_ok app s s' Hc Hbg) as [Hc' Hq]. exists n. split; [|lia]. split.
    + done.
    + exists ob. eapply ipc_object_step; [apply Hq|done|done].
    + pose proof (f_equal k_sems (qt_rest _ _ Hq)) as E. cbn in E. by rewrite E.
    + done.
    + intros Hpos. eapply quiet_empty; eauto.
Qed.

(** C9: units of a semaphore are neither lost nor made: in every interleaving of
    takes (by whichever thread runs), releases, tick interrupts - timeouts of
    waiters included - and calls of the scheduler, the value plus the units
    granted equals the old value plus the units released, the value stays
    within 0..65535, and a positive value means that nobody waits. *)
Theorem sem_conservation app o n s r g s' : sem_ok o n s -> sem_steps app o s r g s' ->
  exists n', sem_ok o n' s' /\ n' + g = n + r.
Proof.
  intros Hok H. revert n Hok. induction H as [s|s r1 g1 s1 r g s' Hstep _ IH]; intros n Hok.
  - exists n. split; [done|lia].
  - destruct (sem_step_ok app o n s r1 g1 s1 Hok Hstep) as (n1 & Hok1 & E1).
    destruct (IH n1 Hok1) as (n' & Hok' & E'). exists n'. split; [done|lia].
Qed.

(** *** Timeout of a wait *)

(** The scheduler takes the processor from a thread that joined a wait queue,
    if another thread is ready. *)
Lemma waits_schedules_away s s1 q t th e flag time :
  kinv s -> k_cur s = Some t -> k_threads s !! t = Some th -> state_of th = RT_THREAD_RUNNING ->
  k_lock s = 0 -> k_group s <> 0 -> waits q t (set_th_error e th) flag time s s1 ->
  exists s2, rt_schedule s1 = Ok tt s2 /\ kinv s2 /\ sched_step s1 s2 /\ k_cur s2 <> Some t.
Proof.
  intros Hk Hc Ht Hr Hl Hg [Hk1 Hstep [E1 E2 _ _ E5] _ _ _].
  destruct (schedule_away s1 t (with_state RT_THREAD_SUSPEND (set_th_error e th))) as (s2 & Hrun2 & Hs2 & Hstep2 & Hne).
  { apply Hk1. }
  { by rewrite (ks_lock Hstep). }
  { by rewrite E1. }
  { rewrite E2. apply lookup_insert_eq. }
  { by apply state_with_state. }
  { rewrite E5. change (k_group (suspended t (set_th_error e th) s)) with (k_group (removed t th s)).
    by eapply (group_after_suspend _ s t th). }
  exists s2. split; [done|]. split; [|by split].
  unfold kinv. rewrite (fr_tick (ss_frame _ _ Hstep2)). by eapply kinv_sched_step.
Qed.

(** A thread that can run is in no wait queue. *)
Lemma runnable_no_waiter s t th q : kinv s -> k_threads s !! t = Some th -> runnable th ->
  is_wait_q q = true -> t ∉ getq (k_qs s) q.
Proof. intros Hk. eapply runnable_not_waiting, Hk. Qed.

(** [rt_sem_take(sem, time)] with 0 < time on a semaphore without units that
    nobody releases, called while another thread is ready: the caller loses
    the processor, stays suspended for exactly [time] ticks, is then runnable
    and in the semaphore's queue no more, the semaphore is unchanged, and when
    the thread runs again its call returns -RT_ETIMEOUT. *)
Theorem rt_sem_take_timeout app fuel s t th o ob v time :
  kinv s -> k_cur s = Some t -> k_threads s !! t = Some th -> state_of th = RT_THREAD_RUNNING ->
  k_nest s = 0 -> k_lock s = 0 -> k_group s <> 0 ->
  ipc_object s o RT_Object_Class_Semaphore ob -> k_sems s !! o = Some v -> sem_value v = 0 ->
  0 < time < HALF_TICK -> (S (length (k_tlist s)) < fuel)%nat ->
  exists s1, steps 2 (rt_sem_take o time) s = Ok (wait_end t) s1 /\ k_cur s1 <> Some t /\
    (forall k, Z.of_nat k < time ->
       exists s2, ticks app fuel k s1 = Ok tt s2 /\ asleep t (time - Z.of_nat k) s2) /\
    exists s2 th2, ticks app fuel (Z.to_nat time) s1 = Ok tt s2 /\ kinv s2 /\
      k_threads s2 !! t = Some th2 /\ runnable th2 /\ t ∉ getq (k_qs s2) (QSuspend o) /\
      forall s3 th3, k_threads s3 !! t = Some th3 -> th_error th3 = th_error th2 ->
        step (wait_end t) s3 = Ok (Ret (- RT_ETIMEOUT)) s3.
Proof.
  intros Hk Hc Ht Hr Hn Hl Hg Ho Hv Hz Htime Hf.
  destruct (sem_wait_ok s t th o ob v time) as (s1 & Hrun1 & Hw); try done; [by right|lia..|].
  destruct (waits_schedules_away s s1 _ t th _ _ _ Hk Hc Ht Hr Hl Hg Hw) as (s2 & Hrun2 & Hk2 & Hstep2 & Hne).
  pose proof (asleep_sched _ _ _ _ (wt_timer _ _ _ _ _ _ _ Hw ltac:(lia)) Hstep2) as Ha2.
  pose proof (ks_nest (wt_step _ _ _ _ _ _ _ Hw)) as Hn1.
  destruct (asleep_wakes app fuel t time s2) as [H1 (s3 & th3 & Hrun3 & Hk3 & Ht3 & Hr3 & He3)]; [done|..|done|].
  { apply (ss_cur _ _ Hstep2). rewrite (jn_cur _ _ _ _ _ _ (wt_joined _ _ _ _ _ _ _ Hw)), Hc. eauto. }
  { by rewrite (fr_nest (ss_frame _ _ Hstep2)), Hn1, Hn. }
  { rewrite (fr_tlist (ss_frame _ _ Hstep2)). pose proof (wt_length _ _ _ _ _ _ _ Hw). lia. }
  exists s2. split; [|split; [done|split; [done|]]].
  - erewrite steps_S by (apply (step_to _ _ s (inr t : Z + ptr) s1); [exact Hrun1|reflexivity]).
    erewrite steps_S by (by apply step_sec). done.
  - rewrite Z.max_r in Hrun3 by lia. exists s3, th3. split; [done|]. split; [done|]. split; [done|]. split; [done|].
    split; [by eapply runnable_no_waiter|]. intros s4 th4 Ht4 He4. by rewrite (wait_end_run _ _ _ Ht4), He4, He3.
Qed.

(** ** Witnesses: the semaphore 20 (RT_IPC_FLAG_PRIO) of [demo_kernel], with
    value 0 and the waiter 6. *)
Definition demo_sem : kst := set_k_sems (<[20%positive := Sem 0]> ∅) demo_kernel.

Lemma demo_sem_ok : kinv demo_sem.
Proof. apply kinv_put_sems, demo_kernel_ok. Qed.

Lemma demo_sem_object : ipc_object demo_sem 20 RT_Object_Class_Semaphore (demo_object 130 1).
Proof. split; [done|]. split; [by vm_compute|by right]. Qed.

Lemma rt_sem_take_spec_witness : exists s',
  step (rt_sem_take 20 7) demo_sem = Ok (after_wait 2) s' /\
  2%positive ∈ getq (k_qs s') (QSuspend 20) /\ asleep 2 7 s'.
Proof.
  destruct (rt_sem_take_spec demo_sem 2 (demo_thread RT_THREAD_RUNNING 10) 20 (demo_object 130 1) (Sem 0) 7
    demo_sem_ok) as (s' & Hrun & Hw); [done|done|by right; vm_compute|done|exact demo_sem_object|done|done|done|].
  exists s'. split; [exact Hrun|]. split; [|by apply (wt_timer _ _ _ _ _ _ _ Hw)].
  destruct (jn_queue _ _ _ _ _ _ (wt_joined _ _ _ _ _ _ _ Hw)) as (l1 & l2 & _ & -> & _). set_solver.
Defined.

Lemma rt_sem_release_spec_witness : exists s',
  step (rt_sem_release 20) demo_sem = Ok (atomic rt_schedule ~; Ret RT_EOK)%proc s' /\
  getq (k_qs s') (QReady 7) = [6%positive].
Proof.
  destruct (rt_sem_release_spec demo_sem 20 (demo_object 130 1) (Sem 0) demo_sem_ok)
    as (th & s' & Ht & Hrun & _ & _ & Hw & _); [exact demo_sem_object|done|done|].
  exists s'. split; [exact Hrun|]. injection Ht as <-. by rewrite (wk_queues _ _ _ _ Hw).
Defined.

Lemma sem_conservation_witness : exists s' n',
  sem_steps no_app 20 demo_sem 1 1 s' /\ sem_ok 20 n' s' /\ n' + 1 = 0 + 1.
Proof.
  destruct (sem_release_section 20 demo_sem) as [[e h] s'|] eqn:E; [|by vm_compute in E].
  assert (e = RT_EOK /\ h = true) as [-> ->] by (vm_compute in E; by injection E as <- <- _).
  assert (sem_steps no_app 20 demo_sem 1 1 s') as Hs.
  { apply (sem_steps_cons _ _ _ 1 1 s' 0 0 s'); [|constructor]. exact (sem_step_release no_app 20 demo_sem RT_EOK true s' E). }
  destruct (sem_conservation no_app 20 0 demo_sem 1 1 s') as (n' & Hok & En); [|exact Hs|].
  - split; [|by eexists; exact demo_sem_object|done|done|done].
    split; [exact demo_sem_ok|by eexists|done].
  - exists s', n'. done.
Defined.

Lemma rt_sem_take_timeout_witness : exists s1 s2 th2,
  steps 2 (rt_sem_take 20 7) demo_sem = Ok (wait_end 2) s1 /\
  ticks no_app 9 7 s1 = Ok tt s2 /\ k_threads s2 !! 2%positive = Some th2 /\ runnable th2.
Proof.
  destruct (rt_sem_take_timeout no_app 9 demo_sem 2 (demo_thread RT_THREAD_RUNNING 10) 20 (demo_object 130 1) (Sem 0) 7
    demo_sem_ok) as (s1 & Hrun & _ & _ & s2 & th2 & Ht & _ & Hth2 & Hr & _);
    [done|done|by vm_compute|done|done|by vm_compute|exact demo_sem_object|done|done|done|by (cbn; lia)|].
  exists s1, s2, th2. done.
Defined.
