(* ===== verification/Mutex.v ===== *)
(** * Mutexes with priority inheritance (rt-thread/src/ipc.c, second part)

    A blocking take raises the owner to the caller's priority; the last
    release restores the priority the owner had when it took the mutex and
    hands the mutex to the most urgent waiter.

    [mtx_ok] is the invariant of a mutex that is the only one its users hold:
    mutual exclusion, an ordered queue, and an owner at least as urgent as
    every waiter.  Two concrete runs at the end show where the scheme falls
    short: mutexes not released in reverse order leave a thread with a
    priority that is not its own, and the release after a waiter's timeout
    lowers the running thread's priority without calling the scheduler. *)
From Stdlib Require Import Sorting.Sorted.
From S2P Require Import Prelude KState Scheduler Object Timer Proc Thread Ipc.

Definition RT_MUTEX_VALUE_MAX : Z := RT_UINT16_MAX.
Definition RT_MUTEX_HOLD_MAX : Z := RT_UINT8_MAX.

Definition get_mutex (o : ptr) : K rt_mutex := fun s => lift (k_mutexes s !! o) s.
Definition put_mutex (o : ptr) (m : rt_mutex) : K unit :=
  modify (fun s => set_k_mutexes (<[o := m]> (k_mutexes s)) s).

Definition free_mutex : rt_mutex := Mutex 1 0xFF 0 None.

Definition rt_mutex_init (mutex : ptr) (name : list Z) (flag : Z) : K Z :=
  rt_object_init mutex RT_Object_Class_Mutex name;;
  rt_ipc_object_init mutex;;
  put_mutex mutex free_mutex;;
  put_obj_flag mutex RT_IPC_FLAG_PRIO;;
  mret RT_EOK.

Definition rt_mutex_detach (mutex : ptr) : K Z :=
  assert_type mutex RT_Object_Class_Mutex;;
  sys ← rt_object_is_systemobject mutex; RT_ASSERT sys;;
  rt_ipc_list_resume_all (QSuspend mutex);;
  rt_object_detach mutex;;
  mret RT_EOK.

Definition rt_mutex_create (name : list Z) (flag : Z) (mem : option ptr) : K (option ptr) :=
  RT_DEBUG_NOT_IN_INTERRUPT;;
  mutex ← rt_object_allocate RT_Object_Class_Mutex name mem;
  match mutex with
  | None => mret None
  | Some mutex =>
      rt_ipc_object_init mutex;;
      put_mutex mutex free_mutex;;
      put_obj_flag mutex RT_IPC_FLAG_PRIO;;
      mret (Some mutex)
  end.

Definition rt_mutex_delete (mutex : ptr) : K Z :=
  RT_DEBUG_NOT_IN_INTERRUPT;;
  assert_type mutex RT_Object_Class_Mutex;;
  sys ← rt_object_is_systemobject mutex; RT_ASSERT (negb sys);;
  rt_ipc_list_resume_all (QSuspend mutex);;
  rt_object_delete mutex;;
  mret RT_EOK.

Section mutex.
Context `{CleanupCall}.

(** [rt_thread_control(mutex->owner, RT_THREAD_CTRL_CHANGE_PRIORITY, ...)] if
    the caller is more urgent than the owner. *)
Definition inherit_priority (owner thread : ptr) : K unit :=
  th ← get_thread thread;
  oth ← get_thread owner;
  if th_current_priority th <? th_current_priority oth then
    rt_thread_control owner (RT_THREAD_CTRL_CHANGE_PRIORITY (th_current_priority th));; mret tt
  else mret tt.

(** The first section of [rt_mutex_take]: a result, or the thread that waits. *)
Definition mutex_take_section (mutex : ptr) (time : Z) : K (Z + ptr) :=
  RT_DEBUG_IN_THREAD_CONTEXT;;
  assert_type mutex RT_Object_Class_Mutex;;
  thread ← self;
  set_error thread RT_EOK;;
  m ← get_mutex mutex;
  if bool_decide (mtx_owner m = Some thread) then
    if mtx_hold m <? RT_MUTEX_HOLD_MAX then
      put_mutex mutex (set_mtx_hold (u8 (mtx_hold m + 1)) m);; mret (inl RT_EOK)
    else mret (inl (- RT_EFULL))
  else if 0 <? mtx_value m then
    th ← get_thread thread;
    let m' := Mutex (u16 (mtx_value m - 1)) (th_current_priority th) (mtx_hold m) (Some thread) in
    if mtx_hold m <? RT_MUTEX_HOLD_MAX then
      put_mutex mutex (set_mtx_hold (u8 (mtx_hold m + 1)) m');; mret (inl RT_EOK)
    else put_mutex mutex m';; mret (inl (- RT_EFULL))
  else if time =? 0 then
    set_error thread (- RT_ETIMEOUT);; mret (inl (- RT_ETIMEOUT))
  else
    owner ← lift (mtx_owner m);
    inherit_priority owner thread;;
    flag ← obj_flag mutex;
    suspend_with_timeout (QSuspend mutex) thread flag time;;
    mret (inr thread).

Definition rt_mutex_take (mutex : ptr) (time : Z) : proc Z :=
  (r <~ atomic (mutex_take_section mutex time);
   match r with inl e => Ret e | inr thread => after_wait thread end)%proc.

Definition rt_mutex_trytake (mutex : ptr) : proc Z := rt_mutex_take mutex RT_WAITING_NO.

(** The section of [rt_mutex_release]: the result and [need_schedule]. *)
Definition mutex_release_section (mutex : ptr) : K (Z * bool) :=
  assert_type mutex RT_Object_Class_Mutex;;
  RT_DEBUG_IN_THREAD_CONTEXT;;
  thread ← self;
  m ← get_mutex mutex;
  if negb (bool_decide (mtx_owner m = Some thread)) then
    set_error thread (- RT_ERROR);; mret (- RT_ERROR, false)
  else
    let m := set_mtx_hold (u8 (mtx_hold m - 1)) m in
    put_mutex mutex m;;
    if negb (mtx_hold m =? 0) then mret (RT_EOK, false)
    else
      oth ← get_thread thread;
      (if negb (mtx_original_priority m =? th_current_priority oth) then
         rt_thread_control thread (RT_THREAD_CTRL_CHANGE_PRIORITY (mtx_original_priority m))
       else mret RT_EOK);;
      empty ← queue_empty (QSuspend mutex);
      if negb empty then
        thread ← queue_head (QSuspend mutex);
        th ← get_thread thread;
        let m := set_mtx_original_priority (th_current_priority th) (set_mtx_owner (Some thread) m) in
        if mtx_hold m <? RT_MUTEX_HOLD_MAX then
          put_mutex mutex (set_mtx_hold (u8 (mtx_hold m + 1)) m);;
          rt_ipc_list_resume (QSuspend mutex);;
          mret (RT_EOK, true)
        else put_mutex mutex m;; mret (- RT_EFULL, false)
      else if mtx_value m <? RT_MUTEX_VALUE_MAX then
        put_mutex mutex (Mutex (u16 (mtx_value m + 1)) 0xff (mtx_hold m) None);;
        mret (RT_EOK, false)
      else mret (- RT_EFULL, false).

Definition rt_mutex_release (mutex : ptr) : proc Z :=
  (r <~ atomic (mutex_release_section mutex);
   if snd r then atomic rt_schedule ~; Ret (fst r) else Ret (fst r))%proc.

Definition rt_mutex_control (mutex : ptr) (cmd arg : Z) : K Z :=
  assert_type mutex RT_Object_Class_Mutex;; mret (- RT_ERROR).
End mutex.

(** ** The invariant *)

(** [x] is at least as urgent as [y]. *)
Definition urgent (ths : gmap ptr rt_thread) (x y : ptr) : Prop := prio_of ths x <= prio_of ths y.

(** Owner and holds: free, without holds or waiters; or owned by one live
    thread, which is not among the waiters and as urgent as each of them. *)
Definition owner_ok (o : ptr) (m : rt_mutex) (s : kst) : Prop :=
  match mtx_owner m with
  | None => mtx_value m = 1 /\ mtx_hold m = 0 /\ getq (k_qs s) (QSuspend o) = []
  | Some w =>
      mtx_value m = 0 /\ 1 <= mtx_hold m <= RT_MUTEX_HOLD_MAX /\ 0 <= mtx_original_priority m < 32 /\
      w ∉ getq (k_qs s) (QSuspend o) /\
      (exists th, k_threads s !! w = Some th /\ state_of th <> RT_THREAD_CLOSE) /\
      Forall (urgent (k_threads s) w) (getq (k_qs s) (QSuspend o))
  end.

Record mtx_ok (o : ptr) (m : rt_mutex) (s : kst) : Prop := {
  mo_calm : calm s;
  mo_object : exists ob, ipc_object s o RT_Object_Class_Mutex ob /\ ob_flag ob = RT_IPC_FLAG_PRIO;
  mo_mutex : k_mutexes s !! o = Some m;
  mo_owner : owner_ok o m s;
  mo_sorted : StronglySorted (urgent (k_threads s)) (getq (k_qs s) (QSuspend o))
}.

Lemma StronglySorted_sublist {A} (R : A -> A -> Prop) l l' :
  l' `sublist_of` l -> StronglySorted R l -> StronglySorted R l'.
Proof.
  induction 1 as [|x l1 l2 Hl IH|x l1 l2 Hl IH]; intros Hs; [done|..];
    apply StronglySorted_inv in Hs as [Hs Hx]; [|by auto].
  constructor; [by auto|]. rewrite Forall_forall in *. intros y Hy. apply Hx. by eapply sublist_subseteq.
Qed.

Lemma StronglySorted_impl {A} (R R' : A -> A -> Prop) l :
  (forall x y, R x y -> R' x y) -> StronglySorted R l -> StronglySorted R' l.
Proof.
  intros HR. induction 1 as [|x l Hl IH Hx]; constructor; [done|]. eapply Forall_impl; [exact Hx|]. auto.
Qed.

(** Threads kept: same priorities, nobody closed. *)
Definition threads_kept (a b : gmap ptr rt_thread) : Prop :=
  forall x, match a !! x with
            | Some th => exists th', b !! x = Some th' /\ kept th th'
            | None => b !! x = None
            end.

Lemma threads_kept_prio a b x : threads_kept a b -> prio_of b x = prio_of a x.
Proof.
  intros H. specialize (H x). unfold prio_of. destruct (a !! x); [|by rewrite H].
  destruct H as (th' & -> & [= -> _ _] & _). done.
Qed.

Lemma threads_kept_urgent a b x y : threads_kept a b -> urgent a x y -> urgent b x y.
Proof. intros H. unfold urgent. by rewrite !(threads_kept_prio _ _ _ H). Qed.

Lemma kept_refl th : kept th th.
Proof. done. Qed.

Lemma threads_kept_insert a t th th' : a !! t = Some th -> kept th th' -> threads_kept a (<[t := th']> a).
Proof.
  intros Ht Hk x. destruct (decide (x = t)) as [->|].
  - rewrite Ht, lookup_insert_eq. eauto.
  - rewrite lookup_insert_ne by done. destruct (a !! x); eauto using kept_refl.
Qed.

Lemma mtx_ok_frame o m s s' : mtx_ok o m s -> calm s' -> objs_step (k_objs s) (k_objs s') ->
  k_mutexes s' !! o = Some m -> getq (k_qs s') (QSuspend o) `sublist_of` getq (k_qs s) (QSuspend o) ->
  threads_kept (k_threads s) (k_threads s') -> mtx_ok o m s'.
Proof.
  intros [Hc [ob [Ho Hf]] Hm Hw Hs] Hc' Hobj Hm' Hq Ht. split; [done| |done|..].
  - exists ob. split; [by eapply ipc_object_step|done].
  - unfold owner_ok in *. destruct (mtx_owner m) as [w|].
    + destruct Hw as (H1 & H2 & H3 & H4 & (th & Hth & Hcl) & H6). split; [done|]. split; [done|]. split; [done|].
      split; [intros Hin; apply H4; by eapply sublist_subseteq|]. split.
      * pose proof (Ht w) as X. rewrite Hth in X. destruct X as (th' & ? & ? & X). eauto.
      * rewrite Forall_forall in *. intros x Hx. apply (threads_kept_urgent _ _ _ _ Ht), H6. by eapply sublist_subseteq.
    + destruct Hw as (H1 & H2 & H3). split; [done|]. split; [done|]. rewrite H3 in Hq. by apply sublist_nil_r in Hq.
  - eapply StronglySorted_impl; [|by eapply StronglySorted_sublist]. intros x y. by apply threads_kept_urgent.
Qed.

Lemma get_mutex_run s o m : k_mutexes s !! o = Some m -> get_mutex o s = Ok m s.
Proof. unfold get_mutex. by intros ->. Qed.

Lemma calm_mutexes s mm : calm s -> calm (set_k_mutexes mm s).
Proof. intros [H1 H2 H3]. split; [|done|done]. unfold kinv. apply (kinv_ext _ s); try done. apply H1. Qed.

(** The error field does not matter to the invariant. *)
Lemma mtx_ok_error o m s t th e : mtx_ok o m s -> k_threads s !! t = Some th -> mtx_ok o m (with_error t th e s).
Proof.
  intros Hm Ht. apply (mtx_ok_frame o m s); [done|apply calm_error; [apply Hm|done]|apply objs_step_refl|apply Hm|done|].
  by apply (threads_kept_insert _ t th).
Qed.

Lemma not_ready_reprioritised t th v s q : sinv s -> k_threads s !! t = Some th -> is_wait_q q = true ->
  reprioritised t th v (k_qs s) q = getq (k_qs s) q.
Proof.
  intros Hs Ht Hq. unfold reprioritised. case_decide as Hr; [|done].
  rewrite decide_False by (by intros ->). rewrite app_nil_r. apply filter_id. intros x Hx ->.
  by eapply (runnable_not_waiting s t th q); [..|by left| |].
Qed.

Section facts.
Context `{CleanupCall}.

(** A change of priority, as clients of threads see it. *)
Record repriced (w : ptr) (v : Z) (s s' : kst) : Prop := {
  rp_kinv : kinv s';
  rp_frame : sched_frame s s';
  rp_cur : k_cur s' = k_cur s;
  rp_threads : exists oth, k_threads s !! w = Some oth /\
    (k_threads s' = <[w := set_priority v oth]> (k_threads s) \/
     k_threads s' = k_threads s /\ th_current_priority oth = v);
  rp_queues q : is_wait_q q = true -> getq (k_qs s') q = getq (k_qs s) q
}.

Lemma change_priority_repriced s w oth v :
  kinv s -> k_threads s !! w = Some oth -> state_of oth <> RT_THREAD_CLOSE -> 0 <= v < 32 ->
  exists s', rt_thread_control w (RT_THREAD_CTRL_CHANGE_PRIORITY v) s = Ok RT_EOK s' /\ repriced w v s s'.
Proof.
  intros Hk Hw Hcl Hv. destruct (rt_change_priority_ok _ s w oth v Hk Hw Hcl Hv) as (s' & Hrun & Hk' & F & Hc & Ht & Hq).
  exists s'. split; [done|]. split; [unfold kinv; by rewrite (fr_tick F)|done|done|by eauto|].
  intros q Hwq. rewrite Hq. by apply not_ready_reprioritised; [apply Hk|..].
Qed.

Lemma repriced_same s w oth : kinv s -> k_threads s !! w = Some oth ->
  repriced w (th_current_priority oth) s s.
Proof. intros Hk Hw. split; [done|done|done|by eauto|done]. Qed.

Lemma repriced_prio w v s s' x : repriced w v s s' ->
  prio_of (k_threads s') x = if decide (x = w) then v else prio_of (k_threads s) x.
Proof.
  intros Hr. destruct (rp_threads _ _ _ _ Hr) as (oth & Hw & Ht). unfold prio_of.
  destruct Ht as [-> | [-> Hp]]; case_decide as Hx; subst.
  - by rewrite lookup_insert_eq.
  - by rewrite lookup_insert_ne.
  - by rewrite Hw.
  - done.
Qed.

Lemma repriced_alive w v s s' x th : repriced w v s s' -> k_threads s !! x = Some th ->
  exists th', k_threads s' !! x = Some th' /\ state_of th' = state_of th /\ th_error th' = th_error th /\
    (x <> w -> th' = th).
Proof.
  intros Hr Hx. destruct (rp_threads _ _ _ _ Hr) as (oth & Hw & Ht).
  destruct Ht as [-> | [-> Hp]]; [|by eauto].
  destruct (decide (x = w)) as [->|]; [rewrite lookup_insert_eq|rewrite lookup_insert_ne by done]; [|by eauto].
  assert (oth = th) as -> by congruence. by eexists.
Qed.

(** It disturbs nobody else. *)
Lemma gentle_repriced w v s s' t : repriced w v s s' -> gentle true t s s'.
Proof.
  intros Hr. pose proof (rp_frame _ _ _ _ Hr) as F.
  split; [apply Hr|apply (fr_lock F)|apply (fr_mem F)|apply (ks_drv (sched_frame_kstep _ _ F))|..].
  - intros x th _ Hx [Es|Es]; destruct (repriced_alive w v s s' x th Hr Hx) as (th' & Hx' & E & _); exists th';
      (split; [done|]); [left|right]; congruence.
  - intros x _. destruct (k_threads s !! x) as [th|] eqn:Hx.
    + destruct (repriced_alive w v s s' x th Hr Hx) as (th' & -> & _ & E & _). cbn. by rewrite E.
    + destruct (rp_threads _ _ _ _ Hr) as (oth & Hw & [-> |[-> _]]); [|by rewrite Hx].
      rewrite lookup_insert_ne by congruence. by rewrite Hx.
  - intros q x Hq _. by rewrite (rp_queues _ _ _ _ Hr).
  - intros p. rewrite (fr_tlist F). by left.
Qed.

Lemma inherit_priority_ok s w t th oth :
  kinv s -> k_threads s !! t = Some th -> k_threads s !! w = Some oth -> state_of oth <> RT_THREAD_CLOSE ->
  exists s', inherit_priority w t s = Ok tt s' /\
    repriced w (Z.min (th_current_priority oth) (th_current_priority th)) s s'.
Proof.
  intros Hk Ht Hw Hcl. unfold inherit_priority. erewrite run_bind by (by apply get_thread_run).
  erewrite run_bind by (by apply get_thread_run).
  destruct (Z.ltb_spec (th_current_priority th) (th_current_priority oth)).
  - rewrite Z.min_r by lia.
    destruct (change_priority_repriced s w oth (th_current_priority th)) as (s' & Hrun & Hr); [done..| |].
    { apply (ro_wf _ _ _ (proj1 (ki_sched _ _ Hk)) _ _ Ht). }
    exists s'. split; [|done]. by rewrite (run_bind _ _ _ _ _ Hrun).
  - rewrite Z.min_l by lia. exists s. split; [done|]. by apply repriced_same.
Qed.
End facts.

(** Joining an ordered queue keeps it ordered. *)
Lemma joins_sorted ths t l1 l2 :
  StronglySorted (urgent ths) (l1 ++ l2) -> joins ths RT_IPC_FLAG_PRIO (prio_of ths t) l1 l2 ->
  StronglySorted (urgent ths) (l1 ++ t :: l2).
Proof.
  intros Hs [[Hf _]|(_ & H1 & H2)]; [done|]. apply StronglySorted_middle; [done|done|].
  destruct l2 as [|y l2]; [constructor|]. constructor; [unfold urgent; lia|].
  assert (StronglySorted (urgent ths) (y :: l2)) as Hy.
  { eapply StronglySorted_sublist; [|exact Hs]. by apply sublist_inserts_l. }
  apply StronglySorted_inv in Hy as [_ Hy]. eapply Forall_impl; [exact Hy|]. unfold urgent. lia.
Qed.

Section take.
Context `{CleanupCall}.

(** The caller [t] waits for the owner [w]. *)
Record mutex_waits (o t w : ptr) (time : Z) (s s' : kst) : Prop := {
  mw_kinv : kinv s';
  mw_step : kstep s s';
  mw_cur : k_cur s' = k_cur s;
  mw_thread : exists th, k_threads s' !! t = Some th /\ state_of th = RT_THREAD_SUSPEND /\ th_error th = RT_EOK;
  mw_alive x th : k_threads s !! x = Some th -> exists th', k_threads s' !! x = Some th' /\
    (state_of th <> RT_THREAD_CLOSE -> state_of th' <> RT_THREAD_CLOSE);
  mw_prio x : prio_of (k_threads s') x =
    if decide (x = w) then Z.min (prio_of (k_threads s) w) (prio_of (k_threads s) t) else prio_of (k_threads s) x;
  mw_queue : exists l1 l2, getq (k_qs s) (QSuspend o) = l1 ++ l2 /\ getq (k_qs s') (QSuspend o) = l1 ++ t :: l2 /\
    joins (k_threads s) RT_IPC_FLAG_PRIO (prio_of (k_threads s) t) l1 l2;
  mw_timer : 0 < time -> asleep t time s';
  mw_forever : time <= 0 -> k_tlist s' = k_tlist s;
  mw_gentle : gentle false t s s'
}.

Lemma prio_of_lookup ths x th : ths !! x = Some th -> prio_of ths x = th_current_priority th.
Proof. unfold prio_of. by intros ->. Qed.

Lemma joins_ext a b prio l1 l2 : (forall x, x ∈ l1 ++ l2 -> prio_of b x = prio_of a x) ->
  joins a RT_IPC_FLAG_PRIO prio l1 l2 -> joins b RT_IPC_FLAG_PRIO prio l1 l2.
Proof.
  intros Hx [[Hf _]|(_ & H1 & H2)]; [done|]. right. split; [done|]. split.
  - rewrite Forall_forall in *. intros x Hin. rewrite Hx by set_solver. by apply H1.
  - destruct l2; [done|]. by rewrite Hx by set_solver.
Qed.

Lemma suspend_mutex_waits o m s t th w oth time :
  mtx_ok o m s -> k_threads s !! t = Some th -> runnable th -> k_threads s !! w = Some oth ->
  state_of oth <> RT_THREAD_CLOSE -> w <> t -> w ∉ getq (k_qs s) (QSuspend o) -> time < HALF_TICK ->
  exists s', (inherit_priority w t;; suspend_with_timeout (QSuspend o) t RT_IPC_FLAG_PRIO time)
               (with_error t th RT_EOK s) = Ok tt s' /\ mutex_waits o t w time s s'.
Proof.
  intros Hm Ht Hr Hw Hcl Hne Hnq Htime. pose proof (mtx_ok_error o m s t th RT_EOK Hm Ht) as Hm0.
  set (s0 := with_error t th RT_EOK s) in *. set (th0 := set_th_error RT_EOK th).
  assert (k_threads s0 !! t = Some th0) as Ht0 by apply lookup_insert_eq.
  assert (k_threads s0 !! w = Some oth) as Hw0 by (cbn; by rewrite lookup_insert_ne).
  destruct (inherit_priority_ok s0 w t th0 oth (cm_kinv _ (mo_calm _ _ _ Hm0)) Ht0 Hw0 Hcl) as (s1 & Hrun1 & Hrp).
  destruct (repriced_alive w _ s0 s1 t th0 Hrp Ht0) as (th1 & Ht1 & _ & _ & E1). rewrite (E1 (not_eq_sym Hne)) in *. clear E1.
  destruct (suspend_with_timeout_ok s1 (QSuspend o) t th0 RT_IPC_FLAG_PRIO time) as (s' & Hrun2 & Hwt);
    [apply Hrp|done|done|done|by right|done|].
  pose proof (gentle_waits _ _ _ _ _ _ _ Hwt) as Hgen. destruct Hwt as [Hk' Hks [J1 J2 (l1 & l2 & Eq & Eq' & Hj) J4 J5] Htm Hfv _ _].
  rewrite (rp_queues _ _ _ _ Hrp) in Eq by done. change (k_qs s0) with (k_qs s) in Eq.
  assert (Hp0 : forall x, prio_of (k_threads s0) x = prio_of (k_threads s) x).
  { intros x. apply threads_kept_prio. by apply (threads_kept_insert _ t th). }
  assert (Hp1 : forall x, prio_of (k_threads s1) x =
    if decide (x = w) then Z.min (prio_of (k_threads s) w) (prio_of (k_threads s) t) else prio_of (k_threads s) x).
  { intros x. rewrite (repriced_prio w _ s0 s1) by done. case_decide; [|done].
    rewrite (prio_of_lookup _ w oth), (prio_of_lookup _ t th) by done. done. }
  exists s'. split; [by rewrite (run_bind _ _ _ _ _ Hrun1)|]. split.
  - done.
  - eapply kstep_trans; [|exact Hks]. destruct (sched_frame_kstep _ _ (rp_frame _ _ _ _ Hrp)). by split.
  - by rewrite J1, (rp_cur _ _ _ _ Hrp).
  - eexists. rewrite J2. split; [apply lookup_insert_eq|]. split; [by apply state_with_state|done].
  - intros x thx Hx. rewrite J2. destruct (decide (x = t)) as [->|Hxt].
    + rewrite lookup_insert_eq. eexists. split; [done|]. intros _. by rewrite state_with_state.
    + rewrite lookup_insert_ne by done. assert (k_threads s0 !! x = Some thx) as Hx0 by (cbn; by rewrite lookup_insert_ne).
      destruct (repriced_alive w _ s0 s1 x thx Hrp Hx0) as (thx' & ? & Es & _). exists thx'. by rewrite Es.
  - intros x. rewrite <- Hp1, J2. apply threads_kept_prio, (threads_kept_insert _ t th0); [done|].
    split; [done|]. intros _. by rewrite state_with_state.
  - exists l1, l2. split; [done|]. split; [done|]. change (th_current_priority th0) with (th_current_priority th) in Hj.
    rewrite <- (prio_of_lookup _ _ _ Ht) in Hj. eapply joins_ext; [|exact Hj]. intros x Hx. rewrite Hp1.
    rewrite decide_False; [done|]. intros ->. apply Hnq. by rewrite Eq.
  - done.
  - intros Hle. rewrite (Hfv Hle). apply (fr_tlist (rp_frame _ _ _ _ Hrp)).
  - eapply gentle_trans; [apply gentle_blocks, (gentle_error _ t th RT_EOK Ht)|].
    eapply gentle_trans; [apply gentle_blocks; by eapply gentle_repriced|done].
Qed.

(** Waiting keeps the invariant: the owner now is as urgent as the new waiter. *)
Lemma mtx_ok_waits o m s s' t w time : mtx_ok o m s -> mtx_owner m = Some w -> w <> t ->
  mutex_waits o t w time s s' -> mtx_ok o m s'.
Proof.
  intros [Hc [ob [Ho Hf]] Hm Hw Hs] Eo Hne [M1 M2 M3 M4 M5 M6 (l1 & l2 & Eq & Eq' & Hj) _ _ _].
  unfold owner_ok in Hw. rewrite Eo in Hw. destruct Hw as (H1 & H2 & H3 & H4 & (th & Hth & Hcl) & H6).
  assert (Hpw : forall x, x ∈ l1 ++ t :: l2 -> prio_of (k_threads s') x = prio_of (k_threads s) x).
  { intros x Hx. rewrite M6. rewrite decide_False; [done|]. intros ->. rewrite Eq in H4. set_solver. }
  split.
  - by apply (calm_kstep s).
  - exists ob. split; [|done]. eapply ipc_object_step; [apply M2|done|done].
  - by rewrite (ks_mutexes M2).
  - unfold owner_ok. rewrite Eo. split; [done|]. split; [done|]. split; [done|]. split; [|split].
    + rewrite Eq'. rewrite Eq in H4. set_solver.
    + destruct (M5 w th Hth) as (th' & ? & ?). eauto.
    + rewrite Eq', Forall_forall. intros x Hx. unfold urgent. rewrite (M6 w), decide_True, Hpw by done.
      destruct (decide (x = t)) as [->|]; [lia|]. rewrite Eq, Forall_forall in H6.
      assert (urgent (k_threads s) w x) as Hu by (apply H6; set_solver). unfold urgent in Hu. lia.
  - rewrite Eq in Hs. rewrite Eq'. pose proof (joins_sorted _ t _ _ Hs Hj) as Hs'.
    clear -Hs' Hpw. remember (l1 ++ t :: l2) as l eqn:E. clear E. induction Hs' as [|x l Hs' IH Hx]; [constructor|].
    constructor; [apply IH; set_solver|]. rewrite Forall_forall in *. intros y Hy. unfold urgent.
    rewrite !Hpw by set_solver. by apply Hx.
Qed.
End take.

(** ** Taking *)
Section take_spec.
Context `{CleanupCall}.

(** What the first section of a take does, branch by branch. *)
Definition take_outcome (o t : ptr) (th : rt_thread) (time : Z) (m : rt_mutex) (s : kst) (r : Z + ptr) (s' : kst) : Prop :=
  let s0 := with_error t th RT_EOK s in
  let own m := set_k_mutexes (<[o := m]> (k_mutexes s)) s0 in
  match mtx_owner m with
  | None => r = inl RT_EOK /\ s' = own (Mutex 0 (th_current_priority th) 1 (Some t))
  | Some w =>
      if decide (w = t) then
        if mtx_hold m <? RT_MUTEX_HOLD_MAX
        then r = inl RT_EOK /\ s' = own (set_mtx_hold (mtx_hold m + 1) m)
        else r = inl (- RT_EFULL) /\ s' = s0
      else if time =? 0 then r = inl (- RT_ETIMEOUT) /\ s' = with_error t th (- RT_ETIMEOUT) s
      else r = inr t /\ mutex_waits o t w time s s'
  end.

Lemma mutex_take_outcome o m s t th time :
  mtx_ok o m s -> k_cur s = Some t -> k_threads s !! t = Some th -> state_of th = RT_THREAD_RUNNING ->
  time < HALF_TICK ->
  exists r s', mutex_take_section o time s = Ok r s' /\ take_outcome o t th time m s r s'.
Proof.
  intros Hm Hc Ht Hr Htime. pose proof Hm as [[Hk _ Hn] [ob [Ho Hf]] Hmx Hw _]. pose proof (mtx_ok_error o m s t th RT_EOK Hm Ht) as Hm0.
  assert (Hpre : forall {A} (k : ptr -> rt_mutex -> K A),
    (RT_DEBUG_IN_THREAD_CONTEXT;; assert_type o RT_Object_Class_Mutex;; thread ← self; set_error thread RT_EOK;;
     m ← get_mutex o; k thread m) s = k t m (with_error t th RT_EOK s)).
  { intros A k. erewrite run_bind by (by eapply in_thread_context_run).
    erewrite run_bind by (by eapply ipc_assert_run). erewrite run_bind by (by apply self_run).
    erewrite run_bind by (by apply set_error_run). by erewrite run_bind by (by apply get_mutex_run). }
  unfold mutex_take_section, take_outcome. rewrite Hpre. clear Hpre. unfold owner_ok in Hw.
  assert (k_threads (with_error t th RT_EOK s) !! t = Some (set_th_error RT_EOK th)) as Ht0 by apply lookup_insert_eq.
  destruct (mtx_owner m) as [w|] eqn:Eo.
  - destruct Hw as (H1 & H2 & H3 & H4 & (oth & Hth & Hcl) & H6). destruct (decide (w = t)) as [->|Hne].
    + rewrite bool_decide_eq_true_2 by done. destruct (Z.ltb_spec (mtx_hold m) RT_MUTEX_HOLD_MAX).
      * eexists _, _. split; [by erewrite run_bind by done|]. split; [done|].
        unfold RT_MUTEX_HOLD_MAX, RT_UINT8_MAX in *. by rewrite wrap_small by (change (2 ^ 8) with 256; lia).
      * eauto.
    + rewrite bool_decide_eq_false_2 by congruence. rewrite H1. cbn [Z.ltb Z.compare].
      destruct (Z.eqb_spec time 0).
      * eexists _, _. split; [by erewrite run_bind by (by apply set_error_run)|]. split; [done|]. by apply with_error_twice.
      * destruct (suspend_mutex_waits o m s t th w oth time) as (s' & Hrun & Hmw); try done; [by right|].
        exists (inr t), s'. split; [|done]. erewrite run_bind by done.
        unfold mbind, K_bind in Hrun |- *. destruct (inherit_priority w t _) as [[] s1|] eqn:Ei; [|done].
        assert (obj_flag o s1 = Ok RT_IPC_FLAG_PRIO s1) as ->.
        { rewrite <- Hf. destruct (inherit_priority_ok (with_error t th RT_EOK s) w t (set_th_error RT_EOK th) oth) as (s1' & Ei' & Hrp);
            [apply Hm0|done|cbn; by rewrite lookup_insert_ne|done|].
          rewrite Ei in Ei'. injection Ei' as <-. apply obj_flag_run. rewrite (fr_objs (rp_frame _ _ _ _ Hrp)). apply Ho. }
        by rewrite Hrun.
  - destruct Hw as (H1 & H2 & H3). rewrite bool_decide_eq_false_2 by done. rewrite H1. cbn [Z.ltb Z.compare].
    erewrite run_bind by (by apply get_thread_run). rewrite H2. change (0 <? RT_MUTEX_HOLD_MAX) with true. cbv iota.
    eexists _, _. split; [by erewrite run_bind by done|done].
Qed.

(** C34: [rt_mutex_take(mutex, time)] by the running thread: a free mutex becomes
    its with one hold, recording its priority; the owner only counts another
    hold (-RT_EFULL at 255); for another thread's mutex with time 0 the result
    is -RT_ETIMEOUT; otherwise the caller joins the queue behind every waiter
    at least as urgent, the owner's priority becomes the more urgent of its
    own and the caller's, and no other priority changes. *)
Theorem rt_mutex_take_spec o m s t th time :
  mtx_ok o m s -> k_cur s = Some t -> k_threads s !! t = Some th -> state_of th = RT_THREAD_RUNNING ->
  time < HALF_TICK ->
  exists r s', step (rt_mutex_take o time) s = Ok (match r with inl e => Ret e | inr t => after_wait t end) s' /\
    take_outcome o t th time m s r s'.
Proof.
  intros Hm Hc Ht Hr Htime. destruct (mutex_take_outcome o m s t th time Hm Hc Ht Hr Htime) as (r & s' & Hrun & Ho).
  exists r, s'. split; [|done]. by step_to r.
Qed.

Lemma mtx_ok_own o m m' s : mtx_ok o m s -> owner_ok o m' s -> mtx_ok o m' (set_k_mutexes (<[o := m']> (k_mutexes s)) s).
Proof.
  intros [Hc Ho Hm Hw Hs] Hw'. split; [by apply calm_mutexes|done|apply lookup_insert_eq|done|done].
Qed.

Lemma take_keeps o m s t th time r s' :
  mtx_ok o m s -> k_threads s !! t = Some th -> state_of th = RT_THREAD_RUNNING ->
  take_outcome o t th time m s r s' -> exists m', mtx_ok o m' s'.
Proof.
  intros Hm Ht Hr. pose proof (mtx_ok_error o m s t th RT_EOK Hm Ht) as Hm0. pose proof (mo_owner _ _ _ Hm0) as Hw.
  assert (k_threads (with_error t th RT_EOK s) !! t = Some (set_th_error RT_EOK th)) as Ht0 by apply lookup_insert_eq.
  unfold take_outcome, owner_ok in *. destruct (mtx_owner m) as [w|] eqn:Eo.
  - destruct (decide (w = t)) as [->|Hne].
    + destruct (Z.ltb_spec (mtx_hold m) RT_MUTEX_HOLD_MAX); intros [_ ->]; [|by eauto].
      exists (set_mtx_hold (mtx_hold m + 1) m). apply (mtx_ok_own o m _ _ Hm0). unfold owner_ok. cbn. rewrite Eo.
      destruct Hw as (? & ? & ?). split; [done|]. split; [lia|done].
    + destruct (time =? 0); intros [_ Hs']; [subst; eauto using mtx_ok_error|]. exists m. by apply (mtx_ok_waits o m s s' t w time).
  - intros [_ ->]. destruct Hw as (H1 & H2 & H3). eexists. apply (mtx_ok_own o m _ _ Hm0). unfold owner_ok.
    cbn [mtx_owner mtx_value mtx_hold mtx_original_priority]. rewrite H3. split; [done|]. split; [unfold RT_MUTEX_HOLD_MAX, RT_UINT8_MAX; lia|].
    split; [apply (ro_wf _ _ _ (proj1 (ki_sched _ _ (cm_kinv _ (mo_calm _ _ _ Hm)))) _ _ Ht)|].
    split; [apply not_elem_of_nil|]. split; [|constructor]. eexists. split; [exact Ht0|].
    change (state_of (set_th_error RT_EOK th)) with (state_of th). by rewrite Hr.
Qed.
End take_spec.

(** ** Releasing *)
Section release.
Context `{CleanupCall}.

(** The last release by [t]: the mutex is [m'] afterwards, the priority the
    one recorded in [m]. *)
Record released (o t : ptr) (m m' : rt_mutex) (s s' : kst) : Prop := {
  rl_kinv : kinv s';
  rl_cur : k_cur s' = k_cur s;
  rl_nest : k_nest s' = k_nest s;
  rl_objs : objs_step (k_objs s) (k_objs s');
  rl_mutexes : k_mutexes s' = <[o := m']> (k_mutexes s);
  rl_prio x : prio_of (k_threads s') x =
    if decide (x = t) then mtx_original_priority m else prio_of (k_threads s) x;
  rl_alive x th : k_threads s !! x = Some th -> exists th', k_threads s' !! x = Some th' /\
    th_error th' = th_error th /\ (state_of th <> RT_THREAD_CLOSE -> state_of th' <> RT_THREAD_CLOSE);
  rl_gentle : gentle true t s s'
}.

Lemma gentle_put_mutexes go t s s' mm : gentle go t s s' -> gentle go t s (set_k_mutexes mm s').
Proof. by intros [A1 A2 A3 AD A4 A5 A6 A7]. Qed.
Lemma gentle_get_mutexes go t s s' mm : gentle go t (set_k_mutexes mm s) s' -> gentle go t s s'.
Proof. by intros [A1 A2 A3 AD A4 A5 A6 A7]. Qed.

Definition release_outcome (o t : ptr) (th : rt_thread) (m : rt_mutex) (s : kst) (r : Z * bool) (s' : kst) : Prop :=
  if decide (mtx_owner m = Some t) then
    if 1 <? mtx_hold m then
      r = (RT_EOK, false) /\ s' = set_k_mutexes (<[o := set_mtx_hold (mtx_hold m - 1) m]> (k_mutexes s)) s
    else match getq (k_qs s) (QSuspend o) with
         | [] => r = (RT_EOK, false) /\ released o t m free_mutex s s' /\ getq (k_qs s') (QSuspend o) = []
         | x :: l =>
             r = (RT_EOK, true) /\ released o t m (Mutex 0 (prio_of (k_threads s) x) 1 (Some x)) s s' /\
             getq (k_qs s') (QSuspend o) = l /\ exists thx, k_threads s' !! x = Some thx /\ runnable thx
         end
  else r = (- RT_ERROR, false) /\ s' = with_error t th (- RT_ERROR) s.

(** The part of the section that restores the priority. *)
Lemma restore_priority_ok s t th v : kinv s -> k_threads s !! t = Some th -> state_of th <> RT_THREAD_CLOSE ->
  0 <= v < 32 ->
  exists s', (if negb (v =? th_current_priority th) then
                rt_thread_control t (RT_THREAD_CTRL_CHANGE_PRIORITY v) else mret RT_EOK) s = Ok RT_EOK s' /\
    repriced t v s s'.
Proof.
  intros Hk Ht Hcl Hv. destruct (Z.eqb_spec v (th_current_priority th)) as [->|]; cbn [negb].
  - exists s. split; [done|]. by apply repriced_same.
  - by apply (change_priority_repriced s t th v).
Qed.

Lemma released_free o t m s s1 : repriced t (mtx_original_priority m) s s1 ->
  released o t m free_mutex s (set_k_mutexes (<[o := free_mutex]> (k_mutexes s1)) s1).
Proof.
  intros Hr. pose proof (rp_frame _ _ _ _ Hr) as F. split; cbn.
  - unfold kinv. apply (kinv_ext _ s1); try done; apply Hr.
  - apply Hr.
  - apply (fr_nest F).
  - rewrite (fr_objs F). apply objs_step_refl.
  - by rewrite (fr_mutexes F).
  - intros x. by apply (repriced_prio t _ s s1).
  - intros x th Hx. destruct (repriced_alive t _ s s1 x th Hr Hx) as (th' & ? & Es & ? & _). exists th'. by rewrite Es.
  - apply gentle_put_mutexes. by eapply gentle_repriced.
Qed.

Lemma released_handed o t m m' x thx l s s1 s2 :
  repriced t (mtx_original_priority m) s s1 -> getq (k_qs s) (QSuspend o) = x :: l ->
  kinv s2 -> kstep (set_k_mutexes (<[o := m']> (k_mutexes s1)) s1) s2 ->
  woken x thx (set_k_mutexes (<[o := m']> (k_mutexes s1)) s1) s2 -> k_threads s1 !! x = Some thx ->
  released o t m m' s s2 /\ getq (k_qs s2) (QSuspend o) = l /\
  exists thx', k_threads s2 !! x = Some thx' /\ runnable thx'.
Proof.
  intros Hr E Hk2 Hks Hw Hx. pose proof (rp_frame _ _ _ _ Hr) as F. pose proof (wk_threads _ _ _ _ Hw) as Et. cbn in Et.
  split; [split|split].
  - done.
  - by rewrite (wk_cur _ _ _ _ Hw), <- (rp_cur _ _ _ _ Hr).
  - rewrite (ks_nest Hks). apply (fr_nest F).
  - rewrite <- (fr_objs F). apply Hks.
  - rewrite (ks_mutexes Hks). cbn. by rewrite (fr_mutexes F).
  - intros y. rewrite <- (repriced_prio t _ s s1 y Hr), Et. apply threads_kept_prio, (threads_kept_insert _ x thx); [done|].
    split; [done|]. intros _. destruct (woken_runnable (k_cur s1) x thx) as [->| ->]; done.
  - intros y th Hy. destruct (repriced_alive t _ s s1 y th Hr Hy) as (th' & Hy' & Es & Ee & _). rewrite Et.
    destruct (decide (y = x)) as [->|].
    + rewrite lookup_insert_eq. assert (thx = th') as -> by congruence. eexists. split; [done|]. split; [exact Ee|].
      intros _. destruct (woken_runnable (k_cur s1) x th') as [->| ->]; done.
    + rewrite lookup_insert_ne by done. exists th'. by rewrite Es.
  - eapply gentle_trans; [apply gentle_put_mutexes; by eapply gentle_repriced|]. by eapply gentle_woken.
  - eapply (woken_head x thx (set_k_mutexes (<[o:=m']> (k_mutexes s1)) s1)); [apply (ki_sched _ _ (rp_kinv _ _ _ _ Hr))|exact Hw|done|].
    cbn. by rewrite (rp_queues _ _ _ _ Hr).
  - rewrite Et, lookup_insert_eq. eexists. split; [done|]. apply woken_runnable.
Qed.

Lemma released_over o t m m0 m' s s' :
  released o t m m' (set_k_mutexes (<[o := m0]> (k_mutexes s)) s) s' -> released o t m m' s s'.
Proof.
  intros [H1 H2 H3 H4 H5 H6 H7 H8]. split; try done; [rewrite H5; cbn; apply insert_insert_eq|].
  by eapply gentle_get_mutexes.
Qed.

Lemma mutex_release_outcome o m s t th :
  mtx_ok o m s -> k_cur s = Some t -> k_threads s !! t = Some th -> state_of th = RT_THREAD_RUNNING ->
  exists r s', mutex_release_section o s = Ok r s' /\ release_outcome o t th m s r s'.
Proof.
  intros [[Hk _ Hn] [ob [Ho Hf]] Hmx Hw _] Hc Ht Hr.
  assert (state_of th <> RT_THREAD_CLOSE) as Hcl by (by rewrite Hr).
  unfold mutex_release_section, release_outcome.
  erewrite run_bind by (by eapply ipc_assert_run). erewrite run_bind by (by eapply in_thread_context_run).
  erewrite run_bind by (by apply self_run). erewrite run_bind by (by apply get_mutex_run).
  destruct (decide (mtx_owner m = Some t)) as [Eo|Hne].
  2:{ rewrite bool_decide_eq_false_2 by done. cbn [negb]. eexists _, _. split; [by erewrite run_bind by (by apply set_error_run)|done]. }
  rewrite bool_decide_eq_true_2 by done. cbn [negb]. unfold owner_ok in Hw. rewrite Eo in Hw.
  destruct Hw as (H1 & H2 & H3 & H4 & _ & H6). unfold RT_MUTEX_HOLD_MAX, RT_UINT8_MAX in H2.
  erewrite run_bind by done. rewrite wrap_small by (change (2 ^ 8) with 256; lia).
  cbn [mtx_hold set_mtx_hold mtx_original_priority mtx_value].
  destruct (Z.ltb_spec 1 (mtx_hold m)).
  { destruct (Z.eqb_spec (mtx_hold m - 1) 0); [lia|]. eauto. }
  assert (mtx_hold m = 1) as -> by lia. cbn [Z.sub Z.eqb negb]. change (1 - 1) with 0. cbn [Z.eqb negb].
  set (m0 := set_mtx_hold 0 m). set (s0 := set_k_mutexes (<[o := m0]> (k_mutexes s)) s).
  erewrite run_bind by (by apply get_thread_run).
  assert (kinv s0) as Hk0 by (unfold kinv; apply (kinv_ext _ s); try done; apply Hk).
  destruct (restore_priority_ok s0 t th (mtx_original_priority m) Hk0 Ht Hcl H3) as (s1 & Hrun1 & Hrp0).
  rewrite (run_bind _ _ _ _ _ Hrun1). clear Hrun1.
  erewrite run_bind by (by apply queue_empty_run). rewrite (rp_queues _ _ _ _ Hrp0) by done. cbn [k_qs s0 set_k_mutexes].
  assert (Eq0 : getq (k_qs s0) (QSuspend o) = getq (k_qs s) (QSuspend o)) by done.
  destruct (getq (k_qs s) (QSuspend o)) as [|x l] eqn:E; cbn [negb].
  - rewrite H1. change (0 <? RT_MUTEX_VALUE_MAX) with true. cbv iota.
    eexists _, _. split; [by erewrite run_bind by done|]. split; [done|]. split.
    + apply (released_over _ _ _ m0). by apply released_free.
    + cbn. by rewrite (rp_queues _ _ _ _ Hrp0).
  - set (m' := Mutex (mtx_value m) (prio_of (k_threads s) x) 1 (Some x)).
    set (s2 := set_k_mutexes (<[o := m']> (k_mutexes s1)) s1).
    assert (kinv s2) as Hk2 by (unfold kinv; apply (kinv_ext _ s1); try done; apply Hrp0).
    assert (getq (k_qs s1) (QSuspend o) = x :: l) as E1 by (by rewrite (rp_queues _ _ _ _ Hrp0)).
    destruct (rt_ipc_list_resume_ok _ s2 (QSuspend o) x l Hk2 eq_refl E1) as (thx & s3 & Hx & Hst & Hrun & Hk3 & Hks & Hwk).
    assert (prio_of (k_threads s) x = th_current_priority thx) as Ep.
    { transitivity (prio_of (k_threads s1) x); [|by apply prio_of_lookup].
      rewrite (repriced_prio t _ s0 s1) by done. rewrite decide_False; [done|]. intros ->. apply H4. set_solver. }
    exists (RT_EOK, true), s3. split.
    + erewrite run_bind by (by eapply queue_head_run). erewrite run_bind by (apply get_thread_run; exact Hx).
      cbn [mtx_hold set_mtx_original_priority set_mtx_owner m0 set_mtx_hold].
      change (0 <? RT_MUTEX_HOLD_MAX) with true. cbv iota. erewrite run_bind by done.
      change (u8 (0 + 1)) with 1. rewrite <- Ep. change (set_mtx_hold 1 _) with m'.
      change (set_k_mutexes _ s1) with s2. by rewrite (run_bind _ _ _ _ _ Hrun).
    + split; [done|]. unfold kinv in Hk3. assert (kinv s3) as Hk3' by (unfold kinv; by rewrite (ks_tick Hks)).
      destruct (released_handed o t m m' x thx l s0 s1 s3) as (Hrl & Hql & Hxl); try done.
      split; [|done]. unfold m' in Hrl. rewrite H1 in Hrl. by apply released_over in Hrl.
Qed.

(** C35: [rt_mutex_release(mutex)] by the running thread: a caller that does not
    own the mutex gets -RT_ERROR and nothing but its error field changes; a
    hold that is not the last is only counted down; the last one gives the
    caller the priority recorded when the mutex was taken and, if nobody
    waits, frees the mutex, otherwise makes the first waiter its owner with
    one hold, at that waiter's priority, and runnable, and asks for a schedule. *)
Theorem rt_mutex_release_spec o m s t th :
  mtx_ok o m s -> k_cur s = Some t -> k_threads s !! t = Some th -> state_of th = RT_THREAD_RUNNING ->
  exists (r : Z * bool) s', step (rt_mutex_release o) s =
      Ok (if snd r then atomic rt_schedule ~; Ret (fst r) else Ret (fst r))%proc s' /\
    release_outcome o t th m s r s'.
Proof.
  intros Hm Hc Ht Hr. destruct (mutex_release_outcome o m s t th Hm Hc Ht Hr) as (r & s' & Hrun & Ho).
  exists r, s'. split; [by step_to r|done].
Qed.

Lemma release_keeps o m s t th r s' :
  mtx_ok o m s -> k_threads s !! t = Some th -> release_outcome o t th m s r s' ->
  exists m', mtx_ok o m' s'.
Proof.
  intros Hm Ht. pose proof Hm as [Hc [ob [Ho Hf]] Hmx Hw Hs]. unfold release_outcome.
  destruct (decide (mtx_owner m = Some t)) as [Eo|_].
  2:{ intros [_ ->]. exists m. by apply mtx_ok_error. }
  unfold owner_ok in Hw. rewrite Eo in Hw. destruct Hw as (H1 & H2 & H3 & H4 & H5 & H6).
  destruct (Z.ltb_spec 1 (mtx_hold m)).
  { intros [_ ->]. exists (set_mtx_hold (mtx_hold m - 1) m). apply (mtx_ok_own o m _ _ Hm). unfold owner_ok.
    cbn. rewrite Eo. split; [done|]. split; [lia|done]. }
  assert (Hcommon : forall m', released o t m m' s s' -> calm s' /\
    (exists ob, ipc_object s' o RT_Object_Class_Mutex ob /\ ob_flag ob = RT_IPC_FLAG_PRIO) /\
    k_mutexes s' !! o = Some m').
  { intros m' Hrl. split; [|split].
    - destruct Hc as [? ? ?]. split; [apply Hrl|by rewrite (rl_cur _ _ _ _ _ _ Hrl)|by rewrite (rl_nest _ _ _ _ _ _ Hrl)].
    - exists ob. split; [|done]. eapply ipc_object_step; [apply Hrl|done|done].
    - rewrite (rl_mutexes _ _ _ _ _ _ Hrl). apply lookup_insert_eq. }
  destruct (getq (k_qs s) (QSuspend o)) as [|x l] eqn:E.
  - intros (_ & Hrl & Eq'). destruct (Hcommon _ Hrl) as (? & ? & ?). exists free_mutex. split; [done..| |].
    + by split.
    + rewrite Eq'. constructor.
  - intros (_ & Hrl & Eq' & thx & Hx & Hrx). destruct (Hcommon _ Hrl) as (Hc' & ? & ?).
    pose proof (qo_nodup _ _ (ro_queues _ _ _ (proj1 (ki_sched _ _ (cm_kinv _ Hc)))) (QSuspend o)) as Hnd.
    rewrite E in Hnd. apply NoDup_cons in Hnd as [Hxl Hnd].
    assert (Hp : forall y, y ∈ x :: l -> prio_of (k_threads s') y = prio_of (k_threads s) y).
    { intros y Hy. rewrite (rl_prio _ _ _ _ _ _ Hrl). rewrite decide_False; [done|]. by intros ->. }
    apply StronglySorted_inv in Hs as [Hs Hxs].
    eexists. split; [done..| |].
    + unfold owner_ok. cbn [mtx_owner mtx_value mtx_hold mtx_original_priority]. rewrite Eq'. split; [done|].
      split; [done|]. split.
      { rewrite <- Hp by set_solver. rewrite (prio_of_lookup _ _ _ Hx).
        apply (ro_wf _ _ _ (proj1 (ki_sched _ _ (cm_kinv _ Hc'))) _ _ Hx). }
      split; [done|]. split; [exists thx; split; [done|]; by destruct Hrx as [->| ->]|].
      rewrite Forall_forall in *. intros y Hy. unfold urgent. rewrite !Hp by set_solver. by apply Hxs.
    + rewrite Eq'. clear -Hs Hp. induction Hs as [|y l Hs IH Hy]; [constructor|].
      constructor; [apply IH; set_solver|]. rewrite Forall_forall in *. intros z Hz. unfold urgent.
      rewrite !Hp by set_solver. by apply Hy.
Qed.
End release.

(** ** The mutex in every interleaving *)
Section mutex_steps.
Context `{CleanupCall}.

(** One section of a thread that uses the mutex, or of the kernel. *)
Inductive mtx_step (app : positive -> ptr -> K unit) (o : ptr) : kst -> kst -> Prop :=
| mtx_step_take s t th time r s' :
    k_cur s = Some t -> k_threads s !! t = Some th -> state_of th = RT_THREAD_RUNNING -> time < HALF_TICK ->
    mutex_take_section o time s = Ok r s' -> mtx_step app o s s'
| mtx_step_release s t th r s' :
    k_cur s = Some t -> k_threads s !! t = Some th -> state_of th = RT_THREAD_RUNNING ->
    mutex_release_section o s = Ok r s' -> mtx_step app o s s'
| mtx_step_background s s' : background app s s' -> mtx_step app o s s'.

Lemma mtx_step_ok app o m s s' : mtx_ok o m s -> mtx_step app o s s' -> exists m', mtx_ok o m' s'.
Proof.
  intros Hm Hstep. destruct Hstep as [s t th time r s' Hc Ht Hr Htime Hrun|s t th r s' Hc Ht Hr Hrun|s s' Hbg].
  - destruct (mutex_take_outcome o m s t th time Hm Hc Ht Hr Htime) as (r1 & s1 & Hrun1 & Ho).
    rewrite Hrun in Hrun1. injection Hrun1 as -> ->. by eapply take_keeps.
  - destruct (mutex_release_outcome o m s t th Hm Hc Ht Hr) as (r1 & s1 & Hrun1 & Ho).
    rewrite Hrun in Hrun1. injection Hrun1 as -> ->. by eapply release_keeps.
  - destruct (background_ok app s s' (mo_calm _ _ _ Hm) Hbg) as [Hc' [Q1 Q2 Q3 Q4]]. exists m.
    apply (mtx_ok_frame o m s); [done|done|done| |by apply Q3|exact Q4].
    pose proof (f_equal k_mutexes Q1) as E. cbn in E. rewrite E. apply Hm.
Qed.

(** C6: one mutex in every interleaving of takes and releases by whichever
    thread runs, tick interrupts (timeouts of waiters included) and calls of
    the scheduler: it is free without holds and without waiters, or owned by
    exactly one live thread that is not itself waiting for it; its waiters
    are ordered by priority; and the owner is at least as urgent as every
    waiter, so a waiter never waits for a less urgent owner. *)
Theorem mutex_invariant app o m s s' : mtx_ok o m s -> rtc (mtx_step app o) s s' ->
  exists m', mtx_ok o m' s' /\
    forall w x, mtx_owner m' = Some w -> x ∈ getq (k_qs s') (QSuspend o) ->
      prio_of (k_threads s') w <= prio_of (k_threads s') x.
Proof.
  intros Hm Hsteps. revert m Hm. induction Hsteps as [s|s s1 s' Hstep _ IH]; intros m Hm.
  - exists m. split; [done|]. intros w x Eo Hx. pose proof (mo_owner _ _ _ Hm) as Hw. unfold owner_ok in Hw.
    rewrite Eo in Hw. destruct Hw as (_ & _ & _ & _ & _ & H6). rewrite Forall_forall in H6. by apply H6.
  - destruct (mtx_step_ok app o m s s1 Hm Hstep) as [m1 Hm1]. by eapply IH.
Qed.
End mutex_steps.

(** ** Two runs of two threads

    Thread 2 (priority 20) runs, thread 4 is the idle thread, thread 6
    (priority 5) waits for the semaphore 20; 22 and 24 are mutexes. *)
Definition demo_mutex : kst :=
  set_k_tick 100 (set_k_cur (Some 2%positive) (set_k_group (2 ^ 31)
   (set_k_qs (<[QReady 31 := [4%positive]]> (<[QSuspend 20 := [6%positive]]> ∅))
    (set_k_threads (<[2%positive := demo_thread RT_THREAD_RUNNING 20]>
       (<[4%positive := demo_thread RT_THREAD_READY 31]>
       (<[6%positive := demo_thread RT_THREAD_SUSPEND 5]> ∅)))
    (set_k_objs (<[2%positive := demo_object 129 0]> (<[4%positive := demo_object 129 0]>
       (<[6%positive := demo_object 129 0]> (<[5%positive := demo_object 138 0]>
       (<[9%positive := demo_object 138 0]> (<[13%positive := demo_object 138 0]>
       (<[20%positive := demo_object 130 1]> (<[22%positive := demo_object 131 1]>
       (<[24%positive := demo_object 131 1]> ∅)))))))))
    (set_k_timers (<[5%positive := demo_own 2 0]> (<[9%positive := demo_own 4 0]>
       (<[13%positive := demo_own 6 0]> ∅)))
    (set_k_sems (<[20%positive := Sem 0]> ∅)
    (set_k_mutexes (<[22%positive := free_mutex]> (<[24%positive := free_mutex]> ∅)) empty_kst)))))))).

Lemma demo_mutex_ok : kinv demo_mutex.
Proof. apply kinv_check_ok. by vm_compute. Qed.

#[local] Instance no_cleanup : CleanupCall := fun _ _ => mret tt.

(** Thread 2 takes 22; thread 6 waits for it, lending its priority; 2 takes
    24, releases 22; thread 6 releases 22 and waits again for 20; 2 releases 24. *)
Definition crossed_release : K (Z * Z * option ptr * option ptr) :=
  mutex_take_section 22 RT_WAITING_FOREVER;;
  sem_release_section 20;; rt_schedule;;
  mutex_take_section 22 RT_WAITING_FOREVER;; rt_schedule;;
  mutex_take_section 24 RT_WAITING_FOREVER;;
  mutex_release_section 22;; rt_schedule;;
  mutex_release_section 22;;
  sem_take_section 20 RT_WAITING_FOREVER;; rt_schedule;;
  mutex_release_section 24;;
  th ← get_thread 2; a ← get_mutex 22; b ← get_mutex 24;
  mret (th_current_priority th, th_init_priority th, mtx_owner a, mtx_owner b).

(** Mutexes that are not released in reverse order: in the end thread 2 owns
    no mutex and still runs at priority 5, thread 6's, and not at its own 20. *)
Example crossed_release_keeps_boost : exists s, crossed_release demo_mutex = Ok (5, 20, None, None) s.
Proof. eexists. vm_compute. reflexivity. Qed.

(** Thread 2 takes 22; thread 6 waits for it for 3 ticks and times out; then 2
    releases 22: the result, [need_schedule] and the current thread. *)
Definition release_after_timeout : K (Z * bool * option ptr) :=
  mutex_take_section 22 RT_WAITING_FOREVER;;
  sem_release_section 20;; rt_schedule;;
  mutex_take_section 22 3;; rt_schedule;;
  @ticks no_app 9 3;;
  r ← mutex_release_section 22; c ← gets k_cur; mret (r, c).

(** The release lowers the running thread from 5 back to 20 while thread 6 is
    ready at priority 5, and calls no scheduler: the less urgent thread runs on. *)
Example release_without_schedule : exists s,
  release_after_timeout demo_mutex = Ok (RT_EOK, false, Some 2%positive) s /\
  prio_of (k_threads s) 2 = 20 /\ getq (k_qs s) (QReady 5) = [6%positive].
Proof. eexists. split; [vm_compute; reflexivity|]. by vm_compute. Qed.

(** ** Witnesses *)
Lemma demo_mutex_22 : mtx_ok 22 free_mutex demo_mutex.
Proof.
  split; [|by exists (demo_object 131 1); repeat split; right|done|done|constructor].
  split; [exact demo_mutex_ok|by eexists|done].
Qed.

Lemma rt_mutex_take_spec_witness : exists s',
  step (rt_mutex_take 22 10) demo_mutex = Ok (Ret RT_EOK) s' /\
  k_mutexes s' !! 22%positive = Some (Mutex 0 20 1 (Some 2%positive)).
Proof.
  destruct (rt_mutex_take_spec 22 free_mutex demo_mutex 2 (demo_thread RT_THREAD_RUNNING 20) 10 demo_mutex_22)
    as (r & s' & Hrun & -> & ->); [done|done|by vm_compute|done|].
  eexists. split; [exact Hrun|by vm_compute].
Defined.

Lemma rt_mutex_release_spec_witness : exists s',
  step (rt_mutex_release 22) demo_mutex = Ok (Ret (- RT_ERROR)) s' /\
  k_mutexes s' !! 22%positive = Some free_mutex.
Proof.
  destruct (rt_mutex_release_spec 22 free_mutex demo_mutex 2 (demo_thread RT_THREAD_RUNNING 20) demo_mutex_22)
    as (r & s' & Hrun & -> & ->); [done|done|by vm_compute|].
  eexists. split; [exact Hrun|by vm_compute].
Defined.

Lemma mutex_invariant_witness : exists s' m',
  rtc (mtx_step no_app 22) demo_mutex s' /\ mtx_ok 22 m' s'.
Proof.
  destruct (mutex_take_section 22 7 demo_mutex) as [r s'|] eqn:E; [|by vm_compute in E].
  assert (rtc (mtx_step no_app 22) demo_mutex s') as Hs.
  { apply rtc_once. eapply (mtx_step_take no_app 22 demo_mutex 2 (demo_thread RT_THREAD_RUNNING 20) 7); [done..|exact E]. }
  destruct (mutex_invariant no_app 22 free_mutex demo_mutex s' demo_mutex_22 Hs) as (m' & Hm & _).
  exists s', m'. done.
Defined.
