(* ===== verification/Event.v ===== *)
(** * Event sets (rt-thread/src/ipc.c, third part)

    A sender ors bits into the event's set and then walks the waiters in queue
    order, waking each whose condition the set satisfies at its turn; a waiter
    with RT_EVENT_FLAG_CLEAR takes its bits away from those behind it.

    The theorems: a send is the fold [serve] over the queue, and no waiter is
    ever left behind whose condition the event's set satisfies. *)
From S2P Require Import Prelude KState Scheduler Object Timer Proc Thread Ipc.

Definition RT_EVENT_FLAG_AND : Z := 1.
Definition RT_EVENT_FLAG_OR : Z := 2.
Definition RT_EVENT_FLAG_CLEAR : Z := 4.

(** [opt & flag] as a condition *)
Definition has_flag (opt flag : Z) : bool := negb (Z.land opt flag =? 0).

Definition get_event (o : ptr) : K rt_event := fun s => lift (k_events s !! o) s.
Definition put_event (o : ptr) (e : rt_event) : K unit :=
  modify (fun s => set_k_events (<[o := e]> (k_events s)) s).

Definition rt_event_init (event : ptr) (name : list Z) (flag : Z) : K Z :=
  rt_object_init event RT_Object_Class_Event name;;
  put_obj_flag event flag;;
  rt_ipc_object_init event;;
  put_event event (Event 0);;
  mret RT_EOK.

Definition rt_event_detach (event : ptr) : K Z :=
  assert_type event RT_Object_Class_Event;;
  sys ← rt_object_is_systemobject event; RT_ASSERT sys;;
  rt_ipc_list_resume_all (QSuspend event);;
  rt_object_detach event;;
  mret RT_EOK.

Definition rt_event_create (name : list Z) (flag : Z) (mem : option ptr) : K (option ptr) :=
  RT_DEBUG_NOT_IN_INTERRUPT;;
  event ← rt_object_allocate RT_Object_Class_Event name mem;
  match event with
  | None => mret None
  | Some event =>
      put_obj_flag event flag;;
      rt_ipc_object_init event;;
      put_event event (Event 0);;
      mret (Some event)
  end.

Definition rt_event_delete (event : ptr) : K Z :=
  assert_type event RT_Object_Class_Event;;
  sys ← rt_object_is_systemobject event; RT_ASSERT (negb sys);;
  RT_DEBUG_NOT_IN_INTERRUPT;;
  rt_ipc_list_resume_all (QSuspend event);;
  rt_object_delete event;;
  mret RT_EOK.

(** [thread->event_set = v] *)
Definition put_event_set (thread : ptr) (v : Z) : K unit :=
  th ← get_thread thread; put_thread thread (set_th_event_set v th).

(** [status] of a waiter against the event's set ([None]: neither flag). *)
Definition waiter_status (thread : ptr) (th : rt_thread) (set : Z) : K (option bool) :=
  if has_flag (th_event_info th) RT_EVENT_FLAG_AND then
    mret (Some (Z.land (th_event_set th) set =? th_event_set th))
  else if has_flag (th_event_info th) RT_EVENT_FLAG_OR then
    if has_flag (th_event_set th) set then
      put_event_set thread (Z.land (th_event_set th) set);; mret (Some true)
    else mret (Some false)
  else mret None.

(** The loop of [rt_event_send] over the waiters (only the current node leaves
    the list, so the successor is the one read at the start); [None] is the
    return of -RT_EINVAL. *)
Fixpoint send_loop (event : ptr) (l : list ptr) (need_schedule : bool) : K (option bool) :=
  match l with
  | [] => mret (Some need_schedule)
  | thread :: l =>
      th ← get_thread thread;
      e ← get_event event;
      status ← waiter_status thread th (ev_set e);
      match status with
      | None => mret None
      | Some true =>
          th ← get_thread thread;
          (if has_flag (th_event_info th) RT_EVENT_FLAG_CLEAR then
             put_event event (Event (Z.land (ev_set e) (Z.lnot (th_event_set th))))
           else mret tt);;
          rt_thread_resume thread;;
          send_loop event l true
      | Some false => send_loop event l need_schedule
      end
  end.

(** The section of [rt_event_send]: the result and [need_schedule]. *)
Definition event_send_section (event : ptr) (set : Z) : K (Z * bool) :=
  e ← get_event event;
  put_event event (Event (Z.lor (ev_set e) set));;
  l ← gets (fun s => getq (k_qs s) (QSuspend event));
  r ← send_loop event l false;
  mret (match r with None => (- RT_EINVAL, false) | Some need => (RT_EOK, need) end).

Definition rt_event_send (event : ptr) (set : Z) : proc Z :=
  (atomic (assert_type event RT_Object_Class_Event) ~;
   if set =? 0 then Ret (- RT_ERROR)
   else
     r <~ atomic (event_send_section event set);
     if snd r then atomic rt_schedule ~; Ret (fst r) else Ret (fst r))%proc.

(** Result of the section of [rt_event_recv]: done with the bits stored in
    [*recved], timed out, or waiting. *)
Inductive recv_result := recv_done (recved : Z) | recv_timeout | recv_waits.

Definition event_recv_section (event thread : ptr) (set opt timeout : Z) : K recv_result :=
  e ← get_event event;
  status ← (if has_flag opt RT_EVENT_FLAG_AND then mret (Z.land (ev_set e) set =? set)
            else if has_flag opt RT_EVENT_FLAG_OR then mret (has_flag (ev_set e) set)
            else kfail AssertFail);
  if status : bool then
    th ← get_thread thread;
    put_thread thread (set_th_event_info opt (set_th_event_set (Z.land (ev_set e) set) th));;
    (if has_flag opt RT_EVENT_FLAG_CLEAR then
       put_event event (Event (Z.land (ev_set e) (Z.lnot set)))
     else mret tt);;
    mret (recv_done (Z.land (ev_set e) set))
  else if timeout =? 0 then
    set_error thread (- RT_ETIMEOUT);; mret recv_timeout
  else
    th ← get_thread thread;
    put_thread thread (set_th_event_info opt (set_th_event_set set th));;
    flag ← obj_flag event;
    suspend_with_timeout (QSuspend event) thread flag timeout;;
    mret recv_waits.

(** The part after [rt_schedule()]; results are the return value and the word
    stored in [*recved], if one is. *)
Definition event_recv_end (thread : ptr) : proc (Z * option Z) :=
  (e <~ atomic (wait_result thread);
   if negb (e =? RT_EOK) then e <~ atomic (wait_result thread); Ret (e, None)
   else
     v <~ atomic (th ← get_thread thread; mret (th_event_set th));
     e <~ atomic (wait_result thread);
     Ret (e, Some v))%proc.

Definition rt_event_recv (event : ptr) (set opt timeout : Z) : proc (Z * option Z) :=
  (atomic (RT_DEBUG_IN_THREAD_CONTEXT;; assert_type event RT_Object_Class_Event) ~;
   if set =? 0 then Ret (- RT_ERROR, None)
   else
     thread <~ atomic (thread ← self; set_error thread RT_EOK;; mret thread);
     r <~ atomic (event_recv_section event thread set opt timeout);
     match r with
     | recv_done v => e <~ atomic (wait_result thread); Ret (e, Some v)
     | recv_timeout => Ret (- RT_ETIMEOUT, None)
     | recv_waits => atomic rt_schedule ~; event_recv_end thread
     end)%proc.

Definition rt_event_control (event : ptr) (cmd : ipc_cmd) : proc Z :=
  match cmd with
  | RT_IPC_CMD_RESET =>
      (atomic (assert_type event RT_Object_Class_Event;;
               rt_ipc_list_resume_all (QSuspend event);;
               put_event event (Event 0)) ~;
       atomic rt_schedule ~; Ret RT_EOK)%proc
  | ipc_cmd_other _ => (atomic (assert_type event RT_Object_Class_Event) ~; Ret (- RT_ERROR))%proc
  end.

(** ** What a send means *)

(** Does [set] satisfy a waiter that asked for [need] with [opt]? *)
Definition satisfied (opt need set : Z) : bool :=
  if has_flag opt RT_EVENT_FLAG_AND then Z.land need set =? need
  else if has_flag opt RT_EVENT_FLAG_OR then has_flag need set
  else false.

(** The bits such a waiter receives. *)
Definition received (opt need set : Z) : Z :=
  if has_flag opt RT_EVENT_FLAG_AND then need else Z.land need set.

(** The waiters served by [set], in order, each with its bits, and the set left. *)
Fixpoint serve (ths : gmap ptr rt_thread) (set : Z) (l : list ptr) : list (ptr * Z) * Z :=
  match l with
  | [] => ([], set)
  | t :: l =>
      match ths !! t with
      | None => serve ths set l
      | Some th =>
          if satisfied (th_event_info th) (th_event_set th) set then
            let got := received (th_event_info th) (th_event_set th) set in
            let set' := if has_flag (th_event_info th) RT_EVENT_FLAG_CLEAR
                        then Z.land set (Z.lnot got) else set in
            ((t, got) :: (serve ths set' l).1, (serve ths set' l).2)
          else serve ths set l
      end
  end.

Definition valid_option (opt : Z) : bool := has_flag opt RT_EVENT_FLAG_AND || has_flag opt RT_EVENT_FLAG_OR.

Lemma get_event_run s o e : k_events s !! o = Some e -> get_event o s = Ok e s.
Proof. unfold get_event. by intros ->. Qed.

Lemma set_threads_same s : set_k_threads (k_threads s) s = s.
Proof. by destruct s. Qed.
Lemma set_events_same s : set_k_events (k_events s) s = s.
Proof. by destruct s. Qed.

(** A thread with its received bits. *)
Definition given (got : Z) (th : rt_thread) : rt_thread := set_th_event_set got th.

Lemma waiter_status_run s t th set :
  k_threads s !! t = Some th -> valid_option (th_event_info th) = true ->
  waiter_status t th set s =
  if satisfied (th_event_info th) (th_event_set th) set then
    Ok (Some true) (set_k_threads
      (<[t := given (received (th_event_info th) (th_event_set th) set) th]> (k_threads s)) s)
  else Ok (Some false) s.
Proof.
  intros Ht Hv. unfold waiter_status, satisfied, received, valid_option in *.
  destruct (has_flag (th_event_info th) RT_EVENT_FLAG_AND).
  - destruct (_ =? _); [|done]. assert (given (th_event_set th) th = th) as -> by (by destruct th).
    by rewrite insert_id, set_threads_same.
  - cbn [orb] in Hv. rewrite Hv. destruct (has_flag (th_event_set th) set); [|done].
    unfold put_event_set. by erewrite run_bind by (by erewrite run_bind by (by apply get_thread_run)).
Qed.

Lemma serve_ext a b set l : (forall x, x ∈ l -> a !! x = b !! x) -> serve a set l = serve b set l.
Proof.
  revert set. induction l as [|t l IH]; intros set Hx; [done|]. cbn [serve]. rewrite Hx by set_solver.
  assert (Hl : forall set, serve a set l = serve b set l) by (intros; apply IH; set_solver).
  destruct (b !! t); [|done]. case_match; by rewrite !Hl.
Qed.

Lemma serve_in ths set l x got : (x, got) ∈ (serve ths set l).1 -> x ∈ l.
Proof.
  revert set. induction l as [|t l IH]; intros set; cbn [serve]; [by intros H%not_elem_of_nil|].
  destruct (ths !! t) as [th|]; [|intros H; right; by eapply IH].
  case_match; cbn [fst].
  - intros [[= -> _]|H']%elem_of_cons; [by left|right; by eapply IH].
  - intros H'. right. by eapply IH.
Qed.

(** The event [o] with the waiters' conditions legal. *)
Definition waiters_valid (s : kst) (l : list ptr) : Prop :=
  Forall (fun x => exists th, k_threads s !! x = Some th /\ valid_option (th_event_info th) = true) l.

Definition served_thread (c : option ptr) (x : ptr) (o : option Z) (th : rt_thread) : rt_thread :=
  match o with Some got => with_state (woken_state c x) (given got th) | None => th end.

Lemma send_loop_ok b o l s set need :
  kinv_at b s -> k_events s !! o = Some (Event set) ->
  (exists l0, getq (k_qs s) (QSuspend o) = l0 ++ l) -> waiters_valid s l ->
  let r := serve (k_threads s) set l in
  exists s', send_loop o l need s = Ok (Some (match r.1 with [] => need | _ => true end)) s' /\ kinv_at b s' /\
    objs_step (k_objs s) (k_objs s') /\ (k_nest s', k_tick s') = (k_nest s, k_tick s) /\ k_cur s' = k_cur s /\
    k_events s' = <[o := Event r.2]> (k_events s) /\
    (forall q, is_wait_q q = true -> getq (k_qs s') q = filter (fun x => x ∉ r.1.*1) (getq (k_qs s) q)) /\
    (forall x, k_threads s' !! x =
       (fun th => served_thread (k_cur s) x ((list_to_map r.1 : gmap ptr Z) !! x) th) <$> k_threads s !! x).
Proof.
  revert s set need. induction l as [|t l IH]; intros s set need Hk He [l0 Eq] Hv r.
  - exists s. split; [done|]. split; [done|]. split; [apply objs_step_refl|]. split; [done|]. split; [done|].
    split; [by rewrite insert_id|]. split.
    + intros q _. symmetry. apply filter_id. intros x _. apply not_elem_of_nil.
    + intros x. by destruct (k_threads s !! x).
  - apply Forall_cons in Hv as [(th & Ht & Hvt) Hv].
    pose proof (qo_nodup _ _ (ro_queues _ _ _ (proj1 (ki_sched _ _ Hk))) (QSuspend o)) as Hnd. rewrite Eq in Hnd.
    apply NoDup_app in Hnd as (Hnd0 & Hdis & Hnd). apply NoDup_cons in Hnd as [Htl Hnd].
    assert (t ∉ l0) as Htl0 by (intros Hin; apply (Hdis t Hin); by left).
    unfold r. clear r. cbn [send_loop serve]. rewrite Ht.
    erewrite run_bind by (by apply get_thread_run). erewrite run_bind by (by apply get_event_run).
    cbn [ev_set]. pose proof (waiter_status_run s t th set Ht Hvt) as Hstat.
    destruct (satisfied (th_event_info th) (th_event_set th) set) eqn:Es; rewrite (run_bind _ _ _ _ _ Hstat).
    2:{ destruct (IH s set need Hk He) as (s' & Hrun & H); [|done|by exists s'].
        exists (l0 ++ [t]). by rewrite <- app_assoc. }
    set (got := received (th_event_info th) (th_event_set th) set) in *.
    set (th' := given got th) in *. set (set' := if has_flag (th_event_info th) RT_EVENT_FLAG_CLEAR
                        then Z.land set (Z.lnot got) else set).
    pose proof (ro_wf _ _ _ (proj1 (ki_sched _ _ Hk)) _ _ Ht) as Hwf.
    destruct (waiter_suspended s (QSuspend o) t (ki_sched _ _ Hk) eq_refl) as (th0 & Ht0 & Hst); [rewrite Eq; set_solver|].
    assert (th0 = th) as -> by congruence. clear Ht0.
    set (s1 := set_k_threads (<[t := th']> (k_threads s)) s) in *.
    assert (kinv_at b s1) as Hk1 by (by apply (kinv_touch _ s t th th')).
    set (s2 := set_k_events (<[o := Event set']> (k_events s)) s1).
    assert (kinv_at b s2) as Hk2 by (apply (kinv_ext _ s1); try done; apply Hk1).
    destruct (rt_thread_resume_ok b s2 t th' Hk2) as (s3 & Hrun3 & Hk3 & Hks3 & Hw); [apply lookup_insert_eq|done|].
    pose proof (wk_threads _ _ _ _ Hw) as Et3. cbn in Et3. rewrite insert_insert_eq in Et3.
    assert (Hl3 : forall x, x ∈ l -> k_threads s3 !! x = k_threads s !! x).
    { intros x Hx. rewrite Et3. rewrite lookup_insert_ne; [done|]. by intros ->. }
    destruct (IH s3 set' true Hk3) as (s' & Hrun' & Hk' & Ho' & Hn' & Hc' & He' & Hq' & Ht').
    { rewrite (ks_events Hks3). apply lookup_insert_eq. }
    { exists l0. rewrite (woken_wait_queue t th' s2 s3) by done. cbn. rewrite Eq, filter_app, filter_cons_False by tauto.
      rewrite !filter_id; [done|..]; intros x Hx ->; done. }
    { unfold waiters_valid in *. rewrite Forall_forall in *. intros x Hx. rewrite Hl3 by done. by apply Hv. }
    rewrite (serve_ext (k_threads s3) (k_threads s)) in * by done.
    assert (t ∉ (serve (k_threads s) set' l).1.*1) as Hts.
    { rewrite list_elem_of_fmap. intros ([x g] & -> & Hin). by eapply Htl, serve_in. }
    exists s'. cbn [fst snd fmap list_fmap].
    split; [|split; [done|split; [|split; [|split; [|split; [|split]]]]]].
    + erewrite run_bind by (apply get_thread_run; apply lookup_insert_eq).
      erewrite (run_bind _ _ s1 tt s2).
      2:{ unfold s2, set'. change (th_event_info th') with (th_event_info th).
          destruct (has_flag (th_event_info th) RT_EVENT_FLAG_CLEAR); [done|].
          rewrite insert_id by done. exact (f_equal (Ok tt) (eq_sym (set_events_same s1))). }
      rewrite (run_bind _ _ _ _ _ Hrun3), Hrun'. by destruct (serve (k_threads s) set' l).1.
    + eapply objs_step_trans; [|exact Ho']. apply Hks3.
    + rewrite Hn', (ks_nest Hks3), (ks_tick Hks3). done.
    + rewrite Hc'. apply (wk_cur _ _ _ _ Hw).
    + rewrite He', (ks_events Hks3). cbn. by rewrite insert_insert_eq.
    + intros q Hq. rewrite Hq', (woken_wait_queue t th' s2 s3) by done. cbn.
      rewrite list_filter_filter. apply list_filter_iff. intros x. rewrite not_elem_of_cons. tauto.
    + intros x. rewrite Ht', Et3, (wk_cur _ _ _ _ Hw). cbn. destruct (decide (x = t)) as [->|Hne].
      * rewrite !lookup_insert_eq, Ht. cbn. rewrite not_elem_of_list_to_map_1 by done. done.
      * rewrite !lookup_insert_ne by done. done.
Qed.

(** C31: [rt_event_send(event, set)] with [set <> 0] is the fold [serve] of the
    event's set, with [set] ored in, over the queue: exactly the waiters whose
    condition holds at their turn leave the queue (the others keep their
    order) and become runnable with the bits they receive; the set left is
    the one after the CLEAR waiters took theirs; the scheduler is called if
    and only if somebody was woken. *)
Theorem rt_event_send_spec o ob s e set :
  kinv s -> ipc_object s o RT_Object_Class_Event ob -> k_events s !! o = Some e ->
  waiters_valid s (getq (k_qs s) (QSuspend o)) -> set <> 0 ->
  let r := serve (k_threads s) (Z.lor (ev_set e) set) (getq (k_qs s) (QSuspend o)) in
  exists s', steps 2 (rt_event_send o set) s =
      Ok (match r.1 with [] => Ret RT_EOK | _ => atomic rt_schedule ~; Ret RT_EOK end)%proc s' /\
    kinv s' /\ k_events s' = <[o := Event r.2]> (k_events s) /\
    getq (k_qs s') (QSuspend o) = filter (fun x => x ∉ r.1.*1) (getq (k_qs s) (QSuspend o)) /\
    forall x, k_threads s' !! x =
      (fun th => served_thread (k_cur s) x ((list_to_map r.1 : gmap ptr Z) !! x) th) <$> k_threads s !! x.
Proof.
  intros Hk Ho He Hv Hset r. set (s0 := set_k_events (<[o := Event (Z.lor (ev_set e) set)]> (k_events s)) s).
  assert (kinv_at (k_tick s) s0) as Hk0 by (apply (kinv_ext _ s); try done; apply Hk).
  destruct (send_loop_ok _ o (getq (k_qs s) (QSuspend o)) s0 (Z.lor (ev_set e) set) false Hk0)
    as (s' & Hrun & Hk' & Hobj & Hn & Hc & He' & Hq & Ht); [apply lookup_insert_eq|by exists []|done|].
  injection Hn as Hn Htick. exists s'. split; [|split; [|split; [|split; [by apply Hq|done]]]].
  - erewrite steps_S by (step_to tt; by eapply ipc_assert_run).
    destruct (Z.eqb_spec set 0); [done|]. erewrite steps_S; [reflexivity|].
    eapply (step_to _ _ _ (RT_EOK, match r.1 with [] => false | _ => true end)).
    + unfold event_send_section. erewrite run_bind by (by apply get_event_run).
      do 2 erewrite run_bind by done. change (set_k_events _ s) with s0. rewrite (run_bind _ _ _ _ _ Hrun). done.
    + by destruct r.1.
  - unfold kinv. by rewrite Htick.
  - rewrite He'. cbn. by rewrite insert_insert_eq.
Qed.

(** *** No waiter is left behind *)

Lemma satisfied_mono opt need set m : satisfied opt need set = false -> satisfied opt need (Z.land set m) = false.
Proof.
  unfold satisfied, has_flag. case_match; [|case_match; [|done]].
  - intros H1%Z.eqb_neq. apply Z.eqb_neq. intros H2. apply H1. rewrite <- H2 at 2. bitwise i.
    apply (f_equal (fun x => Z.testbit x i)) in H2. rewrite !Z.land_spec in H2.
    destruct (Z.testbit need i), (Z.testbit set i), (Z.testbit m i); done.
  - intros H1%negb_false_iff%Z.eqb_eq. apply negb_false_iff, Z.eqb_eq.
    by rewrite Z.land_assoc, H1, Z.land_0_l.
Qed.

Lemma serve_mask ths set l : exists m, (serve ths set l).2 = Z.land set m.
Proof.
  revert set. induction l as [|t l IH]; intros set; cbn [serve snd]; [exists (-1); by rewrite Z.land_m1_r|].
  destruct (ths !! t) as [th|]; [|done]. case_match; [|done]. cbn [snd].
  case_match; [|done]. destruct (IH (Z.land set (Z.lnot (received (th_event_info th) (th_event_set th) set)))) as [m ->].
  eexists. by rewrite <- Z.land_assoc.
Qed.

Lemma serve_left ths set l x th : x ∈ l -> x ∉ (serve ths set l).1.*1 -> ths !! x = Some th ->
  satisfied (th_event_info th) (th_event_set th) (serve ths set l).2 = false.
Proof.
  revert set. induction l as [|t l IH]; intros set Hin Hns Hx; [by apply not_elem_of_nil in Hin|].
  cbn [serve] in *. destruct (ths !! t) as [tht|] eqn:Et.
  - destruct (satisfied (th_event_info tht) (th_event_set tht) set) eqn:Es; cbn [fst snd fmap list_fmap] in *.
    + apply not_elem_of_cons in Hns as [Hne Hns]. apply IH; [set_solver|done|done].
    + destruct (decide (x = t)) as [->|Hne]; [|apply IH; [set_solver|done|done]].
      assert (tht = th) as -> by congruence. destruct (serve_mask ths set l) as [m ->]. by apply satisfied_mono.
  - apply IH; [|done..]. apply elem_of_cons in Hin as [->|]; [congruence|done].
Qed.

(** The event [o] with the set [set]: every waiter asks for something legal
    that the set does not satisfy. *)
Definition unsatisfied (ths : gmap ptr rt_thread) (set : Z) (x : ptr) : Prop :=
  exists th, ths !! x = Some th /\ valid_option (th_event_info th) = true /\
    satisfied (th_event_info th) (th_event_set th) set = false.

Record ev_ok (o : ptr) (set : Z) (s : kst) : Prop := {
  eo_calm : calm s;
  eo_object : exists ob, ipc_object s o RT_Object_Class_Event ob;
  eo_event : k_events s !! o = Some (Event set);
  eo_waiters : Forall (unsatisfied (k_threads s) set) (getq (k_qs s) (QSuspend o))
}.

Lemma ev_ok_valid o set s : ev_ok o set s -> waiters_valid s (getq (k_qs s) (QSuspend o)).
Proof. intros H. eapply Forall_impl; [apply H|]. intros x (th & ? & ? & _). eauto. Qed.

Lemma unsatisfied_mono ths set m x : unsatisfied ths set x -> unsatisfied ths (Z.land set m) x.
Proof. intros (th & ? & ? & ?). exists th. split; [done|]. split; [done|]. by apply satisfied_mono. Qed.

Lemma unsatisfied_kept ths ths' set x th : ths !! x = Some th ->
  (exists th', ths' !! x = Some th' /\ kept th th') -> unsatisfied ths set x -> unsatisfied ths' set x.
Proof.
  intros Hx (th' & Hx' & [= _ E1 E2] & _) (th0 & Hx0 & H1 & H2). assert (th0 = th) as -> by congruence.
  exists th'. by rewrite E1, E2.
Qed.

Lemma ev_ok_touch o set s t th th' : ev_ok o set s -> k_threads s !! t = Some th -> runnable th ->
  same_place th th' -> thread_wf th' -> ev_ok o set (set_k_threads (<[t := th']> (k_threads s)) s).
Proof.
  intros [[Hk Hc Hn] Ho He Hw] Ht Hr Hsp Hwf. split; [|done|done|].
  - split; [by apply (kinv_touch _ s t th th')|done|done].
  - cbn. rewrite Forall_forall in *. intros x Hx. destruct (Hw x Hx) as (thx & Ex & H). exists thx.
    rewrite lookup_insert_ne; [done|]. intros <-. by eapply (runnable_no_waiter s t th (QSuspend o)).
Qed.

Lemma ev_ok_shrink o set m s : ev_ok o set s ->
  ev_ok o (Z.land set m) (set_k_events (<[o := Event (Z.land set m)]> (k_events s)) s).
Proof.
  intros [[Hk Hc Hn] Ho He Hw]. split; [|done|apply lookup_insert_eq|].
  - split; [|done|done]. unfold kinv. apply (kinv_ext _ s); try done. apply Hk.
  - eapply Forall_impl; [exact Hw|]. intros x. apply unsatisfied_mono.
Qed.

Lemma event_set_wf set opt th : thread_wf th -> thread_wf (set_th_event_info opt (set_th_event_set set th)).
Proof. done. Qed.

(** Joining the queue with a condition the set does not satisfy. *)
Lemma ev_ok_waits o set s t th need opt flag timeout s' :
  ev_ok o set s -> k_threads s !! t = Some th ->
  valid_option opt = true -> satisfied opt need set = false ->
  waits (QSuspend o) t (set_th_event_info opt (set_th_event_set need th)) flag timeout s s' -> ev_ok o set s'.
Proof.
  intros [Hc [ob Ho] He Hw] Ht Hv Hs [Hk' Hks [J1 J2 (l1 & l2 & Eq & Eq' & _) _ _] _ _ _]. split.
  - by apply (calm_kstep s).
  - exists ob. eapply ipc_object_step; [apply Hks|done|done].
  - by rewrite (ks_events Hks).
  - rewrite Eq', J2, Forall_forall. intros x Hx. destruct (decide (x = t)) as [->|Hne].
    + eexists. split; [apply lookup_insert_eq|]. done.
    + rewrite Forall_forall in Hw. destruct (Hw x) as (thx & Ex & H); [rewrite Eq; set_solver|].
      exists thx. by rewrite lookup_insert_ne.
Qed.

Lemma recv_step_ok o set s t th need opt timeout r s' :
  ev_ok o set s -> k_cur s = Some t -> k_threads s !! t = Some th -> state_of th = RT_THREAD_RUNNING ->
  valid_option opt = true -> timeout < HALF_TICK ->
  event_recv_section o t need opt timeout s = Ok r s' -> exists set', ev_ok o set' s'.
Proof.
  intros Hok Hc Ht Hr Hv Htime Hrun. pose proof Hok as [Hcm [ob Ho] He Hw].
  pose proof (ro_wf _ _ _ (proj1 (ki_sched _ _ (cm_kinv _ Hcm))) _ _ Ht) as Hwf.
  unfold event_recv_section in Hrun. erewrite run_bind in Hrun by (by apply get_event_run). cbn [ev_set] in Hrun.
  rewrite (run_bind _ _ s (satisfied opt need set) s) in Hrun.
  2:{ unfold satisfied, valid_option in *. rewrite Z.land_comm.
      assert (has_flag set need = has_flag need set) as -> by (unfold has_flag; by rewrite Z.land_comm).
      destruct (has_flag opt RT_EVENT_FLAG_AND); [done|]. cbn [orb] in Hv. by rewrite Hv. }
  destruct (satisfied opt need set) eqn:Es; [|destruct (timeout =? 0)].
  - erewrite run_bind in Hrun by (by apply get_thread_run). erewrite run_bind in Hrun by done.
    pose proof (ev_ok_touch o set s t th (set_th_event_info opt (set_th_event_set (Z.land set need) th))
      Hok Ht (or_intror Hr) ltac:(done) Hwf) as Hok1.
    destruct (has_flag opt RT_EVENT_FLAG_CLEAR).
    + erewrite run_bind in Hrun by done. injection Hrun as _ <-. exists (Z.land set (Z.lnot need)).
      exact (ev_ok_shrink o set (Z.lnot need) _ Hok1).
    + erewrite run_bind in Hrun by done. injection Hrun as _ <-. eauto.
  - erewrite run_bind in Hrun by (by apply set_error_run). injection Hrun as _ <-. exists set.
    apply (ev_ok_touch o set s t th); [done|done|by right|done|done].
  - erewrite run_bind in Hrun by (by apply get_thread_run). erewrite run_bind in Hrun by done.
    set (th1 := set_th_event_info opt (set_th_event_set need th)) in *.
    pose proof (ev_ok_touch o set s t th th1 Hok Ht (or_intror Hr) ltac:(done) Hwf) as Hok1.
    set (s1 := set_k_threads (<[t := th1]> (k_threads s)) s) in *.
    change (modify _ s) with (Ok tt s1) in Hrun. cbn in Hrun.
    erewrite run_bind in Hrun by (by apply (ipc_flag_run s1 o RT_Object_Class_Event ob)).
    destruct (suspend_with_timeout_ok s1 (QSuspend o) t th1 (ob_flag ob) timeout) as (s2 & Hrun2 & Hwt);
      [apply Hok1|apply lookup_insert_eq|by right|done|apply Ho|done|].
    erewrite run_bind in Hrun by exact Hrun2. injection Hrun as _ <-. exists set.
    apply (ev_ok_waits o set s1 t th1 need opt (ob_flag ob) timeout); [done|apply lookup_insert_eq|done|done|exact Hwt].
Qed.

Lemma send_step_ok o set s new r s' : ev_ok o set s -> event_send_section o new s = Ok r s' -> exists set', ev_ok o set' s'.
Proof.
  intros Hok Hrun. pose proof Hok as [Hcm [ob Ho] He Hw].
  set (set0 := Z.lor set new) in *. set (s0 := set_k_events (<[o := Event set0]> (k_events s)) s).
  assert (kinv_at (k_tick s) s0) as Hk0 by (apply (kinv_ext _ s); try done; apply Hcm).
  destruct (send_loop_ok _ o (getq (k_qs s) (QSuspend o)) s0 set0 false Hk0)
    as (s1 & Hrun1 & Hk1 & Hobj & Hn & Hc & He1 & Hq & Ht); [apply lookup_insert_eq|by exists []|exact (ev_ok_valid _ _ _ Hok)|].
  unfold event_send_section in Hrun. erewrite run_bind in Hrun by (by apply get_event_run).
  do 2 erewrite run_bind in Hrun by done. cbn [ev_set] in Hrun. change (set_k_events _ s) with s0 in Hrun.
  erewrite run_bind in Hrun by exact Hrun1. injection Hrun as _ <-. injection Hn as Hn Htick.
  change (k_threads s0) with (k_threads s) in *. change (k_qs s0) with (k_qs s) in *.
  set (rr := serve (k_threads s) set0 (getq (k_qs s) (QSuspend o))) in *. exists rr.2. split.
  - split; [unfold kinv; by rewrite Htick|by rewrite Hc; apply Hcm|by rewrite Hn; apply Hcm].
  - exists ob. by eapply ipc_object_step.
  - rewrite He1. apply lookup_insert_eq.
  - rewrite Hq by done. rewrite Forall_forall in *. intros x Hx. apply list_elem_of_filter in Hx as [Hns Hx].
    destruct (Hw x Hx) as (th & Eth & Hv & _). exists th. rewrite Ht, Eth. cbn.
    rewrite not_elem_of_list_to_map_1 by done. split; [done|]. split; [done|]. by apply (serve_left (k_threads s) set0 (getq (k_qs s) (QSuspend o)) x).
Qed.

(** One section of a thread that uses the event, or of the kernel. *)
Inductive ev_step (app : positive -> ptr -> K unit) (o : ptr) : kst -> kst -> Prop :=
| ev_step_error s t th : k_cur s = Some t -> k_threads s !! t = Some th -> state_of th = RT_THREAD_RUNNING ->
    ev_step app o s (with_error t th RT_EOK s)
| ev_step_recv s t th need opt timeout r s' :
    k_cur s = Some t -> k_threads s !! t = Some th -> state_of th = RT_THREAD_RUNNING ->
    valid_option opt = true -> timeout < HALF_TICK ->
    event_recv_section o t need opt timeout s = Ok r s' -> ev_step app o s s'
| ev_step_send s set r s' : event_send_section o set s = Ok r s' -> ev_step app o s s'
| ev_step_background s s' : background app s s' -> ev_step app o s s'.

Lemma ev_step_ok app o set s s' : ev_ok o set s -> ev_step app o s s' -> exists set', ev_ok o set' s'.
Proof.
  intros Hok Hstep. destruct Hstep as [s t th Hc Ht Hr|s t th need opt timeout r s' Hc Ht Hr Hv Htime Hrun|s new r s' Hrun|s s' Hbg].
  - exists set. pose proof (ro_wf _ _ _ (proj1 (ki_sched _ _ (cm_kinv _ (eo_calm _ _ _ Hok)))) _ _ Ht) as Hwf.
    apply (ev_ok_touch o set s t th); [done|done|by right|done|done].
  - by eapply recv_step_ok.
  - by eapply send_step_ok.
  - destruct Hok as [Hcm [ob Ho] He Hw]. destruct (background_ok app s s' Hcm Hbg) as [Hc' [Q1 Q2 Q3 Q4]].
    exists set. split; [done| | |].
    + exists ob. by eapply ipc_object_step.
    + pose proof (f_equal k_events Q1) as E. cbn in E. by rewrite E.
    + rewrite Forall_forall in *. intros x Hx. assert (x ∈ getq (k_qs s) (QSuspend o)) as Hx' by (by eapply sublist_subseteq; [apply Q3|]).
      specialize (Hw x Hx'). pose proof Hw as (th & Ex & _). eapply unsatisfied_kept; [exact Ex| |exact Hw].
      specialize (Q4 x). by rewrite Ex in Q4.
Qed.

(** C10: no wake-up is lost: in every interleaving of sends, receives by whichever
    thread runs, tick interrupts (timeouts of waiters included) and calls of
    the scheduler, each thread that waits for the event asks for bits, with a
    legal option, that the event's current set does not satisfy. *)
Theorem event_no_lost_wakeup app o set s s' : ev_ok o set s -> rtc (ev_step app o) s s' ->
  exists set', ev_ok o set' s' /\ forall x, x ∈ getq (k_qs s') (QSuspend o) -> unsatisfied (k_threads s') set' x.
Proof.
  intros Hok Hsteps. revert set Hok. induction Hsteps as [s|s s1 s' Hstep _ IH]; intros set Hok.
  - exists set. split; [done|]. intros x Hx. pose proof (eo_waiters _ _ _ Hok) as Hw. rewrite Forall_forall in Hw. by apply Hw.
  - destruct (ev_step_ok app o set s s1 Hok Hstep) as [set1 Hok1]. by eapply IH.
Qed.

(** ** Witnesses: object 20 as an event; thread 6 waits for the bits 1 and 2
    together and clears them. *)
Definition demo_event : kst :=
  set_k_events (<[20%positive := Event 1]> ∅)
    (set_k_objs (<[20%positive := demo_object 132 1]> (k_objs demo_kernel))
    (set_k_threads (<[6%positive := set_th_event_info 5 (set_th_event_set 3 (demo_thread RT_THREAD_SUSPEND 7))]>
       (k_threads demo_kernel)) demo_kernel)).

Lemma demo_event_ok : ev_ok 20 1 demo_event.
Proof.
  split; [|by exists (demo_object 132 1); repeat split; right|done|].
  - split; [apply kinv_check_ok; by vm_compute|by eexists|done].
  - apply Forall_singleton. eexists. split; [done|by vm_compute].
Qed.

Lemma rt_event_send_spec_witness : exists s',
  steps 2 (rt_event_send 20 2) demo_event = Ok (atomic rt_schedule ~; Ret RT_EOK)%proc s' /\
  k_events s' !! 20%positive = Some (Event 0) /\ getq (k_qs s') (QSuspend 20) = [].
Proof.
  destruct (rt_event_send_spec 20 (demo_object 132 1) demo_event (Event 1) 2 (cm_kinv _ (eo_calm _ _ _ demo_event_ok)))
    as (s' & Hrun & _ & He & Hq & _); [by repeat split; right|done|exact (ev_ok_valid _ _ _ demo_event_ok)|done|].
  exists s'. split; [exact Hrun|]. split; [by rewrite He|by rewrite Hq].
Defined.

Lemma event_no_lost_wakeup_witness : exists s' set', rtc (ev_step no_app 20) demo_event s' /\ ev_ok 20 set' s'.
Proof.
  destruct (event_send_section 20 4 demo_event) as [r s'|] eqn:E; [|by vm_compute in E].
  assert (rtc (ev_step no_app 20) demo_event s') as Hs by (apply rtc_once; by eapply ev_step_send).
  destruct (event_no_lost_wakeup no_app 20 1 demo_event s' demo_event_ok Hs) as (set' & Hok & _).
  exists s', set'. done.
Defined.
