(* ===== verification/Mailbox.v ===== *)
(** * Mailboxes (rt-thread/src/ipc.c, fourth part)

    A ring of words with wait queues for receivers and for senders.  The part
    of a call up to the point where it waits or is done is one section; the
    loop around the waits is [ipc_loop].

    The theorem: through every interleaving of sends, urgent sends, receives,
    ticks and schedules, the ring is a queue: what is received is exactly what
    was sent, in order, urgent mail first; and the next section of each of the
    three runs, with the result that the queue asks for. *)
From S2P Require Import Prelude Ring KState Scheduler Object Timer Proc Thread Ipc.

Definition RT_MB_ENTRY_MAX : Z := RT_UINT16_MAX.

Definition get_mb (o : ptr) : K rt_mailbox := fun s => lift (k_mbs s !! o) s.
Definition put_mb (o : ptr) (m : rt_mailbox) : K unit :=
  modify (fun s => set_k_mbs (<[o := m]> (k_mbs s)) s).

(** [msgpool] is the contents of the memory passed as pool. *)
Definition rt_mb_init (mb : ptr) (name : list Z) (msgpool : list Z) (size flag : Z) : K Z :=
  rt_object_init mb RT_Object_Class_MailBox name;;
  put_obj_flag mb flag;;
  rt_ipc_object_init mb;;
  put_mb mb (Mailbox msgpool (u16 size) 0 0 0);;
  queue_init (QSender mb);;
  mret RT_EOK.

Definition rt_mb_detach (mb : ptr) : K Z :=
  assert_type mb RT_Object_Class_MailBox;;
  sys ← rt_object_is_systemobject mb; RT_ASSERT sys;;
  rt_ipc_list_resume_all (QSuspend mb);;
  rt_ipc_list_resume_all (QSender mb);;
  rt_object_detach mb;;
  mret RT_EOK.

(** [mem] and [pool] are the results of the two allocations. *)
Definition rt_mb_create (name : list Z) (size flag : Z) (mem : option ptr) (pool : option (list Z)) : K (option ptr) :=
  RT_DEBUG_NOT_IN_INTERRUPT;;
  mb ← rt_object_allocate RT_Object_Class_MailBox name mem;
  match mb with
  | None => mret None
  | Some mb =>
      put_obj_flag mb flag;;
      rt_ipc_object_init mb;;
      match pool with
      | None => rt_object_delete mb;; mret None
      | Some msgpool =>
          put_mb mb (Mailbox msgpool (u16 size) 0 0 0);;
          queue_init (QSender mb);;
          mret (Some mb)
      end
  end.

Definition rt_mb_delete (mb : ptr) : K Z :=
  RT_DEBUG_NOT_IN_INTERRUPT;;
  assert_type mb RT_Object_Class_MailBox;;
  sys ← rt_object_is_systemobject mb; RT_ASSERT (negb sys);;
  rt_ipc_list_resume_all (QSuspend mb);;
  rt_ipc_list_resume_all (QSender mb);;
  rt_object_delete mb;;
  mret RT_EOK.

(** [mb->msg_pool[i] = value] *)
Definition pool_write (i value : Z) (pool : list Z) : K (list Z) :=
  if (0 <=? i) && (i <? Z.of_nat (length pool)) then mret (<[Z.to_nat i := value]> pool) else kfail BadPtr.
Definition pool_read (i : Z) (pool : list Z) : K Z :=
  if 0 <=? i then lift (pool !! Z.to_nat i) else kfail BadPtr.

(** Sending when there is room: the result and [rt_schedule()]. *)
Definition mb_put (mb : ptr) (value : Z) : K (Z * bool) :=
  m ← get_mb mb;
  pool ← pool_write (mb_in_offset m) value (mb_msg_pool m);
  let off := u16 (mb_in_offset m + 1) in
  let off := if mb_size m <=? off then 0 else off in
  if mb_entry m <? RT_MB_ENTRY_MAX then
    put_mb mb (Mailbox pool (mb_size m) (u16 (mb_entry m + 1)) off (mb_out_offset m));;
    need ← resume_one (QSuspend mb);
    mret (RT_EOK, need)
  else
    put_mb mb (Mailbox pool (mb_size m) (mb_entry m) off (mb_out_offset m));;
    mret (- RT_EFULL, false).

Definition mb_send_section (mb : ptr) (thread : option ptr) (value timeout : Z) (since : option Z) :
    K (ipc_result (Z * bool)) :=
  timeout ← timeout_left timeout since;
  m ← get_mb mb;
  if mb_entry m =? mb_size m then
    if (timeout =? 0) && bool_decide (since = None) then mret (ipc_fail (- RT_EFULL))
    else
      thread ← lift thread;
      set_error thread RT_EOK;;
      if timeout =? 0 then mret (ipc_fail (- RT_EFULL))
      else
        RT_DEBUG_IN_THREAD_CONTEXT;;
        tick_delta ← timed_suspend (QSender mb) mb thread timeout;
        mret (ipc_wait thread timeout tick_delta)
  else r ← mb_put mb value; mret (ipc_done r).

Definition rt_mb_send_wait (mb : ptr) (value timeout : Z) : proc Z :=
  (thread <~ atomic (assert_type mb RT_Object_Class_MailBox;; rt_thread_self);
   r <~ ipc_loop (mb_send_section mb thread value) timeout;
   match r with
   | inl e => Ret e
   | inr (e, need) => if need : bool then atomic rt_schedule ~; Ret e else Ret e
   end)%proc.

Definition rt_mb_send (mb : ptr) (value : Z) : proc Z := rt_mb_send_wait mb value 0.

(** The section of [rt_mb_urgent]. *)
Definition mb_urgent_section (mb : ptr) (value : Z) : K (Z * bool) :=
  m ← get_mb mb;
  if mb_entry m =? mb_size m then mret (- RT_EFULL, false)
  else
    let off := if 0 <? mb_out_offset m then u16 (mb_out_offset m - 1) else u16 (mb_size m - 1) in
    pool ← pool_write off value (mb_msg_pool m);
    put_mb mb (Mailbox pool (mb_size m) (u16 (mb_entry m + 1)) (mb_in_offset m) off);;
    need ← resume_one (QSuspend mb);
    mret (RT_EOK, need).

Definition rt_mb_urgent (mb : ptr) (value : Z) : proc Z :=
  (r <~ atomic (assert_type mb RT_Object_Class_MailBox;; mb_urgent_section mb value);
   if snd r then atomic rt_schedule ~; Ret (fst r) else Ret (fst r))%proc.

(** Receiving when there is mail: the value and [rt_schedule()]. *)
Definition mb_get (mb : ptr) : K (Z * bool) :=
  m ← get_mb mb;
  value ← pool_read (mb_out_offset m) (mb_msg_pool m);
  let off := u16 (mb_out_offset m + 1) in
  let off := if mb_size m <=? off then 0 else off in
  let entry := if 0 <? mb_entry m then u16 (mb_entry m - 1) else mb_entry m in
  put_mb mb (Mailbox (mb_msg_pool m) (mb_size m) entry (mb_in_offset m) off);;
  need ← resume_one (QSender mb);
  mret (value, need).

Definition mb_recv_section (mb : ptr) (thread : option ptr) (timeout : Z) (since : option Z) :
    K (ipc_result (Z * bool)) :=
  timeout ← timeout_left timeout since;
  m ← get_mb mb;
  if mb_entry m =? 0 then
    if (timeout =? 0) && bool_decide (since = None) then mret (ipc_fail (- RT_ETIMEOUT))
    else
      thread ← lift thread;
      set_error thread RT_EOK;;
      if timeout =? 0 then set_error thread (- RT_ETIMEOUT);; mret (ipc_fail (- RT_ETIMEOUT))
      else
        RT_DEBUG_IN_THREAD_CONTEXT;;
        tick_delta ← timed_suspend (QSuspend mb) mb thread timeout;
        mret (ipc_wait thread timeout tick_delta)
  else r ← mb_get mb; mret (ipc_done r).

(** The result and the word stored in [*value], if one is. *)
Definition rt_mb_recv (mb : ptr) (timeout : Z) : proc (Z * option Z) :=
  (thread <~ atomic (assert_type mb RT_Object_Class_MailBox;; rt_thread_self);
   r <~ ipc_loop (mb_recv_section mb thread) timeout;
   match r with
   | inl e => Ret (e, None)
   | inr (value, need) =>
       if need : bool then atomic rt_schedule ~; Ret (RT_EOK, Some value) else Ret (RT_EOK, Some value)
   end)%proc.

Definition rt_mb_control (mb : ptr) (cmd : ipc_cmd) : proc Z :=
  match cmd with
  | RT_IPC_CMD_RESET =>
      (atomic (assert_type mb RT_Object_Class_MailBox;;
               rt_ipc_list_resume_all (QSuspend mb);;
               rt_ipc_list_resume_all (QSender mb);;
               m ← get_mb mb;
               put_mb mb (Mailbox (mb_msg_pool m) (mb_size m) 0 0 0)) ~;
       atomic rt_schedule ~; Ret RT_EOK)%proc
  | ipc_cmd_other _ => (atomic (assert_type mb RT_Object_Class_MailBox) ~; Ret (- RT_ERROR))%proc
  end.

(** ** The ring as a queue *)

(** The mails [q], oldest first, are the [entry] slots from [out_offset] on. *)
Record ring_ok (m : rt_mailbox) (q : list Z) : Prop := {
  rg_ring : ring_at (mb_size m) (mb_out_offset m) (mb_msg_pool m) q;
  rg_size : mb_size m <= RT_UINT16_MAX;
  rg_entry : mb_entry m = Z.of_nat (length q);
  rg_in : mb_in_offset m = slot_of (mb_size m) (mb_out_offset m) (mb_entry m)
}.

Lemma pool_write_run i v pool s : 0 <= i < Z.of_nat (length pool) ->
  pool_write i v pool s = Ok (<[Z.to_nat i := v]> pool) s.
Proof. intros Hi. unfold pool_write. destruct (Z.leb_spec 0 i), (Z.ltb_spec i (Z.of_nat (length pool))); try lia. done. Qed.

Lemma pool_read_run i v pool s : 0 <= i -> pool !! Z.to_nat i = Some v -> pool_read i pool s = Ok v s.
Proof. intros Hi Hv. unfold pool_read. destruct (Z.leb_spec 0 i); [|lia]. by rewrite Hv. Qed.

Definition pushed (m : rt_mailbox) (v : Z) : rt_mailbox :=
  Mailbox (<[Z.to_nat (mb_in_offset m) := v]> (mb_msg_pool m)) (mb_size m) (mb_entry m + 1)
    (slot_of (mb_size m) (mb_in_offset m) 1) (mb_out_offset m).
Definition popped (m : rt_mailbox) : rt_mailbox :=
  Mailbox (mb_msg_pool m) (mb_size m) (mb_entry m - 1) (mb_in_offset m) (slot_of (mb_size m) (mb_out_offset m) 1).
Definition unpopped (m : rt_mailbox) (v : Z) : rt_mailbox :=
  Mailbox (<[Z.to_nat (slot_of (mb_size m) (mb_out_offset m) (-1)) := v]> (mb_msg_pool m)) (mb_size m) (mb_entry m + 1)
    (mb_in_offset m) (slot_of (mb_size m) (mb_out_offset m) (-1)).

Lemma ring_pushed m q v : ring_ok m q -> mb_entry m < mb_size m -> ring_ok (pushed m v) (q ++ [v]).
Proof.
  intros [H1 H2 H3 H4] Hroom. split; cbn; [|done|rewrite length_app; cbn; lia|].
  - rewrite H4, H3. apply ring_push; [done|lia].
  - by rewrite H4, slot_of_assoc.
Qed.

Lemma ring_popped m v q : ring_ok m (v :: q) ->
  mb_msg_pool m !! Z.to_nat (mb_out_offset m) = Some v /\ ring_ok (popped m) q.
Proof.
  intros [H1 H2 H3 H4]. apply ring_pop in H1 as [Hv H1]. split; [done|]. rewrite length_cons in H3.
  split; cbn; [done|done|lia|]. rewrite slot_of_assoc, H4. f_equal. lia.
Qed.

Lemma ring_unpopped m q v : ring_ok m q -> mb_entry m < mb_size m -> ring_ok (unpopped m v) (v :: q).
Proof.
  intros [H1 H2 H3 H4] Hroom. split; cbn; [|done|lia|].
  - apply ring_unpop; [done|lia].
  - rewrite slot_of_assoc, H4. f_equal. lia.
Qed.

(** ** The mailbox in every interleaving *)

(** The mailbox [o] holds the mails [q]. *)
Record mb_ok (o : ptr) (q : list Z) (s : kst) : Prop := {
  bo_calm : calm s;
  bo_object : exists ob, ipc_object s o RT_Object_Class_MailBox ob;
  bo_ring : exists m, k_mbs s !! o = Some m /\ ring_ok m q
}.

Lemma get_mb_run s o m : k_mbs s !! o = Some m -> get_mb o s = Ok m s.
Proof. unfold get_mb. by intros ->. Qed.

Lemma mb_ok_step o q s s' : mb_ok o q s -> calm s' -> objs_step (k_objs s) (k_objs s') -> k_mbs s' = k_mbs s -> mb_ok o q s'.
Proof.
  intros [Hc [ob Ho] (m & Hm & Hr)] Hc' Hobj E. split; [done| |].
  - exists ob. by eapply ipc_object_step.
  - exists m. by rewrite E.
Qed.

Lemma mb_ok_put o q q' m s : mb_ok o q s -> ring_ok m q' -> mb_ok o q' (set_k_mbs (<[o := m]> (k_mbs s)) s).
Proof.
  intros [[H1 H2 H3] Ho _] Hr. split; [split; [|done|done]|done|].
  - unfold kinv. apply (kinv_ext _ s); try done. apply H1.
  - exists m. split; [apply lookup_insert_eq|done].
Qed.

Lemma mb_resume_one o q s qq : mb_ok o q s -> is_wait_q qq = true ->
  exists b s', resume_one qq s = Ok b s' /\ mb_ok o q s'.
Proof.
  intros Hok Hq. destruct (resume_one_ok s qq (bo_calm _ _ _ Hok) Hq) as (b & s' & Hrun & Hc & Hks & _).
  exists b, s'. split; [done|]. eapply mb_ok_step; [done|done|apply Hks|apply (ks_mbs Hks)].
Qed.

Lemma mb_put_ok o q s m v : mb_ok o q s -> k_mbs s !! o = Some m -> mb_entry m <> mb_size m ->
  exists need s', mb_put o v s = Ok (RT_EOK, need) s' /\ mb_ok o (q ++ [v]) s'.
Proof.
  intros Hok Hm Hne. destruct (bo_ring _ _ _ Hok) as (m' & Hm' & Hr). assert (m' = m) as -> by congruence.
  pose proof Hr as [[H1 H2 H3 _] H4 H5 H6].
  pose proof (slot_of_range (mb_size m) (mb_out_offset m) (mb_entry m) ltac:(lia)) as Hin. rewrite <- H6 in Hin.
  unfold mb_put. erewrite run_bind by (by apply get_mb_run). erewrite run_bind by (apply pool_write_run; lia).
  unfold RT_MB_ENTRY_MAX. destruct (Z.ltb_spec (mb_entry m) RT_UINT16_MAX); [|lia].
  rewrite next_index by (unfold RT_UINT16_MAX in *; lia).
  rewrite wrap_small by (unfold RT_UINT16_MAX in *; change (2 ^ 16) with 65536; lia).
  change (Mailbox _ _ _ _ _) with (pushed m v). erewrite run_bind by done.
  assert (mb_ok o (q ++ [v]) (set_k_mbs (<[o := pushed m v]> (k_mbs s)) s)) as Hok1
    by (eapply mb_ok_put; [done|apply ring_pushed; [done|lia]]).
  destruct (mb_resume_one _ _ _ (QSuspend o) Hok1 eq_refl) as (b & s' & Hrun & Hok').
  exists b, s'. by rewrite (run_bind _ _ _ _ _ Hrun).
Qed.

Lemma mb_urgent_ok o q s m v : mb_ok o q s -> k_mbs s !! o = Some m -> mb_entry m <> mb_size m ->
  exists need s', mb_urgent_section o v s = Ok (RT_EOK, need) s' /\ mb_ok o (v :: q) s'.
Proof.
  intros Hok Hm Hne. destruct (bo_ring _ _ _ Hok) as (m' & Hm' & Hr). assert (m' = m) as -> by congruence.
  pose proof Hr as [[H1 H2 H3 _] H4 H5 H6]. unfold mb_urgent_section. erewrite run_bind by (by apply get_mb_run).
  destruct (Z.eqb_spec (mb_entry m) (mb_size m)); [done|].
  assert ((if 0 <? mb_out_offset m then u16 (mb_out_offset m - 1) else u16 (mb_size m - 1))
    = slot_of (mb_size m) (mb_out_offset m) (-1)) as ->.
  { unfold slot_of, RT_UINT16_MAX in *. destruct (Z.ltb_spec 0 (mb_out_offset m));
      rewrite wrap_small by (change (2 ^ 16) with 65536; lia).
    - symmetry. apply Z.mod_small. lia.
    - replace (mb_out_offset m + -1) with (mb_size m - 1 + (-1) * mb_size m) by lia.
      rewrite Z_mod_plus_full. symmetry. apply Z.mod_small. lia. }
  pose proof (slot_of_range (mb_size m) (mb_out_offset m) (-1) ltac:(lia)). erewrite run_bind by (apply pool_write_run; lia).
  rewrite wrap_small by (unfold RT_UINT16_MAX in *; change (2 ^ 16) with 65536; lia).
  change (Mailbox _ _ _ _ _) with (unpopped m v). erewrite run_bind by done.
  assert (mb_ok o (v :: q) (set_k_mbs (<[o := unpopped m v]> (k_mbs s)) s)) as Hok1
    by (eapply mb_ok_put; [done|apply ring_unpopped; [done|lia]]).
  destruct (mb_resume_one _ _ _ (QSuspend o) Hok1 eq_refl) as (b & s' & Hrun & Hok').
  exists b, s'. by rewrite (run_bind _ _ _ _ _ Hrun).
Qed.

Lemma mb_get_ok o q s m : mb_ok o q s -> k_mbs s !! o = Some m -> mb_entry m <> 0 ->
  exists v q' need s', q = v :: q' /\ mb_get o s = Ok (v, need) s' /\ mb_ok o q' s'.
Proof.
  intros Hok Hm Hne. destruct (bo_ring _ _ _ Hok) as (m' & Hm' & Hr). assert (m' = m) as -> by congruence.
  destruct q as [|v q]; [by pose proof (rg_entry _ _ Hr)|]. destruct (ring_popped m v q Hr) as [Hv Hr'].
  pose proof Hr as [[H1 H2 H3 _] H4 H5 H6]. rewrite length_cons in H3, H5. exists v, q.
  unfold mb_get. erewrite run_bind by (by apply get_mb_run). erewrite run_bind by (apply pool_read_run; [lia|exact Hv]).
  destruct (Z.ltb_spec 0 (mb_entry m)); [|lia].
  rewrite next_index by (unfold RT_UINT16_MAX in *; lia).
  rewrite wrap_small by (unfold RT_UINT16_MAX in *; change (2 ^ 16) with 65536; lia).
  change (Mailbox _ _ _ _ _) with (popped m). erewrite run_bind by done.
  assert (mb_ok o q (set_k_mbs (<[o := popped m]> (k_mbs s)) s)) as Hok1 by (by eapply mb_ok_put).
  destruct (mb_resume_one _ _ _ (QSender o) Hok1 eq_refl) as (b & s' & Hrun & Hok').
  exists b, s'. split; [done|]. by rewrite (run_bind _ _ _ _ _ Hrun).
Qed.

(** What a run does to the mail. *)
Inductive mail := Sent (v : Z) | SentUrgent (v : Z) | Received (v : Z).

(** The queue a mailbox is meant to be; receiving anything but its head is an
    error. *)
Fixpoint deliver (tr : list mail) (q : list Z) : option (list Z) :=
  match tr with
  | [] => Some q
  | Sent v :: tr => deliver tr (q ++ [v])
  | SentUrgent v :: tr => deliver tr (v :: q)
  | Received v :: tr =>
      match q with
      | w :: q => if decide (w = v) then deliver tr q else None
      | [] => None
      end
  end.

(** One section of a mailbox call, or of the kernel, and the mail it moved. *)
Inductive mb_step (app : positive -> ptr -> K unit) (o : ptr) : kst -> list mail -> kst -> Prop :=
| mb_step_send s thread v timeout since r s' : caller s thread timeout since ->
    mb_send_section o thread v timeout since s = Ok r s' ->
    mb_step app o s (match r with ipc_done (e, _) => if e =? RT_EOK then [Sent v] else [] | _ => [] end) s'
| mb_step_urgent s v e need s' : mb_urgent_section o v s = Ok (e, need) s' ->
    mb_step app o s (if e =? RT_EOK then [SentUrgent v] else []) s'
| mb_step_recv s thread timeout since r s' : caller s thread timeout since ->
    mb_recv_section o thread timeout since s = Ok r s' ->
    mb_step app o s (match r with ipc_done (v, _) => [Received v] | _ => [] end) s'
| mb_step_background s s' : background app s s' -> mb_step app o s [] s'.

Inductive mb_steps (app : positive -> ptr -> K unit) (o : ptr) : kst -> list mail -> kst -> Prop :=
| mb_steps_nil s : mb_steps app o s [] s
| mb_steps_cons s tr1 s1 tr s' : mb_step app o s tr1 s1 -> mb_steps app o s1 tr s' ->
    mb_steps app o s (tr1 ++ tr) s'.

Lemma mb_ok_error o q s t th e : mb_ok o q s -> k_threads s !! t = Some th -> mb_ok o q (with_error t th e s).
Proof.
  intros Hok Ht. apply (mb_ok_step o q s); [done|apply calm_error; [apply Hok|done]|apply objs_step_refl|done].
Qed.

(** The part of both loops that waits. *)
Lemma mb_wait_ok o q s qq t th timeout left : mb_ok o q s -> k_cur s = Some t -> k_threads s !! t = Some th ->
  state_of th = RT_THREAD_RUNNING -> is_wait_q qq = true -> timeout < HALF_TICK ->
  exists td s', (RT_DEBUG_IN_THREAD_CONTEXT;; tick_delta ← timed_suspend qq o t timeout; mret (@ipc_wait (Z * bool) t left tick_delta))
    (with_error t th RT_EOK s) = Ok (ipc_wait t left td) s' /\ mb_ok o q s'.
Proof.
  intros Hok Hc Ht Hr Hq Htime. pose proof Hok as [Hcm [ob Ho] _].
  destruct (timed_suspend_ok s qq o RT_Object_Class_MailBox ob t th timeout) as (td & s1 & Hrun1 & Hw & _);
    [done|done|by right|done..|].
  exists td, s1. erewrite run_bind by (apply (in_thread_context_run _ t); [done|apply Hcm]).
  rewrite (run_bind _ _ _ _ _ Hrun1). split; [done|]. pose proof (wt_step _ _ _ _ _ _ _ Hw) as Hks.
  apply (mb_ok_step o q s); [done|by eapply calm_wait|apply Hks|apply (ks_mbs Hks)].
Qed.

(** The mailbox has [n] places. *)
Definition mb_places (o : ptr) (n : nat) (s : kst) : Prop := exists m, k_mbs s !! o = Some m /\ mb_size m = Z.of_nat n.

(** What the next section of a send returns and leaves: the mail is in the
    queue, or the mailbox is full and the caller gives up or waits. *)
Definition sent_one (o : ptr) (v : Z) (q : list Z) (s : kst) (thread : option ptr) (r : ipc_result (Z * bool)) (q2 : list Z) : Prop :=
  match r with
  | ipc_done (e, _) => e = RT_EOK /\ q2 = q ++ [v]
  | ipc_fail e => e = - RT_EFULL /\ q2 = q /\ mb_places o (length q) s
  | ipc_wait t _ _ => thread = Some t /\ q2 = q /\ mb_places o (length q) s
  end.
(** Of a receive: the oldest mail, or there is none. *)
Definition received_one (q : list Z) (thread : option ptr) (r : ipc_result (Z * bool)) (q2 : list Z) : Prop :=
  match r with
  | ipc_done (v, _) => q = v :: q2
  | ipc_fail e => e = - RT_ETIMEOUT /\ q = [] /\ q2 = []
  | ipc_wait t _ _ => thread = Some t /\ q = [] /\ q2 = []
  end.

Lemma mb_full_places o q s m : mb_ok o q s -> k_mbs s !! o = Some m -> mb_entry m = mb_size m -> mb_places o (length q) s.
Proof.
  intros Hok Hm E. destruct (bo_ring _ _ _ Hok) as (m' & Hm' & Hr). assert (m' = m) as -> by congruence.
  exists m. split; [done|]. by rewrite <- E, (rg_entry _ _ Hr).
Qed.

Lemma mb_send_ok o q s thread v timeout since : mb_ok o q s -> caller s thread timeout since ->
  exists r s' q', mb_send_section o thread v timeout since s = Ok r s' /\ mb_ok o q' s' /\ sent_one o v q s thread r q'.
Proof.
  intros Hok Hcl. destruct (bo_ring _ _ _ Hok) as (m & Hm & Hr).
  destruct (timeout_left_run _ _ _ _ Hcl) as (left & Hleft & Hlt).
  unfold mb_send_section. rewrite (run_bind _ _ _ _ _ Hleft). erewrite run_bind by (by apply get_mb_run).
  destruct (Z.eqb_spec (mb_entry m) (mb_size m)) as [Hfull|Hroom].
  - pose proof (mb_full_places _ _ _ _ Hok Hm Hfull) as Hp.
    destruct ((left =? 0) && bool_decide (since = None)) eqn:Eb; [by eexists _, s, q|].
    destruct (caller_running _ _ _ _ _ Hcl Hleft Eb) as (t & th & -> & Hc & Ht & Hst).
    erewrite run_bind by done. erewrite run_bind by (by apply set_error_run). destruct (left =? 0).
    + eexists _, _, q. split; [done|]. split; [by apply mb_ok_error|done].
    + destruct (mb_wait_ok o q s (QSender o) t th left left) as (td & s' & Hrun & Hok'); [done..|]. by eexists _, s', q.
  - destruct (mb_put_ok o q s m v Hok Hm Hroom) as (need & s1 & Hrun1 & Hok1). rewrite (run_bind _ _ _ _ _ Hrun1).
    by eexists _, s1, (q ++ [v]).
Qed.

Lemma mb_urgent_section_ok o q s v : mb_ok o q s ->
  exists e need s' q', mb_urgent_section o v s = Ok (e, need) s' /\ mb_ok o q' s' /\
    ((e = RT_EOK /\ q' = v :: q) \/ (e = - RT_EFULL /\ q' = q /\ mb_places o (length q) s)).
Proof.
  intros Hok. destruct (bo_ring _ _ _ Hok) as (m & Hm & Hr). destruct (decide (mb_entry m = mb_size m)) as [Hfull|Hroom].
  - exists (- RT_EFULL), false, s, q. split; [|split; [done|right; by eauto using mb_full_places]].
    unfold mb_urgent_section. erewrite run_bind by (by apply get_mb_run). by rewrite (proj2 (Z.eqb_eq _ _) Hfull).
  - destruct (mb_urgent_ok o q s m v Hok Hm Hroom) as (need & s1 & Hrun & Hok1). exists RT_EOK, need, s1, (v :: q). auto.
Qed.

Lemma mb_recv_ok o q s thread timeout since : mb_ok o q s -> caller s thread timeout since ->
  exists r s' q', mb_recv_section o thread timeout since s = Ok r s' /\ mb_ok o q' s' /\ received_one q thread r q'.
Proof.
  intros Hok Hcl. destruct (bo_ring _ _ _ Hok) as (m & Hm & Hr).
  destruct (timeout_left_run _ _ _ _ Hcl) as (left & Hleft & Hlt).
  unfold mb_recv_section. rewrite (run_bind _ _ _ _ _ Hleft). erewrite run_bind by (by apply get_mb_run).
  destruct (Z.eqb_spec (mb_entry m) 0) as [Hempty|Hmail].
  - assert (q = []) as -> by (pose proof (rg_entry _ _ Hr); destruct q; [done|cbn in *; lia]).
    destruct ((left =? 0) && bool_decide (since = None)) eqn:Eb; [by eexists _, s, []|].
    destruct (caller_running _ _ _ _ _ Hcl Hleft Eb) as (t & th & -> & Hc & Ht & Hst).
    erewrite run_bind by done. erewrite run_bind by (by apply set_error_run). destruct (left =? 0).
    + erewrite run_bind by (apply set_error_run; apply lookup_insert_eq). eexists _, _, []. split; [done|].
      split; [|done]. apply mb_ok_error; [by apply mb_ok_error|apply lookup_insert_eq].
    + destruct (mb_wait_ok o [] s (QSuspend o) t th left left) as (td & s' & Hrun & Hok'); [done..|]. by eexists _, s', [].
  - destruct (mb_get_ok o q s m Hok Hm Hmail) as (v & q' & need & s1 & -> & Hrun1 & Hok1).
    rewrite (run_bind _ _ _ _ _ Hrun1). by eexists _, s1, q'.
Qed.

Lemma mb_step_ok app o q s tr s' : mb_ok o q s -> mb_step app o s tr s' ->
  exists q', mb_ok o q' s' /\ deliver tr q = Some q'.
Proof.
  intros Hok Hstep. destruct Hstep as [s thread v timeout since r s' Hcl Hrun|s v e need s' Hrun|s thread timeout since r s' Hcl Hrun|s s' Hbg].
  - destruct (mb_send_ok o q s thread v timeout since Hok Hcl) as (r' & s1 & q' & Hrun1 & Hok1 & H1). rewrite Hrun in Hrun1.
    injection Hrun1 as <- <-. exists q'. split; [done|]. destruct r as [[e need]|e|t a b]; [destruct H1 as [-> ->]; done|by destruct H1 as (_ & -> & _)..].
  - destruct (mb_urgent_section_ok o q s v Hok) as (e' & need' & s1 & q' & Hrun1 & Hok1 & H1). rewrite Hrun in Hrun1.
    injection Hrun1 as <- <- <-. exists q'. split; [done|]. by destruct H1 as [[-> ->]|(-> & -> & _)].
  - destruct (mb_recv_ok o q s thread timeout since Hok Hcl) as (r' & s1 & q' & Hrun1 & Hok1 & H1). rewrite Hrun in Hrun1.
    injection Hrun1 as <- <-. exists q'. split; [done|]. destruct r as [[v need]|e|t a b]; [cbn in H1; rewrite H1; cbn; by rewrite decide_True|by destruct H1 as (_ & -> & ->)..].
  - destruct (background_ok app s s' (bo_calm _ _ _ Hok) Hbg) as [Hc' [Q1 Q2 _ _]]. exists q. split; [|done].
    apply (mb_ok_step o q s); [done|done|done|exact (f_equal k_mbs Q1)].
Qed.

Lemma deliver_app tr1 tr q q1 : deliver tr1 q = Some q1 -> deliver (tr1 ++ tr) q = deliver tr q1.
Proof.
  revert q. induction tr1 as [|[v|v|v] tr1 IH]; intros q; cbn; [by intros [= ->]|auto..].
  destruct q as [|w q]; [done|]. case_decide; [auto|done].
Qed.

(** C12: a mailbox is a queue: in every interleaving of sends, urgent sends and
    receives (their sections before and after each wait), tick interrupts and
    calls of the scheduler, the mails received are the ones sent, each once
    and in order, urgent mail in front.  In every state that is reached the
    next section of each of the three, in the running thread or in one that
    does not wait, runs: it reads and stores inside the pool.  A send stores
    the mail, or the mailbox has no place left and it gives up with -RT_EFULL
    or waits; a receive takes the oldest mail, or there is none and it gives up
    with -RT_ETIMEOUT or waits; and the mailbox is in order again. *)
Theorem mailbox_fifo app o q s tr s' : mb_ok o q s -> mb_steps app o s tr s' ->
  exists q', mb_ok o q' s' /\ deliver tr q = Some q' /\
    (forall thread v timeout since, caller s' thread timeout since ->
       exists r s2 q2, mb_send_section o thread v timeout since s' = Ok r s2 /\ mb_ok o q2 s2 /\ sent_one o v q' s' thread r q2) /\
    (forall v, exists e need s2 q2, mb_urgent_section o v s' = Ok (e, need) s2 /\ mb_ok o q2 s2 /\
       ((e = RT_EOK /\ q2 = v :: q') \/ (e = - RT_EFULL /\ q2 = q' /\ mb_places o (length q') s'))) /\
    (forall thread timeout since, caller s' thread timeout since ->
       exists r s2 q2, mb_recv_section o thread timeout since s' = Ok r s2 /\ mb_ok o q2 s2 /\ received_one q' thread r q2).
Proof.
  intros Hok H. revert q Hok. induction H as [s|s tr1 s1 tr s' Hstep _ IH]; intros q Hok.
  - exists q. split; [done|]. split; [done|]. split; [by intros; apply mb_send_ok|]. split; [by intros; apply mb_urgent_section_ok|].
    by intros; apply mb_recv_ok.
  - destruct (mb_step_ok app o q s tr1 s1 Hok Hstep) as (q1 & Hok1 & E1).
    destruct (IH q1 Hok1) as (q' & Hok' & E' & Hnext). exists q'. split; [done|]. split; [by rewrite (deliver_app _ _ _ _ E1)|done].
Qed.

(** ** Witness: object 20 as a mailbox of three words with one mail; a receiver
    waits. *)
Definition demo_mb : kst :=
  set_k_mbs (<[20%positive := Mailbox [0; 7; 0] 3 1 2 1]> ∅)
    (set_k_objs (<[20%positive := demo_object 133 1]> (k_objs demo_kernel)) demo_kernel).

Lemma demo_mb_ok : mb_ok 20 [7] demo_mb.
Proof.
  split; [|by exists (demo_object 133 1); repeat split; right|].
  - split; [apply kinv_check_ok; by vm_compute|by eexists|done].
  - eexists. split; [done|]. split; try (by vm_compute). split; try (by vm_compute). intros [|i] x; [by intros [= <-]|done].
Qed.

Lemma mailbox_fifo_witness : exists s2 q2, mb_steps no_app 20 demo_mb [Sent 9; Received 7] s2 /\ mb_ok 20 q2 s2 /\
  deliver [Sent 9; Received 7] [7] = Some q2.
Proof.
  destruct (mb_send_section 20 None 9 0 None demo_mb) as [r1 s1|] eqn:E1; [|by vm_compute in E1].
  assert (r1 = ipc_done (RT_EOK, true)) as -> by (vm_compute in E1; by injection E1 as <- _).
  destruct (mb_recv_section 20 None 0 None s1) as [r2 s2|] eqn:E2.
  2:{ vm_compute in E1. injection E1 as <-. by vm_compute in E2. }
  assert (r2 = ipc_done (7, false)) as ->.
  { vm_compute in E1. injection E1 as <-. vm_compute in E2. by injection E2 as <- _. }
  assert (mb_steps no_app 20 demo_mb [Sent 9; Received 7] s2) as Hs.
  { apply (mb_steps_cons _ _ _ [Sent 9] s1 [Received 7] s2).
    - exact (mb_step_send no_app 20 demo_mb None 9 0 None (ipc_done (RT_EOK, true)) s1
        (or_introl (conj eq_refl eq_refl)) E1).
    - apply (mb_steps_cons _ _ _ [Received 7] s2 [] s2); [|constructor].
      exact (mb_step_recv no_app 20 s1 None 0 None (ipc_done (7, false)) s2
        (or_introl (conj eq_refl eq_refl)) E2). }
  destruct (mailbox_fifo no_app 20 [7] demo_mb _ s2 demo_mb_ok Hs) as (q2 & Hok & Eq & _).
  exists s2, q2. done.
Defined.
