(* ===== verification/MsgQueue.v ===== *)
(** * Message queues (rt-thread/src/ipc.c, fifth part)

    Fixed-size messages in a pool of blocks linked through their headers: the
    free list, the queue from head to tail, and blocks in flight - taken from
    a list but being filled or copied with interrupts enabled.  A call is the
    sequence of its critical sections and of the copies between them.

    The theorem is a refinement: every section is a step of an abstract queue
    of messages whose blocks are queued, free or in flight, never two of them,
    whatever runs in between. *)
From S2P Require Import Prelude KState Scheduler Object Timer Proc Thread Ipc.

Definition RT_MQ_ENTRY_MAX : Z := RT_UINT16_MAX.
Definition RT_ALIGN_SIZE : Z := 4.
Definition RT_ALIGN (size align : Z) : Z := Z.land (size + align - 1) (Z.lnot (align - 1)).
(** [sizeof(struct rt_mq_message)] *)
Definition MQ_HEADER : Z := 4.

Definition get_mq (o : ptr) : K rt_messagequeue := fun s => lift (k_mqs s !! o) s.
Definition put_mq (o : ptr) (m : rt_messagequeue) : K unit :=
  modify (fun s => set_k_mqs (<[o := m]> (k_mqs s)) s).

(** Reading and writing the message block at offset [x]. *)
Definition get_msg (m : rt_messagequeue) (x : Z) : K rt_mq_message := lift (mq_pool m !! x).
Definition with_msg (x : Z) (b : rt_mq_message) (m : rt_messagequeue) : rt_messagequeue :=
  set_mq_pool (<[x := b]> (mq_pool m)) m.

(** The loop of rt_mq_init that links the blocks [temp ..] into the free list;
    [bytes] is what the memory holds behind each header. *)
Fixpoint init_free (bytes : Z -> list Z) (stride : Z) (n : nat) (temp : Z) (m : rt_messagequeue) : rt_messagequeue :=
  match n with
  | O => m
  | S n =>
      let head := temp * stride in
      init_free bytes stride n (temp + 1)
        (set_mq_queue_free (Some head) (with_msg head (MqMsg (mq_queue_free m) (bytes head)) m))
  end.

Definition empty_mq (bytes : Z -> list Z) (msg_size max_msgs : Z) : rt_messagequeue :=
  init_free bytes (msg_size + MQ_HEADER) (Z.to_nat max_msgs) 0 (Mq ∅ msg_size max_msgs 0 None None None).

Definition rt_mq_init (mq : ptr) (name : list Z) (bytes : Z -> list Z) (msg_size pool_size flag : Z) : K Z :=
  rt_object_init mq RT_Object_Class_MessageQueue name;;
  put_obj_flag mq flag;;
  rt_ipc_object_init mq;;
  let size := u16 (RT_ALIGN msg_size RT_ALIGN_SIZE) in
  put_mq mq (empty_mq bytes size (u16 (pool_size / (size + MQ_HEADER))));;
  queue_init (QSender mq);;
  mret RT_EOK.

Definition rt_mq_detach (mq : ptr) : K Z :=
  assert_type mq RT_Object_Class_MessageQueue;;
  sys ← rt_object_is_systemobject mq; RT_ASSERT sys;;
  rt_ipc_list_resume_all (QSuspend mq);;
  rt_ipc_list_resume_all (QSender mq);;
  rt_object_detach mq;;
  mret RT_EOK.

(** [mem] and [pool] are the results of the two allocations. *)
Definition rt_mq_create (name : list Z) (msg_size max_msgs flag : Z) (mem : option ptr)
    (pool : option (Z -> list Z)) : K (option ptr) :=
  RT_DEBUG_NOT_IN_INTERRUPT;;
  mq ← rt_object_allocate RT_Object_Class_MessageQueue name mem;
  match mq with
  | None => mret None
  | Some mq =>
      put_obj_flag mq flag;;
      rt_ipc_object_init mq;;
      match pool with
      | None => rt_object_delete mq;; mret None
      | Some bytes =>
          put_mq mq (empty_mq bytes (u16 (RT_ALIGN msg_size RT_ALIGN_SIZE)) (u16 max_msgs));;
          queue_init (QSender mq);;
          mret (Some mq)
      end
  end.

Definition rt_mq_delete (mq : ptr) : K Z :=
  RT_DEBUG_NOT_IN_INTERRUPT;;
  assert_type mq RT_Object_Class_MessageQueue;;
  sys ← rt_object_is_systemobject mq; RT_ASSERT (negb sys);;
  rt_ipc_list_resume_all (QSuspend mq);;
  rt_ipc_list_resume_all (QSender mq);;
  rt_object_delete mq;;
  mret RT_EOK.

(** The first critical section of a send: take a block off the free list, or
    wait for one. *)
Definition mq_alloc_section (mq : ptr) (thread : option ptr) (timeout : Z) (since : option Z) : K (ipc_result Z) :=
  timeout ← timeout_left timeout since;
  m ← get_mq mq;
  match mq_queue_free m with
  | None =>
      if (timeout =? 0) && bool_decide (since = None) then mret (ipc_fail (- RT_EFULL))
      else
        thread ← lift thread;
        set_error thread RT_EOK;;
        if timeout =? 0 then mret (ipc_fail (- RT_EFULL))
        else
          RT_DEBUG_IN_THREAD_CONTEXT;;
          tick_delta ← timed_suspend (QSender mq) mq thread timeout;
          mret (ipc_wait thread timeout tick_delta)
  | Some msg =>
      b ← get_msg m msg;
      put_mq mq (set_mq_queue_free (msg_next b) m);;
      mret (ipc_done msg)
  end.

(** [msg->next = RT_NULL] and [rt_memcpy(msg + 1, buffer, size)], [buffer]
    being the [size] bytes. *)
Definition copy_in (buffer old : list Z) : list Z := buffer ++ drop (length buffer) old.
Definition mq_fill (mq : ptr) (msg : Z) (buffer : list Z) : K unit :=
  m ← get_mq mq; b ← get_msg m msg;
  put_mq mq (with_msg msg (MqMsg None (copy_in buffer (msg_data b))) m).
(** The same without the first assignment. *)
Definition mq_fill_urgent (mq : ptr) (msg : Z) (buffer : list Z) : K unit :=
  m ← get_mq mq; b ← get_msg m msg;
  put_mq mq (with_msg msg (MqMsg (msg_next b) (copy_in buffer (msg_data b))) m).

(** Counting the new message and waking a receiver: the result and
    [rt_schedule()]. *)
Definition mq_count_section (mq : ptr) : K (Z * bool) :=
  m ← get_mq mq;
  if mq_entry m <? RT_MQ_ENTRY_MAX then
    put_mq mq (set_mq_entry (u16 (mq_entry m + 1)) m);;
    need ← resume_one (QSuspend mq);
    mret (RT_EOK, need)
  else mret (- RT_EFULL, false).

(** The second critical section of a send: link the message at the tail. *)
Definition mq_link_section (mq : ptr) (msg : Z) : K (Z * bool) :=
  m ← get_mq mq;
  m ← (match mq_queue_tail m with
       | Some tail => b ← get_msg m tail; mret (with_msg tail (MqMsg (Some msg) (msg_data b)) m)
       | None => mret m
       end);
  let m := set_mq_queue_tail (Some msg) m in
  let m := match mq_queue_head m with None => set_mq_queue_head (Some msg) m | Some _ => m end in
  put_mq mq m;;
  mq_count_section mq.

(** [buffer] is the [size] bytes to send. *)
Definition rt_mq_send_wait (mq : ptr) (buffer : list Z) (timeout : Z) : proc Z :=
  let size := Z.of_nat (length buffer) in
  (m <~ atomic (assert_type mq RT_Object_Class_MessageQueue;; RT_ASSERT (negb (size =? 0));; get_mq mq);
   if mq_msg_size m <? size then Ret (- RT_ERROR)
   else
     thread <~ atomic rt_thread_self;
     r <~ ipc_loop (mq_alloc_section mq thread) timeout;
     match r with
     | inl e => Ret e
     | inr msg =>
         atomic (mq_fill mq msg buffer) ~;
         r <~ atomic (mq_link_section mq msg);
         if snd r then atomic rt_schedule ~; Ret (fst r) else Ret (fst r)
     end)%proc.

Definition rt_mq_send (mq : ptr) (buffer : list Z) : proc Z := rt_mq_send_wait mq buffer 0.

(** The critical sections of rt_mq_urgent. *)
Definition mq_urgent_alloc (mq : ptr) : K (option Z) :=
  m ← get_mq mq;
  match mq_queue_free m with
  | None => mret None
  | Some msg =>
      b ← get_msg m msg;
      put_mq mq (set_mq_queue_free (msg_next b) m);;
      mret (Some msg)
  end.
Definition mq_link_front (mq : ptr) (msg : Z) : K (Z * bool) :=
  m ← get_mq mq;
  b ← get_msg m msg;
  let m := set_mq_queue_head (Some msg) (with_msg msg (MqMsg (mq_queue_head m) (msg_data b)) m) in
  let m := match mq_queue_tail m with None => set_mq_queue_tail (Some msg) m | Some _ => m end in
  put_mq mq m;;
  mq_count_section mq.

Definition rt_mq_urgent (mq : ptr) (buffer : list Z) : proc Z :=
  let size := Z.of_nat (length buffer) in
  (m <~ atomic (assert_type mq RT_Object_Class_MessageQueue;; RT_ASSERT (negb (size =? 0));; get_mq mq);
   if mq_msg_size m <? size then Ret (- RT_ERROR)
   else
     msg <~ atomic (mq_urgent_alloc mq);
     match msg with
     | None => Ret (- RT_EFULL)
     | Some msg =>
         atomic (mq_fill_urgent mq msg buffer) ~;
         r <~ atomic (mq_link_front mq msg);
         if snd r then atomic rt_schedule ~; Ret (fst r) else Ret (fst r)
     end)%proc.

(** The first critical section of a receive: take the head off the queue, or
    wait for a message. *)
Definition mq_unlink_section (mq : ptr) (thread : option ptr) (timeout : Z) (since : option Z) : K (ipc_result Z) :=
  timeout ← timeout_left timeout since;
  m ← get_mq mq;
  if mq_entry m =? 0 then
    if (timeout =? 0) && bool_decide (since = None) then mret (ipc_fail (- RT_ETIMEOUT))
    else
      RT_DEBUG_IN_THREAD_CONTEXT;;
      thread ← lift thread;
      set_error thread RT_EOK;;
      if timeout =? 0 then set_error thread (- RT_ETIMEOUT);; mret (ipc_fail (- RT_ETIMEOUT))
      else
        tick_delta ← timed_suspend (QSuspend mq) mq thread timeout;
        mret (ipc_wait thread timeout tick_delta)
  else
    msg ← lift (mq_queue_head m);
    b ← get_msg m msg;
    let m := set_mq_queue_head (msg_next b) m in
    let m := if bool_decide (mq_queue_tail m = Some msg) then set_mq_queue_tail None m else m in
    put_mq mq (if 0 <? mq_entry m then set_mq_entry (u16 (mq_entry m - 1)) m else m);;
    mret (ipc_done msg).

(** [rt_memcpy(buffer, msg + 1, size > msg_size ? msg_size : size)]: the bytes *)
Definition mq_copy_out (mq : ptr) (msg size : Z) : K (list Z) :=
  m ← get_mq mq; b ← get_msg m msg;
  mret (take (Z.to_nat (if mq_msg_size m <? size then mq_msg_size m else size)) (msg_data b)).

(** The second critical section of a receive: give the block back. *)
Definition mq_free_section (mq : ptr) (msg : Z) : K bool :=
  m ← get_mq mq; b ← get_msg m msg;
  put_mq mq (set_mq_queue_free (Some msg) (with_msg msg (MqMsg (mq_queue_free m) (msg_data b)) m));;
  resume_one (QSender mq).

(** The result and the bytes stored in [buffer]. *)
Definition rt_mq_recv (mq : ptr) (size timeout : Z) : proc (Z * list Z) :=
  (thread <~ atomic (assert_type mq RT_Object_Class_MessageQueue;; RT_ASSERT (negb (size =? 0));; rt_thread_self);
   r <~ ipc_loop (mq_unlink_section mq thread) timeout;
   match r with
   | inl e => Ret (e, [])
   | inr msg =>
       bytes <~ atomic (mq_copy_out mq msg size);
       need <~ atomic (mq_free_section mq msg);
       if need : bool then atomic rt_schedule ~; Ret (RT_EOK, bytes) else Ret (RT_EOK, bytes)
   end)%proc.

(** The loop of the reset: every queued block goes to the free list. *)
Fixpoint reset_loop (fuel : nat) (m : rt_messagequeue) : K rt_messagequeue :=
  match fuel with
  | O => kfail OutOfFuel
  | S fuel =>
      match mq_queue_head m with
      | None => mret m
      | Some msg =>
          b ← get_msg m msg;
          let m := set_mq_queue_head (msg_next b) m in
          let m := if bool_decide (mq_queue_tail m = Some msg) then set_mq_queue_tail None m else m in
          reset_loop fuel (set_mq_queue_free (Some msg) (with_msg msg (MqMsg (mq_queue_free m) (msg_data b)) m))
      end
  end.
(** One unit of fuel per block and one for the end. *)
Definition mq_reset_section (mq : ptr) : K unit :=
  rt_ipc_list_resume_all (QSuspend mq);;
  rt_ipc_list_resume_all (QSender mq);;
  m ← get_mq mq;
  m ← reset_loop (S (size (mq_pool m))) m;
  put_mq mq (set_mq_entry 0 m).

Definition rt_mq_control (mq : ptr) (cmd : ipc_cmd) : proc Z :=
  match cmd with
  | RT_IPC_CMD_RESET =>
      (atomic (assert_type mq RT_Object_Class_MessageQueue;; mq_reset_section mq) ~;
       atomic rt_schedule ~; Ret RT_EOK)%proc
  | ipc_cmd_other _ => (atomic (assert_type mq RT_Object_Class_MessageQueue) ~; Ret (- RT_ERROR))%proc
  end.

(** ** The abstract queue

    Messages with their blocks: the queue, the free blocks, and the blocks in
    flight as the owner left them. *)
Record mqa := MQA {
  qa_queue : list (Z * list Z);
  qa_free : list (Z * list Z);
  qa_flight : gmap Z rt_mq_message
}.

Inductive mq_event :=
| EvTau
| EvAlloc (x : Z)
| EvFill (x : Z) (buffer : list Z)
| EvFillUrgent (x : Z) (buffer : list Z)
| EvLink (x : Z)
| EvLinkFront (x : Z)
| EvUnlink (x : Z)
| EvCopy (x : Z) (n : nat) (bytes : list Z)
| EvFree (x : Z)
| EvReset.

Definition refill (x : Z) (next : option Z -> option Z) (buffer : list Z) (a : mqa) : option mqa :=
  b ← qa_flight a !! x;
  Some (MQA (qa_queue a) (qa_free a)
    (<[x := MqMsg (next (msg_next b)) (copy_in buffer (msg_data b))]> (qa_flight a))).

(** A step of the abstract queue. *)
Definition mqa_do (ev : mq_event) (a : mqa) : option mqa :=
  match ev with
  | EvTau => Some a
  | EvAlloc x =>
      match qa_free a with
      | (y, d) :: f =>
          if decide (x = y) then
            Some (MQA (qa_queue a) f (<[x := MqMsg (fst <$> head f) d]> (qa_flight a)))
          else None
      | [] => None
      end
  | EvFill x buffer => refill x (fun _ => None) buffer a
  | EvFillUrgent x buffer => refill x (fun next => next) buffer a
  | EvLink x =>
      b ← qa_flight a !! x;
      if decide (msg_next b = None) then
        Some (MQA (qa_queue a ++ [(x, msg_data b)]) (qa_free a) (delete x (qa_flight a)))
      else None
  | EvLinkFront x =>
      b ← qa_flight a !! x;
      Some (MQA ((x, msg_data b) :: qa_queue a) (qa_free a) (delete x (qa_flight a)))
  | EvUnlink x =>
      match qa_queue a with
      | (y, d) :: q =>
          if decide (x = y) then
            Some (MQA q (qa_free a) (<[x := MqMsg (fst <$> head q) d]> (qa_flight a)))
          else None
      | [] => None
      end
  | EvCopy x n bytes =>
      b ← qa_flight a !! x; if decide (bytes = take n (msg_data b)) then Some a else None
  | EvFree x =>
      b ← qa_flight a !! x;
      Some (MQA (qa_queue a) ((x, msg_data b) :: qa_free a) (delete x (qa_flight a)))
  | EvReset => Some (MQA [] (rev (qa_queue a) ++ qa_free a) (qa_flight a))
  end.

Fixpoint mqa_run (tr : list mq_event) (a : mqa) : option mqa :=
  match tr with
  | [] => Some a
  | ev :: tr => a' ← mqa_do ev a; mqa_run tr a'
  end.

(** A list linked through the pool. *)
Fixpoint linked (pool : gmap Z rt_mq_message) (start : option Z) (l : list (Z * list Z)) : Prop :=
  match l with
  | [] => start = None
  | (x, d) :: l => start = Some x /\ exists next, pool !! x = Some (MqMsg next d) /\ linked pool next l
  end.

Record mq_rel (m : rt_messagequeue) (a : mqa) : Prop := {
  mr_queue : linked (mq_pool m) (mq_queue_head m) (qa_queue a);
  mr_tail : mq_queue_tail m = fst <$> last (qa_queue a);
  mr_free : linked (mq_pool m) (mq_queue_free m) (qa_free a);
  mr_flight x b : qa_flight a !! x = Some b -> mq_pool m !! x = Some b;
  mr_nodup : NoDup ((qa_queue a).*1 ++ (qa_free a).*1);
  mr_disjoint x : is_Some (qa_flight a !! x) -> x ∉ (qa_queue a).*1 ++ (qa_free a).*1;
  mr_entry : mq_entry m = Z.of_nat (length (qa_queue a));
  mr_count : Z.of_nat (length (qa_queue a) + length (qa_free a) + size (qa_flight a)) <= RT_MQ_ENTRY_MAX
}.

Lemma linked_insert pool st l x b : x ∉ l.*1 -> linked pool st l -> linked (<[x := b]> pool) st l.
Proof.
  revert st. induction l as [|[y d] l IH]; intros st Hx; [done|]. cbn in *.
  intros (-> & next & Hy & Hl). split; [done|]. exists next. rewrite lookup_insert_ne by set_solver.
  split; [done|]. apply IH; set_solver.
Qed.

Lemma linked_head pool st l : linked pool st l -> st = fst <$> head l.
Proof. destruct l as [|[y d] l]; [done|]. by intros (-> & _). Qed.

(** Linking [x] behind the last element [t]. *)
Lemma linked_snoc pool st l t dt x d : linked pool st (l ++ [(t, dt)]) -> t ∉ l.*1 -> x ∉ (l ++ [(t, dt)]).*1 ->
  pool !! x = Some (MqMsg None d) ->
  linked (<[t := MqMsg (Some x) dt]> pool) st ((l ++ [(t, dt)]) ++ [(x, d)]).
Proof.
  revert st. induction l as [|[y dy] l IH]; intros st Hc Ht Hx Hp; cbn in *.
  - destruct Hc as (-> & next & Hy & ->). split; [done|]. exists (Some x). rewrite lookup_insert_eq. split; [done|].
    split; [done|]. exists None. rewrite lookup_insert_ne by set_solver. done.
  - destruct Hc as (-> & next & Hy & Hl). split; [done|]. exists next. rewrite lookup_insert_ne by set_solver.
    apply not_elem_of_cons in Ht as [_ Ht]. apply not_elem_of_cons in Hx as [_ Hx]. split; [done|]. by apply IH.
Qed.

Definition mq_ok (o : ptr) (a : mqa) (s : kst) : Prop :=
  calm s /\ (exists ob, ipc_object s o RT_Object_Class_MessageQueue ob) /\
  exists m, k_mqs s !! o = Some m /\ mq_rel m a.

(** ** Each pool operation is a step of the abstract queue *)

Lemma not_in_flight m a x : mq_rel m a -> x ∈ (qa_queue a).*1 ++ (qa_free a).*1 -> qa_flight a !! x = None.
Proof.
  intros Hr Hx. destruct (qa_flight a !! x) as [b|] eqn:E; [|done]. exfalso. by apply (mr_disjoint _ _ Hr x).
Qed.

Lemma rel_alloc m q f x d fl : mq_rel m (MQA q ((x, d) :: f) fl) ->
  let nx := fst <$> head f in
  mq_queue_free m = Some x /\ mq_pool m !! x = Some (MqMsg nx d) /\
  mq_rel (set_mq_queue_free nx m) (MQA q f (<[x := MqMsg nx d]> fl)).
Proof.
  intros Hr nx. pose proof (not_in_flight _ _ x Hr ltac:(cbn; set_solver)) as Hn.
  destruct Hr as [H1 H2 (E & next & Hx & H3) H4 H5 H6 H7 H8]. cbn in *.
  pose proof (linked_head _ _ _ H3) as En. fold nx in En. subst next. split; [done|]. split; [done|].
  apply NoDup_app in H5 as (Hq & Hd & Hf). apply NoDup_cons in Hf as [Hxf Hf].
  split; cbn; try done.
  - intros y b. rewrite lookup_insert_Some. intros [[<- <-]|[_ Hy]]; [done|auto].
  - apply NoDup_app. split; [done|]. split; [set_solver|done].
  - intros y. destruct (decide (y = x)) as [->|Hne].
    + intros _. rewrite elem_of_app. intros [Hy|Hy]; [|done]. apply (Hd x Hy). by left.
    + rewrite lookup_insert_ne by done. intros Hy%H6. set_solver.
  - rewrite map_size_insert_None by done. lia.
Qed.

Lemma rel_refill m q f fl x b b' : mq_rel m (MQA q f fl) -> fl !! x = Some b ->
  mq_pool m !! x = Some b /\ mq_rel (with_msg x b' m) (MQA q f (<[x := b']> fl)).
Proof.
  intros [H1 H2 H3 H4 H5 H6 H7 H8] Hx. cbn in *. split; [by apply H4|].
  assert (x ∉ q.*1 ++ f.*1) as Hn by (apply H6; eauto). apply not_elem_of_app in Hn as [Hnq Hnf].
  split; cbn; try done.
  - by apply linked_insert.
  - by apply linked_insert.
  - intros y by_. rewrite lookup_insert_Some. intros [[<- <-]|[Hne Hy]]; [by rewrite lookup_insert_eq|].
    rewrite lookup_insert_ne by done. auto.
  - intros y. destruct (decide (y = x)) as [->|Hne]; [intros _; by apply H6|]. rewrite lookup_insert_ne by done. apply H6.
  - rewrite map_size_insert_Some by done. done.
Qed.

(** A block leaves the flight for the queue or the free list. *)
Lemma rel_landed m q f fl q' f' m' x b :
  mq_rel m (MQA q f fl) -> fl !! x = Some b ->
  linked (mq_pool m') (mq_queue_head m') q' -> mq_queue_tail m' = fst <$> last q' ->
  linked (mq_pool m') (mq_queue_free m') f' ->
  (forall y, y ∉ q.*1 ++ f.*1 -> y <> x -> mq_pool m' !! y = mq_pool m !! y) ->
  q'.*1 ++ f'.*1 ≡ₚ x :: q.*1 ++ f.*1 -> (length q' + length f' = S (length q + length f))%nat ->
  mq_entry m' = Z.of_nat (length q') ->
  mq_rel m' (MQA q' f' (delete x fl)).
Proof.
  intros [H1 H2 H3 H4 H5 H6 H7 H8] Hx C1 C2 C3 Hp Hperm Hlen He. cbn in *.
  assert (x ∉ q.*1 ++ f.*1) as Hn by (apply H6; eauto).
  split; cbn; try done.
  - intros y by_. rewrite lookup_delete_Some. intros [Hne Hy]. rewrite Hp; [by apply H4|apply H6; eauto|done].
  - rewrite Hperm. by constructor.
  - intros y [by_ Hy]. apply lookup_delete_Some in Hy as [Hne Hy]. rewrite Hperm. intros [->|Hin]%elem_of_cons; [done|].
    eapply H6; eauto.
  - rewrite map_size_delete_Some by eauto. assert (size fl <> 0%nat) by (intros E%map_size_empty_inv; by rewrite E in Hx). lia.
Qed.

(** The list part of [mq_link_section]. *)
Definition linked_tail (x : Z) (m : rt_messagequeue) : rt_messagequeue :=
  let m1 := match mq_queue_tail m with
            | Some t => match mq_pool m !! t with
                        | Some b => with_msg t (MqMsg (Some x) (msg_data b)) m | None => m end
            | None => m
            end in
  let m2 := set_mq_queue_tail (Some x) m1 in
  match mq_queue_head m2 with None => set_mq_queue_head (Some x) m2 | Some _ => m2 end.

Lemma rel_link m q f fl x d : mq_rel m (MQA q f fl) -> fl !! x = Some (MqMsg None d) ->
  mq_rel (set_mq_entry (mq_entry m + 1) (linked_tail x m)) (MQA (q ++ [(x, d)]) f (delete x fl)).
Proof.
  intros Hr Hx. pose proof Hr as [H1 H2 H3 H4 H5 H6 H7 H8]. cbn in *.
  assert (x ∉ q.*1 ++ f.*1) as Hn by (apply H6; eauto). apply not_elem_of_app in Hn as [Hnq Hnf].
  pose proof (H4 _ _ Hx) as Hxp. apply NoDup_app in H5 as (Hq & Hd & Hf).
  unfold linked_tail. destruct (decide (q = [])) as [->|Hne].
  - cbn in H1, H2. rewrite H2. cbn. rewrite H1. eapply rel_landed; [exact Hr|exact Hx|..]; cbn.
    + split; [done|]. by exists None.
    + done.
    + done.
    + done.
    + done.
    + done.
    + by rewrite H7.
  - destruct (exists_last Hne) as (q0 & [t dt] & ->). rewrite last_snoc in H2. cbn in H2. rewrite H2.
    assert (exists nt, mq_pool m !! t = Some (MqMsg nt dt)) as [nt Ht].
    { clear -H1. revert H1. generalize (mq_queue_head m). induction q0 as [|[y dy] q0 IH]; cbn.
      - intros st (-> & nt & ? & _). eauto.
      - intros st (-> & nt & _ & Hc). eauto. }
    rewrite Ht. cbn [msg_data]. rewrite fmap_app in Hq, Hd, Hnq. cbn in Hq, Hd, Hnq.
    apply NoDup_app in Hq as (_ & Hqt & _).
    assert (t ∉ q0.*1) as Htq by (intros Hin; apply (Hqt t Hin); by left).
    assert (t ∉ f.*1) as Htf by (apply Hd; set_solver).
    assert (exists h, mq_queue_head m = Some h) as [h Hh] by (destruct q0 as [|[y dy] q0]; destruct H1 as (-> & _); eauto).
    cbn. rewrite Hh. eapply rel_landed; [exact Hr|exact Hx|..]; cbn.
    + apply linked_snoc; [done|done|by rewrite fmap_app|done].
    + by rewrite last_snoc.
    + by apply linked_insert.
    + intros y Hy _. rewrite lookup_insert_ne; [done|]. intros <-. apply Hy. rewrite fmap_app. cbn. set_solver.
    + rewrite !fmap_app. cbn. solve_Permutation.
    + rewrite !length_app. cbn. lia.
    + rewrite !length_app in *. cbn in *. lia.
Qed.

Definition linked_front (x : Z) (d : list Z) (m : rt_messagequeue) : rt_messagequeue :=
  let m1 := set_mq_queue_head (Some x) (with_msg x (MqMsg (mq_queue_head m) d) m) in
  match mq_queue_tail m1 with None => set_mq_queue_tail (Some x) m1 | Some _ => m1 end.

Lemma rel_link_front m q f fl x b : mq_rel m (MQA q f fl) -> fl !! x = Some b ->
  mq_rel (set_mq_entry (mq_entry m + 1) (linked_front x (msg_data b) m)) (MQA ((x, msg_data b) :: q) f (delete x fl)).
Proof.
  intros Hr Hx. pose proof Hr as [H1 H2 H3 H4 H5 H6 H7 H8]. cbn in *.
  assert (x ∉ q.*1 ++ f.*1) as Hn by (apply H6; eauto). apply not_elem_of_app in Hn as [Hnq Hnf].
  unfold linked_front. cbn. eapply rel_landed; [exact Hr|exact Hx|..].
  - destruct (mq_queue_tail m); cbn; (split; [done|]); exists (mq_queue_head m); rewrite lookup_insert_eq;
      (split; [done|]); by apply linked_insert.
  - destruct q as [|y q]; [by rewrite H2|].
    destruct (last (y :: q)) as [z|] eqn:E; [|by apply last_None in E].
    cbn in H2. rewrite H2, last_cons, E. exact H2.
  - destruct (mq_queue_tail m); cbn; by apply linked_insert.
  - intros y _ Hne. destruct (mq_queue_tail m); cbn; by rewrite lookup_insert_ne.
  - done.
  - cbn. lia.
  - destruct (mq_queue_tail m); cbn; lia.
Qed.

Lemma rel_free m q f fl x b : mq_rel m (MQA q f fl) -> fl !! x = Some b ->
  mq_rel (set_mq_queue_free (Some x) (with_msg x (MqMsg (mq_queue_free m) (msg_data b)) m))
    (MQA q ((x, msg_data b) :: f) (delete x fl)).
Proof.
  intros Hr Hx. pose proof Hr as [H1 H2 H3 H4 H5 H6 H7 H8]. cbn in *.
  assert (x ∉ q.*1 ++ f.*1) as Hn by (apply H6; eauto). apply not_elem_of_app in Hn as [Hnq Hnf].
  eapply rel_landed; [exact Hr|exact Hx|..]; cbn.
  - by apply linked_insert.
  - done.
  - split; [done|]. exists (mq_queue_free m). rewrite lookup_insert_eq. split; [done|]. by apply linked_insert.
  - intros y _ Hne. by rewrite lookup_insert_ne.
  - symmetry. apply Permutation_middle.
  - lia.
  - done.
Qed.

Lemma rel_unlink m q f fl x d : mq_rel m (MQA ((x, d) :: q) f fl) ->
  let nx := fst <$> head q in
  let m1 := set_mq_queue_head nx m in
  let m2 := if bool_decide (mq_queue_tail m1 = Some x) then set_mq_queue_tail None m1 else m1 in
  mq_queue_head m = Some x /\ mq_pool m !! x = Some (MqMsg nx d) /\
  mq_rel (set_mq_entry (mq_entry m - 1) m2) (MQA q f (<[x := MqMsg nx d]> fl)).
Proof.
  intros Hr nx m1 m2. pose proof (not_in_flight _ _ x Hr ltac:(cbn; set_solver)) as Hn.
  destruct Hr as [(E & next & Hx & H1) H2 H3 H4 H5 H6 H7 H8]. cbn in *.
  pose proof (linked_head _ _ _ H1) as En. fold nx in En. subst next. split; [done|]. split; [done|].
  apply NoDup_cons in H5 as [Hxn Hnd]. apply not_elem_of_app in Hxn as [Hxq Hxf].
  assert (mq_pool m2 = mq_pool m /\ mq_queue_free m2 = mq_queue_free m /\ mq_queue_head m2 = nx) as (Ep & Ef & Eh)
    by (unfold m2, m1; by case_bool_decide).
  split; cbn; try done.
  - by rewrite Ep, Eh.
  - destruct q as [|[y dy] q].
    + cbn in H2. unfold m2, m1. cbn. by rewrite bool_decide_eq_true_2.
    + destruct (last_is_Some ((y, dy) :: q)) as [_ Hl]. destruct Hl as [z Ez]; [done|].
      rewrite last_cons, Ez in H2. cbn in H2. rewrite Ez. unfold m2, m1. cbn.
      rewrite bool_decide_eq_false_2; [done|]. rewrite H2. intros [= E'].
      apply Hxq, list_elem_of_fmap. exists z. split; [done|]. by apply last_Some_elem_of.
  - by rewrite Ep, Ef.
  - intros y b. rewrite Ep, lookup_insert_Some. intros [[<- <-]|[_ Hy]]; [done|auto].
  - intros y. destruct (decide (y = x)) as [->|Hne].
    + intros _. by apply not_elem_of_app.
    + rewrite lookup_insert_ne by done. intros Hy%H6. set_solver.
  - lia.
  - rewrite map_size_insert_None by done. lia.
Qed.

Lemma get_msg_run m x b s : mq_pool m !! x = Some b -> get_msg m x s = Ok b s.
Proof. unfold get_msg. by intros ->. Qed.

Lemma reset_loop_ok q f fl m fuel s :
  mq_rel (set_mq_entry (Z.of_nat (length q)) m) (MQA q f fl) -> (length q < fuel)%nat ->
  exists m', reset_loop fuel m s = Ok m' s /\ mq_rel (set_mq_entry 0 m') (MQA [] (rev q ++ f) fl).
Proof.
  revert f m fuel. induction q as [|[x d] q IH]; intros f m fuel Hr Hf; (destruct fuel as [|fuel]; [cbn in Hf; lia|]).
  - exists m. split; [|done]. cbn. pose proof (mr_queue _ _ Hr) as Hh. cbn in Hh. by rewrite Hh.
  - destruct (rel_unlink _ _ _ _ _ _ Hr) as (Hh & Hx & Hr2). cbn in Hh, Hx. cbn [reset_loop]. rewrite Hh.
    erewrite run_bind by (by apply get_msg_run). cbn [msg_next msg_data].
    pose proof (not_in_flight _ _ x Hr ltac:(cbn; set_solver)) as Hn. cbn in Hn.
    pose proof (rel_free _ _ _ _ x _ Hr2 (lookup_insert_eq _ _ _)) as Hr3.
    rewrite delete_insert_id in Hr3 by done. cbn [msg_data] in Hr3.
    set (m2 := if bool_decide (mq_queue_tail (set_mq_queue_head (fst <$> head q) m) = Some x)
               then set_mq_queue_tail None (set_mq_queue_head (fst <$> head q) m)
               else set_mq_queue_head (fst <$> head q) m) in *.
    destruct (IH ((x, d) :: f) (set_mq_queue_free (Some x) (with_msg x (MqMsg (mq_queue_free m2) d) m2)) fuel) as (m' & Hrun & Hr');
      [| cbn in Hf; lia|].
    + match type of Hr3 with mq_rel ?a _ => match goal with |- mq_rel ?b _ => replace b with a; [exact Hr3|] end end.
      assert (Z.of_nat (length ((x, d) :: q)) - 1 = Z.of_nat (length q)) as <- by (cbn; lia).
      unfold m2. cbn [mq_queue_tail set_mq_queue_head set_mq_entry]. by destruct (bool_decide _).
    + exists m'. split; [done|]. cbn [rev]. by rewrite <- app_assoc.
Qed.

Lemma rel_fuel m q f fl : mq_rel m (MQA q f fl) -> (length q < S (size (mq_pool m)))%nat.
Proof.
  intros [H1 _ _ _ H5 _ _ _]. cbn in *. apply NoDup_app in H5 as (Hq & _ & _).
  assert (Hin : forall x, x ∈ q.*1 -> x ∈ dom (mq_pool m)).
  { clear Hq. revert H1. generalize (mq_queue_head m). induction q as [|[y d] q IH]; cbn; intros st Hc x Hx.
    - by apply not_elem_of_nil in Hx.
    - destruct Hc as (_ & nx & Hy & Hc). apply elem_of_cons in Hx as [->|Hx]; [by apply elem_of_dom_2 in Hy|by eapply IH]. }
  assert (size (list_to_set (q.*1) : gset Z) <= size (dom (mq_pool m)))%nat as Hle.
  { apply subseteq_size. intros x Hx. apply Hin. by apply elem_of_list_to_set in Hx. }
  rewrite size_list_to_set, size_dom, length_fmap in Hle by done. lia.
Qed.

(** ** The sections *)

Lemma get_mq_run s o m : k_mqs s !! o = Some m -> get_mq o s = Ok m s.
Proof. unfold get_mq. by intros ->. Qed.

(** The parts of [mq_ok] that do not depend on the contents. *)
Definition mq_live (o : ptr) (s : kst) : Prop :=
  calm s /\ exists ob, ipc_object s o RT_Object_Class_MessageQueue ob.

Lemma mq_live_step o s s' : mq_live o s -> calm s' -> objs_step (k_objs s) (k_objs s') -> mq_live o s'.
Proof. intros [_ [ob Ho]] Hc Hobj. split; [done|]. exists ob. by eapply ipc_object_step. Qed.

Lemma mq_live_put o s m : mq_live o s -> mq_live o (set_k_mqs (<[o := m]> (k_mqs s)) s).
Proof.
  intros [[H1 H2 H3] Ho]. split; [|done]. split; [|done|done]. unfold kinv. apply (kinv_ext _ s); try done. apply H1.
Qed.

Lemma mq_ok_intro o a s m : mq_live o s -> k_mqs s !! o = Some m -> mq_rel m a -> mq_ok o a s.
Proof. intros [Hc Ho] Hm Hr. split; [done|]. split; [done|]. by exists m. Qed.

Lemma mq_ok_put o a s m : mq_live o s -> mq_rel m a -> mq_ok o a (set_k_mqs (<[o := m]> (k_mqs s)) s).
Proof. intros Hl Hr. eapply mq_ok_intro; [by apply mq_live_put|apply lookup_insert_eq|done]. Qed.

Lemma mq_ok_step o a s s' : mq_ok o a s -> calm s' -> objs_step (k_objs s) (k_objs s') -> k_mqs s' = k_mqs s ->
  mq_ok o a s'.
Proof.
  intros (Hc & Ho & m & Hm & Hr) Hc' Hobj E.
  apply (mq_ok_intro _ _ _ m); [apply (mq_live_step o s s'); [by split|done|done]|by rewrite E|done].
Qed.

(** What a section of the thread [t] leaves alone. *)
Record mq_frame (o : ptr) (go : bool) (t : ptr) (s s' : kst) : Prop := {
  mf_gentle : gentle go t s s';
  mf_size : mq_msg_size <$> k_mqs s' !! o = mq_msg_size <$> k_mqs s !! o
}.

Lemma mq_frame_refl o go t s : mq_frame o go t s s.
Proof. split; [apply gentle_refl|done]. Qed.
Lemma mq_frame_trans o go t s s1 s2 : mq_frame o go t s s1 -> mq_frame o go t s1 s2 -> mq_frame o go t s s2.
Proof. intros [G1 E1] [G2 E2]. split; [by eapply gentle_trans|by rewrite E2]. Qed.

Lemma mq_frame_put o go t s m m' : k_mqs s !! o = Some m -> mq_msg_size m' = mq_msg_size m ->
  mq_frame o go t s (set_k_mqs (<[o := m']> (k_mqs s)) s).
Proof.
  intros Hm Hs. split; [split; try done; eauto|]. cbn. by rewrite lookup_insert_eq, Hm; cbn; rewrite Hs.
Qed.

Lemma mq_frame_step o go t s s' : gentle go t s s' -> k_mqs s' = k_mqs s -> mq_frame o go t s s'.
Proof. intros Hg E. split; [done|by rewrite E]. Qed.

(** The first thread that waited in [qq] does not any more. *)
Definition woken_first (qq : qid) (s s' : kst) : Prop := forall x, x ∈ getq (k_qs s') qq -> x ∈ tail (getq (k_qs s) qq).

Lemma mq_resume_one o a s qq : mq_ok o a s -> is_wait_q qq = true ->
  exists b s', resume_one qq s = Ok b s' /\ mq_ok o a s' /\ (forall t, mq_frame o true t s s') /\ woken_first qq s s'.
Proof.
  intros Hok Hq. destruct (resume_one_ok s qq (proj1 Hok) Hq) as (b & s' & Hrun & Hc & Hks & Hg).
  exists b, s'. split; [done|]. split; [|split; [intros t; apply mq_frame_step; [done|apply (ks_mqs Hks)]|intros x; apply (resume_one_first s qq b); [apply Hok|done..]]].
  eapply mq_ok_step; [done|done|apply Hks|apply (ks_mqs Hks)].
Qed.

Lemma mq_count_ok o a s m : mq_live o s -> k_mqs s !! o = Some m -> 0 <= mq_entry m < RT_MQ_ENTRY_MAX ->
  mq_rel (set_mq_entry (mq_entry m + 1) m) a ->
  exists need s', mq_count_section o s = Ok (RT_EOK, need) s' /\ mq_ok o a s' /\ (forall t, mq_frame o true t s s') /\
    woken_first (QSuspend o) s s'.
Proof.
  intros Hl Hm He Hr. unfold mq_count_section. erewrite run_bind by (by apply get_mq_run).
  destruct (Z.ltb_spec (mq_entry m) RT_MQ_ENTRY_MAX); [|lia]. erewrite run_bind by done.
  unfold RT_MQ_ENTRY_MAX, RT_UINT16_MAX in *. rewrite wrap_small by (change (2 ^ 16) with 65536; lia).
  pose proof (mq_ok_put o a s _ Hl Hr) as Hok. destruct (mq_resume_one o a _ (QSuspend o) Hok eq_refl) as (b & s' & Hrun & Hok' & Hf & Hw).
  exists b, s'. rewrite (run_bind _ _ _ _ _ Hrun). split; [done|]. split; [done|]. split; [|exact Hw].
  intros t. eapply mq_frame_trans; [|exact (Hf t)]. by apply (mq_frame_put _ _ _ _ m).
Qed.

Lemma flight_room m a x b : mq_rel m a -> qa_flight a !! x = Some b -> 0 <= mq_entry m < RT_MQ_ENTRY_MAX.
Proof.
  intros [_ _ _ _ _ _ H7 H8] Hx. assert (size (qa_flight a) <> 0%nat) by (intros E%map_size_empty_inv; by rewrite E in Hx). lia.
Qed.

Section sections.
Context (o : ptr) (a : mqa) (s : kst) (Hok : mq_ok o a s).

Lemma mq_fill_ok x buffer b : qa_flight a !! x = Some b ->
  exists a', mqa_do (EvFill x buffer) a = Some a' /\ wp (mq_fill o x buffer) (fun _ s' => mq_ok o a' s' /\ (forall t, mq_frame o true t s s')) s.
Proof.
  destruct a as [q f fl]. destruct Hok as (Hc & Ho & m & Hm & Hr). intros Hx. cbn in Hx.
  destruct (rel_refill m q f fl x b (MqMsg None (copy_in buffer (msg_data b))) Hr Hx) as [Hp Hr'].
  eexists. split; [cbn; unfold refill; cbn; by rewrite Hx|].
  eapply wp_run; [|split; [apply (mq_ok_put o _ s); [by split|exact Hr']|intros t; by apply (mq_frame_put _ _ _ _ m)]].
  unfold mq_fill. erewrite run_bind by (by apply get_mq_run). by erewrite run_bind by (by apply get_msg_run).
Qed.

Lemma mq_fill_urgent_ok x buffer b : qa_flight a !! x = Some b ->
  exists a', mqa_do (EvFillUrgent x buffer) a = Some a' /\ wp (mq_fill_urgent o x buffer) (fun _ s' => mq_ok o a' s' /\ (forall t, mq_frame o true t s s')) s.
Proof.
  destruct a as [q f fl]. destruct Hok as (Hc & Ho & m & Hm & Hr). intros Hx. cbn in Hx.
  destruct (rel_refill m q f fl x b (MqMsg (msg_next b) (copy_in buffer (msg_data b))) Hr Hx) as [Hp Hr'].
  eexists. split; [cbn; unfold refill; cbn; by rewrite Hx|].
  eapply wp_run; [|split; [apply (mq_ok_put o _ s); [by split|exact Hr']|intros t; by apply (mq_frame_put _ _ _ _ m)]].
  unfold mq_fill_urgent. erewrite run_bind by (by apply get_mq_run). by erewrite run_bind by (by apply get_msg_run).
Qed.

Lemma mq_link_ok x d : qa_flight a !! x = Some (MqMsg None d) ->
  exists a', mqa_do (EvLink x) a = Some a' /\ wp (mq_link_section o x) (fun r s' => fst r = RT_EOK /\ mq_ok o a' s' /\ (forall t, mq_frame o true t s s') /\
    woken_first (QSuspend o) s s') s.
Proof.
  destruct a as [q f fl]. destruct Hok as (Hc & Ho & m & Hm & Hr). intros Hx. cbn in Hx.
  eexists. split; [cbn; by rewrite Hx|].
  pose proof (rel_link m q f fl x d Hr Hx) as Hr'. pose proof (flight_room _ _ _ _ Hr Hx) as Hroom.
  set (s1 := set_k_mqs (<[o := linked_tail x m]> (k_mqs s)) s).
  assert (mq_entry (linked_tail x m) = mq_entry m) as Ee.
  { unfold linked_tail. destruct (mq_queue_tail m); [destruct (mq_pool m !! _)|]; cbn; by case_match. }
  destruct (mq_count_ok o (MQA (q ++ [(x, d)]) f (delete x fl)) s1 (linked_tail x m)) as (need & s' & Hrun & Hok' & Hf & Hw).
  { by apply mq_live_put. }
  { apply lookup_insert_eq. }
  { by rewrite Ee. }
  { by rewrite Ee. }
  apply (wp_run _ _ _ (RT_EOK, need) s').
  2:{ split; [done|]. split; [done|]. split; [|exact Hw]. intros t. eapply mq_frame_trans; [|exact (Hf t)]. apply (mq_frame_put _ _ _ _ m); [done|].
      unfold linked_tail. destruct (mq_queue_tail m); [destruct (mq_pool m !! _)|]; cbn; by case_match. }
  unfold mq_link_section. erewrite run_bind by (by apply get_mq_run).
  erewrite (run_bind _ _ s).
  2:{ instantiate (1 := s). instantiate (1 := match mq_queue_tail m with
            | Some t => match mq_pool m !! t with
                        | Some b => with_msg t (MqMsg (Some x) (msg_data b)) m | None => m end
            | None => m end).
      destruct (mq_queue_tail m) as [t|] eqn:Et; [|done].
      assert (is_Some (mq_pool m !! t)) as [b Hb].
      { destruct Hr as [H1 H2 _ _ _ _ _ _]. cbn in H1, H2. rewrite H2 in Et.
        destruct q as [|y q] using rev_ind; [done|]. rewrite last_snoc in Et. cbn in Et. injection Et as <-.
        clear -H1. revert H1. generalize (mq_queue_head m). induction q as [|[z dz] q IH]; cbn.
        - destruct y. intros st (-> & nt & ? & _). eauto.
        - intros st (-> & nt & _ & Hcc). eauto. }
      rewrite Hb. by erewrite run_bind by (by apply get_msg_run). }
  fold (linked_tail x m). erewrite run_bind by done. exact Hrun.
Qed.
Lemma mq_link_front_ok x b : qa_flight a !! x = Some b ->
  exists a', mqa_do (EvLinkFront x) a = Some a' /\ wp (mq_link_front o x) (fun r s' => fst r = RT_EOK /\ mq_ok o a' s' /\ (forall t, mq_frame o true t s s')) s.
Proof.
  destruct a as [q f fl]. destruct Hok as (Hc & Ho & m & Hm & Hr). intros Hx. cbn in Hx.
  eexists. split; [cbn; by rewrite Hx|].
  pose proof (rel_link_front m q f fl x b Hr Hx) as Hr'. pose proof (flight_room _ _ _ _ Hr Hx) as Hroom.
  set (s1 := set_k_mqs (<[o := linked_front x (msg_data b) m]> (k_mqs s)) s).
  assert (mq_entry (linked_front x (msg_data b) m) = mq_entry m) as Ee by (unfold linked_front; cbn; by case_match).
  destruct (mq_count_ok o (MQA ((x, msg_data b) :: q) f (delete x fl)) s1 (linked_front x (msg_data b) m)) as (need & s' & Hrun & Hok' & Hf & Hw).
  { by apply mq_live_put. }
  { apply lookup_insert_eq. }
  { by rewrite Ee. }
  { by rewrite Ee. }
  apply (wp_run _ _ _ (RT_EOK, need) s').
  2:{ split; [done|]. split; [done|]. intros t. eapply mq_frame_trans; [|exact (Hf t)]. apply (mq_frame_put _ _ _ _ m); [done|].
      unfold linked_front. cbn. by case_match. }
  unfold mq_link_front. erewrite run_bind by (by apply get_mq_run).
  erewrite run_bind by (apply get_msg_run; by apply (mr_flight _ _ Hr)).
  fold (linked_front x (msg_data b) m). erewrite run_bind by done. exact Hrun.
Qed.

Lemma mq_free_ok x b : qa_flight a !! x = Some b ->
  exists a', mqa_do (EvFree x) a = Some a' /\ wp (mq_free_section o x) (fun _ s' => mq_ok o a' s' /\ (forall t, mq_frame o true t s s')) s.
Proof.
  destruct a as [q f fl]. destruct Hok as (Hc & Ho & m & Hm & Hr). intros Hx. cbn in Hx.
  eexists. split; [cbn; by rewrite Hx|]. pose proof (rel_free m q f fl x b Hr Hx) as Hr'.
  pose proof (mq_ok_put o _ s _ (conj Hc Ho) Hr') as Hok1.
  destruct (mq_resume_one o _ _ (QSender o) Hok1 eq_refl) as (need & s' & Hrun & Hok' & Hf & _).
  apply (wp_run _ _ _ need s').
  2:{ split; [done|]. intros t. eapply mq_frame_trans; [|exact (Hf t)]. by apply (mq_frame_put _ _ _ _ m). }
  unfold mq_free_section. erewrite run_bind by (by apply get_mq_run).
  erewrite run_bind by (apply get_msg_run; by apply (mr_flight _ _ Hr)). by erewrite run_bind by done.
Qed.

Lemma mq_copy_ok x size b m : qa_flight a !! x = Some b -> k_mqs s !! o = Some m ->
  mq_copy_out o x size s = Ok (take (Z.to_nat (if mq_msg_size m <? size then mq_msg_size m else size)) (msg_data b)) s.
Proof.
  destruct Hok as (Hc & Ho & m' & Hm & Hr). intros Hx Hm'. assert (m' = m) as -> by congruence.
  unfold mq_copy_out. erewrite run_bind by (by apply get_mq_run).
  by erewrite run_bind by (apply get_msg_run; by apply (mr_flight _ _ Hr)).
Qed.

(** The parts of the loops that wait, in both orders of the code. *)
Lemma mq_timed_wait qq t th left : k_cur s = Some t -> k_threads s !! t = Some th ->
  state_of th = RT_THREAD_RUNNING -> is_wait_q qq = true -> left < HALF_TICK ->
  exists td s', timed_suspend qq o t left (with_error t th RT_EOK s) = Ok td s' /\ mq_ok o a s' /\
    mq_frame o false t s s' /\ th_error <$> k_threads s' !! t = Some RT_EOK /\
    (left <= 0 -> k_tlist s' = k_tlist s).
Proof.
  intros Hc Ht Hr Hq Htime. pose proof Hok as (Hcm & [ob Ho] & _).
  destruct (timed_suspend_ok s qq o RT_Object_Class_MessageQueue ob t th left) as (td & s1 & Hrun & Hw & _);
    [done|done|by right|done..|].
  exists td, s1. split; [done|]. pose proof (wt_step _ _ _ _ _ _ _ Hw) as Hks.
  split; [|split; [apply mq_frame_step; [by eapply gentle_waits|apply (ks_mqs Hks)]|split; [|apply Hw]]].
  2:{ rewrite (jn_threads _ _ _ _ _ _ (wt_joined _ _ _ _ _ _ _ Hw)). by rewrite lookup_insert_eq. }
  apply (mq_ok_step o a s); [done|by eapply calm_wait|apply Hks|apply (ks_mqs Hks)].
Qed.

Lemma mq_error_ok t th e : k_threads s !! t = Some th -> mq_ok o a (with_error t th e s).
Proof.
  intros Ht. apply (mq_ok_step o a s); [done|apply calm_error; [apply Hok|done]|apply objs_step_refl|done].
Qed.

Lemma mq_take_free m x : k_mqs s !! o = Some m -> mq_queue_free m = Some x ->
  exists a' b, mqa_do (EvAlloc x) a = Some a' /\ mq_pool m !! x = Some b /\
    mq_ok o a' (set_k_mqs (<[o := set_mq_queue_free (msg_next b) m]> (k_mqs s)) s).
Proof.
  destruct a as [q f fl]. destruct Hok as (Hc & Ho & m' & Hm' & Hr). intros Hm Hx. assert (m' = m) as -> by congruence.
  pose proof (mr_free _ _ Hr) as Hf. destruct f as [|[y d] f]; cbn in Hf; [congruence|].
  destruct Hf as (E & _). assert (y = x) as -> by congruence.
  destruct (rel_alloc m q f x d fl Hr) as (_ & Hp & Hr'). eexists _, _. split; [cbn; by rewrite decide_True|].
  split; [exact Hp|]. apply (mq_ok_put o _ s); [by split|exact Hr'].
Qed.

Lemma mq_reset_ok : exists a', mqa_do EvReset a = Some a' /\ wp (mq_reset_section o) (fun _ s' => mq_ok o a' s') s.
Proof.
  destruct a as [q f fl]. eexists. split; [done|].
  destruct (rt_ipc_list_resume_all_ok _ (QSuspend o) s (cm_kinv _ (proj1 Hok)) eq_refl) as (s1 & Hrun1 & Hk1 & Hks1 & Hc1 & _).
  destruct (rt_ipc_list_resume_all_ok _ (QSender o) s1 Hk1 eq_refl) as (s2 & Hrun2 & Hk2 & Hks2 & Hc2 & _).
  pose proof (kstep_trans _ _ _ Hks1 Hks2) as Hks.
  assert (mq_ok o (MQA q f fl) s2) as Hok2.
  { apply (mq_ok_step o _ s); [done| |apply Hks|apply (ks_mqs Hks)].
    apply (calm_kstep s); [apply Hok| |done|by rewrite Hc2]. unfold kinv. by rewrite (ks_tick Hks). }
  destruct Hok2 as (Hc & Ho & m & Hm & Hr). pose proof (rel_fuel _ _ _ _ Hr) as Hfuel.
  destruct (reset_loop_ok q f fl m (S (size (mq_pool m))) s2) as (m' & Hrun & Hr'); [|done|].
  { pose proof (mr_entry _ _ Hr) as He. cbn in He. rewrite <- He. by destruct m. }
  eapply wp_run; [|apply (mq_ok_put o _ s2); [by split|exact Hr']].
  unfold mq_reset_section. rewrite (run_bind _ _ _ _ _ Hrun1), (run_bind _ _ _ _ _ Hrun2).
  erewrite run_bind by (by apply get_mq_run). by rewrite (run_bind _ _ _ _ _ Hrun).
Qed.
End sections.

(** How the first section of a send or a receive ends: with a block, with a
    failure because no time was [left], or with the caller waiting. *)
Record taken (o : ptr) (a : mqa) (ev : Z -> mq_event) (thread : option ptr) (left : Z) (s : kst)
    (r : ipc_result Z) (s' : kst) : Prop := {
  ta_step : exists a', mqa_do (match r with ipc_done x => ev x | _ => EvTau end) a = Some a' /\ mq_ok o a' s';
  ta_frame t : (forall t', thread = Some t' -> t' = t) ->
    mq_frame o (match r with ipc_wait _ _ _ => false | _ => true end) t s s';
  ta_dry : match r with ipc_done _ => True | _ => forall x, mqa_do (ev x) a = None end;
  ta_end : match r with
           | ipc_done _ => True
           | ipc_fail _ => left = 0
           | ipc_wait t timeout td => thread = Some t /\ timeout = left /\ left <> 0 /\
               th_error <$> k_threads s' !! t = Some RT_EOK /\ (left <= 0 -> k_tlist s' = k_tlist s)
           end
}.

Lemma taken_refl o a ev thread s e : mq_ok o a s -> (forall x, mqa_do (ev x) a = None) -> taken o a ev thread 0 s (ipc_fail e) s.
Proof. intros Hok Hd. split; [by exists a|intros t _; apply mq_frame_refl|done|done]. Qed.

Lemma taken_error o a ev s t th e e' : mq_ok o a s -> k_threads s !! t = Some th ->
  (forall x, mqa_do (ev x) a = None) -> taken o a ev (Some t) 0 s (ipc_fail e') (with_error t th e s).
Proof.
  intros Hok Ht Hd. split; [exists a; split; [done|by apply mq_error_ok]| |done|done].
  intros t' Ht'. rewrite <- (Ht' t eq_refl). apply mq_frame_step; [by apply gentle_error|done].
Qed.

Lemma taken_wait o a ev s t th left qq : mq_ok o a s -> k_cur s = Some t -> k_threads s !! t = Some th ->
  state_of th = RT_THREAD_RUNNING -> is_wait_q qq = true -> left < HALF_TICK -> left <> 0 ->
  (forall x, mqa_do (ev x) a = None) ->
  exists td s', timed_suspend qq o t left (with_error t th RT_EOK s) = Ok td s' /\
    taken o a ev (Some t) left s (ipc_wait t left td) s'.
Proof.
  intros Hok Hc Ht Hst Hq Hlt Hnz Hd.
  destruct (mq_timed_wait o a s Hok qq t th left) as (td & s1 & Hrun1 & Hok1 & Hf & He & Hl); [done..|].
  exists td, s1. split; [done|]. split; [by exists a| |done|done]. intros t' Ht'. by rewrite <- (Ht' t eq_refl).
Qed.

Lemma taken_done o a a' ev thread left s x m m' : mqa_do (ev x) a = Some a' ->
  mq_ok o a' (set_k_mqs (<[o := m']> (k_mqs s)) s) -> k_mqs s !! o = Some m -> mq_msg_size m' = mq_msg_size m ->
  taken o a ev thread left s (ipc_done x) (set_k_mqs (<[o := m']> (k_mqs s)) s).
Proof. intros Ha Hok Hm Hs. split; [by exists a'| |done|done]. intros t _. by apply (mq_frame_put _ _ _ _ m). Qed.

Lemma mq_alloc_run o a s thread timeout since : mq_ok o a s -> caller s thread timeout since ->
  exists left r s', timeout_left timeout since s = Ok left s /\
    mq_alloc_section o thread timeout since s = Ok r s' /\ taken o a EvAlloc thread left s r s'.
Proof.
  intros Hok Hcl. pose proof Hok as (Hcm & _ & m & Hm & Hr).
  destruct (timeout_left_run _ _ _ _ Hcl) as (left & Hleft & Hlt). exists left.
  unfold mq_alloc_section. rewrite (run_bind _ _ _ _ _ Hleft).
  erewrite run_bind by (by apply get_mq_run). destruct (mq_queue_free m) as [x|] eqn:Ef.
  - destruct (mq_take_free o a s Hok m x Hm Ef) as (a' & b & Ha & Hb & Hok').
    erewrite run_bind by (by apply get_msg_run). eexists _, _. split; [done|]. split; [done|]. by eapply taken_done.
  - assert (forall x, mqa_do (EvAlloc x) a = None) as Hd.
    { destruct a as [q [|[y d] f] fl]; [done|]. pose proof (linked_head _ _ _ (mr_free _ _ Hr)). cbn in *. congruence. }
    destruct ((left =? 0) && bool_decide (since = None)) eqn:Eb.
    { apply andb_true_iff in Eb as [->%Z.eqb_eq _]. eexists _, _. split; [done|]. split; [done|by apply taken_refl]. }
    destruct (caller_running _ _ _ _ _ Hcl Hleft Eb) as (t & th & -> & Hc & Ht & Hst).
    erewrite run_bind by done. erewrite run_bind by (by apply set_error_run).
    destruct (Z.eqb_spec left 0) as [->|Hnz]; [eexists _, _; split; [done|]; split; [done|by apply taken_error]|].
    erewrite run_bind by (apply (in_thread_context_run _ t); [done|apply Hcm]).
    destruct (taken_wait o a EvAlloc s t th left (QSender o)) as (td & s1 & Hrun1 & Hta); [done..|].
    rewrite (run_bind _ _ _ _ _ Hrun1). eexists _, _. split; [done|]. by split.
Qed.

Lemma mq_unlink_run o a s thread timeout since : mq_ok o a s -> caller s thread timeout since ->
  exists left r s', timeout_left timeout since s = Ok left s /\
    mq_unlink_section o thread timeout since s = Ok r s' /\ taken o a EvUnlink thread left s r s'.
Proof.
  intros Hok Hcl. pose proof Hok as (Hcm & Ho & m & Hm & Hr).
  destruct (timeout_left_run _ _ _ _ Hcl) as (left & Hleft & Hlt). exists left.
  unfold mq_unlink_section. rewrite (run_bind _ _ _ _ _ Hleft).
  erewrite run_bind by (by apply get_mq_run). destruct (Z.eqb_spec (mq_entry m) 0) as [He|He].
  - assert (forall x, mqa_do (EvUnlink x) a = None) as Hd.
    { pose proof (mr_entry _ _ Hr). by destruct a as [[|[y d] q] f fl]; [|cbn in *; lia]. }
    destruct ((left =? 0) && bool_decide (since = None)) eqn:Eb.
    { apply andb_true_iff in Eb as [->%Z.eqb_eq _]. eexists _, _. split; [done|]. split; [done|by apply taken_refl]. }
    destruct (caller_running _ _ _ _ _ Hcl Hleft Eb) as (t & th & -> & Hc & Ht & Hst).
    erewrite run_bind by (apply (in_thread_context_run _ t); [done|apply Hcm]).
    erewrite run_bind by done. erewrite run_bind by (by apply set_error_run). destruct (Z.eqb_spec left 0) as [->|Hnz].
    + erewrite run_bind by (apply set_error_run; apply lookup_insert_eq). eexists _, _. split; [done|]. split; [done|].
      rewrite with_error_twice. by apply taken_error.
    + destruct (taken_wait o a EvUnlink s t th left (QSuspend o)) as (td & s1 & Hrun1 & Hta); [done..|].
      rewrite (run_bind _ _ _ _ _ Hrun1). eexists _, _. split; [done|]. by split.
  - destruct a as [[|[x d] q] f fl]; [by pose proof (mr_entry _ _ Hr)|].
    destruct (rel_unlink m q f fl x d Hr) as (Hh & Hp & Hr').
    pose proof (mr_entry _ _ Hr) as Hn. pose proof (mr_count _ _ Hr) as Hmax. cbn in Hn, Hmax.
    rewrite Hh. erewrite run_bind by done.
    erewrite run_bind by (by apply get_msg_run). cbn [msg_next].
    assert (forall m0, mq_entry (if bool_decide (mq_queue_tail m0 = Some x) then set_mq_queue_tail None m0 else m0) = mq_entry m0)
      as Ee by (clear; intros; by case_bool_decide). rewrite Ee. cbn [mq_entry set_mq_queue_head].
    destruct (Z.ltb_spec 0 (mq_entry m)); [|lia].
    unfold RT_MQ_ENTRY_MAX, RT_UINT16_MAX in *. rewrite wrap_small by (change (2 ^ 16) with 65536; lia).
    erewrite run_bind by done. eexists _, _. split; [done|]. split; [done|].
    apply (taken_done _ _ (MQA q f (<[x := MqMsg (fst <$> head q) d]> fl)) _ _ _ _ _ m).
    + cbn. by rewrite decide_True.
    + apply (mq_ok_put o _ s); [by split|exact Hr'].
    + done.
    + cbn. by destruct (bool_decide (mq_queue_tail m = Some x)).
Qed.

(** ** The message queue in every interleaving *)

Inductive mq_step (app : positive -> ptr -> K unit) (o : ptr) : kst -> mq_event -> kst -> Prop :=
| mq_step_alloc s thread timeout since r s' : caller s thread timeout since ->
    mq_alloc_section o thread timeout since s = Ok r s' ->
    mq_step app o s (match r with ipc_done x => EvAlloc x | _ => EvTau end) s'
| mq_step_urgent_alloc s r s' : mq_urgent_alloc o s = Ok r s' ->
    mq_step app o s (match r with Some x => EvAlloc x | None => EvTau end) s'
| mq_step_fill s x buffer s' : mq_fill o x buffer s = Ok tt s' -> mq_step app o s (EvFill x buffer) s'
| mq_step_fill_urgent s x buffer s' : mq_fill_urgent o x buffer s = Ok tt s' -> mq_step app o s (EvFillUrgent x buffer) s'
| mq_step_link s x r s' : mq_link_section o x s = Ok r s' -> mq_step app o s (EvLink x) s'
| mq_step_link_front s x r s' : mq_link_front o x s = Ok r s' -> mq_step app o s (EvLinkFront x) s'
| mq_step_unlink s thread timeout since r s' : caller s thread timeout since ->
    mq_unlink_section o thread timeout since s = Ok r s' ->
    mq_step app o s (match r with ipc_done x => EvUnlink x | _ => EvTau end) s'
| mq_step_copy s x size m bytes s' : k_mqs s !! o = Some m -> mq_copy_out o x size s = Ok bytes s' ->
    mq_step app o s (EvCopy x (Z.to_nat (if mq_msg_size m <? size then mq_msg_size m else size)) bytes) s'
| mq_step_free s x r s' : mq_free_section o x s = Ok r s' -> mq_step app o s (EvFree x) s'
| mq_step_reset s s' : mq_reset_section o s = Ok tt s' -> mq_step app o s EvReset s'
| mq_step_background s s' : background app s s' -> mq_step app o s EvTau s'.

Inductive mq_steps (app : positive -> ptr -> K unit) (o : ptr) : kst -> list mq_event -> kst -> Prop :=
| mq_steps_nil s : mq_steps app o s [] s
| mq_steps_cons s ev s1 tr s' : mq_step app o s ev s1 -> mq_steps app o s1 tr s' -> mq_steps app o s (ev :: tr) s'.

(** The order in which each call of the source runs its sections: a block is
    filled, linked, copied or freed only by the call that took it off a list
    and has not given it back, and linked at the tail only after [mq_fill].
    [held] maps the blocks in flight to whether they were filled. *)
Fixpoint disciplined (held : gmap Z bool) (tr : list mq_event) : Prop :=
  match tr with
  | [] => True
  | ev :: tr =>
      match ev with
      | EvTau | EvReset => disciplined held tr
      | EvAlloc x | EvUnlink x => disciplined (<[x := false]> held) tr
      | EvFill x _ => is_Some (held !! x) /\ disciplined (<[x := true]> held) tr
      | EvFillUrgent x _ | EvCopy x _ _ => is_Some (held !! x) /\ disciplined held tr
      | EvLink x => held !! x = Some true /\ disciplined (delete x held) tr
      | EvLinkFront x | EvFree x => is_Some (held !! x) /\ disciplined (delete x held) tr
      end
  end.

Definition covers (held : gmap Z bool) (a : mqa) : Prop :=
  forall x f, held !! x = Some f -> exists b, qa_flight a !! x = Some b /\ (f = true -> msg_next b = None).

(** What one step asks of the abstract state. *)
Definition allowed (ev : mq_event) (a : mqa) : Prop :=
  match ev with
  | EvFill x _ | EvFillUrgent x _ | EvLinkFront x | EvCopy x _ _ | EvFree x => is_Some (qa_flight a !! x)
  | EvLink x => exists d, qa_flight a !! x = Some (MqMsg None d)
  | _ => True
  end.

Lemma wp_ok {A} (m : K A) Q s r s' : wp m Q s -> m s = Ok r s' -> Q r s'.
Proof. unfold wp. intros H E. by rewrite E in H. Qed.

Lemma mq_step_ok app o a s ev s' : mq_ok o a s -> mq_step app o s ev s' -> allowed ev a ->
  exists a', mqa_do ev a = Some a' /\ mq_ok o a' s'.
Proof.
  intros Hok Hstep Hal. destruct Hstep as [s thread timeout since r s' Hcl Hrun|s r s' Hrun|s x buffer s' Hrun|s x buffer s' Hrun
    |s x r s' Hrun|s x r s' Hrun|s thread timeout since r s' Hcl Hrun|s x size m bytes s' Hm Hrun|s x r s' Hrun|s s' Hrun|s s' Hbg]; cbn in Hal.
  - destruct (mq_alloc_run o a s thread timeout since Hok Hcl) as (left & r1 & s1 & _ & Hrun1 & [(a' & Ha & Hok') _ _ _]).
    rewrite Hrun in Hrun1. injection Hrun1 as <- <-. by exists a'.
  - pose proof Hok as (_ & _ & m & Hm & _). unfold mq_urgent_alloc in Hrun.
    erewrite run_bind in Hrun by (by apply get_mq_run).
    destruct (mq_queue_free m) as [x|] eqn:Ef; [|injection Hrun as <- <-; by exists a].
    destruct (mq_take_free o a s Hok m x Hm Ef) as (a' & b & Ha & Hb & Hok').
    erewrite run_bind in Hrun by (by apply get_msg_run). injection Hrun as <- <-. by exists a'.
  - destruct Hal as [b Hx]. destruct (mq_fill_ok o a s Hok x buffer b Hx) as (a' & Ha & Hwp).
    exists a'. split; [done|]. exact (proj1 (wp_ok _ _ _ _ _ Hwp Hrun)).
  - destruct Hal as [b Hx]. destruct (mq_fill_urgent_ok o a s Hok x buffer b Hx) as (a' & Ha & Hwp).
    exists a'. split; [done|]. exact (proj1 (wp_ok _ _ _ _ _ Hwp Hrun)).
  - destruct Hal as [d Hx]. destruct (mq_link_ok o a s Hok x d Hx) as (a' & Ha & Hwp).
    exists a'. split; [done|]. exact (proj1 (proj2 (wp_ok _ _ _ _ _ Hwp Hrun))).
  - destruct Hal as [b Hx]. destruct (mq_link_front_ok o a s Hok x b Hx) as (a' & Ha & Hwp).
    exists a'. split; [done|]. exact (proj1 (proj2 (wp_ok _ _ _ _ _ Hwp Hrun))).
  - destruct (mq_unlink_run o a s thread timeout since Hok Hcl) as (left & r1 & s1 & _ & Hrun1 & [(a' & Ha & Hok') _ _ _]).
    rewrite Hrun in Hrun1. injection Hrun1 as <- <-. by exists a'.
  - destruct Hal as [b Hx]. rewrite (mq_copy_ok o a s Hok x size b m Hx Hm) in Hrun. injection Hrun as <- <-.
    exists a. split; [|done]. cbn. rewrite Hx. cbn. by rewrite decide_True.
  - destruct Hal as [b Hx]. destruct (mq_free_ok o a s Hok x b Hx) as (a' & Ha & Hwp).
    exists a'. split; [done|]. exact (proj1 (wp_ok _ _ _ _ _ Hwp Hrun)).
  - destruct (mq_reset_ok o a s Hok) as (a' & Ha & Hwp). exists a'. split; [done|]. exact (wp_ok _ _ _ _ _ Hwp Hrun).
  - destruct (background_ok app s s' (proj1 Hok) Hbg) as [Hc' [Q1 Q2 _ _]]. exists a. split; [done|].
    apply (mq_ok_step o a s); [done|done|done|exact (f_equal k_mqs Q1)].
Qed.

Lemma covers_insert held q f fl q' f' x b flag : covers held (MQA q f fl) -> (flag = true -> msg_next b = None) ->
  covers (<[x := flag]> held) (MQA q' f' (<[x := b]> fl)).
Proof.
  intros Hc Hf y g. rewrite lookup_insert_Some. intros [[<- <-]|[Hne Hy]]; cbn.
  - exists b. by rewrite lookup_insert_eq.
  - rewrite lookup_insert_ne by done. by apply Hc.
Qed.

Lemma covers_delete held q f fl q' f' x : covers held (MQA q f fl) -> covers (delete x held) (MQA q' f' (delete x fl)).
Proof. intros Hc y g. rewrite lookup_delete_Some. intros [Hne Hy]. cbn. rewrite lookup_delete_ne by done. by apply Hc. Qed.

(** A disciplined trace is allowed step by step. *)
Lemma disciplined_step held ev tr a : disciplined held (ev :: tr) -> covers held a ->
  allowed ev a /\ forall a', mqa_do ev a = Some a' -> exists held', disciplined held' tr /\ covers held' a'.
Proof.
  intros Hd Hc. destruct a as [q f fl]. destruct ev as [|x|x buf|x buf|x|x|x|x n bytes|x|]; cbn [disciplined] in Hd.
  - split; [done|]. intros a' [= <-]. eauto.
  - split; [done|]. intros a'. cbn. destruct f as [|[y d] f]; [done|]. case_decide; [|done]. intros [= <-].
    eexists. split; [exact Hd|]. by eapply covers_insert.
  - destruct Hd as [[g Hx] Hd]. destruct (Hc x g Hx) as (b & Hb & _). cbn in Hb. split; [by exists b|].
    intros a'. cbn. unfold refill. cbn. rewrite Hb. intros [= <-]. eexists. split; [exact Hd|]. by eapply covers_insert.
  - destruct Hd as [[g Hx] Hd]. destruct (Hc x g Hx) as (b & Hb & Hg). cbn in Hb. split; [by exists b|].
    intros a'. cbn. unfold refill. cbn. rewrite Hb. intros [= <-]. exists held. split; [exact Hd|].
    rewrite <- (insert_id held x g) by done. by eapply covers_insert.
  - destruct Hd as [Hx Hd]. destruct (Hc x true Hx) as ([nx d] & Hb & Hg). cbn in Hb, Hg. rewrite Hg in Hb by done.
    split; [by exists d|]. intros a'. cbn. rewrite Hb. cbn. intros [= <-]. eexists. split; [exact Hd|]. by eapply covers_delete.
  - destruct Hd as [[g Hx] Hd]. destruct (Hc x g Hx) as (b & Hb & _). cbn in Hb. split; [by exists b|].
    intros a'. cbn. rewrite Hb. intros [= <-]. eexists. split; [exact Hd|]. by eapply covers_delete.
  - split; [done|]. intros a'. cbn. destruct q as [|[y d] q]; [done|]. case_decide; [|done]. intros [= <-].
    eexists. split; [exact Hd|]. by eapply covers_insert.
  - destruct Hd as [[g Hx] Hd]. destruct (Hc x g Hx) as (b & Hb & _). cbn in Hb. split; [by exists b|].
    intros a'. cbn. rewrite Hb. cbn. case_decide; [|done]. intros [= <-]. eauto.
  - destruct Hd as [[g Hx] Hd]. destruct (Hc x g Hx) as (b & Hb & _). cbn in Hb. split; [by exists b|].
    intros a'. cbn. rewrite Hb. intros [= <-]. eexists. split; [exact Hd|]. by eapply covers_delete.
  - split; [done|]. intros a' [= <-]. exists held. split; [done|]. intros y g Hy. by apply Hc.
Qed.

(** C3: a message queue refines the abstract queue: in every interleaving of the
    sections of sends, urgent sends, receives and resets, with the copies of
    message bytes outside the critical sections, tick interrupts and calls of
    the scheduler, as long as each call runs its own sections in the order of
    the code, no block is ever in two lists, the free list and the queue stay
    linked, messages arrive first in first out (urgent ones in front) with the
    bytes they were sent with, and the count is the length of the queue. *)
Theorem msgqueue_refines app o a held s tr s' :
  mq_ok o a s -> covers held a -> disciplined held tr -> mq_steps app o s tr s' ->
  exists a', mqa_run tr a = Some a' /\ mq_ok o a' s'.
Proof.
  intros Hok Hc Hd H. revert a held Hok Hc Hd. induction H as [s|s ev s1 tr s' Hstep _ IH]; intros a held Hok Hc Hd.
  - by exists a.
  - destruct (disciplined_step held ev tr a Hd Hc) as [Hal Hnext].
    destruct (mq_step_ok app o a s ev s1 Hok Hstep Hal) as (a1 & Ha & Hok1).
    destruct (Hnext a1 Ha) as (held1 & Hd1 & Hc1). destruct (IH a1 held1 Hok1 Hc1 Hd1) as (a' & Hrun & Hok').
    exists a'. split; [|done]. cbn. by rewrite Ha.
Qed.

(** ** A new queue: every block in the free list, the last one first *)

Definition free_blocks (bytes : Z -> list Z) (stride : Z) (n : nat) : list (Z * list Z) :=
  rev ((fun i => (Z.of_nat i * stride, bytes (Z.of_nat i * stride))) <$> seq 0 n).

#[local] Arguments free_blocks : simpl never.

Lemma free_blocks_S bytes stride n : free_blocks bytes stride (S n) =
  (Z.of_nat n * stride, bytes (Z.of_nat n * stride)) :: free_blocks bytes stride n.
Proof. unfold free_blocks. by rewrite seq_S, fmap_app, rev_app_distr. Qed.

Lemma free_blocks_fst bytes stride n x : x ∈ (free_blocks bytes stride n).*1 ->
  exists i, (i < n)%nat /\ x = Z.of_nat i * stride.
Proof.
  induction n as [|n IH]; [by intros ?%not_elem_of_nil|]. rewrite free_blocks_S. cbn.
  intros [->|Hx]%elem_of_cons; [exists n; split; [lia|done]|]. destruct (IH Hx) as (i & Hi & ->). exists i. split; [lia|done].
Qed.

Lemma init_free_rel bytes stride n k m : 0 < stride ->
  mq_rel m (MQA [] (free_blocks bytes stride k) ∅) -> Z.of_nat (k + n) <= RT_MQ_ENTRY_MAX ->
  mq_rel (init_free bytes stride n (Z.of_nat k) m) (MQA [] (free_blocks bytes stride (k + n)) ∅).
Proof.
  intros Hs. revert k m. induction n as [|n IH]; intros k m Hr Hn; cbn [init_free].
  - by rewrite Nat.add_0_r.
  - replace (Z.of_nat k + 1) with (Z.of_nat (S k)) by lia. rewrite <- Nat.add_succ_comm. apply IH; [|lia].
    destruct Hr as [H1 H2 H3 H4 H5 H6 H7 H8]. cbn in *.
    assert (Z.of_nat k * stride ∉ (free_blocks bytes stride k).*1) as Hk.
    { intros Hin. destruct (free_blocks_fst _ _ _ _ Hin) as (i & Hi & E). nia. }
    rewrite (free_blocks_S bytes stride k). split; cbn; try done.
    + split; [done|]. eexists. rewrite lookup_insert_eq. split; [done|]. by apply linked_insert.
    + by constructor.
    + intros x [? Hx]. by rewrite lookup_empty in Hx.
    + change (size ∅) with 0%nat. unfold free_blocks. rewrite length_rev, length_fmap, length_seq. lia.
Qed.

Lemma empty_mq_rel bytes msg_size max_msgs : 0 <= msg_size -> max_msgs <= RT_MQ_ENTRY_MAX ->
  mq_rel (empty_mq bytes msg_size max_msgs)
    (MQA [] (free_blocks bytes (msg_size + MQ_HEADER) (Z.to_nat max_msgs)) ∅).
Proof.
  intros Hm Hn. apply (init_free_rel bytes _ _ 0); [unfold MQ_HEADER; lia| |unfold RT_MQ_ENTRY_MAX, RT_UINT16_MAX in *; lia].
  split; cbn; try done.
  - constructor.
  - intros x [? Hx]. by rewrite lookup_empty in Hx.
Qed.

(** ** Witness: object 20 as a new queue of two messages of four bytes *)
Definition demo_mq : kst :=
  set_k_mqs (<[20%positive := empty_mq (fun _ => [0; 0; 0; 0]) 4 2]> ∅)
    (set_k_objs (<[20%positive := demo_object 134 1]> (k_objs demo_kernel)) demo_kernel).
Definition demo_mqa : mqa := MQA [] (free_blocks (fun _ => [0; 0; 0; 0]) 8 2) ∅.

Lemma demo_mq_ok : mq_ok 20 demo_mqa demo_mq.
Proof.
  split; [split; [apply kinv_check_ok; by vm_compute|by eexists|done]|].
  split; [exists (demo_object 134 1); repeat split; by right|].
  eexists. split; [done|]. apply (empty_mq_rel _ 4 2); [done|by vm_compute].
Qed.

Lemma msgqueue_refines_witness : exists s' a', mq_steps no_app 20 demo_mq [EvAlloc 8; EvFill 8 [1; 2]; EvLink 8] s' /\
  mq_ok 20 a' s' /\ qa_queue a' = [(8, [1; 2; 0; 0])].
Proof.
  destruct (mq_alloc_section 20 None 0 None demo_mq) as [r1 s1|] eqn:E1; [|by vm_compute in E1].
  assert (r1 = ipc_done 8) as -> by (vm_compute in E1; by injection E1 as <- _).
  destruct (mq_fill 20 8 [1; 2] s1) as [[] s2|] eqn:E2.
  2:{ vm_compute in E1. injection E1 as <-. by vm_compute in E2. }
  destruct (mq_link_section 20 8 s2) as [r3 s3|] eqn:E3.
  2:{ vm_compute in E1. injection E1 as <-. vm_compute in E2. injection E2 as <-. by vm_compute in E3. }
  assert (mq_steps no_app 20 demo_mq [EvAlloc 8; EvFill 8 [1; 2]; EvLink 8] s3) as Hs.
  { apply (mq_steps_cons _ _ _ (EvAlloc 8) s1).
    { exact (mq_step_alloc no_app 20 demo_mq None 0 None (ipc_done 8) s1 (or_introl (conj eq_refl eq_refl)) E1). }
    apply (mq_steps_cons _ _ _ (EvFill 8 [1; 2]) s2); [by apply mq_step_fill|].
    apply (mq_steps_cons _ _ _ (EvLink 8) s3); [by eapply mq_step_link|constructor]. }
  destruct (msgqueue_refines no_app 20 demo_mqa ∅ demo_mq [EvAlloc 8; EvFill 8 [1; 2]; EvLink 8] s3 demo_mq_ok) as (a' & Hrun & Hok); [| |exact Hs|].
  { intros x f Hx. by rewrite lookup_empty in Hx. }
  { cbn [disciplined]. split; [by eexists|]. by split. }
  exists s3, a'. split; [done|]. split; [done|]. vm_compute in Hrun. by injection Hrun as <-.
Defined.
