(* ===== verification/Mem.v ===== *)
(** * The heap (rt-thread/src/mem.c)

    The small-memory allocator: one array of bytes, tiled by blocks; each
    starts with a 12-byte header that holds a magic number, a used flag and the
    offsets of the next and the previous block.  [lfree] is the lowest free
    block, the last header a used one that is never allocated.

    The model works on the bytes: a header is read and written field by field,
    little endian, and any byte outside the heap is a fault.  Offsets are from
    [heap_ptr]; [lfree] and [heap_end] are kept as offsets.  A call runs under
    [heap_sem]: the calls of different threads do not interleave, so the
    functions are sequential, and taking the semaphore twice is a fault.

    The theorems: the layout invariant and what each function does to the
    blocks, to the bytes of the other blocks and to the statistics, and the
    contract with a client that uses only what it was given. *)
From S2P Require Import Prelude MsgQueue.

(** ** State *)
Definition HEAP_MAGIC : Z := 0x1ea0.
Definition SIZEOF_STRUCT_MEM : Z := 12.
Definition MIN_SIZE : Z := 12.
Definition MIN_SIZE_ALIGNED : Z := RT_ALIGN MIN_SIZE RT_ALIGN_SIZE.
Definition RT_NULL : Z := 0.

Record heap := Heap {
  hp_bytes : gmap Z Z;
  heap_ptr : Z;
  heap_end : Z;
  lfree : Z;
  heap_sem : Z;
  mem_size_aligned : Z;
  used_mem : Z;
  max_mem : Z;
  hp_nest : Z
}.

Definition set_bytes (m : gmap Z Z) (h : heap) : heap :=
  Heap m (heap_ptr h) (heap_end h) (lfree h) (heap_sem h) (mem_size_aligned h) (used_mem h) (max_mem h) (hp_nest h).
Definition set_lfree (p : Z) (h : heap) : heap :=
  Heap (hp_bytes h) (heap_ptr h) (heap_end h) p (heap_sem h) (mem_size_aligned h) (used_mem h) (max_mem h) (hp_nest h).
Definition set_heap_sem (v : Z) (h : heap) : heap :=
  Heap (hp_bytes h) (heap_ptr h) (heap_end h) (lfree h) v (mem_size_aligned h) (used_mem h) (max_mem h) (hp_nest h).
Definition set_used_mem (v : Z) (h : heap) : heap :=
  Heap (hp_bytes h) (heap_ptr h) (heap_end h) (lfree h) (heap_sem h) (mem_size_aligned h) v (max_mem h) (hp_nest h).
Definition set_max_mem (v : Z) (h : heap) : heap :=
  Heap (hp_bytes h) (heap_ptr h) (heap_end h) (lfree h) (heap_sem h) (mem_size_aligned h) (used_mem h) v (hp_nest h).

(** Heap code: a result and a new state, or a fault (a failed assertion or an
    access outside the heap). *)
Definition H (A : Type) : Type := heap -> option (A * heap).
#[export] Instance H_ret : MRet H := fun A a h => Some (a, h).
#[export] Instance H_bind : MBind H := fun A B f m h => match m h with Some (a, h') => f a h' | None => None end.
Arguments H_bind : simpl never.

Definition hfail {A} : H A := fun _ => None.
Definition hget {A} (f : heap -> A) : H A := fun h => Some (f h, h).
Definition hput (f : heap -> heap) : H unit := fun h => Some (tt, f h).
Definition hassert (b : bool) : H unit := if b then mret tt else hfail.
Definition hlift {A} (o : option A) : H A := fun h => a ← o; Some (a, h).

(** ** Bytes *)
Fixpoint load (n : nat) (a : Z) (m : gmap Z Z) : option Z :=
  match n with
  | O => Some 0
  | S n => b ← m !! a; r ← load n (a + 1) m; Some (b + 256 * r)
  end.
Fixpoint store (n : nat) (a v : Z) (m : gmap Z Z) : option (gmap Z Z) :=
  match n with
  | O => Some m
  | S n => _ ← m !! a; m' ← store n (a + 1) (v / 256) m; Some (<[a := v mod 256]> m')
  end.

Definition ld (n : nat) (a : Z) : H Z := fun h => v ← load n a (hp_bytes h); Some (v, h).
Definition st (n : nat) (a v : Z) : H unit := fun h => m ← store n a v (hp_bytes h); Some (tt, set_bytes m h).

(** The fields of [struct heap_mem]. *)
Definition get_magic (p : Z) : H Z := ld 2 p.
Definition get_used (p : Z) : H Z := ld 2 (p + 2).
Definition get_next (p : Z) : H Z := ld 4 (p + 4).
Definition get_prev (p : Z) : H Z := ld 4 (p + 8).
Definition set_magic (p v : Z) : H unit := st 2 p v.
Definition set_used (p v : Z) : H unit := st 2 (p + 2) v.
Definition set_next (p v : Z) : H unit := st 4 (p + 4) v.
Definition set_prev (p v : Z) : H unit := st 4 (p + 8) v.

(** [rt_sem_take(&heap_sem, RT_WAITING_FOREVER)] and [rt_sem_release]. *)
Definition heap_lock : H unit := v ← hget heap_sem; hassert (0 <? v);; hput (set_heap_sem (v - 1)).
Definition heap_unlock : H unit := v ← hget heap_sem; hput (set_heap_sem (v + 1)).

Definition NOT_IN_INTERRUPT : H unit := n ← hget hp_nest; hassert (n =? 0).

(** ** Operations *)
(** [plug_holes]: with the next block, then with the previous one. *)
Definition plug_next (mem : Z) : H unit :=
  e ← hget heap_end;
  nmem ← get_next mem;
  nused ← get_used nmem;
  if negb (mem =? nmem) && (nused =? 0) && negb (nmem =? e) then
    lf ← hget lfree;
    (if lf =? nmem then hput (set_lfree mem) else mret tt);;
    nnext ← get_next nmem;
    set_next mem nnext;;
    set_prev nnext mem
  else mret tt.
Definition plug_prev (mem : Z) : H unit :=
  pmem ← get_prev mem;
  pused ← get_used pmem;
  if negb (pmem =? mem) && (pused =? 0) then
    lf ← hget lfree;
    (if lf =? mem then hput (set_lfree pmem) else mret tt);;
    next ← get_next mem;
    set_next pmem next;;
    set_prev next pmem
  else mret tt.
Definition plug_holes (mem : Z) : H unit :=
  e ← hget heap_end;
  hassert (0 <=? mem);; hassert (mem <? e);;
  used ← get_used mem; hassert (used =? 0);;
  plug_next mem;;
  plug_prev mem.

Definition RT_ALIGN_DOWN (size align : Z) : Z := Z.land size (Z.lnot (align - 1)).

(** The headers at the start and at the end of a new heap. *)
Definition first_header (last : Z) : H unit :=
  set_magic 0 HEAP_MAGIC;; set_next 0 last;; set_prev 0 0;; set_used 0 0.
Definition last_header (last : Z) : H unit :=
  set_magic last HEAP_MAGIC;; set_used last 1;; set_next last last;; set_prev last last.

(** The memory behind [begin_addr] is what [hp_bytes] holds. *)
Definition rt_system_heap_init (begin_addr end_addr : Z) : H unit :=
  let begin_align := u32 (RT_ALIGN begin_addr RT_ALIGN_SIZE) in
  let end_align := RT_ALIGN_DOWN end_addr RT_ALIGN_SIZE in
  NOT_IN_INTERRUPT;;
  if (2 * SIZEOF_STRUCT_MEM <? end_align) && (begin_align <=? end_align - 2 * SIZEOF_STRUCT_MEM) then
    let size := end_align - begin_align - 2 * SIZEOF_STRUCT_MEM in
    let last := size + SIZEOF_STRUCT_MEM in
    hput (fun h => Heap (hp_bytes h) begin_align last (lfree h) (heap_sem h) size (used_mem h) (max_mem h) (hp_nest h));;
    first_header last;;
    last_header last;;
    hput (set_heap_sem 1);;
    hput (set_lfree 0)
  else mret tt.

(** The search of [rt_malloc]; at most one round per 16 bytes of the heap. *)
Fixpoint fit_loop (fuel : nat) (ptr size : Z) : H (option Z) :=
  match fuel with
  | O => hfail
  | S fuel =>
      total ← hget mem_size_aligned;
      if ptr <? u32 (total - size) then
        used ← get_used ptr;
        next ← get_next ptr;
        if (used =? 0) && (size <=? u32 (next - (ptr + SIZEOF_STRUCT_MEM))) then mret (Some ptr)
        else fit_loop fuel next size
      else mret None
  end.

(** [while (lfree->used && lfree != heap_end)] and the assertion after it *)
Fixpoint lfree_loop (fuel : nat) : H unit :=
  match fuel with
  | O => hfail
  | S fuel =>
      lf ← hget lfree;
      used ← get_used lf;
      e ← hget heap_end;
      if negb (used =? 0) && negb (lf =? e) then
        next ← get_next lf;
        hput (set_lfree next);;
        lfree_loop fuel
      else hassert ((lf =? e) || (used =? 0))
  end.

Definition heap_fuel (h : heap) : nat := S (Z.to_nat (mem_size_aligned h)).

Definition count_used (n : Z) : H unit :=
  u ← hget used_mem; hput (set_used_mem (u32 (u + n)));;
  u ← hget used_mem; m ← hget max_mem;
  if m <? u then hput (set_max_mem u) else mret tt.

(** A new free block at [ptr2], after [mem], with its old successor. *)
Definition new_header (mem ptr2 : Z) : H unit :=
  set_magic ptr2 HEAP_MAGIC;;
  set_used ptr2 0;;
  next ← get_next mem; set_next ptr2 next;;
  set_prev ptr2 mem.
Definition link_header (ptr2 : Z) : H unit :=
  total ← hget mem_size_aligned;
  next2 ← get_next ptr2;
  if negb (next2 =? total + SIZEOF_STRUCT_MEM) then set_prev next2 ptr2 else mret tt.

(** Cutting the block [mem] at [ptr2]; [rt_malloc] also sets its used flag. *)
Definition cut_block (mem ptr2 : Z) (mark : bool) : H unit :=
  new_header mem ptr2;;
  set_next mem ptr2;;
  (if mark then set_used mem 1 else mret tt);;
  link_header ptr2.

(** Splitting or taking the block found. *)
Definition malloc_take (mem size : Z) : H unit :=
  next ← get_next mem;
  (if u32 (size + SIZEOF_STRUCT_MEM + MIN_SIZE_ALIGNED) <=? u32 (next - (mem + SIZEOF_STRUCT_MEM)) then
     let ptr2 := mem + SIZEOF_STRUCT_MEM + size in
     cut_block mem ptr2 true;;
     count_used (size + SIZEOF_STRUCT_MEM)
   else
     set_used mem 1;;
     next ← get_next mem;
     count_used (next - mem));;
  set_magic mem HEAP_MAGIC.

Definition rt_malloc (size : Z) : H Z :=
  if size =? 0 then mret RT_NULL
  else
    NOT_IN_INTERRUPT;;
    let size := u32 (RT_ALIGN size RT_ALIGN_SIZE) in
    total ← hget mem_size_aligned;
    if total <? size then mret RT_NULL
    else
      let size := if size <? MIN_SIZE_ALIGNED then MIN_SIZE_ALIGNED else size in
      heap_lock;;
      fuel ← hget heap_fuel;
      ptr ← hget lfree;
      r ← fit_loop fuel ptr size;
      match r with
      | None => heap_unlock;; mret RT_NULL
      | Some mem =>
          malloc_take mem size;;
          lf ← hget lfree;
          (if mem =? lf then lfree_loop fuel else mret tt);;
          heap_unlock;;
          e ← hget heap_end;
          hassert (mem + SIZEOF_STRUCT_MEM + size <=? e);;
          base ← hget heap_ptr;
          hassert ((base + mem + SIZEOF_STRUCT_MEM) mod RT_ALIGN_SIZE =? 0);;
          hassert (Z.land (base + mem) (RT_ALIGN_SIZE - 1) =? 0);;
          mret (base + mem + SIZEOF_STRUCT_MEM)
      end.

Definition rt_free (rmem : Z) : H unit :=
  if rmem =? RT_NULL then mret tt
  else
    NOT_IN_INTERRUPT;;
    base ← hget heap_ptr;
    e ← hget heap_end;
    hassert (Z.land rmem (RT_ALIGN_SIZE - 1) =? 0);;
    hassert ((base <=? rmem) && (rmem <? base + e));;
    let mem := rmem - SIZEOF_STRUCT_MEM - base in
    heap_lock;;
    used ← get_used mem;
    magic ← get_magic mem;
    hassert (negb (used =? 0));;
    hassert (magic =? HEAP_MAGIC);;
    set_used mem 0;;
    set_magic mem HEAP_MAGIC;;
    lf ← hget lfree;
    (if mem <? lf then hput (set_lfree mem) else mret tt);;
    next ← get_next mem;
    u ← hget used_mem;
    hput (set_used_mem (u32 (u - (next - mem))));;
    plug_holes mem;;
    heap_unlock.

(** [rt_memset] and [rt_memcpy] on the heap, byte by byte. *)
Fixpoint memset (n : nat) (a v : Z) : H unit :=
  match n with O => mret tt | S n => st 1 a v;; memset n (a + 1) v end.
Fixpoint memcpy (n : nat) (dst src : Z) : H unit :=
  match n with O => mret tt | S n => b ← ld 1 src; st 1 dst b;; memcpy n (dst + 1) (src + 1) end.

(** The part of [rt_realloc] that cuts a block. *)
Definition realloc_cut (ptr size newsize : Z) : H unit :=
  u ← hget used_mem;
  hput (set_used_mem (u32 (u - (size - newsize))));;
  let ptr2 := ptr + SIZEOF_STRUCT_MEM + newsize in
  cut_block ptr ptr2 false;;
  lf ← hget lfree;
  (if ptr2 <? lf then hput (set_lfree ptr2) else mret tt);;
  plug_holes ptr2.

Definition rt_realloc (rmem newsize : Z) : H Z :=
  NOT_IN_INTERRUPT;;
  let newsize := u32 (RT_ALIGN newsize RT_ALIGN_SIZE) in
  total ← hget mem_size_aligned;
  if total <? newsize then mret RT_NULL
  else if newsize =? 0 then rt_free rmem;; mret RT_NULL
  else if rmem =? RT_NULL then rt_malloc newsize
  else
    heap_lock;;
    base ← hget heap_ptr;
    e ← hget heap_end;
    if (rmem <? base) || (base + e <=? rmem) then heap_unlock;; mret rmem
    else
      let ptr := rmem - SIZEOF_STRUCT_MEM - base in
      next ← get_next ptr;
      let size := u32 (next - ptr - SIZEOF_STRUCT_MEM) in
      if size =? newsize then heap_unlock;; mret rmem
      else if u32 (newsize + SIZEOF_STRUCT_MEM + MIN_SIZE) <? size then
        realloc_cut ptr size newsize;; heap_unlock;; mret rmem
      else
        heap_unlock;;
        nmem ← rt_malloc newsize;
        (if negb (nmem =? RT_NULL) then
           memcpy (Z.to_nat (if size <? newsize then size else newsize)) (nmem - base) (rmem - base);;
           rt_free rmem
         else mret tt);;
        mret nmem.

Definition rt_calloc (count size : Z) : H Z :=
  p ← rt_malloc (u32 (count * size));
  base ← hget heap_ptr;
  (if negb (p =? RT_NULL) then memset (Z.to_nat (u32 (count * size))) (p - base) 0 else mret tt);;
  mret p.

Definition rt_memory_info : H (Z * Z * Z) := hget (fun h => (mem_size_aligned h, used_mem h, max_mem h)).

(** ** Loads and stores *)
Lemma load_ext n a m m' : (forall b, a <= b < a + Z.of_nat n -> m' !! b = m !! b) -> load n a m' = load n a m.
Proof.
  revert a. induction n as [|n IH]; intros a Hs; [done|]. cbn [load].
  rewrite Hs by lia. rewrite IH; [done|]. intros b Hb. apply Hs. lia.
Qed.

Lemma load_is_Some n a m : (forall b, a <= b < a + Z.of_nat n -> is_Some (m !! b)) -> exists v, load n a m = Some v.
Proof.
  revert a. induction n as [|n IH]; intros a Hs; cbn [load]; [eauto|].
  destruct (Hs a) as [b Hb]; [lia|]. destruct (IH (a + 1)) as [v Hv]; [intros c Hc; apply Hs; lia|].
  rewrite Hb. cbn. rewrite Hv. cbn. eauto.
Qed.

Definition is_byte (m : gmap Z Z) (a : Z) : Prop := exists b, m !! a = Some b /\ 0 <= b < 256.

(** A store changes its own bytes only, and a load there reads it back. *)
Lemma store_run n a v m : (forall b, a <= b < a + Z.of_nat n -> is_Some (m !! b)) ->
  exists m', store n a v m = Some m' /\ (forall b, ~ (a <= b < a + Z.of_nat n) -> m' !! b = m !! b) /\
    (forall b, is_byte m b -> is_byte m' b) /\
    (0 <= v < 256 ^ Z.of_nat n -> load n a m' = Some v).
Proof.
  revert a v. induction n as [|n IH]; intros a v Hs; cbn [store].
  { exists m. split; [done|]. split; [done|]. split; [done|]. cbn. intros Hv. f_equal. lia. }
  destruct (Hs a) as [b Hb]; [lia|]. rewrite Hb. cbn [mbind option_bind].
  destruct (IH (a + 1) (v / 256)) as (m' & -> & Ho & Hd & Hl); [intros c Hc; apply Hs; lia|].
  cbn [mbind option_bind]. exists (<[a := v mod 256]> m'). split; [done|]. split; [|split].
  - intros c Hc. rewrite lookup_insert_ne by lia. apply Ho. lia.
  - intros c Hc. unfold is_byte in *. destruct (decide (c = a)) as [->|]; [rewrite lookup_insert_eq|rewrite lookup_insert_ne by done; auto].
    eexists. split; [done|]. apply Z.mod_pos_bound. lia.
  - intros Hv. cbn [load]. rewrite lookup_insert_eq. cbn [mbind option_bind].
    rewrite (load_ext n (a + 1) m') by (intros c Hc; apply lookup_insert_ne; lia).
    rewrite Hl; [cbn; f_equal; rewrite (Z.div_mod v 256) at 3; lia|].
    rewrite Nat2Z.inj_succ, Z.pow_succ_r in Hv by lia. split; [apply Z.div_pos; lia|apply Z.div_lt_upper_bound; lia].
Qed.

(** A header. *)
Record header := Hdr { h_magic : Z; h_used : Z; h_next : Z; h_prev : Z }.
Record hdr (m : gmap Z Z) (p : Z) (v : header) : Prop := {
  hd_magic : load 2 p m = Some (h_magic v);
  hd_used : load 2 (p + 2) m = Some (h_used v);
  hd_next : load 4 (p + 4) m = Some (h_next v);
  hd_prev : load 4 (p + 8) m = Some (h_prev v)
}.

Definition same_outside (lo hi : Z) (m m' : gmap Z Z) : Prop := forall a, ~ (lo <= a < hi) -> m' !! a = m !! a.
Definition present (lo hi : Z) (m : gmap Z Z) : Prop := forall a, lo <= a < hi -> is_byte m a.
Definition keeps_bytes (m m' : gmap Z Z) : Prop := forall a, is_byte m a -> is_byte m' a.

Lemma hdr_ext m m' p v : (forall a, p <= a < p + 12 -> m' !! a = m !! a) -> hdr m p v -> hdr m' p v.
Proof.
  intros Hs [H1 H2 H3 H4]. split; (erewrite load_ext; [eassumption|]); cbn; intros b Hb; apply Hs; lia.
Qed.

Lemma present_Some lo hi m a : present lo hi m -> lo <= a < hi -> is_Some (m !! a).
Proof. intros Hp Ha. destruct (Hp a Ha) as (b & -> & _). eauto. Qed.

Lemma hdr_present m p : present p (p + 12) m -> exists v, hdr m p v.
Proof.
  intros Hp. destruct (load_is_Some 2 p m) as [a Ha]; [intros x Hx; apply (present_Some p (p + 12)); [done|cbn in Hx; lia]|].
  destruct (load_is_Some 2 (p + 2) m) as [b Hb]; [intros x Hx; apply (present_Some p (p + 12)); [done|cbn in Hx; lia]|].
  destruct (load_is_Some 4 (p + 4) m) as [c Hc]; [intros x Hx; apply (present_Some p (p + 12)); [done|cbn in Hx; lia]|].
  destruct (load_is_Some 4 (p + 8) m) as [d Hd]; [intros x Hx; apply (present_Some p (p + 12)); [done|cbn in Hx; lia]|].
  by exists (Hdr a b c d).
Qed.

Lemma hdr_fun m p v v' : hdr m p v -> hdr m p v' -> v = v'.
Proof. destruct v, v'. intros [? ? ? ?] [? ? ? ?]. cbn in *. congruence. Qed.

Lemma hbind_run {A B} (c : H A) (f : A -> H B) h a h' : c h = Some (a, h') -> (c ≫= f) h = f a h'.
Proof. intros E. unfold mbind, H_bind. by rewrite E. Qed.

Section fields.
Context (h : heap) (p : Z) (v : header) (Hv : hdr (hp_bytes h) p v).

Lemma get_magic_run : get_magic p h = Some (h_magic v, h).
Proof. unfold get_magic, ld. by rewrite (hd_magic _ _ _ Hv). Qed.
Lemma get_used_run : get_used p h = Some (h_used v, h).
Proof. unfold get_used, ld. by rewrite (hd_used _ _ _ Hv). Qed.
Lemma get_next_run : get_next p h = Some (h_next v, h).
Proof. unfold get_next, ld. by rewrite (hd_next _ _ _ Hv). Qed.
Lemma get_prev_run : get_prev p h = Some (h_prev v, h).
Proof. unfold get_prev, ld. by rewrite (hd_prev _ _ _ Hv). Qed.
End fields.

(** The header at [p] was written, and nothing else. *)
Record wrote (p : Z) (v : header) (m m' : gmap Z Z) : Prop := {
  wr_hdr : hdr m' p v;
  wr_same : same_outside p (p + 12) m m';
  wr_keeps : keeps_bytes m m'
}.

Lemma wrote_trans p v v' m m1 m2 : wrote p v m m1 -> wrote p v' m1 m2 -> wrote p v' m m2.
Proof.
  intros [_ S1 K1] [H2 S2 K2]. split; [done| |intros a Ha; by apply K2, K1].
  intros a Ha. by rewrite S2, S1.
Qed.

(** A store into one field of a header. *)
Lemma field_run h p v v' n off x :
  hdr (hp_bytes h) p v -> present p (p + 12) (hp_bytes h) -> 0 <= off -> off + Z.of_nat n <= 12 -> 0 <= x < 256 ^ Z.of_nat n ->
  (forall m', load n (p + off) m' = Some x ->
    (forall k a, (a + Z.of_nat k <= p + off \/ p + off + Z.of_nat n <= a) -> load k a m' = load k a (hp_bytes h)) -> hdr m' p v') ->
  exists m', st n (p + off) x h = Some (tt, set_bytes m' h) /\ wrote p v' (hp_bytes h) m'.
Proof.
  intros Hv Hp Ho Hn Hx Hh. destruct (store_run n (p + off) x (hp_bytes h)) as (m' & E & Hs & Hk & Hl).
  { intros b Hb. apply (present_Some p (p + 12)); [done|lia]. }
  exists m'. split; [unfold st; by rewrite E|]. split; [|intros a Ha; apply Hs; lia|done].
  apply Hh; [by apply Hl|]. intros k a Ha. apply load_ext. intros b Hb. apply Hs. lia.
Qed.

Section setters.
Context (h : heap) (p : Z) (v : header) (Hv : hdr (hp_bytes h) p v) (Hp : present p (p + 12) (hp_bytes h)).
Local Ltac field := apply (field_run h p v); [done|done|lia|lia|done|];
  intros m' Hl Hs; destruct Hv; split; rewrite ?Hl, ?Hs by lia; done.

Lemma set_magic_run x : 0 <= x < 2 ^ 16 ->
  exists m', set_magic p x h = Some (tt, set_bytes m' h) /\ wrote p (Hdr x (h_used v) (h_next v) (h_prev v)) (hp_bytes h) m'.
Proof.
  intros Hx. pose proof (field_run h p v (Hdr x (h_used v) (h_next v) (h_prev v)) 2 0 x) as Hf.
  rewrite Z.add_0_r in Hf. apply Hf; [done|done|lia|lia|done|].
  intros m' Hl Hs; destruct Hv; split; rewrite ?Hl, ?Hs by lia; done.
Qed.
Lemma set_used_run x : 0 <= x < 2 ^ 16 ->
  exists m', set_used p x h = Some (tt, set_bytes m' h) /\ wrote p (Hdr (h_magic v) x (h_next v) (h_prev v)) (hp_bytes h) m'.
Proof. intros Hx. field. Qed.
Lemma set_next_run x : 0 <= x < 2 ^ 32 ->
  exists m', set_next p x h = Some (tt, set_bytes m' h) /\ wrote p (Hdr (h_magic v) (h_used v) x (h_prev v)) (hp_bytes h) m'.
Proof. intros Hx. field. Qed.
Lemma set_prev_run x : 0 <= x < 2 ^ 32 ->
  exists m', set_prev p x h = Some (tt, set_bytes m' h) /\ wrote p (Hdr (h_magic v) (h_used v) (h_next v) x) (hp_bytes h) m'.
Proof. intros Hx. field. Qed.
End setters.

(** A sequence of stores to the fields of one header. *)
Definition sets (p : Z) (c : H unit) (f : header -> header) : Prop := forall h v,
  hdr (hp_bytes h) p v -> present p (p + 12) (hp_bytes h) ->
  exists m', c h = Some (tt, set_bytes m' h) /\ wrote p (f v) (hp_bytes h) m'.

Lemma sets_seq p c c' f f' : sets p c f -> sets p c' f' -> sets p (c;; c') (fun v => f' (f v)).
Proof.
  intros H1 H2 h v Hv Hp. destruct (H1 h v Hv Hp) as (m1 & Hrun1 & Hw1).
  destruct (H2 (set_bytes m1 h) _ (wr_hdr _ _ _ _ Hw1)) as (m2 & Hrun2 & Hw2); [intros a Ha; by apply (wr_keeps _ _ _ _ Hw1), Hp|].
  exists m2. split; [by rewrite (hbind_run _ _ _ _ _ Hrun1)|by eapply wrote_trans].
Qed.
Lemma sets_magic p x : 0 <= x < 2 ^ 16 -> sets p (set_magic p x) (fun v => Hdr x (h_used v) (h_next v) (h_prev v)).
Proof. intros Hx h v Hv Hp. by apply set_magic_run. Qed.
Lemma sets_used p x : 0 <= x < 2 ^ 16 -> sets p (set_used p x) (fun v => Hdr (h_magic v) x (h_next v) (h_prev v)).
Proof. intros Hx h v Hv Hp. by apply set_used_run. Qed.
Lemma sets_next p x : 0 <= x < 2 ^ 32 -> sets p (set_next p x) (fun v => Hdr (h_magic v) (h_used v) x (h_prev v)).
Proof. intros Hx h v Hv Hp. by apply set_next_run. Qed.
Lemma sets_prev p x : 0 <= x < 2 ^ 32 -> sets p (set_prev p x) (fun v => Hdr (h_magic v) (h_used v) (h_next v) x).
Proof. intros Hx h v Hv Hp. by apply set_prev_run. Qed.

Lemma first_header_sets last : 0 <= last < 2 ^ 32 -> sets 0 (first_header last) (fun _ => Hdr HEAP_MAGIC 0 last 0).
Proof.
  intros Hl. refine (sets_seq _ _ _ _ _ (sets_magic _ _ _) (sets_seq _ _ _ _ _ (sets_next _ _ Hl)
    (sets_seq _ _ _ _ _ (sets_prev _ _ _) (sets_used _ _ _)))); done.
Qed.
Lemma last_header_sets last : 0 <= last < 2 ^ 32 -> sets last (last_header last) (fun _ => Hdr HEAP_MAGIC 1 last last).
Proof.
  intros Hl. refine (sets_seq _ _ _ _ _ (sets_magic _ _ _) (sets_seq _ _ _ _ _ (sets_used _ _ _)
    (sets_seq _ _ _ _ _ (sets_next _ _ Hl) (sets_prev _ _ Hl)))); done.
Qed.

(** ** The layout *)
Record block := Blk { b_size : Z; b_used : bool }.
Definition after (p : Z) (b : block) : Z := p + 12 + b_size b.
Definition block_hdr (p : Z) (b : block) (prev : Z) : header := Hdr HEAP_MAGIC (Z.b2z (b_used b)) (after p b) prev.

(** The blocks [bs] from [p] on, then the last header; and only the blocks. *)
Fixpoint layout (m : gmap Z Z) (p prev : Z) (bs : list block) : Prop :=
  match bs with
  | [] => exists prev, hdr m p (Hdr HEAP_MAGIC 1 p prev)
  | b :: bs => hdr m p (block_hdr p b prev) /\ layout m (after p b) p bs
  end.
Fixpoint tiles (m : gmap Z Z) (p prev : Z) (bs : list block) : Prop :=
  match bs with
  | [] => True
  | b :: bs => hdr m p (block_hdr p b prev) /\ tiles m (after p b) p bs
  end.
Fixpoint endof (p : Z) (bs : list block) : Z := match bs with [] => p | b :: bs => endof (after p b) bs end.
Fixpoint lastof (prev p : Z) (bs : list block) : Z := match bs with [] => prev | b :: bs => lastof p (after p b) bs end.

Definition sized (b : block) : Prop := 0 < b_size b /\ b_size b mod 4 = 0.

Lemma layout_app m p prev l r : layout m p prev (l ++ r) <-> tiles m p prev l /\ layout m (endof p l) (lastof prev p l) r.
Proof.
  revert p prev. induction l as [|b l IH]; intros p prev; cbn [app layout tiles endof lastof]; [tauto|].
  rewrite IH. tauto.
Qed.
Lemma endof_app p l r : endof p (l ++ r) = endof (endof p l) r.
Proof. revert p. by induction l as [|b l IH]; cbn. Qed.
Lemma lastof_snoc p prev l b : lastof prev p (l ++ [b]) = endof p l.
Proof. revert p prev. induction l as [|c l IH]; intros p prev; cbn; [done|apply IH]. Qed.
Lemma tiles_snoc m p prev l b : tiles m p prev (l ++ [b]) <-> tiles m p prev l /\ hdr m (endof p l) (block_hdr (endof p l) b (lastof prev p l)).
Proof. revert p prev. induction l as [|c l IH]; intros p prev; cbn; [tauto|]. rewrite IH. tauto. Qed.

Lemma endof_ge p bs : Forall sized bs -> p + 16 * Z.of_nat (length bs) <= endof p bs.
Proof.
  revert p. induction bs as [|b bs IH]; intros p Hs; cbn [endof length]; [lia|].
  apply Forall_cons in Hs as [[H1 H2] Hs]. specialize (IH (after p b) Hs). unfold after in *.
  pose proof (Z.div_mod (b_size b) 4 ltac:(lia)). lia.
Qed.

Lemma tiles_ext m m' p prev bs : Forall sized bs -> (forall a, p <= a < endof p bs -> m' !! a = m !! a) ->
  tiles m p prev bs -> tiles m' p prev bs.
Proof.
  revert p prev. induction bs as [|b bs IH]; intros p prev Hs Hm; cbn [tiles]; [done|].
  apply Forall_cons in Hs as [[Hb _] Hs]. pose proof (endof_ge (after p b) bs Hs) as He. cbn [endof] in Hm. unfold after in *.
  intros [H1 H2]. split; [by eapply hdr_ext; [intros a Ha; apply Hm; lia|]|].
  apply IH; [done| |done]. intros a Ha. apply Hm. lia.
Qed.

Lemma layout_ext m m' p prev bs : Forall sized bs -> (forall a, p <= a < endof p bs + 12 -> m' !! a = m !! a) ->
  layout m p prev bs -> layout m' p prev bs.
Proof.
  revert p prev. induction bs as [|b bs IH]; intros p prev Hs Hm; cbn [layout].
  - intros [pv Hh]. exists pv. by eapply hdr_ext.
  - apply Forall_cons in Hs as [[Hb _] Hs]. pose proof (endof_ge (after p b) bs Hs) as He. cbn [endof] in Hm. unfold after in *.
    intros [H1 H2]. split; [by eapply hdr_ext; [intros a Ha; apply Hm; lia|]|].
    apply IH; [done| |done]. intros a Ha. apply Hm. lia.
Qed.

(** The header at the start of a layout, whatever it is. *)
Definition lead (p prev : Z) (bs : list block) (v : header) : Prop :=
  match bs with [] => exists pv, v = Hdr HEAP_MAGIC 1 p pv | b :: _ => v = block_hdr p b prev end.

Lemma layout_lead m p prev bs : layout m p prev bs -> exists v, hdr m p v /\ lead p prev bs v.
Proof. destruct bs as [|b bs]; cbn; [intros [pv Hh]; by eexists; split; [|eexists]|intros [Hh _]; eauto]. Qed.

Lemma set_bytes_twice m m' h : set_bytes m' (set_bytes m h) = set_bytes m' h.
Proof. done. Qed.
Lemma present_keeps lo hi m m' : keeps_bytes m m' -> present lo hi m -> present lo hi m'.
Proof. intros Hk Hp a Ha. by apply Hk, Hp. Qed.
Lemma present_sub lo hi lo' hi' m : lo <= lo' -> hi' <= hi -> present lo hi m -> present lo' hi' m.
Proof. intros H1 H2 Hp a Ha. apply Hp. lia. Qed.

(** The header at [q] gets a new predecessor. *)
Lemma relink_run h q x y r : layout (hp_bytes h) q x r -> present q (q + 12) (hp_bytes h) -> Forall sized r -> 0 <= y < 2 ^ 32 ->
  exists m', set_prev q y h = Some (tt, set_bytes m' h) /\ layout m' q y r /\
    same_outside q (q + 12) (hp_bytes h) m' /\ keeps_bytes (hp_bytes h) m'.
Proof.
  intros Hl Hp Hs Hy. destruct (layout_lead _ _ _ _ Hl) as (v & Hv & Hlead).
  destruct (set_prev_run h q v Hv Hp y Hy) as (m' & Hrun & [Hh So Hk]). exists m'. split; [done|]. split; [|done].
  destruct r as [|b r]; cbn in *.
  - destruct Hlead as [pv ->]. by exists y.
  - destruct Hl as [_ Hl]. rewrite Hlead in Hh. split; [done|]. apply Forall_cons in Hs as [[Hb _] Hs].
    eapply layout_ext; [done| |done]. intros a Ha. apply So. unfold after in Ha. lia.
Qed.

(** The changes are confined to the headers at [p] and [q]. *)
Definition same_but (p q : Z) (m m' : gmap Z Z) : Prop :=
  forall a, ~ (p <= a < p + 12) -> ~ (q <= a < q + 12) -> m' !! a = m !! a.

Lemma Forall_sized_app l x r : Forall sized (l ++ x :: r) -> Forall sized l /\ sized x /\ Forall sized r.
Proof. intros H. apply Forall_app in H as [H1 H2]. by apply Forall_cons in H2. Qed.

(** Two blocks become one. *)
Lemma join_run h l x y r : layout (hp_bytes h) 0 0 (l ++ x :: y :: r) -> Forall sized (l ++ x :: y :: r) ->
  let p := endof 0 l in let q := after (after p x) y in
  present 0 (endof 0 (l ++ x :: y :: r) + 12) (hp_bytes h) -> endof 0 (l ++ x :: y :: r) < 2 ^ 32 ->
  exists m', (set_next p q;; set_prev q p) h = Some (tt, set_bytes m' h) /\
    layout m' 0 0 (l ++ Blk (b_size x + 12 + b_size y) (b_used x) :: r) /\ same_but p q (hp_bytes h) m' /\
    keeps_bytes (hp_bytes h) m'.
Proof.
  intros Hl Hs p q Hp He. rewrite endof_app in Hp, He. cbn [endof] in Hp, He. fold p q in Hp, He.
  apply Forall_sized_app in Hs as (Hsl & [Hx _] & Hs). apply Forall_cons in Hs as [[Hy _] Hs].
  apply layout_app in Hl as [Ht Hl]. fold p in Hl. cbn [layout] in Hl. destruct Hl as (Hhx & _ & Hr). fold q in Hr.
  pose proof (endof_ge 0 l Hsl) as Hp0. pose proof (endof_ge q r Hs) as Hq. fold p in Hp0.
  assert (p + 24 <= q) as Hpq by (unfold q, after; lia).
  destruct (set_next_run h p _ Hhx) with (x := q) as (m1 & Hrun1 & [Hh1 So1 Hk1]).
  { eapply present_sub; [| |exact Hp]; lia. }
  { lia. }
  destruct (relink_run (set_bytes m1 h) q (after p x) p r) as (m2 & Hrun2 & Hr2 & So2 & Hk2).
  { eapply layout_ext; [done| |exact Hr]. intros a Ha. apply So1. lia. }
  { eapply present_keeps; [exact Hk1|]. eapply present_sub; [| |exact Hp]; lia. }
  { done. }
  { lia. }
  cbn [hp_bytes set_bytes] in *. exists m2. split; [by rewrite (hbind_run _ _ _ _ _ Hrun1)|].
  assert (q = after p (Blk (b_size x + 12 + b_size y) (b_used x))) as Eq by (unfold q, after; cbn; lia).
  split; [|split].
  - apply layout_app. fold p. split.
    + eapply tiles_ext; [done| |exact Ht]. intros a Ha. fold p in Ha. rewrite So2, So1 by lia. done.
    + cbn [layout]. rewrite <- Eq. split; [|done]. unfold block_hdr. cbn [b_used]. rewrite <- Eq.
      eapply hdr_ext; [|exact Hh1]. intros a Ha. apply So2. lia.
  - intros a H1 H2. by rewrite So2, So1.
  - intros a Ha. by apply Hk2, Hk1.
Qed.

(** ** Merging free neighbours *)
Definition merge_next (b : block) (r : list block) : block * list block :=
  match r with
  | n :: r' => if b_used n then (b, r) else (Blk (b_size b + 12 + b_size n) (b_used b), r')
  | [] => (b, r)
  end.
Definition merge_prev (l : list block) (b : block) : list block :=
  match last l with
  | Some a => if b_used a then l ++ [b] else take (pred (length l)) l ++ [Blk (b_size a + 12 + b_size b) (b_used a)]
  | None => [b]
  end.
Definition coalesce (l : list block) (b : block) (r : list block) : list block :=
  merge_prev l (merge_next b r).1 ++ (merge_next b r).2.

Lemma merge_prev_snoc l a b : merge_prev (l ++ [a]) b =
  if b_used a then l ++ [a; b] else l ++ [Blk (b_size a + 12 + b_size b) (b_used a)].
Proof.
  unfold merge_prev. rewrite last_snoc. destruct (b_used a); [by rewrite <- app_assoc|].
  rewrite length_app, Nat.add_1_r. cbn [pred length]. by rewrite take_app_length.
Qed.

Fixpoint first_free (p : Z) (bs : list block) : Z :=
  match bs with [] => p | b :: bs => if b_used b then first_free (after p b) bs else p end.

(** The bytes of the used blocks. *)
Fixpoint held (p : Z) (bs : list block) (a : Z) : Prop :=
  match bs with [] => False | b :: bs => (b_used b = true /\ p + 12 <= a < after p b) \/ held (after p b) bs a end.

Lemma held_app p l r a : held p (l ++ r) a <-> held p l a \/ held (endof p l) r a.
Proof. revert p. induction l as [|b l IH]; intros p; cbn; [tauto|]. rewrite IH. tauto. Qed.
Lemma held_range p bs a : Forall sized bs -> held p bs a -> p + 12 <= a < endof p bs.
Proof.
  revert p. induction bs as [|b bs IH]; intros p Hs; cbn [held endof]; [done|]. apply Forall_cons in Hs as [[Hb _] Hs].
  pose proof (endof_ge (after p b) bs Hs). unfold after in *. intros [[_ Ha]|Ha]; [lia|]. specialize (IH _ Hs Ha). lia.
Qed.

(** The bytes [m] are laid out as the blocks [bs] up to the last header [e]. *)
Record laid (m : gmap Z Z) (e : Z) (bs : list block) : Prop := {
  la_layout : layout m 0 0 bs;
  la_sized : Forall sized bs;
  la_end : endof 0 bs = e;
  la_present : present 0 (e + 12) m;
  la_max : e + 12 < 2 ^ 32
}.

Lemma set_bytes_id h : set_bytes (hp_bytes h) h = h.
Proof. by destruct h. Qed.

(** A block in the middle: its header and the one after it. *)
Lemma laid_block m e l b r : laid m e (l ++ b :: r) -> let p := endof 0 l in
  0 <= p /\ after p b <= e /\ 4 <= b_size b /\ hdr m p (block_hdr p b (lastof 0 0 l)) /\
  (exists v, hdr m (after p b) v /\ lead (after p b) p r v) /\ endof (after p b) r = e.
Proof.
  intros [Hl Hs He _ _] p. rewrite endof_app in He. cbn [endof] in He. fold p in He.
  apply Forall_sized_app in Hs as (Hsl & [Hb Hm] & Hs). apply layout_app in Hl as [_ [Hh Hl]]. fold p in Hh, Hl.
  pose proof (endof_ge 0 l Hsl). pose proof (endof_ge (after p b) r Hs). pose proof (Z.div_mod (b_size b) 4 ltac:(lia)).
  split; [lia|]. split; [lia|]. split; [lia|]. split; [done|]. split; [|done]. by apply layout_lead.
Qed.

Lemma join_laid h e l x y r : laid (hp_bytes h) e (l ++ x :: y :: r) ->
  let p := endof 0 l in let q := after (after p x) y in
  exists m', (set_next p q;; set_prev q p) h = Some (tt, set_bytes m' h) /\
    laid m' e (l ++ Blk (b_size x + 12 + b_size y) (b_used x) :: r) /\
    (forall a, held 0 (l ++ x :: y :: r) a -> b_used y = false -> m' !! a = hp_bytes h !! a) /\ keeps_bytes (hp_bytes h) m'.
Proof.
  intros [Hl Hs He Hp Hm] p q.
  destruct (join_run h l x y r Hl Hs) as (m' & Hrun & Hl' & Hsame & Hk); [by rewrite He|rewrite He; lia|].
  fold p q in Hrun, Hsame. exists m'. split; [done|].
  apply Forall_sized_app in Hs as (Hsl & [Hx Hx4] & Hs). apply Forall_cons in Hs as [[Hy Hy4] Hs]. split; [|split; [|done]].
  - split; [done| | |by eapply present_keeps|done].
    + apply Forall_app. split; [done|]. apply Forall_cons. split; [|done]. split; cbn; [lia|].
      rewrite Z.add_mod, (Z.add_mod (b_size x)), Hx4, Hy4 by lia. done.
    + rewrite <- He, !endof_app. cbn [endof]. f_equal. unfold after. cbn. lia.
  - intros a Ha Hyf. rewrite held_app in Ha. cbn [held] in Ha. fold p in Ha. unfold q, after in *. apply Hsame.
    + destruct Ha as [Ha|[[_ Ha]|[[E _]|Ha]]]; [apply held_range in Ha; [fold p in Ha; lia|done]|lia|congruence|].
      apply held_range in Ha; [lia|done].
    + destruct Ha as [Ha|[[_ Ha]|[[E _]|Ha]]]; [apply held_range in Ha; [fold p in Ha; lia|done]|lia|congruence|].
      apply held_range in Ha; [lia|done].
Qed.

Lemma plug_next_run h l b r : laid (hp_bytes h) (heap_end h) (l ++ b :: r) -> b_used b = false -> lfree h <= endof 0 l ->
  exists m', plug_next (endof 0 l) h = Some (tt, set_bytes m' h) /\
    laid m' (heap_end h) (l ++ (merge_next b r).1 :: (merge_next b r).2) /\
    (forall a, held 0 (l ++ b :: r) a -> m' !! a = hp_bytes h !! a).
Proof.
  intros Hla Hf Hlf. pose proof (laid_block _ _ _ _ _ Hla) as (Hp & Hq & Hb & Hh & (v & Hv & Hlead) & He).
  set (p := endof 0 l) in *. unfold plug_next. erewrite hbind_run by done.
  erewrite hbind_run by (by apply get_next_run). cbn [h_next block_hdr]. erewrite hbind_run by (by apply get_used_run).
  destruct (Z.eqb_spec p (after p b)) as [E|_]; [unfold after in E; lia|]. destruct r as [|n r]; cbn [lead merge_next fst snd] in *.
  - destruct Hlead as [pv ->]. exists (hp_bytes h). rewrite set_bytes_id. done.
  - subst v. cbn [h_used block_hdr]. destruct (b_used n) eqn:En; cbn [Z.b2z Z.eqb negb andb].
    { exists (hp_bytes h). rewrite set_bytes_id. done. }
    pose proof (laid_block (hp_bytes h) (heap_end h) (l ++ [b]) n r) as Hn. rewrite <- app_assoc in Hn. destruct (Hn Hla) as (_ & Hq2 & Hn4 & _).
    rewrite endof_app in Hq2. cbn [endof] in Hq2. fold p in Hq2.
    destruct (Z.eqb_spec (after p b) (heap_end h)) as [E|_]; [unfold after in *; lia|]. cbn [negb].
    erewrite hbind_run by done. destruct (Z.eqb_spec (lfree h) (after p b)) as [E|_]; [unfold after in *; lia|].
    erewrite hbind_run by done. erewrite hbind_run by (by apply get_next_run). cbn [h_next block_hdr].
    destruct (join_laid h (heap_end h) l b n r Hla) as (m' & Hrun & Hl' & Hsame & _). fold p in Hrun.
    exists m'. split; [done|]. split; [done|]. intros a Ha. by apply Hsame.
Qed.

Lemma plug_prev_run h l b r : laid (hp_bytes h) (heap_end h) (l ++ b :: r) -> b_used b = false ->
  (match last l with Some a => b_used a = false -> lfree h <> endof 0 l | None => True end) ->
  exists m', plug_prev (endof 0 l) h = Some (tt, set_bytes m' h) /\ laid m' (heap_end h) (merge_prev l b ++ r) /\
    (forall a, held 0 (l ++ b :: r) a -> m' !! a = hp_bytes h !! a).
Proof.
  intros Hla Hf Hlf. pose proof (laid_block _ _ _ _ _ Hla) as (Hp & Hq & Hb & Hh & _ & He).
  set (p := endof 0 l) in *. unfold plug_prev. erewrite hbind_run by (by apply get_prev_run). cbn [h_prev block_hdr].
  destruct l as [|x l _] using rev_ind.
  - cbn [lastof endof] in *. erewrite hbind_run by (by apply get_used_run).
    exists (hp_bytes h). rewrite set_bytes_id. done.
  - rewrite lastof_snoc in *. rewrite last_snoc in Hlf. rewrite merge_prev_snoc. rewrite <- app_assoc in Hla. cbn [app] in Hla.
    pose proof (laid_block _ _ _ _ _ Hla) as (Hp1 & Hq1 & Hx & Hhx & _ & _). set (p1 := endof 0 l) in *.
    assert (p = after p1 x) as Ep by (unfold p, p1; by rewrite endof_app).
    erewrite hbind_run by (by apply get_used_run). cbn [h_used block_hdr].
    destruct (Z.eqb_spec p1 p) as [E|_]; [unfold after in *; lia|]. destruct (b_used x) eqn:Ex; cbn [Z.b2z Z.eqb negb andb].
    + exists (hp_bytes h). rewrite set_bytes_id, <- !app_assoc. done.
    + erewrite hbind_run by done. destruct (Z.eqb_spec (lfree h) p) as [E|_]; [by destruct (Hlf eq_refl)|].
      erewrite hbind_run by done. erewrite hbind_run by (by apply get_next_run). cbn [h_next block_hdr].
      destruct (join_laid h (heap_end h) l x b r Hla) as (m' & Hrun & Hl' & Hsame & _). fold p1 in Hrun. rewrite <- Ep in Hrun.
      exists m'. split; [done|]. rewrite <- app_assoc. rewrite Ex in Hl'. split; [exact Hl'|].
      intros a Ha. rewrite <- app_assoc in Ha. by apply Hsame.
Qed.

(** ** The lowest free block *)
Lemma first_free_range p bs : Forall sized bs -> p <= first_free p bs <= endof p bs.
Proof.
  revert p. induction bs as [|b bs IH]; intros p Hs; cbn; [lia|]. apply Forall_cons in Hs as [[Hb _] Hs].
  specialize (IH (after p b) Hs). pose proof (endof_ge (after p b) bs Hs). unfold after in *. destruct (b_used b); lia.
Qed.
Lemma first_free_app p l r : Forall sized l ->
  first_free p (l ++ r) = if decide (first_free p l < endof p l) then first_free p l else first_free (endof p l) r.
Proof.
  revert p. induction l as [|b l IH]; intros p Hs; cbn [app first_free endof]; [by rewrite decide_False by lia|].
  apply Forall_cons in Hs as [[Hb _] Hs]. pose proof (endof_ge (after p b) l Hs). unfold after in *.
  destruct (b_used b); [by apply IH|]. by rewrite decide_True by lia.
Qed.
(** It does not depend on what follows a free block. *)
Lemma first_free_stop p l b b' r r' : Forall sized l -> b_used b = false -> b_used b' = false ->
  first_free p (l ++ b :: r) = first_free p (l ++ b' :: r').
Proof. intros Hs Hb Hb'. rewrite !first_free_app by done. cbn. by rewrite Hb, Hb'. Qed.
Lemma first_free_le p l b r : Forall sized l -> b_used b = false -> first_free p (l ++ b :: r) <= endof p l.
Proof. intros Hs Hb. rewrite first_free_app by done. cbn. rewrite Hb. case_decide; lia. Qed.

Lemma merge_next_used b r : b_used (merge_next b r).1 = b_used b.
Proof. destruct r as [|n r]; cbn; [done|]. by destruct (b_used n). Qed.

Lemma first_free_coalesce l b r : Forall sized (l ++ b :: r) -> b_used b = false ->
  first_free 0 (coalesce l b r) = first_free 0 (l ++ b :: r).
Proof.
  intros Hs Hb. apply Forall_sized_app in Hs as (Hs & _). unfold coalesce. pose proof (merge_next_used b r) as Hu. rewrite Hb in Hu.
  destruct l as [|a l _] using rev_ind; [by apply (first_free_stop 0 [])|]. rewrite merge_prev_snoc.
  apply Forall_app in Hs as [Hsl Hsa]. rewrite <- app_assoc. destruct (b_used a) eqn:Ea.
  - rewrite <- app_assoc. cbn [app]. rewrite (cons_middle a l), (cons_middle a l), !(app_assoc l).
    apply first_free_stop; [by apply Forall_app|done..].
  - rewrite <- app_assoc. by apply first_free_stop.
Qed.

(** ** No two free blocks in a row *)
Fixpoint sep (bs : list block) : Prop :=
  match bs with a :: ((b :: _) as bs) => b_used a || b_used b = true /\ sep bs | _ => True end.
Definition apart (l r : list block) : Prop :=
  match last l, head r with Some a, Some b => b_used a || b_used b = true | _, _ => True end.

Lemma sep_app l r : sep (l ++ r) <-> sep l /\ sep r /\ apart l r.
Proof.
  unfold apart. induction l as [|a l IH]; [cbn; tauto|]. destruct l as [|c l].
  - cbn. destruct r; cbn; tauto.
  - change ((a :: c :: l) ++ r) with (a :: (c :: l) ++ r). change (last (a :: c :: l)) with (last (c :: l)).
    cbn [sep app] in *. tauto.
Qed.

Lemma sep_merge_next b r : b_used b = false -> sep r -> sep ((merge_next b r).1 :: (merge_next b r).2).
Proof.
  intros Hb Hr. destruct r as [|n r]; [done|]. cbn [merge_next].
  destruct (b_used n) eqn:En; cbn [fst snd]; [split; [by rewrite En, orb_true_r|done]|].
  destruct r as [|c r]; [done|]. cbn in Hr |- *. rewrite En in Hr. cbn in Hr. destruct Hr as [-> Hr]. by rewrite orb_true_r.
Qed.

Lemma sep_coalesce l s r : sep (l ++ Blk s true :: r) -> sep (coalesce l (Blk s false) r).
Proof.
  intros Hs. apply sep_app in Hs as (Hl & Hr & _). assert (sep r) as Hr'.
  { destruct r as [|n r]; [done|]. cbn in Hr. apply Hr. }
  pose proof (sep_merge_next (Blk s false) r eq_refl Hr') as Hm. unfold coalesce.
  pose proof (merge_next_used (Blk s false) r) as Hu. cbn in Hu.
  set (x := (merge_next (Blk s false) r).1) in *. set (y := (merge_next (Blk s false) r).2) in *.
  destruct l as [|a l _] using rev_ind; [done|]. rewrite merge_prev_snoc. destruct (b_used a) eqn:Ea.
  - rewrite <- app_assoc. cbn [app]. apply sep_app. apply sep_app in Hl as (Hl & _ & Hap). split; [done|]. split.
    + cbn. rewrite Ea. by split.
    + unfold apart in *. cbn in *. exact Hap.
  - rewrite <- app_assoc. cbn [app]. apply sep_app in Hl as (Hl & _ & Hap). apply sep_app. split; [done|]. split.
    + destruct y as [|c y]; [done|]. cbn in Hm |- *. by rewrite Hu in Hm.
    + unfold apart in *. cbn in *. rewrite Ea in Hap. done.
Qed.

(** ** The heap *)
Fixpoint used_total (bs : list block) : Z :=
  match bs with [] => 0 | b :: bs => (if b_used b then 12 + b_size b else 0) + used_total bs end.

Lemma used_total_app l r : used_total (l ++ r) = used_total l + used_total r.
Proof. induction l as [|b l IH]; cbn; [done|]. rewrite IH. lia. Qed.
Lemma used_total_range p bs : Forall sized bs -> 0 <= used_total bs <= endof p bs - p.
Proof.
  revert p. induction bs as [|b bs IH]; intros p Hs; cbn [used_total endof]; [lia|]. apply Forall_cons in Hs as [[Hb _] Hs].
  specialize (IH (after p b) Hs). unfold after in *. destruct (b_used b); lia.
Qed.
Lemma used_total_coalesce l s r : used_total (coalesce l (Blk s false) r) = used_total l + used_total r.
Proof.
  unfold coalesce. rewrite used_total_app.
  assert (used_total [(merge_next (Blk s false) r).1] + used_total (merge_next (Blk s false) r).2 = used_total r) as <-.
  { destruct r as [|n r]; cbn; [done|]. destruct (b_used n) eqn:E; cbn; rewrite ?E; lia. }
  pose proof (merge_next_used (Blk s false) r) as Hu. cbn in Hu. set (x := (merge_next _ _).1) in *.
  destruct l as [|a l _] using rev_ind; [cbn; lia|]. rewrite merge_prev_snoc. rewrite used_total_app.
  destruct (b_used a) eqn:Ea; rewrite used_total_app; cbn; rewrite ?Ea, ?Hu; cbn; lia.
Qed.

Record heap_ok (bs : list block) (h : heap) : Prop := {
  ho_laid : laid (hp_bytes h) (heap_end h) bs;
  ho_size : heap_end h = mem_size_aligned h + 12;
  ho_min : 12 <= mem_size_aligned h;
  ho_lfree : lfree h = first_free 0 bs;
  ho_sep : sep bs;
  ho_sem : heap_sem h = 1;
  ho_nest : hp_nest h = 0;
  ho_base : 0 < heap_ptr h /\ heap_ptr h mod 4 = 0 /\ heap_ptr h + heap_end h + 12 <= 2 ^ 32;
  ho_used : used_mem h = used_total bs;
  ho_max : used_mem h <= max_mem h
}.

Lemma held_merge_next p b r a : b_used b = false -> held p (b :: r) a -> held p ((merge_next b r).1 :: (merge_next b r).2) a.
Proof.
  intros Hb [[E _]|Ha]; [congruence|]. destruct r as [|n r]; [done|]. cbn [merge_next]. destruct (b_used n) eqn:En; [by right|].
  destruct Ha as [[E _]|Ha]; [congruence|]. right. cbn [fst snd]. unfold after in *. cbn [b_size].
  by replace (p + 12 + (b_size b + 12 + b_size n)) with (p + 12 + b_size b + 12 + b_size n) by lia.
Qed.

Lemma plug_holes_run h l b r : laid (hp_bytes h) (heap_end h) (l ++ b :: r) -> b_used b = false ->
  lfree h = first_free 0 (l ++ b :: r) ->
  exists m', plug_holes (endof 0 l) h = Some (tt, set_bytes m' h) /\ laid m' (heap_end h) (coalesce l b r) /\
    (forall a, held 0 (l ++ b :: r) a -> m' !! a = hp_bytes h !! a).
Proof.
  intros Hla Hb Hlf. pose proof (la_sized _ _ _ Hla) as Hs. apply Forall_sized_app in Hs as (Hsl & _).
  pose proof (laid_block _ _ _ _ _ Hla) as (Hp & Hq & Hb4 & Hh & _).
  destruct (plug_next_run h l b r Hla Hb) as (m1 & Hrun1 & Hla1 & Hs1); [rewrite Hlf; by apply first_free_le|].
  destruct (plug_prev_run (set_bytes m1 h) l (merge_next b r).1 (merge_next b r).2 Hla1) as (m2 & Hrun2 & Hla2 & Hs2).
  { by rewrite merge_next_used. }
  { destruct l as [|a l _] using rev_ind; [done|]. rewrite last_snoc. intros Ha. cbn. rewrite Hlf, endof_app. cbn [endof].
    apply Forall_app in Hsl as [Hsl Hsa]. rewrite Forall_singleton in Hsa. rewrite <- app_assoc.
    pose proof (first_free_le 0 l a (b :: r) Hsl Ha). destruct Hsa as [Hsa _]. unfold after. cbn [app]. lia. }
  exists m2. split; [|split; [exact Hla2|]].
  - unfold plug_holes. erewrite hbind_run by done. rewrite (proj2 (Z.leb_le _ _)) by lia.
    erewrite hbind_run by done. rewrite (proj2 (Z.ltb_lt _ _)) by (unfold after in Hq; lia). erewrite hbind_run by done.
    erewrite hbind_run by (by apply get_used_run). cbn [h_used block_hdr]. rewrite Hb. erewrite hbind_run by done.
    rewrite (hbind_run _ _ _ _ _ Hrun1). exact Hrun2.
  - intros a Ha. rewrite Hs2, <- (Hs1 a Ha); [done|]. rewrite held_app in Ha |- *. destruct Ha as [|Ha]; [by left|right].
    by apply held_merge_next.
Qed.

(** A header rewritten in place. *)
Lemma laid_rehead m m' e l b b' r : laid m e (l ++ b :: r) -> b_size b' = b_size b ->
  wrote (endof 0 l) (block_hdr (endof 0 l) b' (lastof 0 0 l)) m m' -> laid m' e (l ++ b' :: r).
Proof.
  intros [Hl Hs He Hp Hm] Eb [Hh So Hk]. apply Forall_sized_app in Hs as (Hsl & [Hb Hb4] & Hs). apply layout_app in Hl as [Ht Hl].
  cbn [layout] in Hl. destruct Hl as [_ Hl].
  split; [|apply Forall_app; split; [done|]; apply Forall_cons; split; [|done]; by unfold sized; rewrite Eb| |by eapply present_keeps|done].
  - apply layout_app. split.
    + eapply tiles_ext; [done| |exact Ht]. intros a Ha. apply So. lia.
    + cbn [layout]. split; [done|]. unfold after in *. rewrite Eb. eapply layout_ext; [done| |exact Hl]. intros a Ha. apply So. lia.
  - rewrite <- He, !endof_app. cbn [endof]. unfold after. by rewrite Eb.
Qed.

Lemma laid_hdr_present m e l b r : laid m e (l ++ b :: r) -> present (endof 0 l) (endof 0 l + 12) m.
Proof.
  intros Hla. pose proof (laid_block _ _ _ _ _ Hla) as (Hp & Hq & Hb & _). eapply present_sub; [| |apply Hla]; unfold after in *; lia.
Qed.

(** The bytes of used blocks lie clear of the headers. *)
Lemma held_clear m e l b r a : laid m e (l ++ b :: r) -> held 0 (l ++ b :: r) a -> ~ (endof 0 l <= a < endof 0 l + 12).
Proof.
  intros Hla. pose proof (la_sized _ _ _ Hla) as Hs. apply Forall_sized_app in Hs as (Hsl & [Hb _] & Hs).
  rewrite held_app. cbn [held]. unfold after. intros [Ha|[[_ Ha]|Ha]]; apply held_range in Ha || idtac; try done; lia.
Qed.

(** Setting the used flag of a block. *)
Lemma mark_run h l s u u' r : laid (hp_bytes h) (heap_end h) (l ++ Blk s u :: r) ->
  exists m', set_used (endof 0 l) (Z.b2z u') h = Some (tt, set_bytes m' h) /\
    laid m' (heap_end h) (l ++ Blk s u' :: r) /\ wrote (endof 0 l) (block_hdr (endof 0 l) (Blk s u') (lastof 0 0 l)) (hp_bytes h) m'.
Proof.
  intros Hla. pose proof (laid_block _ _ _ _ _ Hla) as (_ & _ & _ & Hh & _).
  destruct (set_used_run h (endof 0 l) _ Hh (laid_hdr_present _ _ _ _ _ Hla) (Z.b2z u')) as (m' & Hrun & Hw); [by destruct u'|].
  exists m'. split; [done|]. split; [|done]. by eapply (laid_rehead _ _ _ _ (Blk s u)).
Qed.

Lemma magic_run h l b r : laid (hp_bytes h) (heap_end h) (l ++ b :: r) ->
  exists m', set_magic (endof 0 l) HEAP_MAGIC h = Some (tt, set_bytes m' h) /\
    laid m' (heap_end h) (l ++ b :: r) /\ same_outside (endof 0 l) (endof 0 l + 12) (hp_bytes h) m'.
Proof.
  intros Hla. pose proof (laid_block _ _ _ _ _ Hla) as (_ & _ & _ & Hh & _).
  destruct (set_magic_run h (endof 0 l) _ Hh (laid_hdr_present _ _ _ _ _ Hla) HEAP_MAGIC) as (m' & Hrun & Hw); [done|].
  exists m'. split; [done|]. split; [by eapply (laid_rehead _ _ _ _ b)|apply Hw].
Qed.

Lemma endof_mod p bs : Forall sized bs -> p mod 4 = 0 -> endof p bs mod 4 = 0.
Proof.
  revert p. induction bs as [|b bs IH]; intros p Hs Hp; cbn; [done|]. apply Forall_cons in Hs as [[_ Hb] Hs].
  apply IH; [done|]. unfold after. rewrite Z.add_mod, (Z.add_mod p 12), Hp, Hb by lia. done.
Qed.

Lemma land_3 x : Z.land x (RT_ALIGN_SIZE - 1) = x mod 4.
Proof. change (RT_ALIGN_SIZE - 1) with (Z.ones 2). by rewrite Z.land_ones by lia. Qed.

(** What no call changes. *)
Record heap_same (h h' : heap) : Prop := {
  hs_ptr : heap_ptr h' = heap_ptr h;
  hs_end : heap_end h' = heap_end h;
  hs_size : mem_size_aligned h' = mem_size_aligned h
}.
Lemma heap_same_refl h : heap_same h h.
Proof. done. Qed.
Lemma heap_same_trans h h1 h2 : heap_same h h1 -> heap_same h1 h2 -> heap_same h h2.
Proof. intros [? ? ?] [? ? ?]. split; congruence. Qed.

(** The pointer to the bytes of the block at offset [p]. *)
Definition user (h : heap) (p : Z) : Z := heap_ptr h + p + 12.

Lemma user_aligned bs h p : heap_ok bs h -> p mod 4 = 0 -> user h p mod 4 = 0.
Proof.
  intros Hok Hp. destruct (ho_base _ _ Hok) as (_ & Hb & _). unfold user.
  rewrite Z.add_mod, (Z.add_mod (heap_ptr h)), Hb, Hp by lia. done.
Qed.

Lemma heap_lock_run bs h : heap_ok bs h -> heap_lock h = Some (tt, set_heap_sem 0 h).
Proof. intros Hok. unfold heap_lock. erewrite hbind_run by done. rewrite (ho_sem _ _ Hok). done. Qed.
Lemma in_thread_run bs h : heap_ok bs h -> NOT_IN_INTERRUPT h = Some (tt, h).
Proof. intros Hok. unfold NOT_IN_INTERRUPT. erewrite hbind_run by done. by rewrite (ho_nest _ _ Hok). Qed.

Lemma rt_free_run l s r h : heap_ok (l ++ Blk s true :: r) h ->
  exists h', rt_free (user h (endof 0 l)) h = Some (tt, h') /\ heap_ok (coalesce l (Blk s false) r) h' /\ heap_same h h' /\
    max_mem h' = max_mem h /\ (forall a, held 0 (l ++ Blk s false :: r) a -> hp_bytes h' !! a = hp_bytes h !! a).
Proof.
  intros Hok. pose proof (ho_laid _ _ Hok) as Hla. pose proof (laid_block _ _ _ _ _ Hla) as (Hp & Hq & Hs & Hh & _).
  pose proof (la_sized _ _ _ Hla) as Hsz. pose proof Hsz as Hsz'. apply Forall_sized_app in Hsz' as (Hsl & Hss & Hsr).
  destruct (ho_base _ _ Hok) as (Hb1 & Hb2 & Hb3).
  pose proof (user_aligned _ _ _ Hok (endof_mod 0 l Hsl eq_refl)) as Hal.
  set (p := endof 0 l) in *. unfold after in Hq. cbn [b_size] in *.
  unfold rt_free. destruct (Z.eqb_spec (user h p) RT_NULL) as [E|_]; [unfold user, RT_NULL in E; lia|].
  rewrite (hbind_run _ _ _ _ _ (in_thread_run _ _ Hok)). erewrite hbind_run by done. erewrite hbind_run by done.
  rewrite land_3, Hal. erewrite hbind_run by done.
  rewrite (proj2 (Z.leb_le _ _)), (proj2 (Z.ltb_lt _ _)) by (unfold user; lia). erewrite hbind_run by done. cbv zeta.
  assert (user h p - SIZEOF_STRUCT_MEM - heap_ptr h = p) as -> by (unfold user, SIZEOF_STRUCT_MEM; lia).
  rewrite (hbind_run _ _ _ _ _ (heap_lock_run _ _ Hok)). set (h1 := set_heap_sem 0 h).
  erewrite hbind_run by (apply (get_used_run h1); exact Hh). erewrite hbind_run by (apply (get_magic_run h1); exact Hh).
  cbn [h_used h_magic block_hdr b_used Z.b2z]. erewrite hbind_run by done. erewrite hbind_run by done.
  destruct (mark_run h1 l s true false r Hla) as (m1 & Hrun1 & Hla1 & Hw1). cbn [Z.b2z] in Hrun1. fold p in Hrun1, Hw1.
  rewrite (hbind_run _ _ _ _ _ Hrun1).
  destruct (magic_run (set_bytes m1 h1) l (Blk s false) r Hla1) as (m2 & Hrun2 & Hla2 & So2). fold p in Hrun2, So2.
  rewrite (hbind_run _ _ _ _ _ Hrun2). cbn [hp_bytes set_bytes] in *. set (h2 := set_bytes m2 (set_bytes m1 h1)).
  erewrite hbind_run by done. change (lfree h2) with (lfree h).
  set (lf := if p <? lfree h then p else lfree h).
  assert (lf = first_free 0 (l ++ Blk s false :: r)) as Elf.
  { unfold lf. rewrite (ho_lfree _ _ Hok), !first_free_app by done. fold p. cbn [first_free b_used].
    case_decide as Hd; [destruct (Z.ltb_spec p (first_free 0 l)); [fold p in Hd; lia|done]|].
    pose proof (first_free_range (after p (Blk s true)) r Hsr). unfold after in *. cbn [b_size] in *.
    by destruct (Z.ltb_spec p (first_free (p + 12 + s) r)); [|lia]. }
  set (h3 := set_lfree lf h2).
  rewrite (hbind_run _ _ _ tt h3) by (unfold h3, lf; change (lfree h) with (lfree h2); destruct (p <? lfree h2); [done|by destruct h2]).
  pose proof (laid_block _ _ _ _ _ Hla2) as (_ & _ & _ & Hh2 & _). fold p in Hh2.
  erewrite hbind_run by (apply (get_next_run h3); exact Hh2). cbn [h_next block_hdr]. erewrite hbind_run by done.
  erewrite hbind_run by done. set (u := u32 _). set (h4 := set_used_mem u h3).
  destruct (plug_holes_run h4 l (Blk s false) r Hla2 eq_refl Elf) as (m3 & Hrun3 & Hla3 & So3). fold p in Hrun3.
  rewrite (hbind_run _ _ _ _ _ Hrun3). eexists. split; [reflexivity|]. split; [|split; [done|split; [done|]]].
  - split; cbn; try apply Hok; try done.
    + rewrite Elf. symmetry. apply first_free_coalesce; [|done]. apply Forall_app. split; [done|]. by apply Forall_cons.
    + by apply sep_coalesce, Hok.
    + rewrite used_total_coalesce. unfold u. cbn. pose proof (ho_used _ _ Hok) as Hu. rewrite used_total_app in Hu. cbn in Hu.
      pose proof (used_total_range 0 _ Hsz) as Hr. rewrite used_total_app, (la_end _ _ _ Hla) in Hr. cbn in Hr.
      pose proof (used_total_range 0 l Hsl). pose proof (used_total_range 0 r Hsr). unfold after. cbn.
      rewrite Hu, wrap_small by lia. lia.
    + unfold u. cbn. pose proof (ho_used _ _ Hok) as Hu. pose proof (ho_max _ _ Hok). rewrite used_total_app in Hu. cbn in Hu.
      pose proof (used_total_range 0 _ Hsz) as Hr. rewrite used_total_app, (la_end _ _ _ Hla) in Hr. cbn in Hr.
      pose proof (used_total_range 0 l Hsl). pose proof (used_total_range 0 r Hsr). unfold after. cbn.
      rewrite wrap_small by lia. lia.
  - intros a Ha. cbn. rewrite So3 by done. cbn. assert (~ (p <= a < p + 12)) as Hn by (by eapply held_clear).
    rewrite So2 by done. by rewrite (wr_same _ _ _ _ Hw1).
Qed.

(** ** Splitting a block *)
Lemma new_header_run h p q v w : hdr (hp_bytes h) p v -> hdr (hp_bytes h) q w -> present q (q + 12) (hp_bytes h) ->
  0 <= p < 2 ^ 32 -> 0 <= h_next v < 2 ^ 32 -> p + 12 <= q ->
  exists m', new_header p q h = Some (tt, set_bytes m' h) /\ wrote q (Hdr HEAP_MAGIC 0 (h_next v) p) (hp_bytes h) m'.
Proof.
  intros Hv Hw Hp Hpr Hn Hpq. unfold new_header.
  destruct (set_magic_run h q w Hw Hp HEAP_MAGIC) as (m1 & Hrun1 & Hw1); [done|]. rewrite (hbind_run _ _ _ _ _ Hrun1).
  destruct (set_used_run (set_bytes m1 h) q _ (wr_hdr _ _ _ _ Hw1)) with (x := 0) as (m2 & Hrun2 & Hw2); [|done|].
  { by eapply present_keeps; [apply Hw1|]. }
  rewrite (hbind_run _ _ _ _ _ Hrun2). cbn [hp_bytes set_bytes h_magic h_used h_next h_prev] in *.
  pose proof (wrote_trans _ _ _ _ _ _ Hw1 Hw2) as Hw12.
  assert (hdr m2 p v) as Hv2 by (eapply hdr_ext; [intros a Ha; apply (wr_same _ _ _ _ Hw12); lia|done]).
  erewrite hbind_run by (apply get_next_run; exact Hv2).
  destruct (set_next_run (set_bytes m2 (set_bytes m1 h)) q _ (wr_hdr _ _ _ _ Hw2)) with (x := h_next v) as (m3 & Hrun3 & Hw3); [|done|].
  { by eapply present_keeps; [apply Hw12|]. }
  rewrite (hbind_run _ _ _ _ _ Hrun3). cbn [hp_bytes set_bytes h_magic h_used h_next h_prev] in *.
  pose proof (wrote_trans _ _ _ _ _ _ Hw12 Hw3) as Hw13.
  destruct (set_prev_run (set_bytes m3 (set_bytes m2 (set_bytes m1 h))) q _ (wr_hdr _ _ _ _ Hw3)) with (x := p) as (m4 & Hrun4 & Hw4); [|done|].
  { by eapply present_keeps; [apply Hw13|]. }
  exists m4. split; [exact Hrun4|]. exact (wrote_trans _ _ _ _ _ _ Hw13 Hw4).
Qed.

(** The rest of the layout behind a new block at [q]. *)
Lemma link_header_run h q n x y r : hdr (hp_bytes h) q (Hdr HEAP_MAGIC 0 n x) -> mem_size_aligned h + 12 = endof n r ->
  layout (hp_bytes h) n y r -> present n (n + 12) (hp_bytes h) -> Forall sized r -> 0 <= q < 2 ^ 32 ->
  exists m', link_header q h = Some (tt, set_bytes m' h) /\ layout m' n q r /\ same_outside n (n + 12) (hp_bytes h) m' /\
    keeps_bytes (hp_bytes h) m'.
Proof.
  intros Hh He Hy Hp Hs Hq.
  unfold link_header. erewrite hbind_run by done. erewrite hbind_run by (by apply get_next_run). cbn [h_next].
  unfold SIZEOF_STRUCT_MEM. rewrite He. destruct (Z.eqb_spec n (endof n r)) as [E|Hne]; cbn [negb].
  - destruct r as [|b r]; [|pose proof (endof_ge n (b :: r) Hs); cbn [length] in *; lia].
    exists (hp_bytes h). rewrite set_bytes_id. split; [done|]. split; [exact Hy|]. by split; intros a.
  - destruct (relink_run h n y q r Hy Hp Hs Hq) as (m' & Hrun & H1 & H2 & H3). by exists m'.
Qed.

Lemma split_laid m m1 m2 m3 e l s u u' n r : laid m e (l ++ Blk s u :: r) -> 0 < n -> n mod 4 = 0 -> n + 12 < s ->
  let p := endof 0 l in let p2 := p + 12 + n in let q := p + 12 + s in
  wrote p2 (Hdr HEAP_MAGIC 0 q p) m m1 -> wrote p (Hdr HEAP_MAGIC (Z.b2z u') p2 (lastof 0 0 l)) m1 m2 ->
  layout m3 q p2 r -> same_outside q (q + 12) m2 m3 -> keeps_bytes m2 m3 ->
  laid m3 e (l ++ Blk n u' :: Blk (s - n - 12) false :: r) /\
  (forall a, held 0 (l ++ Blk n true :: Blk (s - n - 12) false :: r) a -> m3 !! a = m !! a).
Proof.
  intros [Hl Hs He Hp Hm] Hn Hn4 Hns p p2 q [Hh1 So1 Hk1] [Hh2 So2 Hk2] Hr So3 Hk3.
  apply Forall_sized_app in Hs as (Hsl & [Hb Hb4] & Hs). cbn [b_size] in *. apply layout_app in Hl as [Ht _].
  assert (after (after p (Blk n u')) (Blk (s - n - 12) false) = q) as Eq by (unfold after, q; cbn; lia).
  assert (after p (Blk n u') = p2) as Ep2 by done.
  split; [split|].
  - apply layout_app. fold p. cbn [layout]. rewrite Eq, Ep2. split; [|split; [|split; [|exact Hr]]].
    + eapply tiles_ext; [done| |exact Ht]. intros a Ha. fold p in Ha. rewrite So3, So2, So1 by (unfold p2, q in *; lia). done.
    + eapply hdr_ext; [|exact Hh2]. intros a Ha. apply So3. unfold q in *. lia.
    + unfold block_hdr. cbn [b_used Z.b2z]. rewrite <- Ep2, Eq.
      eapply hdr_ext; [|exact Hh1]. rewrite Ep2. intros a Ha. rewrite So3, So2 by (unfold q, p2 in *; lia). done.
  - apply Forall_app. split; [done|]. repeat (apply Forall_cons; split); [done| |done]. split; cbn; [lia|].
    replace (s - n - 12) with (s - (n + 12)) by lia. rewrite Zminus_mod, Hb4, (Z.add_mod n), Hn4 by lia. done.
  - rewrite endof_app in He |- *. cbn [endof] in *. fold p in He |- *. by rewrite Eq.
  - intros a Ha. by apply Hk3, Hk2, Hk1, Hp.
  - done.
  - intros a Ha. rewrite held_app in Ha. cbn [held] in Ha. fold p in Ha. unfold after in Ha. cbn in Ha.
    assert (a < p \/ p + 12 <= a < p2 \/ q + 12 <= a) as Hcase.
    { unfold p2, q. destruct Ha as [Ha|[[_ Ha]|[[? _]|Ha]]]; [|by right; left|done|].
      - apply held_range in Ha; [fold p in Ha; left; lia|done].
      - apply held_range in Ha; [right; right; lia|done]. }
    rewrite So3, So2, So1 by (unfold p2, q in *; lia). done.
Qed.

Lemma cut_block_run h l s u n r mark : laid (hp_bytes h) (heap_end h) (l ++ Blk s u :: r) ->
  heap_end h = mem_size_aligned h + 12 -> 0 < n -> n mod 4 = 0 -> n + 12 < s ->
  exists m', cut_block (endof 0 l) (endof 0 l + 12 + n) mark h = Some (tt, set_bytes m' h) /\
    laid m' (heap_end h) (l ++ Blk n (u || mark) :: Blk (s - n - 12) false :: r) /\
    (forall a, held 0 (l ++ Blk n true :: Blk (s - n - 12) false :: r) a -> m' !! a = hp_bytes h !! a).
Proof.
  intros Hla Hsize Hn Hn4 Hns. pose proof (laid_block _ _ _ _ _ Hla) as (Hp & Hq & _ & Hh & _ & He).
  pose proof (la_present _ _ _ Hla) as Hpr. pose proof (la_max _ _ _ Hla) as Hmax.
  pose proof (la_sized _ _ _ Hla) as Hs. apply Forall_sized_app in Hs as (Hsl & [Hsp _] & Hsr).
  pose proof (endof_ge (after (endof 0 l) (Blk s u)) r Hsr) as Hrange.
  set (p := endof 0 l) in *. set (p2 := p + 12 + n). unfold after in *. cbn [b_size] in *. set (q := p + 12 + s) in *.
  destruct (hdr_present (hp_bytes h) p2) as [w Hw]; [eapply present_sub; [| |exact Hpr]; lia|].
  unfold cut_block. destruct (new_header_run h p p2 _ w Hh Hw) as (m1 & Hrun1 & Hw1); [|lia|cbn; unfold after; cbn; lia|lia|].
  { eapply present_sub; [| |exact Hpr]; lia. }
  cbn [h_next block_hdr] in Hw1. unfold after in Hw1. cbn [b_size] in Hw1. rewrite (hbind_run _ _ _ _ _ Hrun1).
  assert (hdr m1 p (block_hdr p (Blk s u) (lastof 0 0 l))) as Hh1.
  { eapply hdr_ext; [|exact Hh]. intros a Ha. apply (wr_same _ _ _ _ Hw1). lia. }
  destruct (set_next_run (set_bytes m1 h) p _ Hh1) with (x := p2) as (m2 & Hrun2 & Hw2); [|lia|].
  { eapply present_keeps; [apply Hw1|]. eapply present_sub; [| |exact Hpr]; lia. }
  rewrite (hbind_run _ _ _ _ _ Hrun2). cbn [hp_bytes set_bytes h_magic h_used h_prev block_hdr b_used] in *.
  assert (exists m2', (if mark then set_used p 1 else mret tt) (set_bytes m2 (set_bytes m1 h)) = Some (tt, set_bytes m2' h) /\
    wrote p (Hdr HEAP_MAGIC (Z.b2z (u || mark)) p2 (lastof 0 0 l)) m1 m2') as (m2' & Hrun2' & Hw2').
  { destruct mark; [|exists m2; split; [done|by rewrite orb_false_r]].
    destruct (set_used_run (set_bytes m2 (set_bytes m1 h)) p _ (wr_hdr _ _ _ _ Hw2)) with (x := 1) as (m & Hrun & Hwm); [|done|].
    { eapply present_keeps; [apply Hw2|]. eapply present_keeps; [apply Hw1|]. eapply present_sub; [| |exact Hpr]; lia. }
    exists m. split; [done|]. rewrite orb_true_r. exact (wrote_trans _ _ _ _ _ _ Hw2 Hwm). }
  rewrite (hbind_run _ _ _ _ _ Hrun2').
  destruct (link_header_run (set_bytes m2' h) p2 q p p r) as (m3 & Hrun3 & Hl3 & So3 & Hk3).
  { eapply hdr_ext; [|apply Hw1]. intros a Ha. apply (wr_same _ _ _ _ Hw2'). lia. }
  { cbn. lia. }
  { eapply layout_ext; [done| |]; last first.
    - pose proof (la_layout _ _ _ Hla) as Hl. apply layout_app in Hl as [_ [_ Hl]]. exact Hl.
    - intros a Ha. unfold after in Ha. cbn in Ha. fold p q in Ha.
      cbn. by rewrite (wr_same _ _ _ _ Hw2'), (wr_same _ _ _ _ Hw1) by lia. }
  { eapply present_keeps; [apply Hw2'|]. eapply present_keeps; [apply Hw1|]. eapply present_sub; [| |exact Hpr]; lia. }
  { done. }
  { lia. }
  exists m3. split; [exact Hrun3|]. by apply (split_laid (hp_bytes h) m1 m2' m3 _ l s u (u || mark) n r).
Qed.

(** ** The search

    The loop looks at the blocks that start below [lim] (mem.c:306). *)
Fixpoint first_fit (p lim size : Z) (bs : list block) : option (list block * block * list block) :=
  match bs with
  | [] => None
  | b :: bs =>
      if (p <? lim) && negb (b_used b) && (size <=? b_size b) then Some ([], b, bs)
      else match first_fit (after p b) lim size bs with Some (l, c, r) => Some (b :: l, c, r) | None => None end
  end.

Lemma first_fit_beyond p lim size bs : Forall sized bs -> lim <= p -> first_fit p lim size bs = None.
Proof.
  revert p. induction bs as [|b bs IH]; intros p Hs Hp; cbn; [done|]. apply Forall_cons in Hs as [[Hb _] Hs].
  rewrite (proj2 (Z.ltb_ge _ _)) by lia. cbn. rewrite IH; [done|done|]. unfold after. lia.
Qed.

(** What it finds. *)
Lemma first_fit_Some p lim size bs l b r : first_fit p lim size bs = Some (l, b, r) ->
  bs = l ++ b :: r /\ b_used b = false /\ size <= b_size b /\ endof p l < lim.
Proof.
  revert p l. induction bs as [|c bs IH]; intros p l; cbn; [done|].
  destruct ((p <? lim) && negb (b_used c) && (size <=? b_size c)) eqn:E.
  - intros [= <- <- <-]. rewrite !andb_true_iff, negb_true_iff in E. cbn. split; [done|]. split; [apply E|]. lia.
  - destruct (first_fit (after p c) lim size bs) as [[[l' b'] r']|] eqn:Ef; [|done]. intros [= <- <- <-].
    destruct (IH _ _ Ef) as (-> & H1 & H2 & H3). by cbn.
Qed.

Lemma first_fit_used p lim size l r : Forall (fun b => b_used b = true) l ->
  first_fit p lim size (l ++ r) =
  match first_fit (endof p l) lim size r with Some (l', b, r') => Some (l ++ l', b, r') | None => None end.
Proof.
  revert p. induction l as [|b l IH]; intros p Hl; cbn [app endof].
  { destruct (first_fit p lim size r) as [[[]]|]; done. }
  apply Forall_cons in Hl as [Hb Hl]. cbn [first_fit]. rewrite Hb, andb_false_r. cbn [andb]. rewrite IH by done.
  by destruct (first_fit _ _ _ r) as [[[]]|].
Qed.

(** The block is free and has [n] bytes. *)
Definition fits (n : Z) (b : block) : Prop := b_used b = false /\ n <= b_size b.

Lemma fits_false p lim n b : p < lim -> ~ fits n b -> (p <? lim) && negb (b_used b) && (n <=? b_size b) = false.
Proof. intros Hp Hb. unfold fits in Hb. destruct (b_used b), (Z.leb_spec n (b_size b)); rewrite ?andb_false_r; try done. naive_solver. Qed.

Lemma first_fit_none p lim n bs : Forall (fun b => ~ fits n b) bs -> first_fit p lim n bs = None.
Proof.
  intros Hbs. revert p. induction Hbs as [|b bs Hb _ IH]; intros p; cbn [first_fit]; [done|].
  destruct (Z.lt_ge_cases p lim) as [Hp|Hp]; [rewrite fits_false by done|rewrite (proj2 (Z.ltb_ge _ _)) by done; cbn [andb]]; by rewrite IH.
Qed.

(** The bound of the search hides one case: a last block of exactly the
    size. *)
Lemma first_fit_lowest p n l b r : Forall sized (l ++ b :: r) -> Forall (fun b => ~ fits n b) l -> fits n b ->
  first_fit p (endof p (l ++ b :: r) - 12 - n) n (l ++ b :: r) =
    if decide (r = [] /\ b_size b = n) then None else Some (l, b, r).
Proof.
  intros Hs Hl [Hu Hn]. revert p Hs. induction Hl as [|c l Hc _ IH]; intros p Hs; cbn [app endof first_fit].
  - apply Forall_cons in Hs as [[Hb _] Hs]. rewrite Hu, (proj2 (Z.leb_le _ _)), andb_true_r by done. cbn [negb]. rewrite andb_true_r.
    pose proof (endof_ge (after p b) _ Hs) as Hlen. unfold after in Hlen |- *. case_decide as Hd.
    + destruct Hd as [-> Hd]. cbn [endof]. rewrite (proj2 (Z.ltb_ge _ _)) by lia. by cbn.
    + rewrite (proj2 (Z.ltb_lt _ _)); [done|]. destruct r as [|d r]; [cbn [endof]; destruct (decide (b_size b = n)); [naive_solver|lia]|].
      cbn [length] in Hlen. lia.
  - apply Forall_cons in Hs as [[Hb _] Hs]. rewrite IH by done.
    destruct ((p <? _) && _ && _) eqn:E; [|by case_decide]. exfalso. apply Hc. rewrite !andb_true_iff, negb_true_iff in E.
    split; [apply E|]. apply Z.leb_le, E.
Qed.

Lemma fit_loop_run fuel h l r size : laid (hp_bytes h) (heap_end h) (l ++ r) -> heap_end h = mem_size_aligned h + 12 ->
  0 <= size <= mem_size_aligned h -> (length r < fuel)%nat ->
  fit_loop fuel (endof 0 l) size h =
    Some ((fun x => endof 0 (l ++ x.1.1)) <$> first_fit (endof 0 l) (mem_size_aligned h - size) size r, h).
Proof.
  intros Hla Hsize Hn. revert l r Hla. induction fuel as [|fuel IH]; intros l r Hla Hf; [lia|]. cbn [fit_loop].
  pose proof (la_max _ _ _ Hla) as Hmax. erewrite hbind_run by done. rewrite wrap_small by lia.
  pose proof (la_sized _ _ _ Hla) as Hs. pose proof (proj1 (Forall_app _ _ _) Hs) as [_ Hsr].
  destruct (Z.ltb_spec (endof 0 l) (mem_size_aligned h - size)) as [Hlt|Hge].
  2:{ rewrite first_fit_beyond by done. done. }
  destruct r as [|b r].
  { pose proof (la_end _ _ _ Hla) as He. rewrite app_nil_r in He. lia. }
  pose proof (laid_block _ _ _ _ _ Hla) as (Hp & Hq & Hb & Hh & _ & He).
  erewrite hbind_run by (by apply get_used_run). erewrite hbind_run by (by apply get_next_run).
  cbn [h_used h_next block_hdr first_fit]. rewrite (proj2 (Z.ltb_lt _ _)) by done. cbn [andb].
  assert (u32 (after (endof 0 l) b - (endof 0 l + SIZEOF_STRUCT_MEM)) = b_size b) as ->.
  { unfold after, SIZEOF_STRUCT_MEM in *. rewrite wrap_small; lia. }
  assert ((Z.b2z (b_used b) =? 0) = negb (b_used b)) as -> by (by destruct (b_used b)).
  destruct (negb (b_used b) && (size <=? b_size b)); [cbn; by rewrite app_nil_r|].
  pose proof (IH (l ++ [b]) r) as IHr. rewrite endof_app, <- app_assoc in IHr. cbn [endof app] in IHr.
  rewrite IHr; [|done|cbn in Hf; lia]. f_equal. f_equal. destruct (first_fit _ _ _ r) as [[[l' c] r']|]; [|done].
  cbn. by rewrite <- app_assoc.
Qed.

(** ** Allocation *)
Definition counted (n : Z) (h : heap) : heap :=
  let u := u32 (used_mem h + n) in set_max_mem (Z.max (max_mem h) u) (set_used_mem u h).

Lemma count_used_run n h : count_used n h = Some (tt, counted n h).
Proof.
  unfold count_used, counted. do 4 (erewrite hbind_run by done). cbn.
  destruct (Z.ltb_spec (max_mem h) (u32 (used_mem h + n))); unfold hput, mret, H_ret; do 2 f_equal.
  - by rewrite Z.max_r by lia.
  - rewrite Z.max_l by lia. by destruct h.
Qed.

(** The blocks after taking [n] bytes of a free block of [s]. *)
Definition carved_size (s n : Z) : Z := if n + 24 <=? s then n else s.
Definition carved (l : list block) (s n : Z) (r : list block) : list block :=
  if n + 24 <=? s then l ++ Blk n true :: Blk (s - n - 12) false :: r else l ++ Blk s true :: r.

Lemma malloc_take_run h l s n r : laid (hp_bytes h) (heap_end h) (l ++ Blk s false :: r) ->
  heap_end h = mem_size_aligned h + 12 -> 12 <= n <= s -> n mod 4 = 0 ->
  exists m', malloc_take (endof 0 l) n h = Some (tt, set_bytes m' (counted (12 + carved_size s n) h)) /\
    laid m' (heap_end h) (carved l s n r) /\
    (forall a, held 0 (l ++ Blk s false :: r) a -> m' !! a = hp_bytes h !! a).
Proof.
  intros Hla Hsize Hn Hn4. pose proof (laid_block _ _ _ _ _ Hla) as (Hp & Hq & _ & Hh & _).
  pose proof (la_max _ _ _ Hla) as Hmax. set (p := endof 0 l) in *. unfold after in Hq. cbn [b_size] in Hq.
  unfold malloc_take, carved, carved_size. erewrite hbind_run by (by apply get_next_run). cbn [h_next block_hdr].
  unfold SIZEOF_STRUCT_MEM. change MIN_SIZE_ALIGNED with 12.
  replace (u32 (n + 12 + 12)) with (n + 24) by (rewrite wrap_small; lia).
  replace (u32 (after p (Blk s false) - (p + 12))) with s by (unfold after; cbn; rewrite wrap_small; lia).
  destruct (Z.leb_spec (n + 24) s) as [Hcut|Hfit].
  - destruct (cut_block_run h l s false n r true Hla Hsize) as (m1 & Hrun1 & Hla1 & So1); [lia|done|lia|]. fold p in Hrun1.
    rewrite orb_true_r in Hla1.
    destruct (magic_run (counted (n + 12) (set_bytes m1 h)) l (Blk n true) _ Hla1) as (m2 & Hrun2 & Hla2 & So2). fold p in Hrun2, So2.
    exists m2. split; [|split; [exact Hla2|]].
    + rewrite (hbind_run _ _ _ tt (counted (n + 12) (set_bytes m1 h))); [|by rewrite (hbind_run _ _ _ _ _ Hrun1), count_used_run].
      rewrite Hrun2. rewrite (Z.add_comm n 12). done.
    + intros a Ha. cbn in So2. assert (a < p \/ p + 12 + s + 12 <= a) as Hout.
      { pose proof (la_sized _ _ _ Hla) as Hs. apply Forall_sized_app in Hs as (Hsl & _ & Hsr). rewrite held_app in Ha. cbn in Ha.
        destruct Ha as [Ha|[[? _]|Ha]]; [apply held_range in Ha; [left; fold p in Ha; lia|done]|done|].
        apply held_range in Ha; [right; unfold after in Ha; cbn in Ha; fold p in Ha; lia|done]. }
      rewrite So2 by lia. apply So1. rewrite held_app in Ha |- *. cbn [held] in Ha |- *. destruct Ha as [|[[? _]|Ha]]; [by left|done|].
      right. right. right. unfold after in *. cbn [b_size] in *.
      by replace (endof 0 l + 12 + n + 12 + (s - n - 12)) with (endof 0 l + 12 + s) by lia.
  - destruct (mark_run h l s false true r Hla) as (m1 & Hrun1 & Hla1 & Hw1). cbn [Z.b2z] in Hrun1. fold p in Hrun1, Hw1.
    destruct (magic_run (counted (12 + s) (set_bytes m1 h)) l (Blk s true) r Hla1) as (m2 & Hrun2 & Hla2 & So2). fold p in Hrun2, So2.
    exists m2. split; [|split; [exact Hla2|]].
    + rewrite (hbind_run _ _ _ tt (counted (12 + s) (set_bytes m1 h))); [by rewrite Hrun2|].
      rewrite (hbind_run _ _ _ _ _ Hrun1). erewrite hbind_run by (apply (get_next_run (set_bytes m1 h)); apply Hw1).
      cbn [h_next block_hdr]. rewrite count_used_run. do 3 f_equal. unfold after. cbn. lia.
    + intros a Ha. pose proof (held_clear _ _ _ _ _ _ Hla Ha) as Hn'. fold p in Hn'. cbn in So2.
      by rewrite So2, (wr_same _ _ _ _ Hw1).
Qed.

Lemma lfree_loop_run fuel h l r : laid (hp_bytes h) (heap_end h) (l ++ r) -> lfree h = endof 0 l -> (length r < fuel)%nat ->
  lfree_loop fuel h = Some (tt, set_lfree (first_free (endof 0 l) r) h).
Proof.
  revert h l r. induction fuel as [|fuel IH]; intros h l r Hla Hlf Hf; [lia|]. cbn [lfree_loop].
  erewrite hbind_run by done. rewrite Hlf. destruct r as [|b r].
  - rewrite app_nil_r in Hla. pose proof (la_layout _ _ _ Hla) as Hl. rewrite <- (app_nil_r l) in Hl. apply layout_app in Hl as [_ [pv Hh]].
    erewrite hbind_run by (by apply get_used_run). erewrite hbind_run by done. cbn [h_used first_free].
    rewrite (la_end _ _ _ Hla), Z.eqb_refl. cbn. rewrite <- (la_end _ _ _ Hla), <- Hlf. by destruct h.
  - pose proof (laid_block _ _ _ _ _ Hla) as (Hp & Hq & Hb & Hh & _).
    erewrite hbind_run by (by apply get_used_run). erewrite hbind_run by done. cbn [h_used block_hdr first_free].
    destruct (Z.eqb_spec (endof 0 l) (heap_end h)) as [E|_]; [unfold after in *; lia|].
    destruct (b_used b) eqn:Eb; cbn; [|rewrite <- Hlf; by destruct h].
    erewrite hbind_run by (by apply get_next_run). erewrite hbind_run by done. cbn [h_next block_hdr].
    rewrite (IH (set_lfree (after (endof 0 l) b) h) (l ++ [b]) r); [|by rewrite <- app_assoc|by rewrite endof_app|cbn in Hf; lia].
    by rewrite endof_app.
Qed.

(** The size a request is rounded to. *)
Definition rounded (size : Z) : Z := u32 (RT_ALIGN size RT_ALIGN_SIZE).
Definition request (size : Z) : Z := if rounded size <? MIN_SIZE_ALIGNED then MIN_SIZE_ALIGNED else rounded size.

Lemma rounded_mod size : rounded size mod 4 = 0.
Proof.
  unfold rounded, wrap, RT_ALIGN. rewrite <- (Znumtheory.Zmod_div_mod 4 (2 ^ 32)) by (lia || by exists (2 ^ 30)).
  rewrite <- (land_3 (Z.land _ _)), <- Z.land_assoc. unfold RT_ALIGN_SIZE.
  change (Z.land (Z.lnot (4 - 1)) (4 - 1)) with 0. by rewrite Z.land_0_r.
Qed.
Lemma rounded_range size : 0 <= rounded size < 2 ^ 32.
Proof. apply wrap_range. lia. Qed.
Lemma request_mod size : request size mod 4 = 0.
Proof. unfold request. destruct (rounded size <? MIN_SIZE_ALIGNED); [done|apply rounded_mod]. Qed.

(** A request that does not wrap is rounded up to the next multiple of 4. *)
Lemma rounded_small size : 0 <= size -> size + 3 < 2 ^ 32 -> size <= rounded size < size + 4.
Proof.
  intros H1 H2. unfold rounded, RT_ALIGN, RT_ALIGN_SIZE. change (Z.lnot (4 - 1)) with (Z.lnot (Z.ones 2)).
  rewrite <- Z.ldiff_land, Z.ldiff_ones_r, Z.shiftr_div_pow2, Z.shiftl_mul_pow2 by lia. change (2 ^ 2) with 4.
  pose proof (Z.div_mod (size + 4 - 1) 4 ltac:(lia)). pose proof (Z.mod_pos_bound (size + 4 - 1) 4 ltac:(lia)).
  rewrite wrap_small; lia.
Qed.

Lemma first_free_split p bs : exists l r, bs = l ++ r /\ Forall (fun b => b_used b = true) l /\ first_free p bs = endof p l.
Proof.
  revert p. induction bs as [|b bs IH]; intros p; [by exists [], []|]. cbn. destruct (b_used b) eqn:E; [|by exists [], (b :: bs)].
  destruct (IH (after p b)) as (l & r & -> & Hl & Hf). exists (b :: l), r. split; [done|]. split; [by constructor|done].
Qed.

Lemma sep_carved l s n r : sep (l ++ Blk s false :: r) -> sep (carved l s n r).
Proof.
  intros Hs. apply sep_app in Hs as (Hl & Hr & Hap). unfold carved. destruct (n + 24 <=? s); apply sep_app.
  - split; [done|]. split; [|unfold apart in *; cbn; destruct (last l); [by rewrite orb_true_r|done]].
    cbn. split; [done|]. destruct r; [done|]. exact Hr.
  - split; [done|]. split; [|unfold apart in *; cbn; destruct (last l); [by rewrite orb_true_r|done]].
    destruct r; [done|]. cbn in Hr |- *. split; [done|apply Hr].
Qed.

Lemma used_total_carved l s n r : used_total (carved l s n r) = used_total (l ++ Blk s false :: r) + (12 + carved_size s n).
Proof. unfold carved, carved_size. destruct (n + 24 <=? s); rewrite !used_total_app; cbn; lia. Qed.

Lemma endof_length p bs : Forall sized bs -> 16 * Z.of_nat (length bs) <= endof p bs - p.
Proof. intros Hs. pose proof (endof_ge p bs Hs). lia. Qed.

(** The lowest free block after taking [b]. *)
Lemma first_free_carved l b n r : Forall sized l -> b_used b = false ->
  let p := first_free 0 (l ++ b :: r) in
  first_free 0 (carved l (b_size b) n r) =
    if endof 0 l =? p then first_free (endof 0 l) (carved [] (b_size b) n r) else p.
Proof.
  intros Hs Hb p. unfold p, carved. destruct (n + 24 <=? b_size b); rewrite !(first_free_app 0 l) by done; cbn [first_free app]; rewrite Hb;
    (case_decide as Hd; [destruct (Z.eqb_spec (endof 0 l) (first_free 0 l)); [lia|done]|by rewrite Z.eqb_refl]).
Qed.

(** The search from [lfree] is a search of the whole heap. *)
Lemma search_run bs h size : laid (hp_bytes h) (heap_end h) bs -> heap_end h = mem_size_aligned h + 12 -> 12 <= mem_size_aligned h ->
  lfree h = first_free 0 bs -> 0 <= size <= mem_size_aligned h ->
  fit_loop (heap_fuel h) (lfree h) size h =
    Some ((fun x => endof 0 x.1.1) <$> first_fit 0 (mem_size_aligned h - size) size bs, h).
Proof.
  intros Hla Hsize Hmin Hlf Hn. destruct (first_free_split 0 bs) as (l & r & -> & Hl & E). rewrite E in Hlf. rewrite Hlf.
  rewrite (fit_loop_run _ h l r size Hla Hsize Hn).
  - rewrite first_fit_used by done. destruct (first_fit _ _ _ r) as [[[]]|]; done.
  - pose proof (endof_length 0 _ (la_sized _ _ _ Hla)) as Hlen. rewrite (la_end _ _ _ Hla), length_app in Hlen. unfold heap_fuel. lia.
Qed.

(** The blocks in front of the carved one, and the carved one with the rest. *)
Lemma carved_app l s n r : carved l s n r = l ++ carved [] s n r.
Proof. unfold carved. by destruct (n + 24 <=? s). Qed.

Lemma unlocked bs h : heap_ok bs h -> set_heap_sem 1 (set_heap_sem 0 h) = h.
Proof. intros Hok. rewrite <- (ho_sem _ _ Hok). by destruct h. Qed.

(** The end of [rt_malloc]: the lowest free block is found again. *)
Lemma malloc_lfree_run h l s n r : laid (hp_bytes h) (heap_end h) (carved l s n r) -> heap_end h = mem_size_aligned h + 12 ->
  12 <= mem_size_aligned h -> Forall sized l -> lfree h = first_free 0 (l ++ Blk s false :: r) ->
  (lf ← hget lfree; if endof 0 l =? lf then lfree_loop (heap_fuel h) else mret tt) h =
    Some (tt, set_lfree (first_free 0 (carved l s n r)) h).
Proof.
  intros Hla Hsize Hmin Hsl Hlf. erewrite hbind_run by done. pose proof (first_free_carved l (Blk s false) n r Hsl eq_refl) as E.
  cbv zeta in E. rewrite <- Hlf in E. cbn [b_size] in E. rewrite E. destruct (Z.eqb_spec (endof 0 l) (lfree h)) as [El|_]; [|by destruct h].
  rewrite carved_app in Hla. apply lfree_loop_run; [done|done|].
  pose proof (endof_length 0 _ (la_sized _ _ _ Hla)) as Hlen. rewrite (la_end _ _ _ Hla), length_app in Hlen. unfold heap_fuel. lia.
Qed.

Lemma rt_malloc_run bs h size : heap_ok bs h -> 0 < size ->
  if mem_size_aligned h <? rounded size then rt_malloc size h = Some (RT_NULL, h)
  else match first_fit 0 (mem_size_aligned h - request size) (request size) bs with
       | None => rt_malloc size h = Some (RT_NULL, h)
       | Some (l, b, r) => exists h', rt_malloc size h = Some (user h (endof 0 l), h') /\
           heap_ok (carved l (b_size b) (request size) r) h' /\ heap_same h h' /\
           max_mem h' = Z.max (max_mem h) (used_mem h') /\
           (forall a, held 0 bs a -> hp_bytes h' !! a = hp_bytes h !! a)
       end.
Proof.
  intros Hok Hpos. pose proof (ho_laid _ _ Hok) as Hla. pose proof (ho_size _ _ Hok) as Hsize. pose proof (ho_min _ _ Hok) as Hmin.
  pose proof (rounded_range size) as Hr. pose proof (request_mod size) as Hn4. pose proof (la_max _ _ _ Hla) as Hmax.
  destruct (ho_base _ _ Hok) as (Hb1 & Hb2 & Hb3).
  unfold rt_malloc. destruct (Z.eqb_spec size 0) as [|_]; [lia|]. rewrite (hbind_run _ _ _ _ _ (in_thread_run _ _ Hok)). cbv zeta.
  erewrite hbind_run by done. fold (rounded size). fold (request size). destruct (Z.ltb_spec (mem_size_aligned h) (rounded size)); [done|].
  set (n := request size) in *.
  assert (12 <= n <= mem_size_aligned h) as Hn.
  { unfold n, request. change MIN_SIZE_ALIGNED with 12. destruct (Z.ltb_spec (rounded size) 12); lia. }
  rewrite (hbind_run _ _ _ _ _ (heap_lock_run _ _ Hok)). set (h1 := set_heap_sem 0 h).
  erewrite hbind_run by done. erewrite hbind_run by done.
  rewrite (hbind_run _ _ _ _ _ (search_run bs h1 n Hla Hsize Hmin (ho_lfree _ _ Hok) ltac:(cbn; lia))). cbn [mem_size_aligned h1 set_heap_sem].
  destruct (first_fit 0 (mem_size_aligned h - n) n bs) as [[[l b] r]|] eqn:Ef; cbn [fmap option_fmap option_map fst].
  2:{ unfold heap_unlock. erewrite hbind_run by (by erewrite hbind_run by done). exact (f_equal (fun x => Some (RT_NULL, x)) (unlocked _ _ Hok)). }
  destruct (first_fit_Some _ _ _ _ _ _ _ Ef) as (-> & Hbf & Hbn & Hlim). destruct b as [s u]. cbn [b_used b_size] in *. subst u.
  pose proof (la_sized _ _ _ Hla) as Hsz. pose proof Hsz as Hsz'. apply Forall_sized_app in Hsz' as (Hsl & _ & Hsr).
  destruct (malloc_take_run h1 l s n r Hla Hsize) as (m' & Hrun & Hla' & So); [lia|done|]. rewrite (hbind_run _ _ _ _ _ Hrun).
  set (h2 := set_bytes m' (counted (12 + carved_size s n) h1)).
  pose proof (malloc_lfree_run h2 l s n r Hla' Hsize Hmin Hsl (ho_lfree _ _ Hok)) as Hlf.
  set (lf := first_free 0 (carved l s n r)) in *. set (h3 := set_lfree lf h2).
  match goal with |- exists _, (hget lfree ≫= fun lf' => (if _ then _ else _) ≫= ?k) h2 = _ /\ _ =>
    assert ((hget lfree ≫= fun lf' => (if endof 0 l =? lf' then lfree_loop (heap_fuel h1) else mret tt) ≫= k) h2 = k tt h3) as -> end.
  { erewrite hbind_run by done. erewrite hbind_run in Hlf by done. by rewrite (hbind_run _ _ _ _ _ Hlf). }
  pose proof (laid_block _ _ _ _ _ Hla) as (Hp & Hq & _). unfold after in Hq. cbn [b_size] in Hq.
  erewrite hbind_run by (unfold heap_unlock; by erewrite hbind_run by done). erewrite hbind_run by done.
  unfold SIZEOF_STRUCT_MEM. cbn [heap_end set_heap_sem set_lfree h3 h2 set_bytes counted h1 set_max_mem set_used_mem].
  rewrite (proj2 (Z.leb_le (endof 0 l + 12 + n) (heap_end h))) by lia. erewrite hbind_run by done. erewrite hbind_run by done.
  cbn [heap_ptr set_heap_sem set_lfree h3 h2 set_bytes counted h1 set_max_mem set_used_mem].
  pose proof (endof_mod 0 l Hsl eq_refl) as Hp4. pose proof (user_aligned _ _ _ Hok Hp4) as Hal.
  assert ((heap_ptr h + endof 0 l + 12) mod RT_ALIGN_SIZE = 0) as -> by exact Hal. erewrite hbind_run by done. rewrite land_3.
  rewrite Z.add_mod, Hb2, Hp4 by lia. erewrite hbind_run by done. eexists. split; [reflexivity|].
  pose proof (used_total_carved l s n r) as Hu. rewrite <- (ho_used _ _ Hok) in Hu.
  pose proof (used_total_range 0 _ (la_sized _ _ _ Hla')) as Hur. rewrite (la_end _ _ _ Hla') in Hur.
  pose proof (used_total_range 0 _ Hsz) as Hur0. rewrite <- (ho_used _ _ Hok) in Hur0. change (heap_end h1) with (heap_end h) in Hur.
  assert (u32 (used_mem h + (12 + carved_size s n)) = used_total (carved l s n r)) as Eu by (rewrite wrap_small; lia).
  split; [split; cbn; try apply Hok; try done|split; [done|split; [done|exact So]]].
  - apply sep_carved, Hok.
  - rewrite Eu. lia.
Qed.

(** ** The used blocks *)
Fixpoint block_at (p : Z) (bs : list block) (q s : Z) : Prop :=
  match bs with [] => False | b :: bs => (b_used b = true /\ q = p /\ s = b_size b) \/ block_at (after p b) bs q s end.

Lemma block_at_app p l r q s : block_at p (l ++ r) q s <-> block_at p l q s \/ block_at (endof p l) r q s.
Proof. revert p. induction l as [|b l IH]; intros p; cbn; [tauto|]. rewrite IH. tauto. Qed.
Lemma block_at_range p bs q s : Forall sized bs -> block_at p bs q s -> p <= q /\ 4 <= s /\ q + 12 + s <= endof p bs.
Proof.
  revert p. induction bs as [|b bs IH]; intros p Hs; cbn; [done|]. apply Forall_cons in Hs as [[Hb Hb4] Hs].
  pose proof (endof_ge (after p b) bs Hs). pose proof (Z.div_mod (b_size b) 4 ltac:(lia)). unfold after in *.
  intros [(_ & -> & ->)|Ha]; [lia|]. specialize (IH _ Hs Ha). lia.
Qed.
Lemma block_at_split p bs q s : block_at p bs q s -> exists l r, bs = l ++ Blk s true :: r /\ q = endof p l.
Proof.
  revert p. induction bs as [|b bs IH]; intros p; cbn; [done|]. intros [(Hu & -> & ->)|Ha].
  - exists [], bs. destruct b. cbn in *. by subst.
  - destruct (IH _ Ha) as (l & r & -> & ->). by exists (b :: l), r.
Qed.
Lemma block_at_held p bs q s a : block_at p bs q s -> q + 12 <= a < q + 12 + s -> held p bs a.
Proof.
  revert p. induction bs as [|b bs IH]; intros p; cbn; [done|]. intros [(Hu & -> & ->)|Ha] Hr; [left; by unfold after|right; eauto].
Qed.

(** Two used blocks are the same or do not overlap. *)
Lemma block_at_apart p bs q s q' s' : Forall sized bs -> block_at p bs q s -> block_at p bs q' s' ->
  (q = q' /\ s = s') \/ q + 12 + s <= q' \/ q' + 12 + s' <= q.
Proof.
  revert p. induction bs as [|b bs IH]; intros p Hs; cbn; [done|]. apply Forall_cons in Hs as [Hb Hs].
  intros [(Hu & -> & ->)|H1] [(Hu' & -> & ->)|H2]; [by left| | |by eapply IH].
  - apply block_at_range in H2; [unfold after in H2; lia|done].
  - apply block_at_range in H1; [unfold after in H1; lia|done].
Qed.

Lemma block_at_carved l s n r q t : block_at 0 (carved l s n r) q t <->
  block_at 0 (l ++ Blk s false :: r) q t \/ (q = endof 0 l /\ t = carved_size s n).
Proof.
  unfold carved, carved_size. destruct (n + 24 <=? s); rewrite !block_at_app; cbn [block_at b_used b_size]; unfold after; cbn [b_size].
  - replace (endof 0 l + 12 + n + 12 + (s - n - 12)) with (endof 0 l + 12 + s) by lia. naive_solver.
  - naive_solver.
Qed.

Lemma block_at_merge_next p b r q s : b_used b = false ->
  block_at p ((merge_next b r).1 :: (merge_next b r).2) q s <-> block_at p (b :: r) q s.
Proof.
  intros Hb. destruct r as [|n r]; cbn [merge_next fst snd]; [done|]. destruct (b_used n) eqn:En; cbn [fst snd]; [done|].
  cbn. rewrite Hb, En. unfold after. cbn.
  replace (p + 12 + (b_size b + 12 + b_size n)) with (p + 12 + b_size b + 12 + b_size n) by lia. naive_solver.
Qed.
Lemma block_at_coalesce l b r q s : b_used b = false ->
  block_at 0 (coalesce l b r) q s <-> block_at 0 (l ++ b :: r) q s.
Proof.
  intros Hb. unfold coalesce. pose proof (merge_next_used b r) as Hu. rewrite Hb in Hu.
  rewrite (block_at_app 0 l (b :: r)). rewrite <- (block_at_merge_next (endof 0 l) b r) by done.
  set (x := (merge_next b r).1) in *. set (y := (merge_next b r).2) in *.
  destruct l as [|a l _] using rev_ind; [cbn; tauto|]. rewrite merge_prev_snoc. destruct (b_used a) eqn:Ea.
  - by rewrite <- block_at_app, <- !app_assoc.
  - rewrite <- !app_assoc, !block_at_app, endof_app. cbn. rewrite Ea, Hu. unfold after. cbn.
    replace (endof 0 l + 12 + (b_size a + 12 + b_size x)) with (endof 0 l + 12 + b_size a + 12 + b_size x) by lia. naive_solver.
Qed.

(** ** Writing to used blocks *)
Lemma layout_held m m' p prev bs : Forall sized bs ->
  (forall a, p <= a -> ~ held p bs a -> m' !! a = m !! a) -> layout m p prev bs -> layout m' p prev bs.
Proof.
  revert p prev. induction bs as [|b bs IH]; intros p prev Hs Hm; cbn [layout].
  - intros [pv Hh]. exists pv. eapply hdr_ext; [|done]. intros a Ha. apply Hm; [lia|]. intros Hin. exact Hin.
  - apply Forall_cons in Hs as [[Hb _] Hs]. intros [H1 H2]. split.
    + eapply hdr_ext; [|exact H1]. intros a Ha. apply Hm; [lia|]. cbn [held]. intros [[_ Hin]|Hin]; [lia|].
      apply held_range in Hin; [unfold after in Hin; lia|done].
    + apply IH; [done| |done]. intros a Ha Hn. apply Hm; [unfold after in Ha; lia|]. intros [[_ Hin]|Hin]; [lia|done].
Qed.

Lemma heap_ok_write bs h m' : heap_ok bs h -> (forall a, ~ held 0 bs a -> m' !! a = hp_bytes h !! a) ->
  keeps_bytes (hp_bytes h) m' -> heap_ok bs (set_bytes m' h).
Proof.
  intros Hok Hs Hk. destruct Hok as [[H1 H2 H3 H4 H5] ? ? ? ? ? ? ? ? ?]. split; try done. split; try done.
  - eapply layout_held; [done| |exact H1]. intros a _. apply Hs.
  - by eapply present_keeps.
Qed.

Lemma st1_run h a v : is_byte (hp_bytes h) a ->
  st 1 a v h = Some (tt, set_bytes (<[a := v mod 256]> (hp_bytes h)) h).
Proof. intros (b & Hb & _). unfold st. cbn. by rewrite Hb. Qed.
Lemma keeps_insert m a v : keeps_bytes m (<[a := v mod 256]> m).
Proof.
  intros c Hc. unfold is_byte in *. destruct (decide (c = a)) as [->|]; [rewrite lookup_insert_eq|by rewrite lookup_insert_ne].
  eexists. split; [done|]. apply Z.mod_pos_bound. lia.
Qed.

Lemma memset_run n a v h : present a (a + Z.of_nat n) (hp_bytes h) ->
  exists m', memset n a v h = Some (tt, set_bytes m' h) /\ same_outside a (a + Z.of_nat n) (hp_bytes h) m' /\
    keeps_bytes (hp_bytes h) m' /\ forall i, a <= i < a + Z.of_nat n -> m' !! i = Some (v mod 256).
Proof.
  revert a h. induction n as [|n IH]; intros a h Hp; cbn [memset].
  { exists (hp_bytes h). rewrite set_bytes_id. split; [done|]. split; [by intros i|]. split; [by intros i|]. intros i Hi. lia. }
  erewrite hbind_run by (apply st1_run, Hp; lia). set (m1 := <[a := v mod 256]> (hp_bytes h)).
  destruct (IH (a + 1) (set_bytes m1 h)) as (m' & Hrun & So & Hk & Hv).
  { eapply present_keeps; [apply keeps_insert|]. eapply present_sub; [| |exact Hp]; lia. }
  cbn [hp_bytes set_bytes] in *. exists m'. split; [exact Hrun|]. split; [|split].
  - intros i Hi. rewrite So by lia. apply lookup_insert_ne. lia.
  - intros i Hi. by apply Hk, keeps_insert.
  - intros i Hi. destruct (decide (i = a)) as [->|]; [|apply Hv; lia]. rewrite So by lia. apply lookup_insert_eq.
Qed.

Lemma memcpy_run n dst src h : present dst (dst + Z.of_nat n) (hp_bytes h) -> present src (src + Z.of_nat n) (hp_bytes h) ->
  dst + Z.of_nat n <= src \/ src + Z.of_nat n <= dst ->
  exists m', memcpy n dst src h = Some (tt, set_bytes m' h) /\ same_outside dst (dst + Z.of_nat n) (hp_bytes h) m' /\
    keeps_bytes (hp_bytes h) m' /\ forall i, 0 <= i < Z.of_nat n -> m' !! (dst + i) = hp_bytes h !! (src + i).
Proof.
  revert dst src h. induction n as [|n IH]; intros dst src h Hd Hs Hapart; cbn [memcpy].
  { exists (hp_bytes h). rewrite set_bytes_id. split; [done|]. split; [by intros i|]. split; [by intros i|]. intros i Hi. lia. }
  destruct (Hs src ltac:(lia)) as (b & Hb & Hr).
  rewrite (hbind_run _ _ h b h) by (unfold ld; cbn; rewrite Hb; cbn; do 2 f_equal; lia).
  erewrite hbind_run by (apply st1_run, Hd; lia). set (m1 := <[dst := b mod 256]> (hp_bytes h)).
  destruct (IH (dst + 1) (src + 1) (set_bytes m1 h)) as (m' & Hrun & So & Hk & Hv).
  { eapply present_keeps; [apply keeps_insert|]. eapply present_sub; [| |exact Hd]; lia. }
  { eapply present_keeps; [apply keeps_insert|]. eapply present_sub; [| |exact Hs]; lia. }
  { lia. }
  cbn [hp_bytes set_bytes] in *. exists m'. split; [exact Hrun|]. split; [|split].
  - intros i Hi. rewrite So by lia. apply lookup_insert_ne. lia.
  - intros i Hi. by apply Hk, keeps_insert.
  - intros i Hi. destruct (decide (i = 0)) as [->|].
    + rewrite Z.add_0_r, So by lia. unfold m1. by rewrite lookup_insert_eq, Z.mod_small, Z.add_0_r, Hb by lia.
    + replace (dst + i) with (dst + 1 + (i - 1)) by lia. rewrite Hv by lia. unfold m1. rewrite lookup_insert_ne by lia. f_equal. lia.
Qed.

(** ** Cutting a used block *)
Lemma coalesce_after_used l x b r : b_used x = true -> coalesce (l ++ [x]) b r = l ++ x :: (merge_next b r).1 :: (merge_next b r).2.
Proof. intros Hx. unfold coalesce. rewrite merge_prev_snoc, Hx. by rewrite <- app_assoc. Qed.

Lemma sep_cut l s n r : sep (l ++ Blk s true :: r) -> sep (coalesce (l ++ [Blk n true]) (Blk (s - n - 12) false) r).
Proof.
  intros Hs. replace (l ++ Blk s true :: r) with ((l ++ [Blk s true]) ++ r) in Hs by (by rewrite <- app_assoc).
  apply sep_app in Hs as (Hl & Hr & _). rewrite coalesce_after_used by done. apply sep_app in Hl as (Hl & _ & _).
  apply sep_app. split; [done|]. split; [|unfold apart; destruct (last l); [cbn; by rewrite orb_true_r|done]].
  split; [done|]. by apply (sep_merge_next (Blk (s - n - 12) false)).
Qed.

Lemma realloc_cut_run l s r h n : heap_ok (l ++ Blk s true :: r) (set_heap_sem 1 h) -> 0 < n -> n mod 4 = 0 -> n + 24 < s ->
  exists h', realloc_cut (endof 0 l) s n h = Some (tt, h') /\ heap_sem h' = heap_sem h /\ heap_same h h' /\ max_mem h' = max_mem h /\
    heap_ok (coalesce (l ++ [Blk n true]) (Blk (s - n - 12) false) r) (set_heap_sem 1 h') /\
    (forall a, held 0 (l ++ Blk n true :: Blk (s - n - 12) false :: r) a -> hp_bytes h' !! a = hp_bytes h !! a).
Proof.
  intros Hok Hn Hn4 Hns. pose proof (ho_laid _ _ Hok) as Hla. cbn [hp_bytes heap_end set_heap_sem] in Hla.
  pose proof (ho_size _ _ Hok) as Hsize. cbn [heap_end mem_size_aligned set_heap_sem] in Hsize.
  pose proof (la_sized _ _ _ Hla) as Hsz. pose proof Hsz as Hsz'. apply Forall_sized_app in Hsz' as (Hsl & Hss & Hsr).
  pose proof (laid_block _ _ _ _ _ Hla) as (Hp & _). set (p := endof 0 l) in *.
  unfold realloc_cut. erewrite hbind_run by done. erewrite hbind_run by done. set (u := u32 _). set (h1 := set_used_mem u h).
  unfold SIZEOF_STRUCT_MEM. set (p2 := p + 12 + n).
  destruct (cut_block_run h1 l s true n r false Hla Hsize) as (m1 & Hrun1 & Hla1 & So1); [lia|done|lia|]. fold p p2 in Hrun1.
  rewrite (hbind_run _ _ _ _ _ Hrun1). set (h2 := set_bytes m1 h1). erewrite hbind_run by done. cbn [orb] in Hla1.
  change (lfree h2) with (lfree h). set (lf := if p2 <? lfree h then p2 else lfree h). set (h3 := set_lfree lf h2).
  rewrite (hbind_run _ _ _ tt h3) by (unfold h3, lf; change (lfree h) with (lfree h2); destruct (p2 <? lfree h2); [done|by destruct h2]).
  set (L := l ++ [Blk n true]). set (b2 := Blk (s - n - 12) false).
  assert (laid m1 (heap_end h) (L ++ b2 :: r)) as Hla1' by (unfold L; by rewrite <- app_assoc).
  assert (p2 = endof 0 L) as Ep2 by (unfold L; by rewrite endof_app).
  pose proof (la_sized _ _ _ Hla1') as Hsz1. pose proof Hsz1 as Hsz1'. apply Forall_sized_app in Hsz1' as (HsL & Hs2 & _).
  assert (lf = first_free 0 (L ++ b2 :: r)) as Elf.
  { unfold lf. pose proof (ho_lfree _ _ Hok) as Hlf. cbn [lfree set_heap_sem] in Hlf. rewrite Hlf, (first_free_app 0 L) by done.
    unfold L. rewrite !first_free_app, endof_app by done. cbn [first_free b_used endof b2]. fold p. change (after p (Blk n true)) with p2.
    pose proof (first_free_range (after p (Blk s true)) r Hsr) as Hfr. unfold after in Hfr. cbn [b_size] in Hfr.
    destruct (decide (first_free 0 l < p)) as [Hd|Hd].
    - rewrite decide_True by (unfold p2; lia). destruct (Z.ltb_spec p2 (first_free 0 l)); [unfold p2 in *; lia|done].
    - rewrite decide_False by lia. unfold after. cbn [b_size]. destruct (Z.ltb_spec p2 (first_free (p + 12 + s) r)); [done|unfold p2 in *; lia]. }
  rewrite Ep2. destruct (plug_holes_run h3 L b2 r Hla1' eq_refl Elf) as (m2 & Hrun2 & Hla2 & So2).
  eexists. split; [exact Hrun2|]. split; [done|]. split; [done|]. split; [done|].
  assert (used_total (coalesce L b2 r) = used_total (l ++ Blk s true :: r) - (s - n)) as Eu.
  { unfold b2. rewrite used_total_coalesce. unfold L. rewrite !used_total_app. cbn. lia. }
  pose proof (ho_used _ _ Hok) as Hu. cbn [used_mem set_heap_sem] in Hu.
  pose proof (used_total_range 0 _ Hsz) as Hur. rewrite (la_end _ _ _ Hla) in Hur. pose proof (la_max _ _ _ Hla) as Hmax.
  pose proof (used_total_range 0 _ (la_sized _ _ _ Hla2)) as Hur2. rewrite (la_end _ _ _ Hla2) in Hur2.
  assert (u = used_mem h - (s - n)) as Eu2 by (unfold u; rewrite wrap_small; lia).
  split; [split; cbn; try apply Hok; try done|].
  - rewrite Elf. symmetry. apply first_free_coalesce; done.
  - by apply sep_cut, Hok.
  - lia.
  - pose proof (ho_max _ _ Hok) as Hmx. cbn in Hmx. lia.
  - intros a Ha. cbn. rewrite So2; [by apply So1|]. unfold L. by rewrite <- app_assoc.
Qed.
