(* ===== verification/Heap.v ===== *)
(** The contract of the heap of Mem.v with its clients: the live allocations
    are a map from pointers to the bytes their holders wrote, each routine of
    src/software/rt-thread/src/mem.c is a step of that map, and a client that
    frees and writes only what it holds never sees an allocation overlap, move
    or change. *)

From S2P Require Import Prelude MsgQueue Mem.

(** ** The contract with a client *)

(** The bytes of an allocation. *)
Definition contents (m : gmap Z Z) (a : Z) (bytes : list Z) : Prop :=
  forall i b, bytes !! i = Some b -> m !! (a + Z.of_nat i) = Some b.

(** The live allocations, by pointer, are the blocks [B]. *)
Record owned (B : Z -> Z -> Prop) (m : gmap Z Z) (base : Z) (live : gmap Z (list Z)) : Prop := {
  ow_block p bytes : live !! p = Some bytes ->
    exists q s, p = base + q + 12 /\ B q s /\ Z.of_nat (length bytes) = s /\ contents m (q + 12) bytes;
  ow_all q s : B q s -> is_Some (live !! (base + q + 12))
}.

Lemma owned_mem B m m' base live : owned B m base live ->
  (forall q s a, B q s -> q + 12 <= a < q + 12 + s -> m' !! a = m !! a) -> owned B m' base live.
Proof.
  intros [H1 H2] Hs. split; [|done]. intros p bytes Hp. destruct (H1 p bytes Hp) as (q & s & -> & HB & Hlen & Hc).
  exists q, s. split; [done|]. split; [done|]. split; [done|]. intros i b Hi. rewrite (Hs q s); [by apply Hc|done|].
  apply lookup_lt_Some in Hi. lia.
Qed.

Lemma owned_insert (B B' : Z -> Z -> Prop) m base live q0 t0 bytes : owned B m base live ->
  (forall q t, B' q t <-> B q t \/ (q = q0 /\ t = t0)) -> Z.of_nat (length bytes) = t0 -> contents m (q0 + 12) bytes ->
  owned B' m base (<[base + q0 + 12 := bytes]> live).
Proof.
  intros [H1 H2] HB Hlen Hc. split.
  - intros p bs. rewrite lookup_insert_Some. intros [[<- <-]|[Hne Hp]].
    + exists q0, t0. split; [done|]. split; [apply HB; by right|done].
    + destruct (H1 p bs Hp) as (q & s & -> & Hq & Hrest). exists q, s. split; [done|]. split; [apply HB; by left|done].
  - intros q s Hq. destruct (decide (q = q0)) as [->|Hne]; [rewrite lookup_insert_eq; eauto|].
    rewrite lookup_insert_ne by lia. apply HB in Hq as [Hq|[]]; [by eapply H2|done].
Qed.

Lemma owned_delete (B B' : Z -> Z -> Prop) m base live q0 t0 : owned B' m base live ->
  (forall q t, B' q t <-> B q t \/ (q = q0 /\ t = t0)) -> (forall t, ~ B q0 t) ->
  owned B m base (delete (base + q0 + 12) live).
Proof.
  intros [H1 H2] HB Hno. split.
  - intros p bs. rewrite lookup_delete_Some. intros [Hne Hp]. destruct (H1 p bs Hp) as (q & s & -> & Hq & Hrest).
    exists q, s. split; [done|]. split; [|done]. apply HB in Hq as [Hq|[-> _]]; [done|by destruct Hne].
  - intros q s Hq. rewrite lookup_delete_ne.
    + eapply H2. apply HB. by left.
    + intros E. assert (q0 = q) as -> by lia. by eapply Hno.
Qed.

Lemma owned_iff (B B' : Z -> Z -> Prop) m base live : owned B m base live -> (forall q t, B' q t <-> B q t) -> owned B' m base live.
Proof.
  intros [H1 H2] HB. split; [|intros q t Hq; by apply (H2 q t), HB].
  intros p l Hp. destruct (H1 p l Hp) as (q & t & -> & Hq & Hrest). exists q, t. split; [done|]. split; [by apply HB|done].
Qed.

Lemma block_at_mark l s r q t : block_at 0 (l ++ Blk s true :: r) q t <->
  block_at 0 (l ++ Blk s false :: r) q t \/ (q = endof 0 l /\ t = s).
Proof. rewrite !block_at_app. cbn. unfold after. cbn. naive_solver. Qed.

Lemma block_at_cut l s n r q t : block_at 0 (l ++ Blk n true :: Blk (s - n - 12) false :: r) q t <->
  block_at 0 (l ++ Blk s false :: r) q t \/ (q = endof 0 l /\ t = n).
Proof.
  rewrite !block_at_app. cbn. unfold after. cbn.
  replace (endof 0 l + 12 + n + 12 + (s - n - 12)) with (endof 0 l + 12 + s) by lia. naive_solver.
Qed.

(** No used block starts where a free one does. *)
Lemma block_at_free l s r t : Forall sized (l ++ Blk s false :: r) -> ~ block_at 0 (l ++ Blk s false :: r) (endof 0 l) t.
Proof.
  intros Hs. apply Forall_sized_app in Hs as (Hsl & [Hb _] & Hsr). rewrite block_at_app. cbn [block_at b_used].
  intros [H1|[[? _]|H2]]; [apply block_at_range in H1; [lia|done]|done|].
  apply block_at_range in H2; [unfold after in H2; cbn in *; lia|done].
Qed.

Lemma read_bytes m a n : present a (a + Z.of_nat n) m -> exists bytes, length bytes = n /\ contents m a bytes.
Proof.
  revert a. induction n as [|n IH]; intros a Hp; [by exists []|].
  destruct (Hp a ltac:(lia)) as (b & Hb & _). destruct (IH (a + 1)) as (bytes & Hlen & Hc); [eapply present_sub; [| |exact Hp]; lia|].
  exists (b :: bytes). split; [cbn; by rewrite Hlen|]. intros [|i] c; cbn.
  - intros [= <-]. by rewrite Z.add_0_r.
  - intros Hi. replace (a + Z.of_nat (S i)) with (a + 1 + Z.of_nat i) by lia. by apply Hc.
Qed.

Lemma contents_fun m a l l' : length l = length l' -> contents m a l -> contents m a l' -> l = l'.
Proof.
  intros Hlen H1 H2. apply list_eq_same_length with (length l'); [done|done|]. intros i x y _ Hx Hy.
  pose proof (H1 i x Hx). pose proof (H2 i y Hy). congruence.
Qed.
Lemma contents_take m a n l : contents m a l -> contents m a (take n l).
Proof. intros H i b Hi. apply H. apply lookup_take_Some in Hi. apply Hi. Qed.

(** The heap and the allocations its clients hold, with their bytes. *)
Definition heap_rel (live : gmap Z (list Z)) (h : heap) : Prop :=
  exists bs, heap_ok bs h /\ owned (block_at 0 bs) (hp_bytes h) (heap_ptr h) live.

Lemma block_present bs h q s : heap_ok bs h -> block_at 0 bs q s -> present (q + 12) (q + 12 + s) (hp_bytes h).
Proof.
  intros Hok Hb. pose proof (ho_laid _ _ Hok) as Hla. apply block_at_range in Hb; [|apply Hla].
  rewrite (la_end _ _ _ Hla) in Hb. eapply present_sub; [| |apply Hla]; lia.
Qed.

(** The holder of an allocation writes to it. *)
Lemma rel_write live h p bytes m' bytes' : heap_rel live h -> live !! p = Some bytes ->
  let a := p - heap_ptr h in
  same_outside a (a + Z.of_nat (length bytes)) (hp_bytes h) m' -> keeps_bytes (hp_bytes h) m' ->
  length bytes' = length bytes -> contents m' a bytes' -> heap_rel (<[p := bytes']> live) (set_bytes m' h).
Proof.
  intros (bs & Hok & Ho) Hp a So Hk Hlen Hc. exists bs. destruct (ow_block _ _ _ _ Ho p bytes Hp) as (q & s & Ep & Hb & Hs & _).
  assert (a = q + 12) as Ea by (unfold a; lia). rewrite Ea, Hs in So. rewrite Ea in Hc.
  pose proof (la_sized _ _ _ (ho_laid _ _ Hok)) as Hsz. split.
  - apply heap_ok_write; [done| |done]. intros x Hx. apply So. intros Hin. by apply Hx, (block_at_held _ _ q s).
  - destruct Ho as [H1 H2]. split; cbn.
    + intros p' bs'. rewrite lookup_insert_Some. intros [[<- <-]|[Hne Hp']].
      * exists q, s. rewrite Hlen. done.
      * destruct (H1 p' bs' Hp') as (q' & s' & -> & Hb' & Hs' & Hc'). exists q', s'. split; [done|]. split; [done|]. split; [done|].
        intros i b Hi. pose proof (lookup_lt_Some _ _ _ Hi). rewrite So; [by apply Hc'|].
        destruct (block_at_apart 0 bs q s q' s' Hsz Hb Hb') as [[-> _]|]; [congruence|lia].
    + intros q' s' Hb'. destruct (decide (p = heap_ptr h + q' + 12)) as [->|Hne]; [rewrite lookup_insert_eq; eauto|].
      rewrite lookup_insert_ne by done. by eapply H2.
Qed.

Lemma rel_bytes live h p bytes : heap_rel live h -> live !! p = Some bytes ->
  heap_ptr h <= p /\ p <> 0 /\ p - heap_ptr h + Z.of_nat (length bytes) <= heap_end h /\ 4 <= Z.of_nat (length bytes) /\
  present (p - heap_ptr h) (p - heap_ptr h + Z.of_nat (length bytes)) (hp_bytes h) /\ contents (hp_bytes h) (p - heap_ptr h) bytes.
Proof.
  intros (bs & Hok & Ho) Hp. destruct (ow_block _ _ _ _ Ho p bytes Hp) as (q & s & Ep & Hb & Hs & Hc).
  pose proof (block_present _ _ _ _ Hok Hb) as Hpr. apply block_at_range in Hb; [|apply (ho_laid _ _ Hok)].
  rewrite (la_end _ _ _ (ho_laid _ _ Hok)) in Hb. destruct (ho_base _ _ Hok) as (Hb1 & _).
  replace (p - heap_ptr h) with (q + 12) by lia. rewrite Hs. repeat (split; [lia|]). done.
Qed.

Lemma rel_aligned live h p bytes : heap_rel live h -> live !! p = Some bytes -> p mod 4 = 0.
Proof.
  intros (bs & Hok & Ho) Hp. destruct (ow_block _ _ _ _ Ho p bytes Hp) as (q & s & -> & Hb & _).
  destruct (block_at_split 0 bs q s Hb) as (l & r & -> & ->).
  apply (user_aligned _ _ _ Hok), endof_mod; [|done]. 
  by apply (Forall_sized_app l (Blk s true) r), (la_sized _ _ _ (ho_laid _ _ Hok)).
Qed.

Lemma rel_limit live h : heap_rel live h -> heap_ptr h + heap_end h + 12 <= 2 ^ 32.
Proof. intros (bs & Hok & _). apply (ho_base _ _ Hok). Qed.

(** Allocations do not overlap. *)
Lemma rel_apart live h p l p' l' : heap_rel live h -> live !! p = Some l -> live !! p' = Some l' -> p <> p' ->
  p + Z.of_nat (length l) <= p' \/ p' + Z.of_nat (length l') <= p.
Proof.
  intros (bs & Hok & Ho) Hp Hp' Hne. destruct (ow_block _ _ _ _ Ho p l Hp) as (q & s & -> & Hb & Hs & _).
  destruct (ow_block _ _ _ _ Ho p' l' Hp') as (q' & s' & -> & Hb' & Hs' & _).
  destruct (block_at_apart 0 bs q s q' s' (la_sized _ _ _ (ho_laid _ _ Hok)) Hb Hb') as [[-> _]|]; [done|lia].
Qed.

Definition granted (live : gmap Z (list Z)) (n res : Z) (live' : gmap Z (list Z)) : Prop :=
  0 < n /\ res <> RT_NULL /\ live !! res = None /\
  exists bytes, n <= Z.of_nat (length bytes) /\ live' = <[res := bytes]> live.

Definition zeroed (live : gmap Z (list Z)) (n res : Z) (live' : gmap Z (list Z)) : Prop :=
  0 < n /\ res <> RT_NULL /\ live !! res = None /\
  exists bytes, n <= Z.of_nat (length bytes) /\ take (Z.to_nat n) bytes = replicate (Z.to_nat n) 0 /\
    live' = <[res := bytes]> live.

(** The allocation [p] after a resize to [n] bytes: its first bytes are kept. *)
Definition resized (live : gmap Z (list Z)) (p n res : Z) (live' : gmap Z (list Z)) : Prop :=
  exists old, live !! p = Some old /\
    ((0 < n /\ res = RT_NULL /\ live' = live) \/
     (n = 0 /\ res = RT_NULL /\ live' = delete p live) \/
     (0 < n /\ res <> RT_NULL /\ (res = p \/ live !! res = None) /\ exists bytes, n <= Z.of_nat (length bytes) /\
        (let k := Nat.min (length old) (Z.to_nat n) in take k bytes = take k old) /\
        live' = <[res := bytes]> (delete p live))).

Lemma carved_size_ge s n : n <= s -> n <= carved_size s n.
Proof. unfold carved_size. destruct (n + 24 <=? s); lia. Qed.

Lemma malloc_rel live h n : heap_rel live h -> 0 <= n -> n + 3 < 2 ^ 32 ->
  exists res h', rt_malloc n h = Some (res, h') /\ heap_same h h' /\
    ((res = RT_NULL /\ h' = h) \/ exists live', granted live n res live' /\ heap_rel live' h').
Proof.
  intros (bs & Hok & Ho) Hn Hmax. destruct (decide (n = 0)) as [->|Hnz].
  { exists RT_NULL, h. split; [done|]. split; [done|]. by left. }
  pose proof (rt_malloc_run bs h n Hok ltac:(lia)) as Hrun.
  destruct (mem_size_aligned h <? rounded n); [exists RT_NULL, h; split; [done|split; [done|by left]]|].
  destruct (first_fit 0 (mem_size_aligned h - request n) (request n) bs) as [[[l b] r]|] eqn:Ef.
  2:{ exists RT_NULL, h. split; [done|]. split; [done|by left]. }
  destruct Hrun as (h' & Hrun & Hok' & Hs & _ & So). exists (user h (endof 0 l)), h'. split; [done|]. split; [done|]. right.
  destruct (first_fit_Some _ _ _ _ _ _ _ Ef) as (Ebs & Hbf & Hbn & _). destruct b as [s u]. cbn [b_used b_size] in *. subst u.
  assert (forall q t, block_at 0 (carved l s (request n) r) q t <-> block_at 0 bs q t \/ (q = endof 0 l /\ t = carved_size s (request n))) as HB.
  { intros q t. rewrite Ebs. apply block_at_carved. }
  pose proof (la_sized _ _ _ (ho_laid _ _ Hok)) as Hsz.
  assert (block_at 0 (carved l s (request n) r) (endof 0 l) (carved_size s (request n))) as Hnew by (apply HB; by right).
  pose proof (block_present _ _ _ _ Hok' Hnew) as Hpr. apply block_at_range in Hnew; [|apply (ho_laid _ _ Hok')].
  destruct (read_bytes (hp_bytes h') (endof 0 l + 12) (Z.to_nat (carved_size s (request n)))) as (bytes & Hlen & Hc).
  { rewrite Z2Nat.id by lia. done. }
  pose proof (carved_size_ge s (request n) Hbn). pose proof (rounded_small n Hn Hmax).
  assert (n <= request n) by (unfold request; change MIN_SIZE_ALIGNED with 12; destruct (Z.ltb_spec (rounded n) 12); lia).
  exists (<[user h (endof 0 l) := bytes]> live). destruct (ho_base _ _ Hok) as (Hb1 & _). split.
  - split; [lia|]. split; [unfold user, RT_NULL; lia|]. split; [|exists bytes; split; [rewrite Hlen; lia|done]].
    destruct (live !! user h (endof 0 l)) as [x|] eqn:E; [|done]. exfalso.
    destruct (ow_block _ _ _ _ Ho _ _ E) as (q & t & Eq & Hq & _). unfold user in Eq. assert (q = endof 0 l) as -> by lia.
    rewrite Ebs in Hq, Hsz. by eapply block_at_free.
  - exists (carved l s (request n) r). split; [done|]. rewrite (hs_ptr _ _ Hs). unfold user.
    eapply owned_insert; [|exact HB|rewrite Hlen; lia|done]. eapply owned_mem; [exact Ho|].
    intros q t a Hq Ha. apply So. by eapply block_at_held.
Qed.

Lemma sized_unmark l s r : Forall sized (l ++ Blk s true :: r) -> Forall sized (l ++ Blk s false :: r).
Proof. intros H. apply Forall_sized_app in H as (Hl & Hb & Hr). apply Forall_app. split; [done|]. by apply Forall_cons. Qed.

Lemma free_rel live h p bytes : heap_rel live h -> live !! p = Some bytes ->
  exists h', rt_free p h = Some (tt, h') /\ heap_same h h' /\ heap_rel (delete p live) h'.
Proof.
  intros (bs & Hok & Ho) Hp. destruct (ow_block _ _ _ _ Ho p bytes Hp) as (q & s & -> & Hb & _ & _).
  destruct (block_at_split 0 bs q s Hb) as (l & r & -> & ->).
  destruct (rt_free_run l s r h Hok) as (h' & Hrun & Hok' & Hs & _ & So). exists h'. split; [done|]. split; [done|].
  pose proof (sized_unmark _ _ _ (la_sized _ _ _ (ho_laid _ _ Hok))) as Hsz.
  exists (coalesce l (Blk s false) r). split; [done|]. rewrite (hs_ptr _ _ Hs).
  assert (owned (block_at 0 (l ++ Blk s false :: r)) (hp_bytes h) (heap_ptr h) (delete (heap_ptr h + endof 0 l + 12) live)) as Ho'.
  { eapply owned_delete; [exact Ho|intros; apply block_at_mark|]. intros t. by apply block_at_free. }
  eapply owned_iff; [|intros q t; by apply block_at_coalesce].
  eapply owned_mem; [exact Ho'|]. intros q t a Hq Ha. apply So. by eapply block_at_held.
Qed.

Lemma calloc_rel live h c n : heap_rel live h -> 0 <= c * n -> c * n + 3 < 2 ^ 32 ->
  exists res h', rt_calloc c n h = Some (res, h') /\ heap_same h h' /\
    ((res = RT_NULL /\ h' = h) \/ exists live', zeroed live (c * n) res live' /\ heap_rel live' h').
Proof.
  intros Hr H0 Hmax. destruct (malloc_rel live h (c * n) Hr H0 Hmax) as (res & h1 & Hrun & Hs & Hcase).
  unfold rt_calloc. rewrite wrap_small by lia. rewrite (hbind_run _ _ _ _ _ Hrun). erewrite hbind_run by done.
  destruct Hcase as [[-> ->]|(live1 & (Hpos & Hnn & Hno & bytes & Hlen & ->) & Hr1)].
  { exists RT_NULL, h. split; [done|]. split; [done|by left]. }
  destruct (Z.eqb_spec res RT_NULL) as [|_]; [done|]. cbn [negb].
  destruct (rel_bytes _ _ _ _ Hr1 (lookup_insert_eq _ _ _)) as (_ & _ & _ & _ & Hpr & Hc).
  set (a := res - heap_ptr h1) in *. set (k := Z.to_nat (c * n)).
  destruct (memset_run k a 0 h1) as (m' & Hset & So & Hk & Hv); [eapply present_sub; [| |exact Hpr]; lia|].
  rewrite (hbind_run _ _ _ _ _ Hset). exists res. eexists. split; [done|]. split; [by apply (heap_same_trans _ h1)|]. right.
  exists (<[res := replicate k 0 ++ drop k bytes]> live). split.
  { split; [done|]. split; [done|]. split; [done|]. exists (replicate k 0 ++ drop k bytes).
    split; [rewrite length_app, length_replicate, length_drop; lia|]. split; [|done].
    fold k. rewrite take_app_le, take_ge; rewrite ?length_replicate; done. }
  rewrite <- (insert_insert_eq live res _ bytes). eapply rel_write; [done|apply lookup_insert_eq| |done| |].
  - intros x Hx. apply So. lia.
  - rewrite length_app, length_replicate, length_drop. lia.
  - intros i b Hi. apply lookup_app_Some in Hi as [Hi|[Hge Hi]].
    + apply lookup_replicate in Hi as [-> Hlt]. apply Hv. lia.
    + rewrite length_replicate in *. rewrite lookup_drop in Hi. rewrite So by lia.
      rewrite <- (Hc _ _ Hi). f_equal. lia.
Qed.

(** Cutting an allocation keeps its first bytes. *)
Lemma cut_rel live h q s n old : heap_rel live h -> live !! (heap_ptr h + q + 12) = Some old -> Z.of_nat (length old) = s ->
  0 < n -> n mod 4 = 0 -> n + 24 < s ->
  exists h', realloc_cut q s n (set_heap_sem 0 h) = Some (tt, h') /\ heap_sem h' = 0 /\ heap_same h h' /\
    heap_rel (<[heap_ptr h + q + 12 := take (Z.to_nat n) old]> live) (set_heap_sem 1 h').
Proof.
  intros (bs & Hok & Ho) Hp Hlen Hn Hn4 Hns. destruct (ow_block _ _ _ _ Ho _ _ Hp) as (q' & s' & Eq & Hb & Hs' & Hc).
  assert (q' = q) as -> by lia. assert (s' = s) as -> by lia.
  destruct (block_at_split 0 bs q s Hb) as (l & r & -> & Eql).
  destruct (realloc_cut_run l s r (set_heap_sem 0 h) n) as (h' & Hrun & Hsem & Hs & _ & Hok' & So);
    [by rewrite (unlocked _ _ Hok)|done..|]. rewrite <- Eql in Hrun. cbn [hp_bytes set_heap_sem] in So.
  assert (heap_same h h') as Hsame by (destruct Hs; by split).
  exists h'. split; [done|]. split; [done|]. split; [done|]. eexists. split; [exact Hok'|]. cbn [hp_bytes heap_ptr set_heap_sem].
  rewrite (hs_ptr _ _ Hsame). eapply owned_iff; [|intros q' t; by apply block_at_coalesce]. rewrite <- app_assoc. cbn [app].
  pose proof (sized_unmark _ _ _ (la_sized _ _ _ (ho_laid _ _ Hok))) as Hsz.
  rewrite <- insert_delete_eq. rewrite Eql.
  assert (forall q' t, block_at 0 (l ++ Blk n true :: Blk (s - n - 12) false :: r) q' t <->
    block_at 0 (l ++ Blk s false :: r) q' t \/ (q' = endof 0 l /\ t = n)) as HB by (intros; apply block_at_cut).
  eapply owned_insert; [|exact HB|rewrite length_take; lia|].
  - eapply owned_mem; [eapply owned_delete; [exact Ho|intros; apply block_at_mark|intros t; by apply block_at_free]|].
    intros q' t a Hq Ha. apply So. eapply block_at_held; [|exact Ha]. apply HB. by left.
  - intros i b Hi. rewrite <- Eql in *. rewrite So.
    + by apply (contents_take _ _ (Z.to_nat n) _ Hc).
    + eapply block_at_held; [apply HB; by right|]. apply lookup_lt_Some in Hi. rewrite length_take in Hi. lia.
Qed.

Lemma heap_unlock_run h : heap_unlock h = Some (tt, set_heap_sem (heap_sem h + 1) h).
Proof. done. Qed.

Lemma take_agree {A} (k k' : nat) (l l' : list A) : (k <= k')%nat -> take k' l = take k' l' -> take k l = take k l'.
Proof. intros Hle E. apply (f_equal (take k)) in E. rewrite !take_take in E. by rewrite Nat.min_l in E by lia. Qed.

(** Keeping more bytes than asked for is a resize too. *)
Lemma resized_le live p n n' res live' : 0 < n -> n <= n' -> resized live p n' res live' -> resized live p n res live'.
Proof.
  intros Hn Hle (old & Hp & Hcase). exists old. split; [done|].
  destruct Hcase as [(? & Hcase)|[(? & _)|(? & H1 & H2 & bytes & H3 & H4 & H5)]]; [by left|lia|]. right; right.
  split; [done|]. split; [done|]. split; [done|]. exists bytes. split; [lia|]. split; [|done].
  eapply take_agree; [|exact H4]. lia.
Qed.

Lemma resized_cut live p n n' old : live !! p = Some old -> 0 < n <= n' -> n' <= Z.of_nat (length old) -> p <> RT_NULL ->
  resized live p n p (<[p := take (Z.to_nat n') old]> live).
Proof.
  intros Hp Hn Hlen Hnn. eapply resized_le; [|apply Hn|]; [lia|]. exists old. split; [done|]. right; right. split; [lia|].
  split; [done|]. split; [by left|]. eexists. split; [|split; [|by rewrite insert_delete_eq]].
  - rewrite length_take. lia.
  - cbv zeta. rewrite take_take. f_equal. lia.
Qed.

(** The size [rt_realloc] reads from the header of an allocation. *)
Lemma size_run live h q old : heap_rel live h -> live !! (heap_ptr h + q + 12) = Some old ->
  get_next q (set_heap_sem 0 h) = Some (q + 12 + Z.of_nat (length old), set_heap_sem 0 h) /\
  0 <= q /\ q + 12 + Z.of_nat (length old) <= heap_end h /\ heap_end h < 2 ^ 32 - 12 /\ heap_end h = mem_size_aligned h + 12 /\
  Z.of_nat (length old) mod 4 = 0 /\ heap_lock h = Some (tt, set_heap_sem 0 h) /\ NOT_IN_INTERRUPT h = Some (tt, h).
Proof.
  intros (bs & Hok & Ho) Hp. destruct (ow_block _ _ _ _ Ho _ _ Hp) as (q' & s & Eq & Hb & Hs & _). assert (q' = q) as -> by lia.
  rewrite Hs. destruct (block_at_split 0 bs q s Hb) as (l & r & -> & ->). pose proof (ho_laid _ _ Hok) as Hla.
  pose proof (laid_block _ _ _ _ _ Hla) as (H1 & H2 & H3 & Hh & _). unfold after in H2. cbn [b_size] in *.
  split; [exact (get_next_run (set_heap_sem 0 h) _ _ Hh)|]. pose proof (la_max _ _ _ Hla). repeat (split; [lia || apply Hok|]).
  split; [|split; [by eapply heap_lock_run|by eapply in_thread_run]].
  pose proof (Forall_sized_app _ _ _ (la_sized _ _ _ Hla)) as (_ & [_ Hm] & _). exact Hm.
Qed.

(** Copying between two allocations. *)
Lemma copy_rel live h p old q bytes j : heap_rel live h -> live !! p = Some old -> live !! q = Some bytes -> p <> q ->
  (j <= length old)%nat -> (j <= length bytes)%nat ->
  exists h', memcpy j (q - heap_ptr h) (p - heap_ptr h) h = Some (tt, h') /\ heap_same h h' /\
    heap_rel (<[q := take j old ++ drop j bytes]> live) h'.
Proof.
  intros Hr Hp Hq Hne Hj1 Hj2. destruct (rel_bytes _ _ _ _ Hr Hp) as (_ & _ & _ & _ & Hprp & Hcp).
  destruct (rel_bytes _ _ _ _ Hr Hq) as (_ & _ & _ & _ & Hprq & Hcq). pose proof (rel_apart _ _ _ _ _ _ Hr Hp Hq Hne) as Hap.
  destruct (memcpy_run j (q - heap_ptr h) (p - heap_ptr h) h) as (m' & Hcpy & So & Hk & Hv).
  { eapply present_sub; [| |exact Hprq]; lia. } { eapply present_sub; [| |exact Hprp]; lia. } { lia. }
  exists (set_bytes m' h). split; [done|]. split; [done|]. eapply rel_write; [done|exact Hq| |done| |].
  - intros x Hx. apply So. lia.
  - rewrite length_app, length_take, length_drop. lia.
  - intros i b Hi. apply lookup_app_Some in Hi as [Hi|[Hge Hi]].
    + pose proof (lookup_lt_Some _ _ _ Hi) as Hlt. rewrite length_take in Hlt. rewrite Hv by lia. apply Hcp.
      by apply lookup_take_Some in Hi as [].
    + rewrite length_take in *. rewrite lookup_drop in Hi. rewrite So by lia. rewrite <- (Hcq _ _ Hi). f_equal. lia.
Qed.

(** Moving an allocation to a new block. *)
Lemma move_rel live h p old n : heap_rel live h -> live !! p = Some old -> 0 < n -> n + 3 < 2 ^ 32 ->
  let k := if Z.of_nat (length old) <? n then Z.of_nat (length old) else n in
  exists res h', (nmem ← rt_malloc n;
    (if negb (nmem =? RT_NULL) then memcpy (Z.to_nat k) (nmem - heap_ptr h) (p - heap_ptr h);; rt_free p else mret tt);; mret nmem) h
    = Some (res, h') /\ heap_same h h' /\
    exists live', resized live p n res live' /\ heap_rel live' h'.
Proof.
  intros Hr Hp Hpos Hmax k. destruct (malloc_rel live h n Hr ltac:(lia) Hmax) as (res & h1 & Hrun & Hs & Hcase).
  rewrite (hbind_run _ _ _ _ _ Hrun). exists res.
  destruct Hcase as [[-> ->]|(live1 & (_ & Hnn & Hno & bytes & Hlen & ->) & Hr1)].
  { exists h. split; [done|]. split; [done|]. exists live. split; [|done]. exists old. split; [done|by left]. }
  destruct (Z.eqb_spec res RT_NULL) as [|_]; [done|]. cbn [negb].
  assert (p <> res) as Hne by (intros ->; congruence).
  assert (<[res:=bytes]> live !! p = Some old) as Hp1 by (by rewrite lookup_insert_ne).
  assert (Z.to_nat k = Nat.min (length old) (Z.to_nat n)) as -> by (unfold k; destruct (Z.ltb_spec (Z.of_nat (length old)) n); lia).
  set (j := Nat.min (length old) (Z.to_nat n)). rewrite <- (hs_ptr _ _ Hs).
  destruct (copy_rel _ _ p old res bytes j Hr1 Hp1 (lookup_insert_eq _ _ _) Hne) as (h2 & Hcpy & Hs2 & Hr2); [lia..|].
  rewrite insert_insert_eq in Hr2. set (new := take j old ++ drop j bytes) in *.
  destruct (free_rel _ _ p old Hr2) as (h3 & Hfree & Hs3 & Hr3); [by rewrite lookup_insert_ne|]. exists h3.
  split; [by rewrite (hbind_run _ _ _ _ _ (eq_trans (hbind_run _ _ _ _ _ Hcpy) Hfree))|].
  split; [by apply (heap_same_trans _ h1), (heap_same_trans _ h2)|].
  rewrite delete_insert_ne in Hr3 by done. eexists. split; [|exact Hr3]. exists old. split; [done|]. right; right.
  split; [done|]. split; [done|]. split; [by right|]. exists new. split; [|split; [|done]].
  - unfold new. rewrite length_app, length_take, length_drop. lia.
  - cbv zeta. fold j. unfold new. rewrite take_app_le, take_take; [f_equal; lia|rewrite length_take; lia].
Qed.

Lemma realloc_rel live h p n : heap_rel live h -> 0 <= n -> n + 3 < 2 ^ 32 -> is_Some (live !! p) ->
  exists res h', rt_realloc p n h = Some (res, h') /\ heap_same h h' /\
    exists live', resized live p n res live' /\ heap_rel live' h'.
Proof.
  intros Hr H0 Hmax [old Hp]. destruct (rel_bytes _ _ _ _ Hr Hp) as (Hb1 & Hb2 & Hb3 & Hb4 & _).
  set (q := p - heap_ptr h - 12). assert (p = heap_ptr h + q + 12) as Ep by (unfold q; lia).
  pose proof Hp as Hp'. rewrite Ep in Hp'. destruct (size_run _ _ _ _ Hr Hp') as (Hnext & Hq & Hend & Hlim & Htot & Hm4 & Hlock & Hnest).
  pose proof (rounded_small n H0 Hmax) as Hrn. pose proof (rounded_mod n) as Hr4. pose proof (Z.div_mod (rounded n) 4 ltac:(lia)).
  unfold rt_realloc. rewrite (hbind_run _ _ _ _ _ Hnest). cbv zeta. fold (rounded n). erewrite hbind_run by done.
  destruct (Z.ltb_spec (mem_size_aligned h) (rounded n)) as [|Hfit].
  { exists RT_NULL, h. split; [done|]. split; [done|]. exists live. split; [|done]. exists old. split; [done|]. left. split; [lia|done]. }
  destruct (Z.eqb_spec (rounded n) 0) as [Hz|Hnz].
  { destruct (free_rel _ _ _ _ Hr Hp) as (h' & Hrun & Hs & Hr'). rewrite (hbind_run _ _ _ _ _ Hrun). exists RT_NULL, h'.
    split; [done|]. split; [done|]. eexists. split; [|exact Hr']. exists old. split; [done|]. right; left. split; [lia|done]. }
  destruct (Z.eqb_spec p RT_NULL) as [|_]; [done|]. rewrite (hbind_run _ _ _ _ _ Hlock). do 2 erewrite hbind_run by done.
  cbn [heap_ptr heap_end set_heap_sem].
  rewrite (proj2 (Z.ltb_ge _ _)), (proj2 (Z.leb_gt _ _)) by lia. cbn [orb].
  replace (p - SIZEOF_STRUCT_MEM - heap_ptr h) with q by (unfold q, SIZEOF_STRUCT_MEM; lia).
  rewrite (hbind_run _ _ _ _ _ Hnext).
  replace (u32 _) with (Z.of_nat (length old)) by (unfold SIZEOF_STRUCT_MEM; rewrite wrap_small; lia).
  assert (set_heap_sem 1 (set_heap_sem 0 h) = h) as Hun by (destruct Hr as (bs & Hok & _); by eapply unlocked).
  destruct (Z.eqb_spec (Z.of_nat (length old)) (rounded n)) as [Heq|Hneq].
  { exists p, h. split; [unfold heap_unlock; erewrite hbind_run by (by erewrite hbind_run by done); exact (f_equal (fun x => Some (p, x)) Hun)|].
    split; [done|]. exists live. split; [|done]. exists old. split; [done|]. right; right. split; [lia|]. split; [done|].
    split; [by left|]. exists old. split; [lia|]. split; [done|]. by rewrite insert_delete_eq, insert_id. }
  rewrite wrap_small by (unfold SIZEOF_STRUCT_MEM, MIN_SIZE; lia). unfold SIZEOF_STRUCT_MEM, MIN_SIZE.
  destruct (Z.ltb_spec (rounded n + 12 + 12) (Z.of_nat (length old))) as [Hcut|_].
  { destruct (cut_rel live h q (Z.of_nat (length old)) (rounded n) old Hr Hp' eq_refl) as (h' & Hrun & Hsem & Hs & Hr'); [lia|done|lia|].
    rewrite (hbind_run _ _ _ _ _ Hrun), (hbind_run _ _ _ _ _ (heap_unlock_run h')), Hsem. exists p, (set_heap_sem 1 h').
    split; [done|]. split; [by apply (heap_same_trans _ h')|]. eexists. split; [|exact Hr']. rewrite <- Ep. apply resized_cut; [done|lia|lia|done]. }
  rewrite (hbind_run _ _ _ _ _ (heap_unlock_run _)). change (heap_sem (set_heap_sem 0 h) + 1) with 1. rewrite Hun.
  destruct (move_rel live h p old (rounded n) Hr Hp) as (res & h' & Hrun & Hs & live' & Hres & Hr'); [lia..|].
  exists res, h'. split; [exact Hrun|]. split; [done|]. exists live'. split; [|done]. by eapply resized_le; [..|exact Hres]; lia.
Qed.

(** ** Initialisation *)
Lemma align_mod x : RT_ALIGN_DOWN x RT_ALIGN_SIZE mod 4 = 0.
Proof.
  unfold RT_ALIGN_DOWN. rewrite <- (land_3 (Z.land _ _)), <- Z.land_assoc. unfold RT_ALIGN_SIZE.
  change (Z.land (Z.lnot (4 - 1)) (4 - 1)) with 0. by rewrite Z.land_0_r.
Qed.

Lemma align_down_le x : 0 <= x -> 0 <= RT_ALIGN_DOWN x RT_ALIGN_SIZE <= x.
Proof.
  intros Hx. unfold RT_ALIGN_DOWN, RT_ALIGN_SIZE. change (Z.lnot (4 - 1)) with (Z.lnot (Z.ones 2)).
  rewrite <- Z.ldiff_land, Z.ldiff_ones_r, Z.shiftr_div_pow2, Z.shiftl_mul_pow2 by lia. change (2 ^ 2) with 4.
  pose proof (Z.div_mod x 4 ltac:(lia)). pose proof (Z.mod_pos_bound x 4 ltac:(lia)).
  pose proof (Z.div_pos x 4 ltac:(lia) ltac:(lia)). lia.
Qed.

(** The two headers of a new heap of one free block of [n] bytes. *)
Lemma new_heap_laid m m1 m2 n : 0 < n -> n mod 4 = 0 -> n + 24 < 2 ^ 32 -> present 0 (n + 24) m ->
  wrote 0 (Hdr HEAP_MAGIC 0 (n + 12) 0) m m1 -> wrote (n + 12) (Hdr HEAP_MAGIC 1 (n + 12) (n + 12)) m1 m2 ->
  laid m2 (n + 12) [Blk n false].
Proof.
  intros Hn Hn4 Hmax Hp [H1 S1 K1] [H2 S2 K2]. split.
  - unfold layout, block_hdr, after. cbn [b_size b_used Z.b2z]. replace (0 + 12 + n) with (n + 12) by lia. split.
    + eapply hdr_ext; [|exact H1]. intros a Ha. apply S2. lia.
    + by exists (n + 12).
  - by repeat constructor.
  - cbn. unfold after. cbn. lia.
  - replace (n + 12 + 12) with (n + 24) by lia. intros a Ha. by apply K2, K1, Hp.
  - lia.
Qed.

Lemma init_rel b e h : let base := u32 (RT_ALIGN b RT_ALIGN_SIZE) in let n := RT_ALIGN_DOWN e RT_ALIGN_SIZE - base - 24 in
  0 < base -> 0 <= e < 2 ^ 32 -> 12 <= n -> present 0 (n + 24) (hp_bytes h) -> hp_nest h = 0 -> used_mem h = 0 -> 0 <= max_mem h ->
  exists h', rt_system_heap_init b e h = Some (tt, h') /\ heap_ptr h' = base /\ mem_size_aligned h' = n /\ lfree h' = 0 /\
    heap_ok [Blk n false] h'.
Proof.
  intros base n Hb He Hn Hp Hnest Hused Hmax. pose proof (align_down_le e ltac:(lia)) as Ha.
  pose proof (rounded_mod b) as Hbm. change (rounded b) with base in Hbm. pose proof (align_mod e) as Hem.
  assert (n mod 4 = 0) as Hn4.
  { unfold n. rewrite Zminus_mod, (Zminus_mod _ base), Hbm, Hem. done. }
  unfold rt_system_heap_init. fold base. cbv zeta. unfold NOT_IN_INTERRUPT. erewrite hbind_run by (erewrite hbind_run by done; by rewrite Hnest).
  unfold SIZEOF_STRUCT_MEM. rewrite (proj2 (Z.ltb_lt _ _)), (proj2 (Z.leb_le _ _)) by (unfold n in *; lia). cbn [andb].
  change (2 * 12) with 24. fold n. erewrite hbind_run by done. set (h1 := Heap _ _ _ _ _ _ _ _ _).
  destruct (hdr_present (hp_bytes h1) 0) as [v Hv]; [eapply present_sub; [| |exact Hp]; lia|].
  destruct (first_header_sets (n + 12) ltac:(lia) h1 v Hv) as (m1 & Hrun1 & Hw1); [eapply present_sub; [| |exact Hp]; lia|].
  rewrite (hbind_run _ _ _ _ _ Hrun1).
  assert (present (n + 12) (n + 12 + 12) m1) as Hp1.
  { intros a Ha'. apply (wr_keeps _ _ _ _ Hw1), Hp. lia. }
  destruct (hdr_present (hp_bytes (set_bytes m1 h1)) (n + 12) Hp1) as [w Hw].
  destruct (last_header_sets (n + 12) ltac:(lia) (set_bytes m1 h1) w Hw Hp1) as (m2 & Hrun2 & Hw2).
  rewrite (hbind_run _ _ _ _ _ Hrun2). erewrite hbind_run by done. eexists. split; [done|].
  split; [done|]. split; [done|]. split; [done|].
  split; cbn; try done.
  - apply (new_heap_laid (hp_bytes h) m1); [lia|done|unfold n; lia|done..].
  - split; [done|]. split; [done|]. unfold n in *. lia.
  - lia.
Qed.

(** A heap without allocations is one free block. *)
Lemma free_sep b bs : b_used b = false -> Forall (fun c => b_used c = false) bs -> sep (b :: bs) -> bs = [].
Proof. destruct bs as [|c bs]; [done|]. intros Hb Hf. apply Forall_cons in Hf as [Hc _]. cbn [sep]. rewrite Hb, Hc. intros []. done. Qed.

Lemma all_free bs h : heap_ok bs h -> owned (block_at 0 bs) (hp_bytes h) (heap_ptr h) ∅ -> bs = [Blk (mem_size_aligned h) false].
Proof.
  intros Hok [_ Hall]. assert (Forall (fun c => b_used c = false) bs) as Hf.
  { apply Forall_forall. intros c Hc. apply list_elem_of_split in Hc as (l & r & ->). destruct c as [s [|]]; [|done]. exfalso.
    destruct (Hall (endof 0 l) s) as [x Hx]; [apply block_at_app; right; by left|]. by rewrite lookup_empty in Hx. }
  pose proof (la_end _ _ _ (ho_laid _ _ Hok)) as He. pose proof (ho_size _ _ Hok) as Hs. pose proof (ho_min _ _ Hok).
  destruct bs as [|[s u] bs]; [cbn in He; lia|]. apply Forall_cons in Hf as [Hu Hf]. pose proof (ho_sep _ _ Hok) as Hsep.
  rewrite (free_sep _ bs Hu Hf Hsep) in *. cbn in Hu. subst u. cbn in He. unfold after in He. cbn in He. repeat f_equal. lia.
Qed.

Lemma new_heap_rel n h : heap_ok [Blk n false] h -> heap_rel ∅ h.
Proof.
  intros Hok. exists [Blk n false]. split; [done|]. split; [intros p l Hp; by rewrite lookup_empty in Hp|].
  intros q s. cbn. intros [[]|[]]; done.
Qed.

Lemma rounded_le_request n : rounded n <= request n.
Proof. unfold request. destruct (Z.ltb_spec (rounded n) MIN_SIZE_ALIGNED); lia. Qed.

(** ** Clients *)

(** The calls of a client, and its reads and writes in its allocations. *)
Inductive heap_op :=
  | OMalloc (n : Z) | OCalloc (count n : Z) | ORealloc (p n : Z) | OFree (p : Z)
  | ORead (p : Z) (i : nat) | OWrite (p : Z) (i : nat) (v : Z).

Definition exec_op (o : heap_op) : H Z :=
  match o with
  | OMalloc n => rt_malloc n
  | OCalloc count n => rt_calloc count n
  | ORealloc p n => rt_realloc p n
  | OFree p => rt_free p;; mret 0
  | ORead p i => base ← hget heap_ptr; ld 1 (p - base + Z.of_nat i)
  | OWrite p i v => base ← hget heap_ptr; st 1 (p - base + Z.of_nat i) v;; mret 0
  end.

(** What a client may do: free, resize, read and write what it holds; ask for
    a size that can be rounded up in 32 bits. *)
Definition small (n : Z) : Prop := 0 <= n /\ n + 3 < 2 ^ 32.
Definition legal (live : gmap Z (list Z)) (o : heap_op) : Prop :=
  match o with
  | OMalloc n => small n
  | OCalloc count n => small (count * n)
  | ORealloc p n => (p = RT_NULL \/ is_Some (live !! p)) /\ small n
  | OFree p => p = RT_NULL \/ is_Some (live !! p)
  | ORead p i => exists bytes, live !! p = Some bytes /\ (i < length bytes)%nat
  | OWrite p i v => (exists bytes, live !! p = Some bytes /\ (i < length bytes)%nat) /\ 0 <= v < 256
  end.

(** What it gets. *)
Definition refused (live : gmap Z (list Z)) (res : Z) (live' : gmap Z (list Z)) : Prop := res = RT_NULL /\ live' = live.
Definition contract (live : gmap Z (list Z)) (o : heap_op) (res : Z) (live' : gmap Z (list Z)) : Prop :=
  match o with
  | OMalloc n => refused live res live' \/ granted live n res live'
  | OCalloc count n => refused live res live' \/ zeroed live (count * n) res live'
  | ORealloc p n => if p =? RT_NULL then refused live res live' \/ granted live n res live' else resized live p n res live'
  | OFree p => live' = delete p live
  | ORead p i => live' = live /\ exists bytes, live !! p = Some bytes /\ bytes !! i = Some res
  | OWrite p i v => exists bytes, live !! p = Some bytes /\ live' = <[p := <[i := v]> bytes]> live
  end.

Lemma contents_insert m a i v bytes : contents m a bytes -> (i < length bytes)%nat ->
  contents (<[a + Z.of_nat i := v]> m) a (<[i := v]> bytes).
Proof.
  intros Hc Hi j b. rewrite list_lookup_insert_Some. intros [(<- & <- & _)|[Hne Hj]]; [apply lookup_insert_eq|].
  rewrite lookup_insert_ne by lia. by apply Hc.
Qed.

Lemma write_rel live h p i v bytes : heap_rel live h -> live !! p = Some bytes -> (i < length bytes)%nat -> 0 <= v < 256 ->
  exists h', exec_op (OWrite p i v) h = Some (0, h') /\ heap_same h h' /\ heap_rel (<[p := <[i := v]> bytes]> live) h'.
Proof.
  intros Hr Hp Hi Hv. destruct (rel_bytes _ _ _ _ Hr Hp) as (_ & _ & _ & _ & Hpr & Hc).
  cbn [exec_op]. erewrite hbind_run by done. erewrite hbind_run by (apply st1_run, Hpr; lia).
  eexists. split; [done|]. split; [done|]. eapply rel_write; [done|exact Hp| |apply keeps_insert|by rewrite length_insert|].
  - intros x Hx. apply lookup_insert_ne. lia.
  - rewrite Z.mod_small by done. by apply contents_insert.
Qed.

Lemma read_rel live h p i bytes : heap_rel live h -> live !! p = Some bytes -> (i < length bytes)%nat ->
  exists b, bytes !! i = Some b /\ exec_op (ORead p i) h = Some (b, h).
Proof.
  intros Hr Hp Hi. destruct (rel_bytes _ _ _ _ Hr Hp) as (_ & _ & _ & _ & Hpr & Hc).
  destruct (lookup_lt_is_Some_2 _ _ Hi) as [b Hb]. exists b. split; [done|]. cbn [exec_op]. erewrite hbind_run by done.
  unfold ld. cbn. rewrite (Hc _ _ Hb). cbn. do 2 f_equal. lia.
Qed.

Lemma rel_unheld live h : heap_rel live h -> live !! RT_NULL = None.
Proof.
  intros Hr. destruct (live !! RT_NULL) as [l|] eqn:E; [|done]. destruct (rel_bytes _ _ _ _ Hr E) as (_ & H0 & _). done.
Qed.

(** [rt_realloc] of the null pointer is [rt_malloc] of the rounded size. *)
Lemma realloc_null_rel live h n : heap_rel live h -> small n ->
  exists res h', rt_realloc RT_NULL n h = Some (res, h') /\ heap_same h h' /\
    ((res = RT_NULL /\ h' = h) \/ exists live', granted live n res live' /\ heap_rel live' h').
Proof.
  intros Hr [H0 Hmax]. pose proof (rounded_small n H0 Hmax) as Hrn. pose proof (rounded_mod n) as Hr4. pose proof (Z.div_mod (rounded n) 4 ltac:(lia)).
  pose proof Hr as (bs & Hok & _). pose proof (la_max _ _ _ (ho_laid _ _ Hok)). pose proof (ho_size _ _ Hok).
  unfold rt_realloc. rewrite (hbind_run _ _ _ _ _ (in_thread_run _ _ Hok)). cbv zeta. fold (rounded n). erewrite hbind_run by done.
  destruct (Z.ltb_spec (mem_size_aligned h) (rounded n)); [exists RT_NULL, h; split; [done|split; [done|by left]]|].
  destruct (Z.eqb_spec (rounded n) 0); [exists RT_NULL, h; split; [done|split; [done|by left]]|]. cbn [Z.eqb RT_NULL].
  destruct (malloc_rel live h (rounded n) Hr) as (res & h' & Hrun & Hs & Hcase); [lia..|]. exists res, h'. split; [done|]. split; [done|].
  destruct Hcase as [|(live' & (_ & G2 & G3 & bytes & G4 & G5) & Hr')]; [by left|]. right. exists live'. split; [|done].
  split; [lia|]. split; [done|]. split; [done|]. exists bytes. split; [lia|done].
Qed.

(** ** A concrete heap *)

(** A region of 96 bytes of garbage behind an unaligned address. *)
Definition demo_raw : heap := Heap (gset_to_gmap 7 (list_to_set (seqZ 0 96))) 0 0 0 0 0 0 0 0.
Definition demo_begin : Z := 0x20001001.
Definition demo_end : Z := 0x20001067.
Definition demo_heap : heap :=
  match rt_system_heap_init demo_begin demo_end demo_raw with Some (_, h) => h | None => demo_raw end.

Lemma demo_present : present 0 96 (hp_bytes demo_raw).
Proof.
  intros a Ha. exists 7. split; [|done]. cbn [hp_bytes demo_raw]. apply lookup_gset_to_gmap_Some.
  split; [|done]. apply elem_of_list_to_set, elem_of_seqZ. lia.
Qed.

Lemma demo_heap_ok : heap_ok [Blk 72 false] demo_heap.
Proof.
  destruct (init_rel demo_begin demo_end demo_raw) as (h' & Hrun & _ & _ & _ & Hok); [done|done|done|exact demo_present|done|done|done|].
  unfold demo_heap. rewrite Hrun. exact Hok.
Qed.

(** The heap with one allocation of 20 bytes. *)
Lemma demo_used : exists h, heap_ok ([] ++ Blk 20 true :: [Blk 40 false]) h.
Proof.
  pose proof (rt_malloc_run _ _ 18 demo_heap_ok ltac:(done)) as H.
  assert (mem_size_aligned demo_heap = 72) as E by (vm_compute; reflexivity). rewrite E in H. cbn in H.
  destruct H as (h' & _ & Hok & _). by exists h'.
Qed.

Example demo_trace :
  (a ← rt_malloc 18; b ← rt_calloc 2 3; rt_free a;; c ← rt_realloc b 16; mret (a, b, c)) demo_heap ≫= (fun r => Some (r.1, used_mem r.2, lfree r.2))
  = Some ((0x20001010, 0x20001030, 0x20001010), 32, 32).
Proof. vm_compute. reflexivity. Qed.

(** C5: whatever its clients did before, every call of rt_malloc, rt_calloc,
    rt_realloc and rt_free, and every read and write a client makes in its own
    allocations, succeeds and does what the map of live allocations says: a
    new allocation is at least as large as asked for and was not live, calloc
    zeroes it, realloc keeps the bytes common to the two sizes, free removes
    one allocation, a read returns the byte last written, and no other
    allocation changes a byte. *)
Theorem heap_contract live h o : heap_rel live h -> legal live o ->
  exists res live' h', exec_op o h = Some (res, h') /\ contract live o res live' /\ heap_rel live' h' /\ heap_same h h'.
Proof.
  intros Hr Hl. destruct o as [n|c n|p n|p|p i|p i v]; cbn [legal] in Hl; cbn [contract].
  - destruct (malloc_rel live h n Hr) as (res & h' & Hrun & Hs & [[-> ->]|(live' & Hg & Hr')]); [apply Hl..| |].
    + exists RT_NULL, live, h. split; [done|]. split; [by left|done].
    + exists res, live', h'. split; [done|]. split; [by right|done].
  - destruct (calloc_rel live h c n Hr) as (res & h' & Hrun & Hs & [[-> ->]|(live' & Hg & Hr')]); [apply Hl..| |].
    + exists RT_NULL, live, h. split; [done|]. split; [by left|done].
    + exists res, live', h'. split; [done|]. split; [by right|done].
  - destruct Hl as [[->|Hp] Hn].
    + destruct (realloc_null_rel live h n Hr Hn) as (res & h' & Hrun & Hs & [[-> ->]|(live' & Hg & Hr')]).
      * exists RT_NULL, live, h. split; [done|]. split; [by left|done].
      * exists res, live', h'. split; [done|]. split; [by right|done].
    + destruct (realloc_rel live h p n Hr) as (res & h' & Hrun & Hs & live' & Hres & Hr'); [apply Hn..|done|].
      exists res, live', h'. destruct (Z.eqb_spec p RT_NULL) as [->|_]; [|done]. rewrite (rel_unheld _ _ Hr) in Hp. by destruct Hp.
  - cbn [exec_op]. destruct Hl as [->|[bytes Hp]].
    + exists 0, live, h. split; [done|]. split; [|done]. symmetry. apply delete_id, (rel_unheld _ _ Hr).
    + destruct (free_rel _ _ _ _ Hr Hp) as (h' & Hrun & Hs & Hr'). exists 0, (delete p live), h'.
      split; [by rewrite (hbind_run _ _ _ _ _ Hrun)|done].
  - destruct Hl as (bytes & Hp & Hi). destruct (read_rel _ _ _ _ _ Hr Hp Hi) as (b & Hb & Hrun). exists b, live, h.
    split; [done|]. split; [|done]. split; [done|]. by exists bytes.
  - destruct Hl as [(bytes & Hp & Hi) Hv]. destruct (write_rel _ _ _ _ v _ Hr Hp Hi Hv) as (h' & Hrun & Hs & Hr').
    exists 0, (<[p := <[i := v]> bytes]> live), h'. split; [done|]. split; [by exists bytes|done].
Qed.

(** C32: rt_malloc of [size] > 0 bytes, rounded up to a multiple of 4 and to at
    least 12.  It takes the lowest free block the request fits in; the rest of
    the block becomes a free block when it has room for a header and 12 bytes,
    no byte of any used block changes, and the counters of used and of most
    used memory follow.  Without such a block the heap is unchanged, and also
    when the block found is the last one of the heap and has exactly the size:
    the bound of the search (mem.c:306) refuses it. *)
Theorem rt_malloc_spec bs h size : heap_ok bs h -> 0 < size ->
  if mem_size_aligned h <? rounded size then rt_malloc size h = Some (RT_NULL, h)
  else
    (Forall (fun b => ~ fits (request size) b) bs -> rt_malloc size h = Some (RT_NULL, h)) /\
    (forall l b r, bs = l ++ b :: r -> Forall (fun b => ~ fits (request size) b) l -> fits (request size) b ->
       if decide (r = [] /\ b_size b = request size) then rt_malloc size h = Some (RT_NULL, h)
       else exists h', rt_malloc size h = Some (user h (endof 0 l), h') /\
         heap_ok (carved l (b_size b) (request size) r) h' /\ heap_same h h' /\
         max_mem h' = Z.max (max_mem h) (used_mem h') /\
         (forall a, held 0 bs a -> hp_bytes h' !! a = hp_bytes h !! a)).
Proof.
  intros Hok Hpos. pose proof (rt_malloc_run bs h size Hok Hpos) as H. destruct (mem_size_aligned h <? rounded size); [done|]. split.
  - intros Hno. by rewrite first_fit_none in H.
  - intros l b r -> Hl Hb. pose proof (ho_laid _ _ Hok) as Hla. pose proof (first_fit_lowest 0 (request size) l b r (la_sized _ _ _ Hla) Hl Hb) as E.
    rewrite (la_end _ _ _ Hla), (ho_size _ _ Hok) in E. replace (mem_size_aligned h + 12 - 12) with (mem_size_aligned h) in E by lia.
    rewrite E in H. by case_decide.
Qed.

(** C33: rt_free of a used block makes it free and joins it with the free
    blocks next to it, so that no two free blocks are ever adjacent; the layout
    invariant holds again, [lfree] is the lowest free block, and no byte of any
    other used block changes. *)
Theorem rt_free_spec l s r h : heap_ok (l ++ Blk s true :: r) h ->
  exists h', rt_free (user h (endof 0 l)) h = Some (tt, h') /\ heap_ok (coalesce l (Blk s false) r) h' /\ heap_same h h' /\
    max_mem h' = max_mem h /\ (forall a, held 0 (l ++ Blk s false :: r) a -> hp_bytes h' !! a = hp_bytes h !! a).
Proof. apply rt_free_run. Qed.

(** freeing everything gives the heap back: with no live allocation the
    used count is 0 and any request below the size of the heap is granted at
    the start of the heap, whatever was allocated and freed before. *)
Theorem heap_reclaimed h n : heap_rel ∅ h -> 0 < n -> request n < mem_size_aligned h ->
  used_mem h = 0 /\ exists h', rt_malloc n h = Some (user h 0, h').
Proof.
  intros (bs & Hok & Ho) Hn Hfit. pose proof (all_free _ _ Hok Ho) as ->. split; [exact (ho_used _ _ Hok)|].
  pose proof (rt_malloc_run _ h n Hok Hn) as Hrun. pose proof (rounded_le_request n) as Hle.
  rewrite (proj2 (Z.ltb_ge _ _)) in Hrun by lia. cbn [first_fit b_used b_size] in Hrun.
  rewrite (proj2 (Z.ltb_lt _ _)), (proj2 (Z.leb_le _ _)) in Hrun by lia. destruct Hrun as (h' & Hrun & _). by exists h'.
Qed.

(** rt_system_heap_init makes one free block of the aligned region less
    two headers, whatever bytes the region held, and the heap contract holds
    from there on with no live allocation. *)
Theorem heap_init_ok b e h : let base := u32 (RT_ALIGN b RT_ALIGN_SIZE) in let n := RT_ALIGN_DOWN e RT_ALIGN_SIZE - base - 24 in
  0 < base -> 0 <= e < 2 ^ 32 -> 12 <= n -> present 0 (n + 24) (hp_bytes h) -> hp_nest h = 0 -> used_mem h = 0 -> 0 <= max_mem h ->
  exists h', rt_system_heap_init b e h = Some (tt, h') /\ heap_ptr h' = base /\ mem_size_aligned h' = n /\
    heap_ok [Blk n false] h' /\ heap_rel ∅ h'.
Proof.
  intros base n Hb He Hn Hp Hnest Hused Hmax. destruct (init_rel b e h) as (h' & Hrun & H1 & H2 & _ & Hok); [done..|].
  exists h'. repeat (split; [done|]). by apply new_heap_rel with (n := n).
Qed.

(** ** Witnesses *)
Lemma heap_contract_witness : exists res live' h', exec_op (OCalloc 3 4) demo_heap = Some (res, h') /\
  contract ∅ (OCalloc 3 4) res live' /\ heap_rel live' h'.
Proof.
  destruct (heap_contract ∅ demo_heap (OCalloc 3 4)) as (res & live' & h' & H1 & H2 & H3 & _);
    [exact (new_heap_rel _ _ demo_heap_ok)|done|]. exists res, live', h'. split; [exact H1|]. split; [exact H2|exact H3].
Defined.

Lemma rt_malloc_spec_witness : exists h', rt_malloc 18 demo_heap = Some (user demo_heap 0, h') /\
  heap_ok [Blk 20 true; Blk 40 false] h'.
Proof.
  pose proof (rt_malloc_spec _ _ 18 demo_heap_ok ltac:(done)) as H.
  assert (mem_size_aligned demo_heap = 72) as E by (vm_compute; reflexivity).
  assert (rounded 18 = 20) as Er by (vm_compute; reflexivity). assert (request 18 = 20) as Eq by (vm_compute; reflexivity).
  rewrite E, Er, Eq in H. cbn [Z.ltb Z.compare] in H.
  assert (fits 20 (Blk 72 false)) as Hf by (split; [reflexivity|cbn; lia]).
  pose proof (proj2 H [] (Blk 72 false) [] eq_refl (Forall_nil_2 _) Hf) as H2.
  destruct (decide _) as [[_ D]|_]; [discriminate D|]. destruct H2 as (h' & H1 & H2 & _).
  exists h'. split; [exact H1|exact H2].
Defined.

Lemma rt_free_spec_witness : exists h h', heap_ok [Blk 20 true; Blk 40 false] h /\ rt_free (user h 0) h = Some (tt, h') /\
  heap_ok [Blk 72 false] h'.
Proof.
  destruct demo_used as [h Hok]. destruct (rt_free_spec [] 20 [Blk 40 false] h Hok) as (h' & H1 & H2 & _).
  exists h, h'. split; [exact Hok|]. split; [exact H1|exact H2].
Defined.

Lemma heap_reclaimed_witness : used_mem demo_heap = 0 /\ exists h', rt_malloc 68 demo_heap = Some (user demo_heap 0, h').
Proof. apply heap_reclaimed; [exact (new_heap_rel _ _ demo_heap_ok)|done|vm_compute; reflexivity]. Defined.

Lemma heap_init_ok_witness : exists h', rt_system_heap_init demo_begin demo_end demo_raw = Some (tt, h') /\ heap_rel ∅ h'.
Proof.
  destruct (heap_init_ok demo_begin demo_end demo_raw) as (h' & H1 & _ & _ & _ & H2); [done|done|done|exact demo_present|done|done|done|].
  exists h'. split; [exact H1|exact H2].
Defined.
