(* ===== verification/KService.v ===== *)
(** * Memory and string functions (rt-thread/src/kservice.c)

    [rt_memset] and [rt_memcpy] in their word-at-a-time form, [rt_memmove],
    [rt_memcmp] and the string functions, on a memory of bytes; an access to an
    address that holds no byte is a fault.  [long] has 4 bytes, words are
    stored little endian, [char] is unsigned (RISC-V).

    The theorems: the word loops are equal to the byte loops, [rt_memmove] moves
    overlapping regions, [rt_strstr] finds the first occurrence, and the blocks
    of [rt_malloc_align] are aligned and can be given back. *)
From S2P Require Import Prelude MsgQueue Mem Heap.

Abbreviation mem := (gmap Z Z).

(** ** rt_memset *)

(** [while (count--) *m++ = (char)d;] *)
Fixpoint set_bytes_loop (count : nat) (m d : Z) (s : mem) : option mem :=
  match count with
  | O => Some s
  | S count => s ← store 1 m d s; set_bytes_loop count (m + 1) d s
  end.

(** The loop over four words a round; the result is the pointer and the count
    left.  Every round lowers the count: it is fuel enough. *)
Fixpoint set_big_loop (fuel : nat) (a count buffer : Z) (s : mem) : option (Z * Z * mem) :=
  match fuel with
  | O => None
  | S fuel =>
      if 16 <=? count then
        s ← store 4 a buffer s; s ← store 4 (a + 4) buffer s;
        s ← store 4 (a + 8) buffer s; s ← store 4 (a + 12) buffer s;
        set_big_loop fuel (a + 16) (count - 16) buffer s
      else Some (a, count, s)
  end.
Fixpoint set_word_loop (fuel : nat) (a count buffer : Z) (s : mem) : option (Z * Z * mem) :=
  match fuel with
  | O => None
  | S fuel =>
      if 4 <=? count then
        s ← store 4 a buffer s;
        set_word_loop fuel (a + 4) (count - 4) buffer s
      else Some (a, count, s)
  end.

Definition set_buffer (d : Z) : Z :=
  let buffer := Z.lor (u32 (Z.shiftl d 8)) d in
  Z.lor buffer (u32 (Z.shiftl buffer 16)).

Definition rt_memset (s c count : Z) (m : mem) : option mem :=
  let d := Z.land c 0xff in
  let fuel := S (Z.to_nat count) in
  if negb (count <? 4) && (Z.land s (4 - 1) =? 0) then
    '(a, count, m) ← set_big_loop fuel s count (set_buffer d) m;
    '(a, count, m) ← set_word_loop fuel a count (set_buffer d) m;
    set_bytes_loop (Z.to_nat count) a d m
  else set_bytes_loop (Z.to_nat count) s d m.

(** ** rt_memcpy *)
Fixpoint copy_loop (len : nat) (dst src : Z) (s : mem) : option mem :=
  match len with
  | O => Some s
  | S len => b ← load 1 src s; s ← store 1 dst b s; copy_loop len (dst + 1) (src + 1) s
  end.

Definition copy_word (dst src : Z) (s : mem) : option mem := v ← load 4 src s; store 4 dst v s.

(** The results are the two pointers and the count left. *)
Fixpoint copy_big_loop (fuel : nat) (dst src len : Z) (s : mem) : option (Z * Z * Z * mem) :=
  match fuel with
  | O => None
  | S fuel =>
      if 16 <=? len then
        s ← copy_word dst src s; s ← copy_word (dst + 4) (src + 4) s;
        s ← copy_word (dst + 8) (src + 8) s; s ← copy_word (dst + 12) (src + 12) s;
        copy_big_loop fuel (dst + 16) (src + 16) (len - 16) s
      else Some (dst, src, len, s)
  end.
Fixpoint copy_word_loop (fuel : nat) (dst src len : Z) (s : mem) : option (Z * Z * Z * mem) :=
  match fuel with
  | O => None
  | S fuel =>
      if 4 <=? len then
        s ← copy_word dst src s;
        copy_word_loop fuel (dst + 4) (src + 4) (len - 4) s
      else Some (dst, src, len, s)
  end.

Definition rt_memcpy (dst src count : Z) (s : mem) : option mem :=
  let fuel := S (Z.to_nat count) in
  if negb (count <? 16) && (Z.lor (Z.land src (4 - 1)) (Z.land dst (4 - 1)) =? 0) then
    '(d, r, len, s) ← copy_big_loop fuel dst src count s;
    '(d, r, len, s) ← copy_word_loop fuel d r len s;
    copy_loop (Z.to_nat len) d r s
  else copy_loop (Z.to_nat count) dst src s.

(** ** rt_memmove, rt_memcmp *)

(** [while (n--) *(--tmp) = *(--s);] *)
Fixpoint copy_down_loop (n : nat) (tmp src : Z) (s : mem) : option mem :=
  match n with
  | O => Some s
  | S n => b ← load 1 (src - 1) s; s ← store 1 (tmp - 1) b s; copy_down_loop n (tmp - 1) (src - 1) s
  end.

Definition rt_memmove (dest src n : Z) (s : mem) : option mem :=
  if (src <? dest) && (dest <? u32 (src + n)) then copy_down_loop (Z.to_nat n) (dest + n) (src + n) s
  else copy_loop (Z.to_nat n) dest src s.

Fixpoint memcmp_loop (count : nat) (su1 su2 : Z) (s : mem) : option Z :=
  match count with
  | O => Some 0
  | S count =>
      a ← load 1 su1 s; b ← load 1 su2 s;
      if negb (a - b =? 0) then Some (a - b) else memcmp_loop count (su1 + 1) (su2 + 1) s
  end.
Definition rt_memcmp (cs ct count : Z) (s : mem) : option Z := memcmp_loop (Z.to_nat count) cs ct s.

(** ** Strings

    [fuel] bounds the characters read; a string of [n] characters takes
    [n + 1]. *)
Fixpoint rt_strlen (fuel : nat) (sc : Z) (s : mem) : option Z :=
  match fuel with
  | O => None
  | S fuel => c ← load 1 sc s; if c =? 0 then Some 0 else n ← rt_strlen fuel (sc + 1) s; Some (n + 1)
  end.

(** The character is read before the length is compared. *)
Fixpoint rt_strnlen (fuel : nat) (sc maxlen : Z) (s : mem) : option Z :=
  match fuel with
  | O => None
  | S fuel =>
      c ← load 1 sc s;
      if negb (c =? 0) && (0 <? maxlen) then n ← rt_strnlen fuel (sc + 1) (maxlen - 1) s; Some (n + 1)
      else Some 0
  end.

Fixpoint rt_strcmp (fuel : nat) (cs ct : Z) (s : mem) : option Z :=
  match fuel with
  | O => None
  | S fuel =>
      a ← load 1 cs s;
      if a =? 0 then b ← load 1 ct s; Some (a - b)
      else
        b ← load 1 ct s;
        if a =? b then rt_strcmp fuel (cs + 1) (ct + 1) s else Some (a - b)
  end.

Definition lower_case (c : Z) : Z := if (65 <=? c) && (c <=? 90) then c + (97 - 65) else c.
Fixpoint rt_strcasecmp (fuel : nat) (a b : Z) (s : mem) : option Z :=
  match fuel with
  | O => None
  | S fuel =>
      ca ← load 1 a s; cb ← load 1 b s;
      let ca := lower_case (Z.land ca 0xff) in
      let cb := lower_case (Z.land cb 0xff) in
      if (ca =? cb) && negb (ca =? 0) then rt_strcasecmp fuel (a + 1) (b + 1) s else Some (ca - cb)
  end.

(** [while (l1 >= l2)]; the result is the pointer, 0 for [RT_NULL]. *)
Fixpoint strstr_loop (fuel : nat) (s1 s2 l1 l2 : Z) (s : mem) : option Z :=
  match fuel with
  | O => None
  | S fuel =>
      if l2 <=? l1 then
        r ← rt_memcmp s1 s2 l2 s;
        if r =? 0 then Some s1 else strstr_loop fuel (s1 + 1) s2 (l1 - 1) l2 s
      else Some 0
  end.
Definition rt_strstr (fuel : nat) (s1 s2 : Z) (s : mem) : option Z :=
  l2 ← rt_strlen fuel s2 s;
  if l2 =? 0 then Some s1
  else l1 ← rt_strlen fuel s1 s; strstr_loop fuel s1 s2 l1 l2 s.

(** ** Aligned allocation *)
Definition update_mem (f : mem -> option mem) : H unit := fun h => m ← f (hp_bytes h); Some (tt, set_bytes m h).

Definition rt_malloc_align (size align : Z) : H Z :=
  let uintptr_size := 4 - 1 in
  let align := Z.land (u32 (align + uintptr_size)) (Z.lnot uintptr_size) in
  let align_size := u32 (Z.land (u32 (size + uintptr_size)) (Z.lnot uintptr_size) + align) in
  p ← rt_malloc align_size;
  if negb (p =? RT_NULL) then
    let align_ptr :=
      if Z.land p (align - 1) =? 0 then u32 (p + align)
      else Z.land (u32 (p + (align - 1))) (Z.lnot (align - 1)) in
    base ← hget heap_ptr;
    st 4 (align_ptr - 4 - base) p;;
    mret align_ptr
  else mret p.

Definition rt_free_align (p : Z) : H unit :=
  base ← hget heap_ptr;
  real_ptr ← ld 4 (p - 4 - base);
  rt_free real_ptr.

(** ** The word loops are the byte loops *)
Lemma load1 a s : load 1 a s = s !! a.
Proof. cbn. destruct (s !! a) as [b|]; cbn; [|done]. f_equal. lia. Qed.

Lemma store1 a v s : store 1 a v s = (_ ← s !! a; Some (<[a := v mod 256]> s)).
Proof. done. Qed.

(** Stores above [a] do not see what is at [a]. *)
Lemma store_insert n b v a x s : a < b -> store n b v (<[a := x]> s) = (fun s => <[a := x]> s) <$> store n b v s.
Proof.
  revert b v. induction n as [|n IH]; intros b v Hlt; cbn [store]; [done|].
  rewrite lookup_insert_ne by lia. destruct (s !! b) as [c|]; cbn; [|done]. rewrite IH by lia.
  destruct (store n (b + 1) (v / 256) s) as [s'|]; cbn; [|done]. f_equal. apply insert_insert_ne. lia.
Qed.

Lemma set_bytes_app n k m d s : set_bytes_loop (n + k) m d s = set_bytes_loop n m d s ≫= set_bytes_loop k (m + Z.of_nat n) d.
Proof.
  revert m s. induction n as [|n IH]; intros m s; cbn [Nat.add set_bytes_loop]; [cbn; f_equal; lia|].
  rewrite store1. destruct (s !! m) as [c|]; cbn [mbind option_bind]; [|done]. rewrite IH.
  replace (m + 1 + Z.of_nat n) with (m + Z.of_nat (S n)) by lia. done.
Qed.

Lemma set_bytes_insert n b d a x s : a < b -> set_bytes_loop n b d (<[a := x]> s) = (fun s => <[a := x]> s) <$> set_bytes_loop n b d s.
Proof.
  revert b s. induction n as [|n IH]; intros b s Hlt; cbn [set_bytes_loop]; [done|]. rewrite !store1.
  rewrite lookup_insert_ne by lia. destruct (s !! b) as [c|]; cbn [mbind option_bind]; [|done].
  rewrite insert_insert_ne by lia. apply IH. lia.
Qed.

(** The number whose [n] bytes are all [d]. *)
Fixpoint repeated (n : nat) (d : Z) : Z := match n with O => 0 | S n => d + 256 * repeated n d end.

Lemma store_repeated n a d s : 0 <= d < 256 -> store n a (repeated n d) s = set_bytes_loop n a d s.
Proof.
  intros Hd. revert a s. induction n as [|n IH]; intros a s; [done|]. cbn [store set_bytes_loop repeated].
  destruct (s !! a) as [c|]; cbn [mbind option_bind]; [|done].
  replace (d + 256 * repeated n d) with (d + repeated n d * 256) by lia.
  rewrite Z.div_add, Z.div_small, Z.add_0_l, Z.mod_add by lia. rewrite IH, set_bytes_insert by lia.
  by destruct (set_bytes_loop n (a + 1) d s).
Qed.

Lemma set_buffer_repeated d : 0 <= d < 256 -> set_buffer d = repeated 4 d.
Proof.
  intros Hd. assert (Forall (fun d => set_buffer d = repeated 4 d) (seqZ 0 256)) as H.
  { apply (bool_decide_unpack _). by vm_compute. }
  rewrite Forall_forall in H. apply H, elem_of_seqZ. lia.
Qed.

Lemma div_step w count : 0 < w -> (count - w) / w = count / w - 1 /\ (count - w) mod w = count mod w.
Proof.
  intros Hw. replace (count - w) with (count + (-1) * w) by lia. by rewrite Z.div_add, Z.mod_add by lia.
Qed.

(** A loop over blocks of [w] bytes sets the bytes one by one. *)
Lemma set_block w a count d s (body : Z -> mem -> option mem) : 0 < w <= count ->
  body a s = set_bytes_loop (Z.to_nat w) a d s ->
  (s ← body a s; s' ← set_bytes_loop (Z.to_nat (w * ((count - w) / w))) (a + w) d s;
     Some (a + w + w * ((count - w) / w), (count - w) mod w, s'))
  = (s' ← set_bytes_loop (Z.to_nat (w * (count / w))) a d s; Some (a + w * (count / w), count mod w, s')).
Proof.
  intros Hw Hb. destruct (div_step w count) as [E1 E2]; [lia|].
  assert (0 < count / w) by (apply Z.div_str_pos; lia). rewrite Hb, E1, E2.
  assert (Z.to_nat (w * (count / w)) = Z.to_nat w + Z.to_nat (w * (count / w - 1)))%nat as ->.
  { rewrite <- Z2Nat.inj_add by nia. f_equal. lia. }
  rewrite set_bytes_app. rewrite Z2Nat.id by lia. replace (a + w + w * (count / w - 1)) with (a + w * (count / w)) by lia.
  by destruct (set_bytes_loop (Z.to_nat w) a d s).
Qed.

Lemma set_word_run fuel a count d s : 0 <= d < 256 -> 0 <= count -> (Z.to_nat count < fuel)%nat ->
  set_word_loop fuel a count (set_buffer d) s =
  (s' ← set_bytes_loop (Z.to_nat (4 * (count / 4))) a d s; Some (a + 4 * (count / 4), count mod 4, s')).
Proof.
  intros Hd. revert a count s. induction fuel as [|fuel IH]; intros a count s Hc Hf; [lia|]. cbn [set_word_loop].
  destruct (Z.leb_spec 4 count).
  - rewrite <- (set_block 4 a count d s (fun a s => store 4 a (set_buffer d) s)); [|lia|by rewrite set_buffer_repeated, store_repeated].
    destruct (store 4 a (set_buffer d) s) as [s1|]; cbn [mbind option_bind]; [|done]. apply IH; lia.
  - by rewrite Z.div_small, Z.mod_small, Z.mul_0_r, Z.add_0_r by lia.
Qed.

Lemma store_word a d s : 0 <= d < 256 -> store 4 a (set_buffer d) s = set_bytes_loop 4 a d s.
Proof. intros Hd. by rewrite set_buffer_repeated, store_repeated. Qed.

Lemma set_big_run fuel a count d s : 0 <= d < 256 -> 0 <= count -> (Z.to_nat count < fuel)%nat ->
  set_big_loop fuel a count (set_buffer d) s =
  (s' ← set_bytes_loop (Z.to_nat (16 * (count / 16))) a d s; Some (a + 16 * (count / 16), count mod 16, s')).
Proof.
  intros Hd. revert a count s. induction fuel as [|fuel IH]; intros a count s Hc Hf; [lia|]. cbn [set_big_loop].
  destruct (Z.leb_spec 16 count).
  - rewrite <- (set_block 16 a count d s (fun a s => set_bytes_loop 16 a d s)); [|lia|done].
    change 16%nat with (4 + (4 + (4 + 4)))%nat. rewrite !set_bytes_app, store_word by done. change (Z.of_nat 4) with 4.
    destruct (set_bytes_loop 4 a d s) as [s1|]; cbn [mbind option_bind]; [|done]. rewrite set_bytes_app, store_word by done.
    destruct (set_bytes_loop 4 (a + 4) d s1) as [s2|]; cbn [mbind option_bind]; [|done].
    rewrite set_bytes_app, store_word by done. change (Z.of_nat 4) with 4. replace (a + 4 + 4) with (a + 8) by lia.
    destruct (set_bytes_loop 4 (a + 8) d s2) as [s3|]; cbn [mbind option_bind]; [|done].
    rewrite store_word by done. replace (a + 8 + 4) with (a + 12) by lia.
    destruct (set_bytes_loop 4 (a + 12) d s3) as [s4|]; cbn [mbind option_bind]; [|done]. apply IH; lia.
  - by rewrite Z.div_small, Z.mod_small, Z.mul_0_r, Z.add_0_r by lia.
Qed.

Lemma land_255 c : Z.land c 0xff = c mod 256.
Proof. change 0xff with (Z.ones 8). by rewrite Z.land_ones by lia. Qed.

Lemma memset_run_eq s c count m : 0 <= count -> rt_memset s c count m = set_bytes_loop (Z.to_nat count) s (c mod 256) m.
Proof.
  intros Hc. unfold rt_memset. rewrite land_255. set (d := c mod 256).
  assert (0 <= d < 256) as Hd by (apply Z.mod_pos_bound; lia). destruct (negb _ && _); [|done].
  rewrite set_big_run by (done || lia). pose proof (Z.div_mod count 16 ltac:(lia)). pose proof (Z.mod_pos_bound count 16 ltac:(lia)).
  set (r := count mod 16) in *. pose proof (Z.div_mod r 4 ltac:(lia)). pose proof (Z.mod_pos_bound r 4 ltac:(lia)).
  assert (forall s d m, set_bytes_loop (Z.to_nat count) s d m =
    set_bytes_loop (Z.to_nat (16 * (count / 16)) + (Z.to_nat (4 * (r / 4)) + Z.to_nat (r mod 4))) s d m) as -> by (intros; f_equal; lia).
  rewrite set_bytes_app. destruct (set_bytes_loop _ s d m) as [m1|]; cbn [mbind option_bind]; [|done].
  rewrite set_word_run by lia. rewrite set_bytes_app. rewrite Z2Nat.id by lia.
  destruct (set_bytes_loop _ _ d m1) as [m2|]; cbn [mbind option_bind]; [|done]. f_equal. lia.
Qed.

(** *** rt_memcpy *)
Definition wf_mem (s : mem) : Prop := forall a b, s !! a = Some b -> 0 <= b < 256.

Lemma wf_insert s a v : wf_mem s -> wf_mem (<[a := v mod 256]> s).
Proof. intros Hw b c. rewrite lookup_insert_Some. intros [[_ <-]|[_ Hb]]; [apply Z.mod_pos_bound; lia|by eapply Hw]. Qed.

Lemma copy_step n dst src s : copy_loop (S n) dst src s =
  (b ← s !! src; _ ← s !! dst; copy_loop n (dst + 1) (src + 1) (<[dst := b mod 256]> s)).
Proof. cbn [copy_loop]. rewrite load1. destruct (s !! src); cbn; [|done]. by destruct (s !! dst). Qed.

Lemma copy_wf n dst src s s' : wf_mem s -> copy_loop n dst src s = Some s' -> wf_mem s'.
Proof.
  revert dst src s. induction n as [|n IH]; intros dst src s Hw; [by intros [= <-]|]. rewrite copy_step.
  destruct (s !! src) as [b|]; cbn [mbind option_bind]; [|done]. destruct (s !! dst); cbn [mbind option_bind]; [|done].
  by apply IH, wf_insert.
Qed.

Lemma load_insert n a b x s : b < a \/ a + Z.of_nat n <= b -> load n a (<[b := x]> s) = load n a s.
Proof. intros Hb. apply load_ext. intros c Hc. apply lookup_insert_ne. lia. Qed.

Lemma copy_apart n dst src s : wf_mem s -> dst + Z.of_nat n <= src \/ src + Z.of_nat n <= dst ->
  copy_loop n dst src s = (v ← load n src s; store n dst v s).
Proof.
  revert dst src s. induction n as [|n IH]; intros dst src s Hw Hap; [done|]. rewrite copy_step. cbn [load store].
  destruct (s !! src) as [b|] eqn:Eb; cbn [mbind option_bind]; [|done]. pose proof (Hw _ _ Eb) as Hb. rewrite (Z.mod_small b) by done.
  destruct (s !! dst) as [c|] eqn:Ec; cbn [mbind option_bind]; [|by destruct (load n (src + 1) s)].
  rewrite IH; [|rewrite <- (Z.mod_small b 256) by done; by apply wf_insert|lia]. rewrite load_insert by lia.
  destruct (load n (src + 1) s) as [r|]; cbn [mbind option_bind]; [|done].
  replace (b + 256 * r) with (b + r * 256) by lia. rewrite Z.div_add, Z.div_small, Z.mod_add, Z.mod_small, Z.add_0_l by lia.
  rewrite store_insert by lia. by destruct (store n (dst + 1) r s).
Qed.

Lemma copy_same n a s : wf_mem s -> copy_loop n a a s = (v ← load n a s; store n a v s).
Proof.
  intros Hw. revert a. induction n as [|n IH]; intros a; [done|]. rewrite copy_step. cbn [load store].
  destruct (s !! a) as [b|] eqn:Eb; cbn [mbind option_bind]; [|done]. pose proof (Hw _ _ Eb) as Hb. rewrite (Z.mod_small b) by done.
  rewrite insert_id, IH by done. destruct (load n (a + 1) s) as [r|]; cbn [mbind option_bind]; [|done].
  replace (b + 256 * r) with (b + r * 256) by lia. rewrite Z.div_add, Z.div_small, Z.mod_add, Z.mod_small, Z.add_0_l by lia.
  pose proof (store_insert n (a + 1) r a b s ltac:(lia)) as E. rewrite insert_id in E by done. rewrite E.
  destruct (store n (a + 1) r s); cbn; [|done]. by rewrite insert_insert_eq.
Qed.

(** Two aligned words are the same or apart. *)
Lemma copy_word_eq dst src s : wf_mem s -> dst mod 4 = 0 -> src mod 4 = 0 -> copy_word dst src s = copy_loop 4 dst src s.
Proof.
  intros Hw Hd Hs. unfold copy_word. destruct (decide (dst = src)) as [->|Hne]; [by rewrite copy_same|].
  rewrite copy_apart; [done|done|]. pose proof (Z.div_mod dst 4 ltac:(lia)). pose proof (Z.div_mod src 4 ltac:(lia)). lia.
Qed.

Lemma copy_app n k dst src s : copy_loop (n + k) dst src s =
  copy_loop n dst src s ≫= copy_loop k (dst + Z.of_nat n) (src + Z.of_nat n).
Proof.
  revert dst src s. induction n as [|n IH]; intros dst src s; [cbn; f_equal; lia|]. cbn [Nat.add]. rewrite !copy_step.
  destruct (s !! src); cbn [mbind option_bind]; [|done]. destruct (s !! dst); cbn [mbind option_bind]; [|done]. rewrite IH.
  replace (dst + 1 + Z.of_nat n) with (dst + Z.of_nat (S n)) by lia. by replace (src + 1 + Z.of_nat n) with (src + Z.of_nat (S n)) by lia.
Qed.

Lemma copy_block w dst src len s (s1 : option mem) : 0 < w <= len -> s1 = copy_loop (Z.to_nat w) dst src s ->
  (s ← s1; s' ← copy_loop (Z.to_nat (w * ((len - w) / w))) (dst + w) (src + w) s;
     Some (dst + w + w * ((len - w) / w), src + w + w * ((len - w) / w), (len - w) mod w, s'))
  = (s' ← copy_loop (Z.to_nat (w * (len / w))) dst src s; Some (dst + w * (len / w), src + w * (len / w), len mod w, s')).
Proof.
  intros Hw ->. destruct (div_step w len) as [E1 E2]; [lia|]. assert (0 < len / w) by (apply Z.div_str_pos; lia). rewrite E1, E2.
  assert (Z.to_nat (w * (len / w)) = Z.to_nat w + Z.to_nat (w * (len / w - 1)))%nat as ->.
  { rewrite <- Z2Nat.inj_add by nia. f_equal. lia. }
  rewrite copy_app. rewrite Z2Nat.id by lia. replace (dst + w + w * (len / w - 1)) with (dst + w * (len / w)) by lia.
  replace (src + w + w * (len / w - 1)) with (src + w * (len / w)) by lia. by destruct (copy_loop (Z.to_nat w) dst src s).
Qed.

Lemma aligned_add a k : a mod 4 = 0 -> (a + 4 * k) mod 4 = 0.
Proof. intros Ha. replace (a + 4 * k) with (a + k * 4) by lia. by rewrite Z.mod_add. Qed.

Lemma copy_word_run fuel dst src len s : wf_mem s -> dst mod 4 = 0 -> src mod 4 = 0 -> 0 <= len -> (Z.to_nat len < fuel)%nat ->
  copy_word_loop fuel dst src len s =
  (s' ← copy_loop (Z.to_nat (4 * (len / 4))) dst src s; Some (dst + 4 * (len / 4), src + 4 * (len / 4), len mod 4, s')).
Proof.
  revert dst src len s. induction fuel as [|fuel IH]; intros dst src len s Hw Hd Hs Hc Hf; [lia|]. cbn [copy_word_loop].
  destruct (Z.leb_spec 4 len).
  - rewrite <- (copy_block 4 dst src len s (copy_word dst src s)); [|lia|by apply copy_word_eq].
    rewrite copy_word_eq by done. destruct (copy_loop 4 dst src s) as [s1|] eqn:E; cbn [mbind option_bind]; [|done].
    apply IH; [by eapply copy_wf|by apply (aligned_add _ 1)|by apply (aligned_add _ 1)|lia|lia].
  - by rewrite Z.div_small, Z.mod_small, Z.mul_0_r, !Z.add_0_r by lia.
Qed.

Lemma copy_big_run fuel dst src len s : wf_mem s -> dst mod 4 = 0 -> src mod 4 = 0 -> 0 <= len -> (Z.to_nat len < fuel)%nat ->
  copy_big_loop fuel dst src len s =
  (s' ← copy_loop (Z.to_nat (16 * (len / 16))) dst src s; Some (dst + 16 * (len / 16), src + 16 * (len / 16), len mod 16, s')).
Proof.
  revert dst src len s. induction fuel as [|fuel IH]; intros dst src len s Hw Hd Hs Hc Hf; [lia|]. cbn [copy_big_loop].
  destruct (Z.leb_spec 16 len); [|by rewrite Z.div_small, Z.mod_small, Z.mul_0_r, !Z.add_0_r by lia].
  rewrite <- (copy_block 16 dst src len s (copy_loop 16 dst src s)); [|lia|done].
  change 16%nat with (4 + (4 + (4 + 4)))%nat. rewrite copy_app, copy_word_eq by done.
  destruct (copy_loop 4 dst src s) as [s1|] eqn:E1; cbn [mbind option_bind]; [|done]. apply copy_wf in E1; [|done].
  rewrite copy_app, copy_word_eq by (done || by apply (aligned_add _ 1)). change (Z.of_nat 4) with 4.
  destruct (copy_loop 4 (dst + 4) (src + 4) s1) as [s2|] eqn:E2; cbn [mbind option_bind]; [|done]. apply copy_wf in E2; [|done].
  rewrite copy_app, copy_word_eq by (done || by apply (aligned_add _ 2)). change (Z.of_nat 4) with 4.
  replace (dst + 4 + 4) with (dst + 8) by lia. replace (src + 4 + 4) with (src + 8) by lia.
  destruct (copy_loop 4 (dst + 8) (src + 8) s2) as [s3|] eqn:E3; cbn [mbind option_bind]; [|done]. apply copy_wf in E3; [|done].
  rewrite copy_word_eq by (done || by apply (aligned_add _ 3)).
  replace (dst + 8 + 4) with (dst + 12) by lia. replace (src + 8 + 4) with (src + 12) by lia.
  destruct (copy_loop 4 (dst + 12) (src + 12) s3) as [s4|] eqn:E4; cbn [mbind option_bind]; [|done]. apply copy_wf in E4; [|done].
  apply IH; [done|by apply (aligned_add _ 4)|by apply (aligned_add _ 4)|lia|lia].
Qed.

Lemma memcpy_run_eq dst src count s : wf_mem s -> 0 <= count -> rt_memcpy dst src count s = copy_loop (Z.to_nat count) dst src s.
Proof.
  intros Hw Hc. unfold rt_memcpy. destruct (negb _ && _) eqn:E; [|done]. apply andb_true_iff in E as [_ E].
  apply Z.eqb_eq, Z.lor_eq_0_iff in E as [Es Ed]. change (4 - 1) with (RT_ALIGN_SIZE - 1) in *. rewrite land_3 in Es, Ed.
  pose proof (Z.div_mod count 16 ltac:(lia)). pose proof (Z.mod_pos_bound count 16 ltac:(lia)). rewrite copy_big_run by (done || lia).
  set (r := count mod 16) in *. pose proof (Z.div_mod r 4 ltac:(lia)). pose proof (Z.mod_pos_bound r 4 ltac:(lia)).
  assert (forall d r' m, copy_loop (Z.to_nat count) d r' m =
    copy_loop (Z.to_nat (16 * (count / 16)) + (Z.to_nat (4 * (r / 4)) + Z.to_nat (r mod 4))) d r' m) as -> by (intros; f_equal; lia).
  rewrite copy_app. destruct (copy_loop _ dst src s) as [s1|] eqn:E1; cbn [mbind option_bind]; [|done]. apply copy_wf in E1; [|done].
  replace (16 * (count / 16)) with (4 * (4 * (count / 16))) by lia.
  rewrite copy_word_run; [|done|by apply aligned_add|by apply aligned_add|lia|lia]. rewrite copy_app, !Z2Nat.id by lia.
  destruct (copy_loop _ _ _ s1) as [s2|]; cbn [mbind option_bind]; [|done]. f_equal; lia.
Qed.

(** *** rt_memmove *)

(** The bytes of [src] as they were in [s] are at [dst] in [s'], and nothing
    else changed. *)
Definition moved (dst src n : Z) (s s' : mem) : Prop :=
  (forall i, 0 <= i < n -> s' !! (dst + i) = s !! (src + i)) /\ same_outside dst (dst + n) s s'.

Lemma copy_up_run n dst src s : wf_mem s -> present dst (dst + Z.of_nat n) s -> present src (src + Z.of_nat n) s ->
  dst <= src \/ src + Z.of_nat n <= dst -> exists s', copy_loop n dst src s = Some s' /\ moved dst src (Z.of_nat n) s s'.
Proof.
  revert dst src s. induction n as [|n IH]; intros dst src s Hw Hd Hs Hap.
  { exists s. split; [done|]. split; [lia|by intros a]. }
  rewrite copy_step. destruct (Hs src ltac:(lia)) as (b & Eb & Hb). destruct (Hd dst ltac:(lia)) as (c & Ec & _).
  rewrite Eb, Ec. cbn [mbind option_bind]. set (s1 := <[dst := b mod 256]> s).
  destruct (IH (dst + 1) (src + 1) s1) as (s' & Hrun & Hv & So).
  { by apply wf_insert. } { eapply present_keeps; [apply keeps_insert|]. eapply present_sub; [| |exact Hd]; lia. }
  { eapply present_keeps; [apply keeps_insert|]. eapply present_sub; [| |exact Hs]; lia. } { lia. }
  exists s'. split; [done|]. split.
  - intros i Hi. destruct (decide (i = 0)) as [->|].
    + rewrite So by lia. unfold s1. by rewrite !Z.add_0_r, lookup_insert_eq, Z.mod_small, Eb.
    + replace (dst + i) with (dst + 1 + (i - 1)) by lia. rewrite Hv by lia. unfold s1. rewrite lookup_insert_ne by lia. f_equal; lia.
  - intros a Ha. rewrite So by lia. unfold s1. apply lookup_insert_ne. lia.
Qed.

Lemma copy_down_step n tmp src s : copy_down_loop (S n) tmp src s =
  (b ← s !! (src - 1); _ ← s !! (tmp - 1); copy_down_loop n (tmp - 1) (src - 1) (<[tmp - 1 := b mod 256]> s)).
Proof. cbn [copy_down_loop]. rewrite load1. destruct (s !! (src - 1)); cbn; [|done]. by destruct (s !! (tmp - 1)). Qed.

Lemma copy_down_run n dst src s : present dst (dst + Z.of_nat n) s -> present src (src + Z.of_nat n) s -> src <= dst ->
  exists s', copy_down_loop n (dst + Z.of_nat n) (src + Z.of_nat n) s = Some s' /\ moved dst src (Z.of_nat n) s s'.
Proof.
  revert s. induction n as [|n IH]; intros s Hd Hs Hle.
  { exists s. split; [done|]. split; [lia|by intros a]. }
  rewrite copy_down_step. replace (src + Z.of_nat (S n) - 1) with (src + Z.of_nat n) by lia.
  replace (dst + Z.of_nat (S n) - 1) with (dst + Z.of_nat n) by lia.
  destruct (Hs (src + Z.of_nat n) ltac:(lia)) as (b & Eb & Hb). destruct (Hd (dst + Z.of_nat n) ltac:(lia)) as (c & Ec & _).
  rewrite Eb, Ec. cbn [mbind option_bind]. set (s1 := <[dst + Z.of_nat n := b mod 256]> s).
  destruct (IH s1) as (s' & Hrun & Hv & So).
  { eapply present_keeps; [apply keeps_insert|]. eapply present_sub; [| |exact Hd]; lia. }
  { eapply present_keeps; [apply keeps_insert|]. eapply present_sub; [| |exact Hs]; lia. } { done. }
  exists s'. split; [done|]. split.
  - intros i Hi. destruct (decide (i = Z.of_nat n)) as [->|].
    + rewrite So by lia. unfold s1. by rewrite lookup_insert_eq, Z.mod_small, Eb.
    + rewrite Hv by lia. unfold s1. rewrite lookup_insert_ne by lia. done.
  - intros a Ha. rewrite So by lia. unfold s1. apply lookup_insert_ne. lia.
Qed.

(** *** Comparing and searching *)

(** The string [l] is at [a], closed by a null character. *)
Definition is_char (c : Z) : Prop := 0 < c < 256.
Record cstr (s : mem) (a : Z) (l : list Z) : Prop := {
  cs_bytes : contents s a (l ++ [0]);
  cs_chars : Forall is_char l
}.

Lemma contents_cons s a c l : contents s a (c :: l) <-> s !! a = Some c /\ contents s (a + 1) l.
Proof.
  split.
  - intros H. split; [by rewrite <- (Z.add_0_r a); apply (H 0%nat)|]. intros i b Hi.
    replace (a + 1 + Z.of_nat i) with (a + Z.of_nat (S i)) by lia. by apply H.
  - intros [H1 H2] [|i] b; cbn; [intros [= <-]; by rewrite Z.add_0_r|]. intros Hi.
    replace (a + Z.of_nat (S i)) with (a + 1 + Z.of_nat i) by lia. by apply H2.
Qed.

Lemma cstr_nil s a : cstr s a [] -> s !! a = Some 0.
Proof. intros [H _]. by apply contents_cons in H as [H _]. Qed.
Lemma cstr_cons s a c l : cstr s a (c :: l) -> s !! a = Some c /\ is_char c /\ cstr s (a + 1) l.
Proof. intros [H1 H2]. cbn in H1. apply contents_cons in H1 as [H1 H3]. apply Forall_cons in H2 as [H2 H4]. split; [done|]. split; [done|]. by split. Qed.

Lemma strlen_run fuel a l s : cstr s a l -> (length l < fuel)%nat -> rt_strlen fuel a s = Some (Z.of_nat (length l)).
Proof.
  revert a fuel. induction l as [|c l IH]; intros a [|fuel] Hc Hf; cbn [length] in *; try lia; cbn [rt_strlen]; rewrite load1.
  - by rewrite (cstr_nil _ _ Hc).
  - apply cstr_cons in Hc as (-> & Hch & Hc). cbn [mbind option_bind]. destruct (Z.eqb_spec c 0); [unfold is_char in *; lia|].
    rewrite (IH (a + 1) fuel) by (done || lia). cbn. f_equal. lia.
Qed.

(** The first difference of two byte sequences. *)
Fixpoint first_diff (l1 l2 : list Z) : Z :=
  match l1, l2 with
  | a :: l1, b :: l2 => if a - b =? 0 then first_diff l1 l2 else a - b
  | _, _ => 0
  end.

Lemma first_diff_eq l1 l2 : length l1 = length l2 -> first_diff l1 l2 = 0 <-> l1 = l2.
Proof.
  revert l2. induction l1 as [|a l1 IH]; intros [|b l2] Hl; try done. cbn in *.
  destruct (Z.eqb_spec (a - b) 0) as [E|E]; [assert (a = b) as -> by lia; rewrite IH by lia; naive_solver|].
  split; [lia|]. intros [= -> ->]. lia.
Qed.

Lemma memcmp_run n a1 a2 l1 l2 s : contents s a1 l1 -> contents s a2 l2 -> length l1 = n -> length l2 = n ->
  memcmp_loop n a1 a2 s = Some (first_diff l1 l2).
Proof.
  revert a1 a2 l1 l2. induction n as [|n IH]; intros a1 a2 [|b1 l1] [|b2 l2] H1 H2 E1 E2; try done.
  cbn [memcmp_loop first_diff]. apply contents_cons in H1 as [H1 H1']. apply contents_cons in H2 as [H2 H2'].
  rewrite !load1, H1. cbn [mbind option_bind]. rewrite H2. cbn [mbind option_bind]. cbn in E1, E2.
  destruct (b1 - b2 =? 0); cbn [negb]; [|done]. apply IH; [done|done|lia|lia].
Qed.

Lemma strcmp_run fuel a b l1 l2 s : cstr s a l1 -> cstr s b l2 -> (length l1 < fuel)%nat ->
  rt_strcmp fuel a b s = Some (first_diff (l1 ++ [0]) (l2 ++ [0])).
Proof.
  revert a b l1 l2. induction fuel as [|fuel IH]; intros a b l1 l2 H1 H2 Hf; [lia|]. cbn [rt_strcmp]. rewrite !load1.
  destruct l1 as [|c l1].
  - rewrite (cstr_nil _ _ H1). cbn [mbind option_bind Z.eqb]. destruct l2 as [|d l2].
    + by rewrite (cstr_nil _ _ H2).
    + apply cstr_cons in H2 as (-> & Hd & _). cbn [mbind option_bind app first_diff].
      destruct (Z.eqb_spec (0 - d) 0); [unfold is_char in *; lia|done].
  - apply cstr_cons in H1 as (-> & Hc & H1). cbn [mbind option_bind]. destruct (Z.eqb_spec c 0); [unfold is_char in *; lia|].
    destruct l2 as [|d l2].
    + rewrite (cstr_nil _ _ H2). cbn [mbind option_bind app first_diff]. destruct (Z.eqb_spec c 0); [lia|].
      destruct (Z.eqb_spec (c - 0) 0); [lia|done].
    + apply cstr_cons in H2 as (-> & Hd & H2). cbn [mbind option_bind app first_diff].
      destruct (Z.eqb_spec c d) as [->|]; [rewrite Z.sub_diag; cbn; by apply IH; [..|cbn in Hf; lia]|].
      destruct (Z.eqb_spec (c - d) 0); [lia|done].
Qed.

Lemma contents_sub s a l1 l l2 : contents s a (l1 ++ l ++ l2) -> contents s (a + Z.of_nat (length l1)) l.
Proof.
  intros H i b Hi. replace (a + Z.of_nat (length l1) + Z.of_nat i) with (a + Z.of_nat (length l1 + i)) by lia. apply H.
  rewrite lookup_app_r by lia. replace (length l1 + i - length l1)%nat with i by lia. by rewrite lookup_app_l by (by eapply lookup_lt_Some).
Qed.

(** [l2] occurs in [l1] at [k]. *)
Definition occurs (l2 l1 : list Z) (k : nat) : Prop := l2 `prefix_of` drop k l1.

Lemma strstr_loop_run fuel a b l1 l2 s : cstr s a l1 -> cstr s b l2 -> (length l1 < fuel)%nat -> l2 <> [] ->
  (exists k, occurs l2 l1 k /\ (forall j, (j < k)%nat -> ~ occurs l2 l1 j) /\
     strstr_loop fuel a b (Z.of_nat (length l1)) (Z.of_nat (length l2)) s = Some (a + Z.of_nat k)) \/
  ((forall j, ~ occurs l2 l1 j) /\ strstr_loop fuel a b (Z.of_nat (length l1)) (Z.of_nat (length l2)) s = Some 0).
Proof.
  intros H1 H2. revert fuel a H1. induction l1 as [|c l1 IH]; intros [|fuel] a H1 Hf Hne; cbn [length] in *; try lia.
  - right. split; [intros j [k Hk]; rewrite drop_nil in Hk; by destruct l2|]. cbn [strstr_loop].
    rewrite (proj2 (Z.leb_gt _ _)); [done|]. destruct l2; [done|cbn; lia].
  - cbn [strstr_loop]. destruct (Z.leb_spec (Z.of_nat (length l2)) (Z.of_nat (S (length l1)))) as [Hle|Hgt].
    2:{ right. split; [|done]. intros j Hj. apply prefix_length in Hj. rewrite length_drop in Hj. cbn in Hj. lia. }
    unfold rt_memcmp. rewrite Nat2Z.id.
    rewrite (memcmp_run _ a b (take (length l2) (c :: l1)) l2); [|..|done].
    2:{ destruct H1 as [H1 _]. rewrite <- (take_drop (length l2) (c :: l1)), <- app_assoc in H1.
        pose proof (contents_sub s a [] _ _ H1) as H. cbn [length] in H. by rewrite Z.add_0_r in H. }
    2:{ destruct H2 as [H2 _]. pose proof (contents_sub s b [] _ _ H2) as H. cbn [length] in H. by rewrite Z.add_0_r in H. }
    2:{ rewrite length_take. cbn. lia. }
    cbn [mbind option_bind]. assert (length (take (length l2) (c :: l1)) = length l2) as Hlen by (rewrite length_take; cbn; lia).
    destruct (Z.eqb_spec (first_diff (take (length l2) (c :: l1)) l2) 0) as [E|E].
    + apply first_diff_eq in E; [|done]. left. exists 0%nat. split; [|split; [lia|by rewrite Z.add_0_r]].
      exists (drop (length l2) (c :: l1)). rewrite <- E at 1. by rewrite take_drop.
    + assert (~ occurs l2 (c :: l1) 0) as Hno.
      { intros [k Hk]. apply E, first_diff_eq; [done|]. cbn [drop] in Hk. rewrite Hk. by rewrite take_app_length. }
      apply cstr_cons in H1 as (_ & _ & H1). replace (Z.of_nat (S (length l1)) - 1) with (Z.of_nat (length l1)) by lia.
      destruct (IH fuel (a + 1) H1 ltac:(lia) Hne) as [(k & Hk & Hmin & Hrun)|[Hnone Hrun]]; [left; exists (S k)|right].
      * split; [exact Hk|]. split; [|rewrite Hrun; f_equal; lia]. intros [|j] Hj; [done|]. apply (Hmin j). lia.
      * split; [|done]. intros [|j]; [done|]. apply (Hnone j).
Qed.

Lemma lower_case_zero c : is_char c -> lower_case c <> 0.
Proof. unfold is_char, lower_case. intros Hc. destruct ((65 <=? c) && (c <=? 90)); lia. Qed.

Lemma char_land c : is_char c -> Z.land c 0xff = c.
Proof. unfold is_char. intros Hc. rewrite land_255. apply Z.mod_small. lia. Qed.

Lemma strcasecmp_run fuel a b l1 l2 s : cstr s a l1 -> cstr s b l2 -> (length l1 < fuel)%nat ->
  rt_strcasecmp fuel a b s = Some (first_diff (map lower_case l1 ++ [0]) (map lower_case l2 ++ [0])).
Proof.
  revert a b l1 l2. induction fuel as [|fuel IH]; intros a b l1 l2 H1 H2 Hf; [lia|]. cbn [rt_strcasecmp]. rewrite !load1.
  destruct l1 as [|c l1], l2 as [|d l2].
  - by rewrite (cstr_nil _ _ H1), (cstr_nil _ _ H2).
  - apply cstr_cons in H2 as (-> & Hd & _). rewrite (cstr_nil _ _ H1). cbn [mbind option_bind map app first_diff].
    rewrite (char_land d) by done. pose proof (lower_case_zero d Hd). change (lower_case (Z.land 0 255)) with 0.
    destruct (Z.eqb_spec 0 (lower_case d)); [lia|]. cbn [andb]. destruct (Z.eqb_spec (0 - lower_case d) 0); [lia|done].
  - apply cstr_cons in H1 as (-> & Hc & _). rewrite (cstr_nil _ _ H2). cbn [mbind option_bind map app first_diff].
    rewrite (char_land c) by done. pose proof (lower_case_zero c Hc). change (lower_case (Z.land 0 255)) with 0.
    destruct (Z.eqb_spec (lower_case c) 0); [lia|]. cbn [andb]. destruct (Z.eqb_spec (lower_case c - 0) 0); [lia|done].
  - apply cstr_cons in H1 as (-> & Hc & H1). apply cstr_cons in H2 as (-> & Hd & H2). cbn [mbind option_bind map app first_diff].
    rewrite !char_land by done. pose proof (lower_case_zero c Hc). destruct (Z.eqb_spec (lower_case c) (lower_case d)) as [->|].
    + rewrite Z.sub_diag. cbn [Z.eqb]. destruct (Z.eqb_spec (lower_case d) 0); [by destruct (lower_case_zero d Hd)|]. cbn [andb negb].
      apply IH; [done|done|cbn in Hf; lia].
    + cbn [andb]. destruct (Z.eqb_spec (lower_case c - lower_case d) 0); [lia|done].
Qed.

(** *** Aligned allocation *)
Lemma land_pow2 p k : 0 <= k -> Z.land p (2 ^ k - 1) = p mod 2 ^ k.
Proof. intros Hk. rewrite <- Z.land_ones by done. by rewrite Z.ones_equiv, Z.sub_1_r. Qed.

Lemma land_lnot_pow2 p k : 0 <= k -> Z.land p (Z.lnot (2 ^ k - 1)) = 2 ^ k * (p / 2 ^ k).
Proof.
  intros Hk. rewrite <- Z.ldiff_land. replace (2 ^ k - 1) with (Z.ones k) by (by rewrite Z.ones_equiv, Z.sub_1_r).
  rewrite Z.ldiff_ones_r, Z.shiftr_div_pow2, Z.shiftl_mul_pow2 by done. lia.
Qed.

Lemma word_up n : 0 <= n -> n + 3 < 2 ^ 32 ->
  n <= Z.land (u32 (n + (4 - 1))) (Z.lnot (4 - 1)) < n + 4 /\ Z.land (u32 (n + (4 - 1))) (Z.lnot (4 - 1)) mod 4 = 0.
Proof.
  intros H1 H2. rewrite wrap_small by lia. change (4 - 1) with (2 ^ 2 - 1). rewrite land_lnot_pow2 by lia. change (2 ^ 2) with 4.
  pose proof (Z.div_mod (n + (4 - 1)) 4 ltac:(lia)). pose proof (Z.mod_pos_bound (n + (4 - 1)) 4 ltac:(lia)).
  split; [lia|]. rewrite Z.mul_comm. apply Z.mod_mul. lia.
Qed.

(** The aligned address lies at least a word and at most [2 ^ k] above the block. *)
Definition align_of (p k : Z) : Z := if Z.land p (2 ^ k - 1) =? 0 then p + 2 ^ k else Z.land (p + (2 ^ k - 1)) (Z.lnot (2 ^ k - 1)).

Lemma align_of_spec p k : 2 <= k -> p mod 4 = 0 -> p + 4 <= align_of p k <= p + 2 ^ k /\ align_of p k mod 2 ^ k = 0.
Proof.
  intros Hk Hp. assert (2 ^ k = 4 * 2 ^ (k - 2)) as E4.
  { replace k with (2 + (k - 2)) at 1 by lia. rewrite Z.pow_add_r by lia. lia. }
  assert (0 < 2 ^ (k - 2)) by (apply Z.pow_pos_nonneg; lia).
  unfold align_of. rewrite land_pow2, land_lnot_pow2 by lia. pose proof (Z.div_mod p (2 ^ k) ltac:(lia)) as Hdm.
  pose proof (Z.mod_pos_bound p (2 ^ k) ltac:(lia)) as Hr. destruct (Z.eqb_spec (p mod 2 ^ k) 0) as [E|E].
  - split; [lia|]. rewrite <- Z.add_mod_idemp_l, E, Z.add_0_l by lia. apply Z.mod_same. lia.
  - set (q := p / 2 ^ k) in *. set (r := p mod 2 ^ k) in *.
    assert (r mod 4 = 0) as Hr4.
    { unfold r. rewrite E4, <- Znumtheory.Zmod_div_mod; [done|lia|lia|]. exists (2 ^ (k - 2)). lia. }
    pose proof (Z.div_mod r 4 ltac:(lia)).
    replace ((p + (2 ^ k - 1)) / 2 ^ k) with (q + 1).
    2:{ rewrite Hdm. replace (2 ^ k * q + r + (2 ^ k - 1)) with ((r - 1) + (q + 1) * 2 ^ k) by lia.
        rewrite Z.div_add by lia. rewrite Z.div_small by lia. lia. }
    split; [nia|]. rewrite Z.mul_comm. apply Z.mod_mul. lia.
Qed.

Lemma align_up_pow2 k : 2 <= k -> 2 ^ k + 3 < 2 ^ 32 -> Z.land (u32 (2 ^ k + (4 - 1))) (Z.lnot (4 - 1)) = 2 ^ k.
Proof.
  intros Hk Hmax. assert (0 < 2 ^ k) by (apply Z.pow_pos_nonneg; lia). destruct (word_up (2 ^ k)) as [H1 H2]; [lia|done|].
  pose proof (Z.div_mod (Z.land (u32 (2 ^ k + (4 - 1))) (Z.lnot (4 - 1))) 4 ltac:(lia)).
  assert (2 ^ k = 4 * 2 ^ (k - 2)) as E4.
  { replace k with (2 + (k - 2)) at 1 by lia. rewrite Z.pow_add_r by lia. lia. }
  lia.
Qed.

(** Writing a word inside an allocation. *)
Lemma word_write live h b bytes a v : heap_rel live h -> live !! b = Some bytes -> 0 <= v < 2 ^ 32 ->
  b - heap_ptr h <= a -> a + 4 <= b - heap_ptr h + Z.of_nat (length bytes) ->
  exists m' bytes', st 4 a v h = Some (tt, set_bytes m' h) /\ length bytes' = length bytes /\
    heap_rel (<[b := bytes']> live) (set_bytes m' h) /\ load 4 a m' = Some v.
Proof.
  intros Hr Hb Hv H1 H2. destruct (rel_bytes _ _ _ _ Hr Hb) as (_ & _ & _ & _ & Hp & _).
  destruct (store_run 4 a v (hp_bytes h)) as (m' & Hrun & So & Hk & Hl).
  { intros c Hc. destruct (Hp c) as (x & Hx & _); [lia|]. by exists x. }
  destruct (read_bytes m' (b - heap_ptr h) (length bytes)) as (bytes' & Hlen & Hc'); [by eapply present_keeps|].
  exists m', bytes'. split; [unfold st; by rewrite Hrun|]. split; [done|]. split; [|by apply Hl].
  eapply rel_write; [done|exact Hb| |done|done|done]. intros c Hc. apply So. lia.
Qed.

Lemma malloc_align_run live h size k : heap_rel live h -> 0 < size -> 2 <= k -> size + 2 ^ k + 6 < 2 ^ 32 ->
  exists p h', rt_malloc_align size (2 ^ k) h = Some (p, h') /\ heap_same h h' /\
    ((p = RT_NULL /\ h' = h) \/
     exists b bytes, live !! b = None /\ b + 4 <= p /\ p + size <= b + Z.of_nat (length bytes) /\ p mod 2 ^ k = 0 /\
       heap_rel (<[b := bytes]> live) h' /\ load 4 (p - 4 - heap_ptr h') (hp_bytes h') = Some b).
Proof.
  intros Hr Hs Hk Hmax. assert (4 <= 2 ^ k) by (change 4 with (2 ^ 2) at 1; apply Z.pow_le_mono_r; lia).
  unfold rt_malloc_align. rewrite align_up_pow2 by lia. destruct (word_up size) as [Hw1 Hw2]; [lia|lia|].
  set (w := Z.land (u32 (size + (4 - 1))) (Z.lnot (4 - 1))) in *. cbv zeta. rewrite (wrap_small _ (w + 2 ^ k)) by lia.
  destruct (malloc_rel live h (w + 2 ^ k) Hr) as (b & h1 & Hrun & Hsame & Hcase); [lia|lia|].
  rewrite (hbind_run _ _ _ _ _ Hrun). destruct Hcase as [[-> ->]|(live1 & (_ & Hnn & Hno & bytes & Hlen & ->) & Hr1)].
  { exists RT_NULL, h. split; [done|]. split; [done|by left]. }
  destruct (Z.eqb_spec b RT_NULL) as [|_]; [done|]. cbn [negb].
  pose proof (rel_bytes _ _ _ _ Hr1 (lookup_insert_eq _ _ _)) as (Hb1 & Hb2 & Hb3 & _ & _). pose proof (rel_limit _ _ Hr1) as Hlim.
  pose proof (rel_aligned _ _ _ _ Hr1 (lookup_insert_eq _ _ _)) as Hal. destruct (align_of_spec b k Hk Hal) as [Ha1 Ha2].
  assert (0 < heap_ptr h1) as Hpos by (destruct Hr1 as (bs & Hok & _); apply (ho_base _ _ Hok)).
  rewrite (wrap_small _ (b + 2 ^ k)), (wrap_small _ (b + (2 ^ k - 1))) by lia. fold (align_of b k). set (p := align_of b k) in *.
  rewrite (hbind_run _ _ h1 (heap_ptr h1) h1) by done.
  destruct (word_write _ h1 b bytes (p - 4 - heap_ptr h1) b Hr1 (lookup_insert_eq _ _ _)) as (m' & bytes' & Hst & Hlen' & Hr' & Hl); [lia..|].
  rewrite (hbind_run _ _ _ _ _ Hst). exists p, (set_bytes m' h1). split; [done|]. split; [by destruct Hsame|]. right.
  exists b, bytes'. rewrite insert_insert_eq in Hr'. split; [done|]. split; [lia|]. split; [rewrite Hlen'; lia|]. by split.
Qed.

Lemma free_align_run live h b bytes p : heap_rel live h -> live !! b = Some bytes ->
  load 4 (p - 4 - heap_ptr h) (hp_bytes h) = Some b ->
  exists h', rt_free_align p h = Some (tt, h') /\ heap_rel (delete b live) h'.
Proof.
  intros Hr Hb Hl. destruct (free_rel _ _ _ _ Hr Hb) as (h' & Hrun & _ & Hr'). exists h'. split; [|done].
  unfold rt_free_align. erewrite hbind_run by done. erewrite hbind_run by (unfold ld; by rewrite Hl). done.
Qed.

(** The word before [p] is kept while the bytes below [p] are. *)
Lemma word_kept live live' h h' b bytes bytes' p : heap_rel live h -> heap_rel live' h' -> heap_ptr h' = heap_ptr h ->
  live !! b = Some bytes -> live' !! b = Some bytes' -> b + 4 <= p -> p <= b + Z.of_nat (length bytes) ->
  take (Z.to_nat (p - b)) bytes' = take (Z.to_nat (p - b)) bytes ->
  load 4 (p - 4 - heap_ptr h') (hp_bytes h') = load 4 (p - 4 - heap_ptr h) (hp_bytes h).
Proof.
  intros Hr Hr' Ep Hb Hb' H1 H2 Ht. rewrite Ep. apply load_ext. intros c Hc.
  destruct (rel_bytes _ _ _ _ Hr Hb) as (_ & _ & _ & _ & _ & Hcs). destruct (rel_bytes _ _ _ _ Hr' Hb') as (_ & _ & _ & _ & _ & Hcs').
  rewrite Ep in Hcs'. destruct (Z_of_nat_complete (c - (b - heap_ptr h))) as [i Ei]; [lia|].
  assert (c = b - heap_ptr h + Z.of_nat i) as -> by lia.
  assert (i < Z.to_nat (p - b))%nat as Hi by lia. destruct (lookup_lt_is_Some_2 bytes i) as [x Hx]; [lia|].
  rewrite (Hcs _ _ Hx). apply Hcs'. rewrite <- (lookup_take_lt bytes' _ i Hi), Ht, lookup_take_lt by done. exact Hx.
Qed.

(** The copies in the model of the heap are those of this file. *)
Lemma hbind_None {A B} (c : H A) (f : A -> H B) h : c h = None -> (c ≫= f) h = None.
Proof. intros E. unfold mbind, H_bind. by rewrite E. Qed.

Lemma heap_memcpy_eq n dst src h : memcpy n dst src h = update_mem (copy_loop n dst src) h.
Proof.
  revert dst src h. induction n as [|n IH]; intros dst src h; [by destruct h|]. cbn [memcpy]. unfold update_mem. rewrite copy_step.
  destruct (hp_bytes h !! src) as [b|] eqn:Eb; cbn [mbind option_bind].
  - rewrite (hbind_run _ _ h b h) by (unfold ld; by rewrite load1, Eb).
    destruct (hp_bytes h !! dst) as [c|] eqn:Ec; cbn [mbind option_bind].
    + by rewrite (hbind_run _ _ h tt (set_bytes (<[dst := b mod 256]> (hp_bytes h)) h)), IH by (unfold st; by rewrite store1, Ec).
    + apply hbind_None. unfold st. by rewrite store1, Ec.
  - apply hbind_None. unfold ld. by rewrite load1, Eb.
Qed.

Lemma heap_memset_eq n a v h : memset n a v h = update_mem (set_bytes_loop n a v) h.
Proof.
  revert a h. induction n as [|n IH]; intros a h; [by destruct h|]. cbn [memset set_bytes_loop]. unfold update_mem. rewrite store1.
  destruct (hp_bytes h !! a) as [b|] eqn:Eb; cbn [mbind option_bind].
  - by rewrite (hbind_run _ _ h tt (set_bytes (<[a := v mod 256]> (hp_bytes h)) h)), IH by (unfold st; by rewrite store1, Eb).
  - apply hbind_None. unfold st. by rewrite store1, Eb.
Qed.

(** [rt_strnlen] of [maxlen] characters without a null reads one more byte. *)
Lemma strnlen_reads_past n a l s fuel : contents s a l -> length l = n -> Forall is_char l -> s !! (a + Z.of_nat n) = None ->
  rt_strnlen fuel a (Z.of_nat n) s = None.
Proof.
  revert a l fuel. induction n as [|n IH]; intros a l [|fuel] Hc Hl Hch Hno; try done; cbn [rt_strnlen]; rewrite load1.
  - rewrite Z.add_0_r in Hno. by rewrite Hno.
  - destruct l as [|c l]; [done|]. apply contents_cons in Hc as [-> Hc]. apply Forall_cons in Hch as [Hx Hch]. cbn [mbind option_bind].
    destruct (Z.eqb_spec c 0); [unfold is_char in *; lia|]. destruct (Z.ltb_spec 0 (Z.of_nat (S n))); [|lia]. cbn [negb andb].
    replace (Z.of_nat (S n) - 1) with (Z.of_nat n) by lia. rewrite (IH _ l); [done|done|by injection Hl|done|]. rewrite <- Hno. f_equal. lia.
Qed.

(** With the null character inside, or room after the string, it is the length up to [maxlen]. *)
Lemma strnlen_run fuel a l s n : cstr s a l -> 0 <= n -> (length l < fuel)%nat ->
  rt_strnlen fuel a n s = Some (Z.min n (Z.of_nat (length l))).
Proof.
  revert a fuel n. induction l as [|c l IH]; intros a [|fuel] n Hc Hn Hf; cbn [length] in *; try lia; cbn [rt_strnlen]; rewrite load1.
  - rewrite (cstr_nil _ _ Hc). cbn. f_equal. lia.
  - apply cstr_cons in Hc as (-> & Hch & Hc). cbn [mbind option_bind]. destruct (Z.eqb_spec c 0); [unfold is_char in *; lia|].
    destruct (Z.ltb_spec 0 n); cbn [negb andb]; [|f_equal; lia]. rewrite (IH (a + 1) fuel (n - 1)) by (done || lia). cbn. f_equal. lia.
Qed.

(** ** Properties *)

(** C27: the word-at-a-time loops are the byte loops: for every address,
    aligned or not, and every count, rt_memset stores the low byte of its
    argument one byte after the other and rt_memcpy copies byte by byte upwards,
    overlapping regions and faults included. *)
Theorem mem_loops_bytewise m : wf_mem m -> forall dst src c count, 0 <= count ->
  rt_memset dst c count m = set_bytes_loop (Z.to_nat count) dst (c mod 256) m /\
  rt_memcpy dst src count m = copy_loop (Z.to_nat count) dst src m.
Proof. intros Hw dst src c count Hc. split; [by apply memset_run_eq|by apply memcpy_run_eq]. Qed.

(** rt_memmove copies any two regions, overlapping in either direction:
    afterwards the destination holds the bytes the source held before, and no
    other byte changed. *)
Theorem rt_memmove_spec s dest src n : wf_mem s -> 0 <= n -> 0 <= src -> src + n < 2 ^ 32 ->
  present dest (dest + n) s -> present src (src + n) s ->
  exists s', rt_memmove dest src n s = Some s' /\ moved dest src n s s'.
Proof.
  intros Hw Hn Hs Hmax Hd Hp. unfold rt_memmove. rewrite wrap_small by lia.
  rewrite <- (Z2Nat.id n) in Hd, Hp by done. destruct (Z.ltb_spec src dest) as [H1|H1]; [destruct (Z.ltb_spec dest (src + n)) as [H2|H2]|]; cbn [andb].
  - destruct (copy_down_run (Z.to_nat n) dest src s Hd Hp) as (s' & Hrun & Hv); [lia|]. rewrite Z2Nat.id in * by done. by exists s'.
  - destruct (copy_up_run (Z.to_nat n) dest src s Hw Hd Hp) as (s' & Hrun & Hv); [lia|]. rewrite Z2Nat.id in * by done. by exists s'.
  - destruct (copy_up_run (Z.to_nat n) dest src s Hw Hd Hp) as (s' & Hrun & Hv); [lia|]. rewrite Z2Nat.id in * by done. by exists s'.
Qed.

(** rt_strstr returns the first place where the second string occurs in
    the first one and RT_NULL when it occurs nowhere; fuel above the lengths is
    enough, and it reads nothing beyond the two null characters. *)
Theorem rt_strstr_spec fuel s1 s2 l1 l2 s : cstr s s1 l1 -> cstr s s2 l2 -> (length l1 < fuel)%nat -> (length l2 < fuel)%nat ->
  (exists k, occurs l2 l1 k /\ (forall j, (j < k)%nat -> ~ occurs l2 l1 j) /\ rt_strstr fuel s1 s2 s = Some (s1 + Z.of_nat k)) \/
  ((forall j, ~ occurs l2 l1 j) /\ rt_strstr fuel s1 s2 s = Some 0).
Proof.
  intros H1 H2 Hf1 Hf2. unfold rt_strstr. rewrite (strlen_run _ _ _ _ H2 Hf2). cbn [mbind option_bind].
  destruct l2 as [|c l2].
  - left. exists 0%nat. split; [by exists l1|]. split; [lia|]. cbn. f_equal. lia.
  - destruct (Z.eqb_spec (Z.of_nat (length (c :: l2))) 0); [cbn in *; lia|]. rewrite (strlen_run _ _ _ _ H1 Hf1). cbn [mbind option_bind].
    by apply strstr_loop_run.
Qed.

(** a block of rt_malloc_align is aligned to the power of two asked for
    and lies with all its bytes in one allocation of the heap; as long as its
    holder keeps the bytes below it, rt_free_align gives back exactly that
    allocation. *)
Theorem rt_malloc_align_spec live h size k : heap_rel live h -> 0 < size -> 2 <= k -> size + 2 ^ k + 6 < 2 ^ 32 ->
  exists p h', rt_malloc_align size (2 ^ k) h = Some (p, h') /\
    ((p = RT_NULL /\ h' = h) \/
     exists b bytes, live !! b = None /\ b < p /\ p + size <= b + Z.of_nat (length bytes) /\ p mod 2 ^ k = 0 /\
       heap_rel (<[b := bytes]> live) h' /\
       forall live2 h2 bytes2, heap_rel live2 h2 -> heap_ptr h2 = heap_ptr h' -> live2 !! b = Some bytes2 ->
         take (Z.to_nat (p - b)) bytes2 = take (Z.to_nat (p - b)) bytes ->
         exists h3, rt_free_align p h2 = Some (tt, h3) /\ heap_rel (delete b live2) h3).
Proof.
  intros Hr Hs Hk Hmax. destruct (malloc_align_run live h size k Hr Hs Hk Hmax) as (p & h' & Hrun & _ & Hcase). exists p, h'.
  split; [done|]. destruct Hcase as [|(b & bytes & Hno & H1 & H2 & H3 & Hr' & Hl)]; [by left|]. right. exists b, bytes.
  split; [done|]. split; [lia|]. split; [done|]. split; [done|]. split; [done|]. intros live2 h2 bytes2 Hr2 Ep Hb2 Ht.
  apply (free_align_run live2 h2 b bytes2 p Hr2 Hb2).
  rewrite (word_kept _ live2 h' h2 b bytes bytes2 p Hr' Hr2 Ep (lookup_insert_eq _ _ _) Hb2); [done|lia|lia|done].
Qed.

(** ** Witnesses *)
(** The bytes [l] at address 0. *)
Definition mem_of (l : list Z) : mem := list_to_map (zip (seqZ 0 (Z.of_nat (length l))) l).
Definition demo_mem : mem := mem_of (map (fun i => i mod 256) (seqZ 250 40)).

Definition wf_memb (s : mem) : bool := forallb (fun p => (0 <=? p.2) && (p.2 <? 256)) (map_to_list s).
Lemma wf_memb_ok s : wf_memb s = true -> wf_mem s.
Proof.
  unfold wf_memb. rewrite forallb_forall. intros H a b Hab. apply elem_of_map_to_list in Hab. apply list_elem_of_In in Hab.
  specialize (H _ Hab). cbn in H. lia.
Qed.
Lemma demo_mem_wf : wf_mem demo_mem.
Proof. apply wf_memb_ok. vm_compute. reflexivity. Qed.

Definition presentb (lo : Z) (n : nat) (s : mem) : bool :=
  forallb (fun a => match s !! a with Some b => (0 <=? b) && (b <? 256) | None => false end) (seqZ lo (Z.of_nat n)).
Lemma presentb_ok lo n s : presentb lo n s = true -> present lo (lo + Z.of_nat n) s.
Proof.
  unfold presentb. rewrite forallb_forall. intros H a Ha. assert (In a (seqZ lo (Z.of_nat n))) as Hin.
  { apply list_elem_of_In, elem_of_seqZ. lia. }
  specialize (H a Hin). destruct (s !! a) as [b|] eqn:E; [|done]. exists b. split; [done|lia].
Qed.

Lemma mem_loops_bytewise_witness :
  rt_memset 4 0x1ff 23 demo_mem = set_bytes_loop 23 4 255 demo_mem /\ rt_memcpy 4 8 23 demo_mem = copy_loop 23 4 8 demo_mem.
Proof. apply (mem_loops_bytewise demo_mem demo_mem_wf 4 8 0x1ff 23). lia. Defined.

Lemma rt_memmove_spec_witness : exists s', rt_memmove 5 2 20 demo_mem = Some s' /\ moved 5 2 20 demo_mem s'.
Proof.
  apply rt_memmove_spec; [exact demo_mem_wf|lia|lia|lia| |].
  - apply (presentb_ok 5 20). vm_compute. reflexivity.
  - apply (presentb_ok 2 20). vm_compute. reflexivity.
Defined.

(** "abcab" at 0, "cab" at 6. *)
Definition demo_strings : mem := mem_of [97; 98; 99; 97; 98; 0; 99; 97; 98; 0].
Fixpoint contentsb (s : mem) (a : Z) (l : list Z) : bool :=
  match l with [] => true | c :: l => bool_decide (s !! a = Some c) && contentsb s (a + 1) l end.
Lemma contentsb_ok s a l : contentsb s a l = true -> contents s a l.
Proof.
  revert a. induction l as [|c l IH]; intros a; cbn; [intros _ i b Hi; by rewrite lookup_nil in Hi|].
  intros H. apply andb_true_iff in H as [H1 H2]. apply bool_decide_eq_true in H1. apply contents_cons. auto.
Qed.
Lemma demo_cstr : cstr demo_strings 0 [97; 98; 99; 97; 98] /\ cstr demo_strings 6 [99; 97; 98].
Proof. split; (split; [apply contentsb_ok; by vm_compute|repeat constructor; lia]). Qed.

Example strstr_found : rt_strstr 10 0 6 demo_strings = Some 2.
Proof. reflexivity. Qed.

Lemma rt_strstr_spec_witness :
  (exists k, occurs [99; 97; 98] [97; 98; 99; 97; 98] k /\ (forall j, (j < k)%nat -> ~ occurs [99; 97; 98] [97; 98; 99; 97; 98] j) /\
     rt_strstr 10 0 6 demo_strings = Some (0 + Z.of_nat k)) \/
  ((forall j, ~ occurs [99; 97; 98] [97; 98; 99; 97; 98] j) /\ rt_strstr 10 0 6 demo_strings = Some 0).
Proof. apply rt_strstr_spec; [exact (proj1 demo_cstr)|exact (proj2 demo_cstr)|cbn; lia|cbn; lia]. Defined.

Lemma rt_malloc_align_spec_witness : exists p h', rt_malloc_align 10 (2 ^ 4) demo_heap = Some (p, h') /\
  (p = RT_NULL \/ p mod 16 = 0).
Proof.
  destruct (rt_malloc_align_spec ∅ demo_heap 10 4) as (p & h' & H1 & H2);
    [exact (new_heap_rel _ _ demo_heap_ok)|lia|lia|lia|]. exists p, h'. split; [exact H1|].
  destruct H2 as [[H2 _]|(b & bytes & _ & _ & _ & H2 & _)]; [left; exact H2|right; exact H2].
Defined.
