(* ===== verification/Printf.v ===== *)
(** * Formatted printing (rt-thread/src/kservice.c: [rt_vsnprintf], [rt_kprintf])

    The format is the list of its characters; the arguments are the 32-bit
    words of the [va_list]; string arguments are read from memory.  Every
    character goes through the same test [if (str < end) *str = c; ++ str;].
    RT_PRINTF_PRECISION is defined, RT_PRINTF_SPECIAL and RT_PRINTF_LONGLONG are
    not.

    The theorems: for a buffer of any size the result is the length of the
    whole text, and the buffer holds the text cut to the size, closed by a null
    character, with no byte written outside; integers printed in base 10 and 16
    read back as themselves. *)
From stdpp Require Import strings.
From S2P Require Import Prelude MsgQueue Mem Heap KService.

(** ** State: the output pointer and the memory *)
Definition P (A : Type) : Type := Z * mem -> option (A * (Z * mem)).
#[export] Instance P_ret : MRet P := fun A a s => Some (a, s).
#[export] Instance P_bind : MBind P := fun A B f c s => match c s with Some (a, s') => f a s' | None => None end.
Arguments P_bind : simpl never.
Definition plift {A} (o : option A) : P A := fun s => a ← o; Some (a, s).

Definition ZEROPAD : Z := 1.
Definition SIGN : Z := 2.
Definition PLUS : Z := 4.
Definition SPACE : Z := 8.
Definition LEFT : Z := 16.
Definition SPECIAL : Z := 32.
Definition LARGE : Z := 64.
Definition has (flags f : Z) : bool := negb (Z.land flags f =? 0).

(** Characters. *)
Definition cSPACE : Z := 32.
Definition cPERCENT : Z := 37.
Definition cSTAR : Z := 42.
Definition cPLUS : Z := 43.
Definition cMINUS : Z := 45.
Definition cDOT : Z := 46.
Definition cZERO : Z := 48.
Definition cHASH : Z := 35.

Definition divide (n base : Z) : Z * Z :=
  if base =? 10 then (u32 n mod 10, i32 (u32 n / 10)) else (u32 n mod 16, i32 (u32 n / 16)).

Definition _ISDIGIT (c : Z) : bool := u32 (c - cZERO) <? 10.
Fixpoint skip_atoi (s : list Z) (i : Z) : Z * list Z :=
  match s with
  | c :: s' => if _ISDIGIT c then skip_atoi s' (i32 (i * 10 + c - cZERO)) else (i, s)
  | [] => (i, s)
  end.

Definition small_digits : list Z := [48; 49; 50; 51; 52; 53; 54; 55; 56; 57; 97; 98; 99; 100; 101; 102].
Definition large_digits : list Z := [48; 49; 50; 51; 52; 53; 54; 55; 56; 57; 65; 66; 67; 68; 69; 70].

(** [while (num != 0) tmp[i++] = digits[divide(&num, base)];] with [char tmp[16]];
    a number of 32 bits has at most 10 digits, so 17 rounds are enough. *)
Fixpoint digit_loop (fuel : nat) (digits : list Z) (num base : Z) (tmp : list Z) : option (list Z) :=
  match fuel with
  | O => None
  | S fuel =>
      if num =? 0 then Some tmp
      else if (length tmp <? 16)%nat then
        let '(res, num') := divide num base in
        c ← digits !! Z.to_nat res;
        digit_loop fuel digits num' base (tmp ++ [c])
      else None
  end.

Section output.
Context (end_ : Z).

(** [if (str < end) *str = c; ++ str;] *)
Definition emit (c : Z) : P unit := fun '(str, m) =>
  m ← (if str <? end_ then store 1 str c m else Some m); Some (tt, (u32 (str + 1), m)).

(** [while (size-- > 0) ...]; the result is [size] afterwards. *)
Fixpoint pad_loop (fuel : nat) (size c : Z) : P Z :=
  match fuel with
  | O => fun _ => None
  | S fuel =>
      if 0 <? size then emit c;; pad_loop fuel (i32 (size - 1)) c
      else mret (i32 (size - 1))
  end.
Definition pad (size c : Z) : P Z := pad_loop (S (Z.to_nat size)) size c.

(** [while (i < precision--) ...] and [while (len < field_width--) ...] *)
Fixpoint fill_loop (fuel : nat) (i precision c : Z) : P Z :=
  match fuel with
  | O => fun _ => None
  | S fuel =>
      if i <? precision then emit c;; fill_loop fuel i (i32 (precision - 1)) c
      else mret (i32 (precision - 1))
  end.
Definition fill_to (i precision c : Z) : P Z := fill_loop (S (Z.to_nat (precision - i))) i precision c.

(** [while (--field_width > 0) ...] *)
Fixpoint width_loop (fuel : nat) (field_width : Z) : P Z :=
  match fuel with
  | O => fun _ => None
  | S fuel =>
      let field_width := i32 (field_width - 1) in
      if 0 <? field_width then emit cSPACE;; width_loop fuel field_width else mret field_width
  end.
Definition put_width (field_width : Z) : P Z := width_loop (S (Z.to_nat field_width)) field_width.

(** [while (i-- > 0 && (precision_bak != 0)) *buf = tmp[i];] *)
Fixpoint tmp_loop (i : nat) (tmp : list Z) : P unit :=
  match i with
  | O => mret tt
  | S i => c ← plift (tmp !! i); emit c;; tmp_loop i tmp
  end.

Definition print_number (num base s precision type : Z) : P unit :=
  let digits := if has type LARGE then large_digits else small_digits in
  let type := if has type LEFT then Z.land type (Z.lnot ZEROPAD) else type in
  let c := if has type ZEROPAD then cZERO else cSPACE in
  let '(sign, num) :=
    if has type SIGN then
      if num <? 0 then (cMINUS, i32 (- num))
      else if has type PLUS then (cPLUS, num)
      else if has type SPACE then (cSPACE, num) else (0, num)
    else (0, num) in
  tmp ← plift (if num =? 0 then Some [cZERO] else digit_loop 17 digits num base []);
  let i := Z.of_nat (length tmp) in
  let precision_bak := precision in
  let precision := if precision <? i then i else precision in
  let size := i32 (s - precision) in
  size ← (if negb (has type (Z.lor ZEROPAD LEFT)) then
            pad (if negb (sign =? 0) && (0 <? size) then i32 (size - 1) else size) cSPACE
          else mret size);
  size ← (if negb (sign =? 0) then emit sign;; mret (i32 (size - 1)) else mret size);
  size ← (if negb (has type LEFT) then pad size c else mret size);
  fill_to i precision cZERO;;
  (if negb (precision_bak =? 0) then tmp_loop (length tmp) tmp else mret tt);;
  pad size cSPACE;;
  mret tt.
End output.

(** ** The directives of a format *)
Record directive := Directive { d_flags : Z; d_width : Z; d_precision : Z; d_qualifier : Z }.

Fixpoint get_flags (fmt : list Z) (flags : Z) : Z * list Z :=
  match fmt with
  | [] => (flags, fmt)
  | c :: rest =>
      if c =? cMINUS then get_flags rest (Z.lor flags LEFT)
      else if c =? cPLUS then get_flags rest (Z.lor flags PLUS)
      else if c =? cSPACE then get_flags rest (Z.lor flags SPACE)
      else if c =? cHASH then get_flags rest (Z.lor flags SPECIAL)
      else if c =? cZERO then get_flags rest (Z.lor flags ZEROPAD)
      else (flags, fmt)
  end.

(** [va_arg(args, int)] *)
Definition va_int (args : list Z) : option (Z * list Z) :=
  match args with [] => None | a :: args => Some (i32 a, args) end.

Definition get_width (fmt args : list Z) (flags : Z) : option (Z * Z * list Z * list Z) :=
  if _ISDIGIT (hd 0 fmt) then let '(w, fmt) := skip_atoi fmt 0 in Some (w, flags, fmt, args)
  else if hd 0 fmt =? cSTAR then
    '(w, args) ← va_int args;
    Some (if w <? 0 then (i32 (- w), Z.lor flags LEFT, tail fmt, args) else (w, flags, tail fmt, args))
  else Some (-1, flags, fmt, args).

Definition get_precision (fmt args : list Z) : option (Z * list Z * list Z) :=
  if hd 0 fmt =? cDOT then
    let fmt := tail fmt in
    '(p, fmt, args) ← (if _ISDIGIT (hd 0 fmt) then let '(p, fmt) := skip_atoi fmt 0 in Some (p, fmt, args)
                       else if hd 0 fmt =? cSTAR then '(p, args) ← va_int args; Some (p, tail fmt, args)
                       else Some (-1, fmt, args));
    Some (if p <? 0 then 0 else p, fmt, args)
  else Some (-1, fmt, args).

(** Everything between the '%' and the conversion character. *)
Definition get_directive (fmt args : list Z) : option (directive * list Z * list Z) :=
  let '(flags, fmt) := get_flags fmt 0 in
  '(width, flags, fmt, args) ← get_width fmt args flags;
  '(precision, fmt, args) ← get_precision fmt args;
  let c := hd 0 fmt in
  Some (if (c =? 104) || (c =? 108) then (Directive flags width precision c, tail fmt, args)
        else (Directive flags width precision 0, fmt, args)).

(** The argument of an integer conversion, by the qualifier 'h', 'l' or none. *)
Definition int_arg (qualifier flags a : Z) : Z :=
  if qualifier =? 108 then (if has flags SIGN then u32 (i32 (u32 a)) else u32 a)
  else if qualifier =? 104 then (if has flags SIGN then u32 (i16 (u16 a)) else u16 a)
  else if has flags SIGN then u32 (i32 (u32 a)) else u32 a.

(** The conversion: base and flags, or none of the integer conversions. *)
Definition int_conv (c flags : Z) : option (Z * Z) :=
  if c =? 111 then Some (8, flags)
  else if c =? 88 then Some (16, Z.lor flags LARGE)
  else if c =? 120 then Some (16, flags)
  else if (c =? 100) || (c =? 105) then Some (10, Z.lor flags SIGN)
  else if c =? 117 then Some (10, flags)
  else None.

(** "(NULL)" *)
Definition null_string : list Z := [40; 78; 85; 76; 76; 41].

(** [s[i]]: from memory, or from the literal for a null pointer. *)
Definition str_char (s : Z) (i : nat) : P Z := fun st =>
  if s =? RT_NULL then Some (nth i null_string 0, st) else b ← load 1 (s + Z.of_nat i) st.2; Some (b, st).

(** [for (len = 0; (len != field_width) && (s[len] != 0); len++);] *)
Fixpoint len_loop (fuel : nat) (s field_width : Z) (len : nat) : P nat :=
  match fuel with
  | O => fun _ => None
  | S fuel =>
      if Z.of_nat len =? field_width then mret len
      else c ← str_char s len; if c =? 0 then mret len else len_loop fuel s field_width (S len)
  end.

Section format.
Context (end_ : Z) (sfuel : nat).

Fixpoint string_loop (n i : nat) (s : Z) : P unit :=
  match n with
  | O => mret tt
  | S n => c ← str_char s i; emit end_ c;; string_loop n (S i) s
  end.

Definition put_string (d : directive) (s : Z) : P unit :=
  len ← len_loop sfuel s (d_width d) 0;
  let len := if (0 <? d_precision d) && (d_precision d <? Z.of_nat len) then Z.to_nat (d_precision d) else len in
  width ← (if negb (has (d_flags d) LEFT) then fill_to end_ (Z.of_nat len) (d_width d) cSPACE else mret (d_width d));
  string_loop len 0 s;;
  fill_to end_ (Z.of_nat len) width cSPACE;;
  mret tt.

Definition put_char (d : directive) (a : Z) : P unit :=
  width ← (if negb (has (d_flags d) LEFT) then put_width end_ (d_width d) else mret (d_width d));
  emit end_ (u8 a);;
  put_width end_ width;;
  mret tt.

(** One conversion: the format after it and the arguments left. *)
Definition convert (d : directive) (fmt args : list Z) : P (list Z * list Z) :=
  let c := hd 0 fmt in
  if c =? 99 then '(a, args) ← plift (va_int args); put_char d a;; mret (tail fmt, args)
  else if c =? 115 then '(a, args) ← plift (va_int args); put_string d (u32 a);; mret (tail fmt, args)
  else if c =? 112 then
    '(a, args) ← plift (va_int args);
    let '(width, flags) := if d_width d =? -1 then (8, Z.lor (d_flags d) ZEROPAD) else (d_width d, d_flags d) in
    print_number end_ a 16 width (d_precision d) flags;; mret (tail fmt, args)
  else if c =? cPERCENT then emit end_ cPERCENT;; mret (tail fmt, args)
  else
    match int_conv c (d_flags d) with
    | Some (base, flags) =>
        '(a, args) ← plift (va_int args);
        print_number end_ (i32 (int_arg (d_qualifier d) flags a)) base (d_width d) (d_precision d) flags;;
        mret (tail fmt, args)
    | None =>
        emit end_ cPERCENT;;
        (* at the end of the format [-- fmt] undoes the [++ fmt] of the loop *)
        if c =? 0 then mret (fmt, args) else emit end_ c;; mret (tail fmt, args)
    end.

(** [for (; *fmt ; ++fmt)]; each round takes a character of the format. *)
Fixpoint format_loop (fuel : nat) (fmt args : list Z) : P unit :=
  match fuel with
  | O => fun _ => None
  | S fuel =>
      match fmt with
      | [] => mret tt
      | c :: rest =>
          if c =? 0 then mret tt
          else if negb (c =? cPERCENT) then emit end_ c;; format_loop fuel rest args
          else
            '(d, fmt, args) ← plift (get_directive rest args);
            '(fmt, args) ← convert d fmt args;
            format_loop fuel fmt args
      end
  end.
End format.

Definition rt_vsnprintf (sfuel : nat) (buf size : Z) (fmt args : list Z) (m : mem) : option (Z * mem) :=
  let end_ := u32 (buf + size) in
  let '(end_, size) := if end_ <? buf then (2 ^ 32 - 1, 2 ^ 32 - 1 - buf) else (end_, size) in
  '(_, (str, m)) ← format_loop end_ sfuel (S (length fmt)) fmt args (buf, m);
  m ← (if 0 <? size then (if str <? end_ then store 1 str 0 m else store 1 (end_ - 1) 0 m) else Some m);
  Some (i32 (str - buf), m).

Definition rt_snprintf := rt_vsnprintf.
Definition rt_vsprintf (sfuel : nat) (buf : Z) (fmt args : list Z) (m : mem) : option (Z * mem) :=
  rt_vsnprintf sfuel buf (2 ^ 32 - 1) fmt args m.

(** [rt_kprintf]: the bytes written to the console device from the static
    buffer at [log_buf]. *)
Definition RT_CONSOLEBUF_SIZE : Z := 128.
Fixpoint read_bytes_at (n : nat) (a : Z) (m : mem) : option (list Z) :=
  match n with O => Some [] | S n => b ← load 1 a m; l ← read_bytes_at n (a + 1) m; Some (b :: l) end.
Definition rt_kprintf (sfuel : nat) (log_buf : Z) (fmt args : list Z) (m : mem) : option (list Z * mem) :=
  '(length, m) ← rt_vsnprintf sfuel log_buf (RT_CONSOLEBUF_SIZE - 1) fmt args m;
  let length := u32 length in
  let length := if RT_CONSOLEBUF_SIZE - 1 <? length then RT_CONSOLEBUF_SIZE - 1 else length in
  out ← read_bytes_at (Z.to_nat length) log_buf m;
  Some (out, m).

(** ** The reference: the whole text *)

(** The digits of [n], lowest first. *)
Fixpoint low_digits (fuel : nat) (b n : Z) : list Z :=
  match fuel with
  | O => []
  | S fuel => if n =? 0 then [] else n mod b :: low_digits fuel b (n / b)
  end.

(** The numeral of a 32-bit number, in one of the two digit sets. *)
Definition numeral (digits : list Z) (b n : Z) : list Z :=
  if n =? 0 then [cZERO] else reverse (map (fun d => default 0 (digits !! Z.to_nat d)) (low_digits 16 b n)).

Definition spaces (n : Z) : list Z := replicate (Z.to_nat n) cSPACE.
Definition zeros (n : Z) : list Z := replicate (Z.to_nat n) cZERO.

(** Only 10 and 16 are bases. *)
Definition real_base (base : Z) : Z := if base =? 10 then 10 else 16.

Definition number_text (num base width precision type : Z) : list Z :=
  let digits := if has type LARGE then large_digits else small_digits in
  let sign := if has type SIGN then
                if num <? 0 then [cMINUS] else if has type PLUS then [cPLUS] else if has type SPACE then [cSPACE] else []
              else [] in
  let ds := numeral digits (real_base base) (if has type SIGN then Z.abs num else u32 num) in
  let n := Z.of_nat (length ds) in
  let body := zeros (precision - n) ++ (if precision =? 0 then [] else ds) in
  let gap := width - Z.max precision n - Z.of_nat (length sign) in
  if has type LEFT then sign ++ body ++ spaces gap
  else if has type ZEROPAD then sign ++ zeros gap ++ body
  else spaces gap ++ sign ++ body.

Definition string_text (d : directive) (l : list Z) : list Z :=
  let l := if d_width d <? 0 then l else take (Z.to_nat (d_width d)) l in
  let l := if 0 <? d_precision d then take (Z.to_nat (d_precision d)) l else l in
  let gap := spaces (d_width d - Z.of_nat (length l)) in
  if has (d_flags d) LEFT then l ++ gap else gap ++ l.

Definition char_text (d : directive) (a : Z) : list Z :=
  let gap := spaces (d_width d - 1) in
  if has (d_flags d) LEFT then u8 a :: gap else gap ++ [u8 a].

(** Widths and precisions far from the ends of [int]. *)
Definition plain (d : directive) : bool :=
  (-1 <=? d_width d) && (d_width d <=? 2 ^ 30) && (-1 <=? d_precision d) && (d_precision d <=? 2 ^ 30).

Section expand.
(** The strings behind the pointers. *)
Context (rd : Z -> option (list Z)).

Definition conversion_text (d : directive) (fmt args : list Z) : option (list Z * list Z * list Z) :=
  let c := hd 0 fmt in
  if c =? 99 then '(a, args) ← va_int args; Some (char_text d a, tail fmt, args)
  else if c =? 115 then
    '(a, args) ← va_int args;
    l ← (if u32 a =? RT_NULL then Some null_string else rd (u32 a));
    Some (string_text d l, tail fmt, args)
  else if c =? 112 then
    '(a, args) ← va_int args;
    Some (if d_width d =? -1 then number_text a 16 8 (d_precision d) (Z.lor (d_flags d) ZEROPAD)
          else number_text a 16 (d_width d) (d_precision d) (d_flags d), tail fmt, args)
  else if c =? cPERCENT then Some ([cPERCENT], tail fmt, args)
  else
    match int_conv c (d_flags d) with
    | Some (base, flags) =>
        '(a, args) ← va_int args;
        Some (number_text (i32 (int_arg (d_qualifier d) flags a)) base (d_width d) (d_precision d) flags, tail fmt, args)
    | None => Some (if c =? 0 then ([cPERCENT], fmt, args) else ([cPERCENT; c], tail fmt, args))
    end.

Fixpoint expand_loop (fuel : nat) (fmt args : list Z) : option (list Z) :=
  match fuel with
  | O => None
  | S fuel =>
      match fmt with
      | [] => Some []
      | c :: rest =>
          if c =? 0 then Some []
          else if negb (c =? cPERCENT) then l ← expand_loop fuel rest args; Some (c :: l)
          else
            '(d, fmt, args) ← get_directive rest args;
            if plain d then
              '(l, fmt, args) ← conversion_text d fmt args;
              l' ← expand_loop fuel fmt args;
              Some (l ++ l')
            else None
      end
  end.
Definition expand (fmt args : list Z) : option (list Z) := expand_loop (S (length fmt)) fmt args.
End expand.

(** Character codes of a Rocq string, for the examples. *)
Definition codes (s : String.string) : list Z := map (fun c => Z.of_N (Ascii.N_of_ascii c)) (String.list_ascii_of_string s).
Definition no_strings (p : Z) : option (list Z) := None.

Example expand_ex : expand no_strings (codes "[%5d|%-5d|%05d|%+d|%x|%.3u|%c|%%|%hu|%o]"%string) [42; 42; u32 (-42); 7; 255; 5; 65; 65541; 8] =
  Some (codes "[   42|42   |-0042|+7|ff|005|A|%|5|8]"%string).
Proof. vm_compute. reflexivity. Qed.

(** ** Numbers *)
Lemma u32_i32 n : 0 <= n < 2 ^ 32 -> u32 (i32 n) = n.
Proof.
  intros Hn. unfold swrap. unfold wrap. rewrite Zminus_mod_idemp_l. replace (n + 2 ^ (32 - 1) - 2 ^ (32 - 1)) with n by lia.
  by apply Z.mod_small.
Qed.

Lemma i32_eqb n : 0 <= n < 2 ^ 32 -> (i32 n =? 0) = (n =? 0).
Proof.
  intros Hn. destruct (Z.eqb_spec n 0) as [->|Hne]; [done|]. apply Z.eqb_neq. intros E. apply Hne. rewrite <- (u32_i32 n Hn), E. done.
Qed.

Lemma i32_range x : - 2 ^ 31 <= i32 x < 2 ^ 31.
Proof. unfold swrap. pose proof (Z.mod_pos_bound (x + 2 ^ (32 - 1)) (2 ^ 32) ltac:(lia)). lia. Qed.

Lemma i32_u32 x : - 2 ^ 31 <= x < 2 ^ 31 -> i32 (u32 x) = x.
Proof. intros Hx. rewrite swrap_wrap by lia. apply swrap_small; [lia|]. by change (32 - 1) with 31. Qed.

Lemma divide_eq n base : 0 <= n < 2 ^ 32 -> divide (i32 n) base = (n mod real_base base, i32 (n / real_base base)).
Proof.
  intros Hn. unfold divide, real_base. rewrite u32_i32 by done. by destruct (base =? 10).
Qed.
Lemma real_base_range base : 10 <= real_base base <= 16.
Proof. unfold real_base. destruct (base =? 10); lia. Qed.

Definition digit_of (digits : list Z) (d : Z) : Z := default 0 (digits !! Z.to_nat d).

Lemma digit_loop_run fuel k digits base n tmp : length digits = 16%nat -> 0 <= n < 2 ^ 32 -> n < real_base base ^ Z.of_nat k ->
  (length tmp + k <= 16)%nat -> (k < fuel)%nat ->
  digit_loop fuel digits (i32 n) base tmp = Some (tmp ++ map (digit_of digits) (low_digits k (real_base base) n)).
Proof.
  intros Hd. revert k n tmp. induction fuel as [|fuel IH]; intros k n tmp Hn Hk Ht Hf; [lia|]. cbn [digit_loop].
  rewrite i32_eqb by done. pose proof (real_base_range base) as Hb. destruct (Z.eqb_spec n 0) as [->|Hnz].
  { destruct k; cbn [low_digits Z.eqb map]; by rewrite app_nil_r. }
  destruct k as [|k]; [change (Z.of_nat 0) with 0 in Hk; rewrite Z.pow_0_r in Hk; lia|].
  rewrite (proj2 (Nat.ltb_lt _ _)) by lia. rewrite divide_eq by done.
  pose proof (Z.mod_pos_bound n (real_base base) ltac:(lia)) as Hm.
  destruct (lookup_lt_is_Some_2 digits (Z.to_nat (n mod real_base base))) as [c Hc]; [lia|]. rewrite Hc. cbn [mbind option_bind].
  rewrite (IH k).
  - cbn [low_digits]. rewrite (proj2 (Z.eqb_neq _ _) Hnz). cbn [map]. rewrite <- app_assoc. unfold digit_of at 2. by rewrite Hc.
  - split; [apply Z.div_pos; lia|]. apply Z.le_lt_trans with n; [apply Z.div_le_upper_bound; nia|lia].
  - apply Z.div_lt_upper_bound; [lia|]. rewrite Nat2Z.inj_succ, Z.pow_succ_r in Hk by lia. lia.
  - rewrite length_app. cbn. lia.
  - lia.
Qed.

Lemma digits_length type : length (if has type LARGE then large_digits else small_digits) = 16%nat.
Proof. by destruct (has type LARGE). Qed.

(** The array [tmp], filled backwards. *)
Lemma tmp_run digits base n : length digits = 16%nat -> 0 <= n < 2 ^ 32 ->
  exists tmp, (if i32 n =? 0 then Some [cZERO] else digit_loop 17 digits (i32 n) base []) = Some tmp /\
    reverse tmp = numeral digits (real_base base) n /\ (1 <= length tmp <= 16)%nat.
Proof.
  intros Hd Hn. rewrite i32_eqb by done. unfold numeral. destruct (Z.eqb_spec n 0) as [->|Hnz]; [exists [cZERO]; cbn; split; [done|split; [done|lia]]|].
  pose proof (real_base_range base) as Hb.
  rewrite (digit_loop_run 17 16 digits base n []); [|done|done| |cbn; lia|lia].
  2:{ apply Z.lt_le_trans with (10 ^ 16); [lia|]. apply Z.pow_le_mono_l. lia. }
  eexists. split; [done|]. split; [done|]. rewrite app_nil_l, length_map.
  assert (forall k m, (length (low_digits k (real_base base) m) <= k)%nat) as Hle.
  { induction k as [|k IH]; intros m; cbn; [lia|]. destruct (m =? 0); cbn; [lia|]. pose proof (IH (m / real_base base)). lia. }
  split; [|apply Hle]. cbn [low_digits]. rewrite (proj2 (Z.eqb_neq _ _) Hnz). cbn. lia.
Qed.

(** *** Flags *)
Lemma has_bit t k : 0 <= k -> has t (2 ^ k) = Z.testbit t k.
Proof.
  intros Hk. unfold has. destruct (Z.testbit t k) eqn:E.
  - apply negb_true_iff, Z.eqb_neq. intros H. apply (f_equal (fun x => Z.testbit x k)) in H. revert H.
    by rewrite Z.land_spec, E, Z.pow2_bits_true, Z.bits_0 by done.
  - apply negb_false_iff, Z.eqb_eq. bitwise i. rewrite Z.pow2_bits_eqb by done. destruct (Z.eqb_spec k i) as [<-|]; [by rewrite E|].
    by rewrite andb_false_r.
Qed.

Definition print_type (type : Z) : Z := if has type LEFT then Z.land type (Z.lnot ZEROPAD) else type.

Lemma print_type_bit type k : 0 < k -> has (print_type type) (2 ^ k) = has type (2 ^ k).
Proof.
  intros Hk. unfold print_type. destruct (has type LEFT); [|done]. rewrite !has_bit by lia. autorewrite with cbits.
  change ZEROPAD with (2 ^ 0). rewrite Z.pow2_bits_eqb by lia. destruct (Z.eqb_spec 0 k); [lia|]. by rewrite andb_true_r.
Qed.
Lemma print_type_zeropad type : has (print_type type) ZEROPAD = negb (has type LEFT) && has type ZEROPAD.
Proof.
  unfold print_type. destruct (has type LEFT); cbn [negb andb]; [|done]. change ZEROPAD with (2 ^ 0) at 2. rewrite has_bit by lia.
  autorewrite with cbits. change ZEROPAD with (2 ^ 0). by rewrite Z.pow2_bits_true, andb_false_r by lia.
Qed.
Lemma has_either t : has t (Z.lor ZEROPAD LEFT) = has t ZEROPAD || has t LEFT.
Proof.
  unfold has. rewrite Z.land_lor_distr_r. rewrite <- negb_andb. f_equal.
  destruct (Z.eqb_spec (Z.lor (Z.land t ZEROPAD) (Z.land t LEFT)) 0) as [E|E].
  - apply Z.lor_eq_0_iff in E as [-> ->]. done.
  - symmetry. apply andb_false_iff. destruct (Z.eqb_spec (Z.land t ZEROPAD) 0) as [E1|]; [right|by left]. apply Z.eqb_neq. intros E2.
    by rewrite E1, E2 in E.
Qed.

(** ** What a piece of code prints *)
Section prints.
Context (buf end_ : Z) (m0 : mem).

(** The memory after printing [l] from [str] on. *)
Fixpoint wr (l : list Z) (str : Z) (m : mem) : mem :=
  match l with
  | [] => m
  | c :: l => wr l (str + 1) (if str <? end_ then <[str := c mod 256]> m else m)
  end.

Definition good (str : Z) (m : mem) : Prop :=
  0 <= buf <= str /\ present buf end_ m /\ same_outside buf end_ m0 m.

Definition prints {A} (c : P A) (l : list Z) (a : A) : Prop := forall str m,
  good str m -> str + Z.of_nat (length l) < 2 ^ 32 -> c (str, m) = Some (a, (str + Z.of_nat (length l), wr l str m)).

Lemma wr_app l l' str m : wr (l ++ l') str m = wr l' (str + Z.of_nat (length l)) (wr l str m).
Proof.
  revert str m. induction l as [|c l IH]; intros str m; cbn [app wr length]; [by rewrite Z.add_0_r|]. rewrite IH. f_equal. lia.
Qed.

Lemma good_step str m c : good str m -> good (str + 1) (if str <? end_ then <[str := c mod 256]> m else m).
Proof.
  intros (H1 & H2 & H3). split; [lia|]. destruct (Z.ltb_spec str end_); [|done]. split.
  - intros a Ha. apply keeps_insert, H2, Ha.
  - intros a Ha. rewrite lookup_insert_ne by lia. by apply H3.
Qed.

Lemma good_wr l str m : good str m -> good (str + Z.of_nat (length l)) (wr l str m).
Proof.
  revert str m. induction l as [|c l IH]; intros str m Hg; cbn [wr length]; [by rewrite Z.add_0_r|].
  replace (str + Z.of_nat (S (length l))) with (str + 1 + Z.of_nat (length l)) by lia. by apply IH, good_step.
Qed.

Lemma prints_ret {A} (a : A) : prints (mret a) [] a.
Proof. intros str m _ _. cbn. by rewrite Z.add_0_r. Qed.

Lemma prints_bind {A B} (c : P A) (f : A -> P B) l a l' b :
  prints c l a -> prints (f a) l' b -> prints (c ≫= f) (l ++ l') b.
Proof.
  intros Hc Hf str m Hg Hlen. rewrite length_app in Hlen. unfold mbind, P_bind. rewrite Hc by (done || lia).
  rewrite Hf; [|by apply good_wr|lia]. rewrite length_app, wr_app. do 3 f_equal. lia.
Qed.

(** The rest of a text printed already. *)
Lemma prints_nil_bind {A B} (c : P A) (f : A -> P B) a l b : prints c [] a -> prints (f a) l b -> prints (c ≫= f) l b.
Proof. exact (prints_bind c f [] a l b). Qed.

Lemma prints_lift {A} (o : option A) a : o = Some a -> prints (plift o) [] a.
Proof. intros -> str m _ _. cbn. by rewrite Z.add_0_r. Qed.

Lemma prints_emit c : prints (emit end_ c) [c] tt.
Proof.
  intros str m (H1 & H2 & H3) Hlen. cbn [length] in *. unfold emit. rewrite wrap_small by lia. cbn [wr].
  destruct (Z.ltb_spec str end_); [|done]. destruct (H2 str ltac:(lia)) as (b & Hb & _). rewrite store1, Hb. done.
Qed.

Lemma prints_emit_bind {B} c (k : P B) l b : prints k l b -> prints (emit end_ c;; k) (c :: l) b.
Proof. intros Hk. exact (prints_bind (emit end_ c) (fun _ => k) [c] tt l b (prints_emit c) Hk). Qed.

(** *** The padding loops *)
Lemma i32_small x : - 2 ^ 31 <= x < 2 ^ 31 -> i32 x = x.
Proof. intros Hx. apply swrap_small; [lia|]. by change (32 - 1) with 31. Qed.

Lemma pad_loop_prints fuel size c : - 2 ^ 31 < size < 2 ^ 31 -> (Z.to_nat size < fuel)%nat ->
  prints (pad_loop end_ fuel size c) (replicate (Z.to_nat size) c) (Z.min size 0 - 1).
Proof.
  revert size. induction fuel as [|fuel IH]; intros size Hs Hf; [lia|]. cbn [pad_loop].
  rewrite i32_small by lia. destruct (Z.ltb_spec 0 size).
  - replace (Z.to_nat size) with (S (Z.to_nat (size - 1))) by lia. cbn [replicate]. apply prints_emit_bind.
    replace (Z.min size 0 - 1) with (Z.min (size - 1) 0 - 1) by lia. apply IH; lia.
  - replace (Z.to_nat size) with 0%nat by lia. replace (Z.min size 0 - 1) with (size - 1) by lia. apply prints_ret.
Qed.
Lemma pad_prints size c : - 2 ^ 31 < size < 2 ^ 31 -> prints (pad end_ size c) (replicate (Z.to_nat size) c) (Z.min size 0 - 1).
Proof. intros Hs. apply pad_loop_prints; [done|lia]. Qed.

(** Nothing is missing. *)
Lemma pad_none' size c : - 2 ^ 31 < size <= 0 -> prints (pad end_ size c) [] (size - 1).
Proof.
  intros Hs. pose proof (pad_prints size c ltac:(lia)) as H. rewrite Z.min_l in H by lia.
  by replace (Z.to_nat size) with 0%nat in H by lia.
Qed.
Lemma pad_none size c : - 2 ^ 31 < size <= 0 -> prints (pad end_ size c;; mret tt) [] tt.
Proof. intros Hs. eapply prints_nil_bind; [by apply pad_none'|apply prints_ret]. Qed.

Lemma fill_loop_prints fuel i p c : 0 <= i -> - 2 ^ 31 < p < 2 ^ 31 -> (Z.to_nat (p - i) < fuel)%nat ->
  prints (fill_loop end_ fuel i p c) (replicate (Z.to_nat (p - i)) c) (Z.min p i - 1).
Proof.
  intros Hi. revert p. induction fuel as [|fuel IH]; intros p Hp Hf; [lia|]. cbn [fill_loop].
  rewrite i32_small by lia. destruct (Z.ltb_spec i p).
  - replace (Z.to_nat (p - i)) with (S (Z.to_nat (p - 1 - i))) by lia. cbn [replicate]. apply prints_emit_bind.
    replace (Z.min p i - 1) with (Z.min (p - 1) i - 1) by lia. apply IH; lia.
  - replace (Z.to_nat (p - i)) with 0%nat by lia. replace (Z.min p i - 1) with (p - 1) by lia. apply prints_ret.
Qed.
Lemma fill_prints i p c : 0 <= i -> - 2 ^ 31 < p < 2 ^ 31 ->
  prints (fill_to end_ i p c) (replicate (Z.to_nat (p - i)) c) (Z.min p i - 1).
Proof. intros Hi Hp. apply fill_loop_prints; [done|done|lia]. Qed.

Lemma width_loop_prints fuel w : - 2 ^ 31 < w < 2 ^ 31 -> (Z.to_nat w < fuel)%nat ->
  prints (width_loop end_ fuel w) (spaces (w - 1)) (Z.min (w - 1) 0).
Proof.
  revert w. induction fuel as [|fuel IH]; intros w Hw Hf; [lia|]. cbn [width_loop]. rewrite i32_small by lia. unfold spaces.
  destruct (Z.ltb_spec 0 (w - 1)).
  - replace (Z.to_nat (w - 1)) with (S (Z.to_nat (w - 1 - 1))) by lia. cbn [replicate]. apply prints_emit_bind.
    replace (Z.min (w - 1) 0) with (Z.min (w - 1 - 1) 0) by lia. apply IH; lia.
  - replace (Z.to_nat (w - 1)) with 0%nat by lia. rewrite Z.min_l by lia. apply prints_ret.
Qed.
Lemma width_prints w : - 2 ^ 31 < w < 2 ^ 31 -> prints (put_width end_ w) (spaces (w - 1)) (Z.min (w - 1) 0).
Proof. intros Hw. apply width_loop_prints; [done|lia]. Qed.

Lemma tmp_loop_prints n tmp : (n <= length tmp)%nat -> prints (tmp_loop end_ n tmp) (reverse (take n tmp)) tt.
Proof.
  induction n as [|n IH]; intros Hn; cbn [tmp_loop]; [rewrite take_0, reverse_nil; apply prints_ret|].
  destruct (lookup_lt_is_Some_2 tmp n Hn) as [c Hc]. eapply prints_nil_bind; [by apply prints_lift|].
  rewrite (take_S_r _ _ _ Hc), reverse_snoc. apply prints_emit_bind, IH. lia.
Qed.

(** *** Characters and strings *)
Lemma char_prints d a : plain d = true -> prints (put_char end_ d a) (char_text d a) tt.
Proof.
  intros Hd. unfold plain in Hd. assert (-1 <= d_width d <= 2 ^ 30) as Hw by lia. unfold put_char, char_text.
  destruct (has (d_flags d) LEFT); cbn [negb].
  - eapply prints_nil_bind; [apply prints_ret|]. apply prints_emit_bind. rewrite <- (app_nil_r (spaces _)).
    eapply prints_bind; [apply width_prints; lia|apply prints_ret].
  - eapply prints_bind; [apply width_prints; lia|]. apply prints_emit_bind. eapply prints_nil_bind; [|apply prints_ret].
    pose proof (width_prints (Z.min (d_width d - 1) 0) ltac:(lia)) as H. unfold spaces in H.
    by replace (Z.to_nat (Z.min (d_width d - 1) 0 - 1)) with 0%nat in H by lia.
Qed.

(** A string that printing does not change. *)
Definition safe_str (p : Z) (l : list Z) : Prop :=
  if p =? RT_NULL then l = null_string
  else cstr m0 p l /\ (p + Z.of_nat (length l) < buf \/ end_ <= p).

Lemma str_char_prints p l i : safe_str p l -> (i <= length l)%nat -> prints (str_char p i) [] (nth i l 0).
Proof.
  unfold safe_str, str_char. intros Hs Hi str m (H1 & H2 & H3) Hlen. cbn [length wr]. rewrite Z.add_0_r.
  destruct (p =? RT_NULL); [by rewrite Hs|]. destruct Hs as [[Hc _] Hap]. cbn [snd]. rewrite load1, H3 by lia.
  rewrite (Hc i (nth i l 0)); [done|]. destruct (decide (i < length l)%nat).
  - rewrite lookup_app_l by done. destruct (lookup_lt_is_Some_2 l i) as [x Hx]; [done|]. rewrite Hx. f_equal. symmetry. by apply nth_lookup_Some.
  - assert (i = length l) as -> by lia. rewrite lookup_app_r, Nat.sub_diag by lia. cbn. f_equal. symmetry. by apply nth_overflow.
Qed.

Lemma safe_chars p l : safe_str p l -> Forall is_char l.
Proof.
  unfold safe_str. destruct (p =? RT_NULL); [intros ->|by intros [[_ Hc] _]]. unfold null_string. repeat constructor; lia.
Qed.

Lemma len_loop_prints fuel p l w i : safe_str p l -> (i <= length l)%nat -> (length l - i < fuel)%nat -> (w < 0 \/ Z.of_nat i <= w) ->
  prints (len_loop fuel p w i) [] (if w <? 0 then length l else Nat.min (Z.to_nat w) (length l)).
Proof.
  intros Hs. revert i. induction fuel as [|fuel IH]; intros i Hi Hf Hw; [lia|]. cbn [len_loop].
  destruct (Z.eqb_spec (Z.of_nat i) w) as [E|Hne].
  { destruct (Z.ltb_spec w 0); [lia|]. replace (Nat.min (Z.to_nat w) (length l)) with i by lia. apply prints_ret. }
  eapply prints_nil_bind; [by apply (str_char_prints p l)|]. destruct (decide (i = length l)) as [->|Hlt].
  - rewrite nth_overflow by lia. cbn [Z.eqb]. destruct (Z.ltb_spec w 0); [apply prints_ret|].
    rewrite Nat.min_r by lia. apply prints_ret.
  - destruct (Z.eqb_spec (nth i l 0) 0) as [E|_]; [|apply IH; lia]. exfalso.
    pose proof (safe_chars _ _ Hs) as Hc. destruct (lookup_lt_is_Some_2 l i) as [x Hx]; [lia|].
    rewrite (nth_lookup_Some _ _ _ _ Hx) in E. rewrite Forall_lookup in Hc. specialize (Hc i x Hx). unfold is_char in Hc. lia.
Qed.

Lemma string_loop_prints n i p l : safe_str p l -> (i + n <= length l)%nat ->
  prints (string_loop end_ n i p) (take n (drop i l)) tt.
Proof.
  intros Hs. revert i. induction n as [|n IH]; intros i Hi; cbn [string_loop]; [apply prints_ret|].
  destruct (lookup_lt_is_Some_2 l i) as [x Hx]; [lia|]. eapply prints_nil_bind; [apply (str_char_prints p l); [done|lia]|].
  rewrite (nth_lookup_Some _ _ _ _ Hx), (drop_S _ _ _ Hx). cbn [take]. apply prints_emit_bind, IH. lia.
Qed.

(** The length [put_string] finds. *)
Definition cut_len (d : directive) (l : list Z) : nat :=
  let len := if d_width d <? 0 then length l else Nat.min (Z.to_nat (d_width d)) (length l) in
  if (0 <? d_precision d) && (d_precision d <? Z.of_nat len) then Z.to_nat (d_precision d) else len.

Lemma string_text_cut d l : string_text d l =
  let t := take (cut_len d l) l in
  let gap := spaces (d_width d - Z.of_nat (cut_len d l)) in
  if has (d_flags d) LEFT then t ++ gap else gap ++ t.
Proof.
  assert (forall w, take (Nat.min w (length l)) l = take w l) as Hmin by (intros w; by rewrite <- take_take, (take_ge l (length l))).
  unfold string_text. set (l1 := if d_width d <? 0 then l else take (Z.to_nat (d_width d)) l).
  set (n1 := if d_width d <? 0 then length l else Nat.min (Z.to_nat (d_width d)) (length l)).
  assert (l1 = take n1 l /\ length l1 = n1) as [E1 E2].
  { unfold l1, n1. destruct (d_width d <? 0); [by rewrite take_ge|]. rewrite Hmin, length_take. done. }
  set (l2 := if 0 <? d_precision d then take (Z.to_nat (d_precision d)) l1 else l1).
  assert (l2 = take (cut_len d l) l /\ length l2 = cut_len d l) as [F1 F2].
  { unfold l2, cut_len. fold n1. destruct (Z.ltb_spec 0 (d_precision d)); cbn [andb]; [|done].
    destruct (Z.ltb_spec (d_precision d) (Z.of_nat n1)).
    - rewrite E1, take_take, length_take. assert (n1 <= length l)%nat by (unfold n1; destruct (d_width d <? 0); lia).
      by replace (Nat.min (Z.to_nat (d_precision d)) n1) with (Z.to_nat (d_precision d)) by lia; split; [|lia].
    - rewrite take_ge by lia. done. }
  rewrite F2, F1. done.
Qed.

Lemma cut_len_le d l : (cut_len d l <= length l)%nat.
Proof.
  unfold cut_len. set (n := if d_width d <? 0 then _ else _). assert (n <= length l)%nat by (unfold n; destruct (d_width d <? 0); lia).
  cbv zeta. destruct (_ && _) eqn:E; lia.
Qed.

Lemma string_prints sfuel d p l : plain d = true -> safe_str p l -> (length l < sfuel)%nat -> Z.of_nat (length l) < 2 ^ 31 ->
  prints (put_string end_ sfuel d p) (string_text d l) tt.
Proof.
  intros Hd Hs Hf Hmax. unfold plain in Hd. assert (-1 <= d_width d <= 2 ^ 30) as Hw by lia. unfold put_string.
  eapply prints_nil_bind; [apply (len_loop_prints _ _ l); [done|lia|lia|lia]|]. fold (cut_len d l).
  rewrite string_text_cut. pose proof (cut_len_le d l). cbv zeta. set (k := cut_len d l) in *.
  assert (prints (string_loop end_ k 0 p) (take k l) tt) as Ht by (by apply (string_loop_prints k 0)).
  destruct (has (d_flags d) LEFT); cbn [negb].
  - eapply prints_nil_bind; [apply prints_ret|]. eapply prints_bind; [exact Ht|]. rewrite <- (app_nil_r (spaces _)).
    eapply prints_bind; [apply fill_prints; lia|apply prints_ret].
  - eapply prints_bind; [apply fill_prints; lia|]. rewrite <- (app_nil_r (take k l)). eapply prints_bind; [exact Ht|].
    eapply prints_nil_bind; [|apply prints_ret].
    pose proof (fill_prints (Z.of_nat k) (Z.min (d_width d) (Z.of_nat k) - 1) cSPACE ltac:(lia) ltac:(lia)) as H0.
    by replace (Z.to_nat (Z.min (d_width d) (Z.of_nat k) - 1 - Z.of_nat k)) with 0%nat in H0 by lia.
Qed.

(** *** Numbers *)
Lemma prints_eq {A} (c : P A) l l' a : prints c l a -> l = l' -> prints c l' a.
Proof. by intros H <-. Qed.

(** From the padding on: [size] columns are missing, [sgn] is the sign. *)
Definition print_body (type size precision precision_bak sign : Z) (tmp : list Z) : P unit :=
  size ← (if negb (has type (Z.lor ZEROPAD LEFT)) then
            pad end_ (if negb (sign =? 0) && (0 <? size) then i32 (size - 1) else size) cSPACE
          else mret size);
  size ← (if negb (sign =? 0) then emit end_ sign;; mret (i32 (size - 1)) else mret size);
  size ← (if negb (has type LEFT) then pad end_ size (if has type ZEROPAD then cZERO else cSPACE) else mret size);
  fill_to end_ (Z.of_nat (length tmp)) precision cZERO;;
  (if negb (precision_bak =? 0) then tmp_loop end_ (length tmp) tmp else mret tt);;
  pad end_ size cSPACE;;
  mret tt.

Definition sign_text (sign : Z) : list Z := if sign =? 0 then [] else [sign].

Lemma sign_prints sign size : - 2 ^ 31 < size < 2 ^ 31 ->
  prints (if negb (sign =? 0) then emit end_ sign;; mret (i32 (size - 1)) else mret size) (sign_text sign)
    (size - Z.of_nat (length (sign_text sign))).
Proof.
  intros Hs. unfold sign_text. destruct (sign =? 0); cbn [negb length].
  - rewrite Z.sub_0_r. apply prints_ret.
  - rewrite i32_small by lia. apply prints_emit_bind, prints_ret.
Qed.

Lemma shown_prints precision tmp :
  prints (if negb (precision =? 0) then tmp_loop end_ (length tmp) tmp else mret tt) (if precision =? 0 then [] else reverse tmp) tt.
Proof.
  destruct (precision =? 0); cbn [negb]; [apply prints_ret|]. rewrite <- (take_ge tmp (length tmp)) at 3 by done. by apply tmp_loop_prints.
Qed.

Lemma print_body_prints type size precision bak sign tmp : - 2 ^ 30 - 10 < size <= 2 ^ 30 -> 0 <= precision <= 2 ^ 30 ->
  has type LEFT && has type ZEROPAD = false ->
  let sgn := sign_text sign in let gap := size - Z.of_nat (length sgn) in
  let body := zeros (precision - Z.of_nat (length tmp)) ++ (if bak =? 0 then [] else reverse tmp) in
  prints (print_body type size precision bak sign tmp)
    (if has type LEFT then sgn ++ body ++ spaces gap else if has type ZEROPAD then sgn ++ zeros gap ++ body else spaces gap ++ sgn ++ body) tt.
Proof.
  intros Hs Hp Hx sgn gap body. assert (length sgn <= 1)%nat as Hl by (unfold sgn, sign_text; destruct (sign =? 0); cbn; lia).
  assert (prints (fill_to end_ (Z.of_nat (length tmp)) precision cZERO) (zeros (precision - Z.of_nat (length tmp)))
    (Z.min precision (Z.of_nat (length tmp)) - 1)) as Hfill by (apply fill_prints; lia).
  unfold print_body. rewrite has_either. destruct (has type LEFT) eqn:EL; cbn [negb orb].
  - rewrite orb_true_r. cbn [negb]. eapply prints_nil_bind; [apply prints_ret|]. eapply prints_bind; [apply sign_prints; lia|].
    fold sgn. fold gap. eapply prints_nil_bind; [apply prints_ret|]. unfold body. rewrite <- app_assoc. eapply prints_bind; [exact Hfill|].
    eapply prints_bind; [apply shown_prints|]. rewrite <- (app_nil_r (spaces _)). eapply prints_bind; [apply pad_prints; unfold gap; lia|apply prints_ret].
  - rewrite orb_false_r. destruct (has type ZEROPAD) eqn:EZ; cbn [negb].
    + eapply prints_nil_bind; [apply prints_ret|]. eapply prints_bind; [apply sign_prints; lia|]. fold sgn. fold gap.
      eapply prints_bind; [apply pad_prints; unfold gap; lia|]. unfold body. eapply prints_bind; [exact Hfill|].
      rewrite <- (app_nil_r (if bak =? 0 then _ else _)). eapply prints_bind; [apply shown_prints|]. apply pad_none; unfold gap; lia.
    + set (sz := if _ && _ then _ else _). assert (Z.to_nat sz = Z.to_nat gap /\ - 2 ^ 30 - 10 < sz <= 2 ^ 30) as [Esz Hsz].
      { unfold sz, gap, sgn, sign_text. destruct (sign =? 0); cbn [negb andb length]; [lia|].
        destruct (Z.ltb_spec 0 size); [rewrite i32_small by lia|]; lia. }
      unfold spaces. rewrite <- Esz. eapply prints_bind; [apply pad_prints; lia|]. eapply prints_bind; [apply sign_prints; lia|]. fold sgn.
      eapply prints_nil_bind; [apply pad_none'; lia|].
      unfold body. eapply prints_bind; [exact Hfill|].
      rewrite <- (app_nil_r (if bak =? 0 then _ else _)). eapply prints_bind; [apply shown_prints|]. apply pad_none; lia.
Qed.

(** The magnitude printed and the sign. *)
Definition magnitude (type num : Z) : Z := if has type SIGN then Z.abs num else u32 num.
Definition sign_char (type num : Z) : Z :=
  if has type SIGN then if num <? 0 then cMINUS else if has type PLUS then cPLUS else if has type SPACE then cSPACE else 0 else 0.

Lemma print_number_eq num base w p type : - 2 ^ 31 <= num < 2 ^ 31 ->
  print_number end_ num base w p type =
  (tmp ← plift (if i32 (magnitude type num) =? 0 then Some [cZERO]
                else digit_loop 17 (if has type LARGE then large_digits else small_digits) (i32 (magnitude type num)) base []);
   let q := if p <? Z.of_nat (length tmp) then Z.of_nat (length tmp) else p in
   print_body (print_type type) (i32 (w - q)) q p (sign_char type num) tmp).
Proof.
  intros Hn. unfold print_number. fold (print_type type).
  change SIGN with (2 ^ 1). change PLUS with (2 ^ 2). change SPACE with (2 ^ 3). rewrite !print_type_bit by lia.
  change (2 ^ 1) with SIGN. change (2 ^ 2) with PLUS. change (2 ^ 3) with SPACE.
  unfold magnitude, sign_char. destruct (has type SIGN); [|by rewrite i32_u32].
  destruct (Z.ltb_spec num 0); [by rewrite Z.abs_neq by lia|]. rewrite Z.abs_eq, (i32_small num) by lia.
  by destruct (has type PLUS); [|destruct (has type SPACE)].
Qed.

Lemma number_prints num base w p type : - 2 ^ 31 <= num < 2 ^ 31 -> -1 <= w <= 2 ^ 30 -> -1 <= p <= 2 ^ 30 ->
  prints (print_number end_ num base w p type) (number_text num base w p type) tt.
Proof.
  intros Hn Hw Hp. rewrite print_number_eq by done.
  assert (0 <= magnitude type num < 2 ^ 32) as Hm.
  { unfold magnitude. destruct (has type SIGN); [lia|apply wrap_range; lia]. }
  destruct (tmp_run (if has type LARGE then large_digits else small_digits) base _ (digits_length type) Hm) as (tmp & Hrun & Hrev & Hlen).
  eapply prints_nil_bind; [apply prints_lift; exact Hrun|]. cbv zeta.
  assert ((if p <? Z.of_nat (length tmp) then Z.of_nat (length tmp) else p) = Z.max p (Z.of_nat (length tmp))) as ->.
  { destruct (Z.ltb_spec p (Z.of_nat (length tmp))); lia. }
  rewrite i32_small by lia. set (q := Z.max p (Z.of_nat (length tmp))).
  pose proof (print_body_prints (print_type type) (w - q) q p (sign_char type num) tmp) as H. cbv zeta in H.
  rewrite print_type_zeropad in H. change LEFT with (2 ^ 4) in H. rewrite print_type_bit in H by lia. change (2 ^ 4) with LEFT in H.
  eapply prints_eq; [apply H; [unfold q; lia|unfold q; lia|by destruct (has type LEFT)]|]. clear H.
  unfold number_text. fold (magnitude type num). rewrite <- Hrev, length_reverse.
  assert (sign_text (sign_char type num) = (if has type SIGN then
    if num <? 0 then [cMINUS] else if has type PLUS then [cPLUS] else if has type SPACE then [cSPACE] else [] else [])) as Esg.
  { unfold sign_char. destruct (has type SIGN); [|done]. destruct (num <? 0); [done|].
    by destruct (has type PLUS); [|destruct (has type SPACE)]. }
  rewrite <- Esg. assert (zeros (q - Z.of_nat (length tmp)) = zeros (p - Z.of_nat (length tmp))) as -> by (unfold zeros, q; f_equal; lia).
  destruct (has type LEFT); cbn [negb andb]; [done|]. by destruct (has type ZEROPAD).
Qed.

(** *** Conversions *)
Lemma int_arg_range q f a : 0 <= int_arg q f a < 2 ^ 32.
Proof.
  unfold int_arg. assert (0 <= u16 a < 2 ^ 32) by (pose proof (wrap_range 16 a ltac:(lia)); lia).
  destruct (q =? 108), (q =? 104), (has f SIGN); try (apply wrap_range; lia); done.
Qed.

Lemma va_int_range args a args' : va_int args = Some (a, args') -> - 2 ^ 31 <= a < 2 ^ 31.
Proof. destruct args as [|b args]; [done|]. intros [= <- _]. apply i32_range. Qed.

Context (rd : Z -> option (list Z)) (sfuel : nat).
(** Every string given to [%s] is in memory, outside the buffer. *)
Definition strings_ok : Prop :=
  (6 < sfuel)%nat /\ forall p l, p <> RT_NULL -> rd p = Some l ->
    cstr m0 p l /\ (p + Z.of_nat (length l) < buf \/ end_ <= p) /\ (length l < sfuel)%nat /\ Z.of_nat (length l) < 2 ^ 31.

Lemma string_arg p l : strings_ok -> (if p =? RT_NULL then Some null_string else rd p) = Some l ->
  safe_str p l /\ (length l < sfuel)%nat /\ Z.of_nat (length l) < 2 ^ 31.
Proof.
  intros [Hf Hs] E. unfold safe_str. destruct (Z.eqb_spec p RT_NULL) as [|Hne]; [by injection E as <-|].
  destruct (Hs p l Hne E) as (H1 & H2 & H3 & H4). done.
Qed.

Lemma convert_prints d fmt args l fmt' args' : strings_ok -> plain d = true ->
  conversion_text rd d fmt args = Some (l, fmt', args') -> prints (convert end_ sfuel d fmt args) l (fmt', args').
Proof.
  intros Hs Hd. pose proof Hd as Hd'. unfold plain in Hd'. unfold conversion_text, convert. set (c := hd 0 fmt).
  destruct (c =? 99).
  { destruct (va_int args) as [[a args1]|] eqn:Ea; [|done]. intros [= <- <- <-].
    eapply prints_nil_bind; [by apply prints_lift|]. rewrite <- (app_nil_r (char_text d a)).
    eapply prints_bind; [by apply char_prints|apply prints_ret]. }
  destruct (c =? 115).
  { destruct (va_int args) as [[a args1]|] eqn:Ea; [|done]. cbn [mbind option_bind].
    destruct (if u32 a =? RT_NULL then _ else _) as [str|] eqn:El; [|done]. intros [= <- <- <-].
    destruct (string_arg _ _ Hs El) as (H1 & H2 & H3). eapply prints_nil_bind; [by apply prints_lift|].
    rewrite <- (app_nil_r (string_text d str)). eapply prints_bind; [by apply string_prints|apply prints_ret]. }
  destruct (c =? 112).
  { destruct (va_int args) as [[a args1]|] eqn:Ea; [|done]. pose proof (va_int_range _ _ _ Ea) as Ha.
    intros [= <- <- <-]. eapply prints_nil_bind; [by apply prints_lift|].
    destruct (d_width d =? -1); (eapply prints_eq; [eapply prints_bind; [apply number_prints; lia|apply prints_ret]|apply app_nil_r]). }
  destruct (c =? cPERCENT); [intros [= <- <- <-]; apply prints_emit_bind, prints_ret|].
  destruct (int_conv c (d_flags d)) as [[base flags]|].
  - destruct (va_int args) as [[a args1]|] eqn:Ea; [|done]. intros [= <- <- <-]. eapply prints_nil_bind; [by apply prints_lift|].
    eapply prints_eq; [eapply prints_bind; [apply number_prints; [apply i32_range|lia|lia]|apply prints_ret]|apply app_nil_r].
  - destruct (c =? 0); intros [= <- <- <-]; apply prints_emit_bind; [apply prints_ret|]. apply prints_emit_bind, prints_ret.
Qed.

Lemma format_prints fuel fmt args l : strings_ok -> expand_loop rd fuel fmt args = Some l ->
  prints (format_loop end_ sfuel fuel fmt args) l tt.
Proof.
  intros Hs. revert fmt args l. induction fuel as [|fuel IH]; intros fmt args l; [done|]. cbn [expand_loop format_loop].
  destruct fmt as [|c rest]; [intros [= <-]; apply prints_ret|]. destruct (c =? 0); [intros [= <-]; apply prints_ret|].
  destruct (negb (c =? cPERCENT)).
  - destruct (expand_loop rd fuel rest args) as [l'|] eqn:E; [|done]. intros [= <-]. by apply prints_emit_bind, IH.
  - destruct (get_directive rest args) as [[[d fmt1] args1]|] eqn:Ed; [|done]. cbn [mbind option_bind].
    destruct (plain d) eqn:Hd; [|done]. destruct (conversion_text rd d fmt1 args1) as [[[l1 fmt2] args2]|] eqn:Ec; [|done].
    cbn [mbind option_bind]. destruct (expand_loop rd fuel fmt2 args2) as [l2|] eqn:E; [|done]. intros [= <-].
    eapply prints_nil_bind; [by apply prints_lift|]. eapply prints_bind; [by apply convert_prints|]. cbn. by apply IH.
Qed.
End prints.

(** ** The buffer *)
Lemma wr_other end_ l str m a : a < str \/ str + Z.of_nat (length l) <= a -> wr end_ l str m !! a = m !! a.
Proof.
  revert str m. induction l as [|c l IH]; intros str m Ha; cbn [wr length] in *; [done|]. rewrite IH by lia.
  destruct (str <? end_); [|done]. apply lookup_insert_ne. lia.
Qed.

Lemma wr_lookup end_ l str m i c : l !! i = Some c -> str + Z.of_nat i < end_ -> wr end_ l str m !! (str + Z.of_nat i) = Some (u8 c).
Proof.
  revert str m i. induction l as [|d l IH]; intros str m i Hi Ha; [done|]. cbn [wr]. destruct i as [|i]; cbn in Hi.
  - injection Hi as ->. rewrite wr_other by lia. rewrite Z.add_0_r in *. rewrite (proj2 (Z.ltb_lt _ _)) by done. apply lookup_insert_eq.
  - replace (str + Z.of_nat (S i)) with (str + 1 + Z.of_nat i) in * by lia. by apply IH.
Qed.

(** The text cut to a buffer of [size] bytes. *)
Definition cut_text (size : Z) (text : list Z) : list Z := map (fun c => u8 c) (take (Z.to_nat (size - 1)) text) ++ [0].

Lemma vsnprintf_run rd sfuel buf size fmt args m text :
  0 <= buf -> 0 <= size -> buf + size < 2 ^ 32 -> present buf (buf + size) m -> strings_ok buf (buf + size) m rd sfuel ->
  expand rd fmt args = Some text -> buf + Z.of_nat (length text) < 2 ^ 32 -> Z.of_nat (length text) < 2 ^ 31 ->
  exists m', rt_vsnprintf sfuel buf size fmt args m = Some (Z.of_nat (length text), m') /\
    same_outside buf (buf + size) m m' /\ (0 < size -> contents m' buf (cut_text size text)).
Proof.
  intros Hb Hs Hmax Hp Hstr He Hlim Hlen. unfold rt_vsnprintf. rewrite wrap_small by lia.
  rewrite (proj2 (Z.ltb_ge _ _)) by lia. set (end_ := buf + size) in *.
  assert (good buf end_ m buf m) as Hg by (split; [lia|split; [done|by intros a]]).
  rewrite (format_prints buf end_ m rd sfuel _ _ _ text Hstr He buf m Hg Hlim). cbn [mbind option_bind].
  set (n := Z.of_nat (length text)) in *. set (m1 := wr end_ text buf m).
  pose proof (good_wr buf end_ m text buf m Hg) as (_ & Hp1 & So1). fold n in Hp1, So1. fold m1 in Hp1, So1.
  replace (i32 (buf + n - buf)) with n by (rewrite i32_small; lia).
  destruct (Z.ltb_spec 0 size); [|exists m1; split; [done|split; [done|lia]]].
  set (k := Z.min n (size - 1)).
  assert ((if buf + n <? end_ then store 1 (buf + n) 0 m1 else store 1 (end_ - 1) 0 m1) = Some (<[buf + k := 0]> m1)) as ->.
  { rewrite !store1. destruct (Hp1 (buf + k)) as (x & Hx & _); [unfold k, end_; lia|].
    destruct (Z.ltb_spec (buf + n) end_).
    - replace (buf + n) with (buf + k) by (unfold k, end_ in *; lia). by rewrite Hx.
    - replace (end_ - 1) with (buf + k) by (unfold k, end_ in *; lia). by rewrite Hx. }
  exists (<[buf + k := 0]> m1). split; [done|]. split.
  { intros a Ha. rewrite lookup_insert_ne; [by apply So1|]. unfold k, end_ in *. lia. }
  intros _ i b. unfold cut_text. intros Hi. set (t := take (Z.to_nat (size - 1)) text) in *.
  assert (length t = Z.to_nat k) as Ht by (unfold t, k, n; rewrite length_take; lia).
  apply lookup_app_Some in Hi as [Hi|[Hge Hi]].
  - rewrite list_lookup_fmap in Hi. destruct (t !! i) as [c|] eqn:Ec; [|done]. injection Hi as <-.
    pose proof (lookup_lt_Some _ _ _ Ec). rewrite lookup_insert_ne by lia. apply lookup_take_Some in Ec as [Ec _].
    apply wr_lookup; [done|]. unfold end_, k in *. lia.
  - rewrite length_map in Hge, Hi. assert (i = length t) as ->. { apply lookup_lt_Some in Hi. cbn in Hi. lia. }
    rewrite Nat.sub_diag in Hi. injection Hi as <-. replace (buf + Z.of_nat (length t)) with (buf + k) by lia. apply lookup_insert_eq.
Qed.

Lemma read_bytes_at_run n a m l : contents m a l -> length l = n -> read_bytes_at n a m = Some l.
Proof.
  revert a l. induction n as [|n IH]; intros a [|c l] Hc Hl; try done. cbn [read_bytes_at]. apply contents_cons in Hc as [Hc Hc'].
  rewrite load1, Hc. cbn [mbind option_bind]. rewrite (IH _ l); [done|done|]. by injection Hl.
Qed.

(** ** Reading numerals *)
Definition digit_value (c : Z) : Z := if c <? 58 then c - 48 else if c <? 71 then c - 55 else c - 87.
Definition read_number (b : Z) (l : list Z) : Z := fold_left (fun v c => v * b + digit_value c) l 0.

Lemma digit_value_of type d : 0 <= d < 16 -> digit_value (digit_of (if has type LARGE then large_digits else small_digits) d) = d.
Proof.
  intros Hd. assert (Forall (fun d => digit_value (digit_of large_digits d) = d /\ digit_value (digit_of small_digits d) = d) (seqZ 0 16)) as H.
  { apply (bool_decide_unpack _). by vm_compute. }
  rewrite Forall_forall in H. destruct (H d) as [H1 H2]; [apply elem_of_seqZ; lia|]. by destruct (has type LARGE).
Qed.

Lemma read_low_digits type k b n : 10 <= b <= 16 -> 0 <= n < b ^ Z.of_nat k ->
  read_number b (reverse (map (digit_of (if has type LARGE then large_digits else small_digits)) (low_digits k b n))) = n.
Proof.
  intros Hb. revert n. induction k as [|k IH]; intros n Hn; [cbn in *; lia|]. cbn [low_digits].
  destruct (Z.eqb_spec n 0) as [->|Hnz]; [done|]. cbn [map]. rewrite reverse_cons. unfold read_number in *. rewrite fold_left_app. cbn [fold_left].
  rewrite IH.
  - rewrite digit_value_of; [rewrite (Z.div_mod n b) at 3; lia|]. pose proof (Z.mod_pos_bound n b ltac:(lia)). lia.
  - rewrite Nat2Z.inj_succ, Z.pow_succ_r in Hn by lia. split; [apply Z.div_pos; lia|apply Z.div_lt_upper_bound; lia].
Qed.

Lemma read_numeral type b n : 10 <= b <= 16 -> 0 <= n < 2 ^ 32 ->
  read_number b (numeral (if has type LARGE then large_digits else small_digits) b n) = n.
Proof.
  intros Hb Hn. unfold numeral. destruct (Z.eqb_spec n 0) as [->|Hnz]; [done|].
  apply (read_low_digits type 16); [done|]. split; [lia|]. apply Z.lt_le_trans with (10 ^ 16); [lia|]. apply Z.pow_le_mono_l. lia.
Qed.

(** [ds] is the numeral of [n]: digits of the base only, no leading zero, and
    the value is [n]. *)
Definition reads (digits : list Z) (b : Z) (ds : list Z) (n : Z) : Prop :=
  Forall (fun c => c ∈ take (Z.to_nat b) digits) ds /\ ds <> [] /\ (head ds = Some cZERO -> ds = [cZERO]) /\ read_number b ds = n.

Lemma low_digits_range k b n : 0 < b -> 0 <= n -> Forall (fun d => 0 <= d < b) (low_digits k b n).
Proof.
  intros Hb. revert n. induction k as [|k IH]; intros n Hn; cbn [low_digits]; [constructor|]. destruct (n =? 0); constructor.
  - by apply Z.mod_pos_bound.
  - apply IH. by apply Z.div_pos.
Qed.

(** The highest digit is not 0, and there are no more than the size asks for. *)
Lemma low_digits_last k b n d : 0 < b -> 0 <= n < b ^ Z.of_nat k -> last (low_digits k b n) = Some d -> d <> 0.
Proof.
  intros Hb. revert n. induction k as [|k IH]; intros n Hn; cbn [low_digits]; [done|]. rewrite Nat2Z.inj_succ, Z.pow_succ_r in Hn by lia.
  destruct (Z.eqb_spec n 0) as [|Hnz]; [done|]. rewrite last_cons.
  assert (0 <= n / b < b ^ Z.of_nat k) as Hq by (split; [apply Z.div_pos|apply Z.div_lt_upper_bound]; lia).
  destruct (last (low_digits k b (n / b))) as [e|] eqn:E; [intros [= <-]; by apply (IH (n / b))|]. intros [= <-].
  apply last_None in E. assert (n / b = 0) as Hz.
  { destruct k as [|k]; [change (Z.of_nat 0) with 0 in Hq; rewrite Z.pow_0_r in Hq; lia|]. cbn [low_digits] in E. by destruct (Z.eqb_spec (n / b) 0). }
  pose proof (Z.div_mod n b ltac:(lia)). lia.
Qed.

Lemma low_digits_length k j b n : 0 < b -> 0 <= n < b ^ Z.of_nat j -> (length (low_digits k b n) <= j)%nat.
Proof.
  intros Hb. revert k n. induction j as [|j IH]; intros k n Hn.
  - change (Z.of_nat 0) with 0 in Hn. rewrite Z.pow_0_r in Hn. assert (n = 0) as -> by lia. by destruct k.
  - destruct k as [|k]; cbn [low_digits length]; [lia|]. destruct (n =? 0); cbn [length]; [lia|]. apply le_n_S, IH.
    rewrite Nat2Z.inj_succ, Z.pow_succ_r in Hn by lia. split; [apply Z.div_pos|apply Z.div_lt_upper_bound]; lia.
Qed.

Lemma numeral_reads type b n : 10 <= b <= 16 -> 0 <= n < 2 ^ 32 ->
  reads (if has type LARGE then large_digits else small_digits) b (numeral (if has type LARGE then large_digits else small_digits) b n) n.
Proof.
  intros Hb Hn. pose proof (read_numeral type b n Hb Hn) as Hread. unfold reads. pose proof (digits_length type) as Hl.
  pose proof (digit_value_of type) as Hv. set (digits := if has type LARGE then _ else _) in *.
  assert (0 <= n < b ^ Z.of_nat 16) as Hk by (split; [lia|]; apply Z.lt_le_trans with (10 ^ 16); [lia|apply Z.pow_le_mono_l; lia]).
  unfold numeral in *. destruct (Z.eqb_spec n 0) as [->|Hnz].
  { repeat split; try done. apply Forall_singleton. unfold digits. assert (1 <= Z.to_nat b)%nat as H1 by lia. destruct (Z.to_nat b) as [|k]; [lia|].
    destruct (has type LARGE); left. }
  pose proof (low_digits_range 16 b n ltac:(lia) ltac:(lia)) as Hr. rewrite Forall_forall in Hr.
  split; [|split; [|split; [|done]]].
  - apply Forall_forall. intros c. rewrite elem_of_reverse. intros (d & -> & Hd)%list_elem_of_fmap. destruct (Hr d Hd) as [Hd0 Hd1].
    destruct (lookup_lt_is_Some_2 digits (Z.to_nat d)) as [c Hc]; [lia|]. rewrite Hc. apply list_elem_of_lookup. exists (Z.to_nat d).
    rewrite lookup_take_lt by lia. done.
  - intros E. apply (f_equal length) in E. rewrite length_reverse, length_map in E. cbn [low_digits] in E.
    rewrite (proj2 (Z.eqb_neq _ _) Hnz) in E. done.
  - rewrite head_reverse. match goal with |- context [map ?f ?l] => change (map f l) with (f <$> l) end. rewrite fmap_last. destruct (last (low_digits 16 b n)) as [d|] eqn:E; [|done]. intros [= Ed]. exfalso.
    apply (low_digits_last 16 b n d); [lia|done|done|]. destruct (Hr d) as [Hd0 Hd1]; [by apply last_Some_elem_of|].
    rewrite <- (Hv d) by lia. unfold digit_of. by rewrite Ed.
Qed.

(** Without width and precision: the sign and the numeral. *)
Lemma plain_number num base type : has type LEFT = false -> has type ZEROPAD = false ->
  number_text num base (-1) (-1) type =
  sign_text (sign_char type num) ++ numeral (if has type LARGE then large_digits else small_digits) (real_base base) (magnitude type num).
Proof.
  intros H1 H2. unfold number_text. rewrite H1, H2. fold (magnitude type num). set (ds := numeral _ _ _).
  assert (forall n, n < 0 -> spaces n = [] /\ zeros n = []) as Hneg by (intros n Hn; unfold spaces, zeros; by rewrite Z2Nat.inj_neg || by destruct n).
  set (sg := if has type SIGN then _ else _). 
  rewrite (proj1 (Hneg (-1 - Z.max (-1) (Z.of_nat (length ds)) - Z.of_nat (length sg)) ltac:(lia))),
    (proj2 (Hneg (-1 - Z.of_nat (length ds)) ltac:(lia))). cbn [app Z.eqb].
  f_equal. unfold sg, sign_text, sign_char. destruct (has type SIGN); [|done]. destruct (num <? 0); [done|].
  by destruct (has type PLUS); [|destruct (has type SPACE)].
Qed.

(** A format of one integer conversion. *)
Lemma expand_int rd c base flags a : int_conv c 0 = Some (base, flags) -> c <> 99 -> c <> 115 -> c <> 112 -> 97 <= c <= 122 \/ c = 88 -> c <> 104 -> c <> 108 ->
  expand rd [cPERCENT; c] [a] = Some (number_text (i32 (int_arg 0 flags (i32 a))) base (-1) (-1) flags).
Proof.
  intros Hc H1 H2 H3 Hr H4 H5. unfold expand. cbn [length]. cbn [expand_loop]. change (cPERCENT =? 0) with false. change (cPERCENT =? cPERCENT) with true. cbn [negb].
  assert (get_directive [c] [a] = Some (Directive 0 (-1) (-1) 0, [c], [a])) as ->.
  { unfold get_directive. cbn [get_flags].
    rewrite (proj2 (Z.eqb_neq c cMINUS)), (proj2 (Z.eqb_neq c cPLUS)), (proj2 (Z.eqb_neq c cSPACE)), (proj2 (Z.eqb_neq c cHASH)),
      (proj2 (Z.eqb_neq c cZERO)) by (unfold cMINUS, cPLUS, cSPACE, cHASH, cZERO; lia).
    unfold get_width, _ISDIGIT. cbn [hd]. rewrite wrap_small by (unfold cZERO; lia). rewrite (proj2 (Z.ltb_ge _ _)) by (unfold cZERO; lia).
    rewrite (proj2 (Z.eqb_neq c cSTAR)) by (unfold cSTAR; lia). cbn [mbind option_bind]. unfold get_precision. cbn [hd].
    rewrite (proj2 (Z.eqb_neq c cDOT)) by (unfold cDOT; lia). cbn [mbind option_bind hd].
    by rewrite (proj2 (Z.eqb_neq c 104)), (proj2 (Z.eqb_neq c 108)) by done. }
  cbn [mbind option_bind]. change (plain (Directive 0 (-1) (-1) 0)) with true. unfold conversion_text. cbn [hd d_flags d_width d_precision d_qualifier].
  rewrite (proj2 (Z.eqb_neq c 99)), (proj2 (Z.eqb_neq c 115)), (proj2 (Z.eqb_neq c 112)) by done.
  rewrite (proj2 (Z.eqb_neq c cPERCENT)) by (unfold cPERCENT; lia). rewrite Hc. cbn [va_int mbind option_bind tail].
  by rewrite app_nil_r.
Qed.

(** C26: rt_vsnprintf prints into a buffer of any size, 0 included: the result
    is the length of the whole text of the format, the buffer holds as much of
    it as fits before a closing null character, and no byte outside the buffer
    is written, whatever the widths, precisions and arguments are. *)
Theorem vsnprintf_spec rd sfuel buf size fmt args m text :
  0 <= buf -> 0 <= size -> buf + size < 2 ^ 32 -> present buf (buf + size) m -> strings_ok buf (buf + size) m rd sfuel ->
  expand rd fmt args = Some text -> buf + Z.of_nat (length text) < 2 ^ 32 -> Z.of_nat (length text) < 2 ^ 31 ->
  exists m', rt_vsnprintf sfuel buf size fmt args m = Some (Z.of_nat (length text), m') /\
    same_outside buf (buf + size) m m' /\ (0 < size -> contents m' buf (cut_text size text)).
Proof. intros. by eapply vsnprintf_run. Qed.

(** What rt_snprintf leaves in the buffer for a format with one argument. *)
Definition printed (buf size : Z) (fmt : list Z) (a : Z) (m : mem) (out : list Z) : Prop :=
  exists m', rt_snprintf 7 buf size fmt [a] m = Some (Z.of_nat (length out), m') /\ contents m' buf (out ++ [0]) /\
    same_outside buf (buf + size) m m'.

Lemma text_printed buf size fmt a m text : 0 <= buf -> buf + size < 2 ^ 32 -> present buf (buf + size) m ->
  expand no_strings fmt [a] = Some text -> Z.of_nat (length text) < size -> Z.of_nat (length text) < 2 ^ 31 ->
  Forall (fun c => 0 <= c < 256) text -> printed buf size fmt a m text.
Proof.
  intros Hb Hs Hp He Hl Hl' Hc. destruct (vsnprintf_run no_strings 7 buf size fmt [a] m text) as (m' & Hrun & So & Hm);
    [done|lia|done|done|by split; [lia|]|done|lia|done|].
  exists m'. split; [exact Hrun|]. split; [|done]. replace text with (map (fun c => u8 c) (take (Z.to_nat (size - 1)) text)) at 1; [apply Hm; lia|].
  rewrite take_ge by lia. clear -Hc. induction Hc as [|c l Hc _ IH]; cbn [map]; [done|]. by rewrite IH, wrap_small by (change (2 ^ 8) with 256; lia).
Qed.

Lemma numeral_short type b n : 10 <= b <= 16 -> 0 <= n < 2 ^ 32 ->
  let ds := numeral (if has type LARGE then large_digits else small_digits) b n in
  (length ds <= 10)%nat /\ Forall (fun c => 0 <= c < 256) ds.
Proof.
  intros Hb Hn ds. split.
  - unfold ds, numeral. destruct (n =? 0); [cbn; lia|]. rewrite length_reverse, length_map. apply (low_digits_length 16 10 b); [lia|].
    split; [lia|]. apply Z.lt_le_trans with (10 ^ 10); [lia|]. apply Z.pow_le_mono_l. lia.
  - destruct (numeral_reads type b n Hb Hn) as [H _]. eapply Forall_impl; [exact H|]. intros c Hc.
    assert (Forall (fun c => 0 <= c < 256) small_digits /\ Forall (fun c => 0 <= c < 256) large_digits) as [Hsm Hla]
      by (split; repeat constructor; lia).
    apply subseteq_take in Hc. destruct (has type LARGE); [rewrite Forall_forall in Hla; auto|rewrite Forall_forall in Hsm; auto].
Qed.

(** C39: integers are printed without loss.  rt_snprintf into a buffer of at
    least 12 bytes leaves there, for every 32-bit argument, a terminated
    numeral of digits of the base without leading zeros that reads back as the
    argument: for "%d" behind a minus sign if the argument is negative, the
    smallest integer included, for "%u" in decimal, for "%x" and "%X" in
    hexadecimal; "%o" leaves the hexadecimal numeral, too.  The result is the
    length, and no byte outside the buffer is written. *)
Theorem numbers_read_back buf size m a : 0 <= buf -> 12 <= size -> buf + size < 2 ^ 32 -> present buf (buf + size) m ->
  - 2 ^ 31 <= a < 2 ^ 31 ->
  (exists ds, printed buf size (codes "%d"%string) (u32 a) m ((if a <? 0 then [cMINUS] else []) ++ ds) /\ reads small_digits 10 ds (Z.abs a)) /\
  (exists ds, printed buf size (codes "%u"%string) (u32 a) m ds /\ reads small_digits 10 ds (u32 a)) /\
  (exists ds, printed buf size (codes "%x"%string) (u32 a) m ds /\ reads small_digits 16 ds (u32 a)) /\
  (exists ds, printed buf size (codes "%X"%string) (u32 a) m ds /\ reads large_digits 16 ds (u32 a)) /\
  (exists ds, printed buf size (codes "%o"%string) (u32 a) m ds /\ reads small_digits 16 ds (u32 a)).
Proof.
  intros Hb Hs Hmax Hp Ha. pose proof (wrap_range 32 a ltac:(lia)) as Hu.
  assert (forall f, i32 (int_arg 0 f (i32 (u32 a))) = a) as Earg.
  { intros f. rewrite (i32_u32 a) by done. unfold int_arg. cbn [Z.eqb]. destruct (has f SIGN); by rewrite !(i32_u32 a). }
  assert (forall c base flags sg, expand no_strings [cPERCENT; c] [u32 a] =
      Some (number_text (i32 (int_arg 0 flags (i32 (u32 a)))) base (-1) (-1) flags) -> has flags LEFT = false -> has flags ZEROPAD = false ->
    sign_text (sign_char flags a) = sg -> (length sg <= 1)%nat -> Forall (fun c => 0 <= c < 256) sg -> 0 <= magnitude flags a < 2 ^ 32 ->
    exists ds, printed buf size [cPERCENT; c] (u32 a) m (sg ++ ds) /\
      reads (if has flags LARGE then large_digits else small_digits) (real_base base) ds (magnitude flags a)) as Hone.
  { intros c base flags sg He H1 H2 <- Hl Hc Hm. rewrite Earg, plain_number in He by done. pose proof (real_base_range base) as Hr.
    destruct (numeral_short flags (real_base base) (magnitude flags a)) as [Hn1 Hn2]; [lia|done|].
    eexists. split; [apply text_printed; [done|done|done|exact He|rewrite length_app; lia|rewrite length_app; lia|by apply Forall_app]|].
    apply numeral_reads; [lia|done]. }
  assert (0 <= magnitude SIGN a < 2 ^ 32) as Hmag by (unfold magnitude; change (has SIGN SIGN) with true; cbv iota; lia).
  split; [|split; [|split; [|split]]].
  - apply (Hone 100 10 SIGN); [by apply expand_int; done || lia|done|done| | | |done];
      [unfold sign_char; change (has SIGN SIGN) with true; by destruct (a <? 0)|destruct (a <? 0); cbn; lia|destruct (a <? 0); repeat constructor; unfold cMINUS; lia].
  - apply (Hone 117 10 0 []); [by apply expand_int; done || lia|done|done|done|cbn; lia|constructor|done].
  - apply (Hone 120 16 0 []); [by apply expand_int; done || lia|done|done|done|cbn; lia|constructor|done].
  - apply (Hone 88 16 LARGE []); [by apply expand_int; done || lia|done|done|done|cbn; lia|constructor|done].
  - apply (Hone 111 8 0 []); [by apply expand_int; done || lia|done|done|done|cbn; lia|constructor|done].
Qed.

(** rt_kprintf sends a text of up to 126 characters to the console
    unchanged; of a longer one it sends the first 126 characters and then the
    null character that closes the buffer.  No byte outside the buffer is
    written. *)
Theorem kprintf_spec rd sfuel log_buf fmt args m text :
  0 <= log_buf -> log_buf + RT_CONSOLEBUF_SIZE < 2 ^ 32 -> present log_buf (log_buf + 127) m -> strings_ok log_buf (log_buf + 127) m rd sfuel ->
  expand rd fmt args = Some text -> log_buf + Z.of_nat (length text) < 2 ^ 32 -> Z.of_nat (length text) < 2 ^ 31 ->
  exists m', rt_kprintf sfuel log_buf fmt args m =
      Some (if (length text <=? 126)%nat then map (fun c => u8 c) text else map (fun c => u8 c) (take 126 text) ++ [0], m') /\
    same_outside log_buf (log_buf + 127) m m'.
Proof.
  intros Hb Hmax Hp Hs He Hlim Hlen. unfold RT_CONSOLEBUF_SIZE in Hmax.
  destruct (vsnprintf_run rd sfuel log_buf 127 fmt args m text) as (m' & Hrun & So & Hc); [done|lia|lia|done|done|done|done|done|].
  specialize (Hc ltac:(lia)). exists m'. split; [|done]. unfold rt_kprintf. change (RT_CONSOLEBUF_SIZE - 1) with 127.
  rewrite Hrun. cbn [mbind option_bind]. rewrite wrap_small by lia.
  assert (forall out, contents m' log_buf out -> length out = Z.to_nat (if 127 <? Z.of_nat (length text) then 127 else Z.of_nat (length text)) ->
    (out ← read_bytes_at (Z.to_nat (if 127 <? Z.of_nat (length text) then 127 else Z.of_nat (length text))) log_buf m'; Some (out, m'))
    = Some (out, m')) as Hread by (intros out Ho Hl; by rewrite (read_bytes_at_run _ _ _ out Ho Hl)).
  apply Hread; clear Hread; unfold cut_text in Hc; change (Z.to_nat (127 - 1)) with 126%nat in Hc.
  - destruct (Nat.leb_spec (length text) 126); [|done]. rewrite take_ge in Hc by done.
    pose proof (contents_sub m' log_buf [] _ _ Hc) as H0. cbn [length] in H0. by rewrite Z.add_0_r in H0.
  - destruct (Nat.leb_spec (length text) 126); [rewrite length_map|rewrite length_app, length_map, length_take; cbn [length]];
      destruct (Z.ltb_spec 127 (Z.of_nat (length text))); lia.
Qed.

(** ** Witnesses *)
(** A memory with a buffer of 24 bytes at 16 and the string "drum" at 64. *)
Definition demo_print_mem : mem := mem_of (replicate 64 170 ++ codes "drum"%string ++ [0]).
Definition demo_rd (p : Z) : option (list Z) := if p =? 64 then Some (codes "drum"%string) else None.

Lemma demo_strings_ok : strings_ok 16 40 demo_print_mem demo_rd 10.
Proof.
  split; [lia|]. intros p l _. unfold demo_rd. destruct (Z.eqb_spec p 64) as [->|]; [|done]. intros [= <-].
  split; [split; [apply contentsb_ok; by vm_compute|repeat constructor; lia]|]. split; [right; lia|]. cbn. split; lia.
Qed.

Example demo_print : option_map fst (rt_vsnprintf 10 16 24 (codes "%s %04d"%string) [64; u32 (-7)] demo_print_mem) = Some 9.
Proof. vm_compute. reflexivity. Qed.

Lemma vsnprintf_spec_witness : exists m',
  rt_vsnprintf 10 16 24 (codes "%s %04d %08x %-6u|"%string) [64; u32 (-7); 48879; 5] demo_print_mem = Some (26, m') /\
  contents m' 16 (codes "drum -007 0000beef 5   "%string ++ [0]).
Proof.
  destruct (vsnprintf_spec demo_rd 10 16 24 (codes "%s %04d %08x %-6u|"%string) [64; u32 (-7); 48879; 5] demo_print_mem
    (codes "drum -007 0000beef 5     |"%string)) as (m' & H1 & _ & H2); [lia|lia|lia| |exact demo_strings_ok|vm_compute; reflexivity|cbn; lia|cbn; lia|].
  - apply (presentb_ok 16 24). vm_compute. reflexivity.
  - exists m'. split; [exact H1|]. exact (H2 ltac:(lia)).
Defined.

Lemma numbers_read_back_witness : exists ds,
  printed 16 24 (codes "%d"%string) (u32 (-2147483648)) demo_print_mem ([cMINUS] ++ ds) /\ reads small_digits 10 ds 2147483648.
Proof.
  destruct (numbers_read_back 16 24 demo_print_mem (-2147483648)) as [(ds & H1 & H2) _]; [lia|lia|lia| |lia|].
  - apply (presentb_ok 16 24). vm_compute. reflexivity.
  - exists ds. split; [exact H1|exact H2].
Defined.

Lemma kprintf_spec_witness : exists m', rt_kprintf 10 16 (codes "%5d%%"%string) [42] (mem_of (replicate 160 170)) = Some (codes "   42%"%string, m').
Proof.
  destruct (kprintf_spec no_strings 10 16 (codes "%5d%%"%string) [42] (mem_of (replicate 160 170)) (codes "   42%"%string)) as (m' & H1 & _);
    [lia|unfold RT_CONSOLEBUF_SIZE; lia| |split; [lia|done]|vm_compute; reflexivity|cbn; lia|cbn; lia|].
  - apply (presentb_ok 16 127). vm_compute. reflexivity.
  - exists m'. exact H1.
Defined.
