(* ===== verification/Conc.v ===== *)
(** * Systems of threads and a rely-guarantee logic for them

    A system is a kernel state and the code of some threads.  The current
    thread runs one section of its code, or the environment - tick interrupts,
    the scheduler, other threads - changes the state.

    The logic: [safe] says of one thread that each of its sections runs without
    a fault, keeps the invariant and the thread's guarantee, whatever others do
    in between within the thread's rely.  Worlds pair the kernel state with
    ghost state.  There are rules for sections, sequencing and loops, and
    [pool_sound] turns proofs about single threads into facts about every
    reachable state of the system. *)
From Stdlib Require Import FunctionalExtensionality.
From S2P Require Import Prelude KState Proc.

(** ** One move of a thread: a section, or going round a loop *)
Definition tstep {A} (p : proc A) : K (proc A) :=
  match p in proc A return K (proc A) with
  | Ret a => mret (Ret a)
  | Sec m k => x ← m; mret (k x)
  | @Iter A X Y body x k =>
      mret (pbind (body x) (fun r : X + Y => match r with inl x' => Iter body x' k | inr y => k y end))
  end.

Definition ret_val {A} (p : proc A) : option A :=
  match p in proc A return option A with Ret a => Some a | _ => None end.

Lemma ret_val_Some {A} (p : proc A) a : ret_val p = Some a -> p = Ret a.
Proof. destruct p; cbn; congruence. Qed.

Lemma ret_val_bind {A B} (p : proc A) (f : A -> proc B) : ret_val p = None -> ret_val (pbind p f) = None.
Proof. by destruct p. Qed.

Lemma pbind_assoc {A B C} (p : proc A) (f : A -> proc B) (g : B -> proc C) :
  pbind (pbind p f) g = pbind p (fun a => pbind (f a) g).
Proof.
  revert B C f g. induction p as [A a|A X m k IH|A X Y body IHb x k IH]; intros B C f g; cbn; [done|..].
  - f_equal. extensionality x. apply IH.
  - f_equal. extensionality y. apply IH.
Qed.

Lemma tstep_bind {A B} (p : proc A) (f : A -> proc B) s p' s' :
  ret_val p = None -> tstep p s = Ok p' s' -> tstep (pbind p f) s = Ok (pbind p' f) s'.
Proof.
  revert B f p' s'. destruct p as [A a|A X m k|A X Y body x k]; intros B f p' s'; cbn [ret_val]; [done|intros _..].
  - cbn. unfold mbind, K_bind. destruct (m s) as [y s1|]; [|done]. intros [= <- <-]. done.
  - cbn. intros [= <- <-]. f_equal. rewrite pbind_assoc. f_equal. extensionality r. by destruct r.
Qed.

(** ** Systems *)
Abbreviation thread_code := (proc Empty_set).

(** [A]: what a thread returns when it is over; [thread_code] never is. *)
Record sys {A : Type} := Sys { sys_k : kst; sys_code : gmap ptr (proc A) }.
Arguments sys : clear implicits.
Arguments Sys {A}.

Inductive sys_step {A} (env : kst -> kst -> Prop) : sys A -> sys A -> Prop :=
| sys_run s c t p p' s' : k_cur s = Some t -> c !! t = Some p -> tstep p s = Ok p' s' ->
    sys_step env (Sys s c) (Sys s' (<[t := p']> c))
| sys_env s c s' : env s s' -> sys_step env (Sys s c) (Sys s' c).

(** The current thread's next section runs without a fault. *)
Definition no_fault {A} (S : sys A) : Prop :=
  forall t p, k_cur (sys_k S) = Some t -> sys_code S !! t = Some p -> exists p' s', tstep p (sys_k S) = Ok p' s'.

(** A run, and what an observer of the kernel state has seen on the way. *)
Inductive traced {A O} (env : kst -> kst -> Prop) (observe : kst -> kst -> list O) : sys A -> list O -> sys A -> Prop :=
| traced_nil S : traced env observe S [] S
| traced_cons S S1 S2 T : sys_step env S S1 -> traced env observe S1 T S2 ->
    traced env observe S (observe (sys_k S) (sys_k S1) ++ T) S2.

(** A specification that reads what was observed, and refuses what it does not
    allow. *)
Fixpoint tells {O H} (tell : O -> H -> option H) (T : list O) (h : H) : option H :=
  match T with [] => Some h | o :: T => h ← tell o h; tells tell T h end.

Lemma tells_app {O H} (tell : O -> H -> option H) T T' h :
  tells tell (T ++ T') h = (h' ← tells tell T h; tells tell T' h').
Proof. revert h. induction T as [|o T IH]; intros h; cbn; [done|]. destruct (tell o h); cbn; [apply IH|done]. Qed.

Lemma traced_rtc {A O} env (observe : kst -> kst -> list O) (S : sys A) T S' :
  traced env observe S T S' -> rtc (sys_step env) S S'.
Proof. induction 1; [done|]. by eapply rtc_l. Qed.

Lemma rtc_traced {A O} env (observe : kst -> kst -> list O) (S S' : sys A) :
  rtc (sys_step env) S S' -> exists T, traced env observe S T S'.
Proof. induction 1 as [|S S1 S' Hs _ [T HT]]; eexists; [constructor|by econstructor]. Qed.

(** ** The logic *)
Section logic.
Context {G : Type}.
Definition world : Type := G * kst.
Definition wrel : Type := world -> world -> Prop.
Context (inv : world -> Prop).

(** Interference within the rely, under the invariant. *)
Definition interference (R : wrel) : wrel := rtc (fun w w' => R w w' /\ inv w').

Fixpoint safe {A} (n : nat) (t : ptr) (R Gu : wrel) (p : proc A) (Q : A -> world -> Prop) (w : world) : Prop :=
  match n with
  | O => True
  | S n =>
      forall w', interference R w w' ->
        (forall a, ret_val p = Some a -> Q a w') /\
        (ret_val p = None -> k_cur w'.2 = Some t ->
           exists p' w'', tstep p w'.2 = Ok p' w''.2 /\ inv w'' /\ Gu w' w'' /\ safe n t R Gu p' Q w'')
  end.

(** An assertion others cannot break. *)
Definition stable (R : wrel) (P : world -> Prop) : Prop :=
  forall w w', inv w -> P w -> R w w' -> inv w' -> P w'.

Lemma interference_inv R w w' : interference R w w' -> inv w -> inv w'.
Proof. induction 1 as [|? ? ? [_ H] _ IH]; auto. Qed.

Lemma stable_star R P w w' : stable R P -> interference R w w' -> inv w -> P w -> P w'.
Proof. intros Hst H. induction H as [|w w1 w' [HR Hi] _ IH]; intros Hw HP; [done|]. apply IH; [done|]. by eapply Hst. Qed.

Lemma safe_interference {A} n t R Gu (p : proc A) Q w w' :
  interference R w w' -> safe n t R Gu p Q w -> safe n t R Gu p Q w'.
Proof. destruct n as [|n]; [done|]. cbn. intros H Hs w'' Hw. apply Hs. by etrans. Qed.

Lemma safe_mono {A} n m t R Gu (p : proc A) Q w : (m <= n)%nat -> safe n t R Gu p Q w -> safe m t R Gu p Q w.
Proof.
  revert m p w. induction n as [|n IH]; intros [|m] p w Hm; try done; [lia|]. cbn. intros Hs w' Hw.
  destruct (Hs w' Hw) as [Hret Hrun]. split; [done|]. intros Hp Hc.
  destruct (Hrun Hp Hc) as (p' & w'' & Hstep & Hi & Hg & Hs'). exists p', w''. split; [done|]. split; [done|]. split; [done|].
  apply IH; [lia|done].
Qed.

Lemma safe_bind {A B} n t R Gu (p : proc A) (f : A -> proc B) Q Q' w :
  inv w -> safe n t R Gu p Q w ->
  (forall m a w', (m <= n)%nat -> inv w' -> Q a w' -> safe m t R Gu (f a) Q' w') ->
  safe n t R Gu (pbind p f) Q' w.
Proof.
  revert p w. induction n as [|n IH]; intros p w Hi Hs Hf; [done|]. intros w' Hw.
  destruct (Hs w' Hw) as [Hret Hrun]. pose proof (interference_inv _ _ _ Hw Hi) as Hi'.
  destruct (ret_val p) as [a|] eqn:E.
  - rewrite (ret_val_Some _ _ E). cbn [pbind]. apply (Hf (S n) a w'); [done|done|by apply Hret|]. apply rtc_refl.
  - split; [by rewrite ret_val_bind|]. intros _ Hc. destruct (Hrun eq_refl Hc) as (p' & w'' & Hstep & Hi'' & Hg & Hs').
    exists (pbind p' f), w''. split; [by apply tstep_bind|]. split; [done|]. split; [done|].
    apply IH; [done|done|]. intros m a v Hm. apply Hf. lia.
Qed.

Lemma safe_ret {A} n t R Gu (a : A) (Q : A -> world -> Prop) w :
  stable R (Q a) -> inv w -> Q a w -> safe n t R Gu (Ret a) Q w.
Proof.
  intros Hst Hi HQ. destruct n as [|n]; [done|]. intros w' Hw. split; [|done].
  intros a' [= <-]. by eapply stable_star.
Qed.

Lemma safe_atomic {A} n t R Gu (m : K A) (P : world -> Prop) (Q : A -> world -> Prop) w :
  stable R P -> (forall a, stable R (Q a)) ->
  (forall v, inv v -> P v -> k_cur v.2 = Some t ->
     exists a v', m v.2 = Ok a v'.2 /\ inv v' /\ Gu v v' /\ Q a v') ->
  inv w -> P w -> safe n t R Gu (atomic m) Q w.
Proof.
  intros HP HQ Hm Hi Hw. destruct n as [|n]; [done|]. intros w' Hw'. split; [done|]. intros _ Hc.
  destruct (Hm w') as (a & v' & Hrun & Hi' & Hg & HQ'); [by eapply interference_inv|by eapply stable_star|done|].
  exists (Ret a), v'. split; [cbn; by rewrite (run_bind _ _ _ _ _ Hrun)|]. split; [done|]. split; [done|]. by apply safe_ret.
Qed.

(** [J] is the loop's invariant. *)
Lemma safe_loop {X Y} n t R Gu (body : X -> proc (X + Y)) (J : X -> world -> Prop) (Q : Y -> world -> Prop) x w :
  (forall v, Gu v v) -> (forall x, stable R (J x)) -> (forall y, stable R (Q y)) ->
  (forall m x v, inv v -> J x v ->
     safe m t R Gu (body x) (fun r v => match r with inl x' => J x' v | inr y => Q y v end) v) ->
  inv w -> J x w -> safe n t R Gu (loop body x) Q w.
Proof.
  intros Hg HJ HQ Hb. revert x w. induction (lt_wf n) as [n _ IH]. intros x w Hi Hx.
  destruct n as [|n]; [done|]. intros w' Hw. pose proof (interference_inv _ _ _ Hw Hi) as Hi'.
  pose proof (stable_star _ _ _ _ (HJ x) Hw Hi Hx) as Hx'. split; [done|]. intros _ Hc.
  eexists _, w'. split; [done|]. split; [done|]. split; [done|].
  eapply safe_bind; [done|by apply Hb|]. intros m [x'|y] v Hm Hv HJQ; cbn in HJQ.
  - apply (IH m); [lia|done|done].
  - by apply safe_ret.
Qed.

Lemma safe_weaken {A} n t R Gu (p : proc A) (Q Q' : A -> world -> Prop) w :
  (forall a, stable R (Q' a)) -> (forall a v, inv v -> Q a v -> Q' a v) ->
  inv w -> safe n t R Gu p Q w -> safe n t R Gu p Q' w.
Proof.
  intros Hst HQ. revert p w. induction n as [|n IH]; intros p w Hi Hs; [done|]. intros w' Hw.
  destruct (Hs w' Hw) as [Hret Hrun]. pose proof (interference_inv _ _ _ Hw Hi) as Hi'. split.
  - intros a Ha. apply HQ; auto.
  - intros Hp Hc. destruct (Hrun Hp Hc) as (p' & w'' & H1 & H2 & H3 & H4). exists p', w''. auto.
Qed.

(** ** From threads to the system *)

Section pool.
Context {A : Type} (R Gu : ptr -> wrel) (env : kst -> kst -> Prop) (Post : ptr -> A -> world -> Prop).

(** Each thread of the pool, with its rely, guarantee and result. *)
Definition pool_safe (n : nat) (c : gmap ptr (proc A)) (w : world) : Prop :=
  forall t p, c !! t = Some p -> safe n t (R t) (Gu t) p (Post t) w.

(** What a thread guarantees, the others may rely on, and the environment
    keeps the invariant and every rely for some ghost state.  [Ev]: what every
    step does. *)
Context (Ev : wrel).
Context (guar_rely : forall t t' w w', t <> t' -> Gu t w w' -> R t' w w').
Context (guar_ev : forall t w w', Gu t w w' -> Ev w w') (ev_refl : forall w, Ev w w).
Context (env_rely : forall g s s', inv (g, s) -> env s s' ->
  exists g', inv (g', s') /\ (forall t, R t (g, s) (g', s')) /\ Ev (g, s) (g', s')).

Lemma pool_step n c s g S' : inv (g, s) -> pool_safe (S n) c (g, s) -> sys_step env (Sys s c) S' ->
  exists g', inv (g', sys_k S') /\ pool_safe n (sys_code S') (g', sys_k S') /\ Ev (g, s) (g', sys_k S').
Proof.
  intros Hi Hp H. inversion H as [? ? t p p' s' Hc Ht Hstep|? ? s' Henv]; subst; cbn [sys_k sys_code].
  - destruct (Hp t p Ht (g, s)) as [Hret Hrun]; [apply rtc_refl|].
    destruct (ret_val p) as [a|] eqn:E.
    + apply ret_val_Some in E as ->. injection Hstep as <- <-. exists g. split; [done|]. split; [|apply ev_refl].
      intros x q Hx. rewrite insert_id in Hx by done. apply (safe_mono (S n)); [lia|]. by apply Hp.
    + destruct (Hrun eq_refl Hc) as (p1 & [g' s1] & Hstep1 & Hi' & Hg & Hs). cbn [snd] in *.
      rewrite Hstep in Hstep1. injection Hstep1 as <- <-. exists g'. split; [done|]. split; [|by eapply guar_ev]. intros x q.
      rewrite lookup_insert_Some. intros [[<- <-]|[Hne Hx]]; [done|].
      apply (safe_mono (S n)); [lia|]. apply (safe_interference _ _ _ _ _ _ (g, s)); [|by apply Hp].
      apply rtc_once. split; [by eapply guar_rely|done].
  - destruct (env_rely g s s' Hi Henv) as (g' & Hi' & HR & HE). exists g'. split; [done|]. split; [|done]. intros x q Hx.
    apply (safe_mono (S n)); [lia|]. apply (safe_interference _ _ _ _ _ _ (g, s)); [|by apply Hp].
    by apply rtc_once.
Qed.

(** What safety says of a state. *)
Lemma pool_here c s g : pool_safe 1 c (g, s) -> inv (g, s) ->
  no_fault (Sys s c) /\ (forall t a, c !! t = Some (Ret a) -> Post t a (g, s)).
Proof.
  intros Hp Hi. split.
  - intros t p Hc Ht. cbn [sys_k sys_code] in *. destruct (Hp t p Ht (g, s)) as [Hret Hrun]; [apply rtc_refl|]. cbn [snd] in Hrun.
    destruct (ret_val p) as [a|] eqn:E.
    + apply ret_val_Some in E as ->. by eexists _, _.
    + destruct (Hrun eq_refl Hc) as (p' & w'' & Hr & _). eauto.
  - intros t a Ht. destruct (Hp t _ Ht (g, s)) as [Hret _]; [apply rtc_refl|]. by apply Hret.
Qed.

Section told.
Context {O H : Type} (observe : kst -> kst -> list O) (tell : O -> H -> option H) (story : G -> H).
Context (ev_told : forall w w', Ev w w' -> tells tell (observe w.2 w'.2) (story w.1) = Some (story w'.1)).

(** In every reachable state the invariant holds for some ghost state, whose
    story is what the run was observed to do; no thread faults, and the
    threads that are over have their results. *)
Lemma pool_told T S S' g : inv (g, sys_k S) -> (forall n, pool_safe n (sys_code S) (g, sys_k S)) ->
  traced env observe S T S' -> exists g', inv (g', sys_k S') /\ tells tell T (story g) = Some (story g') /\
    no_fault S' /\ (forall t a, sys_code S' !! t = Some (Ret a) -> Post t a (g', sys_k S')).
Proof.
  intros Hi Hp HT.
  assert (exists m, forall k g, inv (g, sys_k S) -> pool_safe (m + k) (sys_code S) (g, sys_k S) ->
    exists g', inv (g', sys_k S') /\ tells tell T (story g) = Some (story g') /\ pool_safe k (sys_code S') (g', sys_k S')) as [m Hm].
  { clear Hi Hp g. induction HT as [S|S S1 S2 T Hs _ [m IH]].
    - exists 0%nat. intros k g Hi Hp. by exists g.
    - exists (Datatypes.S m). intros k g Hi Hp. destruct S as [s c].
      destruct (pool_step (m + k) c s g S1 Hi Hp Hs) as (g1 & Hi1 & Hp1 & HE).
      destruct (IH k g1 Hi1 Hp1) as (g2 & Hi2 & Ht & Hp2). exists g2. split; [done|]. split; [|done].
      rewrite tells_app. pose proof (ev_told _ _ HE) as E. cbn [fst snd sys_k] in E |- *. by rewrite E. }
  destruct (Hm 1%nat g Hi (Hp _)) as (g' & Hi' & Ht & Hp'). exists g'. split; [done|]. split; [done|].
  destruct S' as [s' c']. by apply pool_here.
Qed.
End told.

(** Without an observer. *)
Lemma pool_sound S S' g : inv (g, sys_k S) -> (forall n, pool_safe n (sys_code S) (g, sys_k S)) ->
  rtc (sys_step env) S S' -> exists g', inv (g', sys_k S') /\ no_fault S' /\
    (forall t a, sys_code S' !! t = Some (Ret a) -> Post t a (g', sys_k S')).
Proof.
  intros Hi Hp Hr. destruct (rtc_traced env (fun _ _ => @nil unit) S S' Hr) as [T HT].
  destruct (pool_told (fun _ _ => @nil unit) (fun _ h => Some h) (fun _ => tt) ltac:(done) T S S' g Hi Hp HT) as (g' & Hi' & _ & H).
  by exists g'.
Qed.
End pool.

(** ** Triples

    A view [v : V] is what a thread knows of the world, [known v], whatever
    the others do.  [triple v p Q]: from the view [v] the code [p] is safe, and
    its result and final view satisfy [Q]. *)
Section triples.
Context {V : Type} (t : ptr) (R Gu : wrel) (known : V -> world -> Prop).
Context (known_stable : forall v, stable R (known v)) (Gu_refl : forall w, Gu w w).

Definition outcome {A} (Q : A -> V -> Prop) (a : A) (w : world) : Prop := exists v, Q a v /\ known v w.
Definition triple {A} (v : V) (p : proc A) (Q : A -> V -> Prop) : Prop :=
  forall n w, inv w -> known v w -> safe n t R Gu p (outcome Q) w.

Lemma outcome_stable {A} (Q : A -> V -> Prop) a : stable R (outcome Q a).
Proof. intros w w' Hi (v & HQ & Hv) HR Hi'. exists v. split; [done|]. exact (known_stable v w w' Hi Hv HR Hi'). Qed.

Lemma triple_ret {A} v (a : A) (Q : A -> V -> Prop) : Q a v -> triple v (Ret a) Q.
Proof. intros HQ n w Hi Hv. apply safe_ret; [apply outcome_stable|done|by exists v]. Qed.

Lemma triple_bind {A B} v (p : proc A) (f : A -> proc B) Q Q' :
  triple v p Q -> (forall a v', Q a v' -> triple v' (f a) Q') -> triple v (pbind p f) Q'.
Proof.
  intros Hp Hf n w Hi Hv. eapply safe_bind; [done|by apply Hp|]. intros m a w' _ Hi' (v' & HQ & Hv').
  by eapply Hf.
Qed.

Lemma triple_sec {A} v (m : K A) (Q : A -> V -> Prop) :
  (forall w, inv w -> known v w -> k_cur w.2 = Some t ->
     exists a w' v', m w.2 = Ok a w'.2 /\ inv w' /\ Gu w w' /\ known v' w' /\ Q a v') ->
  triple v (atomic m) Q.
Proof.
  intros Hm n w Hi Hv. apply (safe_atomic _ _ _ _ _ (known v));
    [apply known_stable|intros a; apply outcome_stable| |done|done].
  intros u Hu Hvu Hc. destruct (Hm u Hu Hvu Hc) as (a & u' & v' & Hrun & Hi' & Hg & Hv' & HQ).
  exists a, u'. split; [done|]. split; [done|]. split; [done|]. by exists v'.
Qed.

(** A section that only reads. *)
Lemma triple_read {A} v (m : K A) (Q : A -> V -> Prop) :
  (forall w, inv w -> known v w -> k_cur w.2 = Some t -> exists a, m w.2 = Ok a w.2 /\ Q a v) ->
  triple v (atomic m) Q.
Proof. intros Hm. apply triple_sec. intros w Hi Hv Hc. destruct (Hm w Hi Hv Hc) as (a & Hrun & HQ). by exists a, w, v. Qed.

Lemma triple_loop {X Y} (body : X -> proc (X + Y)) (J : X -> V -> Prop) (Q : Y -> V -> Prop) x v :
  (forall x v, J x v -> triple v (body x) (fun r v' => match r with inl x' => J x' v' | inr y => Q y v' end)) ->
  J x v -> triple v (loop body x) Q.
Proof.
  intros Hb HJ n w Hi Hv.
  apply (safe_loop _ _ _ _ _ (fun x => outcome (fun (_ : unit) => J x) tt));
    [exact Gu_refl|intros x'; apply outcome_stable|intros y; apply outcome_stable| |done|by exists v].
  intros m x1 w1 Hi1 (v1 & HJ1 & Hv1).
  eapply safe_weaken; [| |done|by apply (Hb x1 v1)]; cbn.
  - intros [x'|y]; apply outcome_stable.
  - intros [x'|y] w2 _ (v2 & HQ & Hv2); by exists v2.
Qed.

Lemma triple_weaken {A} v (p : proc A) (Q Q' : A -> V -> Prop) :
  (forall a v', Q a v' -> Q' a v') -> triple v p Q -> triple v p Q'.
Proof.
  intros HQ Hp n w Hi Hv. eapply safe_weaken; [apply outcome_stable| |done|by apply Hp].
  intros a w' _ (v' & H & Hv'). exists v'. auto.
Qed.
End triples.
End logic.

(** ** Termination in every interleaving

    [ends n p Q]: whatever its sections return, [p] is over after at most [n]
    moves (a section or going round a loop), with a result in [Q]. *)
Fixpoint ends {A} (n : nat) (p : proc A) (Q : A -> Prop) : Prop :=
  match n with
  | O => match p in proc A return (A -> Prop) -> Prop with Ret a => fun Q => Q a | _ => fun _ => False end Q
  | S n =>
      match p in proc A return (A -> Prop) -> Prop with
      | Ret a => fun Q => Q a
      | Sec m k => fun Q => forall x, ends n (k x) Q
      | @Iter A X Y body x k => fun Q =>
          ends n (pbind (body x) (fun r : X + Y => match r with inl x' => Iter body x' k | inr y => k y end)) Q
      end Q
  end.

Lemma ends_ret {A} n (a : A) (Q : A -> Prop) : Q a -> ends n (Ret a) Q.
Proof. by destruct n. Qed.

Lemma ends_weaken {A} n m (p : proc A) (Q Q' : A -> Prop) :
  ends n p Q -> (n <= m)%nat -> (forall a, Q a -> Q' a) -> ends m p Q'.
Proof.
  revert m A p Q Q'. induction n as [|n IH]; intros m A p Q Q' Hp Hm HQ.
  - destruct p as [A a| |]; [|done..]. apply ends_ret. auto.
  - destruct m as [|m]; [lia|]. destruct p as [A a|A X k f|A X Y body x k]; cbn in *; [auto|..].
    + intros x. apply (IH m A _ Q); [done|lia|done].
    + apply (IH m A _ Q); [done|lia|done].
Qed.

Lemma ends_bind {A B} n m (p : proc A) (f : A -> proc B) (Q : A -> Prop) (Q' : B -> Prop) :
  ends n p Q -> (forall a, Q a -> ends m (f a) Q') -> ends (n + m) (pbind p f) Q'.
Proof.
  revert A B p f Q Q'. induction n as [|n IH]; intros A B p f Q Q' Hp Hf.
  - destruct p as [A a| |]; [|done..]. by apply Hf.
  - destruct p as [A a|A X k g|A X Y body x k]; cbn in *.
    + apply (ends_weaken m (S (n + m)) _ Q'); [by apply Hf|lia|done].
    + intros x. by apply (IH A B (g x) f Q Q').
    + pose proof (IH _ _ _ f Q Q' Hp Hf) as H. rewrite pbind_assoc in H.
      replace (fun r : X + Y => match r with inl x' => Iter body x' (fun y => pbind (k y) f) | inr y => pbind (k y) f end)
        with (fun r : X + Y => pbind (match r with inl x' => Iter body x' k | inr y => k y end) f); [done|].
      extensionality r. by destruct r.
Qed.

Lemma ends_sec {A X} n (m : K X) (k : X -> proc A) (Q : A -> Prop) :
  (forall x, ends n (k x) Q) -> ends (S n) (Sec m k) Q.
Proof. done. Qed.

Lemma ends_atomic {A B} n (m : K A) (f : A -> proc B) (Q : B -> Prop) :
  (forall a, ends n (f a) Q) -> ends (S n) (pbind (atomic m) f) Q.
Proof. done. Qed.

(** A loop with the variant [F]: a round of [c] moves that goes on pays
    [c + 1], and [F] is always enough for the last one. *)
Lemma ends_loop {X Y} (body : X -> proc (X + Y)) (J : X -> Prop) (F : X -> nat) (Q : Y -> Prop) n x :
  (forall x, J x -> exists c, (c < F x)%nat /\
     ends c (body x) (fun r => match r with inl x' => J x' /\ (F x' + S c <= F x)%nat | inr y => Q y end)) ->
  J x -> (F x <= n)%nat -> ends n (loop body x) Q.
Proof.
  intros Hb. revert x. induction (lt_wf n) as [n _ IH]. intros x Hx Hn. destruct (Hb x Hx) as (c & Hc & Hends).
  destruct n as [|n]; [lia|]. cbn. apply (ends_weaken (c + (n - c)) _ _ Q); [|lia|done].
  eapply ends_bind; [exact Hends|]. intros [x'|y] Hr.
  - destruct Hr as [Hx' HF]. apply (IH (n - c)%nat); [lia|done|lia].
  - by apply ends_ret.
Qed.


(** ** Whole runs under interference

    [surely n p s Q]: from the state [s], whatever the environment does between
    two sections, no section of [p] fails, [p] is over after at most [n] moves,
    and its result and the state then satisfy [Q]. *)
Section surely.
Context (env : kst -> kst -> Prop).

Fixpoint surely {A} (n : nat) (p : proc A) (s : kst) (Q : A -> kst -> Prop) : Prop :=
  match n with
  | O => match p in proc A return (A -> kst -> Prop) -> Prop with
         | Ret a => fun Q => forall s', rtc env s s' -> Q a s' | _ => fun _ => False end Q
  | S n =>
      match p in proc A return (A -> kst -> Prop) -> Prop with
      | Ret a => fun Q => forall s', rtc env s s' -> Q a s'
      | Sec m k => fun Q => forall s1, rtc env s s1 -> exists x s2, m s1 = Ok x s2 /\ surely n (k x) s2 Q
      | @Iter A X Y body x k => fun Q =>
          surely n (pbind (body x) (fun r : X + Y => match r with inl x' => Iter body x' k | inr y => k y end)) s Q
      end Q
  end.

Lemma surely_env {A} n (p : proc A) s s' Q : rtc env s s' -> surely n p s Q -> surely n p s' Q.
Proof.
  revert A p Q. induction n as [|n IH]; intros A p Q Hs.
  - destruct p; [|done..]. intros H s1 H1. apply H. by etrans.
  - destruct p as [A a|A X m k|A X Y body x k]; cbn.
    + intros H s1 H1. apply H. by etrans.
    + intros H s1 H1. apply H. by etrans.
    + by apply IH.
Qed.

Lemma surely_mono {A} n m (p : proc A) s (Q : A -> kst -> Prop) : (n <= m)%nat -> surely n p s Q -> surely m p s Q.
Proof.
  revert m A p s Q. induction n as [|n IH]; intros m A p s Q Hm.
  - by destruct p, m.
  - destruct m as [|m]; [lia|]. destruct p as [A a|A X h k|A X Y body x k]; cbn; [done|..].
    + intros H s1 Hs1. destruct (H s1 Hs1) as (x & s2 & Hx & H2). exists x, s2. split; [done|]. apply IH; [lia|done].
    + apply IH. lia.
Qed.

Lemma surely_weaken {A} n (p : proc A) s (Q Q' : A -> kst -> Prop) :
  surely n p s Q -> (forall a s', Q a s' -> Q' a s') -> surely n p s Q'.
Proof.
  revert A p s Q Q'. induction n as [|n IH]; intros A p s Q Q' Hp HQ.
  - destruct p as [A a| |]; [|done..]. intros s' Hs. by apply HQ, Hp.
  - destruct p as [A a|A X h k|A X Y body x k]; cbn in *.
    + intros s' Hs. by apply HQ, Hp.
    + intros s1 Hs1. destruct (Hp s1 Hs1) as (x & s2 & Hx & H2). exists x, s2. split; [done|]. by eapply IH.
    + by eapply IH.
Qed.

Lemma surely_bind {A B} n m (p : proc A) (f : A -> proc B) s Q Q' :
  surely n p s Q -> (forall a s', Q a s' -> surely m (f a) s' Q') -> surely (n + m) (pbind p f) s Q'.
Proof.
  revert A B p f s Q Q'. induction n as [|n IH]; intros A B p f s Q Q' Hp Hf.
  - destruct p as [A a| |]; [|done..]. apply Hf, Hp, rtc_refl.
  - destruct p as [A a|A X h k|A X Y body x k]; cbn in Hp.
    + apply (surely_mono m); [lia|]. apply Hf, Hp, rtc_refl.
    + intros s1 Hs1. destruct (Hp s1 Hs1) as (x & s2 & Hx & H2). exists x, s2. split; [done|]. by eapply IH.
    + pose proof (IH _ _ _ f _ Q Q' Hp Hf) as H. rewrite pbind_assoc in H. cbn.
      replace (fun r : X + Y => match r with inl x' => Iter body x' (fun y => pbind (k y) f) | inr y => pbind (k y) f end)
        with (fun r : X + Y => pbind (match r with inl x' => Iter body x' k | inr y => k y end) f); [done|].
      extensionality r. by destruct r.
Qed.

(** One move of code that is not over. *)
Lemma surely_step {A} n (p : proc A) s Q : ret_val p = None -> surely n p s Q ->
  exists n' p' s', tstep p s = Ok p' s' /\ surely n' p' s' Q.
Proof.
  destruct n as [|n], p as [A a|A X m k|A X Y body x k]; try done; intros _ Hs; cbn in Hs.
  - destruct (Hs s (rtc_refl _ _)) as (y & s2 & Hm & H). exists n, (k y), s2. split; [|done]. cbn. by rewrite (run_bind _ _ _ _ _ Hm).
  - by eexists n, _, s.
Qed.

Lemma surely_no_fault {A} n (p : proc A) (f : A -> thread_code) t s Q : ret_val p = None -> surely n p s Q ->
  no_fault (Sys s {[t := pbind p f]}).
Proof.
  intros Hr Hs u q _ Hu. cbn in Hu. apply lookup_singleton_Some in Hu as [<- <-].
  destruct (surely_step n p s Q Hr Hs) as (n' & p' & s' & Hrun & _). exists (pbind p' f), s'. by apply tstep_bind.
Qed.

(** In a system whose thread [t] starts with [p]: it is still inside [p] and
    does not fail, or it went through the end of [p]. *)
Lemma surely_reach {A} n (p : proc A) (f : A -> thread_code) t s S Q :
  surely n p s Q -> rtc (sys_step env) (Sys s {[t := pbind p f]}) S ->
  (exists n' p', sys_code S = {[t := pbind p' f]} /\ surely n' p' (sys_k S) Q /\ (ret_val p' = None -> no_fault S)) \/
  exists a s1, Q a s1 /\ rtc (sys_step env) (Sys s {[t := pbind p f]}) (Sys s1 {[t := f a]}) /\
    rtc (sys_step env) (Sys s1 {[t := f a]}) S.
Proof.
  intros Hp. revert S. refine (rtc_ind_r _ _ _ _).
  - left. exists n, p. split; [done|]. split; [done|]. intros Hr. by eapply surely_no_fault.
  - intros S S' HS Hstep [(n' & p' & Hc & Hs & _)|(a & s1 & HQ & H1 & H2)];
      [|right; exists a, s1; split; [done|]; split; [done|by eapply rtc_r]].
    destruct S as [s1 c]. cbn [sys_code sys_k] in *. subst c. destruct (ret_val p') as [a|] eqn:Er.
    + right. apply ret_val_Some in Er as ->. exists a, s1. split; [by destruct n'; apply Hs|]. split; [done|by apply rtc_once].
    + left. inversion Hstep as [? ? u q q' s2 Hc Hu Hq|? ? s2 Henv]; subst; cbn [sys_code sys_k].
      * apply lookup_singleton_Some in Hu as [<- <-]. destruct (surely_step n' p' s1 Q Er Hs) as (n2 & p2 & s3 & Hrun & H2).
        pose proof (tstep_bind p' f _ _ _ Er Hrun) as Hb. rewrite Hq in Hb. injection Hb as -> ->.
        exists n2, p2. rewrite insert_singleton_eq. split; [done|]. split; [done|]. intros Hr. by eapply surely_no_fault.
      * exists n', p'. split; [done|]. assert (surely n' p' s2 Q) as H2 by (eapply surely_env; [by apply rtc_once|done]).
        split; [done|]. intros Hr. by eapply surely_no_fault.
Qed.
End surely.
