(* ===== verification/Completion.v ===== *)
(** * Completions (rt-thread/components/drivers/src/completion.c)

    One thread waits for an event that another thread or an interrupt
    announces.  [comp_ok] is the invariant: a completed flag means that nobody
    waits, and at most one thread does.  The concrete run at the end shows an
    announcement that is lost: it comes after the waiter's timeout fired and
    before the waiter ran again. *)
From S2P Require Import Prelude DevState KState Scheduler Object Timer Proc Thread Ipc.

Definition RT_COMPLETED : Z := 1.
Definition RT_UNCOMPLETED : Z := 0.

Definition get_comp (c : ptr) : K Z := fun s => lift (dr_comps (k_drv s) !! c) s.
Definition put_comp (c : ptr) (flag : Z) : K unit :=
  modify (fun s => set_k_drv (set_dr_comps (<[c := flag]> (dr_comps (k_drv s))) (k_drv s)) s).

Definition rt_completion_init (completion : ptr) : K unit :=
  put_comp completion RT_UNCOMPLETED;; queue_init (QSuspend completion).

(** [rt_thread_suspend(thread)], joining the list, the context check, and the
    thread's timer. *)
Definition comp_suspend (completion thread : ptr) (timeout : Z) : K unit :=
  rt_thread_suspend thread;;
  enqueue (QSuspend completion) thread;;
  RT_DEBUG_NOT_IN_INTERRUPT;;
  if 0 <? timeout then start_thread_timer thread timeout else mret tt.

(** The first section of [rt_completion_wait]. *)
Definition comp_wait_section (completion : ptr) (timeout : Z) : K (Z + ptr) :=
  flag ← get_comp completion;
  if negb (flag =? RT_COMPLETED) then
    empty ← queue_empty (QSuspend completion); RT_ASSERT empty;;
    if timeout =? 0 then mret (inl (- RT_ETIMEOUT))
    else
      thread ← self;
      set_error thread RT_EOK;;
      comp_suspend completion thread timeout;;
      mret (inr thread)
  else put_comp completion RT_UNCOMPLETED;; mret (inl RT_EOK).

(** From the return of [rt_schedule()] on: the error is read, then the flag
    cleared with interrupts disabled. *)
Definition comp_wait_end (completion thread : ptr) : proc Z :=
  (result <~ atomic (wait_result thread);
   atomic (put_comp completion RT_UNCOMPLETED) ~; Ret result)%proc.

Definition rt_completion_wait (completion : ptr) (timeout : Z) : proc Z :=
  (r <~ atomic (comp_wait_section completion timeout);
   match r with
   | inl e => Ret e
   | inr thread => atomic rt_schedule ~; comp_wait_end completion thread
   end)%proc.

(** The section of [rt_completion_done] after the test of the flag: whether to
    schedule. *)
Definition comp_done_section (completion : ptr) : K bool :=
  put_comp completion RT_COMPLETED;;
  empty ← queue_empty (QSuspend completion);
  if negb empty then
    thread ← queue_head (QSuspend completion);
    rt_thread_resume thread;;
    mret true
  else mret false.

Definition rt_completion_done (completion : ptr) : proc unit :=
  (flag <~ atomic (get_comp completion);
   if flag =? RT_COMPLETED then Ret tt
   else
     b <~ atomic (comp_done_section completion);
     if b : bool then atomic rt_schedule else Ret tt)%proc.

(** ** The invariant *)
Record comp_ok (c : ptr) (flag : Z) (s : kst) : Prop := {
  co_calm : calm s;
  co_flag : dr_comps (k_drv s) !! c = Some flag;
  co_value : flag = RT_COMPLETED \/ flag = RT_UNCOMPLETED;
  co_waiter : (length (getq (k_qs s) (QSuspend c)) <= 1)%nat;
  co_done : flag = RT_COMPLETED -> getq (k_qs s) (QSuspend c) = []
}.

Lemma get_comp_run s c flag : dr_comps (k_drv s) !! c = Some flag -> get_comp c s = Ok flag s.
Proof. unfold get_comp. by intros ->. Qed.

Lemma kinv_drv v s : kinv s -> kinv (set_k_drv v s).
Proof. intros Hk. unfold kinv. apply (kinv_ext _ s); try done. apply Hk. Qed.

Lemma calm_drv s d : calm s -> calm (set_k_drv d s).
Proof. intros [H1 H2 H3]. split; [by apply kinv_drv|done|done]. Qed.

Lemma comp_suspend_run s c t time s' : k_nest s = 0 ->
  suspend_with_timeout (QSuspend c) t RT_IPC_FLAG_FIFO time s = Ok tt s' ->
  (forall s1, rt_ipc_list_suspend (QSuspend c) t RT_IPC_FLAG_FIFO s = Ok RT_EOK s1 -> k_nest s1 = 0) ->
  comp_suspend c t time s = Ok tt s'.
Proof.
  intros Hn Hrun Hs. unfold comp_suspend, suspend_with_timeout, rt_ipc_list_suspend in *.
  unfold mbind, K_bind in *. cbn in *. destruct (rt_thread_suspend t s) as [r s1|]; [|done].
  destruct (enqueue (QSuspend c) t s1) as [[] s2|]; [|done]. specialize (Hs s2 eq_refl).
  by rewrite not_in_interrupt_run.
Qed.

Section steps.
Context (app : positive -> ptr -> K unit) (c : ptr).

(** The waiter's first section. *)
Lemma comp_wait_run flag s t th time :
  comp_ok c flag s -> k_cur s = Some t -> k_threads s !! t = Some th -> runnable th -> time < HALF_TICK ->
  getq (k_qs s) (QSuspend c) = [] ->
  if flag =? RT_COMPLETED then
    comp_wait_section c time s = Ok (inl RT_EOK) (set_k_drv (set_dr_comps (<[c := RT_UNCOMPLETED]> (dr_comps (k_drv s))) (k_drv s)) s)
  else if time =? 0 then comp_wait_section c time s = Ok (inl (- RT_ETIMEOUT)) s
  else exists s', comp_wait_section c time s = Ok (inr t) s' /\
    waits (QSuspend c) t (set_th_error RT_EOK th) RT_IPC_FLAG_FIFO time s s'.
Proof.
  intros [Hc Hf _ _ _] Hcur Ht Hr Htime Hq. unfold comp_wait_section. erewrite run_bind by (by apply get_comp_run).
  destruct (flag =? RT_COMPLETED); [done|]. cbn [negb]. erewrite run_bind by (by apply queue_empty_run). rewrite Hq.
  erewrite run_bind by done. destruct (time =? 0); [done|].
  destruct (wait_ok s (QSuspend c) t th RT_IPC_FLAG_FIFO time) as (s' & Hrun & Hw); try done; [apply Hc|by left|].
  exists s'. split; [|done]. erewrite run_bind by (by apply self_run). erewrite run_bind by (by apply set_error_run).
  erewrite run_bind; [done|]. apply comp_suspend_run; [apply Hc|done|]. intros s1 Hs1.
  destruct (rt_ipc_list_suspend_ok (k_tick s) (with_error t th RT_EOK s) (QSuspend c) t (set_th_error RT_EOK th) RT_IPC_FLAG_FIFO)
    as (s2 & Hs2 & _ & F & _); [apply (kinv_with_error _ s t th); [apply Hc|done]|apply lookup_insert_eq|done|done|by left|].
  rewrite Hs1 in Hs2. injection Hs2 as <-. rewrite (fr_nest F). apply Hc.
Qed.

(** One section of code that uses the completion, or of the kernel. *)
Inductive comp_step : kst -> kst -> Prop :=
| comp_step_wait s t th time r s' :
    k_cur s = Some t -> k_threads s !! t = Some th -> state_of th = RT_THREAD_RUNNING -> time < HALF_TICK ->
    comp_wait_section c time s = Ok r s' -> comp_step s s'
| comp_step_clear s s' : put_comp c RT_UNCOMPLETED s = Ok tt s' -> comp_step s s'
| comp_step_done s b s' : comp_done_section c s = Ok b s' -> comp_step s s'
| comp_step_background s s' : background app s s' -> comp_step s s'.

Lemma comp_ok_put flag flag' s : comp_ok c flag s -> flag' = RT_COMPLETED \/ flag' = RT_UNCOMPLETED ->
  (flag' = RT_COMPLETED -> getq (k_qs s) (QSuspend c) = []) ->
  comp_ok c flag' (set_k_drv (set_dr_comps (<[c := flag']> (dr_comps (k_drv s))) (k_drv s)) s).
Proof. intros [H1 H2 H3 H4 H5] Hv Hd. split; [by apply calm_drv|apply lookup_insert_eq|done..]. Qed.

Lemma comp_ok_kstep flag s s' : comp_ok c flag s -> calm s' -> k_drv s' = k_drv s ->
  (length (getq (k_qs s') (QSuspend c)) <= 1)%nat ->
  (flag = RT_COMPLETED -> getq (k_qs s') (QSuspend c) = []) -> comp_ok c flag s'.
Proof. intros [H1 H2 H3 H4 H5] Hc Hd Hl Hq. split; [done|by rewrite Hd|done..]. Qed.

Lemma wait_section_queue time r s s' : comp_wait_section c time s = Ok r s' ->
  getq (k_qs s) (QSuspend c) = [] \/ dr_comps (k_drv s) !! c = Some RT_COMPLETED.
Proof.
  unfold comp_wait_section, mbind, K_bind, get_comp. destruct (dr_comps (k_drv s) !! c) as [f|]; [|done]. cbn.
  destruct (Z.eqb_spec f RT_COMPLETED) as [->|]; [by right|]. cbn. destruct (getq (k_qs s) (QSuspend c)); [by left|done].
Qed.

Lemma comp_step_ok flag s s' : comp_ok c flag s -> comp_step s s' -> exists flag', comp_ok c flag' s'.
Proof.
  intros Hok Hstep. pose proof Hok as [Hc Hf Hv Hl Hd].
  destruct Hstep as [s t th time r s' Hcur Ht Hr Htime Hrun|s s' Hrun|s b s' Hrun|s s' Hbg].
  - assert (getq (k_qs s) (QSuspend c) = []) as Hq.
    { destruct (wait_section_queue _ _ _ _ Hrun) as [|E]; [done|]. apply Hd. congruence. }
    pose proof (comp_wait_run flag s t th time Hok Hcur Ht (or_intror Hr) Htime Hq) as Hw.
    destruct (flag =? RT_COMPLETED) eqn:Ef.
    { rewrite Hrun in Hw. injection Hw as -> ->. exists RT_UNCOMPLETED. apply (comp_ok_put flag); auto. }
    destruct (time =? 0); [rewrite Hrun in Hw; injection Hw as -> ->; by exists flag|].
    destruct Hw as (s1 & Hrun1 & Hw). rewrite Hrun in Hrun1. injection Hrun1 as -> ->. exists flag.
    apply (comp_ok_kstep flag s); [done|by eapply calm_wait|apply (ks_drv (wt_step _ _ _ _ _ _ _ Hw))| |].
    + destruct (jn_queue _ _ _ _ _ _ (wt_joined _ _ _ _ _ _ _ Hw)) as (l1 & l2 & E & -> & _). rewrite Hq in E.
      symmetry in E. apply app_eq_nil in E as [-> ->]. done.
    + intros ->. by cbn in Ef.
  - injection Hrun as <-. exists RT_UNCOMPLETED. apply (comp_ok_put flag); auto. done.
  - unfold comp_done_section in Hrun. erewrite run_bind in Hrun by done. cbv zeta in Hrun.
    set (s1 := set_k_drv _ s) in Hrun. erewrite run_bind in Hrun by (by apply queue_empty_run).
    change (k_qs s1) with (k_qs s) in Hrun. destruct (getq (k_qs s) (QSuspend c)) as [|t l] eqn:E; cbn [negb] in Hrun.
    + injection Hrun as <- <-. exists RT_COMPLETED. apply (comp_ok_put flag); [done|by left|done].
    + assert (calm s1) as Hc1 by (by apply calm_drv).
      destruct (rt_ipc_list_resume_ok _ s1 (QSuspend c) t l (cm_kinv _ Hc1) eq_refl E)
        as (th & s2 & Ht & Hst & Hrun2 & Hk2 & Hks & Hwk).
      unfold rt_ipc_list_resume in Hrun2. erewrite run_bind in Hrun by (by eapply queue_head_run).
      erewrite run_bind in Hrun2 by (by eapply queue_head_run).
      unfold mbind, K_bind in Hrun, Hrun2. destruct (rt_thread_resume t s1) as [r s3|]; [|done].
      injection Hrun2 as ->. injection Hrun as <- <-. exists RT_COMPLETED.
      assert (getq (k_qs s2) (QSuspend c) = l) as El by (eapply woken_head; [apply Hc1|done..]).
      cbn in Hl. destruct l as [|]; [|cbn in Hl; lia].
      split; [|rewrite (ks_drv Hks); apply lookup_insert_eq|by left|rewrite El; cbn; lia|by rewrite El].
      apply (calm_kstep s1); [done| |done|apply Hwk]. unfold kinv. by rewrite (ks_tick Hks).
  - destruct (background_ok app s s' Hc Hbg) as [Hc' Hq]. exists flag.
    apply (comp_ok_kstep flag s); [done|done|exact (f_equal k_drv (qt_rest _ _ Hq))| |].
    + etrans; [|exact Hl]. apply sublist_length. by apply Hq.
    + intros Hfl. eapply quiet_empty; [exact Hq|done|by apply Hd].
Qed.

(** C11: no completion is announced to a thread that sleeps on: in every
    interleaving of waits, announcements, the clearing of the flag by a thread
    that was woken, tick interrupts (timeouts included) and calls of the
    scheduler, nobody waits while the flag says completed, and at most one
    thread waits. *)
Theorem completion_no_lost_wakeup flag s s' : comp_ok c flag s -> rtc comp_step s s' ->
  exists flag', comp_ok c flag' s' /\ (length (getq (k_qs s') (QSuspend c)) <= 1)%nat /\
    (flag' = RT_COMPLETED -> getq (k_qs s') (QSuspend c) = []).
Proof.
  intros Hok H. revert flag Hok. induction H as [s|s s1 s' Hstep _ IH]; intros flag Hok.
  - exists flag. split; [done|]. split; apply Hok.
  - destruct (comp_step_ok flag s s1 Hok Hstep) as [f1 Hok1]. by eapply IH.
Qed.
End steps.

(** ** A lost announcement

    Thread 6 waits for the completion 20 with 5 ticks left; thread 2 runs. *)
Definition demo_comp : kst := set_k_drv (set_dr_comps (<[20%positive := RT_UNCOMPLETED]> ∅) empty_drivers) demo_kernel.

Lemma demo_comp_ok : comp_ok 20 RT_UNCOMPLETED demo_comp.
Proof.
  split; [|done|by right|by vm_compute|done].
  apply (calm_drv demo_kernel). split; [exact demo_kernel_ok|by eexists|done].
Qed.

(** Five ticks; an interrupt announces the completion before thread 6, woken
    by its timeout, goes on; then thread 6 does. *)
Definition done_after_timeout : K (Z * Z) :=
  @ticks no_app 9 5;;
  exec 3 (rt_completion_done 20);;
  result ← exec 3 (comp_wait_end 20 6);
  flag ← get_comp 20;
  mret (result, flag).

(** The waiter reports a timeout and clears the flag of the announcement that
    came after it: the next wait would wait for another one. *)
Example completion_lost_after_timeout : exists s,
  done_after_timeout demo_comp = Ok (- RT_ETIMEOUT, RT_UNCOMPLETED) s.
Proof. eexists. vm_compute. reflexivity. Qed.

Lemma completion_no_lost_wakeup_witness : exists s' flag',
  rtc (comp_step no_app 20) demo_comp s' /\ comp_ok 20 flag' s' /\ getq (k_qs s') (QReady 7) = [6%positive].
Proof.
  destruct (comp_done_section 20 demo_comp) as [b s'|] eqn:E; [|by vm_compute in E].
  assert (rtc (comp_step no_app 20) demo_comp s') as Hs by (apply rtc_once; by eapply comp_step_done).
  destruct (completion_no_lost_wakeup no_app 20 RT_UNCOMPLETED demo_comp s' demo_comp_ok Hs) as (flag' & Hok & _).
  exists s', flag'. split; [exact Hs|]. split; [exact Hok|]. vm_compute in E. injection E as _ <-. reflexivity.
Defined.
