(* ===== verification/DataQueue.v ===== *)
(** * Data queues (rt-thread/components/drivers/src/dataqueue.c)

    A ring of items - an address and a size - with a list of threads that wait
    to push and one of threads that wait to pop.  The indices have 15 bits,
    next to the flags [is_empty] and [is_full]; pushing threads are woken only
    when no more than [lwm] items are left.

    [dataqueue_fifo]: through every interleaving the ring is a queue, and its
    flags and its length say so.  The runs at the end show what the calls that
    look at [is_empty] with interrupts enabled can return. *)
From S2P Require Import Prelude Ring DevState KState Scheduler Object Timer Proc Thread Ipc Completion.

Definition DATAQUEUE_MAGIC : Z := 0xbead0e0e.
Definition RT_DATAQUEUE_EVENT_POP : Z := 1.
Definition RT_DATAQUEUE_EVENT_PUSH : Z := 2.
Definition RT_DATAQUEUE_EVENT_LWM : Z := 3.

(** The functions that [evt_notify] can point to. *)
Class EvtNotify := evt_notify : positive -> ptr -> Z -> K unit.

Definition get_dq (queue : ptr) : K rt_data_queue := fun s => lift (dr_queues (k_drv s) !! queue) s.
Definition put_dq (queue : ptr) (d : rt_data_queue) : K unit :=
  modify (fun s => set_k_drv (set_dr_queues (<[queue := d]> (dr_queues (k_drv s))) (k_drv s)) s).

(** The lists of the queue: pushing threads are its senders. *)
Abbreviation QPush := QSender.
Abbreviation QPop := QSuspend.

(** [mem] is the result of the allocation of the items. *)
Definition rt_data_queue_init (queue : ptr) (size lwm : Z) (notify : option positive) (mem : option (list (Z * Z))) : K Z :=
  RT_ASSERT (0 <? size);;
  put_dq queue (DataQueue DATAQUEUE_MAGIC size lwm 0 true 0 false (default [] mem) notify);;
  queue_init (QPush queue);;
  queue_init (QPop queue);;
  match mem with None => mret (- RT_ENOMEM) | Some _ => mret RT_EOK end.

Definition dq_check (queue : ptr) : K rt_data_queue :=
  d ← get_dq queue; RT_ASSERT (dq_magic d =? DATAQUEUE_MAGIC);; mret d.

(** An index one further on; it has 15 bits. *)
Definition dq_next (size i : Z) : Z := let i := wrap 15 (i + 1) in if i =? size then 0 else i.

(** The computation of [rt_data_queue_len] for a queue that is not empty: the
    variable has 16 bits and a sign, the result no sign. *)
Definition dq_count (d : rt_data_queue) : Z :=
  u16 (i16 (if dq_get d <? dq_put d then dq_put d - dq_get d else dq_size d + dq_put d - dq_get d)).

Section dataqueue.
Context `{EvtNotify}.

Definition notify (queue : ptr) (event : Z) : K unit :=
  d ← get_dq queue;
  match dq_evt_notify d with None => mret tt | Some f => evt_notify f queue event end.

(** The end of the section of a push, from the store of the item on: whether a
    thread was woken. *)
Definition dq_push_item (queue : ptr) (item : Z * Z) : K bool :=
  d ← get_dq queue;
  items ← lift (if Z.to_nat (dq_put d) <? length (dq_queue d) then Some (<[Z.to_nat (dq_put d) := item]> (dq_queue d)) else None)%nat;
  let put := dq_next (dq_size d) (dq_put d) in
  put_dq queue (DataQueue (dq_magic d) (dq_size d) (dq_lwm d) (dq_get d) false put
    (if put =? dq_get d then true else dq_is_full d) items (dq_evt_notify d));;
  resume_one (QPop queue).

Definition dq_push_section (queue : ptr) (thread : option ptr) (item : Z * Z) (timeout : Z) : K (ipc_result bool) :=
  d ← get_dq queue;
  if dq_is_full d then
    if timeout =? 0 then mret (ipc_fail (- RT_ETIMEOUT))
    else
      RT_DEBUG_NOT_IN_INTERRUPT;;
      thread ← lift thread;
      set_error thread RT_EOK;;
      suspend_with_timeout (QPush queue) thread RT_IPC_FLAG_FIFO timeout;;
      mret (ipc_wait thread timeout 0)
  else need ← dq_push_item queue item; mret (ipc_done need).

(** The loop around the waits of both calls. *)
Definition dq_loop {A} (section : K (ipc_result A)) : proc (Z + A) :=
  loop (fun _ : unit =>
    (r <~ atomic section;
     match r with
     | ipc_fail e => Ret (inr (inl e))
     | ipc_done a => Ret (inr (inr a))
     | ipc_wait thread _ _ =>
         atomic rt_schedule ~;
         result <~ atomic (th ← get_thread thread; mret (th_error th));
         if result =? RT_EOK then Ret (inl tt) else Ret (inr (inl result))
     end)%proc) tt.

Definition rt_data_queue_push (queue : ptr) (data_ptr data_size timeout : Z) : proc Z :=
  (thread <~ atomic (dq_check queue;; rt_thread_self);
   r <~ dq_loop (dq_push_section queue thread (data_ptr, data_size) timeout);
   match r with
   | inl e => Ret e
   | inr true => atomic rt_schedule ~; Ret RT_EOK
   | inr false => atomic (notify queue RT_DATAQUEUE_EVENT_PUSH) ~; Ret RT_EOK
   end)%proc.

(** The end of the section of a pop: the item, whether the low water mark was
    reached, and whether a thread was woken. *)
Definition dq_pop_item (queue : ptr) : K (Z * Z * bool * bool) :=
  d ← get_dq queue;
  item ← lift (dq_queue d !! Z.to_nat (dq_get d));
  let get := dq_next (dq_size d) (dq_get d) in
  let empty := if dq_put d =? get then true else dq_is_empty d in
  let d' := DataQueue (dq_magic d) (dq_size d) (dq_lwm d) get empty (dq_put d) false (dq_queue d) (dq_evt_notify d) in
  put_dq queue d';;
  RT_ASSERT (dq_magic d' =? DATAQUEUE_MAGIC);;
  if (if empty then 0 else dq_count d') <=? dq_lwm d then
    need ← resume_one (QPush queue); mret (item, true, need)
  else mret (item, false, false).

Definition dq_pop_section (queue : ptr) (thread : option ptr) (timeout : Z) : K (ipc_result (Z * Z * bool * bool)) :=
  d ← get_dq queue;
  if dq_is_empty d then
    if timeout =? 0 then mret (ipc_fail (- RT_ETIMEOUT))
    else
      RT_DEBUG_NOT_IN_INTERRUPT;;
      thread ← lift thread;
      set_error thread RT_EOK;;
      suspend_with_timeout (QPop queue) thread RT_IPC_FLAG_FIFO timeout;;
      mret (ipc_wait thread timeout 0)
  else r ← dq_pop_item queue; mret (ipc_done r).

(** The result, and the item if it is RT_EOK. *)
Definition rt_data_queue_pop (queue : ptr) (timeout : Z) : proc (Z * option (Z * Z)) :=
  (thread <~ atomic (dq_check queue;; rt_thread_self);
   r <~ dq_loop (dq_pop_section queue thread timeout);
   match r with
   | inl e => Ret (e, None)
   | inr (item, low, need) =>
       (if need : bool then atomic rt_schedule else Ret tt) ~;
       atomic (notify queue (if low : bool then RT_DATAQUEUE_EVENT_LWM else RT_DATAQUEUE_EVENT_POP)) ~;
       Ret (RT_EOK, Some item)
   end)%proc.

Definition dq_is_empty_section (queue : ptr) : K bool := d ← dq_check queue; mret (dq_is_empty d).
Definition dq_head (queue : ptr) : K (Z * Z) := d ← get_dq queue; lift (dq_queue d !! Z.to_nat (dq_get d)).

Definition rt_data_queue_peek (queue : ptr) : proc (Z * option (Z * Z)) :=
  (empty <~ atomic (dq_is_empty_section queue);
   if empty : bool then Ret (- RT_EEMPTY, None)
   else item <~ atomic (dq_head queue); Ret (RT_EOK, Some item))%proc.

Definition rt_data_queue_len (queue : ptr) : proc Z :=
  (empty <~ atomic (dq_is_empty_section queue);
   if empty : bool then Ret 0 else atomic (d ← get_dq queue; mret (dq_count d)))%proc.

Definition dq_reset_section (queue : ptr) : K unit :=
  d ← dq_check queue;
  put_dq queue (DataQueue (dq_magic d) (dq_size d) (dq_lwm d) 0 true 0 false (dq_queue d) (dq_evt_notify d)).

(** One thread of a list woken with an error. *)
Definition dq_abort (list : qid) : K unit :=
  thread ← queue_head list; set_error thread (- RT_ERROR);; rt_thread_resume thread;; mret tt.
Definition dq_abort_all (list : qid) : proc unit :=
  loop (fun _ : unit =>
    (empty <~ atomic (queue_empty list);
     if empty : bool then Ret (inr tt) else atomic (dq_abort list) ~; Ret (inl tt))%proc) tt.

Definition rt_data_queue_reset (queue : ptr) : proc unit :=
  (atomic (dq_reset_section queue) ~;
   atomic rt_enter_critical ~;
   dq_abort_all (QPop queue) ~;
   dq_abort_all (QPush queue) ~;
   atomic rt_exit_critical ~;
   atomic rt_schedule)%proc.

(** The items are freed. *)
Definition rt_data_queue_deinit (queue : ptr) : proc Z :=
  (atomic (dq_check queue) ~;
   rt_data_queue_reset queue ~;
   atomic (d ← get_dq queue;
     put_dq queue (DataQueue 0 (dq_size d) (dq_lwm d) (dq_get d) (dq_is_empty d) (dq_put d) (dq_is_full d) (dq_queue d) (dq_evt_notify d))) ~;
   atomic (d ← get_dq queue;
     put_dq queue (DataQueue (dq_magic d) (dq_size d) (dq_lwm d) (dq_get d) (dq_is_empty d) (dq_put d) (dq_is_full d) [] (dq_evt_notify d))) ~;
   Ret RT_EOK)%proc.
End dataqueue.

(** ** The ring as a queue *)

(** The queue [d] holds the items [q], oldest first. *)
Record dq_holds (d : rt_data_queue) (q : list (Z * Z)) : Prop := {
  dh_ring : ring_at (dq_size d) (dq_get d) (dq_queue d) q;
  dh_size : dq_size d < 2 ^ 15;
  dh_magic : dq_magic d = DATAQUEUE_MAGIC;
  dh_put : dq_put d = slot_of (dq_size d) (dq_get d) (Z.of_nat (length q));
  dh_empty : dq_is_empty d = (Z.of_nat (length q) =? 0);
  dh_full : dq_is_full d = (Z.of_nat (length q) =? dq_size d)
}.

Lemma dq_next_slot n i : 0 <= i < n -> n < 2 ^ 15 -> dq_next n i = slot_of n i 1.
Proof.
  intros Hi Hn. unfold dq_next, slot_of. rewrite wrap_small by lia. destruct (Z.eqb_spec (i + 1) n) as [->|].
  - symmetry. apply Z.mod_same. lia.
  - symmetry. apply Z.mod_small. lia.
Qed.

(** Two places of the circle are the same only a full round apart. *)
Lemma slot_of_full n base k : 0 <= base < n -> 0 <= k <= n -> slot_of n base k = base -> k = 0 \/ k = n.
Proof.
  intros Hb Hk E. destruct (decide (k = n)) as [|Hne]; [by right|left].
  apply (slot_of_inj n base); [lia|lia|]. by rewrite slot_of_0.
Qed.

Lemma slot_of_round n base : 0 <= base < n -> slot_of n base n = base.
Proof. intros Hb. unfold slot_of. replace (base + n) with (base + 1 * n) by lia. rewrite Z_mod_plus_full. by apply Z.mod_small. Qed.

(** [rt_data_queue_len] counts the items. *)
Lemma dq_count_ok d q : dq_holds d q -> q <> [] -> dq_count d = Z.of_nat (length q).
Proof.
  intros [[R1 R2 R3 _] Hs _ Hp _ _] Hne. unfold dq_count.
  assert (1 <= Z.of_nat (length q)) as Hq by (destruct q; [done|cbn; lia]).
  assert ((if dq_get d <? dq_put d then dq_put d - dq_get d else dq_size d + dq_put d - dq_get d) = Z.of_nat (length q)) as ->.
  { rewrite Hp. unfold slot_of. destruct (Z.lt_ge_cases (dq_get d + Z.of_nat (length q)) (dq_size d)).
    - rewrite Z.mod_small by lia. destruct (Z.ltb_spec (dq_get d) (dq_get d + Z.of_nat (length q))); lia.
    - replace ((dq_get d + Z.of_nat (length q)) mod dq_size d) with (dq_get d + Z.of_nat (length q) - dq_size d).
      + destruct (Z.ltb_spec (dq_get d) (dq_get d + Z.of_nat (length q) - dq_size d)); lia.
      + apply (Z.mod_unique_pos _ _ 1); lia. }
  rewrite swrap_small, wrap_small by lia. done.
Qed.

Definition dq_pushed (d : rt_data_queue) (item : Z * Z) : rt_data_queue :=
  let put := dq_next (dq_size d) (dq_put d) in
  DataQueue (dq_magic d) (dq_size d) (dq_lwm d) (dq_get d) false put
    (if put =? dq_get d then true else dq_is_full d) (<[Z.to_nat (dq_put d) := item]> (dq_queue d)) (dq_evt_notify d).
Definition dq_popped (d : rt_data_queue) : rt_data_queue :=
  let get := dq_next (dq_size d) (dq_get d) in
  DataQueue (dq_magic d) (dq_size d) (dq_lwm d) get (if dq_put d =? get then true else dq_is_empty d) (dq_put d) false
    (dq_queue d) (dq_evt_notify d).

Lemma dq_pushed_holds d q item : dq_holds d q -> dq_is_full d = false -> dq_holds (dq_pushed d item) (q ++ [item]).
Proof.
  intros [Hr Hs Hm Hp He Hf] Hroom. pose proof Hr as [R1 R2 R3 _]. rewrite Hf in Hroom. apply Z.eqb_neq in Hroom.
  pose proof (slot_of_range (dq_size d) (dq_get d) (Z.of_nat (length q)) ltac:(lia)) as Hslot. rewrite <- Hp in Hslot.
  assert (dq_next (dq_size d) (dq_put d) = slot_of (dq_size d) (dq_get d) (Z.of_nat (length (q ++ [item])))) as En.
  { rewrite dq_next_slot, Hp, slot_of_assoc, length_app by done. f_equal. cbn. lia. }
  split; cbn [dq_pushed dq_size dq_get dq_queue dq_magic dq_put dq_is_empty dq_is_full]; [|done|done|done|..].
  - rewrite Hp. apply ring_push; [done|lia].
  - rewrite length_app. cbn. symmetry. apply Z.eqb_neq. lia.
  - rewrite En, length_app. cbn [length]. destruct (Z.eqb_spec (slot_of (dq_size d) (dq_get d) (Z.of_nat (length q + 1))) (dq_get d)) as [E|E].
    + destruct (slot_of_full (dq_size d) (dq_get d) (Z.of_nat (length q + 1)) R2 ltac:(lia) E); [lia|]. symmetry. by apply Z.eqb_eq.
    + rewrite Hf. symmetry. transitivity false; [|symmetry; by apply Z.eqb_neq]. apply Z.eqb_neq. intros E'. apply E. rewrite E'. by apply slot_of_round.
Qed.

Lemma dq_popped_holds d item q : dq_holds d (item :: q) ->
  dq_queue d !! Z.to_nat (dq_get d) = Some item /\ dq_holds (dq_popped d) q.
Proof.
  intros [Hr Hs Hm Hp He Hf]. pose proof Hr as [R1 R2 R3 _]. rewrite length_cons in R3, Hp. apply ring_pop in Hr as [Hi Hr].
  split; [done|]. pose proof (dq_next_slot _ _ R2 Hs) as En.
  assert (dq_put d = slot_of (dq_size d) (dq_next (dq_size d) (dq_get d)) (Z.of_nat (length q))) as Ep.
  { rewrite Hp, En, slot_of_assoc. f_equal. lia. }
  pose proof (slot_of_range (dq_size d) (dq_get d) 1 ltac:(lia)) as Hrange. rewrite <- En in Hrange.
  split; cbn [dq_popped dq_size dq_get dq_queue dq_magic dq_put dq_is_empty dq_is_full]; [by rewrite En|done|done|done|..].
  - destruct (Z.eqb_spec (dq_put d) (dq_next (dq_size d) (dq_get d))) as [E|E].
    + rewrite Ep in E. destruct (slot_of_full _ _ (Z.of_nat (length q)) Hrange ltac:(lia) E); symmetry; apply Z.eqb_eq; lia.
    + rewrite He. cbn [length]. transitivity false; [apply Z.eqb_neq; lia|]. symmetry. apply Z.eqb_neq. intros E'. apply E.
      rewrite Ep, E'. by apply slot_of_0.
  - symmetry. apply Z.eqb_neq. lia.
Qed.

(** ** The queue in every interleaving *)
Record dq_ok (o : ptr) (q : list (Z * Z)) (s : kst) : Prop := {
  qk_calm : calm s;
  qk_queue : exists d, dr_queues (k_drv s) !! o = Some d /\ dq_holds d q
}.

(** What a run does to the items. *)
Inductive item_event := Pushed (i : Z * Z) | Popped (i : Z * Z) | Cleared.

(** The queue it is meant to be. *)
Fixpoint queue_run (tr : list item_event) (q : list (Z * Z)) : option (list (Z * Z)) :=
  match tr with
  | [] => Some q
  | Pushed i :: tr => queue_run tr (q ++ [i])
  | Popped i :: tr => match q with j :: q => if decide (j = i) then queue_run tr q else None | [] => None end
  | Cleared :: tr => queue_run tr []
  end.

Lemma get_dq_run s o d : dr_queues (k_drv s) !! o = Some d -> get_dq o s = Ok d s.
Proof. unfold get_dq. by intros ->. Qed.

Lemma dq_ok_step o q s s' : dq_ok o q s -> calm s' -> k_drv s' = k_drv s -> dq_ok o q s'.
Proof. intros [_ (d & Hd & Hh)] Hc E. split; [done|]. exists d. by rewrite E. Qed.

Lemma dq_ok_put o q q' d s : dq_ok o q s -> dq_holds d q' ->
  dq_ok o q' (set_k_drv (set_dr_queues (<[o := d]> (dr_queues (k_drv s))) (k_drv s)) s).
Proof. intros [Hc _] Hd. split; [by apply calm_drv|]. exists d. split; [apply lookup_insert_eq|done]. Qed.

Lemma dq_resume_one o q s qq : dq_ok o q s -> is_wait_q qq = true ->
  exists b s', resume_one qq s = Ok b s' /\ dq_ok o q s'.
Proof.
  intros Hok Hq. destruct (resume_one_ok s qq (qk_calm _ _ _ Hok) Hq) as (b & s' & Hrun & Hc & Hks & _).
  exists b, s'. split; [done|]. eapply dq_ok_step; [done|done|apply (ks_drv Hks)].
Qed.

Lemma dq_push_item_ok o q s d item : dq_ok o q s -> dr_queues (k_drv s) !! o = Some d -> dq_holds d q -> dq_is_full d = false ->
  exists need s', dq_push_item o item s = Ok need s' /\ dq_ok o (q ++ [item]) s'.
Proof.
  intros Hok Hd Hh Hf. pose proof Hh as [[R1 R2 R3 _] Hs _ Hp _ _].
  pose proof (slot_of_range (dq_size d) (dq_get d) (Z.of_nat (length q)) ltac:(lia)) as Hslot. rewrite <- Hp in Hslot.
  unfold dq_push_item. erewrite run_bind by (by apply get_dq_run).
  rewrite (proj2 (Nat.ltb_lt _ _)) by lia. erewrite run_bind by done. erewrite run_bind by done.
  apply dq_resume_one; [|done]. apply (dq_ok_put o q _ (dq_pushed d item)); [done|by apply dq_pushed_holds].
Qed.

Lemma dq_pop_item_ok o q s d : dq_ok o q s -> dr_queues (k_drv s) !! o = Some d -> dq_holds d q -> dq_is_empty d = false ->
  exists item q' low need s', q = item :: q' /\ dq_pop_item o s = Ok (item, low, need) s' /\ dq_ok o q' s' /\
    (low = true <-> Z.of_nat (length q') <= dq_lwm d).
Proof.
  intros Hok Hd Hh He. destruct q as [|item q]; [by rewrite (dh_empty _ _ Hh) in He|].
  destruct (dq_popped_holds d item q Hh) as [Hi Hh']. exists item, q.
  assert ((if dq_is_empty (dq_popped d) then 0 else dq_count (dq_popped d)) = Z.of_nat (length q)) as Elen.
  { rewrite (dh_empty _ _ Hh'). destruct (Z.eqb_spec (Z.of_nat (length q)) 0) as [->|Hne]; [done|].
    apply (dq_count_ok _ _ Hh'). by intros ->. }
  pose proof (dq_ok_put o _ q (dq_popped d) s Hok Hh') as Hok'.
  unfold dq_pop_item. erewrite run_bind by (by apply get_dq_run). rewrite Hi. erewrite run_bind by done. erewrite run_bind by done.
  fold (dq_popped d). rewrite (dh_magic _ _ Hh'). erewrite run_bind by done.
  change (if dq_put d =? dq_next (dq_size d) (dq_get d) then true else dq_is_empty d) with (dq_is_empty (dq_popped d)).
  rewrite Elen. destruct (Z.leb_spec (Z.of_nat (length q)) (dq_lwm d)) as [Hl|Hl].
  - destruct (dq_resume_one o q _ (QPush o) Hok' eq_refl) as (need & s' & Hrun & Hok''). exists true, need, s'.
    rewrite (run_bind _ _ _ _ _ Hrun). done.
  - eexists false, false, _. split; [done|]. split; [done|]. split; [exact Hok'|]. split; [done|lia].
Qed.

(** A caller that does not wait, or the running thread. *)
Definition dq_caller (s : kst) (thread : option ptr) (timeout : Z) : Prop :=
  timeout = 0 \/ exists t th, thread = Some t /\ k_cur s = Some t /\ k_threads s !! t = Some th /\
    state_of th = RT_THREAD_RUNNING /\ timeout < HALF_TICK.

(** One section of a call on the queue, or of the kernel, and what it did. *)
Inductive dq_step (app : positive -> ptr -> K unit) (o : ptr) : kst -> list item_event -> kst -> Prop :=
| dq_step_push s thread item timeout r s' : dq_caller s thread timeout -> dq_push_section o thread item timeout s = Ok r s' ->
    dq_step app o s (match r with ipc_done _ => [Pushed item] | _ => [] end) s'
| dq_step_pop s thread timeout r s' : dq_caller s thread timeout -> dq_pop_section o thread timeout s = Ok r s' ->
    dq_step app o s (match r with ipc_done (item, _, _) => [Popped item] | _ => [] end) s'
| dq_step_reset s s' : dq_reset_section o s = Ok tt s' -> dq_step app o s [Cleared] s'
| dq_step_abort s list s' : is_wait_q list = true -> dq_abort list s = Ok tt s' -> dq_step app o s [] s'
| dq_step_background s s' : background app s s' -> dq_step app o s [] s'.

Inductive dq_steps (app : positive -> ptr -> K unit) (o : ptr) : kst -> list item_event -> kst -> Prop :=
| dq_steps_nil s : dq_steps app o s [] s
| dq_steps_cons s tr1 s1 tr s' : dq_step app o s tr1 s1 -> dq_steps app o s1 tr s' -> dq_steps app o s (tr1 ++ tr) s'.

(** The part of both loops that waits. *)
Lemma dq_wait_ok o q s qq thread timeout (A : Type) : dq_ok o q s -> dq_caller s thread timeout ->
  timeout <> 0 -> is_wait_q qq = true ->
  exists t s', (RT_DEBUG_NOT_IN_INTERRUPT;; thread ← lift thread; set_error thread RT_EOK;;
   suspend_with_timeout qq thread RT_IPC_FLAG_FIFO timeout;; mret (ipc_wait (A := A) thread timeout 0)) s =
     Ok (ipc_wait t timeout 0) s' /\ dq_ok o q s'.
Proof.
  intros Hok [?|(t & th & -> & Hc & Ht & Hr & Htime)] Hne Hq; [done|]. pose proof Hok as [Hcm _].
  destruct (wait_ok s qq t th RT_IPC_FLAG_FIFO timeout) as (s1 & Hrun1 & Hw); [apply Hcm|done|by right|done|by left|done|].
  erewrite run_bind by (apply not_in_interrupt_run, Hcm). erewrite run_bind by done.
  erewrite run_bind by (by apply set_error_run). rewrite (run_bind _ _ _ _ _ Hrun1).
  exists t, s1. split; [done|]. apply (dq_ok_step o q s); [done|by eapply calm_wait|apply (ks_drv (wt_step _ _ _ _ _ _ _ Hw))].
Qed.

(** What a section of a push does: the item is stored, or the ring is full and
    the call fails or waits. *)
Lemma dq_push_section_ok o q s thread item timeout : dq_ok o q s -> dq_caller s thread timeout ->
  exists r s' q', dq_push_section o thread item timeout s = Ok r s' /\ dq_ok o q' s' /\
    match r with ipc_done _ => q' = q ++ [item] | _ => q' = q end.
Proof.
  intros Hok Hcl. destruct (qk_queue _ _ _ Hok) as (d & Hd & Hh).
  unfold dq_push_section. erewrite run_bind by (by apply get_dq_run). destruct (dq_is_full d) eqn:Ef.
  - destruct (Z.eqb_spec timeout 0); [by eexists _, s, q|].
    destruct (dq_wait_ok o q s (QPush o) thread timeout bool) as (t & s' & -> & Hok'); [done..|]. by eexists _, s', q.
  - destruct (dq_push_item_ok o q s d item Hok Hd Hh Ef) as (need & s1 & Hrun1 & Hok1).
    rewrite (run_bind _ _ _ _ _ Hrun1). by eexists _, s1, (q ++ [item]).
Qed.

Lemma dq_pop_section_ok o q s thread timeout : dq_ok o q s -> dq_caller s thread timeout ->
  exists r s' q', dq_pop_section o thread timeout s = Ok r s' /\ dq_ok o q' s' /\
    match r with ipc_done (item, _, _) => q = item :: q' | _ => q' = q end.
Proof.
  intros Hok Hcl. destruct (qk_queue _ _ _ Hok) as (d & Hd & Hh).
  unfold dq_pop_section. erewrite run_bind by (by apply get_dq_run). destruct (dq_is_empty d) eqn:Ee.
  - destruct (Z.eqb_spec timeout 0); [by eexists _, s, q|].
    destruct (dq_wait_ok o q s (QPop o) thread timeout (Z * Z * bool * bool)) as (t & s' & -> & Hok'); [done..|].
    by eexists _, s', q.
  - destruct (dq_pop_item_ok o q s d Hok Hd Hh Ee) as (item & q' & low & need & s1 & -> & Hrun1 & Hok1 & _).
    rewrite (run_bind _ _ _ _ _ Hrun1). by eexists _, s1, q'.
Qed.

Lemma dq_abort_ok o q s list s' : dq_ok o q s -> is_wait_q list = true -> dq_abort list s = Ok tt s' -> dq_ok o q s'.
Proof.
  intros Hok Hq Hrun. pose proof (qk_calm _ _ _ Hok) as Hc. unfold dq_abort in Hrun.
  destruct (getq (k_qs s) list) as [|t l] eqn:E; [unfold queue_head, mbind, K_bind in Hrun; by rewrite E in Hrun|].
  destruct (rt_ipc_list_resume_ok _ s list t l (cm_kinv _ Hc) Hq E) as (th & _ & Ht & Hst & _).
  erewrite run_bind in Hrun by (by eapply queue_head_run). erewrite run_bind in Hrun by (by apply set_error_run).
  pose proof (kinv_with_error _ s t th (- RT_ERROR) (cm_kinv _ Hc) Ht) as Hk.
  destruct (rt_thread_resume_ok _ _ t (set_th_error (- RT_ERROR) th) Hk) as (s1 & Hrun1 & Hk1 & Hks & Hw); [apply lookup_insert_eq|done|].
  rewrite (run_bind _ _ _ _ _ Hrun1) in Hrun. injection Hrun as <-.
  apply (dq_ok_step o q s); [done| |apply (ks_drv Hks)].
  apply (calm_kstep (with_error t th (- RT_ERROR) s)); [by apply calm_error| |done|apply Hw]. unfold kinv. by rewrite (ks_tick Hks).
Qed.

Lemma dq_step_ok app o q s tr s' : dq_ok o q s -> dq_step app o s tr s' ->
  exists q', dq_ok o q' s' /\ queue_run tr q = Some q'.
Proof.
  intros Hok Hstep. destruct (qk_queue _ _ _ Hok) as (d & Hd & Hh).
  destruct Hstep as [s thread item timeout r s' Hcl Hrun|s thread timeout r s' Hcl Hrun|s s' Hrun|s list s' Hq Hrun|s s' Hbg].
  - destruct (dq_push_section_ok o q s thread item timeout Hok Hcl) as (r' & s1 & q' & Hrun' & Hok' & Hr).
    rewrite Hrun' in Hrun. injection Hrun as <- <-. exists q'. split; [done|]. by destruct r'; subst.
  - destruct (dq_pop_section_ok o q s thread timeout Hok Hcl) as (r' & s1 & q' & Hrun' & Hok' & Hr).
    rewrite Hrun' in Hrun. injection Hrun as <- <-. exists q'. split; [done|].
    destruct r' as [[[i low] need]|e|t0 t1 t2]; subst; [|done|done]. cbn. by rewrite decide_True.
  - unfold dq_reset_section, dq_check in Hrun.
    assert (dq_check o s = Ok d s) as Hck.
    { unfold dq_check. erewrite run_bind by (by apply get_dq_run). rewrite (dh_magic _ _ Hh). by erewrite run_bind by done. }
    unfold dq_check in Hck. rewrite (run_bind _ _ _ _ _ Hck) in Hrun. injection Hrun as <-. exists []. split; [|done].
    apply (dq_ok_put o q); [done|]. destruct Hh as [[R1 R2 R3 _] Hs Hm _ _ _].
    split; cbn; [apply ring_empty; [done|lia]|done|done|by rewrite slot_of_0 by lia|done|]. symmetry. apply Z.eqb_neq. lia.
  - exists q. split; [by eapply dq_abort_ok|done].
  - destruct (background_ok app s s' (qk_calm _ _ _ Hok) Hbg) as [Hc' Hqt]. exists q. split; [|done].
    apply (dq_ok_step o q s); [done|done|exact (f_equal k_drv (qt_rest _ _ Hqt))].
Qed.

Lemma queue_run_app tr1 tr q q1 : queue_run tr1 q = Some q1 -> queue_run (tr1 ++ tr) q = queue_run tr q1.
Proof.
  revert q. induction tr1 as [|[i|i|] tr1 IH]; intros q; cbn; [by intros [= ->]|auto| |auto].
  destruct q as [|j q]; [done|]. case_decide; [auto|done].
Qed.

(** C14: a data queue of fewer than 2^15 items is a queue: in every interleaving of
    pushes, pops and resets (their sections before and after each wait, and
    the waking of the waiting threads), tick interrupts and calls of the
    scheduler, the items popped are the ones pushed since the last reset, each
    once and in order; the flags say whether the queue is empty or full, and
    the computed length of a queue that is not empty is the number of its
    items.  The next section of a push or a pop, in the running thread or one
    that does not wait, runs: it reads and stores inside the array, and it
    stops with a result, with -RT_ETIMEOUT or in the wait. *)
Theorem dataqueue_fifo app o q s tr s' : dq_ok o q s -> dq_steps app o s tr s' ->
  exists q' d, queue_run tr q = Some q' /\ dr_queues (k_drv s') !! o = Some d /\ dq_holds d q' /\
    (q' <> [] -> dq_count d = Z.of_nat (length q')) /\
    forall thread item timeout, dq_caller s' thread timeout ->
      (exists r s2 q2, dq_push_section o thread item timeout s' = Ok r s2 /\ dq_ok o q2 s2 /\
         match r with ipc_done _ => q2 = q' ++ [item] | _ => q2 = q' end) /\
      (exists r s2 q2, dq_pop_section o thread timeout s' = Ok r s2 /\ dq_ok o q2 s2 /\
         match r with ipc_done (i, _, _) => q' = i :: q2 | _ => q2 = q' end).
Proof.
  intros Hok H. revert q Hok. induction H as [s|s tr1 s1 tr s' Hstep _ IH]; intros q Hok.
  - destruct (qk_queue _ _ _ Hok) as (d & Hd & Hh). exists q, d. do 3 (split; [done|]). split; [by apply dq_count_ok|].
    intros thread item timeout Hcl. split; [by apply dq_push_section_ok|by apply dq_pop_section_ok].
  - destruct (dq_step_ok app o q s tr1 s1 Hok Hstep) as (q1 & Hok1 & E1). rewrite (queue_run_app _ _ _ _ E1). by apply IH.
Qed.

(** ** Concrete runs: the queue 21 with three places holds one item *)
Definition demo_queue : rt_data_queue := DataQueue DATAQUEUE_MAGIC 3 1 1 false 2 false [(0, 0); (7, 4); (0, 0)] None.
Definition demo_dq : kst := set_k_drv (set_dr_queues {[21%positive := demo_queue]} empty_drivers) demo_kernel.
#[local] Instance no_notify : EvtNotify := fun _ _ _ => mret tt.

Lemma demo_dq_ok : dq_ok 21 [(7, 4)] demo_dq.
Proof.
  split; [apply (calm_drv demo_kernel); split; [exact demo_kernel_ok|by eexists|done]|].
  exists demo_queue. split; [done|]. split; try done. split; [done|cbn; lia|cbn; lia|]. intros [|i] x; [by intros [= <-]|done].
Qed.

(** [rt_data_queue_len] looks at [is_empty] before it disables interrupts: when
    the last item is popped in between, it reports a full queue. *)
Definition len_race : K Z :=
  empty ← dq_is_empty_section 21; RT_ASSERT (negb empty);;
  dq_pop_section 21 None 0;;
  d ← get_dq 21; mret (dq_count d).
Example len_of_emptied_queue : exists s, len_race demo_dq = Ok 3 s.
Proof. eexists. vm_compute. reflexivity. Qed.

(** Likewise [rt_data_queue_peek]: what it returns is in the queue no more. *)
Definition peek_race : K (Z * Z) :=
  empty ← dq_is_empty_section 21; RT_ASSERT (negb empty);;
  dq_pop_section 21 None 0;;
  dq_push_section 21 None (8, 4) 0;;
  dq_pop_section 21 None 0;;
  dq_head 21.
Example peek_of_emptied_queue : exists s, peek_race demo_dq = Ok (0, 0) s.
Proof. eexists. vm_compute. reflexivity. Qed.

(** ** Witness *)
Lemma dataqueue_fifo_witness : exists s2 q2 d, dq_steps no_app 21 demo_dq [Pushed (9, 1); Popped (7, 4)] s2 /\
  queue_run [Pushed (9, 1); Popped (7, 4)] [(7, 4)] = Some q2 /\ dr_queues (k_drv s2) !! 21%positive = Some d /\ dq_holds d q2.
Proof.
  destruct (dq_push_section 21 None (9, 1) 0 demo_dq) as [r1 s1|] eqn:E1; [|by vm_compute in E1].
  assert (r1 = ipc_done false) as -> by (vm_compute in E1; by injection E1 as <- _).
  destruct (dq_pop_section 21 None 0 s1) as [r2 s2|] eqn:E2.
  2:{ vm_compute in E1. injection E1 as <-. by vm_compute in E2. }
  assert (r2 = ipc_done ((7, 4), true, false)) as ->.
  { vm_compute in E1. injection E1 as <-. vm_compute in E2. by injection E2 as <- _. }
  assert (dq_steps no_app 21 demo_dq [Pushed (9, 1); Popped (7, 4)] s2) as Hs.
  { apply (dq_steps_cons _ _ _ [Pushed (9, 1)] s1 [Popped (7, 4)] s2).
    - exact (dq_step_push no_app 21 demo_dq None (9, 1) 0 (ipc_done false) s1 (or_introl eq_refl) E1).
    - apply (dq_steps_cons _ _ _ [Popped (7, 4)] s2 [] s2); [|constructor].
      exact (dq_step_pop no_app 21 s1 None 0 (ipc_done ((7, 4), true, false)) s2 (or_introl eq_refl) E2). }
  destruct (dataqueue_fifo no_app 21 [(7, 4)] demo_dq _ s2 demo_dq_ok Hs) as (q2 & d & Eq & Hd & Hh & _).
  exists s2, q2, d. done.
Defined.
