(* ===== verification/Device.v ===== *)
(** * Devices (rt-thread/src/device.c, and errno and the console device of
    kservice.c)

    A device is an object with six operations of its driver.  The interface
    [DriverOps] gives the operations of each driver, [DriverLaws] what device.c
    relies on: a driver's init, open and close leave the device's reference
    count and the kernel objects alone.  The count of openings is proved
    against that interface; [Serial] implements it.

    Open, close and the like are called before a device is shared, and are one
    section here; reads and writes are processes. *)
From stdpp Require Import strings.
From S2P Require Import Prelude DevState KState Scheduler Object Timer Proc Thread Ipc Printf.
#[local] Open Scope Z_scope.

Definition RT_Device_Class_Char : Z := 0.
Definition RT_Device_Class_SPIBUS : Z := 11.
Definition RT_Device_Class_SPIDevice : Z := 12.
Definition RT_DEVICE_FLAG_RDWR : Z := 0x003.
Definition RT_DEVICE_FLAG_STANDALONE : Z := 0x008.
Definition RT_DEVICE_FLAG_ACTIVATED : Z := 0x010.
Definition RT_DEVICE_FLAG_SUSPENDED : Z := 0x020.
Definition RT_DEVICE_FLAG_STREAM : Z := 0x040.
Definition RT_DEVICE_FLAG_INT_RX : Z := 0x100.
Definition RT_DEVICE_FLAG_DMA_RX : Z := 0x200.
Definition RT_DEVICE_FLAG_INT_TX : Z := 0x400.
Definition RT_DEVICE_FLAG_DMA_TX : Z := 0x800.
Definition RT_DEVICE_OFLAG_CLOSE : Z := 0x000.
Definition RT_DEVICE_OFLAG_RDWR : Z := 0x003.
Definition RT_DEVICE_OFLAG_OPEN : Z := 0x008.
Definition RT_DEVICE_OFLAG_MASK : Z := 0xf0f.

(** [flags & f] as a condition. *)
Definition flagged (flags f : Z) : bool := negb (Z.land flags f =? 0).

(** ** The interface of drivers *)

(** The arguments of [control] that the drivers here look at. *)
Inductive ctl_arg := arg_null | arg_config (c : serial_configure) | arg_flag (f : Z).

(** [struct rt_device_ops]; an entry may be RT_NULL. *)
Record rt_device_ops := DeviceOps {
  op_init : option (ptr -> K Z);
  op_open : option (ptr -> Z -> K Z);
  op_close : option (ptr -> K Z);
  op_read : option (ptr -> Z -> Z -> proc (list Z));
  op_write : option (ptr -> Z -> list Z -> proc Z);
  op_control : option (ptr -> Z -> ctl_arg -> K Z)
}.
Definition no_ops : rt_device_ops := DeviceOps None None None None None None.

(** The operations of each driver. *)
Class DriverOps := ops_of : driver -> rt_device_ops.

Definition get_dev (dev : ptr) : K rt_device := fun s => lift (dr_devs (k_drv s) !! dev) s.
Definition put_dev (dev : ptr) (d : rt_device) : K unit :=
  modify (fun s => set_k_drv (set_dr_devs (<[dev := d]> (dr_devs (k_drv s))) (k_drv s)) s).

(** ** errno (kservice.c) *)
Definition rt_get_errno : K Z :=
  nest ← gets k_nest;
  if negb (nest =? 0) then gets (fun s => dr_errno (k_drv s))
  else
    tid ← gets k_cur;
    match tid with
    | None => gets (fun s => dr_errno (k_drv s))
    | Some tid => th ← get_thread tid; mret (th_error th)
    end.
Definition rt_set_errno (error : Z) : K unit :=
  nest ← gets k_nest;
  if negb (nest =? 0) then modify (fun s => set_k_drv (set_dr_errno error (k_drv s)) s)
  else
    tid ← gets k_cur;
    match tid with
    | None => modify (fun s => set_k_drv (set_dr_errno error (k_drv s)) s)
    | Some tid => set_error tid error
    end.

(** ** Registration *)
Definition rt_device_find (name : list Z) : K (option ptr) := rt_object_find name RT_Object_Class_Device.

(** The structure [dev] exists already; the driver filled its type and
    function pointers. *)
Definition rt_device_register (dev : option ptr) (name : list Z) (flags : Z) : K Z :=
  match dev with
  | None => mret (- RT_ERROR)
  | Some dev =>
      found ← rt_device_find name;
      match found with
      | Some _ => mret (- RT_ERROR)
      | None =>
          rt_object_init dev RT_Object_Class_Device name;;
          d ← get_dev dev;
          put_dev dev (set_dev_open_flag 0 (set_dev_ref_count 0 (set_dev_flag (u16 flags) d)));;
          mret RT_EOK
      end
  end.

Definition rt_device_unregister (dev : ptr) : K Z :=
  assert_type dev RT_Object_Class_Device;;
  sys ← rt_object_is_systemobject dev; RT_ASSERT sys;;
  rt_object_detach dev;;
  mret RT_EOK.

(** [mem] is what [rt_malloc] returns; the structure, its object header
    included, is zeroed. *)
Definition rt_device_create (type : Z) (mem : option ptr) : K (option ptr) :=
  match mem with
  | None => mret None
  | Some device =>
      put_obj device (Object (replicate RT_NAME_MAX 0) 0 0);;
      put_dev device (Device type 0 0 0 None None no_driver);;
      mret (Some device)
  end.

Definition rt_device_destroy (dev : ptr) : K unit :=
  assert_type dev RT_Object_Class_Device;;
  sys ← rt_object_is_systemobject dev; RT_ASSERT (negb sys);;
  rt_object_detach dev.

Definition rt_device_set_rx_indicate (dev : ptr) (rx_ind : option positive) : K Z :=
  assert_type dev RT_Object_Class_Device;;
  d ← get_dev dev; put_dev dev (set_dev_rx_indicate rx_ind d);; mret RT_EOK.
Definition rt_device_set_tx_complete (dev : ptr) (tx_done : option positive) : K Z :=
  assert_type dev RT_Object_Class_Device;;
  d ← get_dev dev; put_dev dev (set_dev_tx_complete tx_done d);; mret RT_EOK.

(** A name as [%s] prints it. *)
Fixpoint visible_name (name : list Z) : list Z :=
  match name with [] => [] | c :: name => if c =? 0 then [] else c :: visible_name name end.

Section device.
Context `{DriverOps}.

(** The checks before a read or write: the device, or errno is set. *)
Definition device_check (dev : ptr) : K (option rt_device) :=
  assert_type dev RT_Object_Class_Device;;
  d ← get_dev dev;
  if dev_ref_count d =? 0 then rt_set_errno (- RT_ERROR);; mret None else mret (Some d).

(** The bytes that were read. *)
Definition rt_device_read (dev : ptr) (pos size : Z) : proc (list Z) :=
  (d <~ atomic (device_check dev);
   match d with
   | None => Ret []
   | Some d =>
       match op_read (ops_of (dev_driver d)) with
       | Some device_read => device_read dev pos size
       | None => atomic (rt_set_errno (- RT_ENOSYS)) ~; Ret []
       end
   end)%proc.

Definition rt_device_write (dev : ptr) (pos : Z) (buffer : list Z) : proc Z :=
  (d <~ atomic (device_check dev);
   match d with
   | None => Ret 0
   | Some d =>
       match op_write (ops_of (dev_driver d)) with
       | Some device_write => device_write dev pos buffer
       | None => atomic (rt_set_errno (- RT_ENOSYS)) ~; Ret 0
       end
   end)%proc.

(** ** The console device (kservice.c) *)
Definition rt_console_get_device : K (option ptr) := gets (fun s => dr_console (k_drv s)).

(** [rt_kputs], and the end of [rt_kprintf]: the text goes to the console
    device, if there is one ([rt_hw_console_output] of kservice.c is empty). *)
Definition rt_kputs (str : list Z) : proc unit :=
  (console <~ atomic rt_console_get_device;
   match console with
   | None => Ret tt
   | Some dev => rt_device_write dev 0 str ~; Ret tt
   end)%proc.
(** The output of [rt_kprintf] where nothing comes between its sections: in an
    interrupt handler, or while a device is opened.  A character takes three
    sections at most. *)
Definition kprint (text : list Z) : K unit := exec (8 * length text + 16) (rt_kputs text).

(** ** Opening and closing *)

(** [rt_kprintf("To initialize device:%s failed. The error code is %d\n", ...)] *)
Definition init_failed (dev : ptr) (result : Z) : K unit :=
  o ← get_obj dev;
  text ← lift (expand no_strings (codes " failed. The error code is %d"%string ++ [10]) [u32 result]);
  kprint (codes "To initialize device:"%string ++ visible_name (ob_name o) ++ text).

Definition set_activated (dev : ptr) : K unit :=
  d ← get_dev dev; put_dev dev (set_dev_flag (Z.lor (dev_flag d) RT_DEVICE_FLAG_ACTIVATED) d).

Definition rt_device_init (dev : ptr) : K Z :=
  d ← get_dev dev;
  match op_init (ops_of (dev_driver d)) with
  | None => mret RT_EOK
  | Some device_init =>
      if negb (flagged (dev_flag d) RT_DEVICE_FLAG_ACTIVATED) then
        result ← device_init dev;
        (if negb (result =? RT_EOK) then init_failed dev result else set_activated dev);;
        mret result
      else mret RT_EOK
  end.

(** "If device is not initialized, initialize it": [RT_EOK], or the error to
    return. *)
Definition open_activate (dev : ptr) : K Z :=
  d ← get_dev dev;
  if negb (flagged (dev_flag d) RT_DEVICE_FLAG_ACTIVATED) then
    result ← match op_init (ops_of (dev_driver d)) with Some device_init => device_init dev | None => mret RT_EOK end;
    (if negb (result =? RT_EOK) then init_failed dev result else set_activated dev);;
    mret result
  else mret RT_EOK.

Definition rt_device_open (dev : ptr) (oflag : Z) : K Z :=
  assert_type dev RT_Object_Class_Device;;
  result ← open_activate dev;
  if negb (result =? RT_EOK) then mret result
  else
    d ← get_dev dev;
    if flagged (dev_flag d) RT_DEVICE_FLAG_STANDALONE && flagged (dev_open_flag d) RT_DEVICE_OFLAG_OPEN
    then mret (- RT_EBUSY)
    else
      result ← match op_open (ops_of (dev_driver d)) with
               | Some device_open => device_open dev oflag
               | None => put_dev dev (set_dev_open_flag (Z.land oflag RT_DEVICE_OFLAG_MASK) d);; mret RT_EOK
               end;
      (if (result =? RT_EOK) || (result =? - RT_ENOSYS) then
         d ← get_dev dev;
         let count := u8 (dev_ref_count d + 1) in
         put_dev dev (set_dev_ref_count count (set_dev_open_flag (Z.lor (dev_open_flag d) RT_DEVICE_OFLAG_OPEN) d));;
         RT_ASSERT (negb (count =? 0))
       else mret tt);;
      mret result.

Definition rt_device_close (dev : ptr) : K Z :=
  assert_type dev RT_Object_Class_Device;;
  d ← get_dev dev;
  if dev_ref_count d =? 0 then mret (- RT_ERROR)
  else
    let count := u8 (dev_ref_count d - 1) in
    put_dev dev (set_dev_ref_count count d);;
    if negb (count =? 0) then mret RT_EOK
    else
      result ← match op_close (ops_of (dev_driver d)) with Some device_close => device_close dev | None => mret RT_EOK end;
      (if (result =? RT_EOK) || (result =? - RT_ENOSYS) then
         d ← get_dev dev; put_dev dev (set_dev_open_flag RT_DEVICE_OFLAG_CLOSE d)
       else mret tt);;
      mret result.

Definition rt_device_control (dev : ptr) (cmd : Z) (arg : ctl_arg) : K Z :=
  assert_type dev RT_Object_Class_Device;;
  d ← get_dev dev;
  match op_control (ops_of (dev_driver d)) with
  | Some device_control => device_control dev cmd arg
  | None => mret (- RT_ENOSYS)
  end.

Definition rt_console_set_device (name : list Z) : K (option ptr) :=
  old_device ← gets (fun s => dr_console (k_drv s));
  new_device ← rt_device_find name;
  if bool_decide (new_device = old_device) then mret None
  else
    match new_device with
    | None => mret old_device
    | Some new =>
        match old_device with Some old => rt_device_close old | None => mret RT_EOK end;;
        rt_device_open new (Z.lor RT_DEVICE_OFLAG_RDWR RT_DEVICE_FLAG_STREAM);;
        modify (fun s => set_k_drv (set_dr_console (Some new) (k_drv s)) s);;
        mret old_device
    end.

End device.

Lemma get_dev_run s dev d : dr_devs (k_drv s) !! dev = Some d -> get_dev dev s = Ok d s.
Proof. unfold get_dev. by intros ->. Qed.

(** ** Code that keeps a relation between states *)
Section keeps.
Context (R : kst -> kst -> Prop) (R_refl : forall s, R s s) (R_trans : forall s s1 s2, R s s1 -> R s1 s2 -> R s s2).

Definition keeps {A} (m : K A) : Prop := forall s a s', m s = Ok a s' -> R s s'.

Lemma keeps_ret {A} (a : A) : keeps (mret a).
Proof. intros s b s' [= _ <-]. apply R_refl. Qed.
Lemma keeps_fail {A} e : keeps (@kfail A e).
Proof. by intros s a s'. Qed.
Lemma keeps_bind {A B} (m : K A) (f : A -> K B) : keeps m -> (forall a, keeps (f a)) -> keeps (m ≫= f).
Proof.
  intros Hm Hf s b s'. unfold mbind, K_bind. destruct (m s) as [a s1|e] eqn:E; [|done]. intros Hb.
  eapply R_trans; [by eapply Hm|by eapply Hf].
Qed.
Lemma keeps_gets {A} (f : kst -> A) : keeps (gets f).
Proof. intros s b s' [= _ <-]. apply R_refl. Qed.
Lemma keeps_lift {A} (o : option A) : keeps (lift o).
Proof. destruct o; [apply keeps_ret|apply keeps_fail]. Qed.
Lemma keeps_assert b : keeps (RT_ASSERT b).
Proof. destruct b; [apply keeps_ret|apply keeps_fail]. Qed.
Lemma keeps_read {A} (f : kst -> option A) : keeps (fun s => lift (f s) s).
Proof. intros s a s'. destruct (f s); [|done]. intros [= _ <-]. apply R_refl. Qed.
Lemma keeps_exec {A} fuel (p : proc A) :
  (forall fuel s a s', exec fuel p s = Ok a s' -> R s s') -> keeps (exec fuel p).
Proof. intros H s a s'. apply H. Qed.
End keeps.

(** ** The promises of a driver *)

(** The reference counts and drivers of all devices, and the types of all
    objects. *)
Definition refs_kept (s s' : kst) : Prop :=
  (forall x, ob_type <$> k_objs s' !! x = ob_type <$> k_objs s !! x) /\
  forall x, (fun d => (dev_ref_count d, dev_driver d)) <$> dr_devs (k_drv s') !! x
          = (fun d => (dev_ref_count d, dev_driver d)) <$> dr_devs (k_drv s) !! x.

Lemma refs_kept_refl s : refs_kept s s.
Proof. done. Qed.
Lemma refs_kept_trans s s1 s2 : refs_kept s s1 -> refs_kept s1 s2 -> refs_kept s s2.
Proof. intros [H1 H2] [H3 H4]. split; intros x; [by rewrite H3, H1|by rewrite H4, H2]. Qed.

(** Reading a device and writing it back with its count and driver. *)
Lemma keeps_get_dev {A} dev (k : rt_device -> K A) :
  (forall d s a s', dr_devs (k_drv s) !! dev = Some d -> k d s = Ok a s' -> refs_kept s s') ->
  keeps refs_kept (d ← get_dev dev; k d).
Proof.
  intros Hk s a s'. unfold mbind, K_bind, get_dev. destruct (dr_devs (k_drv s) !! dev) as [d|] eqn:E; [|done]. cbn. by apply Hk.
Qed.

Lemma put_dev_keeps {A} dev d d' (m : K A) s a s' : dr_devs (k_drv s) !! dev = Some d ->
  dev_ref_count d' = dev_ref_count d -> dev_driver d' = dev_driver d -> keeps refs_kept m ->
  (put_dev dev d';; m) s = Ok a s' -> refs_kept s s'.
Proof.
  intros Hd Hr Hdr Hm. unfold mbind, K_bind. cbn. intros H. eapply refs_kept_trans; [|by eapply Hm].
  split; [done|]. intros x. cbn. destruct (decide (x = dev)) as [->|].
  - rewrite lookup_insert_eq, Hd. cbn. by rewrite Hr, Hdr.
  - by rewrite lookup_insert_ne.
Qed.

Lemma put_dev_keeps_last dev d d' s a s' : dr_devs (k_drv s) !! dev = Some d ->
  dev_ref_count d' = dev_ref_count d -> dev_driver d' = dev_driver d -> put_dev dev d' s = Ok a s' -> refs_kept s s'.
Proof.
  intros Hd Hr Hdr H. apply (put_dev_keeps dev d d' (mret tt) s tt s'); [done..|apply keeps_ret, refs_kept_refl|].
  unfold mbind, K_bind. rewrite H. by destruct a.
Qed.

(** A change that leaves devices and objects alone; a change of flags. *)
Lemma modify_keeps f : (forall s, k_objs (f s) = k_objs s) -> (forall s, dr_devs (k_drv (f s)) = dr_devs (k_drv s)) ->
  keeps refs_kept (modify f).
Proof. intros Ho Hd s [] s' [= <-]. split; intros x; [by rewrite Ho|by rewrite Hd]. Qed.

Lemma put_obj_flag_keeps p v : keeps refs_kept (put_obj_flag p v).
Proof.
  intros s [] s'. unfold put_obj_flag, mbind, K_bind, get_obj. destruct (k_objs s !! p) as [o|] eqn:E; [|done].
  intros [= <-]. split; [|done]. intros x. cbn. destruct (decide (x = p)) as [->|].
  - by rewrite lookup_insert_eq, E.
  - by rewrite lookup_insert_ne.
Qed.

(** [keep] walks through the code of an operation. *)
Ltac keep :=
  repeat first
    [ apply keeps_ret, refs_kept_refl
    | apply keeps_fail
    | apply keeps_gets, refs_kept_refl
    | apply keeps_lift, refs_kept_refl
    | apply keeps_assert, refs_kept_refl
    | apply keeps_read, refs_kept_refl
    | apply put_obj_flag_keeps
    | apply modify_keeps; [done|done]
    | progress (intros)
    | match goal with
      | |- keeps _ (_ ≫= _) => apply (keeps_bind _ refs_kept_trans)
      | |- keeps _ (if ?b then _ else _) => destruct b
      | |- keeps _ (let '(_, _) := ?p in _) => destruct p
      | |- keeps _ (match ?x with Some _ => _ | None => _ end) => destruct x
      | |- keeps _ (match ?x with inl _ => _ | inr _ => _ end) => destruct x
      end ].

Lemma remove_thread_keeps t : keeps refs_kept (rt_schedule_remove_thread t).
Proof. unfold rt_schedule_remove_thread, rt_thread_priority_table, dequeue_node, queue_empty. keep. Qed.

Lemma enqueue_keeps q t : keeps refs_kept (enqueue q t).
Proof. intros s a s'. unfold enqueue. destruct (linked _ _); [done|]. by intros [= _ <-]. Qed.

Lemma schedule_keeps : keeps refs_kept rt_schedule.
Proof.
  unfold rt_schedule, rt_schedule_insert_thread, _get_highest_priority_thread, rt_thread_priority_table, queue_head, put_thread, rt_thread_self.
  keep; auto using remove_thread_keeps, enqueue_keeps.
Qed.

Lemma timer_stop_keeps p : keeps refs_kept (rt_timer_stop p).
Proof. unfold rt_timer_stop, assert_type, rt_object_get_type, _rt_timer_remove, clear_activated, obj_flag. keep. Qed.

Lemma suspend_keeps t : keeps refs_kept (rt_thread_suspend t).
Proof.
  unfold rt_thread_suspend, assert_thread, assert_type, rt_object_get_type, put_thread, rt_thread_self. keep;
    auto using remove_thread_keeps, timer_stop_keeps.
Qed.

(** Code that can be interrupted, run alone. *)
Inductive sections_keep : forall {A}, proc A -> Prop :=
| sk_ret {A} (a : A) : sections_keep (Ret a)
| sk_sec {A X} (m : K X) (k : X -> proc A) :
    keeps refs_kept m -> (forall x, sections_keep (k x)) -> sections_keep (Sec m k)
| sk_iter {A X Y} (body : X -> proc (X + Y)) x (k : Y -> proc A) :
    (forall x, sections_keep (body x)) -> (forall y, sections_keep (k y)) -> sections_keep (Iter body x k).

Lemma sections_bind {A B} (p : proc A) (f : A -> proc B) :
  sections_keep p -> (forall a, sections_keep (f a)) -> sections_keep (pbind p f).
Proof.
  intros Hp. revert B f. induction Hp as [A a|A X m k Hm Hk IH|A X Y body x k Hb IHb Hk IHk]; intros B f Hf; cbn [pbind].
  - done.
  - apply sk_sec; auto.
  - apply sk_iter; auto.
Qed.

Lemma sections_inv {A} (p : proc A) : sections_keep p ->
  match p in proc A return Prop with
  | Ret a => True
  | Sec m k => keeps refs_kept m /\ forall x, sections_keep (k x)
  | Iter body x k => (forall x, sections_keep (body x)) /\ forall y, sections_keep (k y)
  end.
Proof. destruct 1; auto. Qed.

Lemma exec_keeps {A} fuel (p : proc A) : sections_keep p -> keeps refs_kept (exec fuel p).
Proof.
  revert A p. induction fuel as [|fuel IH]; intros A p Hp; [by intros s a s'|].
  pose proof (sections_inv p Hp) as Hi. destruct p as [A a|A X m k|A X Y body x k]; cbn [exec].
  - apply keeps_ret, refs_kept_refl.
  - destruct Hi as [Hm Hk]. intros s a s'. destruct (m s) as [x s1|e] eqn:E; [|done]. intros Ha.
    eapply refs_kept_trans; [by eapply Hm|by eapply (IH A (k x) (Hk x))].
  - destruct Hi as [Hb Hk]. apply IH, sections_bind; [done|]. intros [x'|y]; [by apply sk_iter|done].
Qed.

Lemma atomic_keeps {A} (m : K A) : keeps refs_kept m -> sections_keep (atomic m).
Proof. intros Hm. apply sk_sec; [done|]. intros x. apply sk_ret. Qed.

Class DriverLaws `{DriverOps} : Prop := {
  law_init drv f dev : op_init (ops_of drv) = Some f -> keeps refs_kept (f dev);
  law_open drv f dev oflag : op_open (ops_of drv) = Some f -> keeps refs_kept (f dev oflag);
  law_close drv f dev : op_close (ops_of drv) = Some f -> keeps refs_kept (f dev);
  law_write drv f dev pos buf : op_write (ops_of drv) = Some f -> sections_keep (f dev pos buf)
}.

(** ** Counting the openings *)
Section counting.
Context `{DriverLaws}.

Lemma set_errno_keeps e : keeps refs_kept (rt_set_errno e).
Proof. unfold rt_set_errno, set_error, put_thread. keep. Qed.

Lemma device_check_keeps dev : keeps refs_kept (device_check dev).
Proof. unfold device_check, assert_type, rt_object_get_type. keep. all: unfold get_dev; keep. apply set_errno_keeps. Qed.

Lemma kprint_keeps text : keeps refs_kept (kprint text).
Proof.
  unfold kprint. apply exec_keeps. unfold rt_kputs, rt_console_get_device, rt_device_write. cbn [pbind atomic].
  apply sk_sec; [keep|]. intros [c|]; [|apply sk_ret]. cbn [pbind]. apply sk_sec; [apply device_check_keeps|].
  intros [d|]; [|apply sk_ret]. cbn [pbind]. destruct (op_write (ops_of (dev_driver d))) as [f|] eqn:E.
  - apply sections_bind; [by eapply law_write|]. intros _. apply sk_ret.
  - cbn [pbind atomic]. apply sk_sec; [apply set_errno_keeps|]. intros _. apply sk_ret.
Qed.

Lemma open_activate_keeps dev : keeps refs_kept (open_activate dev).
Proof.
  unfold open_activate. apply keeps_get_dev. intros d s a s' Hd. revert s a s' Hd.
  assert (keeps refs_kept (if negb (flagged (dev_flag d) RT_DEVICE_FLAG_ACTIVATED) then
    result ← match op_init (ops_of (dev_driver d)) with Some device_init => device_init dev | None => mret RT_EOK end;
    (if negb (result =? RT_EOK) then init_failed dev result else set_activated dev);; mret result
    else mret RT_EOK)) as Hk; [|by intros s a s' _ Hrun; by eapply Hk].
  destruct (negb _); [|keep]. apply (keeps_bind _ refs_kept_trans).
  { destruct (op_init (ops_of (dev_driver d))) as [f|] eqn:E; [by eapply law_init|keep]. }
  intros r. apply (keeps_bind _ refs_kept_trans); [|intros _; keep]. destruct (negb _).
  - unfold init_failed, get_obj. keep. apply kprint_keeps.
  - unfold set_activated. apply keeps_get_dev. intros d1 s a s' Hd1 Hrun.
    by apply (put_dev_keeps_last dev d1 (set_dev_flag (Z.lor (dev_flag d1) RT_DEVICE_FLAG_ACTIVATED) d1) s a s').
Qed.

(** How often [dev] is open. *)
Definition ref_count (dev : ptr) (s : kst) : option Z := dev_ref_count <$> dr_devs (k_drv s) !! dev.

Lemma refs_kept_count dev s s' : refs_kept s s' -> ref_count dev s' = ref_count dev s.
Proof.
  intros [_ H']. specialize (H' dev). unfold ref_count.
  destruct (dr_devs (k_drv s') !! dev), (dr_devs (k_drv s) !! dev); cbn in *; congruence.
Qed.

Lemma assert_type_same o ty s a s' : assert_type o ty s = Ok a s' -> s' = s.
Proof.
  unfold assert_type, rt_object_get_type, get_obj, mbind, K_bind. destruct (k_objs s !! o); [|done]. cbn.
  destruct (_ =? _); [|done]. by intros [= _ <-].
Qed.

(** The end of [rt_device_open]: a device that its driver opened is counted. *)
Lemma count_opened dev s r1 r s' n : ref_count dev s = Some n -> 0 <= n < 2 ^ 8 -> r <> - RT_ENOSYS ->
  ((if (r1 =? RT_EOK) || (r1 =? - RT_ENOSYS) then
      d ← get_dev dev;
      let count := u8 (dev_ref_count d + 1) in
      put_dev dev (set_dev_ref_count count (set_dev_open_flag (Z.lor (dev_open_flag d) RT_DEVICE_OFLAG_OPEN) d));;
      RT_ASSERT (negb (count =? 0))
    else mret tt);; mret r1) s = Ok r s' ->
  ref_count dev s' = Some (if r =? RT_EOK then n + 1 else n) /\ (r = RT_EOK -> n + 1 < 2 ^ 8).
Proof.
  intros Hn Hr Hne. unfold mbind, K_bind. destruct ((r1 =? RT_EOK) || (r1 =? - RT_ENOSYS)) eqn:Eo.
  - unfold get_dev, ref_count in *. destruct (dr_devs (k_drv s) !! dev) as [d|]; [|done]. cbn in *. injection Hn as Hn.
    destruct (Z.eqb_spec (u8 (dev_ref_count d + 1)) 0) as [|Hz]; [done|]. cbn. intros [= <- <-].
    apply orb_true_iff in Eo as [Eo%Z.eqb_eq|Eo%Z.eqb_eq]; [|done]. rewrite Eo. cbn. rewrite lookup_insert_eq. cbn.
    assert (n < 2 ^ 8 - 1) as Hlt.
    { destruct (decide (n = 2 ^ 8 - 1)) as [E|]; [|lia]. exfalso. apply Hz. by rewrite Hn, E. }
    rewrite Hn, wrap_small by lia. split; [done|lia].
  - cbn. intros [= <- <-]. apply orb_false_iff in Eo as [Eo _]. rewrite Eo. split; [done|]. intros ->. by apply Z.eqb_neq in Eo.
Qed.

Lemma open_count dev oflag s r s' n : ref_count dev s = Some n -> 0 <= n < 2 ^ 8 -> r <> - RT_ENOSYS ->
  rt_device_open dev oflag s = Ok r s' ->
  ref_count dev s' = Some (if r =? RT_EOK then n + 1 else n) /\ (r = RT_EOK -> n + 1 < 2 ^ 8).
Proof.
  intros Hn Hr Hne. unfold rt_device_open. unfold mbind at 1, K_bind at 1.
  destruct (assert_type dev RT_Object_Class_Device s) as [[] s0|] eqn:Ea; [|done].
  apply assert_type_same in Ea as ->. unfold mbind at 1, K_bind at 1.
  destruct (open_activate dev s) as [r0 s1|] eqn:Eo; [|done]. apply open_activate_keeps in Eo.
  rewrite <- (refs_kept_count dev _ _ Eo) in Hn. destruct (Z.eqb_spec r0 RT_EOK) as [->|Hz]; cbn [negb].
  2:{ intros [= <- <-]. destruct (Z.eqb_spec r0 RT_EOK); [done|]. done. }
  unfold mbind at 1, K_bind at 1. destruct (get_dev dev s1) as [d s2|] eqn:Eg; [|done].
  assert (s2 = s1 /\ dr_devs (k_drv s1) !! dev = Some d) as [-> Hd].
  { unfold get_dev in Eg. destruct (dr_devs (k_drv s1) !! dev); [|done]. by injection Eg as -> ->. }
  destruct (_ && _); [by intros [= <- <-]|]. unfold mbind at 1, K_bind at 1.
  destruct (op_open (ops_of (dev_driver d))) as [f|] eqn:Ef.
  - destruct (f dev oflag s1) as [r1 s3|] eqn:E1; [|done]. apply (law_open _ _ _ _ Ef) in E1.
    rewrite <- (refs_kept_count dev _ _ E1) in Hn. by apply count_opened.
  - cbn. intros Hrun. eapply (count_opened dev _ RT_EOK r s' n); [|done|done|exact Hrun].
    unfold ref_count in *. rewrite Hd in Hn. cbn. by rewrite lookup_insert_eq.
Qed.

Lemma close_count dev s r s' n : ref_count dev s = Some n -> 0 <= n < 2 ^ 8 -> rt_device_close dev s = Ok r s' ->
  ref_count dev s' = Some (Z.max 0 (n - 1)).
Proof.
  intros Hn Hr. unfold rt_device_close. unfold mbind at 1, K_bind at 1.
  destruct (assert_type dev RT_Object_Class_Device s) as [[] s0|] eqn:Ea; [|done]. apply assert_type_same in Ea as ->.
  unfold ref_count in Hn. destruct (dr_devs (k_drv s) !! dev) as [d|] eqn:Hd; [|done]. cbn in Hn. injection Hn as Hn.
  erewrite run_bind by (by apply get_dev_run). rewrite Hn.
  destruct (Z.eqb_spec n 0) as [->|Hz].
  { intros [= _ <-]. unfold ref_count. rewrite Hd. cbn. by rewrite Hn. }
  rewrite wrap_small by lia. unfold mbind at 1, K_bind at 1. cbn [put_dev modify].
  set (s1 := set_k_drv _ s). assert (ref_count dev s1 = Some (n - 1)) as Hn1.
  { unfold ref_count, s1. cbn. by rewrite lookup_insert_eq. }
  rewrite Z.max_r by lia. destruct (Z.eqb_spec (n - 1) 0) as [E|]; cbn [negb]; [|by intros [= _ <-]].
  intros Hrun. rewrite <- Hn1. apply refs_kept_count. revert Hrun.
  assert (keeps refs_kept (result ← match op_close (ops_of (dev_driver d)) with Some device_close => device_close dev | None => mret RT_EOK end;
      (if (result =? RT_EOK) || (result =? - RT_ENOSYS) then d ← get_dev dev; put_dev dev (set_dev_open_flag RT_DEVICE_OFLAG_CLOSE d)
       else mret tt);; mret result)) as Hk; [|apply Hk].
  apply (keeps_bind _ refs_kept_trans).
  { destruct (op_close (ops_of (dev_driver d))) as [f|] eqn:Ef; [by eapply law_close|keep]. }
  intros r1. apply (keeps_bind _ refs_kept_trans); [|intros _; keep]. destruct (_ || _); [|keep].
  apply keeps_get_dev. intros d1 s2 a s3 Hd1 Hrun.
  by apply (put_dev_keeps_last dev d1 (set_dev_open_flag RT_DEVICE_OFLAG_CLOSE d1) s2 a s3).
Qed.

(** The use of a device: openings, closings, and any other code that obeys
    the promise of drivers, with what each does to the number of openings. *)
Inductive dev_use (dev : ptr) : kst -> (Z -> Z) -> kst -> Prop :=
| use_open oflag s r s' : r <> - RT_ENOSYS -> rt_device_open dev oflag s = Ok r s' ->
    dev_use dev s (fun n => if r =? RT_EOK then n + 1 else n) s'
| use_close s r s' : rt_device_close dev s = Ok r s' -> dev_use dev s (fun n => Z.max 0 (n - 1)) s'
| use_other s s' : refs_kept s s' -> dev_use dev s (fun n => n) s'.

Inductive dev_uses (dev : ptr) : kst -> list (Z -> Z) -> kst -> Prop :=
| uses_nil s : dev_uses dev s [] s
| uses_cons s f s1 fs s' : dev_use dev s f s1 -> dev_uses dev s1 fs s' -> dev_uses dev s (f :: fs) s'.

(** C19: the reference count of a device is the number of successful openings
    less the closings, whatever its driver is, as long as the driver keeps the
    promises of the interface: for every sequence of openings, closings (of an
    open or a closed device) and other calls that runs without a failed
    assertion, and it never wraps around. *)
Theorem device_count dev s fs s' n : ref_count dev s = Some n -> 0 <= n < 2 ^ 8 -> dev_uses dev s fs s' ->
  ref_count dev s' = Some (foldl (fun n f => f n) n fs) /\ 0 <= foldl (fun n f => f n) n fs < 2 ^ 8.
Proof.
  intros Hn Hr Hu. revert n Hn Hr. induction Hu as [s|s f s1 fs s' Hstep _ IH]; intros n Hn Hr; [done|]. cbn [foldl].
  destruct Hstep as [oflag s r s1 Hne Hrun|s r s1 Hrun|s s1 Hk]; apply IH; try lia.
  - by destruct (open_count dev oflag s r s1 n Hn Hr Hne Hrun).
  - destruct (open_count dev oflag s r s1 n Hn Hr Hne Hrun) as [_ Hlt]. destruct (Z.eqb_spec r RT_EOK); [|done]. split; [lia|auto].
  - by apply (close_count dev s r s1 n).
  - by rewrite (refs_kept_count dev _ _ Hk).
Qed.
End counting.

(** ** Created devices *)

Lemma enter_critical_keeps : keeps refs_kept rt_enter_critical.
Proof. unfold rt_enter_critical. keep. Qed.
Lemma exit_critical_keeps : keeps refs_kept rt_exit_critical.
Proof. unfold rt_exit_critical, rt_thread_self. keep. apply schedule_keeps. Qed.

Lemma device_find_keeps name : keeps refs_kept (rt_device_find name).
Proof.
  unfold rt_device_find, rt_object_find, RT_DEBUG_NOT_IN_INTERRUPT. keep; auto using enter_critical_keeps, exit_critical_keeps.
  match goal with |- keeps _ (find_loop ?l _) => induction l as [|o l IH]; cbn [find_loop]; [keep|] end.
  unfold get_obj. keep. apply IH.
Qed.

(** a device that [rt_device_create] made can never be destroyed:
    [rt_device_destroy] asserts that it is of the device class and not a static
    object, but before it is registered it has no class, and registering makes
    it static.  The assertion fails in both states. *)
Theorem created_never_destroyed type dev name flags s d s1 :
  rt_device_create type (Some dev) s = Ok d s1 ->
  rt_device_destroy dev s1 = Fail AssertFail /\
  forall r s2, rt_device_register (Some dev) name flags s1 = Ok r s2 -> rt_device_destroy dev s2 = Fail AssertFail.
Proof.
  assert (Hdes : forall s t, ob_type <$> k_objs s !! dev = Some t ->
    t = 0 \/ t = Z.lor RT_Object_Class_Device RT_Object_Class_Static -> rt_device_destroy dev s = Fail AssertFail).
  { intros s0 t Ho Ht. unfold rt_device_destroy, assert_type, rt_object_get_type, rt_object_is_systemobject, get_obj, mbind, K_bind.
    destruct (k_objs s0 !! dev) as [o|] eqn:E; [|done]. cbn in Ho |- *. injection Ho as Ho. rewrite Ho.
    destruct Ht as [-> | ->]; [done|]. change (RT_ASSERT _ s0) with (Ok tt s0). cbv beta iota. rewrite E. unfold lift, mret, K_ret. by rewrite Ho. }
  intros [= _ <-]. set (s0 := set_k_drv _ _).
  assert (ob_type <$> k_objs s0 !! dev = Some 0) as H0 by (cbn; by rewrite lookup_insert_eq).
  split; [by eapply Hdes; [exact H0|left]|]. intros r s2. unfold rt_device_register. unfold mbind at 1, K_bind at 1.
  destruct (rt_device_find name s0) as [[x|] s3|] eqn:Ef; [| |done]; apply device_find_keeps in Ef.
  - intros [= _ <-]. eapply Hdes; [by rewrite (proj1 Ef), H0|by left].
  - unfold mbind at 1, K_bind at 1. destruct (rt_object_init dev RT_Object_Class_Device name s3) as [[] s4|] eqn:Ei; [|done].
    intros Hrun. apply (Hdes s2 (Z.lor RT_Object_Class_Device RT_Object_Class_Static)); [|by right].
    assert (k_objs s2 = k_objs s4) as ->.
    { revert Hrun. unfold mbind, K_bind, get_dev. destruct (dr_devs (k_drv s4) !! dev); [|done]. by intros [= _ <-]. }
    unfold rt_object_init in Ei. change (rt_object_get_information RT_Object_Class_Device) with (Some RT_Object_Class_Device) in Ei.
    revert Ei. unfold mbind, K_bind. cbn -[RT_ASSERT rt_exit_critical]. destruct (RT_ASSERT _ _) as [[] s5|]; [|done].
    destruct (rt_exit_critical s5) as [[] s6|]; [|done]. cbn. unfold container_push. destruct (in_container _ _); [done|].
    intros [= <-]. cbn. by rewrite lookup_insert_eq.
Qed.

Lemma created_never_destroyed_witness : exists d s,
  rt_device_create RT_Device_Class_Char (Some 30%positive) demo_kernel = Ok d s /\
  rt_device_destroy 30 s = Fail AssertFail.
Proof.
  destruct (rt_device_create RT_Device_Class_Char (Some 30%positive) demo_kernel) as [d s|] eqn:E; [|by vm_compute in E].
  exists d, s. split; [exact eq_refl|]. exact (proj1 (created_never_destroyed RT_Device_Class_Char 30 [] 0 demo_kernel d s E)).
Defined.
