(* ===== verification/Pin.v ===== *)
(** * Pins (libraries/hal_drivers/drv_gpio.c, and
    rt-thread/components/drivers/misc/pin.c, which passes calls on to it)

    A pin is a number: sixteen for each port from A on.  Pins of the same
    number within their ports share an external interrupt, and most of these
    share a vector of the interrupt controller; [pin_irq_enable_mask] is meant
    to say when a vector can be switched off.

    [pin_irqs_tracked]: through every sequence of calls and interrupts the
    handler table, the mask, the edges of the external interrupts and the
    enabled vectors are what the calls ask for.  The runs at the end show what
    the interrupt handlers do that they should not. *)
From stdpp Require Import gmap.
From S2P Require Import Prelude DevState KState Scheduler Object Device Gpio.
#[local] Open Scope Z_scope.

Definition PIN_LOW : Z := 0x00.
Definition PIN_HIGH : Z := 0x01.
Definition PIN_MODE_OUTPUT : Z := 0x00.
Definition PIN_MODE_INPUT : Z := 0x01.
Definition PIN_MODE_INPUT_PULLUP : Z := 0x02.
Definition PIN_MODE_INPUT_PULLDOWN : Z := 0x03.
Definition PIN_MODE_OUTPUT_OD : Z := 0x04.
Definition PIN_IRQ_MODE_RISING : Z := 0x00.
Definition PIN_IRQ_MODE_FALLING : Z := 0x01.
Definition PIN_IRQ_MODE_RISING_FALLING : Z := 0x02.
Definition PIN_IRQ_DISABLE : Z := 0x00.
Definition PIN_IRQ_ENABLE : Z := 0x01.
Definition RT_Device_Class_Miscellaneous : Z := 18.

Definition get_pins : K pins := gets (fun s => dr_pins (k_drv s)).
Definition put_pins (v : pins) : K unit := modify (fun s => set_k_drv (set_dr_pins v (k_drv s)) s).

(** The functions attached to pins. *)
Class PinHandler := pin_handler : positive -> Z -> K unit.

(** ** drv_gpio.c *)

(** A row of [pins]: the port and the bit of a pin. *)
Record pin_index := PinIndex { index_gpio : nat; index_pin : Z }.
Definition pins_table : list pin_index :=
  map (fun n => PinIndex (n / 16) (Z.shiftl 1 (Z.of_nat (n mod 16)))) (seq 0 80).
(** The parameter has 8 bits. *)
Definition get_pin (pin : Z) : option pin_index := pins_table !! Z.to_nat (u8 pin).

Definition EXTI0_IRQn : Z := 22.
Definition EXTI9_5_IRQn : Z := 39.
Definition EXTI15_10_IRQn : Z := 56.
(** The rows of [pin_irq_map]: bit [i] and its vector. *)
Definition pin_irqno (i : Z) : Z :=
  if i <? 5 then EXTI0_IRQn + i else if i <? 10 then EXTI9_5_IRQn else EXTI15_10_IRQn.

Fixpoint bit2bitno_loop (n : nat) (i bit : Z) : Z :=
  match n with O => -1 | S n => if Z.shiftl 1 i =? bit then i else bit2bitno_loop n (i + 1) bit end.
Definition bit2bitno (bit : Z) : Z := bit2bitno_loop 32 0 bit.

(** [index->gpio], changed by the library. *)
Definition on_port (gpio : nat) (f : gpio_port -> gpio_port) : K unit :=
  x ← get_pins;
  p ← lift (pn_ports x !! gpio);
  put_pins (set_pn_ports (<[gpio := f p]> (pn_ports x)) x).

Definition ch32_pin_write (pin value : Z) : K unit :=
  match get_pin pin with
  | None => mret tt
  | Some index => on_port (index_gpio index) (GPIO_WriteBit (index_pin index) value)
  end.

Definition ch32_pin_read (pin : Z) : K Z :=
  match get_pin pin with
  | None => mret PIN_LOW
  | Some index => x ← get_pins; p ← lift (pn_ports x !! index_gpio index); mret (GPIO_ReadInputDataBit p (index_pin index))
  end.

Definition ch32_pin_mode (pin mode : Z) : K unit :=
  match get_pin pin with
  | None => mret tt
  | Some index =>
      let gpio_mode :=
        if mode =? PIN_MODE_OUTPUT then GPIO_Mode_Out_PP
        else if mode =? PIN_MODE_INPUT then GPIO_Mode_IN_FLOATING
        else if mode =? PIN_MODE_INPUT_PULLUP then GPIO_Mode_IPU
        else if mode =? PIN_MODE_INPUT_PULLDOWN then GPIO_Mode_IPD
        else if mode =? PIN_MODE_OUTPUT_OD then GPIO_Mode_Out_OD
        else GPIO_Mode_Out_PP in
      on_port (index_gpio index) (GPIO_Init (GpioInit (index_pin index) GPIO_Speed_50MHz gpio_mode))
  end.

(** [irqindex] of a pin, or the error. *)
Definition irq_index (index : pin_index) : option Z :=
  let irqindex := bit2bitno (index_pin index) in
  if (irqindex <? 0) || (16 <=? irqindex) then None else Some irqindex.

Definition irq_row (i : Z) : K rt_pin_irq_hdr := x ← get_pins; lift (pin_irq_hdr_tab x !! Z.to_nat i).
Definition put_irq_row (i : Z) (h : rt_pin_irq_hdr) : K unit :=
  x ← get_pins; put_pins (set_pn_tab (<[Z.to_nat i := h]> (pin_irq_hdr_tab x)) x).

Definition ch32_pin_attach_irq (pin mode : Z) (hdr : option positive) (args : Z) : K Z :=
  match get_pin pin with
  | None => mret RT_ENOSYS
  | Some index =>
      match irq_index index with
      | None => mret RT_ENOSYS
      | Some irqindex =>
          h ← irq_row irqindex;
          if (irq_pin h =? pin) && bool_decide (irq_hdr h = hdr) && (irq_mode h =? mode) && (irq_args h =? args)
          then mret RT_EOK
          else if negb (irq_pin h =? -1) then mret RT_EBUSY
          else put_irq_row irqindex (PinIrq (i16 pin) (u16 mode) hdr args);; mret RT_EOK
      end
  end.

Definition ch32_pin_dettach_irq (pin : Z) : K Z :=
  match get_pin pin with
  | None => mret RT_ENOSYS
  | Some index =>
      match irq_index index with
      | None => mret RT_ENOSYS
      | Some irqindex =>
          h ← irq_row irqindex;
          if irq_pin h =? -1 then mret RT_EOK
          else put_irq_row irqindex (PinIrq (-1) 0 None 0);; mret RT_EOK
      end
  end.

(** The mode of the pin and the trigger; a level mode leaves both fields 0. *)
Definition irq_trigger (mode : Z) : Z * Z :=
  if mode =? PIN_IRQ_MODE_RISING then (GPIO_Mode_IPD, EXTI_Trigger_Rising)
  else if mode =? PIN_IRQ_MODE_FALLING then (GPIO_Mode_IPU, EXTI_Trigger_Falling)
  else if mode =? PIN_IRQ_MODE_RISING_FALLING then (GPIO_Mode_IN_FLOATING, EXTI_Trigger_Rising_Falling)
  else (0, 0).

(** The section that enables the interrupt [irqindex] of a pin with a handler. *)
Definition irq_on (index : pin_index) (irqindex : Z) (h : rt_pin_irq_hdr) : K unit :=
  let '(gpio_mode, trigger) := irq_trigger (irq_mode h) in
  on_port (index_gpio index) (GPIO_Init (GpioInit (index_pin index) GPIO_Speed_50MHz gpio_mode));;
  x ← get_pins;
  exticr ← lift (GPIO_EXTILineConfig (Z.of_nat (index_gpio index)) irqindex (pn_exticr x));
  exti ← lift (EXTI_Init (ExtiInit (index_pin index) EXTI_Mode_Interrupt trigger true) (pn_exti x));
  put_pins (set_pn_exticr exticr (set_pn_exti exti
    (set_pn_vectors (NVIC_EnableIRQ (pin_irqno irqindex) (pn_vectors x))
      (set_pn_mask (Z.lor (pin_irq_enable_mask x) (Z.shiftl 1 irqindex)) x)))).

(** GPIO_Pin_5 to GPIO_Pin_9, and GPIO_Pin_10 to GPIO_Pin_15. *)
Definition PINS_5_9 : Z := 0x03E0.
Definition PINS_10_15 : Z := 0xFC00.

Definition irq_off (irqindex : Z) : K unit :=
  x ← get_pins;
  let pinbit := Z.shiftl 1 irqindex in
  let mask := Z.land (pin_irq_enable_mask x) (Z.lnot pinbit) in
  let off :=
    if (0x0020 <=? pinbit) && (pinbit <=? 0x0200) then Z.land mask PINS_5_9 =? 0
    else if (0x0400 <=? pinbit) && (pinbit <=? 0x8000) then Z.land mask PINS_10_15 =? 0
    else true in
  put_pins (set_pn_mask mask
    (if off then set_pn_vectors (NVIC_DisableIRQ (pin_irqno irqindex) (pn_vectors x)) x else x)).

Definition ch32_pin_irq_enable (pin enabled : Z) : K Z :=
  match get_pin pin with
  | None => mret RT_ENOSYS
  | Some index =>
      if enabled =? PIN_IRQ_ENABLE then
        match irq_index index with
        | None => mret RT_ENOSYS
        | Some irqindex =>
            h ← irq_row irqindex;
            if irq_pin h =? -1 then mret RT_ENOSYS else irq_on index irqindex h;; mret RT_EOK
        end
      else if enabled =? PIN_IRQ_DISABLE then
        match irq_index index with
        | None => mret RT_ENOSYS
        | Some irqindex => irq_off irqindex;; mret RT_EOK
        end
      else mret (- RT_ENOSYS)
  end.

(** *** Interrupts *)
Section handlers.
Context `{PinHandler}.

(** An index outside the table is outside of the array. *)
Definition pin_irq_hdr (irqno : Z) : K unit :=
  if irqno <? 0 then kfail BadPtr
  else
    h ← irq_row irqno;
    match irq_hdr h with Some f => pin_handler f (irq_args h) | None => mret tt end.
Definition HAL_GPIO_EXTI_Callback (pin : Z) : K unit := pin_irq_hdr (bit2bitno pin).

Definition clear_pending (line : Z) : K unit :=
  x ← get_pins; put_pins (set_pn_exti (EXTI_ClearITPendingBit line (pn_exti x)) x).
Definition line_pending (line : Z) : K bool := x ← get_pins; mret (EXTI_GetITStatus (pn_exti x) line).

(** [EXTI0_IRQHandler] to [EXTI4_IRQHandler]. *)
Definition EXTIn_IRQHandler (n : Z) : K unit :=
  rt_interrupt_enter;;
  p ← line_pending (Z.shiftl 1 n);
  (if p : bool then HAL_GPIO_EXTI_Callback (Z.shiftl 1 n);; clear_pending (Z.shiftl 1 n) else mret tt);;
  rt_interrupt_leave.

Definition EXTI9_5_IRQHandler : K unit :=
  rt_interrupt_enter;;
  x ← get_pins;
  (if EXTI_GetITStatus (pn_exti x) (Z.shiftl 1 5) || EXTI_GetITStatus (pn_exti x) (Z.shiftl 1 6) ||
      EXTI_GetITStatus (pn_exti x) (Z.shiftl 1 7) || EXTI_GetITStatus (pn_exti x) (Z.shiftl 1 8) ||
      EXTI_GetITStatus (pn_exti x) (Z.shiftl 1 9) then
     HAL_GPIO_EXTI_Callback (Z.shiftl 1 5);;
     HAL_GPIO_EXTI_Callback (Z.shiftl 1 6);;
     HAL_GPIO_EXTI_Callback (Z.shiftl 1 7);;
     HAL_GPIO_EXTI_Callback (Z.shiftl 1 8);;
     HAL_GPIO_EXTI_Callback (Z.shiftl 1 9);;
     clear_pending PINS_5_9
   else mret tt);;
  rt_interrupt_leave.
End handlers.

(** ** pin.c *)

(** [_hw_pin.ops] is set: it is the driver's table, without [pin_get]. *)
Definition check_pin_ops : K unit := x ← get_pins; RT_ASSERT (pn_ops x).
Definition rt_pin_mode (pin mode : Z) : K unit := check_pin_ops;; ch32_pin_mode pin mode.
Definition rt_pin_write (pin value : Z) : K unit := check_pin_ops;; ch32_pin_write pin value.
Definition rt_pin_read (pin : Z) : K Z := check_pin_ops;; ch32_pin_read pin.
Definition rt_pin_attach_irq (pin mode : Z) (hdr : option positive) (args : Z) : K Z :=
  check_pin_ops;; ch32_pin_attach_irq pin mode hdr args.
Definition rt_pin_detach_irq (pin : Z) : K Z := check_pin_ops;; ch32_pin_dettach_irq pin.
Definition rt_pin_irq_enable (pin enabled : Z) : K Z := check_pin_ops;; ch32_pin_irq_enable pin enabled.
Definition rt_pin_get (name : list Z) : K Z :=
  check_pin_ops;; RT_ASSERT (bool_decide (head name = Some 80));; mret (- RT_ENOSYS).

(** [struct rt_device_pin_status] and [rt_device_pin_mode]: the pin, and its
    status or mode. *)
Definition SIZEOF_PIN_STATUS : Z := 4.
Definition _pin_read (status : option (Z * Z)) (size : Z) : K (Z * option (Z * Z)) :=
  match status with
  | Some (pin, _) =>
      if negb (size =? SIZEOF_PIN_STATUS) then mret (0, status)
      else v ← ch32_pin_read pin; mret (size, Some (pin, u16 v))
  | None => mret (0, None)
  end.
Definition _pin_write (status : option (Z * Z)) (size : Z) : K Z :=
  match status with
  | Some (pin, v) =>
      if negb (size =? SIZEOF_PIN_STATUS) then mret 0 else ch32_pin_write pin v;; mret size
  | None => mret 0
  end.
Definition _pin_control (mode : option (Z * Z)) : K Z :=
  match mode with Some (pin, m) => ch32_pin_mode pin m;; mret 0 | None => mret (- RT_ERROR) end.

Definition rt_device_pin_register (hw_pin : ptr) (name : list Z) : K Z :=
  d ← get_dev hw_pin;
  put_dev hw_pin (Device RT_Device_Class_Miscellaneous (dev_flag d) (dev_open_flag d) (dev_ref_count d) None None pin_driver);;
  x ← get_pins;
  put_pins (set_pn_ops true x);;
  rt_device_register (Some hw_pin) name RT_DEVICE_FLAG_RDWR;;
  mret 0.
(** The clocks of the ports are not modelled. *)
Definition rt_hw_pin_init (hw_pin : ptr) : K Z := rt_device_pin_register hw_pin [112; 105; 110].

(** ** What the calls ask for *)

#[export] Instance pin_irq_eq_dec : EqDecision rt_pin_irq_hdr.
Proof. solve_decision. Defined.

(** For each line the handler attached to it, if there is one, and the mode of
    the handler it was enabled for, if it is. *)
Record lines := Lines { ln_rows : gmap Z rt_pin_irq_hdr; ln_on : gmap Z Z }.

Definition pin_line (pin : Z) : option Z := if u8 pin <? 80 then Some (u8 pin mod 16) else None.

Definition attached (pin mode : Z) (hdr : option positive) (args : Z) (l : lines) : Z * lines :=
  match pin_line pin with
  | None => (RT_ENOSYS, l)
  | Some i =>
      match ln_rows l !! i with
      | None => (RT_EOK, Lines (<[i := PinIrq (i16 pin) (u16 mode) hdr args]> (ln_rows l)) (ln_on l))
      | Some h => (if decide (h = PinIrq pin mode hdr args) then RT_EOK else RT_EBUSY, l)
      end
  end.
Definition detached (pin : Z) (l : lines) : Z * lines :=
  match pin_line pin with
  | None => (RT_ENOSYS, l)
  | Some i => (RT_EOK, Lines (delete i (ln_rows l)) (ln_on l))
  end.
Definition switched (pin enabled : Z) (l : lines) : Z * lines :=
  match pin_line pin with
  | None => (RT_ENOSYS, l)
  | Some i =>
      if enabled =? PIN_IRQ_ENABLE then
        match ln_rows l !! i with
        | None => (RT_ENOSYS, l)
        | Some h => (RT_EOK, Lines (ln_rows l) (<[i := irq_mode h]> (ln_on l)))
        end
      else if enabled =? PIN_IRQ_DISABLE then (RT_EOK, Lines (ln_rows l) (delete i (ln_on l)))
      else (- RT_ENOSYS, l)
  end.

(** A call that attaches, detaches, enables or disables. *)
Inductive irq_call : lines -> lines -> Prop :=
| irq_attach pin mode hdr args l : irq_call l (attached pin mode hdr args l).2
| irq_detach pin l : irq_call l (detached pin l).2
| irq_switch pin enabled l : irq_call l (switched pin enabled l).2.

(** The edges of a mode; the level modes have none. *)
Definition rises (mode : Z) : bool := (mode =? PIN_IRQ_MODE_RISING) || (mode =? PIN_IRQ_MODE_RISING_FALLING).
Definition falls (mode : Z) : bool := (mode =? PIN_IRQ_MODE_FALLING) || (mode =? PIN_IRQ_MODE_RISING_FALLING).

(** ** The invariant *)

(** The vectors of the external interrupts. *)
Definition exti_vector (v : Z) : Prop := exists i, 0 <= i < 16 /\ pin_irqno i = v.

Record pins_ok (l : lines) (x : pins) : Prop := {
  po_ops : pn_ops x = true;
  po_ports : length (pn_ports x) = 5%nat;
  po_exticr : length (pn_exticr x) = 4%nat;
  po_tab : length (pin_irq_hdr_tab x) = 16%nat;
  (** a row is free, or holds a pin whose interrupt it is *)
  po_rows i h : pin_irq_hdr_tab x !! i = Some h ->
    if decide (irq_pin h = -1) then irq_hdr h = None /\ ln_rows l !! Z.of_nat i = None
    else u8 (irq_pin h) < 80 /\ u8 (irq_pin h) mod 16 = Z.of_nat i /\ ln_rows l !! Z.of_nat i = Some h;
  (** a vector is enabled as long as one of its lines is *)
  po_vectors v : exti_vector v ->
    v ∈ pn_vectors x <-> exists i, 0 <= i < 16 /\ Z.testbit (pin_irq_enable_mask x) i = true /\ pin_irqno i = v;
  (** the mask has the lines that are meant to be enabled *)
  po_mask i : 0 <= i < 16 -> Z.testbit (pin_irq_enable_mask x) i = bool_decide (is_Some (ln_on l !! i));
  (** and such a line interrupts at the edges of the mode it was enabled for *)
  po_lines i mode : 0 <= i < 16 -> ln_on l !! i = Some mode ->
    Z.testbit (INTENR (pn_exti x)) i = true /\
    Z.testbit (RTENR (pn_exti x)) i = rises mode /\ Z.testbit (FTENR (pn_exti x)) i = falls mode
}.

Definition pins_of (s : kst) : pins := dr_pins (k_drv s).
Definition upd_pins (v : pins) (s : kst) : kst := set_k_drv (set_dr_pins v (k_drv s)) s.

(** A statement on the sixteen lines, line by line. *)
Lemma lines_16 (P : Z -> Prop) : Forall P [0; 1; 2; 3; 4; 5; 6; 7; 8; 9; 10; 11; 12; 13; 14; 15] -> forall i, 0 <= i < 16 -> P i.
Proof.
  intros H i Hi. rewrite Forall_forall in H. apply H. change [_; _; _; _; _; _; _; _; _; _; _; _; _; _; _; _] with (seqZ 0 16).
  apply elem_of_seqZ. lia.
Qed.

Lemma get_pin_Some pin index : get_pin pin = Some index ->
  u8 pin < 80 /\ index = PinIndex (Z.to_nat (u8 pin / 16)) (Z.shiftl 1 (u8 pin mod 16)).
Proof.
  unfold get_pin, pins_table. rewrite list_lookup_fmap. pose proof (wrap_range 8 pin ltac:(lia)) as Hr.
  destruct (seq 0 80 !! Z.to_nat (u8 pin)) as [n|] eqn:E; [|done]. apply lookup_seq in E as [En Hn]. cbn [Nat.add] in En. intros Hx.
  change (Some (PinIndex (n / 16) (Z.shiftl 1 (Z.of_nat (n mod 16)))) = Some index) in Hx. apply Some_inj in Hx as <-. subst n.
  split; [lia|]. rewrite Nat2Z.inj_mod, Z2Nat.id by lia. f_equal.
  apply Nat2Z.inj. rewrite Nat2Z.inj_div, !Z2Nat.id by (try apply Z.div_pos; lia). done.
Qed.

Lemma get_pin_None pin : get_pin pin = None -> 80 <= u8 pin.
Proof.
  unfold get_pin. intros H%lookup_ge_None. change (length pins_table) with 80%nat in H. lia.
Qed.

(** The column that keeps a pin has 16 bits. *)
Lemma i16_u8 pin : u8 (i16 pin) = u8 pin.
Proof.
  unfold swrap, wrap. pose proof (Z.div_mod (pin + 2 ^ (16 - 1)) (2 ^ 16) ltac:(lia)) as Hd.
  replace ((pin + 2 ^ (16 - 1)) mod 2 ^ 16 - 2 ^ (16 - 1)) with (pin + (- 256 * ((pin + 2 ^ (16 - 1)) / 2 ^ 16)) * 2 ^ 8) by lia.
  apply Z_mod_plus_full.
Qed.

Lemma bit2bitno_bit i : 0 <= i < 16 -> bit2bitno (Z.shiftl 1 i) = i.
Proof.
  revert i. apply lines_16. by repeat constructor.
Qed.

Lemma irq_index_ok i g : 0 <= i < 16 -> irq_index (PinIndex g (Z.shiftl 1 i)) = Some i.
Proof. intros Hi. unfold irq_index. cbn [index_pin]. rewrite bit2bitno_bit by done. by rewrite (proj2 (Z.ltb_ge i 0)), (proj2 (Z.leb_gt 16 i)) by lia. Qed.

Lemma irq_bits i : 0 <= i < 16 -> exti_vector (pin_irqno i).
Proof. by exists i. Qed.

(** No bit of a mask below 2^16 in a group of pins. *)
Lemma no_bits m group lo hi : (forall i, 0 <= i -> Z.testbit group i = (lo <=? i) && (i <? hi)) ->
  (Z.land m group =? 0) = true <-> forall i, 0 <= i -> lo <= i < hi -> Z.testbit m i = false.
Proof.
  intros Hg. rewrite Z.eqb_eq. split.
  - intros E i Hi Hr. apply (f_equal (fun x => Z.testbit x i)) in E. rewrite Z.land_spec, Z.bits_0, Hg in E by done.
    rewrite (proj2 (Z.leb_le _ _)), (proj2 (Z.ltb_lt _ _)) in E by lia. by rewrite andb_true_r in E.
  - intros H. apply Z.bits_inj'. intros i Hi. rewrite Z.land_spec, Z.bits_0, Hg by done.
    destruct (Z.leb_spec lo i), (Z.ltb_spec i hi); rewrite ?andb_false_r; [by rewrite H by lia|done..].
Qed.

Lemma bits_5_9 i : 0 <= i -> Z.testbit PINS_5_9 i = (5 <=? i) && (i <? 10).
Proof.
  intros Hi. destruct (Z.lt_ge_cases i 16) as [l|l].
  - assert (0 <= i < 16) as Hr by lia. clear Hi. clear dependent l. revert i Hr. apply lines_16. by repeat constructor.
  - rewrite (testbit_above 16) by (unfold PINS_5_9; lia). by rewrite (proj2 (Z.ltb_ge i 10)), andb_false_r by lia.
Qed.
Lemma bits_10_15 i : 0 <= i -> Z.testbit PINS_10_15 i = (10 <=? i) && (i <? 16).
Proof.
  intros Hi. destruct (Z.lt_ge_cases i 16) as [l|l].
  - assert (0 <= i < 16) as Hr by lia. clear Hi. clear dependent l. revert i Hr. apply lines_16. by repeat constructor.
  - rewrite (testbit_above 16) by (unfold PINS_10_15; lia). by rewrite (proj2 (Z.ltb_ge i 16)), andb_false_r by lia.
Qed.

(** Which lines share a vector. *)
Lemma same_vector i j : 0 <= i < 16 -> 0 <= j < 16 ->
  pin_irqno j = pin_irqno i <-> (i < 5 /\ j = i) \/ (5 <= i < 10 /\ 5 <= j < 10) \/ (10 <= i /\ 10 <= j).
Proof.
  intros Hi Hj. unfold pin_irqno, EXTI0_IRQn, EXTI9_5_IRQn, EXTI15_10_IRQn.
  destruct (Z.ltb_spec i 5), (Z.ltb_spec i 10), (Z.ltb_spec j 5), (Z.ltb_spec j 10); lia.
Qed.

(** Whether [irq_off] switches a vector off: no other line of it is left. *)
Lemma irq_off_last m i : 0 <= i < 16 ->
  (if (0x0020 <=? Z.shiftl 1 i) && (Z.shiftl 1 i <=? 0x0200) then Z.land (Z.land m (Z.lnot (Z.shiftl 1 i))) PINS_5_9 =? 0
   else if (0x0400 <=? Z.shiftl 1 i) && (Z.shiftl 1 i <=? 0x8000) then Z.land (Z.land m (Z.lnot (Z.shiftl 1 i))) PINS_10_15 =? 0
   else true) = true <->
  forall j, 0 <= j < 16 -> pin_irqno j = pin_irqno i -> Z.testbit (Z.land m (Z.lnot (Z.shiftl 1 i))) j = false.
Proof.
  intros Hi. set (m' := Z.land m (Z.lnot (Z.shiftl 1 i))).
  assert ((0x0020 <=? Z.shiftl 1 i) && (Z.shiftl 1 i <=? 0x0200) = (5 <=? i) && (i <? 10) /\
          (0x0400 <=? Z.shiftl 1 i) && (Z.shiftl 1 i <=? 0x8000) = (10 <=? i)) as [-> ->].
  { clear m'. revert i Hi. apply lines_16. by repeat constructor. }
  destruct (Z.leb_spec 5 i), (Z.ltb_spec i 10), (Z.leb_spec 10 i); try lia; cbn [andb].
  - rewrite (no_bits m' _ _ _ bits_5_9). split; intros Hb j.
    + intros Hj Hv. apply Hb; [lia|]. apply same_vector in Hv; lia.
    + intros Hj Hr. apply Hb; [lia|]. apply same_vector; lia.
  - rewrite (no_bits m' _ _ _ bits_10_15). split; intros Hb j.
    + intros Hj Hv. apply Hb; [lia|]. apply same_vector in Hv; lia.
    + intros Hj Hr. apply Hb; [lia|]. apply same_vector; lia.
  - split; [|done]. intros _ j Hj Hv. apply same_vector in Hv; [|lia..]. assert (j = i) as -> by lia.
    unfold m'. rewrite Z.land_spec, Z.lnot_spec, testbit_shiftl1, bool_decide_eq_true_2 by lia. apply andb_false_r.
Qed.

(** ** The operations keep it *)

Lemma put_pins_run v s : put_pins v s = Ok tt (upd_pins v s).
Proof. done. Qed.
Lemma get_pins_run s : get_pins s = Ok (pins_of s) s.
Proof. done. Qed.

(** A computation that runs, keeps the invariant, and does [R] to the lines. *)
Definition does {A} (R : lines -> A -> lines -> Prop) (m : K A) : Prop :=
  forall l s, pins_ok l (pins_of s) -> exists a s' l', m s = Ok a s' /\ R l a l' /\ pins_ok l' (pins_of s').
(** Nothing; what a function says; a sequence of calls. *)
Definition nothing {A} (l : lines) (_ : A) (l' : lines) : Prop := l' = l.
Definition just {A} (f : lines -> A * lines) (l : lines) (a : A) (l' : lines) : Prop := f l = (a, l').
Definition some_calls {A} (l : lines) (_ : A) (l' : lines) : Prop := rtc irq_call l l'.

Lemma does_ret {A} (a : A) : does nothing (mret a).
Proof. intros l s Hs. by exists a, s, l. Qed.
Lemma does_bind {A B} (R : lines -> B -> lines -> Prop) (m : K A) (f : A -> K B) :
  does nothing m -> (forall a, does R (f a)) -> does R (m ≫= f).
Proof.
  intros Hm Hf l s Hs. destruct (Hm l s Hs) as (a & s1 & l1 & E & -> & Hs1). rewrite (run_bind _ _ _ _ _ E). by apply Hf.
Qed.
Lemma does_calls {A B} (m : K A) (f : A -> K B) : does some_calls m -> (forall a, does some_calls (f a)) -> does some_calls (m ≫= f).
Proof.
  intros Hm Hf l s Hs. destruct (Hm l s Hs) as (a & s1 & l1 & E & H1 & Hs1). rewrite (run_bind _ _ _ _ _ E).
  destruct (Hf a l1 s1 Hs1) as (b & s2 & l2 & E2 & H2 & Hs2). exists b, s2, l2. split; [done|]. split; [unfold some_calls in *; by etrans|done].
Qed.
Lemma does_same {A} (m : K A) : does nothing m -> does some_calls m.
Proof. intros Hm l s Hs. destruct (Hm l s Hs) as (a & s1 & l1 & E & -> & Hs1). exists a, s1, l. split; [done|]. split; [apply rtc_refl|done]. Qed.
Lemma does_nest f : does nothing (modify (fun s => set_k_nest (f s) s)).
Proof. intros l s Hs. by eexists tt, _, l. Qed.
Lemma does_check : does nothing check_pin_ops.
Proof. intros l s Hs. exists tt, s, l. unfold check_pin_ops. rewrite (run_bind _ _ _ _ _ (get_pins_run s)). by rewrite (po_ops _ _ Hs). Qed.

Lemma on_port_run gpio f l s : pins_ok l (pins_of s) -> (gpio < 5)%nat -> exists ports,
  on_port gpio f s = Ok tt (upd_pins (set_pn_ports ports (pins_of s)) s) /\ pins_ok l (set_pn_ports ports (pins_of s)).
Proof.
  intros Hs Hg. destruct (lookup_lt_is_Some_2 (pn_ports (pins_of s)) gpio) as [p Hp]; [by rewrite (po_ports _ _ Hs)|].
  exists (<[gpio := f p]> (pn_ports (pins_of s))). unfold on_port. rewrite (run_bind _ _ _ _ _ (get_pins_run s)), Hp. split; [done|].
  destruct Hs. split; try done. cbn. by rewrite length_insert.
Qed.

Lemma on_pin_ok pin index f : get_pin pin = Some index -> does nothing (on_port (index_gpio index) f).
Proof.
  intros [Hn ->]%get_pin_Some l s Hs. pose proof (wrap_range 8 pin ltac:(lia)). cbn [index_gpio].
  destruct (on_port_run (Z.to_nat (u8 pin / 16)) f l s Hs) as (ports & E & Hok); [|by eexists _, _, l].
  assert (u8 pin / 16 < 5) by (apply Z.div_lt_upper_bound; lia). assert (0 <= u8 pin / 16) by (apply Z.div_pos; lia). lia.
Qed.

Lemma write_ok pin v : does nothing (ch32_pin_write pin v).
Proof. unfold ch32_pin_write. destruct (get_pin pin) eqn:E; [by eapply on_pin_ok|apply does_ret]. Qed.
Lemma mode_ok pin m : does nothing (ch32_pin_mode pin m).
Proof. unfold ch32_pin_mode. destruct (get_pin pin) eqn:E; [by eapply on_pin_ok|apply does_ret]. Qed.
Lemma read_ok pin : does nothing (ch32_pin_read pin).
Proof.
  unfold ch32_pin_read. destruct (get_pin pin) as [index|] eqn:E; [|apply does_ret]. intros l s Hs.
  apply get_pin_Some in E as [Hn ->]. pose proof (wrap_range 8 pin ltac:(lia)). rewrite (run_bind _ _ _ _ _ (get_pins_run s)). cbn [index_gpio].
  destruct (lookup_lt_is_Some_2 (pn_ports (pins_of s)) (Z.to_nat (u8 pin / 16))) as [p ->]; [|by eexists _, s, l].
  rewrite (po_ports _ _ Hs). assert (u8 pin / 16 < 5) by (apply Z.div_lt_upper_bound; lia). lia.
Qed.

Lemma irq_row_run i l s : pins_ok l (pins_of s) -> 0 <= i < 16 -> exists h,
  irq_row i s = Ok h s /\ pin_irq_hdr_tab (pins_of s) !! Z.to_nat i = Some h.
Proof.
  intros Hs Hi. destruct (lookup_lt_is_Some_2 (pin_irq_hdr_tab (pins_of s)) (Z.to_nat i)) as [h Hh]; [rewrite (po_tab _ _ Hs); lia|].
  exists h. unfold irq_row. rewrite (run_bind _ _ _ _ _ (get_pins_run s)). by rewrite Hh.
Qed.

(** The row is free, or it holds the handler of its line. *)
Lemma row_cases i l s h : pins_ok l (pins_of s) -> 0 <= i -> pin_irq_hdr_tab (pins_of s) !! Z.to_nat i = Some h ->
  if decide (irq_pin h = -1) then ln_rows l !! i = None else ln_rows l !! i = Some h.
Proof.
  intros Hs Hi Hh. pose proof (po_rows _ _ Hs _ _ Hh) as H. rewrite Z2Nat.id in H by lia. by case_decide; apply H.
Qed.

Lemma put_row_ok i h l rows s : pins_ok l (pins_of s) -> 0 <= i < 16 ->
  (if decide (irq_pin h = -1) then irq_hdr h = None /\ rows !! i = None
   else u8 (irq_pin h) < 80 /\ u8 (irq_pin h) mod 16 = i /\ rows !! i = Some h) ->
  (forall j, j <> i -> rows !! j = ln_rows l !! j) ->
  exists s', put_irq_row i h s = Ok tt s' /\ pins_ok (Lines rows (ln_on l)) (pins_of s').
Proof.
  intros Hs Hi Hh Hrows. eexists. split; [unfold put_irq_row; by rewrite (run_bind _ _ _ _ _ (get_pins_run s))|].
  destruct Hs as [H1 H2 H3 H4 H5 H6 H7 H8]. split; try done; cbn; [by rewrite length_insert|].
  intros j h'. rewrite list_lookup_insert_Some. intros [(<- & -> & _)|[Hj' Hj]].
  - rewrite Z2Nat.id by lia. done.
  - rewrite Hrows by lia. by apply H5.
Qed.

Lemma attach_ok pin mode hdr args : does (just (attached pin mode hdr args)) (ch32_pin_attach_irq pin mode hdr args).
Proof.
  unfold ch32_pin_attach_irq, attached, pin_line, just. intros l s Hs. destruct (get_pin pin) as [index|] eqn:E.
  2:{ apply get_pin_None in E. rewrite (proj2 (Z.ltb_ge _ _)) by done. by eexists _, s, l. }
  apply get_pin_Some in E as [Hn ->]. rewrite (proj2 (Z.ltb_lt _ _)) by done.
  assert (0 <= u8 pin mod 16 < 16) as Hi by (apply Z.mod_pos_bound; lia). rewrite irq_index_ok by done.
  destruct (irq_row_run _ l s Hs Hi) as (h & Hrun & Hh). rewrite (run_bind _ _ _ _ _ Hrun).
  pose proof (row_cases _ l s h Hs (proj1 Hi) Hh) as Hrow.
  replace ((irq_pin h =? pin) && bool_decide (irq_hdr h = hdr) && (irq_mode h =? mode) && (irq_args h =? args))
    with (bool_decide (h = PinIrq pin mode hdr args)).
  2:{ apply eq_bool_prop_intro. destruct h as [p1 m1 h1 a1]. cbn. rewrite bool_decide_spec, !andb_True, bool_decide_spec, !Is_true_true, !Z.eqb_eq.
      split; [by intros [= -> -> -> ->]|by intros [[[-> ->] ->] ->]]. }
  destruct (decide (irq_pin h = -1)) as [Efree|Hused].
  - rewrite Hrow, bool_decide_eq_false_2.
    2:{ intros ->. cbn in Efree. subst pin. by vm_compute in Hn. }
    rewrite (proj2 (Z.eqb_eq _ _) Efree). cbn [negb].
    destruct (put_row_ok (u8 pin mod 16) (PinIrq (i16 pin) (u16 mode) hdr args) l
      (<[u8 pin mod 16 := PinIrq (i16 pin) (u16 mode) hdr args]> (ln_rows l)) s Hs Hi) as (s' & Hrun' & Hok).
    + cbn. pose proof (i16_u8 pin) as E8.
      destruct (decide (i16 pin = -1)) as [E1|]; [|rewrite E8; repeat split; [done|apply lookup_insert_eq]].
      exfalso. rewrite E1 in E8. rewrite <- E8 in Hn. by vm_compute in Hn.
    + intros j Hj. by rewrite lookup_insert_ne.
    + rewrite (run_bind _ _ _ _ _ Hrun'). by eexists _, s', _.
  - rewrite Hrow. rewrite (proj2 (Z.eqb_neq _ _) Hused). cbn [negb].
    destruct (decide (h = PinIrq pin mode hdr args)) as [D|D];
      [rewrite bool_decide_eq_true_2 by done|rewrite bool_decide_eq_false_2 by done]; by eexists _, s, l.
Qed.

Lemma detach_ok pin : does (just (detached pin)) (ch32_pin_dettach_irq pin).
Proof.
  unfold ch32_pin_dettach_irq, detached, pin_line, just. intros l s Hs. destruct (get_pin pin) as [index|] eqn:E.
  2:{ apply get_pin_None in E. rewrite (proj2 (Z.ltb_ge _ _)) by done. by eexists _, s, l. }
  apply get_pin_Some in E as [Hn ->]. rewrite (proj2 (Z.ltb_lt _ _)) by done.
  assert (0 <= u8 pin mod 16 < 16) as Hi by (apply Z.mod_pos_bound; lia). rewrite irq_index_ok by done.
  destruct (irq_row_run _ l s Hs Hi) as (h & Hrun & Hh). rewrite (run_bind _ _ _ _ _ Hrun).
  pose proof (row_cases _ l s h Hs (proj1 Hi) Hh) as Hrow. destruct (Z.eqb_spec (irq_pin h) (-1)) as [Efree|Hused].
  - rewrite decide_True in Hrow by done. eexists _, s, _. split; [done|]. split; [done|].
    rewrite delete_id by done. by destruct l.
  - destruct (put_row_ok (u8 pin mod 16) (PinIrq (-1) 0 None 0) l (delete (u8 pin mod 16) (ln_rows l)) s Hs Hi) as (s' & Hrun' & Hok).
    + cbn. split; [done|]. apply lookup_delete_eq.
    + intros j Hj. by rewrite lookup_delete_ne.
    + rewrite (run_bind _ _ _ _ _ Hrun'). by eexists _, s', _.
Qed.

Lemma irq_off_ok i : 0 <= i < 16 -> does (just (fun l => (tt, Lines (ln_rows l) (delete i (ln_on l))))) (irq_off i).
Proof.
  intros Hi l s Hs. unfold irq_off. rewrite (run_bind _ _ _ _ _ (get_pins_run s)). eexists tt, _, _. split; [done|]. split; [done|].
  pose proof (irq_off_last (pin_irq_enable_mask (pins_of s)) i Hi) as Hlast. cbv zeta.
  set (m := Z.land (pin_irq_enable_mask (pins_of s)) (Z.lnot (Z.shiftl 1 i))) in *. set (off := if _ && _ then _ else _) in *.
  assert (forall j, 0 <= j -> Z.testbit m j = Z.testbit (pin_irq_enable_mask (pins_of s)) j && negb (bool_decide (j = i))) as Hm.
  { intros j Hj. unfold m. by rewrite Z.land_spec, Z.lnot_spec, testbit_shiftl1 by lia. }
  destruct Hs as [H1 H2 H3 H4 H5 H6 H7 H8].
  assert (forall j, 0 <= j < 16 -> Z.testbit m j = bool_decide (is_Some (delete i (ln_on l) !! j))) as Hmask.
  { intros j Hj. rewrite Hm, H7 by lia. destruct (decide (j = i)) as [->|Hne].
    - rewrite lookup_delete_eq, (bool_decide_eq_true_2 (i = i)) by done. rewrite andb_false_r. symmetry. apply bool_decide_eq_false_2. by intros [? ?].
    - rewrite lookup_delete_ne by done. rewrite (bool_decide_eq_false_2 (j = i)) by done. apply andb_true_r. }
  assert (forall j mode, 0 <= j < 16 -> delete i (ln_on l) !! j = Some mode -> ln_on l !! j = Some mode) as Hl.
  { intros j mode _. rewrite lookup_delete_Some. by intros [_ ?]. }
  destruct off; (split; [done..|cbn|exact Hmask|cbn; intros j mode Hj E; apply H8; auto]); intros v Hv; rewrite ?(H6 v Hv).
  - unfold NVIC_DisableIRQ. rewrite elem_of_difference, elem_of_singleton, (H6 v Hv). split.
    + intros [(j & Hj & E & <-) Hne]. exists j. split; [done|]. split; [|done]. rewrite Hm, E by lia.
      rewrite bool_decide_eq_false_2; [done|]. by intros ->.
    + intros (j & Hj & E & <-). split; [exists j; rewrite Hm in E by lia; apply andb_true_iff in E as [E _]; done|].
      intros Ev. rewrite (proj1 Hlast eq_refl j Hj Ev) in E. done.
  - split.
    + intros (j & Hj & E & <-). destruct (decide (pin_irqno j = pin_irqno i)) as [Ev|Ev].
      * destruct (decide (Exists (fun k => pin_irqno k = pin_irqno i /\ Z.testbit m k = true) (seqZ 0 16))) as [(k & Hk & Evk & Ek)%Exists_exists|Hno].
        -- exists k. apply elem_of_seqZ in Hk. split; [lia|]. split; [done|congruence].
        -- exfalso. assert (false = true); [|done]. apply Hlast. intros k Hk Evk.
           destruct (Z.testbit m k) eqn:Ek; [|done]. exfalso. apply Hno. apply Exists_exists. exists k. split; [apply elem_of_seqZ; lia|done].
      * exists j. split; [done|]. split; [|done]. rewrite Hm, E by lia. rewrite bool_decide_eq_false_2; [done|]. by intros ->.
    + intros (j & Hj & E & <-). exists j. rewrite Hm in E by lia. apply andb_true_iff in E as [E _]. done.
Qed.

(** [EXTI_Init] with the edges of a mode. *)
Lemma exti_init_run line mode e : exists e', EXTI_Init (ExtiInit line EXTI_Mode_Interrupt (irq_trigger mode).2 true) e = Some e' /\
  INTENR e' = Z.lor (INTENR e) line /\
  RTENR e' = (if rises mode then Z.lor (RTENR e) line else Z.land (RTENR e) (Z.lnot line)) /\
  FTENR e' = (if falls mode then Z.lor (FTENR e) line else Z.land (FTENR e) (Z.lnot line)).
Proof.
  assert (forall r, Z.lor (Z.land r (Z.lnot line)) line = Z.lor r line) as El.
  { intros r. bitwise i. destruct (Z.testbit r i), (Z.testbit line i); done. }
  unfold irq_trigger, rises, falls, PIN_IRQ_MODE_RISING, PIN_IRQ_MODE_FALLING, PIN_IRQ_MODE_RISING_FALLING.
  destruct (Z.eqb_spec mode 0x00) as [->|]; [|destruct (Z.eqb_spec mode 0x01) as [->|]; [|destruct (Z.eqb_spec mode 0x02) as [->|]]];
    cbn; eexists; (split; [done|]); cbn; rewrite ?El; [done..|].
  rewrite <- Z.lor_assoc, Z.lor_diag. done.
Qed.

(** A bit set or cleared in a register. *)
Lemma testbit_put (b : bool) r i j : 0 <= i -> 0 <= j ->
  Z.testbit (if b then Z.lor r (Z.shiftl 1 i) else Z.land r (Z.lnot (Z.shiftl 1 i))) j =
  if decide (j = i) then b else Z.testbit r j.
Proof.
  intros Hi Hj. destruct b; rewrite ?Z.lor_spec, ?Z.land_spec, ?Z.lnot_spec, testbit_shiftl1 by lia; destruct (decide (j = i)) as [->|Hne].
  - rewrite bool_decide_eq_true_2 by done. apply orb_true_r.
  - rewrite bool_decide_eq_false_2 by done. apply orb_false_r.
  - rewrite bool_decide_eq_true_2 by done. apply andb_false_r.
  - rewrite bool_decide_eq_false_2 by done. apply andb_true_r.
Qed.

Lemma irq_on_ok pin index h : get_pin pin = Some index ->
  does (just (fun l => (tt, Lines (ln_rows l) (<[u8 pin mod 16 := irq_mode h]> (ln_on l))))) (irq_on index (u8 pin mod 16) h).
Proof.
  intros E l s Hs. pose proof E as [Hn ->]%get_pin_Some. assert (0 <= u8 pin mod 16 < 16) as Hi by (apply Z.mod_pos_bound; lia).
  set (i := u8 pin mod 16) in *. pose proof (wrap_range 8 pin ltac:(lia)). cbn [index_gpio index_pin].
  unfold irq_on. destruct (irq_trigger (irq_mode h)) as [gpio_mode trigger] eqn:Et. cbn [index_gpio index_pin].
  destruct (on_port_run (Z.to_nat (u8 pin / 16)) (GPIO_Init (GpioInit (Z.shiftl 1 i) GPIO_Speed_50MHz gpio_mode)) l s Hs) as (ports & Hrun & Hok).
  { assert (u8 pin / 16 < 5) by (apply Z.div_lt_upper_bound; lia). assert (0 <= u8 pin / 16) by (apply Z.div_pos; lia). lia. }
  rewrite (run_bind _ _ _ _ _ Hrun), (run_bind _ _ _ _ _ (get_pins_run _)). set (x := pins_of (upd_pins _ s)).
  change (pins_ok l x) in Hok. clearbody x. unfold GPIO_EXTILineConfig, aget, aset.
  assert (Z.to_nat (Z.shiftr i 2) < 4)%nat as Hk.
  { rewrite Z.shiftr_div_pow2 by lia. assert (i / 2 ^ 2 < 4) by (apply Z.div_lt_upper_bound; lia). lia. }
  destruct (lookup_lt_is_Some_2 (pn_exticr x) (Z.to_nat (Z.shiftr i 2))) as [r Hr]; [by rewrite (po_exticr _ _ Hok)|].
  rewrite Hr. cbn [mbind option_bind]. rewrite (proj2 (Nat.ltb_lt _ _)) by (by rewrite (po_exticr _ _ Hok)). cbn [lift].
  erewrite run_bind by done.
  destruct (exti_init_run (Z.shiftl 1 i) (irq_mode h) (pn_exti x)) as (e & Ee & Hen & Hre & Hfe). rewrite Et in Ee. cbn [snd] in Ee. rewrite Ee.
  erewrite run_bind by done. eexists tt, _, _. split; [done|]. split; [done|].
  assert (forall j, 0 <= j -> Z.testbit (Z.lor (pin_irq_enable_mask x) (Z.shiftl 1 i)) j = Z.testbit (pin_irq_enable_mask x) j || bool_decide (j = i)) as Hm.
  { intros j Hj. by rewrite Z.lor_spec, testbit_shiftl1 by lia. }
  destruct Hok as [H1 H2 H3 H4 H5 H6 H7 H8].
  split; [done|done|cbn; by rewrite length_insert|done|done|cbn..].
  - intros v Hv. unfold NVIC_EnableIRQ. rewrite elem_of_union, elem_of_singleton, (H6 v Hv). split.
    + intros [->|(j & Hj & Ej & <-)].
      * exists i. split; [done|]. rewrite Hm, bool_decide_eq_true_2 by lia. split; [apply orb_true_r|done].
      * exists j. split; [done|]. by rewrite Hm, Ej by lia.
    + intros (j & Hj & Ej & <-). rewrite Hm in Ej by lia. apply orb_true_iff in Ej as [Ej|Ej]; [right; by exists j|left]. apply bool_decide_eq_true in Ej. by subst j.
  - intros j Hj. rewrite Hm, H7 by lia. destruct (decide (j = i)) as [->|Hne].
    + rewrite lookup_insert_eq, (bool_decide_eq_true_2 (i = i)) by done. rewrite orb_true_r. symmetry. by apply bool_decide_eq_true_2.
    + rewrite lookup_insert_ne by done. rewrite (bool_decide_eq_false_2 (j = i)) by done. apply orb_false_r.
  - intros j mode Hj. rewrite lookup_insert_Some. rewrite Hen, Hre, Hfe, Z.lor_spec, testbit_shiftl1, !testbit_put by lia.
    intros [[<- <-]|[Hne Ej]].
    + rewrite !decide_True by done. rewrite (bool_decide_eq_true_2 (i = i)) by done. by rewrite orb_true_r.
    + rewrite !(decide_False (P := j = i)) by done. destruct (H8 j mode Hj Ej) as (-> & -> & ->). done.
Qed.

Lemma irq_enable_ok pin enabled : does (just (switched pin enabled)) (ch32_pin_irq_enable pin enabled).
Proof.
  unfold ch32_pin_irq_enable, switched, pin_line, just. intros l s Hs. destruct (get_pin pin) as [index|] eqn:E.
  2:{ apply get_pin_None in E. rewrite (proj2 (Z.ltb_ge _ _)) by done. by eexists _, s, l. }
  pose proof E as [Hn Ei]%get_pin_Some. rewrite (proj2 (Z.ltb_lt _ _)) by done.
  assert (0 <= u8 pin mod 16 < 16) as Hi by (apply Z.mod_pos_bound; lia). assert (irq_index index = Some (u8 pin mod 16)) as -> by (subst; by apply irq_index_ok).
  destruct (_ =? PIN_IRQ_ENABLE); [|destruct (_ =? PIN_IRQ_DISABLE); [|by eexists _, s, l]].
  - destruct (irq_row_run _ l s Hs Hi) as (h & Hrun & Hh). rewrite (run_bind _ _ _ _ _ Hrun).
    pose proof (row_cases _ l s h Hs (proj1 Hi) Hh) as Hrow. destruct (Z.eqb_spec (irq_pin h) (-1)) as [Ef|Hu].
    + rewrite decide_True in Hrow by done. rewrite Hrow. by eexists _, s, l.
    + rewrite decide_False in Hrow by done. rewrite Hrow.
      destruct (irq_on_ok pin index h E l s Hs) as ([] & s' & l' & Hon & [= <-] & Hok). rewrite (run_bind _ _ _ _ _ Hon).
      by eexists _, s', _.
  - destruct (irq_off_ok _ Hi l s Hs) as ([] & s' & l' & Hoff & [= <-] & Hok). rewrite (run_bind _ _ _ _ _ Hoff).
    by eexists _, s', _.
Qed.

(** ** Sequences of calls and interrupts *)
Section calls.
Context `{PinHandler}.

(** A call of a thread, or something that the hardware does: new values of the
    pending register and of the inputs, and the interrupts. *)
Inductive pin_call :=
| Pin_mode (pin mode : Z)
| Pin_write (pin value : Z)
| Pin_read (pin : Z)
| Pin_attach (pin mode : Z) (hdr : option positive) (args : Z)
| Pin_detach (pin : Z)
| Pin_enable (pin enabled : Z)
| Signals (intfr : Z) (indr : Z -> Z)
| Line_irq (n : Z)
| Lines_9_5_irq.

Definition signals (intfr : Z) (indr : Z -> Z) : K unit :=
  x ← get_pins;
  let e := pn_exti x in
  put_pins (set_pn_exti (Exti (INTENR e) (EVENR e) (RTENR e) (FTENR e) intfr)
    (set_pn_ports (imap (fun i p => GpioPort (CFGLR p) (CFGHR p) (indr (Z.of_nat i)) (OUTDR p)) (pn_ports x)) x)).

Definition run_call (c : pin_call) : K Z :=
  match c with
  | Pin_mode pin mode => rt_pin_mode pin mode;; mret RT_EOK
  | Pin_write pin value => rt_pin_write pin value;; mret RT_EOK
  | Pin_read pin => rt_pin_read pin
  | Pin_attach pin mode hdr args => rt_pin_attach_irq pin mode hdr args
  | Pin_detach pin => rt_pin_detach_irq pin
  | Pin_enable pin enabled => rt_pin_irq_enable pin enabled
  | Signals intfr indr => signals intfr indr;; mret RT_EOK
  | Line_irq n => EXTIn_IRQHandler n;; mret RT_EOK
  | Lines_9_5_irq => EXTI9_5_IRQHandler;; mret RT_EOK
  end.
Fixpoint run_calls (calls : list pin_call) : K (list Z) :=
  match calls with
  | [] => mret []
  | c :: calls => r ← run_call c; rs ← run_calls calls; mret (r :: rs)
  end.

(** The interrupts that drv_gpio.c handles one by one are the lines 0 to 4. *)
Definition call_exists (c : pin_call) : Prop := match c with Line_irq n => 0 <= n < 5 | _ => True end.

(** A handler runs and may use the pins. *)
Context (handlers_ok : forall f args, does some_calls (pin_handler f args)).

Lemma callback_ok i : 0 <= i < 16 -> does some_calls (HAL_GPIO_EXTI_Callback (Z.shiftl 1 i)).
Proof.
  intros Hi l s Hs. unfold HAL_GPIO_EXTI_Callback, pin_irq_hdr. rewrite bit2bitno_bit, (proj2 (Z.ltb_ge i 0)) by lia.
  destruct (irq_row_run i l s Hs Hi) as (h & Hrun & _). rewrite (run_bind _ _ _ _ _ Hrun).
  destruct (irq_hdr h); [by apply handlers_ok|by apply (does_same _ (does_ret tt))].
Qed.

Lemma with_exti e l x : pins_ok l x -> INTENR e = INTENR (pn_exti x) -> RTENR e = RTENR (pn_exti x) -> FTENR e = FTENR (pn_exti x) ->
  pins_ok l (set_pn_exti e x).
Proof. intros [H1 H2 H3 H4 H5 H6 H7 H8] E1 E2 E3. split; try done. cbn. by rewrite E1, E2, E3. Qed.

Lemma clear_ok line : does nothing (clear_pending line).
Proof. intros l s Hs. eexists tt, _, l. split; [unfold clear_pending; by rewrite (run_bind _ _ _ _ _ (get_pins_run s))|]. split; [done|]. by apply with_exti. Qed.

Lemma pending_ok line : does nothing (line_pending line).
Proof. intros l s Hs. by eexists _, s, l. Qed.

Lemma line_irq_ok n : 0 <= n < 5 -> does some_calls (EXTIn_IRQHandler n).
Proof.
  intros Hn. apply does_bind; [apply does_nest|]. intros _. apply does_bind; [apply pending_ok|]. intros p.
  apply does_calls; [|intros _; apply does_same, does_nest]. destruct p; [|apply does_same, does_ret].
  apply does_calls; [apply callback_ok; lia|]. intros _. apply does_same, clear_ok.
Qed.

Lemma lines_9_5_ok : does some_calls EXTI9_5_IRQHandler.
Proof.
  apply does_bind; [apply does_nest|]. intros _. apply does_bind; [intros l s Hs; by eexists _, s, l|]. intros x.
  apply does_calls; [|intros _; apply does_same, does_nest]. destruct (_ || _); [|apply does_same, does_ret].
  repeat (apply does_calls; [apply callback_ok; lia|intros _]). apply does_same, clear_ok.
Qed.

Lemma signals_ok intfr indr : does nothing (signals intfr indr).
Proof.
  intros l s Hs. eexists tt, _, l. split; [unfold signals; by rewrite (run_bind _ _ _ _ _ (get_pins_run s))|]. split; [done|].
  apply with_exti; [|done..]. destruct Hs as [H1 H2 H3 H4 H5 H6 H7 H8].
  unfold pins_of in *. split; try done. cbn. by rewrite length_imap.
Qed.

(** What a call does to the lines, and what it returns. *)
Definition call_spec (c : pin_call) (l : lines) (r : Z) (l' : lines) : Prop :=
  match c with
  | Pin_attach pin mode hdr args => attached pin mode hdr args l = (r, l')
  | Pin_detach pin => detached pin l = (r, l')
  | Pin_enable pin enabled => switched pin enabled l = (r, l')
  | Line_irq _ | Lines_9_5_irq => rtc irq_call l l'
  | _ => l' = l
  end.
Inductive calls_spec : list pin_call -> lines -> list Z -> lines -> Prop :=
| calls_nil l : calls_spec [] l [] l
| calls_cons c calls l r l1 rs l2 : call_spec c l r l1 -> calls_spec calls l1 rs l2 ->
    calls_spec (c :: calls) l (r :: rs) l2.

Lemma run_call_ok c : call_exists c -> does (call_spec c) (run_call c).
Proof.
  destruct c; cbn [call_exists run_call]; intros Hc;
    unfold rt_pin_mode, rt_pin_write, rt_pin_read, rt_pin_attach_irq, rt_pin_detach_irq, rt_pin_irq_enable;
    try (apply does_bind; [first [apply signals_ok | apply does_bind; [apply does_check|intros []]; (apply mode_ok || apply write_ok)]|
           intros []; exact (does_ret RT_EOK)]);
    try (apply does_bind; [apply does_check|intros []]; (apply read_ok || apply attach_ok || apply detach_ok || apply irq_enable_ok));
    (apply (does_calls (B := Z)); [by apply line_irq_ok || apply lines_9_5_ok|intros []; apply does_same, does_ret]).
Qed.

(** C21: pins through every sequence of calls of rt_pin_mode, rt_pin_write,
    rt_pin_read, rt_pin_attach_irq, rt_pin_detach_irq and rt_pin_irq_enable,
    with any pin numbers and arguments, of changes of the signals and of the
    interrupts with their handlers, which may attach, detach, enable and
    disable pins themselves: no call accesses anything outside of the tables.
    The calls do to the lines, and return, what [attached], [detached] and
    [switched] say; at the end the handler table holds the handlers attached,
    a vector is enabled exactly when one of its lines is meant to be, and a
    line meant to be enabled is enabled in the interrupt controller with the
    edges of the mode it was last enabled for, rising, falling or both: a level
    mode has none, so a line enabled for one never interrupts. *)
Theorem pin_irqs_tracked calls l s : Forall call_exists calls -> pins_ok l (pins_of s) ->
  exists rs s' l', run_calls calls s = Ok rs s' /\ calls_spec calls l rs l' /\ pins_ok l' (pins_of s').
Proof.
  intros Hc. revert l s. induction Hc as [|c calls Hc _ IH]; intros l s Hs; cbn [run_calls].
  - exists [], s, l. split; [done|]. split; [constructor|done].
  - destruct (run_call_ok c Hc l s Hs) as (r & s1 & l1 & E1 & H1 & Hs1). destruct (IH l1 s1 Hs1) as (rs & s2 & l2 & E2 & H2 & Hs2).
    exists (r :: rs), s2, l2. rewrite (run_bind _ _ _ _ _ E1), (run_bind _ _ _ _ _ E2). split; [done|]. split; [by econstructor|done].
Qed.
End calls.

(** ** Concrete runs: the handlers write down whom they were called for *)
#[local] Instance demo_pin_handler : PinHandler := fun f args =>
  modify (fun s => set_k_mem (<[1%positive := default [] (k_mem s !! 1%positive) ++ [args]]> (k_mem s)) s).
Definition demo_pins : kst := upd_pins (set_pn_ops true reset_pins) empty_kst.
Definition calls_seen (s : kst) : list Z := default [] (k_mem s !! 1%positive).

Lemma reset_pins_ok : pins_ok (Lines ∅ ∅) (set_pn_ops true reset_pins).
Proof.
  split; try done.
  - intros i h. cbn -[replicate]. intros [-> _]%lookup_replicate. done.
  - intros v Hv. cbn. split; [by intros ?%elem_of_empty|]. intros (i & Hi & E & _). by rewrite Z.bits_0 in E.
  - intros i _. apply Z.bits_0.
Qed.

(** A signal on pin 5 alone: the handler of pin 7 is called too. *)
Example other_pin_called : exists rs s,
  run_calls [Pin_attach 5 0 (Some 1%positive) 5; Pin_enable 5 1; Pin_attach 7 0 (Some 1%positive) 7; Pin_enable 7 1;
             Signals (Z.shiftl 1 5) (fun _ => 0); Lines_9_5_irq] demo_pins = Ok rs s /\ calls_seen s = [5; 7].
Proof. do 2 eexists. split; [by vm_compute|done]. Qed.

(** Pin 5 disabled again: its signal still interrupts, and its handler is
    called. *)
Example disabled_pin_called : exists rs s,
  run_calls [Pin_attach 5 0 (Some 1%positive) 5; Pin_enable 5 1; Pin_attach 7 0 (Some 1%positive) 7; Pin_enable 7 1;
             Pin_enable 5 0; Signals (Z.shiftl 1 5) (fun _ => 0); Lines_9_5_irq] demo_pins = Ok rs s /\
  calls_seen s = [5; 7] /\ EXTI9_5_IRQn ∈ pn_vectors (pins_of s).
Proof. do 2 eexists. split; [by vm_compute|]. split; [done|]. apply (bool_decide_unpack _). by vm_compute. Qed.

(** Pin 17 (PB1) detached: pin 1 (PA1) has lost its handler. *)
Example detached_by_other_port : exists rs s,
  run_calls [Pin_attach 1 0 (Some 1%positive) 1; Pin_detach 17; Pin_attach 1 0 (Some 1%positive) 1; Pin_attach 17 0 (Some 1%positive) 17] demo_pins =
  Ok rs s /\ rs = [RT_EOK; RT_EOK; RT_EOK; RT_EBUSY].
Proof. do 2 eexists. split; by vm_compute. Qed.

(** A level mode is accepted, and no edge ever triggers. *)
Example level_mode_dead : exists rs s,
  run_calls [Pin_attach 3 3 (Some 1%positive) 3; Pin_enable 3 1] demo_pins = Ok rs s /\ rs = [RT_EOK; RT_EOK] /\
  RTENR (pn_exti (pins_of s)) = 0 /\ FTENR (pn_exti (pins_of s)) = 0.
Proof. do 2 eexists. split; [by vm_compute|done]. Qed.

(** Pin 257 is pin 1. *)
Example pin_number_cut : exists rs s,
  run_calls [Pin_write 257 1] demo_pins = Ok rs s /\ (OUTDR <$> pn_ports (pins_of s) !! 0%nat) = Some 2.
Proof. do 2 eexists. split; [by vm_compute|done]. Qed.

Lemma demo_handlers_ok f args : does some_calls (pin_handler f args).
Proof. intros l s Hs. eexists tt, _, l. split; [done|]. split; [apply rtc_refl|exact Hs]. Qed.

(** Pin 5 is enabled for both edges, disabled, and pin 2 enabled for its rising
    edge. *)
Lemma pin_irqs_tracked_witness : exists rs s l,
  run_calls [Pin_attach 5 2 None 5; Pin_enable 5 1; Pin_enable 5 0; Pin_attach 2 0 None 2; Pin_enable 2 1] demo_pins = Ok rs s /\
  rs = [RT_EOK; RT_EOK; RT_EOK; RT_EOK; RT_EOK] /\ pins_ok l (pins_of s).
Proof.
  destruct (pin_irqs_tracked demo_handlers_ok
    [Pin_attach 5 2 None 5; Pin_enable 5 1; Pin_enable 5 0; Pin_attach 2 0 None 2; Pin_enable 2 1] (Lines ∅ ∅) demo_pins)
    as (rs & s & l & E & _ & Hok).
  - by repeat constructor.
  - exact reset_pins_ok.
  - exists rs, s, l. split; [exact E|]. split; [|exact Hok]. vm_compute in E. by injection E as <- _.
Defined.
