(* ===== verification/I2c.v ===== *)
(** * I2C buses in software (rt-thread/components/drivers/i2c/: i2c-bit-ops.c,
    i2c_core.c, i2c_dev.c; libraries/hal_drivers/drv_soft_i2c.c)

    Two pins, the clock SCL and the data line SDA, are set and read one at a
    time; each access is a section, and any time can pass between two of them,
    so the short waits ([i2c_delay], [ch32_udelay]) are no steps.  A line is
    high when nobody pulls it low: [get_sda] and [get_scl] read what the pin
    shows, which is up to the devices on the bus.  A device that holds SCL low
    makes [SCL_H] wait, up to a timeout. *)
From stdpp Require Import strings.
From S2P Require Import Prelude DevState KState Scheduler Object Timer Proc Thread Ipc Mutex Printf Device Pin.
#[local] Open Scope Z_scope.

Definition RT_I2C_WR : Z := 0x0000.
Definition RT_I2C_RD : Z := 0x0001.
Definition RT_I2C_ADDR_10BIT : Z := 0x0004.
Definition RT_I2C_NO_START : Z := 0x0010.
Definition RT_I2C_IGNORE_NACK : Z := 0x0020.
Definition RT_I2C_NO_READ_ACK : Z := 0x0040.
Definition RT_I2C_NO_STOP : Z := 0x0080.
Definition RT_I2C_DEV_CTRL_10BIT : Z := 0x20.
Definition RT_I2C_DEV_CTRL_ADDR : Z := 0x21.
Definition RT_I2C_DEV_CTRL_TIMEOUT : Z := 0x22.
Definition RT_I2C_DEV_CTRL_RW : Z := 0x23.
Definition RT_I2C_DEV_CTRL_CLK : Z := 0x24.
Definition RT_Device_Class_I2CBUS : Z := 8.

(** [struct rt_i2c_msg] with the bytes of its buffer. *)
Record rt_i2c_msg := I2cMsg { msg_addr : Z; msg_flags : Z; msg_len : Z; msg_buf : list Z }.
Definition set_msg_buf (v : list Z) (m : rt_i2c_msg) : rt_i2c_msg := I2cMsg (msg_addr m) (msg_flags m) (msg_len m) v.

Definition get_i2c (bus : ptr) : K rt_i2c_bus_device := fun s => lift (dr_i2cs (k_drv s) !! bus) s.
Definition put_i2c (bus : ptr) (b : rt_i2c_bus_device) : K unit :=
  modify (fun s => set_k_drv (set_dr_i2cs (<[bus := b]> (dr_i2cs (k_drv s))) (k_drv s)) s).

(** ** The pins (drv_soft_i2c.c) *)
Definition i2c_pins (bus : ptr) : K (Z * Z) := b ← get_i2c bus; lift (i2c_priv b).
Definition ch32_set_sda (bus : ptr) (state : Z) : K unit :=
  cfg ← i2c_pins bus; rt_pin_write (snd cfg) (if negb (state =? 0) then PIN_HIGH else PIN_LOW).
Definition ch32_set_scl (bus : ptr) (state : Z) : K unit :=
  cfg ← i2c_pins bus; rt_pin_write (fst cfg) (if negb (state =? 0) then PIN_HIGH else PIN_LOW).
Definition ch32_get_sda (bus : ptr) : K Z := cfg ← i2c_pins bus; rt_pin_read (snd cfg).
Definition ch32_get_scl (bus : ptr) : K Z := cfg ← i2c_pins bus; rt_pin_read (fst cfg).
(** [ch32_bit_ops_default.timeout] *)
Definition ops_timeout : Z := 100.

(** ** Bits and bytes (i2c-bit-ops.c) *)
Section i2c.
Context `{CleanupCall} `{DriverOps}.

(** [LOG_I], [LOG_W] and [LOG_E]. *)
Definition i2c_log (level text : list Z) : proc unit :=
  (rt_kputs (codes "["%string ++ level ++ codes "/I2C] "%string) ~; rt_kputs text ~; rt_kputs [10])%proc.
Definition LOG_W (text : String.string) : proc unit := i2c_log [87] (codes text).
Definition LOG_E (text : String.string) : proc unit := i2c_log [69] (codes text).

Definition SDA_L (bus : ptr) : proc unit := atomic (ch32_set_sda bus 0).
Definition SDA_H (bus : ptr) : proc unit := atomic (ch32_set_sda bus 1).
Definition SCL_L (bus : ptr) : proc unit := atomic (ch32_set_scl bus 0).

Definition SCL_H (bus : ptr) : proc Z :=
  (atomic (ch32_set_scl bus 1) ~;
   start <~ atomic rt_tick_get;
   loop (fun _ : unit =>
     scl <~ atomic (ch32_get_scl bus);
     if negb (scl =? 0) then Ret (inr RT_EOK)
     else
       now <~ atomic rt_tick_get;
       if ops_timeout <? u32 (now - start) then Ret (inr (- RT_ETIMEOUT))
       else rt_thread_delay (Z.shiftr (ops_timeout + 1) 1) ~; Ret (inl tt)) tt)%proc.

Definition i2c_start (bus : ptr) : proc unit := (SDA_L bus ~; SCL_L bus)%proc.
Definition i2c_restart (bus : ptr) : proc unit := (SDA_H bus ~; SCL_H bus ~; SDA_L bus ~; SCL_L bus)%proc.
Definition i2c_stop (bus : ptr) : proc unit := (SDA_L bus ~; SCL_H bus ~; SDA_H bus)%proc.

Definition i2c_waitack (bus : ptr) : proc Z :=
  (SDA_H bus ~;
   r <~ SCL_H bus;
   if r <? 0 then LOG_W "wait ack timeout" ~; Ret (- RT_ETIMEOUT)
   else
     sda <~ atomic (ch32_get_sda bus);
     SCL_L bus ~;
     Ret (if sda =? 0 then 1 else 0))%proc.

(** The loop over the bits below bit [n]; [false] after a timeout. *)
Fixpoint write_bits (bus : ptr) (n : nat) (data : Z) : proc bool :=
  match n with
  | O => Ret true
  | S n =>
      (SCL_L bus ~;
       atomic (ch32_set_sda bus (Z.land (Z.shiftr data (Z.of_nat n)) 1)) ~;
       r <~ SCL_H bus;
       if r <? 0 then Ret false else write_bits bus n data)%proc
  end.
(** 1 for an acknowledgement, 0 for none, or the error. *)
Definition i2c_writeb (bus : ptr) (data : Z) : proc Z :=
  (ok <~ write_bits bus 8 data;
   if ok : bool then SCL_L bus ~; i2c_waitack bus else Ret (- RT_ETIMEOUT))%proc.

Fixpoint read_bits (bus : ptr) (n : nat) (data : Z) : proc Z :=
  match n with
  | O => Ret data
  | S n =>
      (let data := u8 (Z.shiftl data 1) in
       r <~ SCL_H bus;
       if r <? 0 then Ret (- RT_ETIMEOUT)
       else
         sda <~ atomic (ch32_get_sda bus);
         SCL_L bus ~;
         read_bits bus n (if negb (sda =? 0) then Z.lor data 1 else data))%proc
  end.
Definition i2c_readb (bus : ptr) : proc Z := (SDA_H bus ~; read_bits bus 8 0)%proc.

(** *** Messages *)
Definition flag_set (flags f : Z) : bool := negb (Z.land flags f =? 0).

(** The loop over [count] bytes, from byte [i] of the buffer. *)
Fixpoint send_bytes_loop (bus : ptr) (ignore_nack : bool) (buf : list Z) (count i : nat) : proc Z :=
  match count with
  | O => Ret (Z.of_nat i)
  | S count =>
      (byte <~ atomic (lift (aget buf i));
       ret <~ i2c_writeb bus byte;
       if (0 <? ret) || (ignore_nack && (ret =? 0)) then send_bytes_loop bus ignore_nack buf count (S i)
       else if ret =? 0 then Ret 0
       else
         text <~ atomic (lift (expand no_strings (codes "send bytes: error %d"%string) [u32 ret]));
         i2c_log [69] text ~;
         Ret ret)%proc
  end.
Definition i2c_send_bytes (bus : ptr) (msg : rt_i2c_msg) : proc Z :=
  send_bytes_loop bus (flag_set (msg_flags msg) RT_I2C_IGNORE_NACK) (msg_buf msg) (Z.to_nat (msg_len msg)) 0.

Definition i2c_send_ack_or_nack (bus : ptr) (ack : Z) : proc Z :=
  ((if negb (ack =? 0) then SDA_L bus else Ret tt) ~;
   r <~ SCL_H bus;
   if r <? 0 then LOG_E "ACK or NACK timeout." ~; Ret (- RT_ETIMEOUT)
   else SCL_L bus ~; Ret RT_EOK)%proc.

(** The result and the buffer. *)
Fixpoint recv_loop (bus : ptr) (flags : Z) (buf : list Z) (count i : nat) : proc (Z * list Z) :=
  match count with
  | O => Ret (Z.of_nat i, buf)
  | S count =>
      (val <~ i2c_readb bus;
       if 0 <=? val then
         buf <~ atomic (lift (aset buf i (u8 val)));
         if flag_set flags RT_I2C_NO_READ_ACK then recv_loop bus flags buf count (S i)
         else
           val <~ i2c_send_ack_or_nack bus (Z.of_nat count);
           if val <? 0 then Ret (val, buf) else recv_loop bus flags buf count (S i)
       else Ret (Z.of_nat i, buf))%proc
  end.
Definition i2c_recv_bytes (bus : ptr) (msg : rt_i2c_msg) : proc (Z * list Z) :=
  recv_loop bus (msg_flags msg) (msg_buf msg) (Z.to_nat (msg_len msg)) 0.

(** The loop of [i2c_send_address], with [n] tries left. *)
Fixpoint address_loop (bus : ptr) (addr : Z) (n : nat) : proc Z :=
  match n with
  | O => Ret 0
  | S n =>
      (ret <~ i2c_writeb bus addr;
       if (ret =? 1) || match n with O => true | _ => false end then Ret ret
       else i2c_stop bus ~; i2c_start bus ~; address_loop bus addr n)%proc
  end.
Definition i2c_send_address (bus : ptr) (addr retries : Z) : proc Z :=
  address_loop bus addr (Z.to_nat (i32 retries + 1)).

Definition i2c_bit_send_address (bus : ptr) (msg : rt_i2c_msg) : proc Z :=
  let flags := msg_flags msg in
  let ignore_nack := flag_set flags RT_I2C_IGNORE_NACK in
  (bus_retries <~ atomic (b ← get_i2c bus; mret (i2c_retries b));
   let retries := if ignore_nack then 0 else bus_retries in
   if flag_set flags RT_I2C_ADDR_10BIT then
     let addr1 := Z.lor 0xf0 (Z.land (Z.shiftr (msg_addr msg) 7) 0x06) in
     ret <~ i2c_send_address bus addr1 retries;
     if negb (ret =? 1) && negb ignore_nack then LOG_W "NACK: sending first addr" ~; Ret (- RT_EIO)
     else
       ret <~ i2c_writeb bus (Z.land (msg_addr msg) 0xff);
       if negb (ret =? 1) && negb ignore_nack then LOG_W "NACK: sending second addr" ~; Ret (- RT_EIO)
       else if flag_set flags RT_I2C_RD then
         i2c_restart bus ~;
         ret <~ i2c_send_address bus (Z.lor addr1 0x01) retries;
         if negb (ret =? 1) && negb ignore_nack then LOG_E "NACK: sending repeated addr" ~; Ret (- RT_EIO)
         else Ret RT_EOK
       else Ret RT_EOK
   else
     let addr1 := u8 (Z.shiftl (msg_addr msg) 1) in
     let addr1 := if flag_set flags RT_I2C_RD then Z.lor addr1 1 else addr1 in
     ret <~ i2c_send_address bus addr1 retries;
     if negb (ret =? 1) && negb ignore_nack then Ret (- RT_EIO) else Ret RT_EOK)%proc.

(** The address of a message, sent after a start condition. *)
Definition xfer_address (bus : ptr) (first : bool) (msg : rt_i2c_msg) : proc Z :=
  if flag_set (msg_flags msg) RT_I2C_NO_START then Ret RT_EOK
  else
    ((if first then i2c_start bus else i2c_restart bus) ~;
     ret <~ i2c_bit_send_address bus msg;
     Ret (if negb (ret =? RT_EOK) && negb (flag_set (msg_flags msg) RT_I2C_IGNORE_NACK) then ret else RT_EOK))%proc.
(** Its bytes: [RT_EOK] or the error, and the buffer. *)
Definition xfer_bytes (bus : ptr) (msg : rt_i2c_msg) : proc (Z * list Z) :=
  if flag_set (msg_flags msg) RT_I2C_RD then
    (r <~ i2c_recv_bytes bus msg;
     Ret (if fst r <? msg_len msg then (if 0 <=? fst r then - RT_EIO else fst r) else RT_EOK, snd r))%proc
  else
    (ret <~ i2c_send_bytes bus msg;
     Ret (if ret <? msg_len msg then (if 0 <=? ret then - RT_ERROR else ret) else RT_EOK, msg_buf msg))%proc.

(** The loop over the messages, the [i]-th first: the result, the flags of the
    last one looked at, and the messages with their buffers afterwards. *)
Fixpoint xfer_loop (bus : ptr) (i : Z) (msgs : list rt_i2c_msg) (flags : Z) : proc (Z * Z * list rt_i2c_msg) :=
  match msgs with
  | [] => Ret (i, flags, [])
  | msg :: rest =>
      (ret <~ xfer_address bus (i =? 0) msg;
       if negb (ret =? RT_EOK) then Ret (ret, msg_flags msg, msgs)
       else
         r <~ xfer_bytes bus msg;
         let msg := set_msg_buf (snd r) msg in
         if negb (fst r =? RT_EOK) then Ret (fst r, msg_flags msg, msg :: rest)
         else
           x <~ xfer_loop bus (i + 1) rest (msg_flags msg);
           Ret (fst x, msg :: snd x))%proc
  end.
Definition i2c_bit_xfer (bus : ptr) (msgs : list rt_i2c_msg) : proc (Z * list rt_i2c_msg) :=
  match msgs with
  | [] => Ret (0, [])
  | _ =>
      (x <~ xfer_loop bus 0 msgs 0;
       let '(ret, flags, msgs) := x : Z * Z * list rt_i2c_msg in
       (if flag_set flags RT_I2C_NO_STOP then Ret tt else i2c_stop bus) ~;
       Ret (ret, msgs))%proc
  end.

(** ** The bus (i2c_core.c) *)
Definition rt_i2c_transfer (bus : ptr) (msgs : list rt_i2c_msg) : proc (Z * list rt_i2c_msg) :=
  (ops <~ atomic (b ← get_i2c bus; if i2c_ops b then mret tt else kfail BadPtr);
   rt_mutex_take (bus_lock bus) RT_WAITING_FOREVER ~;
   x <~ i2c_bit_xfer bus msgs;
   rt_mutex_release (bus_lock bus) ~;
   Ret x)%proc.

(** The bit operations have no [i2c_bus_control]. *)
Definition rt_i2c_control (bus : ptr) (cmd arg : Z) : proc Z :=
  (ops <~ atomic (b ← get_i2c bus; if i2c_ops b then mret tt else kfail BadPtr);
   LOG_E "I2C bus operation not supported" ~; Ret 0)%proc.

(** [rt_size_t] results. *)
Definition rt_i2c_master_send (bus : ptr) (addr flags : Z) (buf : list Z) (count : Z) : proc Z :=
  (x <~ rt_i2c_transfer bus [I2cMsg (u16 addr) (u16 flags) (u16 count) buf];
   Ret (if 0 <? fst x then count else u32 (fst x)))%proc.
Definition rt_i2c_master_recv (bus : ptr) (addr flags : Z) (buf : list Z) (count : Z) : proc (Z * list Z) :=
  (x <~ rt_i2c_transfer bus [I2cMsg (u16 addr) (u16 (Z.lor flags RT_I2C_RD)) (u16 count) buf];
   Ret (if 0 <? fst x then count else u32 (fst x), match snd x with [m] => msg_buf m | _ => buf end))%proc.

Definition rt_i2c_core_init : proc Z := Ret 0.

Definition rt_i2c_bus_device_find (bus_name : list Z) : proc (option ptr) :=
  (dev <~ atomic (rt_device_find bus_name);
   type <~ atomic (match dev with Some dev => d ← get_dev dev; mret (dev_type d) | None => mret 0 end);
   match dev with
   | Some dev =>
       if type =? RT_Device_Class_I2CBUS then Ret (Some dev)
       else i2c_log [69] (codes "I2C bus "%string ++ visible_name bus_name ++ codes " not exist"%string) ~; Ret None
   | None => i2c_log [69] (codes "I2C bus "%string ++ visible_name bus_name ++ codes " not exist"%string) ~; Ret None
   end)%proc.

(** ** The device (i2c_dev.c) *)
Definition i2c_bus_device_read (bus : ptr) (pos : Z) (buffer : list Z) (count : Z) : proc (Z * list Z) :=
  rt_i2c_master_recv bus (Z.land pos 0xffff) (Z.land (Z.shiftr pos 16) 0xffff) buffer count.
Definition i2c_bus_device_write (bus : ptr) (pos : Z) (buffer : list Z) (count : Z) : proc Z :=
  rt_i2c_master_send bus (Z.land pos 0xffff) (Z.land (Z.shiftr pos 16) 0xffff) buffer count.

(** What [args] points to: a number or the messages. *)
Inductive i2c_arg := i2c_number (v : Z) | i2c_messages (msgs : list rt_i2c_msg).
Definition arg_number (args : i2c_arg) : K Z := match args with i2c_number v => mret v | _ => kfail BadPtr end.
Definition arg_messages (args : i2c_arg) : K (list rt_i2c_msg) := match args with i2c_messages l => mret l | _ => kfail BadPtr end.

Definition change_i2c (bus : ptr) (f : rt_i2c_bus_device -> rt_i2c_bus_device) : K unit := b ← get_i2c bus; put_i2c bus (f b).
Definition i2c_bus_device_control (bus : ptr) (cmd : Z) (args : i2c_arg) : proc Z :=
  if cmd =? RT_I2C_DEV_CTRL_10BIT then
    (atomic (change_i2c bus (fun b => I2cBus (i2c_ops b) (Z.lor (i2c_flags b) RT_I2C_ADDR_10BIT) (i2c_addr b) (i2c_timeout b) (i2c_retries b) (i2c_priv b))) ~;
     Ret RT_EOK)%proc
  else if cmd =? RT_I2C_DEV_CTRL_ADDR then
    (v <~ atomic (arg_number args);
     atomic (change_i2c bus (fun b => I2cBus (i2c_ops b) (i2c_flags b) (u16 v) (i2c_timeout b) (i2c_retries b) (i2c_priv b))) ~;
     Ret RT_EOK)%proc
  else if cmd =? RT_I2C_DEV_CTRL_TIMEOUT then
    (v <~ atomic (arg_number args);
     atomic (change_i2c bus (fun b => I2cBus (i2c_ops b) (i2c_flags b) (i2c_addr b) (u32 v) (i2c_retries b) (i2c_priv b))) ~;
     Ret RT_EOK)%proc
  else if cmd =? RT_I2C_DEV_CTRL_RW then
    (msgs <~ atomic (arg_messages args);
     x <~ rt_i2c_transfer bus msgs;
     Ret (if fst x <? 0 then - RT_EIO else RT_EOK))%proc
  else if cmd =? RT_I2C_DEV_CTRL_CLK then
    (v <~ atomic (arg_number args);
     ret <~ rt_i2c_control bus cmd v;
     Ret (if ret <? 0 then - RT_EIO else RT_EOK))%proc
  else Ret RT_EOK.

(** ** Registration

    Before the scheduler runs, nothing comes between its parts. *)
Definition rt_i2c_bus_device_device_init (bus : ptr) (name : list Z) : K Z :=
  d ← get_dev bus;
  put_dev bus (Device RT_Device_Class_I2CBUS (dev_flag d) (dev_open_flag d) (dev_ref_count d)
    (dev_rx_indicate d) (dev_tx_complete d) i2c_driver);;
  rt_device_register (Some bus) name RT_DEVICE_FLAG_RDWR;;
  mret RT_EOK.

Definition rt_i2c_bus_device_register (bus : ptr) (bus_name : list Z) : K Z :=
  rt_mutex_init (bus_lock bus) (codes "i2c_bus_lock"%string) RT_IPC_FLAG_FIFO;;
  b ← get_i2c bus;
  put_i2c bus (if i2c_timeout b =? 0 then I2cBus (i2c_ops b) (i2c_flags b) (i2c_addr b) RT_TICK_PER_SECOND (i2c_retries b) (i2c_priv b) else b);;
  res ← rt_i2c_bus_device_device_init bus bus_name;
  kprint (codes "[I/I2C] "%string);;
  kprint (codes "I2C bus ["%string ++ visible_name bus_name ++ codes "] registered"%string);;
  kprint [10];;
  mret res.

Definition rt_i2c_bit_add_bus (bus : ptr) (bus_name : list Z) : K Z :=
  b ← get_i2c bus;
  put_i2c bus (I2cBus true (i2c_flags b) (i2c_addr b) (i2c_timeout b) (i2c_retries b) (i2c_priv b));;
  rt_i2c_bus_device_register bus bus_name.

Definition ch32_i2c_gpio_init (bus : ptr) : K unit :=
  cfg ← i2c_pins bus;
  rt_pin_mode (fst cfg) PIN_MODE_OUTPUT_OD;;
  rt_pin_mode (snd cfg) PIN_MODE_OUTPUT_OD;;
  rt_pin_write (fst cfg) PIN_HIGH;;
  rt_pin_write (snd cfg) PIN_HIGH.

(** Nine clocks for a device that holds the data line. *)
Fixpoint unlock_loop (n : nat) (scl : Z) : K unit :=
  match n with
  | O => mret tt
  | S n => rt_pin_write scl PIN_HIGH;; rt_pin_write scl PIN_LOW;; unlock_loop n scl
  end.
Definition ch32_i2c_bus_unlock (cfg : Z * Z) : K Z :=
  v ← rt_pin_read (snd cfg);
  (if v =? PIN_LOW then unlock_loop 9 (fst cfg) else mret tt);;
  v ← rt_pin_read (snd cfg);
  mret (if v =? PIN_LOW then - RT_ERROR else RT_EOK).

(** [i2c_obj] with the pins and names of [soft_i2c_config]. *)
Fixpoint rt_hw_i2c_init (objs : list (ptr * (Z * Z) * list Z)) : K Z :=
  match objs with
  | [] => mret RT_EOK
  | (bus, cfg, name) :: objs =>
      b ← get_i2c bus;
      put_i2c bus (I2cBus (i2c_ops b) (i2c_flags b) (i2c_addr b) (i2c_timeout b) (i2c_retries b) (Some cfg));;
      ch32_i2c_gpio_init bus;;
      result ← rt_i2c_bit_add_bus bus name;
      RT_ASSERT (result =? RT_EOK);;
      ch32_i2c_bus_unlock cfg;;
      rt_hw_i2c_init objs
  end.
End i2c.
