(* ===== verification/Spi.v ===== *)
(** * The SPI driver (libraries/hal_drivers/drv_spi.c on the peripheral
    library libraries/hal_libraries/ch32v307_hal: ch32v30x_spi.c)

    The peripheral answers as it likes: [SpiHw] gives what the n-th read of a
    register returns, and the clock frequencies.  Its wires keep a log of what
    goes out, under which settings, and of what is read.

    [ch32_spi_init_spec] says what each configuration does to the control
    register.  [SPIx_ReadWriteByte] polls the status a bounded number of times,
    so that every transfer ends ([spixfer_ends], for any answers and any
    interference).  The clocks of the peripherals and the modes of their pins
    are not modelled. *)
From S2P Require Import Prelude DevState KState Proc Conc Device.

(** ** Registers and constants *)
Definition CTLR1_SPE_Set : Z := 0x0040.
Definition CTLR1_SPE_Reset : Z := 0xFFBF.
Definition CTLR1_CLEAR_Mask : Z := 0x3040.
Definition SPI_Mode_Select : Z := 0xF7FF.
Definition SPI_Direction_2Lines_FullDuplex : Z := 0x0000.
Definition SPI_Direction_1Line_Tx : Z := 0xC000.
Definition SPI_Mode_Master : Z := 0x0104.
Definition SPI_Mode_Slave : Z := 0x0000.
Definition SPI_DataSize_16b : Z := 0x0800.
Definition SPI_DataSize_8b : Z := 0x0000.
Definition SPI_CPOL_Low : Z := 0x0000.
Definition SPI_CPOL_High : Z := 0x0002.
Definition SPI_CPHA_1Edge : Z := 0x0000.
Definition SPI_CPHA_2Edge : Z := 0x0001.
Definition SPI_NSS_Soft : Z := 0x0200.
Definition SPI_NSS_Hard : Z := 0x0000.
Definition SPI_BaudRatePrescaler_2 : Z := 0x0000.
Definition SPI_BaudRatePrescaler_4 : Z := 0x0008.
Definition SPI_BaudRatePrescaler_8 : Z := 0x0010.
Definition SPI_BaudRatePrescaler_16 : Z := 0x0018.
Definition SPI_BaudRatePrescaler_32 : Z := 0x0020.
Definition SPI_BaudRatePrescaler_64 : Z := 0x0028.
Definition SPI_BaudRatePrescaler_128 : Z := 0x0030.
Definition SPI_BaudRatePrescaler_256 : Z := 0x0038.
Definition SPI_FirstBit_MSB : Z := 0x0000.
Definition SPI_FirstBit_LSB : Z := 0x0080.
Definition SPI_I2S_FLAG_RXNE : Z := 0x0001.
Definition SPI_I2S_FLAG_TXE : Z := 0x0002.

Definition RT_SPI_CPHA : Z := 0x01.
Definition RT_SPI_CPOL : Z := 0x02.
Definition RT_SPI_MSB : Z := 0x04.
Definition RT_SPI_SLAVE : Z := 0x08.
Definition RT_SPI_CS_HIGH : Z := 0x10.
Definition RT_SPI_NO_CS : Z := 0x20.
Definition RT_SPI_3WIRE : Z := 0x40.
Definition RT_SPI_READY : Z := 0x80.
Definition RT_SPI_BUS_MODE_SPI : Z := 0x01.

(** [struct rt_spi_message], without [next]: the bytes of the two buffers, if
    they are given.  The receive buffer overlaps the send buffer only if both
    are the same. *)
Record rt_spi_message := SpiMessage {
  send_buf : option (list Z);
  recv_buf : option (list Z);
  msg_length : Z;
  cs_take : bool;
  cs_release : bool
}.

(** The n-th read of a status and of a data register, and the two peripheral
    clocks as [RCC_GetClocksFreq] reports them. *)
Class SpiHw := {
  spi_statr : ptr -> nat -> Z;
  spi_datar : ptr -> nat -> Z;
  PCLK1_Frequency : Z;
  PCLK2_Frequency : Z
}.

Definition get_bus (bus : ptr) : K rt_spi_bus := fun s => lift (dr_buses (k_drv s) !! bus) s.
Definition put_bus (bus : ptr) (b : rt_spi_bus) : K unit :=
  modify (fun s => set_k_drv (set_dr_buses (<[bus := b]> (dr_buses (k_drv s))) (k_drv s)) s).
Definition get_spidev (device : ptr) : K rt_spi_device := fun s => lift (dr_spidevs (k_drv s) !! device) s.
Definition put_spidev (device : ptr) (d : rt_spi_device) : K unit :=
  modify (fun s => set_k_drv (set_dr_spidevs (<[device := d]> (dr_spidevs (k_drv s))) (k_drv s)) s).

(** [device->bus], and with the assertion that it is set. *)
Definition bus_of (device : ptr) : K ptr := d ← get_spidev device; lift (sd_bus d).
Definition assert_bus (device : ptr) : K ptr :=
  d ← get_spidev device; RT_ASSERT (bool_decide (is_Some (sd_bus d)));; lift (sd_bus d).

Definition log_wire (e : wire) (p : spi_port) : spi_port :=
  SpiPort (sp_ctlr1 p) (sp_i2scfgr p) (sp_crcr p) (sp_reads p) (sp_wire p ++ [e]).
Definition count_read (p : spi_port) : spi_port :=
  SpiPort (sp_ctlr1 p) (sp_i2scfgr p) (sp_crcr p) (S (sp_reads p)) (sp_wire p).
Definition set_ctlr1 (v : Z) (p : spi_port) : spi_port :=
  SpiPort v (sp_i2scfgr p) (sp_crcr p) (sp_reads p) (sp_wire p).

Section driver.
Context `{SpiHw}.

(** ** The peripheral library *)
Definition init_ctlr1 (ctlr1 : Z) (i : SPI_InitTypeDef) : Z :=
  Z.lor (Z.land ctlr1 CTLR1_CLEAR_Mask)
    (u16 (Z.lor (SPI_Direction i) (Z.lor (SPI_Mode i) (Z.lor (SPI_DataSize i) (Z.lor (SPI_CPOL i)
      (Z.lor (SPI_CPHA i) (Z.lor (SPI_NSS i) (Z.lor (SPI_BaudRatePrescaler i) (SPI_FirstBit i))))))))).
Definition SPI_Init (i : SPI_InitTypeDef) (p : spi_port) : spi_port :=
  SpiPort (init_ctlr1 (sp_ctlr1 p) i) (Z.land (sp_i2scfgr p) SPI_Mode_Select) (SPI_CRCPolynomial i)
    (sp_reads p) (sp_wire p).
Definition SPI_Cmd (enable : bool) (p : spi_port) : spi_port :=
  set_ctlr1 (if enable then Z.lor (sp_ctlr1 p) CTLR1_SPE_Set else Z.land (sp_ctlr1 p) CTLR1_SPE_Reset) p.

Definition SPI_I2S_GetFlagStatus (bus : ptr) (flag : Z) : K bool :=
  b ← get_bus bus;
  put_bus bus (set_bus_port (count_read (bus_port b)) b);;
  mret (flagged (spi_statr bus (sp_reads (bus_port b))) flag).
Definition SPI_I2S_SendData (bus : ptr) (data : Z) : K unit :=
  b ← get_bus bus;
  put_bus bus (set_bus_port (log_wire (Shift_out (sp_ctlr1 (bus_port b)) data) (bus_port b)) b).
Definition SPI_I2S_ReceiveData (bus : ptr) : K Z :=
  b ← get_bus bus;
  let data := u16 (spi_datar bus (sp_reads (bus_port b))) in
  put_bus bus (set_bus_port (log_wire (Shift_in data) (count_read (bus_port b))) b);;
  mret data.

(** [GPIO_WriteBit(cs->GPIOx, cs->GPIO_Pin, level)] for a chip select. *)
Definition GPIO_WriteBit (bus : ptr) (cs : Z * Z) (level : Z) : K unit :=
  b ← get_bus bus;
  put_bus bus (set_bus_port (log_wire (Pin_set cs.1 cs.2 level) (bus_port b)) b).

(** ** The driver *)
Definition prescaler (max_hz clock : Z) : Z :=
  if clock `div` 2 <=? max_hz then SPI_BaudRatePrescaler_2
  else if clock `div` 4 <=? max_hz then SPI_BaudRatePrescaler_4
  else if clock `div` 8 <=? max_hz then SPI_BaudRatePrescaler_8
  else if clock `div` 16 <=? max_hz then SPI_BaudRatePrescaler_16
  else if clock `div` 32 <=? max_hz then SPI_BaudRatePrescaler_32
  else if clock `div` 64 <=? max_hz then SPI_BaudRatePrescaler_64
  else if clock `div` 128 <=? max_hz then SPI_BaudRatePrescaler_128
  else SPI_BaudRatePrescaler_256.

Definition SPI_APB_CLOCK (b : rt_spi_bus) : Z :=
  if bool_decide (bus_config b = Some 1) then PCLK2_Frequency else PCLK1_Frequency.

(** [Init] is filled field by field: a wrong width leaves the two fields that
    were set before it. *)
Definition ch32_spi_init (bus : ptr) (cfg : rt_spi_configuration) : K Z :=
  b ← get_bus bus;
  let i := bus_init b in
  let has f := flagged (spi_mode cfg) f in
  let mode := if has RT_SPI_SLAVE then SPI_Mode_Slave else SPI_Mode_Master in
  let direction := if has RT_SPI_3WIRE then SPI_Direction_1Line_Tx else SPI_Direction_2Lines_FullDuplex in
  let width := spi_data_width cfg in
  if (width =? 8) || (width =? 16) then
    let i := SpiInit direction mode
      (if width =? 8 then SPI_DataSize_8b else SPI_DataSize_16b)
      (if has RT_SPI_CPOL then SPI_CPOL_High else SPI_CPOL_Low)
      (if has RT_SPI_CPHA then SPI_CPHA_2Edge else SPI_CPHA_1Edge)
      (if has RT_SPI_NO_CS then SPI_NSS_Hard else SPI_NSS_Soft)
      (prescaler (spi_max_hz cfg) (SPI_APB_CLOCK b))
      (if has RT_SPI_MSB then SPI_FirstBit_MSB else SPI_FirstBit_LSB) 7 in
    put_bus bus (SpiBus (bus_mode b) (bus_owner b) (bus_config b) i
      (if width =? 8 then (8, 8) else bus_xfer_size b)
      (SPI_Cmd true (SPI_Init i (bus_port b))));;
    mret RT_EOK
  else
    put_bus bus (set_bus_init (SpiInit direction mode (SPI_DataSize i) (SPI_CPOL i) (SPI_CPHA i) (SPI_NSS i)
      (SPI_BaudRatePrescaler i) (SPI_FirstBit i) (SPI_CRCPolynomial i)) b);;
    mret RT_EIO.

(** [ops->configure(device, &device->config)]; the pointer it keeps in [cfg] is
    not read. *)
Definition spi_configure (device : ptr) : K Z :=
  d ← get_spidev device;
  bus ← lift (sd_bus d);
  ch32_spi_init bus (sd_config d).

(** One of the two polling loops: whether the flag came up. *)
Definition spi_poll (bus : ptr) (flag : Z) : proc bool :=
  loop (fun i : Z =>
    (up <~ atomic (SPI_I2S_GetFlagStatus bus flag);
     if up : bool then Ret (inr true)
     else
       let i := u8 (i + 1) in
       if 200 <? i then Ret (inr false) else Ret (inl i))%proc) 0.

Definition SPIx_ReadWriteByte (bus : ptr) (TxData : Z) : proc Z :=
  (up <~ spi_poll bus SPI_I2S_FLAG_TXE;
   if negb up then Ret 0
   else
     atomic (SPI_I2S_SendData bus TxData) ~;
     up <~ spi_poll bus SPI_I2S_FLAG_RXNE;
     if negb up then Ret 0
     else r <~ atomic (SPI_I2S_ReceiveData bus); Ret (u8 r))%proc.

(** The three loops over [send_length] bytes; [off] is where [send_buf] and
    [recv_buf] point into the message's buffers. *)
Definition SPI_TransmitReceive (bus : ptr) (send recv : list Z) (off : nat) (send_length : Z) : proc (Z * list Z) :=
  (recv <~ loop (fun st : Z * list Z =>
     let '(i, recv) := st in
     if i <? send_length then
       (b <~ atomic (lift (aget send (off + Z.to_nat i)));
        r <~ SPIx_ReadWriteByte bus b;
        recv <~ atomic (lift (aset recv (off + Z.to_nat i) r));
        Ret (inl (u16 (i + 1), recv)))
     else Ret (inr recv)) (0, recv);
   Ret (RT_EOK, recv))%proc.
Definition SPI_Transmit (bus : ptr) (send : list Z) (off : nat) (send_length : Z) : proc Z :=
  (loop (fun i : Z =>
     if i <? send_length then
       (b <~ atomic (lift (aget send (off + Z.to_nat i)));
        SPIx_ReadWriteByte bus b ~;
        Ret (inl (u16 (i + 1))))
     else Ret (inr tt)) 0 ~;
   Ret RT_EOK)%proc.
Definition SPI_Receive (bus : ptr) (recv : list Z) (off : nat) (send_length : Z) : proc (Z * list Z) :=
  (recv <~ loop (fun st : Z * list Z =>
     let '(i, recv) := st in
     if i <? send_length then
       (r <~ SPIx_ReadWriteByte bus 0xFF;
        recv <~ atomic (lift (aset recv (off + Z.to_nat i) r));
        Ret (inl (u16 (i + 1), recv)))
     else Ret (inr recv)) (0, recv);
   Ret (RT_EOK, recv))%proc.

(** [memset(recv_buf, 0xff, send_length)] *)
Definition fill_ff (recv : list Z) (off n : nat) : option (list Z) :=
  if (off + n <=? length recv)%nat then Some (take off recv ++ replicate n 0xFF ++ drop (off + n) recv) else None.

(** A chip select to [level], unless the device has none. *)
Definition cs_write (device bus : ptr) (level : Z) : K unit :=
  d ← get_spidev device;
  if flagged (spi_mode (sd_config d)) RT_SPI_NO_CS then mret tt
  else cs ← lift (sd_cs d); GPIO_WriteBit bus cs level.

(** [SPI_Cmd(Instance, DISABLE)] after the send of a three-wire device. *)
Definition release_3wire (device bus : ptr) (release : bool) : K unit :=
  d ← get_spidev device;
  if release && flagged (spi_mode (sd_config d)) RT_SPI_3WIRE then
    b ← get_bus bus; put_bus bus (set_bus_port (SPI_Cmd false (bus_port b)) b)
  else mret tt.

(** One round of the loop over at most 65535 bytes, [send_length] of them,
    from [off]: the state and the receive buffer. *)
Definition spixfer_round (device bus : ptr) (m : rt_spi_message) (recv : option (list Z)) (off : nat) (send_length : Z)
    : proc (Z * option (list Z)) :=
  match send_buf m, recv with
  | Some send, Some recv =>
      (r <~ SPI_TransmitReceive bus send recv off send_length; Ret (fst r, Some (snd r)))%proc
  | Some send, None =>
      (state <~ SPI_Transmit bus send off send_length;
       atomic (release_3wire device bus (cs_release m)) ~;
       Ret (state, None))%proc
  | None, _ =>
      (recv <~ atomic (recv ← lift recv; lift (fill_ff recv off (Z.to_nat send_length)));
       r <~ SPI_Receive bus recv off send_length; Ret (fst r, Some (snd r)))%proc
  end.

(** The variables of the loop: [message_length], [message->length] and the
    receive buffer. *)
Record xfer_vars := XferVars { xv_left : Z; xv_length : Z; xv_recv : option (list Z) }.
Definition spixfer_loop (device bus : ptr) (m : rt_spi_message) : proc xfer_vars :=
  loop (fun v =>
    if xv_left v =? 0 then Ret (inr v)
    else
      let send_length := if 65535 <? xv_left v then 65535 else u16 (xv_left v) in
      let left := if 65535 <? xv_left v then xv_left v - 65535 else 0 in
      let already := u32 (xv_length v - send_length - left) in
      (r <~ spixfer_round device bus m (xv_recv v) (Z.to_nat already) send_length;
       Ret (inl (XferVars left (if fst r =? RT_EOK then xv_length v else 0) (snd r)))))%proc
    (XferVars (msg_length m) (msg_length m) (recv_buf m)).

(** The result and the receive buffer. *)
Definition spixfer (device : ptr) (m : rt_spi_message) : proc (Z * option (list Z)) :=
  (bus <~ atomic (bus ← assert_bus device; b ← get_bus bus;
     RT_ASSERT (bool_decide (is_Some (bus_config b)));; mret bus);
   (if cs_take m then atomic (cs_write device bus 0) else Ret tt) ~;
   v <~ spixfer_loop device bus m;
   (if cs_release m then atomic (cs_write device bus 1) else Ret tt) ~;
   Ret (xv_length v, xv_recv v))%proc.
End driver.

(** ** Configuration *)

Definition upd_bus (bus : ptr) (b : rt_spi_bus) (s : kst) : kst :=
  set_k_drv (set_dr_buses (<[bus := b]> (dr_buses (k_drv s))) (k_drv s)) s.

Lemma get_bus_run s bus b : dr_buses (k_drv s) !! bus = Some b -> get_bus bus s = Ok b s.
Proof. unfold get_bus. by intros ->. Qed.

Lemma get_spidev_run s device d : dr_spidevs (k_drv s) !! device = Some d -> get_spidev device s = Ok d s.
Proof. unfold get_spidev. by intros ->. Qed.

Lemma flagged_testbit v k : 0 <= k -> flagged v (Z.shiftl 1 k) = Z.testbit v k.
Proof.
  intros Hk. unfold flagged. destruct (Z.eqb_spec (Z.land v (Z.shiftl 1 k)) 0) as [E|E]; cbn [negb].
  - apply (f_equal (fun x => Z.testbit x k)) in E. rewrite Z.land_spec, testbit_shiftl1, Z.bits_0, bool_decide_eq_true_2 in E by lia.
    by rewrite andb_true_r in E.
  - destruct (Z.testbit v k) eqn:Ev; [done|]. exfalso. apply E. apply Z.bits_inj'. intros i Hi.
    rewrite Z.land_spec, testbit_shiftl1, Z.bits_0 by lia. case_bool_decide as Hik; [by subst; rewrite Ev|apply andb_false_r].
Qed.

Lemma testbit_if (c : bool) x y k : Z.testbit (if c then x else y) k = if c then Z.testbit x k else Z.testbit y k.
Proof. by destruct c. Qed.

Lemma if_same {A} (c : bool) (x : A) : (if c then x else x) = x.
Proof. by destruct c. Qed.

(** The smallest divider, of those there are, that does not exceed the wanted
    frequency. *)
Lemma prescaler_ok max_hz clock : exists p, prescaler max_hz clock = Z.shiftl p 3 /\ 0 <= p < 8 /\
  (p < 7 -> clock `div` 2 ^ (p + 1) <= max_hz) /\ (0 < p -> max_hz < clock `div` 2 ^ p).
Proof.
  unfold prescaler. repeat match goal with |- context [?a <=? ?b] => destruct (Z.leb_spec a b) end;
    [exists 0|exists 1|exists 2|exists 3|exists 4|exists 5|exists 6|exists 7];
    (split; [reflexivity|]; split; [lia|]; cbn; split; intros; lia || done).
Qed.

Lemma prescaler_bit p k : 0 <= p < 8 -> 0 <= k -> k < 3 \/ 6 <= k -> Z.testbit (Z.shiftl p 3) k = false.
Proof.
  intros Hp Hk [H1|H1]; rewrite Z.shiftl_spec by lia; [by rewrite Z.testbit_neg_r by lia|].
  apply (testbit_above 3); [done|lia].
Qed.

Lemma init_ctlr1_bit ctlr1 i k : 0 <= k < 16 ->
  Z.testbit (Z.lor (init_ctlr1 ctlr1 i) CTLR1_SPE_Set) k =
  Z.testbit ctlr1 k && Z.testbit CTLR1_CLEAR_Mask k ||
  (Z.testbit (SPI_Direction i) k || (Z.testbit (SPI_Mode i) k || (Z.testbit (SPI_DataSize i) k ||
   (Z.testbit (SPI_CPOL i) k || (Z.testbit (SPI_CPHA i) k || (Z.testbit (SPI_NSS i) k ||
   (Z.testbit (SPI_BaudRatePrescaler i) k || Z.testbit (SPI_FirstBit i) k))))))) ||
  Z.testbit CTLR1_SPE_Set k.
Proof.
  intros Hk. unfold init_ctlr1. rewrite !Z.lor_spec, Z.land_spec, wrap_testbit, !Z.lor_spec by lia.
  by rewrite (proj2 (Z.ltb_lt k 16)) by lia.
Qed.

(** The constants' bits, then a case for each flag that is left. *)
Ltac bits_left :=
  repeat match goal with |- context [Z.testbit ?x ?k] =>
    lazymatch x with
    | spi_mode _ => let v := fresh in set (v := Z.testbit x k)
    | Z.shiftl _ _ => let v := fresh in set (v := Z.testbit x k)
    | sp_ctlr1 _ => let v := fresh in set (v := Z.testbit x k)
    | _ => let b := eval vm_compute in (Z.testbit x k) in change (Z.testbit x k) with b
    end
  end; rewrite ?if_same, ?andb_false_r, ?andb_true_r, ?orb_false_r, ?orb_true_r; cbn [orb];
  repeat match goal with |- context [if ?c then _ else _] => destruct c end; reflexivity.

Ltac init_fields :=
  cbn [SPI_Direction SPI_Mode SPI_DataSize SPI_CPOL SPI_CPHA SPI_NSS SPI_BaudRatePrescaler SPI_FirstBit]; rewrite !testbit_if.

Section configuration.
Context `{SpiHw}.

(** What the bits of the control register say about a configuration, for a
    bus with the clock [clock]; [old] is the register before. *)
Record ctlr1_of (cfg : rt_spi_configuration) (clock old c : Z) : Prop := {
  c1_cpha : Z.testbit c 0 = Z.testbit (spi_mode cfg) 0;
  c1_cpol : Z.testbit c 1 = Z.testbit (spi_mode cfg) 1;
  c1_master : Z.testbit c 2 = negb (Z.testbit (spi_mode cfg) 3);
  c1_baud : let p := Z.land (Z.shiftr c 3) 7 in
    (p < 7 -> clock `div` 2 ^ (p + 1) <= spi_max_hz cfg) /\ (0 < p -> spi_max_hz cfg < clock `div` 2 ^ p);
  c1_enabled : Z.testbit c 6 = true;
  c1_lsb_first : Z.testbit c 7 = negb (Z.testbit (spi_mode cfg) 2);
  c1_ssi : Z.testbit c 8 = negb (Z.testbit (spi_mode cfg) 3);
  c1_ssm : Z.testbit c 9 = negb (Z.testbit (spi_mode cfg) 5);
  c1_rxonly : Z.testbit c 10 = false;
  c1_16bit : Z.testbit c 11 = (spi_data_width cfg =? 16);
  c1_crc : Z.testbit c 12 = Z.testbit old 12 /\ Z.testbit c 13 = Z.testbit old 13;
  c1_bidi : Z.testbit c 14 = Z.testbit (spi_mode cfg) 6 /\ Z.testbit c 15 = Z.testbit (spi_mode cfg) 6
}.

(** The register that [ch32_spi_init] leaves. *)
Definition configured_ctlr1 (cfg : rt_spi_configuration) (b : rt_spi_bus) (i : SPI_InitTypeDef) : Z :=
  Z.lor (init_ctlr1 (sp_ctlr1 (bus_port b)) i) CTLR1_SPE_Set.

Lemma spi_init_run bus cfg s b : dr_buses (k_drv s) !! bus = Some b ->
  if (spi_data_width cfg =? 8) || (spi_data_width cfg =? 16) then
    exists b', ch32_spi_init bus cfg s = Ok RT_EOK (upd_bus bus b' s) /\
      ctlr1_of cfg (SPI_APB_CLOCK b) (sp_ctlr1 (bus_port b)) (sp_ctlr1 (bus_port b')) /\
      bus_owner b' = bus_owner b /\ bus_config b' = bus_config b /\
      sp_reads (bus_port b') = sp_reads (bus_port b) /\ sp_wire (bus_port b') = sp_wire (bus_port b)
  else exists i, ch32_spi_init bus cfg s = Ok RT_EIO (upd_bus bus (set_bus_init i b) s).
Proof.
  intros Hb. unfold ch32_spi_init. destruct (_ || _) eqn:Hw.
  2:{ eexists. rewrite (run_bind _ _ _ _ _ (get_bus_run _ _ _ Hb)). by erewrite run_bind by done. }
  eexists. split; [rewrite (run_bind _ _ _ _ _ (get_bus_run _ _ _ Hb)); by erewrite run_bind by done|].
  split; [|done]. cbn [bus_port sp_ctlr1 SPI_Cmd set_ctlr1 SPI_Init].
  destruct (prescaler_ok (spi_max_hz cfg) (SPI_APB_CLOCK b)) as (p & -> & Hp & Hlo & Hhi).
  assert (forall f k, f = Z.shiftl 1 k -> 0 <= k -> flagged (spi_mode cfg) f = Z.testbit (spi_mode cfg) k) as Hf
    by (intros f k -> Hk; by apply flagged_testbit).
  rewrite (Hf RT_SPI_SLAVE 3), (Hf RT_SPI_3WIRE 6), (Hf RT_SPI_CPOL 1), (Hf RT_SPI_CPHA 0), (Hf RT_SPI_NO_CS 5), (Hf RT_SPI_MSB 2) by done.
  assert (forall k, 0 <= k -> k < 3 \/ 6 <= k -> Z.testbit (Z.shiftl p 3) k = false) as Hpb by (intros k; by apply prescaler_bit).
  set (c := Z.lor _ _).
  assert (spi_data_width cfg =? 8 = negb (spi_data_width cfg =? 16)) as Hw8.
  { destruct (Z.eqb_spec (spi_data_width cfg) 8) as [->|]; [done|]. cbn in Hw. by rewrite Hw. }
  assert (Z.land (Z.shiftr c 3) 7 = p) as Hbaud.
  { apply Z.bits_inj'. intros k Hk. rewrite Z.land_spec, Z.shiftr_spec by done. destruct (Z.lt_ge_cases k 3) as [Hlt|Hge].
    - assert (Z.testbit 7 k = true) as -> by (assert (k = 0 \/ k = 1 \/ k = 2) as [-> |[-> | ->]] by lia; done). rewrite andb_true_r.
      replace (Z.testbit p k) with (Z.testbit (Z.shiftl p 3) (k + 3)) by (rewrite Z.shiftl_spec by lia; f_equal; lia).
      assert (k = 0 \/ k = 1 \/ k = 2) as [-> |[-> | ->]] by lia; subst c; rewrite init_ctlr1_bit by lia; init_fields; bits_left.
    - rewrite (testbit_above 3 p k), (testbit_above 3 7 k) by lia. apply andb_false_r. }
  split; [..|by rewrite Hbaud| | | | | | | |].
  all: repeat split; subst c; rewrite init_ctlr1_bit by lia; init_fields; rewrite ?Hpb by lia; rewrite ?Hw8; destruct (spi_data_width cfg =? 16); cbn [negb]; bits_left.
Qed.

(** C20: [ch32_spi_init(bus, cfg)]: a data width other than 8 and 16 is refused with
    RT_EIO and the peripheral is left alone; otherwise the result is RT_EOK
    and the control register has clock phase, polarity, master bit, bit
    order, frame size and direction of the configuration, the peripheral is
    enabled, and the divider is the smallest that does not exceed the wanted
    frequency, or 256.  The owner and what happened on the wires stay. *)
Theorem ch32_spi_init_spec bus cfg s b : dr_buses (k_drv s) !! bus = Some b ->
  if (spi_data_width cfg =? 8) || (spi_data_width cfg =? 16) then
    exists b', ch32_spi_init bus cfg s = Ok RT_EOK (upd_bus bus b' s) /\
      ctlr1_of cfg (SPI_APB_CLOCK b) (sp_ctlr1 (bus_port b)) (sp_ctlr1 (bus_port b')) /\
      bus_owner b' = bus_owner b /\ bus_config b' = bus_config b /\
      sp_reads (bus_port b') = sp_reads (bus_port b) /\ sp_wire (bus_port b') = sp_wire (bus_port b)
  else exists i, ch32_spi_init bus cfg s = Ok RT_EIO (upd_bus bus (set_bus_init i b) s).
Proof. apply spi_init_run. Qed.
End configuration.

(** ** Every transfer ends *)
Section ending.
Context `{SpiHw}.

(** At most 201 polls. *)
Lemma spi_poll_ends bus flag : ends 403 (spi_poll bus flag) (fun _ => True).
Proof.
  unfold spi_poll. apply (ends_weaken (2 * Z.to_nat (200 - 0) + 3) _ _ (fun _ : bool => True)); [|lia|done].
  apply (ends_loop _ (fun i => 0 <= i <= 200) (fun i => 2 * Z.to_nat (200 - i) + 3)%nat); [|lia..].
  intros i Hi. exists 1%nat. split; [lia|]. apply ends_atomic. intros [|]; [by apply ends_ret|].
  cbv zeta. rewrite wrap_small by lia. destruct (Z.ltb_spec 200 (i + 1)); apply ends_ret; [done|lia].
Qed.

Lemma spi_byte_ends bus b : ends 808 (SPIx_ReadWriteByte bus b) (fun _ => True).
Proof.
  unfold SPIx_ReadWriteByte. apply (ends_weaken (403 + S (403 + 1)) _ _ (fun _ : Z => True)); [|lia|done].
  eapply ends_bind; [apply spi_poll_ends|]. intros [|] _; [|by apply ends_ret]. cbn [negb]. apply ends_atomic. intros _.
  eapply ends_bind; [apply spi_poll_ends|]. intros [|] _; [|by apply ends_ret]. cbn [negb]. apply ends_atomic. intros r.
  by apply ends_ret.
Qed.

(** The variant of the loops over bytes, and such a loop with a position [pos]
    that each round moves on by one. *)
Definition byte_bound (len i : Z) : nat := (811 * Z.to_nat (len - i) + 1)%nat.

Lemma byte_loop_ends {X Y} (pos : X -> Z) (body : X -> proc (X + Y)) len x : 0 <= len < 2 ^ 16 -> pos x = 0 ->
  (forall x, 0 <= pos x <= len ->
     if pos x <? len then ends 810 (body x) (fun r => exists x', r = inl x' /\ pos x' = u16 (pos x + 1))
     else exists y, body x = Ret (inr y)) ->
  ends (byte_bound len 0) (loop body x) (fun _ => True).
Proof.
  intros Hl Hx Hb. apply (ends_loop _ (fun x => 0 <= pos x <= len) (fun x => byte_bound len (pos x))); [|lia|by rewrite Hx].
  intros y Hy. pose proof (Hb y Hy) as H1. destruct (Z.ltb_spec (pos y) len).
  - exists 810%nat. split; [unfold byte_bound; lia|]. eapply ends_weaken; [exact H1|lia|]. intros r (x' & -> & E).
    rewrite wrap_small in E by lia. rewrite E. unfold byte_bound. lia.
  - destruct H1 as [z ->]. exists 0%nat. split; [unfold byte_bound; lia|]. by apply ends_ret.
Qed.

(** [p] is such a loop and then a return. *)
Lemma then_return {A B} n (p : proc A) (f : A -> B) (Q : B -> Prop) :
  ends n p (fun _ => True) -> (forall a, Q (f a)) -> ends n (pbind p (fun a => Ret (f a))) Q.
Proof.
  intros Hp Hf. apply (ends_weaken (n + 0) _ _ Q); [|lia|done]. eapply ends_bind; [exact Hp|]. intros a _. by apply ends_ret.
Qed.

Lemma transmit_receive_ends bus send recv off len : 0 <= len < 2 ^ 16 ->
  ends (byte_bound len 0) (SPI_TransmitReceive bus send recv off len) (fun r => fst r = RT_EOK).
Proof.
  intros Hl. apply then_return; [|done]. apply (byte_loop_ends fst); [done|done|]. intros [i r] Hi. cbn [fst] in *.
  destruct (i <? len); [|by eexists]. apply ends_atomic. intros b. apply (ends_bind 808 1 _ _ (fun _ => True)); [apply spi_byte_ends|].
  intros x _. apply ends_atomic. intros r'. apply ends_ret. by eexists.
Qed.

Lemma transmit_ends bus send off len : 0 <= len < 2 ^ 16 ->
  ends (byte_bound len 0) (SPI_Transmit bus send off len) (fun r => r = RT_EOK).
Proof.
  intros Hl. apply (then_return _ _ (fun _ => RT_EOK)); [|done]. apply (byte_loop_ends id); [done|done|]. intros i Hi. unfold id in *.
  destruct (i <? len); [|by eexists]. apply ends_atomic. intros b. apply (ends_bind 808 1 _ _ (fun _ => True)); [apply spi_byte_ends|].
  intros x _. apply ends_ret. by eexists.
Qed.

Lemma receive_ends bus recv off len : 0 <= len < 2 ^ 16 ->
  ends (byte_bound len 0) (SPI_Receive bus recv off len) (fun r => fst r = RT_EOK).
Proof.
  intros Hl. apply then_return; [|done]. apply (byte_loop_ends fst); [done|done|]. intros [i r] Hi. cbn [fst] in *.
  destruct (i <? len); [|by eexists]. apply (ends_bind 808 2 _ _ (fun _ => True)); [apply spi_byte_ends|].
  intros x _. apply ends_atomic. intros r'. apply ends_ret. by eexists.
Qed.

Lemma round_ends device bus m recv off len : 0 <= len < 2 ^ 16 ->
  ends (S (byte_bound len 0)) (spixfer_round device bus m recv off len) (fun r => fst r = RT_EOK).
Proof.
  intros Hl. unfold spixfer_round. destruct (send_buf m) as [send|], recv as [recv|].
  - apply (ends_weaken (byte_bound len 0 + 0) _ _ (fun r : Z * option (list Z) => fst r = RT_EOK)); [|lia|done].
    eapply ends_bind; [by apply transmit_receive_ends|]. intros r Hr. by apply ends_ret.
  - apply (ends_weaken (byte_bound len 0 + 1) _ _ (fun r : Z * option (list Z) => fst r = RT_EOK)); [|lia|done].
    eapply ends_bind; [by apply transmit_ends|]. intros r Hr. apply ends_atomic. intros _. by apply ends_ret.
  - apply ends_atomic. intros r0. apply (ends_weaken (byte_bound len 0 + 0) _ _ (fun r : Z * option (list Z) => fst r = RT_EOK)); [|lia|done].
    eapply ends_bind; [by apply receive_ends|]. intros r Hr. by apply ends_ret.
  - apply ends_atomic. intros r0. apply (ends_weaken (byte_bound len 0 + 0) _ _ (fun r : Z * option (list Z) => fst r = RT_EOK)); [|lia|done].
    eapply ends_bind; [by apply receive_ends|]. intros r Hr. by apply ends_ret.
Qed.

(** The moves a transfer of [len] bytes needs at most. *)
Definition xfer_bound (len : Z) : nat := (814 * Z.to_nat len + 4)%nat.

Lemma spixfer_ends device m : 0 <= msg_length m < 2 ^ 32 ->
  ends (xfer_bound (msg_length m)) (spixfer device m) (fun r => fst r = msg_length m).
Proof.
  intros Hlen. unfold spixfer. apply (ends_weaken (S (1 + (814 * Z.to_nat (msg_length m) + 1 + 1)))
    _ _ (fun r : Z * option (list Z) => fst r = msg_length m)); [|unfold xfer_bound; lia|done].
  apply ends_atomic. intros bus. eapply (ends_bind _ _ _ _ (fun _ => True)).
  { destruct (cs_take m); [by apply ends_atomic; intros; apply ends_ret|by apply ends_ret]. }
  intros [] _. eapply (ends_bind _ _ _ _ (fun v => xv_length v = msg_length m)).
  2:{ intros v Hv. apply (ends_weaken (1 + 0) _ _ (fun r : Z * option (list Z) => fst r = msg_length m)); [|lia|done].
      eapply (ends_bind _ _ _ _ (fun _ => True)); [|by intros; apply ends_ret].
      destruct (cs_release m); [by apply ends_atomic; intros; apply ends_ret|by apply ends_ret]. }
  unfold spixfer_loop. set (v0 := XferVars _ _ _).
  apply (ends_loop _ (fun v => 0 <= xv_left v < 2 ^ 32 /\ xv_length v = msg_length m) (fun v => 814 * Z.to_nat (xv_left v) + 1)%nat);
    [|by split|cbn; lia].
  intros [left len recv] [Hleft Hv]. cbn [xv_left xv_length xv_recv] in *. destruct (Z.eqb_spec left 0).
  { exists 0%nat. split; [lia|]. by apply ends_ret. }
  set (sl := if 65535 <? left then 65535 else u16 left). set (rest := if 65535 <? left then left - 65535 else 0).
  assert (0 < sl < 2 ^ 16 /\ sl + rest = left /\ 0 <= rest) as (Hn & Hnr & Hr0).
  { subst sl rest. destruct (Z.ltb_spec 65535 left); [lia|]. rewrite wrap_small by lia. lia. }
  exists (S (byte_bound sl 0) + 0)%nat. split; [unfold byte_bound; lia|].
  eapply ends_bind; [apply round_ends; lia|]. intros r Hr. apply ends_ret. rewrite Hr. cbn [xv_left xv_length RT_EOK Z.eqb].
  split; [split; [lia|done]|]. unfold byte_bound. lia.
Qed.
End ending.

(** ** What a message does on the wires *)
Section wires.
Context `{SpiHw}.

(** A peripheral whose flags come up within the polls of the driver. *)
Definition responsive (bus : ptr) : Prop :=
  forall flag n, flag = SPI_I2S_FLAG_TXE \/ flag = SPI_I2S_FLAG_RXNE ->
    exists k, (k <= 200)%nat /\ flagged (spi_statr bus (n + k)) flag = true.

(** One byte [b] under the settings [c]: it goes out and the answer is read.
    A peripheral that does not respond gives 0. *)
Inductive exchange (bus : ptr) (c b : Z) : Z -> list wire -> Prop :=
| ex_answered r : exchange bus c b (u8 r) [Shift_out c b; Shift_in r]
| ex_unanswered : ~ responsive bus -> exchange bus c b 0 [Shift_out c b]
| ex_unsent : ~ responsive bus -> exchange bus c b 0 [].

Inductive exchanges (bus : ptr) (c : Z) : list Z -> list Z -> list wire -> Prop :=
| exs_nil : exchanges bus c [] [] []
| exs_snoc l r e b x e' :
    exchanges bus c l r e -> exchange bus c b x e' -> exchanges bus c (l ++ [b]) (r ++ [x]) (e ++ e').

(** The bytes that go out for a message. *)
Definition bytes_out (m : rt_spi_message) : list Z :=
  match send_buf m with
  | Some l => take (Z.to_nat (msg_length m)) l
  | None => replicate (Z.to_nat (msg_length m)) 0xFF
  end.
Definition cs_events (d : rt_spi_device) (level : Z) : list wire :=
  if flagged (spi_mode (sd_config d)) RT_SPI_NO_CS then []
  else match sd_cs d with Some cs => [Pin_set cs.1 cs.2 level] | None => [] end.

(** The receive buffer, after [ins] was read. *)
Definition received (m : rt_spi_message) (ins : list Z) : option (list Z) :=
  match recv_buf m with Some buf => Some (ins ++ drop (length ins) buf) | None => None end.

(** A message of a device under the settings [c], with its result: between the
    two edges of the chip select the bytes of the send buffer go out in order,
    and the receive buffer, if there is one, holds what came in. *)
Definition message_done (bus : ptr) (d : rt_spi_device) (c : Z) (m : rt_spi_message) (r : Z * option (list Z)) (ev : list wire) : Prop :=
  exists ins body, exchanges bus c (bytes_out m) ins body /\
    ev = (if cs_take m then cs_events d 0 else []) ++ body ++ (if cs_release m then cs_events d 1 else []) /\
    fst r = msg_length m /\ snd r = received m ins.

(** Buffers as long as the message says, and one of them given if there is
    something to transfer. *)
Record message_ok (m : rt_spi_message) : Prop := {
  mok_length : 0 <= msg_length m < 2 ^ 32;
  mok_send l : send_buf m = Some l -> msg_length m <= Z.of_nat (length l);
  mok_recv l : recv_buf m = Some l -> msg_length m <= Z.of_nat (length l);
  mok_buffer : 0 < msg_length m -> is_Some (send_buf m) \/ is_Some (recv_buf m)
}.

Lemma exchanges_length bus c l r e : exchanges bus c l r e -> length r = length l.
Proof. induction 1 as [|l r e b x e' _ IH _]; [done|]. by rewrite !length_app, IH. Qed.
End wires.
