(* ===== verification/SpiCore.v ===== *)
(** * SPI buses shared by devices (rt-thread/components/drivers/spi/:
    spi_core.c, spi_dev.c; the registration of drv_spi.c)

    Devices on one bus take its mutex for a transfer, give the peripheral
    their configuration unless they were the last to use it, and send their
    messages.

    [spi_bus_shared] is the contract of the bus: whatever threads use it, in
    every interleaving with each other, with the tick interrupt, the scheduler
    and other threads, what happens on its wires is one whole transaction after
    the other, each under the settings of its own device, and every thread
    gets the bytes that came in during its transaction. *)
From stdpp Require Import strings.
From S2P Require Import Prelude DevState KState Scheduler Object Timer Proc Thread Ipc Mutex Conc Device Spi.
#[local] Open Scope Z_scope.

Definition RT_SPI_MODE_MASK : Z :=
  Z.lor RT_SPI_CPHA (Z.lor RT_SPI_CPOL (Z.lor RT_SPI_MSB (Z.lor RT_SPI_SLAVE (Z.lor RT_SPI_CS_HIGH
    (Z.lor RT_SPI_NO_CS (Z.lor RT_SPI_3WIRE RT_SPI_READY)))))).

(** ** Registration *)

(** [bus->parent]: its type and functions, and its registration. *)
Definition rt_spi_bus_device_init (bus : ptr) (name : list Z) : K Z :=
  d ← get_dev bus;
  put_dev bus (Device RT_Device_Class_SPIBUS (dev_flag d) (dev_open_flag d) (dev_ref_count d)
    (dev_rx_indicate d) (dev_tx_complete d) spi_bus_driver);;
  rt_device_register (Some bus) name RT_DEVICE_FLAG_RDWR.

Definition rt_spidev_device_init (device : ptr) (name : list Z) : K Z :=
  d ← get_dev device;
  put_dev device (Device RT_Device_Class_SPIDevice (dev_flag d) (dev_open_flag d) (dev_ref_count d)
    (dev_rx_indicate d) (dev_tx_complete d) spi_dev_driver);;
  rt_device_register (Some device) name RT_DEVICE_FLAG_RDWR.

Definition rt_spi_bus_register (bus : ptr) (name : list Z) : K Z :=
  result ← rt_spi_bus_device_init bus name;
  if negb (result =? RT_EOK) then mret result
  else
    rt_mutex_init (bus_lock bus) name RT_IPC_FLAG_FIFO;;
    b ← get_bus bus;
    put_bus bus (SpiBus RT_SPI_BUS_MODE_SPI None (bus_config b) (bus_init b) (bus_xfer_size b) (bus_port b));;
    mret RT_EOK.

(** The structure [device] exists already. *)
Definition rt_spi_bus_attach_device (device : ptr) (name bus_name : list Z) (user_data : option (Z * Z)) : K Z :=
  bus ← rt_device_find bus_name;
  match bus with
  | None => mret (- RT_ERROR)
  | Some bus =>
      d ← get_dev bus;
      if dev_type d =? RT_Device_Class_SPIBUS then
        x ← get_spidev device;
        put_spidev device (SpiDevice (Some bus) (sd_config x) (sd_cs x));;
        result ← rt_spidev_device_init device name;
        if negb (result =? RT_EOK) then mret result
        else
          put_spidev device (SpiDevice (Some bus) (SpiCfg 0 0 0) user_data);;
          mret RT_EOK
      else mret (- RT_ERROR)
  end.

(** The buses of the board with the numbers of their peripherals. *)
Fixpoint rt_hw_spi_bus_init (buses : list (ptr * Z * list Z)) : K Z :=
  match buses with
  | [] => mret 0
  | (bus, instance, name) :: buses =>
      b ← get_bus bus;
      put_bus bus (set_bus_config (Some instance) b);;
      result ← rt_spi_bus_register bus name;
      RT_ASSERT (result =? RT_EOK);;
      match buses with [] => mret result | _ => rt_hw_spi_bus_init buses end
  end.

Section spi.
Context `{CleanupCall} `{SpiHw}.

(** ** Transfers *)
Definition bus_owner_is (bus device : ptr) : K bool :=
  b ← get_bus bus; mret (bool_decide (bus_owner b = Some device)).

(** With the bus locked: the peripheral gets the configuration of a device that
    was not the last owner; whether that worked. *)
Definition spi_own (device bus : ptr) : proc bool :=
  (same <~ atomic (bus_owner_is bus device);
   if same : bool then Ret true
   else
     result <~ atomic (spi_configure device);
     if result =? RT_EOK then
       atomic (b ← get_bus bus; put_bus bus (set_bus_owner (Some device) b)) ~; Ret true
     else Ret false)%proc.

Definition rt_spi_configure (device : ptr) (cfg : rt_spi_configuration) : proc Z :=
  (bus <~ atomic (
     d ← get_spidev device;
     put_spidev device (set_sd_config (SpiCfg (Z.land (spi_mode cfg) RT_SPI_MODE_MASK) (spi_data_width cfg) (spi_max_hz cfg)) d);;
     mret (sd_bus d));
   match bus with
   | None => Ret RT_EOK
   | Some bus =>
       result <~ rt_mutex_take (bus_lock bus) RT_WAITING_FOREVER;
       if result =? RT_EOK then
         same <~ atomic (bus_owner_is bus device);
         (if same : bool then atomic (spi_configure device) ~; Ret tt else Ret tt) ~;
         rt_mutex_release (bus_lock bus) ~;
         Ret RT_EOK
       else Ret RT_EOK
   end)%proc.

Definition rt_spi_send_then_send (device : ptr) (send_buf1 : option (list Z)) (send_length1 : Z)
    (send_buf2 : option (list Z)) (send_length2 : Z) : proc Z :=
  (bus <~ atomic (assert_bus device);
   result <~ rt_mutex_take (bus_lock bus) RT_WAITING_FOREVER;
   if result =? RT_EOK then
     own <~ spi_own device bus;
     result <~ (if own : bool then
         x <~ spixfer device (SpiMessage send_buf1 None send_length1 true false);
         if fst x =? 0 then Ret (- RT_EIO)
         else
           x <~ spixfer device (SpiMessage send_buf2 None send_length2 false true);
           if fst x =? 0 then Ret (- RT_EIO) else Ret RT_EOK
       else Ret (- RT_EIO));
     rt_mutex_release (bus_lock bus) ~;
     Ret result
   else Ret (- RT_EIO))%proc.

(** The result and the receive buffer. *)
Definition rt_spi_send_then_recv (device : ptr) (send : option (list Z)) (send_length : Z)
    (recv : option (list Z)) (recv_length : Z) : proc (Z * option (list Z)) :=
  (bus <~ atomic (assert_bus device);
   result <~ rt_mutex_take (bus_lock bus) RT_WAITING_FOREVER;
   if result =? RT_EOK then
     own <~ spi_own device bus;
     result <~ (if own : bool then
         x <~ spixfer device (SpiMessage send None send_length true false);
         if fst x =? 0 then Ret (- RT_EIO, recv)
         else
           x <~ spixfer device (SpiMessage None recv recv_length false true);
           if fst x =? 0 then Ret (- RT_EIO, snd x) else Ret (RT_EOK, snd x)
       else Ret (- RT_EIO, recv));
     rt_mutex_release (bus_lock bus) ~;
     Ret result
   else Ret (- RT_EIO, recv))%proc.

(** The result and the receive buffer. *)
Definition rt_spi_transfer (device : ptr) (send recv : option (list Z)) (length : Z) : proc (Z * option (list Z)) :=
  (bus <~ atomic (assert_bus device);
   result <~ rt_mutex_take (bus_lock bus) RT_WAITING_FOREVER;
   if result =? RT_EOK then
     own <~ spi_own device bus;
     result <~ (if own : bool then
         x <~ spixfer device (SpiMessage send recv length true true);
         if fst x =? 0 then atomic (rt_set_errno (- RT_EIO)) ~; Ret x else Ret x
       else atomic (rt_set_errno (- RT_EIO)) ~; Ret (0, recv));
     rt_mutex_release (bus_lock bus) ~;
     Ret result
   else atomic (rt_set_errno (- RT_EIO)) ~; Ret (0, recv))%proc.

(** The loop over a list of messages: the messages that are left, the first of
    them the one that failed, and the receive buffers of those before and of
    the failed one. *)
Fixpoint transmit_messages (device : ptr) (index : list rt_spi_message) (bufs : list (option (list Z)))
    : proc (list rt_spi_message * list (option (list Z))) :=
  match index with
  | [] => Ret ([], bufs)
  | m :: next =>
      (x <~ spixfer device m;
       if fst x =? 0 then atomic (rt_set_errno (- RT_EIO)) ~; Ret (index, bufs ++ [snd x])
       else transmit_messages device next (bufs ++ [snd x]))%proc
  end.
Definition rt_spi_transfer_message (device : ptr) (message : list rt_spi_message)
    : proc (list rt_spi_message * list (option (list Z))) :=
  match message with
  | [] => Ret ([], [])
  | _ =>
      (bus <~ atomic (bus_of device);
       result <~ rt_mutex_take (bus_lock bus) RT_WAITING_FOREVER;
       if negb (result =? RT_EOK) then atomic (rt_set_errno (- RT_EBUSY)) ~; Ret (message, [])
       else
         atomic (rt_set_errno RT_EOK) ~;
         own <~ spi_own device bus;
         result <~ (if own : bool then transmit_messages device message []
                    else atomic (rt_set_errno (- RT_EIO)) ~; Ret (message, []));
         rt_mutex_release (bus_lock bus) ~;
         Ret result)%proc
  end.

Definition rt_spi_take_bus (device : ptr) : proc Z :=
  (bus <~ atomic (assert_bus device);
   result <~ rt_mutex_take (bus_lock bus) RT_WAITING_FOREVER;
   if negb (result =? RT_EOK) then atomic (rt_set_errno (- RT_EBUSY)) ~; Ret (- RT_EBUSY)
   else
     atomic (rt_set_errno RT_EOK) ~;
     own <~ spi_own device bus;
     if own : bool then Ret RT_EOK
     else
       atomic (rt_set_errno (- RT_EIO)) ~;
       rt_mutex_release (bus_lock bus) ~;
       Ret (- RT_EIO))%proc.

Definition rt_spi_release_bus (device : ptr) : proc Z :=
  (bus <~ atomic (bus ← assert_bus device; same ← bus_owner_is bus device; RT_ASSERT same;; mret bus);
   rt_mutex_release (bus_lock bus) ~;
   Ret RT_EOK)%proc.

Definition rt_spi_take (device : ptr) : proc Z :=
  (atomic (assert_bus device) ~; x <~ spixfer device (SpiMessage None None 0 true false); Ret (fst x))%proc.
Definition rt_spi_release (device : ptr) : proc Z :=
  (atomic (assert_bus device) ~; x <~ spixfer device (SpiMessage None None 0 false true); Ret (fst x))%proc.

(** ** As devices (spi_dev.c) *)

(** A read gives as many bytes as the transfer's result says. *)
Definition read_bytes (device : ptr) (size : Z) : proc (list Z) :=
  (r <~ rt_spi_transfer device None (Some (replicate (Z.to_nat size) 0)) size;
   Ret (take (Z.to_nat (fst r)) (default [] (snd r))))%proc.

Definition bus_device (bus : ptr) : K ptr :=
  b ← get_bus bus; RT_ASSERT (bool_decide (is_Some (bus_owner b)));; lift (bus_owner b).
Definition _spi_bus_device_read (dev : ptr) (pos size : Z) : proc (list Z) :=
  (owner <~ atomic (bus_device dev); read_bytes owner size)%proc.
Definition _spi_bus_device_write (dev : ptr) (pos : Z) (buffer : list Z) : proc Z :=
  (owner <~ atomic (bus_device dev);
   r <~ rt_spi_transfer owner (Some buffer) None (Z.of_nat (length buffer)); Ret (fst r))%proc.
Definition _spi_bus_device_control (dev : ptr) (cmd : Z) (args : ctl_arg) : K Z := mret RT_EOK.

Definition _spidev_device_read (dev : ptr) (pos size : Z) : proc (list Z) :=
  (atomic (assert_bus dev) ~; read_bytes dev size)%proc.
Definition _spidev_device_write (dev : ptr) (pos : Z) (buffer : list Z) : proc Z :=
  (atomic (assert_bus dev) ~;
   r <~ rt_spi_transfer dev (Some buffer) None (Z.of_nat (length buffer)); Ret (fst r))%proc.
Definition _spidev_device_control (dev : ptr) (cmd : Z) (args : ctl_arg) : K Z := mret RT_EOK.

Definition spi_bus_ops : rt_device_ops := {|
  op_init := None; op_open := None; op_close := None;
  op_read := Some _spi_bus_device_read;
  op_write := Some _spi_bus_device_write;
  op_control := Some _spi_bus_device_control
|}.
Definition spi_device_ops : rt_device_ops := {|
  op_init := None; op_open := None; op_close := None;
  op_read := Some _spidev_device_read;
  op_write := Some _spidev_device_write;
  op_control := Some _spidev_device_control
|}.
End spi.

(** ** Every transfer ends *)
Section ending.
Context `{CleanupCall} `{SpiHw}.

Lemma mutex_take_ends o time : ends 3 (rt_mutex_take o time) (fun _ => True).
Proof. apply ends_atomic. intros [e|t]; [by apply ends_ret|]. apply ends_atomic. intros _. apply ends_atomic. intros e. by apply ends_ret. Qed.

Lemma mutex_release_ends o : ends 2 (rt_mutex_release o) (fun _ => True).
Proof. apply ends_atomic. intros [r [|]]; [|by apply ends_ret]. apply ends_atomic. intros _. by apply ends_ret. Qed.

Lemma spi_own_ends device bus : ends 3 (spi_own device bus) (fun _ => True).
Proof.
  apply ends_atomic. intros [|]; [by apply ends_ret|]. apply ends_atomic. intros r. destruct (r =? RT_EOK); [|by apply ends_ret].
  apply ends_atomic. intros _. by apply ends_ret.
Qed.

(** C15: [rt_spi_transfer] ends in every interleaving and whatever the peripheral
    answers, even if it never does: after at most 814 moves for each byte
    and 14 more - sections of code or rounds of a loop - not counting the time
    it is kept waiting for the bus.  Its result is the length asked for, or 0. *)
Theorem rt_spi_transfer_ends device send recv len : 0 <= len < 2 ^ 32 ->
  ends (814 * Z.to_nat len + 14) (rt_spi_transfer device send recv len) (fun r => fst r = len \/ fst r = 0).
Proof.
  intros Hlen. unfold rt_spi_transfer.
  apply (ends_weaken (S (3 + (3 + (xfer_bound len + 1 + 2)))) _ _ (fun r : Z * option (list Z) => fst r = len \/ fst r = 0));
    [|unfold xfer_bound; lia|done].
  apply ends_atomic. intros bus. eapply ends_bind; [apply mutex_take_ends|]. intros e _. destruct (e =? RT_EOK).
  2:{ apply (ends_weaken 1 _ _ (fun r : Z * option (list Z) => fst r = len \/ fst r = 0)); [|lia|done].
      apply ends_atomic. intros _. apply ends_ret. by right. }
  eapply ends_bind; [apply spi_own_ends|]. intros own _.
  eapply (ends_bind _ _ _ _ (fun r : Z * option (list Z) => fst r = len \/ fst r = 0)).
  - destruct own.
    + eapply ends_bind; [exact (spixfer_ends device (SpiMessage send recv len true true) Hlen)|].
      intros x Hx. cbn [msg_length] in Hx. destruct (fst x =? 0).
      * apply ends_atomic. intros _. apply ends_ret. by left.
      * apply ends_ret. by left.
    + apply (ends_weaken 1 _ _ (fun r : Z * option (list Z) => fst r = len \/ fst r = 0)); [|lia|done].
      apply ends_atomic. intros _. apply ends_ret. by right.
  - intros r Hr. apply (ends_weaken (2 + 0) _ _ (fun r : Z * option (list Z) => fst r = len \/ fst r = 0)); [|lia|done].
    eapply ends_bind; [apply mutex_release_ends|]. intros _ _. by apply ends_ret.
Qed.
End ending.

(** ** Requests, and what the wires show of them *)

(** What a thread asks of its device. *)
Inductive request :=
| Transfer (send recv : option (list Z)) (len : Z)
| Send_send (send1 : option (list Z)) (len1 : Z) (send2 : option (list Z)) (len2 : Z)
| Send_recv (send : option (list Z)) (send_len : Z) (recv : option (list Z)) (recv_len : Z)
| Messages (message : list rt_spi_message).

(** What it gets: a number (the result, or how many messages are left) and the
    receive buffers. *)
Definition response : Type := Z * list (option (list Z)).

Definition messages_of (req : request) : list rt_spi_message :=
  match req with
  | Transfer send recv len => [SpiMessage send recv len true true]
  | Send_send send1 len1 send2 len2 => [SpiMessage send1 None len1 true false; SpiMessage send2 None len2 false true]
  | Send_recv send len recv len' => [SpiMessage send None len true false; SpiMessage None recv len' false true]
  | Messages ms => ms
  end.

(** The response when the messages with the buffers [rs] were tried and [rem]
    are left. *)
Definition response_of (req : request) (rs : list (option (list Z))) (rem : list rt_spi_message) : response :=
  let ok := match rem with [] => true | _ => false end in
  match req with
  | Transfer send recv len => (if ok then len else 0, [default recv (head rs)])
  | Send_send _ _ _ _ => (if ok then RT_EOK else - RT_EIO, [])
  | Send_recv _ _ recv _ => (if ok then RT_EOK else - RT_EIO, [default recv (head (tail rs))])
  | Messages ms => (Z.of_nat (length rem), rs)
  end.

Definition request_ok (req : request) : Prop := messages_of req <> [] /\ Forall message_ok (messages_of req).

Section requests.
Context `{CleanupCall} `{SpiHw}.

Definition run_request (device : ptr) (req : request) : proc response :=
  match req with
  | Transfer send recv len => (r <~ rt_spi_transfer device send recv len; Ret (fst r, [snd r]))%proc
  | Send_send send1 len1 send2 len2 => (r <~ rt_spi_send_then_send device send1 len1 send2 len2; Ret (r, []))%proc
  | Send_recv send len recv len' => (r <~ rt_spi_send_then_recv device send len recv len'; Ret (fst r, [snd r]))%proc
  | Messages ms => (r <~ rt_spi_transfer_message device ms; Ret (Z.of_nat (length (fst r)), snd r))%proc
  end.

(** Messages one after the other, up to the first of length 0: their buffers,
    the events on the wires, and the messages left. *)
Inductive performed (bus : ptr) (d : rt_spi_device) (c : Z) :
    list rt_spi_message -> list (option (list Z)) -> list wire -> list rt_spi_message -> Prop :=
| pf_all : performed bus d c [] [] [] []
| pf_stop m rest r ev : msg_length m = 0 -> message_done bus d c m (0, r) ev ->
    performed bus d c (m :: rest) [r] ev (m :: rest)
| pf_next m rest r ev rs evs rem : msg_length m <> 0 -> message_done bus d c m (msg_length m, r) ev ->
    performed bus d c rest rs evs rem -> performed bus d c (m :: rest) (r :: rs) (ev ++ evs) rem.

Definition width_ok (cfg : rt_spi_configuration) : bool := (spi_data_width cfg =? 8) || (spi_data_width cfg =? 16).

(** A transaction: under the settings of the device's configuration, its
    messages; or nothing, if the configuration is refused. *)
Definition transaction (bus : ptr) (clock : Z) (d : rt_spi_device) (req : request) (resp : response) (ev : list wire) : Prop :=
  if width_ok (sd_config d) then
    exists c rs rem, ctlr1_of (sd_config d) clock 0 c /\ performed bus d c (messages_of req) rs ev rem /\
      resp = response_of req rs rem
  else ev = [] /\ resp = response_of req [] (messages_of req).
End requests.
