(* ===== verification/SpiBus.v ===== *)
(** * The SPI bus in every interleaving

    Threads send requests over one bus ([SpiCore]), each by a program of its
    own.  The rely-guarantee logic of [Conc] is used with a ghost history of
    transactions: a thread that holds the mutex of the bus knows the exact
    state of the bus and the events of its transaction so far; the mutex hands
    both on from one thread to the next. *)
From S2P Require Import Prelude DevState KState Scheduler Object Timer Proc Thread Ipc Mutex Conc Completion Device Spi SpiCore.

(** A finished transaction. *)
Record entry := Entry {
  en_thread : ptr;
  en_device : ptr;
  en_request : request;
  en_response : response;
  en_events : list wire
}.

(** The ghost state: the finished transactions, whether a thread is at work on
    the bus, and the events of its transaction so far. *)
Record bhist := BHist { g_done : list entry; g_open : bool; g_part : list wire }.

Definition hist_of (t : ptr) (g : bhist) : list entry := filter (fun e => en_thread e = t) (g_done g).

Section bus.
Context (app : positive -> ptr -> K unit) `{CleanupCall} `{SpiHw}.
(** The program of each thread: its next request and device, how it goes on
    from the response, and how many requests it makes.  [b] is the bus, with the peripheral [inst]; [users]
    are the threads with their initial states, [tid] the idle thread, [devs]
    the devices on the bus; [wire0] is what happened before. *)
Context {X : Type} (program : ptr -> X -> ptr * request) (next : ptr -> X -> response -> X) (count : ptr -> nat).
Context (b tid : ptr) (inst : Z) (users : gmap ptr X) (devs : gmap ptr rt_spi_device) (wire0 : list wire).

(** A device on the bus: with two data lines, and a chip select unless it says
    that it has none. *)
Record device_ok (d : rt_spi_device) : Prop := {
  do_bus : sd_bus d = Some b;
  do_wires : flagged (spi_mode (sd_config d)) RT_SPI_3WIRE = false;
  do_cs : flagged (spi_mode (sd_config d)) RT_SPI_NO_CS = true \/ is_Some (sd_cs d)
}.
Context (Hidle : users !! tid = None).
Context (Hdevs : forall d x, devs !! d = Some x -> device_ok x).
Context (Hprogram : forall t x, is_Some (users !! t) ->
  is_Some (devs !! (program t x).1) /\ request_ok (program t x).2).

Abbreviation lock := (bus_lock b).
Definition clock : Z := if bool_decide (inst = 1) then PCLK2_Frequency else PCLK1_Frequency.

Definition valid (e : entry) : Prop := exists d, devs !! en_device e = Some d /\
  transaction b clock d (en_request e) (en_response e) (en_events e).

(** The transactions that the program of [t] makes from [x0], and its state
    after them. *)
Inductive runs (t : ptr) (x0 : X) : list entry -> X -> Prop :=
| runs_start : runs t x0 [] x0
| runs_next l x resp ev : runs t x0 l x ->
    runs t x0 (l ++ [Entry t (program t x).1 (program t x).2 resp ev]) (next t x resp).

(** *** The invariant *)

(** The peripheral has the configuration of the bus's owner. *)
Definition settled (B : rt_spi_bus) : Prop := forall d, bus_owner B = Some d ->
  exists x, devs !! d = Some x /\ width_ok (sd_config x) = true /\
    ctlr1_of (sd_config x) clock 0 (sp_ctlr1 (bus_port B)).

Record port_ok (g : bhist) (B : rt_spi_bus) : Prop := {
  po_config : bus_config B = Some inst;
  po_crc : Z.testbit (sp_ctlr1 (bus_port B)) 12 = false /\ Z.testbit (sp_ctlr1 (bus_port B)) 13 = false;
  po_wire : sp_wire (bus_port B) = wire0 ++ concat (map en_events (g_done g)) ++ g_part g;
  po_idle : g_open g = false -> g_part g = [] /\ settled B
}.

Record inv (w : bhist * kst) : Prop := {
  bi_mutex : exists m, mtx_ok lock m w.2 /\ (g_open w.1 = true -> is_Some (mtx_owner m));
  bi_lock : k_lock w.2 = 0;
  bi_idle : exists th, k_threads w.2 !! tid = Some th /\ runnable th;
  bi_bus : exists B, dr_buses (k_drv w.2) !! b = Some B /\ port_ok w.1 B;
  bi_devs d x : devs !! d = Some x -> dr_spidevs (k_drv w.2) !! d = Some x;
  bi_done : Forall valid (g_done w.1);
  bi_runs t x0 : users !! t = Some x0 -> exists x, runs t x0 (hist_of t w.1) x
}.

Lemma bus_calm w : inv w -> calm w.2.
Proof. intros Hi. destruct (bi_mutex _ Hi) as (m & Hm & _). apply Hm. Qed.

(** *** What a thread can be *)
Definition waits_for_bus (t : ptr) (s : kst) : Prop := t ∈ getq (k_qs s) (QSuspend lock).
Definition owner_of (s : kst) : option ptr := m ← k_mutexes s !! lock; mtx_owner m.
Definition owns (t : ptr) (s : kst) : Prop := exists m, k_mutexes s !! lock = Some m /\ mtx_owner m = Some t /\ mtx_hold m = 1.
Definition outside (t : ptr) (s : kst) : Prop := owner_of s <> Some t /\ ~ waits_for_bus t s.
(** Waiting, without a timeout, or just made the owner. *)
Definition pending (t : ptr) (w : bhist * kst) : Prop :=
  th_error <$> k_threads w.2 !! t = Some RT_EOK /\ thread_timer t ∉ k_tlist w.2 /\
  (waits_for_bus t w.2 \/ owns t w.2 /\ g_open w.1 = false).
(** At work. *)
Definition inside (t : ptr) (B : rt_spi_bus) (part : list wire) (w : bhist * kst) : Prop :=
  owns t w.2 /\ g_open w.1 = true /\ g_part w.1 = part /\ dr_buses (k_drv w.2) !! b = Some B.

Lemma owns_owner t s : owns t s -> owner_of s = Some t.
Proof. intros (m & Hm & Ho & _). unfold owner_of. by rewrite Hm. Qed.

(** *** Rely and guarantee *)
Definition rely (t : ptr) (w w' : bhist * kst) : Prop := is_Some (users !! t) ->
  (outside t w.2 -> outside t w'.2) /\ (pending t w -> pending t w') /\
  (forall B part, inside t B part w -> inside t B part w') /\
  (awake t w.2 -> awake t w'.2) /\ hist_of t w'.1 = hist_of t w.1.
Definition guar (t : ptr) (w w' : bhist * kst) : Prop := forall t', t' <> t -> rely t' w w'.

Lemma bus_rely_refl t w : rely t w w.
Proof. done. Qed.
Lemma bus_guar_refl t w : guar t w w.
Proof. intros t' _. apply bus_rely_refl. Qed.

(** What a section of the running thread [t] owes the others. *)
Record considerate (t : ptr) (g g' : bhist) (s s' : kst) : Prop := {
  cs_owner x : x <> t -> owner_of s' = Some x -> owner_of s = Some x \/ waits_for_bus x s;
  cs_waits x : x <> t -> waits_for_bus x s -> waits_for_bus x s' \/ owns x s' /\ g_open g' = false;
  cs_owns x : x <> t -> owns x s -> owns x s' /\ g' = g;
  cs_hist x : x <> t -> hist_of x g' = hist_of x g
}.

Lemma section_guar go t g g' s s' : k_cur s = Some t -> gentle go t s s' -> considerate t g g' s s' ->
  guar t (g, s) (g', s').
Proof.
  intros Hc Hg [C1 C2 C3 C4] x Hx Hu.
  assert (x <> t \/ go = true) as Hor by (by left).
  assert (waits_for_bus x s' -> waits_for_bus x s) as Hw by (by apply (gn_queues _ _ _ _ Hg)).
  unfold pending, inside. cbn [fst snd]. split; [|split; [|split; [|split]]].
  - intros [H1 H2]. split; [|auto]. intros E. by destruct (C1 x Hx E).
  - intros (H1 & H2 & H3). split; [by rewrite (gn_error _ _ _ _ Hg x Hx)|]. split.
    + intros Hin. destruct (gn_tlist _ _ _ _ Hg _ Hin) as [|[_ E]]; [done|]. by apply thread_timer_inj in E.
    + destruct H3 as [H3|[H3 H4]]; [by apply C2|]. right. by destruct (C3 x Hx H3) as [? ->].
  - intros B part (H1 & H2 & H3 & H4). destruct (C3 x Hx H1) as [? ->]. split; [done|]. split; [done|]. split; [done|].
    by rewrite (gn_drv _ _ _ _ Hg).
  - intros _ Hc'. rewrite (gn_cur _ _ _ _ Hg) in Hc'. congruence.
  - by apply C4.
Qed.

(** *** Other code *)

(** Other threads keep off the bus, its devices and the users. *)
Record elsewhere (s s' : kst) : Prop := {
  el_calm : calm s';
  el_objs : objs_step (k_objs s) (k_objs s');
  el_mutex : k_mutexes s' !! lock = k_mutexes s !! lock;
  el_queue : getq (k_qs s') (QSuspend lock) `sublist_of` getq (k_qs s) (QSuspend lock);
  el_threads : threads_kept (k_threads s) (k_threads s');
  el_lock : k_lock s' = k_lock s;
  el_bus : dr_buses (k_drv s') !! b = dr_buses (k_drv s) !! b;
  el_devs d : is_Some (devs !! d) -> dr_spidevs (k_drv s') !! d = dr_spidevs (k_drv s) !! d;
  el_runnable x th : x = tid \/ is_Some (users !! x) -> k_threads s !! x = Some th -> runnable th ->
    exists th', k_threads s' !! x = Some th' /\ runnable th';
  el_switched x : is_Some (users !! x) -> k_cur s' = Some x ->
    k_cur s = Some x \/ exists th, k_threads s' !! x = Some th /\ runnable th;
  el_timer x : is_Some (users !! x) -> thread_timer x ∉ k_tlist s ->
    thread_timer x ∉ k_tlist s' /\ th_error <$> k_threads s' !! x = th_error <$> k_threads s !! x /\
    (waits_for_bus x s -> waits_for_bus x s')
}.
Definition env (s s' : kst) : Prop := background app s s' \/ elsewhere s s'.

Lemma bus_background s s' : calm s -> background app s s' -> elsewhere s s'.
Proof.
  intros Hc Hb. destruct (background_ok app s s' Hc Hb) as [Hc' [Q1 Q2 Q3 Q4 Q5 Q6 Q7 Q8 Q9]]. split; try done.
  - exact (f_equal (fun x => k_mutexes x !! lock) Q1).
  - by apply Q3.
  - exact (f_equal k_lock Q1).
  - exact (f_equal (fun x => dr_buses (k_drv x) !! b) Q1).
  - intros d _. exact (f_equal (fun x => dr_spidevs (k_drv x) !! d) Q1).
  - intros x th _. apply Q5.
  - intros x _. apply Q6.
  - intros x _ Hx. split; [intros Hin; by apply Hx, Q7|]. split; [by apply Q8|]. by apply Q9.
Qed.

Lemma mtx_elsewhere m s s' : mtx_ok lock m s -> elsewhere s s' -> mtx_ok lock m s'.
Proof. intros Hm He. apply (mtx_ok_frame lock m s); [done|apply He..| |apply He|apply He]. rewrite (el_mutex _ _ He). apply Hm. Qed.

Lemma elsewhere_owns x s s' : elsewhere s s' -> owns x s -> owns x s'.
Proof. intros He. unfold owns. by rewrite (el_mutex _ _ He). Qed.

Lemma elsewhere_rely g s s' t : elsewhere s s' -> rely t (g, s) (g, s').
Proof.
  intros He Hu. unfold pending, inside. cbn [fst snd].
  assert (waits_for_bus t s' -> waits_for_bus t s) as Hw by (intros Hin; eapply sublist_subseteq; [apply He|exact Hin]).
  split; [|split; [|split; [|split]]]; [..|done].
  - intros [H1 H2]. split; [|auto]. unfold owner_of in *. by rewrite (el_mutex _ _ He).
  - intros (H1 & H2 & H3). destruct (el_timer _ _ He t Hu H2) as (H4 & -> & H5). split; [done|]. split; [done|].
    destruct H3 as [H3|[H3 H6]]; [left; auto|right]. split; [by eapply elsewhere_owns|done].
  - intros B part (H1 & H2 & H3 & H4). rewrite (el_bus _ _ He). split; [by eapply elsewhere_owns|done].
  - intros Ha Hc. destruct (el_switched _ _ He t Hu Hc) as [Hc'|]; [|done].
    destruct (Ha Hc') as (th & E & Hr). apply (el_runnable _ _ He t th); [by right|done..].
Qed.

Lemma elsewhere_inv g s s' : inv (g, s) -> elsewhere s s' -> inv (g, s').
Proof.
  intros [(m & H1 & H1') H2 (th & Eth & Hth) H4 H5 H6 H7] He. cbn [fst snd] in *. split; cbn [fst snd]; try done.
  - exists m. split; [by eapply mtx_elsewhere|done].
  - by rewrite (el_lock _ _ He).
  - apply (el_runnable _ _ He tid th); [by left|done..].
  - by rewrite (el_bus _ _ He).
  - intros d x Hd. rewrite (el_devs _ _ He d) by (by eexists). auto.
Qed.

Lemma bus_env_keeps g s s' : inv (g, s) -> env s s' -> exists g', inv (g', s') /\ (forall t, rely t (g, s) (g', s')) /\ True.
Proof.
  intros Hi He. assert (elsewhere s s') as Hel by (destruct He; [apply bus_background; [by apply (bus_calm (g, s))|]|]; done).
  exists g. split; [by eapply elsewhere_inv|]. split; [|done]. intros t. by apply elsewhere_rely.
Qed.

(** *** What a thread knows *)
Inductive stage := Outside | Waiting | Inside (B : rt_spi_bus) (part : list wire).
Record view := View { v_hist : list entry; v_stage : stage; v_awake : bool }.
Definition at_stage (t : ptr) (st : stage) (w : bhist * kst) : Prop :=
  match st with Outside => outside t w.2 | Waiting => pending t w | Inside B part => inside t B part w end.
Record known (t : ptr) (v : view) (w : bhist * kst) : Prop := {
  kn_hist : hist_of t w.1 = v_hist v;
  kn_stage : at_stage t (v_stage v) w;
  kn_awake : v_awake v = true -> awake t w.2
}.

Lemma bus_known_stable t v : is_Some (users !! t) -> stable inv (rely t) (known t v).
Proof.
  intros Hu w w' _ [H1 H2 H3] HR _. destruct (HR Hu) as (R1 & R2 & R3 & R4 & R5). split; [by rewrite R5| |auto].
  destruct (v_stage v); cbn [at_stage] in *; auto.
Qed.

(** ** The sections of one user *)
Section user.
Context (t : ptr) (x0 : X) (Hu : users !! t = Some x0).
Abbreviation triple_of := (triple inv t (rely t) (guar t) (known t)).

Lemma user_stable v : stable inv (rely t) (known t v).
Proof. apply bus_known_stable. by eexists. Qed.

Lemma user_not_idle : tid <> t.
Proof. intros ->. congruence. Qed.

Lemma user_running v g s : inv (g, s) -> known t v (g, s) -> v_awake v = true -> k_cur s = Some t ->
  exists th, k_threads s !! t = Some th /\ state_of th = RT_THREAD_RUNNING.
Proof. intros Hi [_ _ Ha] Hv Hc. apply awake_running; [by apply (bus_calm (g, s))|done|]. by apply Ha. Qed.

(** The invariant after a section that leaves the drivers alone and finishes
    nothing. *)
Lemma inv_section go g g' s s' m : inv (g, s) -> gentle go t s s' -> mtx_ok lock m s' ->
  (g_open g' = true -> is_Some (mtx_owner m)) -> (forall B, port_ok g B -> port_ok g' B) -> g_done g' = g_done g ->
  inv (g', s').
Proof.
  intros [_ H2 (th & Eth & Hth) (B & H4 & H4') H5 H6 H7] Hg Hm Ho Hp Hd. cbn [fst snd] in *. split; cbn [fst snd].
  - by exists m.
  - by rewrite (gn_lock _ _ _ _ Hg).
  - apply (gn_runnable _ _ _ _ Hg tid th); [left; apply user_not_idle|done..].
  - exists B. rewrite (gn_drv _ _ _ _ Hg). auto.
  - intros d x. rewrite (gn_drv _ _ _ _ Hg). apply H5.
  - by rewrite Hd.
  - unfold hist_of. rewrite Hd. exact H7.
Qed.

(** A section of the thread at work: the bus goes from [B] to [B'], with
    the events [ev]. *)
Record moves (B B' : rt_spi_bus) (ev : list wire) : Prop := {
  mv_config : bus_config B' = bus_config B;
  mv_crc : Z.testbit (sp_ctlr1 (bus_port B')) 12 = Z.testbit (sp_ctlr1 (bus_port B)) 12 /\
           Z.testbit (sp_ctlr1 (bus_port B')) 13 = Z.testbit (sp_ctlr1 (bus_port B)) 13;
  mv_wire : sp_wire (bus_port B') = sp_wire (bus_port B) ++ ev
}.

Lemma mtx_ok_drv m v s : mtx_ok lock m s -> mtx_ok lock m (set_k_drv v s).
Proof.
  intros Hm. apply (mtx_ok_frame lock m s); [done|apply calm_drv, Hm|apply objs_step_refl|apply Hm|done|].
  intros x. change (k_threads (set_k_drv v s)) with (k_threads s). destruct (k_threads s !! x); eauto using kept_refl.
Qed.

Lemma inside_section {A} h B part (m : K A) (Q : A -> view -> Prop) :
  (forall s, dr_buses (k_drv s) !! b = Some B -> bus_config B = Some inst ->
     Z.testbit (sp_ctlr1 (bus_port B)) 12 = false /\ Z.testbit (sp_ctlr1 (bus_port B)) 13 = false ->
     (forall d x, devs !! d = Some x -> dr_spidevs (k_drv s) !! d = Some x) ->
     exists a B' ev, m s = Ok a (upd_bus b B' s) /\ moves B B' ev /\ Q a (View h (Inside B' (part ++ ev)) true)) ->
  triple_of (View h (Inside B part) true) (atomic m) Q.
Proof.
  intros Hm. apply triple_sec; [apply user_stable|]. intros [[done_ open part0] s] Hi [Hh (Ho & Eo & Ep & Eb) Ha] Hc.
  cbn [fst snd g_open g_part v_hist v_awake] in *. subst open part0.
  pose proof Hi as [(mx & H1 & H1') H2 H3 (B0 & H4 & [P1 P2 P3 P4]) H5 H6 H7]. cbn [fst snd g_done g_part g_open] in *.
  assert (B0 = B) as -> by congruence.
  destruct (Hm s Eb P1 P2 H5) as (a & B' & ev & Hrun & [M1 M2 M3] & HQ).
  exists a, (BHist done_ true (part ++ ev), upd_bus b B' s), (View h (Inside B' (part ++ ev)) true).
  split; [exact Hrun|]. split; [|split; [|split; [|done]]].
  - split; cbn [fst snd]; try done.
    + exists mx. split; [by apply mtx_ok_drv|done].
    + exists B'. split; [apply lookup_insert_eq|]. split; cbn [g_done g_part g_open]; [congruence|destruct P2, M2; split; congruence| |done].
      by rewrite M3, P3, <- !app_assoc.
  - intros y Hy _. unfold inside. split; [done|]. split; [done|]. split; [|split; [|done]]; cbn [fst snd].
    + intros B1 p1 (Hy1 & _). apply owns_owner in Ho, Hy1. congruence.
    + intros _ Hcy. cbn in Hcy. congruence.
  - split; [done|split; [done|split; [done|split; [done|apply lookup_insert_eq]]]|exact Ha].
Qed.

(** [rt_set_errno] sets the error of the thread. *)
Lemma errno_section h B part e :
  triple_of (View h (Inside B part) true) (atomic (rt_set_errno e)) (fun _ v => v = View h (Inside B part) true).
Proof.
  apply triple_sec; [apply user_stable|]. intros [g s] Hi Hk Hc. cbn [snd] in Hc.
  destruct (user_running _ g s Hi Hk eq_refl Hc) as (th & Eth & Hr). destruct Hk as [Hh (Ho & Eo & Ep & Eb) Ha]. cbn [fst snd] in *.
  pose proof (bus_calm _ Hi) as Hcalm. destruct (bi_mutex _ Hi) as (m & Hm & Hm'). cbn [fst snd] in *.
  pose proof (gentle_error s t th e Eth) as Hg.
  exists tt, (g, with_error t th e s), (View h (Inside B part) true). split; [|split; [|split; [|split; [|done]]]].
  - unfold rt_set_errno. cbn [snd]. erewrite run_bind by done. rewrite (cm_nest _ Hcalm). cbn [Z.eqb negb].
    erewrite run_bind by done. rewrite Hc. by apply set_error_run.
  - eapply (inv_section true g g s); [done|exact Hg|by apply mtx_ok_error|done..].
  - eapply section_guar; [done|exact Hg|]. split; auto.
  - split; [done|done|]. intros _ _. cbn. rewrite lookup_insert_eq. eexists. split; [done|]. by right.
Qed.

(** *** Taking the bus *)

Lemma schedule_section h st a : triple_of (View h st a) (atomic rt_schedule) (fun _ v => v = View h st true).
Proof.
  apply triple_sec; [apply user_stable|]. intros [g s] Hi Hk Hc. cbn [snd] in *.
  destruct (schedule_awake app t tid s (bus_calm _ Hi) (bi_lock _ Hi) (bi_idle _ Hi) (not_eq_sym user_not_idle) Hc) as (s' & Hrun & Hb & Ha).
  pose proof (bus_background s s' (bus_calm _ Hi) Hb) as He.
  pose proof (elsewhere_inv g s s' Hi He) as Hi'.
  exists tt, (g, s'), (View h st true). split; [done|]. split; [done|]. split; [intros y _; by apply elsewhere_rely|]. split; [|done].
  destruct (user_stable (View h st false) (g, s) (g, s')) as [K1 K2 _]; [done|split; [apply Hk|apply Hk|done]|by apply elsewhere_rely|done|].
  split; [done|done|]. intros _. apply Ha.
Qed.

(** The thread gets the bus. *)
Lemma owns_mutex m s : k_mutexes s !! lock = Some m -> mtx_owner m = Some t -> mtx_hold m = 1 -> owns t s.
Proof. intros. by exists m. Qed.

Lemma open_port g B : g_open g = false -> port_ok g B ->
  settled B /\ port_ok (BHist (g_done g) true (g_part g)) B /\ g_part g = [].
Proof. intros Ho [P1 P2 P3 P4]. destruct (P4 Ho) as [E Hs]. split; [done|]. split; [|done]. by split. Qed.

Lemma take_free h : triple_of (View h Outside true) (atomic (mutex_take_section lock RT_WAITING_FOREVER)) (fun r v =>
  match r with
  | inl e => e = RT_EOK /\ exists B, settled B /\ v = View h (Inside B []) true
  | inr y => y = t /\ v = View h Waiting false
  end).
Proof.
  apply triple_sec; [apply user_stable|]. intros [g s] Hi Hk Hc. cbn [snd] in Hc.
  destruct (user_running _ g s Hi Hk eq_refl Hc) as (th & Eth & Hr). destruct Hk as [Hh [Hno Hnw] Ha]. cbn [fst snd v_hist v_awake] in *.
  destruct (bi_mutex _ Hi) as (m & Hm & Hm'). cbn [fst snd] in Hm, Hm'.
  destruct (mutex_take_outcome lock m s t th RT_WAITING_FOREVER Hm Hc Eth Hr) as (r & s' & Hrun & Hout); [done|].
  destruct (take_keeps lock m s t th _ r s' Hm Eth Hr Hout) as [m' Hmk].
  unfold take_outcome in Hout. unfold owner_of in Hno. rewrite (mo_mutex _ _ _ Hm) in Hno. cbn in Hno.
  destruct (mtx_owner m) as [w|] eqn:Eo.
  - rewrite decide_False in Hout by congruence. change (RT_WAITING_FOREVER =? 0) with false in Hout. cbv iota in Hout.
    destruct Hout as [-> Hw]. pose proof (mw_gentle _ _ _ _ _ _ Hw) as Hg.
    assert (k_mutexes s' = k_mutexes s) as Em by apply (ks_mutexes (mw_step _ _ _ _ _ _ Hw)).
    assert (m' = m) as -> by (pose proof (mo_mutex _ _ _ Hmk) as E; rewrite Em, (mo_mutex _ _ _ Hm) in E; congruence).
    destruct (mw_queue _ _ _ _ _ _ Hw) as (l1 & l2 & Eq & Eq' & _).
    exists (inr t), (g, s'), (View h Waiting false). split; [done|]. split; [|split; [|split; [|done]]].
    + eapply (inv_section false g g s); [done|exact Hg|exact Hmk|done..].
    + eapply section_guar; [done|exact Hg|]. split; unfold owner_of, owns, waits_for_bus; rewrite ?Em; [auto|..|auto|auto].
      intros x _ Hx. left. rewrite Eq'. rewrite Eq in Hx. set_solver.
    + split; [done| |done]. destruct (mw_thread _ _ _ _ _ _ Hw) as (th' & E' & _ & Ee). split; [cbn; by rewrite E', <- Ee|].
      split; cbn [snd].
      * rewrite (mw_forever _ _ _ _ _ _ Hw) by done. intros Hin.
        destruct (ki_waits _ _ (cm_kinv _ (mo_calm _ _ _ Hm)) _ Hin) as (y & thy & E & Ey & Hy).
        apply thread_timer_inj in E as <-. assert (thy = th) as -> by congruence. by rewrite Hr in Hy.
      * left. unfold waits_for_bus. rewrite Eq'. set_solver.
  - destruct Hout as [-> ->]. set (mo := Mutex 0 (th_current_priority th) 1 (Some t)) in *.
    pose proof (mo_owner _ _ _ Hm) as How. unfold Mutex.owner_ok in How. rewrite Eo in How. destruct How as (_ & _ & Hq).
    assert (g_open g = false) as Hopen by (destruct (g_open g); [by destruct (Hm' eq_refl)|done]).
    destruct (bi_bus _ Hi) as (B & HB & Hp). cbn [fst snd] in HB, Hp. destruct (open_port g B Hopen Hp) as (Hs & Hp' & Epart).
    assert (gentle true t s (set_k_mutexes (<[lock := mo]> (k_mutexes s)) (with_error t th RT_EOK s))) as Hg
      by (apply gentle_put_mutexes, gentle_error, Eth).
    assert (m' = mo) as -> by (pose proof (mo_mutex _ _ _ Hmk) as E; cbn in E; rewrite lookup_insert_eq in E; congruence).
    eexists (inl RT_EOK), (BHist (g_done g) true (g_part g), _), (View h (Inside B []) true). split; [exact Hrun|].
    split; [|split; [|split; [|by eauto]]].
    + eapply (inv_section true g _ s); [done|exact Hg|exact Hmk|by eexists|by intros B1 [? ? ? ?]|done].
    + eapply section_guar; [done|exact Hg|]. split; [| | |done].
      * intros x Hx. unfold owner_of. cbn. rewrite lookup_insert_eq. cbn. congruence.
      * intros x _. unfold waits_for_bus. rewrite Hq. by intros ?%not_elem_of_nil.
      * intros x _ Hx%owns_owner. unfold owner_of in Hx. rewrite (mo_mutex _ _ _ Hm) in Hx. cbn in Hx. congruence.
    + split; [done| |].
      * split; [exists mo; split; [apply lookup_insert_eq|done]|]. cbn [fst snd g_open g_part]. by rewrite Epart.
      * intros _ _. cbn. rewrite lookup_insert_eq. eexists. split; [done|]. by right.
Qed.

Lemma wait_over h : triple_of (View h Waiting true) (wait_end t) (fun r v =>
  r = RT_EOK /\ exists B, settled B /\ v = View h (Inside B []) true).
Proof.
  unfold wait_end. eapply triple_bind; [|intros e v Hv; apply triple_ret; [apply user_stable|exact Hv]].
  apply triple_sec; [apply user_stable|]. intros [g s] Hi Hk Hc. cbn [snd] in Hc.
  destruct (user_running _ g s Hi Hk eq_refl Hc) as (th & Eth & Hr). destruct Hk as [Hh (He & _ & Hw) Ha]. cbn [fst snd v_hist v_awake] in *.
  pose proof (bus_calm _ Hi) as Hcalm. cbn [snd] in Hcalm.
  assert (owns t s /\ g_open g = false) as [Ho Hopen].
  { destruct Hw as [Hw|]; [|done]. exfalso. eapply (runnable_no_waiter s t th); [apply Hcalm|done|by right| |exact Hw]. done. }
  destruct (bi_mutex _ Hi) as (m & Hm & Hm'). cbn [fst snd] in Hm, Hm'.
  destruct (bi_bus _ Hi) as (B & HB & Hp). cbn [fst snd] in HB, Hp. destruct (open_port g B Hopen Hp) as (Hs & Hp' & Epart).
  eexists _, (BHist (g_done g) true (g_part g), s), (View h (Inside B []) true).
  split; [unfold wait_result; by erewrite run_bind by (by apply get_thread_run)|]. split; [|split; [|split]].
  - eapply (inv_section true g _ s); [done|apply gentle_refl|exact Hm| |by intros B1 [? ? ? ?]|done].
    intros _. destruct Ho as (m1 & E1 & E2 & _). rewrite (mo_mutex _ _ _ Hm) in E1. injection E1 as <-. by rewrite E2.
  - eapply section_guar; [done|apply (gentle_refl true)|]. split; [auto|auto| |done].
    intros x Hx Hox. apply owns_owner in Ho, Hox. congruence.
  - split; [done| |done]. split; [done|]. cbn [fst snd g_open g_part]. by rewrite Epart.
  - split; [|by eauto]. rewrite Eth in He. cbn in He. by injection He as ->.
Qed.

Lemma take_bus h : triple_of (View h Outside true) (rt_mutex_take lock RT_WAITING_FOREVER) (fun r v =>
  r = RT_EOK /\ exists B, settled B /\ v = View h (Inside B []) true).
Proof.
  unfold rt_mutex_take. eapply triple_bind; [apply take_free|]. intros [e|y] v.
  - intros Hv. apply triple_ret; [apply user_stable|exact Hv].
  - intros [-> ->]. unfold after_wait. eapply triple_bind; [apply schedule_section|]. intros [] v ->. apply wait_over.
Qed.

(** *** Giving the bus back *)

Lemma inv_finish g s s' m' part x d req resp : inv (g, s) -> gentle true t s s' -> mtx_ok lock m' s' ->
  g_part g = part -> (forall B, dr_buses (k_drv s) !! b = Some B -> settled B) ->
  runs t x0 (hist_of t g) x -> program t x = (d, req) ->
  (exists D, devs !! d = Some D /\ transaction b clock D req resp part) ->
  inv (BHist (g_done g ++ [Entry t d req resp part]) false [], s').
Proof.
  intros [_ H2 (th & Eth & Hth) (B & H4 & [P1 P2 P3 P4]) H5 H6 H7] Hg Hm Ep Hs Hr Hx Hv. cbn [fst snd] in *. split; cbn [fst snd g_done g_open].
  - by exists m'.
  - by rewrite (gn_lock _ _ _ _ Hg).
  - apply (gn_runnable _ _ _ _ Hg tid th); [left; apply user_not_idle|done..].
  - exists B. rewrite (gn_drv _ _ _ _ Hg). split; [done|]. split; cbn [g_done g_open g_part]; [done|done| |by auto].
    by rewrite P3, map_app, concat_app, Ep; cbn; rewrite !app_nil_r.
  - intros y D. rewrite (gn_drv _ _ _ _ Hg). apply H5.
  - apply Forall_app. split; [done|]. by constructor.
  - intros y y0 Hy. unfold hist_of in *. cbn [g_done]. rewrite filter_app. destruct (decide (y = t)) as [->|Hne].
    + assert (y0 = x0) as -> by congruence. rewrite filter_cons_True, filter_nil by done. exists (next t x resp).
      pose proof (runs_next t x0 _ x resp part Hr) as Hn. by rewrite Hx in Hn.
    + rewrite filter_cons_False, filter_nil, app_nil_r by (cbn; congruence). auto.
Qed.

(** The last release frees the mutex or hands it to the first waiter. *)
Lemma handed_on s s' m (r : Z * bool) :
  match getq (k_qs s) (QSuspend lock) with
  | [] => r = (RT_EOK, false) /\ released lock t m free_mutex s s' /\ getq (k_qs s') (QSuspend lock) = []
  | y :: l => r = (RT_EOK, true) /\ released lock t m (Mutex 0 (prio_of (k_threads s) y) 1 (Some y)) s s' /\
      getq (k_qs s') (QSuspend lock) = l /\ exists thy, k_threads s' !! y = Some thy /\ runnable thy
  end ->
  exists m'', released lock t m m'' s s' /\
    (mtx_owner m'' = None /\ getq (k_qs s) (QSuspend lock) = [] /\ getq (k_qs s') (QSuspend lock) = [] \/
     exists y l, m'' = Mutex 0 (prio_of (k_threads s) y) 1 (Some y) /\ getq (k_qs s) (QSuspend lock) = y :: l /\
       getq (k_qs s') (QSuspend lock) = l).
Proof.
  destruct (getq (k_qs s) (QSuspend lock)) as [|y l].
  - intros (_ & Hrl & Eq'). exists free_mutex. split; [done|]. by left.
  - intros (_ & Hrl & Eq' & _). eexists. split; [exact Hrl|]. right. by exists y, l.
Qed.

Lemma release_bus h B part x d req resp : settled B -> runs t x0 h x -> program t x = (d, req) ->
  (exists D, devs !! d = Some D /\ transaction b clock D req resp part) ->
  triple_of (View h (Inside B part) true) (rt_mutex_release lock)
    (fun _ v => v = View (h ++ [Entry t d req resp part]) Outside true).
Proof.
  intros Hs Hr Hx Hv. unfold rt_mutex_release.
  eapply (triple_bind _ _ _ _ _ _ _ _ (fun _ v => v = View (h ++ [Entry t d req resp part]) Outside true)).
  2:{ intros [r [|]] v ->; cbn [fst snd]; [|by apply triple_ret; [apply user_stable|]].
      eapply triple_bind; [apply schedule_section|]. intros [] v ->. by apply triple_ret; [apply user_stable|]. }
  apply triple_sec; [apply user_stable|]. intros [g s] Hi Hk Hc. cbn [snd] in Hc.
  destruct (user_running _ g s Hi Hk eq_refl Hc) as (th & Eth & Hrun). destruct Hk as [Hh (Ho & Eo & Ep & Eb) Ha]. cbn [fst snd v_hist v_awake] in *.
  destruct (bi_mutex _ Hi) as (m & Hm & Hm'). cbn [fst snd] in Hm, Hm'.
  destruct (mutex_release_outcome lock m s t th Hm Hc Eth Hrun) as (r & s' & Hrel & Hout).
  destruct (release_keeps lock m s t th r s' Hm Eth Hout) as [m' Hm2].
  pose proof Ho as (m1 & E1 & E2 & E3). assert (m1 = m) as -> by (rewrite (mo_mutex _ _ _ Hm) in E1; congruence).
  unfold release_outcome in Hout. rewrite decide_True in Hout by done. rewrite E3 in Hout. change (1 <? 1) with false in Hout. cbv iota in Hout.
  destruct (handed_on s s' m r Hout) as (m'' & Hrl & Hcase).
  assert (owner_of s' = mtx_owner m'') as Eow by (unfold owner_of; by rewrite (rl_mutexes _ _ _ _ _ _ Hrl), lookup_insert_eq).
  pose proof (mo_owner _ _ _ Hm) as How. unfold Mutex.owner_ok in How. rewrite E2 in How. destruct How as (_ & _ & _ & Hnq & _).
  set (g' := BHist (g_done g ++ [Entry t d req resp part]) false []).
  exists r, (g', s'), (View (h ++ [Entry t d req resp part]) Outside true).
  split; [exact Hrel|]. split; [|split; [|split; [|done]]].
  - eapply (inv_finish g s s' m' part x d req resp); [done|apply Hrl|done|done| |by rewrite Hh|done|done].
    intros B1 HB1. by assert (B1 = B) as -> by congruence.
  - eapply section_guar; [done|apply Hrl|]. split.
    + intros y _. rewrite Eow. destruct Hcase as [(-> & _)|(z & l & -> & Eq & _)]; [done|]. intros [= ->]. right.
      unfold waits_for_bus. rewrite Eq. set_solver.
    + intros y _ Hy. unfold waits_for_bus in *. destruct Hcase as [(_ & Eq & _)|(z & l & -> & Eq & Eq')]; rewrite Eq in Hy; [by apply not_elem_of_nil in Hy|].
      rewrite Eq'. apply elem_of_cons in Hy as [->|]; [right|by left]. split; [|done].
      eexists. rewrite (rl_mutexes _ _ _ _ _ _ Hrl), lookup_insert_eq. by split.
    + intros y Hy Hoy%owns_owner. apply owns_owner in Ho. congruence.
    + intros y Hy. unfold hist_of. cbn [g' g_done]. by rewrite filter_app, filter_cons_False, filter_nil, app_nil_r by (cbn; congruence).
  - split; [..|intros _ Hc'; eapply (awake_gentle t s s' true); [done|apply Hrl|done|by apply Ha|done]].
    + unfold hist_of in *. cbn [fst g' g_done v_hist]. by rewrite filter_app, Hh, filter_cons_True, filter_nil by done.
    + split; cbn [snd].
      * rewrite Eow. destruct Hcase as [(-> & _)|(z & l & -> & Eq & _)]; [done|]. intros [= ->]. apply Hnq. rewrite Eq. set_solver.
      * unfold waits_for_bus. intros Hin. apply Hnq. destruct Hcase as [(_ & _ & Eq')|(z & l & _ & Eq & Eq')]; rewrite Eq' in Hin;
          [by apply not_elem_of_nil in Hin|]. rewrite Eq. set_solver.
Qed.

(** *** Bytes *)

(** The bus after [n] reads of registers and the events [ev]. *)
Definition advanced (n : nat) (ev : list wire) (B : rt_spi_bus) : rt_spi_bus :=
  let p := bus_port B in
  set_bus_port (SpiPort (sp_ctlr1 p) (sp_i2scfgr p) (sp_crcr p) (sp_reads p + n) (sp_wire p ++ ev)) B.

Lemma advanced_0 B : advanced 0 [] B = B.
Proof. unfold advanced. destruct B as [? ? ? ? ? [? ? ? ? ?]]. cbn. by rewrite Nat.add_0_r, app_nil_r. Qed.

Lemma advanced_more n m e1 e2 B : advanced m e2 (advanced n e1 B) = advanced (n + m) (e1 ++ e2) B.
Proof. unfold advanced. cbn. by rewrite Nat.add_assoc, app_assoc. Qed.

Lemma advanced_moves n ev B : moves B (advanced n ev B) ev.
Proof. done. Qed.

Lemma count_read_advanced B : set_bus_port (count_read (bus_port B)) B = advanced 1 [] B.
Proof. unfold advanced, count_read. by rewrite app_nil_r, Nat.add_1_r. Qed.
Lemma log_wire_advanced e B : set_bus_port (log_wire e (bus_port B)) B = advanced 0 [e] B.
Proof. unfold advanced, log_wire. by rewrite Nat.add_0_r. Qed.
Lemma read_word_advanced e B : set_bus_port (log_wire e (count_read (bus_port B))) B = advanced 1 [e] B.
Proof. unfold advanced, log_wire, count_read. by rewrite Nat.add_1_r. Qed.

(** A section that advances the bus, or only reads. *)
Lemma advance_section {A} h B part (m : K A) (Q : A -> view -> Prop) :
  (forall s, dr_buses (k_drv s) !! b = Some B -> bus_config B = Some inst ->
     (forall d x, devs !! d = Some x -> dr_spidevs (k_drv s) !! d = Some x) ->
     exists a n ev, m s = Ok a (upd_bus b (advanced n ev B) s) /\ Q a (View h (Inside (advanced n ev B) (part ++ ev)) true)) ->
  triple_of (View h (Inside B part) true) (atomic m) Q.
Proof.
  intros Hm. apply inside_section. intros s HB Hi _ Hd. destruct (Hm s HB Hi Hd) as (a & n & ev & Hrun & HQ).
  exists a, (advanced n ev B), ev. split; [done|]. split; [apply advanced_moves|done].
Qed.

Lemma upd_bus_id s B : dr_buses (k_drv s) !! b = Some B -> upd_bus b B s = s.
Proof. intros HB. unfold upd_bus. rewrite insert_id by done. by destruct s as [? ? ? ? ? ? ? ? ? ? ? ? ? ? ? ? ? ? ? ? []]. Qed.

Lemma read_section {A} h B part (m : K A) (Q : A -> view -> Prop) :
  (forall s, dr_buses (k_drv s) !! b = Some B -> bus_config B = Some inst ->
     (forall d x, devs !! d = Some x -> dr_spidevs (k_drv s) !! d = Some x) ->
     exists a, m s = Ok a s /\ Q a (View h (Inside B part) true)) ->
  triple_of (View h (Inside B part) true) (atomic m) Q.
Proof.
  intros Hm. apply advance_section. intros s HB Hi Hd. destruct (Hm s HB Hi Hd) as (a & Hrun & HQ).
  exists a, 0%nat, []. rewrite advanced_0, app_nil_r, (upd_bus_id s B HB). done.
Qed.

Lemma lift_section {A} v (a : A) (Q : A -> view -> Prop) : Q a v -> triple_of v (atomic (lift (Some a))) Q.
Proof. intros HQ. apply triple_read; [apply user_stable|apply bus_guar_refl|]. intros w _ _ _. by exists a. Qed.

Lemma poll_bus h B part flag : flag = SPI_I2S_FLAG_TXE \/ flag = SPI_I2S_FLAG_RXNE ->
  triple_of (View h (Inside B part) true) (spi_poll b flag)
    (fun r v => exists n, v = View h (Inside (advanced n [] B) part) true /\ (r = false -> ~ responsive b)).
Proof.
  intros Hf. unfold spi_poll.
  apply (triple_loop _ _ _ _ _ user_stable (bus_guar_refl t) _ (fun i v => 0 <= i <= 200 /\
    v = View h (Inside (advanced (Z.to_nat i) [] B) part) true /\
    forall k, (k < Z.to_nat i)%nat -> flagged (spi_statr b (sp_reads (bus_port B) + k)) flag = false)).
  2:{ split; [lia|]. split; [by rewrite advanced_0|]. lia. }
  intros i v (Hi & -> & Hno). eapply (triple_bind _ _ _ _ _ _ _ _ (fun up v =>
    v = View h (Inside (advanced (S (Z.to_nat i)) [] B) part) true /\
    up = flagged (spi_statr b (sp_reads (bus_port B) + Z.to_nat i)) flag)).
  - apply advance_section. intros s HB _ _. eexists _, 1%nat, []. split.
    + rewrite <- count_read_advanced. unfold SPI_I2S_GetFlagStatus. erewrite run_bind by (by apply get_bus_run). by erewrite run_bind by done.
    + rewrite advanced_more, !app_nil_r, Nat.add_1_r. by split.
  - intros up v (-> & ->). destruct (flagged _ _) eqn:Ef; [apply triple_ret; [apply user_stable|eexists; by split]|].
    cbv zeta. rewrite wrap_small by lia.
    assert (forall k, (k < Z.to_nat (i + 1))%nat -> flagged (spi_statr b (sp_reads (bus_port B) + k)) flag = false) as Hno'.
    { intros k Hk. destruct (decide (k = Z.to_nat i)) as [->|]; [done|]. apply Hno. lia. }
    destruct (Z.ltb_spec 200 (i + 1)); apply triple_ret; try apply user_stable.
    + eexists. split; [done|]. intros _ Hresp. destruct (Hresp flag (sp_reads (bus_port B)) Hf) as (k & Hk & E).
      rewrite Hno' in E; [done|lia].
    + split; [lia|]. split; [by rewrite Z2Nat.inj_add, Nat.add_1_r by lia|done].
Qed.

Lemma byte_bus h B part x : triple_of (View h (Inside B part) true) (SPIx_ReadWriteByte b x)
  (fun r v => exists n ev, v = View h (Inside (advanced n ev B) (part ++ ev)) true /\
     exchange b (sp_ctlr1 (bus_port B)) x r ev).
Proof.
  unfold SPIx_ReadWriteByte. eapply triple_bind; [apply poll_bus; by left|]. intros up v (n1 & -> & Hup).
  destruct up; cbn [negb].
  2:{ apply triple_ret; [apply user_stable|]. exists n1, []. rewrite app_nil_r. split; [done|]. apply ex_unsent. auto. }
  eapply (triple_bind _ _ _ _ _ _ _ _ (fun _ v =>
    v = View h (Inside (advanced n1 [Shift_out (sp_ctlr1 (bus_port B)) x] B) (part ++ [Shift_out (sp_ctlr1 (bus_port B)) x])) true)).
  { apply advance_section. intros s HB _ _. exists tt, 0%nat, [Shift_out (sp_ctlr1 (bus_port B)) x].
    rewrite <- log_wire_advanced at 1. rewrite advanced_more, Nat.add_0_r. split; [|done]. unfold SPI_I2S_SendData.
    by erewrite run_bind by (by apply get_bus_run). }
  intros [] v ->. eapply triple_bind; [apply poll_bus; by right|]. intros up v (n2 & -> & Hup2).
  rewrite advanced_more, app_nil_r. destruct up; cbn [negb].
  2:{ apply triple_ret; [apply user_stable|]. eexists _, _. split; [done|]. apply ex_unanswered. auto. }
  eapply (triple_bind _ _ _ _ _ _ _ _ (fun r v => exists n, v = View h (Inside (advanced n [Shift_out (sp_ctlr1 (bus_port B)) x; Shift_in r] B)
    (part ++ [Shift_out (sp_ctlr1 (bus_port B)) x; Shift_in r])) true)).
  - apply advance_section. intros s HB _ _. eexists _, 1%nat, [Shift_in _]. split.
    + rewrite <- read_word_advanced. unfold SPI_I2S_ReceiveData. erewrite run_bind by (by apply get_bus_run). cbv zeta. by erewrite run_bind by done.
    + exists (n1 + n2 + 1)%nat. by rewrite advanced_more, <- app_assoc.
  - intros r v (n & ->). apply triple_ret; [apply user_stable|]. eexists n, _. split; [done|]. apply ex_answered.
Qed.

(** *** Messages *)
Section message.
Context (h : list entry) (B : rt_spi_bus) (part : list wire) (m : rt_spi_message) (Hm : message_ok m).
Abbreviation len := (Z.to_nat (msg_length m)).
Abbreviation c := (sp_ctlr1 (bus_port B)).

(** The receive buffer when [ins] was read: the rest of the message's part may
    have been overwritten. *)
Definition recv_state (ins : list Z) (recv : option (list Z)) : Prop :=
  match recv_buf m with
  | None => recv = None
  | Some buf => exists junk, recv = Some (ins ++ junk ++ drop len buf) /\ (length ins + length junk = len)%nat
  end.

(** After [k] bytes of the message. *)
Definition at_byte (k : nat) (recv : option (list Z)) (v : view) : Prop :=
  exists n ev ins, v = View h (Inside (advanced n ev B) (part ++ ev)) true /\
    exchanges b c (take k (bytes_out m)) ins ev /\ length ins = k /\ recv_state ins recv.

Lemma bytes_out_length : length (bytes_out m) = len.
Proof.
  unfold bytes_out. destruct (send_buf m) as [l|] eqn:E; [|apply length_replicate].
  pose proof (mok_send _ Hm l E). rewrite length_take. lia.
Qed.

Lemma byte_step k recv v x : at_byte k recv v -> bytes_out m !! k = Some x ->
  triple_of v (SPIx_ReadWriteByte b x) (fun r v' =>
    match recv with
    | None => at_byte (S k) None v'
    | Some buf => exists buf', aset buf k r = Some buf' /\ at_byte (S k) (Some buf') v'
    end).
Proof.
  intros (n & ev & ins & -> & He & Hl & Hr) Hx. eapply triple_weaken; [apply user_stable| |apply byte_bus].
  intros r v (n' & ev' & -> & Hex). change (sp_ctlr1 (bus_port (advanced n ev B))) with c in Hex.
  rewrite advanced_more, <- app_assoc. assert (exchanges b c (take (S k) (bytes_out m)) (ins ++ [r]) (ev ++ ev')) as He'.
  { rewrite (take_S_r _ _ _ Hx). by apply exs_snoc. }
  unfold recv_state in Hr. destruct (recv_buf m) as [buf|] eqn:Eb.
  - destruct Hr as (junk & -> & Hj). pose proof (lookup_lt_Some _ _ _ Hx) as Hlt. rewrite bytes_out_length in Hlt.
    destruct junk as [|y junk]; [cbn in Hj; lia|]. exists (ins ++ r :: junk ++ drop len buf). split; [rewrite <- Hl; apply aset_app|].
    eexists _, _, _. split; [done|]. split; [exact He'|]. split; [rewrite length_app; cbn; lia|]. unfold recv_state. rewrite Eb.
    exists junk. rewrite <- (app_assoc ins). split; [done|]. rewrite length_app. cbn in *. lia.
  - subst recv. eexists _, _, _. split; [done|]. split; [exact He'|]. split; [rewrite length_app; cbn; lia|]. unfold recv_state. by rewrite Eb.
Qed.

Lemma send_lookup l k x : send_buf m = Some l -> bytes_out m !! k = Some x -> aget l k = Some x.
Proof. intros E. unfold bytes_out, aget. rewrite E. intros Hx. by apply lookup_take_Some in Hx as [? _]. Qed.

Lemma byte_lookup k : (k < len)%nat -> exists x, bytes_out m !! k = Some x.
Proof. intros Hk. apply lookup_lt_is_Some. by rewrite bytes_out_length. Qed.

(** A round over [n] bytes from [off]. *)
Section round.
Context (off : nat) (n : Z) (Hn : 0 <= n < 2 ^ 16) (Hoff : (off + Z.to_nat n <= len)%nat).

Lemma word_index i : 0 <= i < n -> u16 (i + 1) = i + 1 /\ (off + Z.to_nat (u16 (i + 1)) = S (off + Z.to_nat i))%nat /\ (off + Z.to_nat i < len)%nat.
Proof. intros Hi. rewrite wrap_small by lia. lia. Qed.

(** The loops over the bytes: each round of [body] transfers one. *)
Lemma byte_loop_bus {St Y} (pos : St -> Z) (recv_of : St -> option (list Z)) (fin : Y -> option (list Z))
    (body : St -> proc (St + Y)) st v : pos st = 0 -> at_byte off (recv_of st) v ->
  (forall st v, pos st < n -> forall x, bytes_out m !! (off + Z.to_nat (pos st))%nat = Some x ->
     at_byte (off + Z.to_nat (pos st)) (recv_of st) v ->
     triple_of v (body st) (fun r v' => exists st', r = inl st' /\ pos st' = u16 (pos st + 1) /\
       at_byte (S (off + Z.to_nat (pos st))) (recv_of st') v')) ->
  (forall st, n <= pos st -> exists y, body st = Ret (inr y) /\ fin y = recv_of st) ->
  triple_of v (loop body st) (fun y v' => at_byte (off + Z.to_nat n) (fin y) v').
Proof.
  intros H1 Hat Hgo Hstop.
  apply (triple_loop _ _ _ _ _ user_stable (bus_guar_refl t) _ (fun st v => 0 <= pos st <= n /\ at_byte (off + Z.to_nat (pos st)) (recv_of st) v)).
  2:{ rewrite H1. split; [lia|]. by rewrite Nat.add_0_r. }
  intros st1 v1 [Hi Hv]. destruct (Z.lt_ge_cases (pos st1) n).
  - destruct (word_index (pos st1)) as (Eu & Ei & Hlt); [lia|]. destruct (byte_lookup _ Hlt) as [x Hx].
    eapply triple_weaken; [apply user_stable| |by eapply Hgo]. intros r v2 (st2 & -> & Ep & Hv2).
    rewrite Ep, Ei. split; [lia|done].
  - destruct (Hstop st1) as (y & -> & Ey); [done|]. apply triple_ret; [apply user_stable|]. rewrite Ey.
    by assert (pos st1 = n) as <- by lia.
Qed.

Lemma transmit_receive_bus l recv v : send_buf m = Some l -> at_byte off (Some recv) v ->
  triple_of v (SPI_TransmitReceive b l recv off n)
    (fun r v' => fst r = RT_EOK /\ at_byte (off + Z.to_nat n) (Some (snd r)) v').
Proof.
  intros El Hat. unfold SPI_TransmitReceive.
  eapply triple_bind; [apply (byte_loop_bus fst (fun st => Some st.2) Some); [done|done| |]|intros r v' Hv; by apply triple_ret; [apply user_stable|]].
  - intros [i buf] v1 Hi x Hx Hv. cbn [fst snd] in *. rewrite (proj2 (Z.ltb_lt i n)), (send_lookup l _ x El Hx) by done.
    eapply (triple_bind _ _ _ _ _ _ _ _ (fun y v => y = x /\ v = v1)); [by apply lift_section|]. intros y v2 [-> ->].
    eapply triple_bind; [by eapply byte_step|]. intros r v2 (buf' & -> & Hv2).
    eapply (triple_bind _ _ _ _ _ _ _ _ (fun y v => y = buf' /\ v = v2)); [by apply lift_section|]. intros y v3 [-> ->].
    apply triple_ret; [apply user_stable|]. by eexists.
  - intros [i buf] Hi. cbn [fst snd] in *. rewrite (proj2 (Z.ltb_ge i n)) by done. by eexists.
Qed.

Lemma transmit_bus l v : send_buf m = Some l -> at_byte off None v ->
  triple_of v (SPI_Transmit b l off n) (fun r v' => r = RT_EOK /\ at_byte (off + Z.to_nat n) None v').
Proof.
  intros El Hat. unfold SPI_Transmit.
  eapply triple_bind; [apply (byte_loop_bus id (fun _ => None) (fun _ => None)); [done|done| |]|intros r v' Hv; by apply triple_ret; [apply user_stable|]];
    unfold id.
  - intros i v1 Hi x Hx Hv. rewrite (proj2 (Z.ltb_lt i n)), (send_lookup l _ x El Hx) by done.
    eapply (triple_bind _ _ _ _ _ _ _ _ (fun y v => y = x /\ v = v1)); [by apply lift_section|]. intros y v2 [-> ->].
    eapply triple_bind; [by eapply byte_step|]. intros r v2 Hv2. apply triple_ret; [apply user_stable|]. by eexists.
  - intros i Hi. rewrite (proj2 (Z.ltb_ge i n)) by done. by eexists.
Qed.

Lemma receive_bus recv v : send_buf m = None -> at_byte off (Some recv) v ->
  triple_of v (SPI_Receive b recv off n) (fun r v' => fst r = RT_EOK /\ at_byte (off + Z.to_nat n) (Some (snd r)) v').
Proof.
  intros El Hat. unfold SPI_Receive.
  eapply triple_bind; [apply (byte_loop_bus fst (fun st => Some st.2) Some); [done|done| |]|intros r v' Hv; by apply triple_ret; [apply user_stable|]].
  - intros [i buf] v1 Hi x Hx Hv. cbn [fst snd] in *. rewrite (proj2 (Z.ltb_lt i n)) by done.
    assert (x = 0xFF) as -> by (unfold bytes_out in Hx; rewrite El in Hx; by apply lookup_replicate in Hx as [-> _]).
    eapply triple_bind; [by eapply byte_step|]. intros r v2 (buf' & -> & Hv2).
    eapply (triple_bind _ _ _ _ _ _ _ _ (fun y v => y = buf' /\ v = v2)); [by apply lift_section|]. intros y v3 [-> ->].
    apply triple_ret; [apply user_stable|]. by eexists.
  - intros [i buf] Hi. cbn [fst snd] in *. rewrite (proj2 (Z.ltb_ge i n)) by done. by eexists.
Qed.

Lemma fill_state ins recv : length ins = off -> recv_state ins (Some recv) ->
  exists recv', fill_ff recv off (Z.to_nat n) = Some recv' /\ recv_state ins (Some recv').
Proof.
  intros Hl. unfold recv_state. destruct (recv_buf m) as [buf|]; [|done]. intros (junk & [= ->] & Hj).
  unfold fill_ff. rewrite (proj2 (Nat.leb_le _ _)) by (rewrite !length_app; lia). eexists. split; [done|].
  exists (replicate (Z.to_nat n) 0xFF ++ drop (Z.to_nat n) junk). split; [|rewrite length_app, length_replicate, length_drop; lia].
  f_equal. rewrite <- Hl, take_app_length, <- !app_assoc. do 2 f_equal.
  rewrite drop_app_ge by lia. replace (length ins + Z.to_nat n - length ins)%nat with (Z.to_nat n) by lia.
  by rewrite drop_app_le by lia.
Qed.

Lemma round_bus d D recv v : devs !! d = Some D -> 0 < n -> at_byte off recv v ->
  triple_of v (spixfer_round d b m recv off n) (fun r v' => fst r = RT_EOK /\ at_byte (off + Z.to_nat n) (snd r) v').
Proof.
  intros Hd Hpos Hat. unfold spixfer_round. destruct (send_buf m) as [l|] eqn:El, recv as [recv|].
  - eapply triple_bind; [by apply (transmit_receive_bus l)|]. intros r v' Hv. by apply triple_ret; [apply user_stable|].
  - eapply triple_bind; [by apply (transmit_bus l)|]. intros r v' [-> Hv].
    eapply (triple_bind _ _ _ _ _ _ _ _ (fun _ v => v = v')).
    + destruct Hv as (n1 & ev & ins & -> & _). apply read_section. intros s HB _ Hds. exists tt. split; [|done].
      unfold release_3wire. erewrite run_bind by (by apply get_spidev_run, Hds). by rewrite (do_wires _ (Hdevs _ _ Hd)), andb_false_r.
    + intros [] v2 ->. by apply triple_ret; [apply user_stable|].
  - pose proof Hat as (n1 & ev & ins & -> & He & Hl & Hr). destruct (fill_state ins recv Hl Hr) as (recv' & Ef & Hr').
    eapply (triple_bind _ _ _ _ _ _ _ _ (fun y v => y = recv' /\ v = View h (Inside (advanced n1 ev B) (part ++ ev)) true)).
    + cbn [lift]. apply read_section. intros s _ _ _. exists recv'. split; [|done]. erewrite run_bind by done. by rewrite Ef.
    + intros y v [-> ->]. eapply triple_bind; [apply receive_bus; [done|by exists n1, ev, ins]|].
      intros r v' Hv. by apply triple_ret; [apply user_stable|].
  - exfalso. destruct (mok_buffer _ Hm) as [[l E]|[l E]]; [lia|congruence|].
    destruct Hat as (_ & _ & ins & _ & _ & _ & Hr). unfold recv_state in Hr. rewrite E in Hr. by destruct Hr as (junk & ? & _).
Qed.
End round.

Lemma xfer_loop_bus d D v : devs !! d = Some D -> at_byte 0 (recv_buf m) v ->
  triple_of v (spixfer_loop d b m) (fun vars v' => xv_length vars = msg_length m /\ at_byte len (xv_recv vars) v').
Proof.
  intros Hd Hat. pose proof (mok_length _ Hm) as Hlen. unfold spixfer_loop.
  apply (triple_loop _ _ _ _ _ user_stable (bus_guar_refl t) _ (fun vars v => 0 <= xv_left vars <= msg_length m /\
    xv_length vars = msg_length m /\ at_byte (Z.to_nat (msg_length m - xv_left vars)) (xv_recv vars) v)).
  2:{ cbn [xv_left xv_length xv_recv]. rewrite Z.sub_diag. split; [lia|done]. }
  intros [left length_ recv] v1 (Hleft & E & Hv). cbn [xv_left xv_length xv_recv] in *. subst length_.
  destruct (Z.eqb_spec left 0) as [->|Hne].
  { apply triple_ret; [apply user_stable|]. by rewrite Z.sub_0_r in Hv. }
  set (sl := if 65535 <? left then 65535 else u16 left). set (rest := if 65535 <? left then left - 65535 else 0).
  assert (0 < sl < 2 ^ 16 /\ sl + rest = left /\ 0 <= rest) as (Hn & Hnr & Hr0).
  { subst sl rest. destruct (Z.ltb_spec 65535 left); [lia|]. rewrite wrap_small by lia. lia. }
  cbv zeta. rewrite wrap_small by lia. replace (msg_length m - sl - rest) with (msg_length m - left) by lia.
  eapply triple_bind; [apply (round_bus (Z.to_nat (msg_length m - left)) sl ltac:(lia) ltac:(lia) d D); [done|lia|exact Hv]|].
  intros [r recv'] v' [-> Hv']. apply triple_ret; [apply user_stable|]. cbn [fst snd xv_left xv_length xv_recv RT_EOK Z.eqb].
  split; [lia|]. split; [done|]. replace (Z.to_nat (msg_length m - rest)) with (Z.to_nat (msg_length m - left) + Z.to_nat sl)%nat by lia. done.
Qed.

(** The chip select. *)
Lemma cs_bus (on : bool) level d D n ev : devs !! d = Some D ->
  triple_of (View h (Inside (advanced n ev B) (part ++ ev)) true) (if on then atomic (cs_write d b level) else Ret tt)
    (fun _ v => exists n', v = View h (Inside (advanced n' (ev ++ if on then cs_events D level else []) B)
                                     (part ++ ev ++ if on then cs_events D level else [])) true).
Proof.
  intros Hd. destruct on; [|apply triple_ret; [apply user_stable|]; exists n; by rewrite app_nil_r].
  pose proof (Hdevs _ _ Hd) as [_ _ Hcs]. unfold cs_events, cs_write. destruct (flagged _ RT_SPI_NO_CS) eqn:Ef.
  - apply read_section. intros s _ _ Hds. exists tt. split; [|exists n; by rewrite app_nil_r].
    erewrite run_bind by (by apply get_spidev_run, Hds). by rewrite Ef.
  - destruct Hcs as [|[cs Ecs]]; [done|]. rewrite Ecs. apply advance_section. intros s HB _ Hds.
    exists tt, 0%nat, [Pin_set cs.1 cs.2 level]. split; [|exists (n + 0)%nat; by rewrite advanced_more, <- app_assoc].
    rewrite <- log_wire_advanced. erewrite run_bind by (by apply get_spidev_run, Hds). rewrite Ef, Ecs. erewrite run_bind by done.
    unfold GPIO_WriteBit. by erewrite run_bind by (by apply get_bus_run).
Qed.
End message.

Lemma received_all m ins recv : length ins = Z.to_nat (msg_length m) -> recv_state m ins recv -> recv = received m ins.
Proof.
  intros Hl. unfold recv_state, received. destruct (recv_buf m) as [buf|]; [|done]. intros (junk & -> & Hj).
  destruct junk; [|cbn in Hj; lia]. by rewrite Hl.
Qed.

(** One message. *)
Lemma xfer_bus h B part m d D : message_ok m -> devs !! d = Some D ->
  triple_of (View h (Inside B part) true) (spixfer d m) (fun r v => exists n ev,
    v = View h (Inside (advanced n ev B) (part ++ ev)) true /\ message_done b D (sp_ctlr1 (bus_port B)) m r ev).
Proof.
  intros Hm Hd. pose proof (Hdevs _ _ Hd) as [Hb _ _]. unfold spixfer.
  eapply (triple_bind _ _ _ _ _ _ _ _ (fun y v => y = b /\ v = View h (Inside B part) true)).
  { apply read_section. intros s HB Hc Hds. exists b. split; [|done]. unfold assert_bus.
    erewrite run_bind; [|erewrite run_bind by (by apply get_spidev_run, Hds); rewrite Hb; by erewrite run_bind by done].
    erewrite run_bind by (by apply get_bus_run). rewrite Hc. by erewrite run_bind by done. }
  intros y v [-> ->]. set (e0 := if cs_take m then cs_events D 0 else []).
  eapply triple_bind.
  { pose proof (cs_bus h B part (cs_take m) 0 d D 0 [] Hd) as Hcs. rewrite advanced_0, app_nil_r in Hcs. exact Hcs. }
  intros [] v (n0 & ->). rewrite app_nil_l. fold e0.
  eapply triple_bind; [apply (xfer_loop_bus h (advanced n0 e0 B) (part ++ e0) m Hm d D); [exact Hd|]|].
  { exists 0%nat, [], []. rewrite advanced_0, app_nil_r. split; [done|]. split; [apply exs_nil|]. split; [done|].
    unfold recv_state. destruct (recv_buf m) as [buf|] eqn:Eb; [|done]. exists (take (Z.to_nat (msg_length m)) buf).
    rewrite take_drop. split; [done|]. pose proof (mok_recv _ Hm buf Eb). rewrite length_take. cbn. lia. }
  intros vars v [Elen (n & ev & ins & -> & He & Hl & Hr)].
  rewrite firstn_all2 in He by (by rewrite (bytes_out_length m Hm)). pose proof (received_all m ins _ Hl Hr) as Erecv.
  eapply triple_bind; [apply (cs_bus h (advanced n0 e0 B) (part ++ e0) (cs_release m) 1 d D n ev Hd)|].
  intros [] v (n' & ->). apply triple_ret; [apply user_stable|]. eexists _, _. rewrite advanced_more, <- app_assoc.
  split; [done|]. exists ins, ev. by rewrite <- Elen.
Qed.

Lemma messages_bus h B d D : devs !! d = Some D -> forall ms part n0 ev0 bufs, Forall message_ok ms ->
  triple_of (View h (Inside (advanced n0 ev0 B) part) true) (transmit_messages d ms bufs) (fun r v => exists n ev rs,
    v = View h (Inside (advanced n (ev0 ++ ev) B) (part ++ ev)) true /\
    performed b D (sp_ctlr1 (bus_port B)) ms rs ev (fst r) /\ snd r = bufs ++ rs).
Proof.
  intros Hd ms. induction ms as [|m ms IH]; intros part n0 ev0 bufs Hms; cbn [transmit_messages].
  { apply triple_ret; [apply user_stable|]. exists n0, [], []. rewrite !app_nil_r. split; [done|]. split; [constructor|done]. }
  apply Forall_cons in Hms as [Hm Hms]. eapply triple_bind; [by apply (xfer_bus h _ part m d D)|].
  intros [r1 r2] v (n & ev & -> & Hdone). cbn [fst snd]. rewrite advanced_more.
  pose proof Hdone as (ins & body & _ & _ & Er & _). cbn [fst] in Er. destruct (Z.eqb_spec r1 0) as [->|Hne].
  - eapply triple_bind; [apply errno_section|]. intros [] v ->. apply triple_ret; [apply user_stable|].
    eexists _, ev, [r2]. split; [done|]. split; [|done]. apply pf_stop; [done|exact Hdone].
  - eapply triple_weaken; [apply user_stable| |apply (IH (part ++ ev) (n0 + n)%nat (ev0 ++ ev)); exact Hms].
    intros [rem bs] v (n' & ev' & rs & -> & Hp & Eb). cbn [fst snd] in *. exists n', (ev ++ ev'), (r2 :: rs).
    rewrite !app_assoc. split; [done|]. rewrite Eb, <- app_assoc. split; [|done]. subst r1. by apply pf_next.
Qed.

(** *** The configuration *)
Lemma ctlr1_of_0 cfg clk old c : Z.testbit old 12 = false /\ Z.testbit old 13 = false -> ctlr1_of cfg clk old c -> ctlr1_of cfg clk 0 c.
Proof. intros [H1 H2] Hc. pose proof (c1_crc _ _ _ _ Hc) as [E1 E2]. destruct Hc. split; try done. by rewrite !Z.bits_0, E1, E2. Qed.

Lemma own_bus h B d D : settled B -> devs !! d = Some D ->
  triple_of (View h (Inside B []) true) (spi_own d b) (fun r v => exists B', v = View h (Inside B' []) true /\ settled B' /\
    r = width_ok (sd_config D) /\ (r = true -> bus_owner B' = Some d /\ ctlr1_of (sd_config D) clock 0 (sp_ctlr1 (bus_port B')))).
Proof.
  intros Hs Hd. pose proof (Hdevs _ _ Hd) as [Hb _ _]. unfold spi_own.
  eapply (triple_bind _ _ _ _ _ _ _ _ (fun y v => y = bool_decide (bus_owner B = Some d) /\ v = View h (Inside B []) true)).
  { apply read_section. intros s HB _ _. eexists. split; [|done]. unfold bus_owner_is. by erewrite run_bind by (by apply get_bus_run). }
  intros same v [-> ->]. case_bool_decide as Ho.
  { apply triple_ret; [apply user_stable|]. destruct (Hs d Ho) as (D' & Ed & Hw & Hc). assert (D' = D) as -> by congruence. eauto 10. }
  eapply (triple_bind _ _ _ _ _ _ _ _ (fun r v => exists B', v = View h (Inside B' []) true /\
    (if width_ok (sd_config D) then r = RT_EOK /\ ctlr1_of (sd_config D) clock 0 (sp_ctlr1 (bus_port B')) else r = RT_EIO /\ settled B'))).
  { apply inside_section. intros s HB Hc Hcrc Hds. pose proof (spi_init_run b (sd_config D) s B HB) as Hrun.
    assert (spi_configure d s = ch32_spi_init b (sd_config D) s) as E.
    { unfold spi_configure. erewrite run_bind by (by apply get_spidev_run, Hds). rewrite Hb. by erewrite run_bind by done. }
    rewrite E. unfold width_ok. destruct (_ || _).
    - destruct Hrun as (B' & Hrun & Hcl & Eo & Ec & _ & Ew). exists RT_EOK, B', []. split; [done|].
      assert (SPI_APB_CLOCK B = clock) as Eclk by (unfold SPI_APB_CLOCK, clock; rewrite Hc; repeat case_bool_decide; congruence).
      rewrite Eclk in Hcl. split; [split; [done|apply Hcl|by rewrite app_nil_r]|].
      exists B'. split; [done|]. split; [done|]. by eapply ctlr1_of_0.
    - destruct Hrun as (i & Hrun). exists RT_EIO, (set_bus_init i B), []. split; [done|].
      split; [split; [done|done|by rewrite app_nil_r]|]. by exists (set_bus_init i B). }
  intros r v (B' & -> & Hr). destruct (width_ok (sd_config D)) eqn:Hw; destruct Hr as [-> Hr]; cbn [RT_EOK RT_EIO Z.eqb].
  - eapply (triple_bind _ _ _ _ _ _ _ _ (fun _ v => v = View h (Inside (set_bus_owner (Some d) B') []) true)).
    + apply inside_section. intros s HB _ _ _. exists tt, (set_bus_owner (Some d) B'), []. split; [by erewrite run_bind by (by apply get_bus_run)|].
      split; [|done]. split; [done|done|by rewrite app_nil_r].
    + intros [] v ->. apply triple_ret; [apply user_stable|]. eexists. split; [done|]. split; [|done].
      intros d' [= <-]. by exists D.
  - apply triple_ret; [apply user_stable|]. by exists B'.
Qed.

(** ** Requests *)
Section one_request.
Context (h : list entry) (x : X) (d : ptr) (D : rt_spi_device) (req : request).
Context (Hruns : runs t x0 h x) (Hreq : program t x = (d, req)) (Hd : devs !! d = Some D).

Lemma settled_advanced n ev B : settled B -> settled (advanced n ev B).
Proof. done. Qed.

(** From the lock on: [k] sends the messages, [fin] is what the caller makes of
    its result. *)
Lemma at_work {A} (k : bool -> proc A) (fin : A -> response) B : settled B ->
  (forall B', triple_of (View h (Inside B' []) true) (k true) (fun r v => exists n ev rs rem,
     v = View h (Inside (advanced n ev B') ev) true /\ performed b D (sp_ctlr1 (bus_port B')) (messages_of req) rs ev rem /\
     fin r = response_of req rs rem)) ->
  (forall B', triple_of (View h (Inside B' []) true) (k false) (fun r v =>
     v = View h (Inside B' []) true /\ fin r = response_of req [] (messages_of req))) ->
  triple_of (View h (Inside B []) true) (own <~ spi_own d b; r <~ k own; rt_mutex_release lock ~; Ret r)%proc
    (fun r v => exists ev, v = View (h ++ [Entry t d req (fin r) ev]) Outside true).
Proof.
  intros Hs Hyes Hno. eapply triple_bind; [by apply (own_bus h B d D)|]. intros own v (B' & -> & Hs' & Eown & Hc).
  eapply (triple_bind _ _ _ _ _ _ _ _ (fun r v => exists B1 ev, v = View h (Inside B1 ev) true /\ settled B1 /\
    transaction b clock D req (fin r) ev)).
  - unfold transaction. rewrite <- Eown. destruct own.
    + eapply triple_weaken; [apply user_stable| |apply Hyes]. intros r v (n & ev & rs & rem & -> & Hp & Ef).
      eexists _, ev. split; [done|]. split; [by apply settled_advanced|]. eexists _, rs, rem. split; [by apply Hc|done].
    + eapply triple_weaken; [apply user_stable| |apply Hno]. intros r v [-> Ef]. by exists B', [].
  - intros r v (B1 & ev & -> & Hs1 & Ht). eapply triple_bind; [eapply (release_bus h B1 ev x d req (fin r)); eauto|].
    intros r' v ->. apply triple_ret; [apply user_stable|]. by exists ev.
Qed.

Lemma outside_section {A} (m : K A) (a : A) : (forall s, (forall d D, devs !! d = Some D -> dr_spidevs (k_drv s) !! d = Some D) -> m s = Ok a s) ->
  triple_of (View h Outside true) (atomic m) (fun r v => r = a /\ v = View h Outside true).
Proof.
  intros Hm. apply triple_read; [apply user_stable|apply bus_guar_refl|]. intros [g s] Hi _ _. exists a. split; [|done].
  apply Hm. exact (bi_devs _ Hi).
Qed.

Lemma assert_outside : triple_of (View h Outside true) (atomic (assert_bus d)) (fun r v => r = b /\ v = View h Outside true).
Proof.
  pose proof (Hdevs _ _ Hd) as [Hb _ _]. apply outside_section. intros s Hds. unfold assert_bus.
  erewrite run_bind by (by apply get_spidev_run, Hds). rewrite Hb. by erewrite run_bind by done.
Qed.

Lemma errno_return {A} B part e (a : A) (Q : A -> view -> Prop) : Q a (View h (Inside B part) true) ->
  triple_of (View h (Inside B part) true) (atomic (rt_set_errno e) ~; Ret a)%proc Q.
Proof. intros HQ. eapply triple_bind; [apply errno_section|]. intros [] v ->. by apply triple_ret; [apply user_stable|]. Qed.

Definition asks (p : proc response) : Prop := triple_of (View h Outside true) p
  (fun resp v => exists ev, v = View (h ++ [Entry t d req resp ev]) Outside true).

Lemma transfer_bus send recv len : req = Transfer send recv len -> message_ok (SpiMessage send recv len true true) ->
  asks (run_request d (Transfer send recv len)).
Proof.
  intros Er Hm. unfold asks. cbn [run_request]. eapply triple_bind; [|intros r v Hv; apply triple_ret; [apply user_stable|exact Hv]].
  unfold rt_spi_transfer. eapply triple_bind; [apply assert_outside|]. intros y v [-> ->].
  eapply triple_bind; [apply take_bus|]. intros e v (-> & B & Hs & ->). cbn [RT_EOK Z.eqb].
  apply (at_work (fun own : bool => _) (fun r => (fst r, [snd r])) B Hs).
  - intros B'. eapply triple_bind; [by apply (xfer_bus h B' [] _ d D)|]. intros [r1 r2] v (n & ev & -> & Hdone). cbn [fst snd].
    pose proof Hdone as (_ & _ & _ & _ & Elen & _). cbn [fst msg_length] in Elen. subst r1. rewrite app_nil_l, Er. cbn [messages_of].
    destruct (Z.eqb_spec len 0) as [->|Hne].
    + apply errno_return. eexists n, ev, [r2], _. split; [done|]. split; [by apply pf_stop|done].
    + apply triple_ret; [apply user_stable|]. eexists n, ev, [r2], []. split; [done|]. split; [|done].
      rewrite <- (app_nil_r ev). apply pf_next; [done|done|constructor].
  - intros B'. apply errno_return. by rewrite Er.
Qed.

(** Two messages, the second only if the first was not empty. *)
Lemma two_messages {A} B m1 m2 (a1 : A) (a2 a3 : Z * option (list Z) -> A) : message_ok m1 -> message_ok m2 ->
  triple_of (View h (Inside B []) true)
    (x <~ spixfer d m1; if fst x =? 0 then Ret a1
     else x <~ spixfer d m2; if fst x =? 0 then Ret (a2 x) else Ret (a3 x))%proc
    (fun r v => exists n ev rs rem, v = View h (Inside (advanced n ev B) ev) true /\
       performed b D (sp_ctlr1 (bus_port B)) [m1; m2] rs ev rem /\
       (r = a1 /\ (exists r1, rs = [r1]) /\ rem = [m1; m2] \/
        exists r1 x, rs = [r1; snd x] /\ (r = a2 x /\ rem = [m2] \/ r = a3 x /\ rem = []))).
Proof.
  intros Hm1 Hm2. eapply triple_bind; [by apply (xfer_bus h B [] m1 d D)|]. intros [z1 r1] v (n1 & e1 & -> & H1). rewrite app_nil_l. cbn [fst].
  pose proof H1 as (_ & _ & _ & _ & E1 & _). cbn [fst] in E1. subst z1. destruct (Z.eqb_spec (msg_length m1) 0) as [E1|E1].
  { apply triple_ret; [apply user_stable|]. rewrite E1 in H1. eexists n1, e1, [r1], _. split; [done|].
    split; [by apply pf_stop|]. left. eauto. }
  eapply triple_bind; [by apply (xfer_bus h _ e1 m2 d D)|]. intros [z2 r2] v (n2 & e2 & -> & H2). rewrite advanced_more. cbn [fst].
  pose proof H2 as (_ & _ & _ & _ & E2 & _). cbn [fst] in E2. subst z2.
  destruct (Z.eqb_spec (msg_length m2) 0) as [E2|E2]; apply triple_ret; try apply user_stable; eexists _, (e1 ++ e2), [r1; r2], _.
  - rewrite E2 in *. split; [done|]. split; [apply pf_next; [done|done|by apply pf_stop]|]. right. exists r1, (0, r2). split; [done|]. by left.
  - split; [done|]. split; [apply pf_next; [done|done|rewrite <- (app_nil_r e2); apply pf_next; [done|done|constructor]]|].
    right. exists r1, (msg_length m2, r2). split; [done|]. by right.
Qed.

Lemma send_send_bus s1 l1 s2 l2 : req = Send_send s1 l1 s2 l2 ->
  message_ok (SpiMessage s1 None l1 true false) -> message_ok (SpiMessage s2 None l2 false true) ->
  asks (run_request d (Send_send s1 l1 s2 l2)).
Proof.
  intros Er Hm1 Hm2. unfold asks. cbn [run_request]. eapply triple_bind; [|intros r v Hv; apply triple_ret; [apply user_stable|exact Hv]].
  unfold rt_spi_send_then_send. eapply triple_bind; [apply assert_outside|]. intros y v [-> ->].
  eapply triple_bind; [apply take_bus|]. intros e v (-> & B & Hs & ->). cbn [RT_EOK Z.eqb].
  apply (at_work (fun own : bool => _) (fun r => (r, [])) B Hs).
  - intros B'. eapply triple_weaken; [apply user_stable| |by apply two_messages]. rewrite Er.
    intros r v (n & ev & rs & rem & -> & Hp & Hr). exists n, ev, rs, rem. split; [done|]. split; [exact Hp|].
    destruct Hr as [(-> & _ & ->)|(r1 & x2 & _ & [[-> ->]|[-> ->]])]; done.
  - intros B'. apply triple_ret; [apply user_stable|]. by rewrite Er.
Qed.

Lemma send_recv_bus s1 l1 r2 l2 : req = Send_recv s1 l1 r2 l2 ->
  message_ok (SpiMessage s1 None l1 true false) -> message_ok (SpiMessage None r2 l2 false true) ->
  asks (run_request d (Send_recv s1 l1 r2 l2)).
Proof.
  intros Er Hm1 Hm2. unfold asks. cbn [run_request]. eapply triple_bind; [|intros r v Hv; apply triple_ret; [apply user_stable|exact Hv]].
  unfold rt_spi_send_then_recv. eapply triple_bind; [apply assert_outside|]. intros y v [-> ->].
  eapply triple_bind; [apply take_bus|]. intros e v (-> & B & Hs & ->). cbn [RT_EOK Z.eqb].
  apply (at_work (fun own : bool => _) (fun r => (fst r, [snd r])) B Hs).
  - intros B'. eapply triple_weaken; [apply user_stable| |by apply two_messages]. rewrite Er.
    intros r v (n & ev & rs & rem & -> & Hp & Hr). exists n, ev, rs, rem. split; [done|]. split; [exact Hp|].
    destruct Hr as [(-> & (r1 & ->) & ->)|(r1 & x2 & -> & [[-> ->]|[-> ->]])]; done.
  - intros B'. apply triple_ret; [apply user_stable|]. by rewrite Er.
Qed.

Lemma messages_request_bus ms : req = Messages ms -> ms <> [] -> Forall message_ok ms -> asks (run_request d (Messages ms)).
Proof.
  intros Er Hne Hms. unfold asks. cbn [run_request]. eapply triple_bind; [|intros r v Hv; apply triple_ret; [apply user_stable|exact Hv]].
  unfold rt_spi_transfer_message. destruct ms as [|m ms]; [done|]. pose proof (Hdevs _ _ Hd) as [Hb _ _].
  eapply triple_bind; [apply (outside_section _ b)|].
  { intros s Hds. unfold bus_of. erewrite run_bind by (by apply get_spidev_run, Hds). by rewrite Hb. }
  intros y v [-> ->]. eapply triple_bind; [apply take_bus|]. intros e v (-> & B & Hs & ->). cbn [RT_EOK Z.eqb negb].
  eapply triple_bind; [apply errno_section|]. intros [] v ->.
  apply (at_work (fun own : bool => _) (fun r => (Z.of_nat (length (fst r)), snd r)) B Hs).
  - intros B'. rewrite <- (advanced_0 B') at 1. eapply triple_weaken; [apply user_stable| |by apply (messages_bus h B' d D Hd)]. rewrite Er.
    intros r v (n & ev & rs & -> & Hp & Eb). exists n, ev, rs, (fst r). split; [done|]. split; [exact Hp|]. by rewrite Eb.
  - intros B'. apply errno_return. by rewrite Er.
Qed.

Lemma request_bus : request_ok req -> asks (run_request d req).
Proof.
  intros [Hne Hms]. enough (forall r, req = r -> asks (run_request d r)) as Hr by by apply Hr.
  intros r Er. rewrite Er in Hne, Hms. destruct r as [send recv len|s1 l1 s2 l2|s1 l1 r2 l2|ms]; cbn [messages_of] in Hne, Hms.
  - apply Forall_cons in Hms as [Hm _]. by apply transfer_bus.
  - apply Forall_cons in Hms as [Hm1 [Hm2 _]%Forall_cons]. by apply send_send_bus.
  - apply Forall_cons in Hms as [Hm1 [Hm2 _]%Forall_cons]. by apply send_recv_bus.
  - by apply messages_request_bus.
Qed.
End one_request.
End user.

(** ** The system *)

(** A user: it sends its requests one after the other, and is over with the
    state that its program has then. *)
Definition user (t : ptr) (x : X) : proc X :=
  loop (fun '(n, x) =>
    match n with
    | O => Ret (inr x)
    | S n => (r <~ run_request (program t x).1 (program t x).2; Ret (inl (n, next t x r)))%proc
    end) (count t, x).
Definition user_pool : gmap ptr (proc X) := map_imap (fun t x => Some (user t x)) users.

(** What it has then done. *)
Definition user_done (t : ptr) (x : X) (w : bhist * kst) : Prop := forall x0, users !! t = Some x0 ->
  runs t x0 (hist_of t w.1) x /\ length (hist_of t w.1) = count t.

Lemma user_done_stable t x : stable inv (rely t) (user_done t x).
Proof. intros w w' _ Hd HR _ x0 Hu. destruct (HR ltac:(by eexists)) as (_ & _ & _ & _ & ->). by apply Hd. Qed.

Lemma user_task t x0 : users !! t = Some x0 ->
  triple inv t (rely t) (guar t) (known t) (View [] Outside true) (user t x0)
    (fun x v => runs t x0 (v_hist v) x /\ length (v_hist v) = count t).
Proof.
  intros Hu. apply (triple_loop _ _ _ _ _ (user_stable t x0 Hu) (bus_guar_refl t) _
    (fun nx v => exists h, v = View h Outside true /\ runs t x0 h nx.2 /\ (length h + nx.1 = count t)%nat)).
  2:{ exists []. split; [done|]. split; [constructor|done]. }
  intros [n x] v (h & -> & Hr & Hn). cbn [fst snd] in *. destruct n as [|n].
  { apply triple_ret; [apply (user_stable t x0 Hu)|]. cbn. split; [done|lia]. }
  destruct (Hprogram t x) as [[D Hd] Hok]; [by eexists|].
  eapply triple_bind; [apply (request_bus t x0 Hu h x (program t x).1 D (program t x).2); [done|by destruct (program t x)|done|done]|].
  intros resp v (ev & ->). apply triple_ret; [apply (user_stable t x0 Hu)|]. eexists. split; [done|]. split; [by apply runs_next|].
  cbn [fst]. rewrite length_app. cbn [length]. lia.
Qed.

(** A state in which nobody uses the bus. *)
Record bus_quiet (s : kst) : Prop := {
  bq_mutex : mtx_ok lock free_mutex s;
  bq_lock : k_lock s = 0;
  bq_idle : exists th, k_threads s !! tid = Some th /\ runnable th;
  bq_bus : exists B, dr_buses (k_drv s) !! b = Some B /\ bus_config B = Some inst /\ sp_wire (bus_port B) = wire0 /\ settled B /\
    Z.testbit (sp_ctlr1 (bus_port B)) 12 = false /\ Z.testbit (sp_ctlr1 (bus_port B)) 13 = false;
  bq_devs d x : devs !! d = Some x -> dr_spidevs (k_drv s) !! d = Some x;
  bq_awake t : is_Some (users !! t) -> awake t s
}.

(** C4: threads that share a bus through [rt_spi_transfer],
    [rt_spi_send_then_send], [rt_spi_send_then_recv] and
    [rt_spi_transfer_message] for devices with two data lines, each with any
    number of requests that may depend on what it got before, in every
    interleaving with each other, the tick interrupt, the scheduler and threads
    that use other objects: no thread ever faults; what happened on the wires
    is one whole transaction after the other, and the events of at most one
    that a thread is still at work on, which owns the bus; each transaction is
    that of its request under the settings of its device's configuration, the
    bytes sent in order and the answers in the receive buffers (all of them, if
    the peripheral responds); each thread's transactions are those of its
    program, in its order, with the responses it went on with; and a thread
    that is over has made exactly one for each of its requests, and its result
    is what its program makes of their responses. *)
Theorem spi_bus_shared s S : bus_quiet s -> rtc (sys_step env) (Sys s user_pool) S ->
  no_fault S /\ exists B done part, dr_buses (k_drv (sys_k S)) !! b = Some B /\
    sp_wire (bus_port B) = wire0 ++ concat (map en_events done) ++ part /\
    (part <> [] -> is_Some (owner_of (sys_k S))) /\
    Forall valid done /\
    forall t x0, users !! t = Some x0 ->
      (exists x, runs t x0 (filter (fun e => en_thread e = t) done) x) /\
      forall x, sys_code S !! t = Some (Ret x) ->
        runs t x0 (filter (fun e => en_thread e = t) done) x /\ length (filter (fun e => en_thread e = t) done) = count t.
Proof.
  intros [Q1 Q2 Q3 (B & Q4 & Q5 & Q6 & Q7 & Q8 & Q8') Q9 Q10] Hsteps. pose proof (mo_owner _ _ _ Q1) as (_ & _ & Hq).
  assert (inv (BHist [] false [], s)) as Hi.
  { split; cbn [fst snd g_done g_open]; [by exists free_mutex|done|done| |done|done|intros t x0 _; exists x0; constructor].
    exists B. split; [done|]. split; cbn; [done|done|by rewrite app_nil_r|done]. }
  destruct (pool_sound inv rely guar env user_done (fun _ _ => True) ltac:(intros t t' w w' Hne Hg; by apply (Hg t')) ltac:(done) ltac:(done)
      bus_env_keeps (Sys s user_pool) S (BHist [] false [])) as (g & Hi' & Hnf & Hpost); [done| |done|].
  - intros n t p Hp. unfold user_pool in Hp. cbn in Hp. rewrite map_lookup_imap in Hp. destruct (users !! t) as [x0|] eqn:Hu; [|done].
    injection Hp as <-. eapply safe_weaken; [apply user_done_stable| |exact Hi|apply (user_task t x0 Hu n); [exact Hi|]].
    + intros x w _ (v & [Hr Hl] & [Hh _ _]) x1 Hx1. assert (x1 = x0) as -> by congruence. by rewrite Hh.
    + split; [done| |by intros _; apply Q10]. split; [unfold owner_of; cbn; by rewrite (mo_mutex _ _ _ Q1)|].
      unfold waits_for_bus. cbn [snd sys_k]. rewrite Hq. apply not_elem_of_nil.
  - split; [done|]. destruct Hi' as [(m & Hm & Ho) _ _ (B1 & HB1 & [P1 P2 P3 P4]) _ Hd Hr]. cbn [fst snd] in *.
    exists B1, (g_done g), (g_part g). split; [done|]. split; [done|]. split; [|split; [done|]].
    + intros Hne. unfold owner_of. rewrite (mo_mutex _ _ _ Hm). cbn. apply Ho. destruct (g_open g); [done|]. by destruct (P4 eq_refl).
    + intros t x0 Hu. split; [by apply Hr|]. intros x Hx. by apply (Hpost t x Hx).
Qed.
End bus.

(** With a peripheral that responds, every byte goes out in order and every
    answer is what was read. *)
Fixpoint conversation (c : Z) (out ins : list Z) : list wire :=
  match out, ins with x :: out, r :: ins => Shift_out c x :: Shift_in r :: conversation c out ins | _, _ => [] end.

Lemma conversation_app c o1 i1 o2 i2 : length o1 = length i1 ->
  conversation c (o1 ++ o2) (i1 ++ i2) = conversation c o1 i1 ++ conversation c o2 i2.
Proof.
  revert i1. induction o1 as [|x o1 IH]; intros [|r i1] E; [done|done|done|]. cbn [app conversation].
  rewrite IH by (by injection E). done.
Qed.

Lemma exchanges_responsive `{SpiHw} b c l r ev : responsive b -> exchanges b c l r ev ->
  exists words, length words = length l /\ r = map u8 words /\ ev = conversation c l words.
Proof.
  intros Hr. induction 1 as [|l r e x y e' _ (words & Hl & -> & ->) Hx]; [by exists []|].
  inversion Hx as [w| |]; subst; [|done..]. exists (words ++ [w]). rewrite !length_app, Hl, map_app. split; [done|].
  split; [done|]. by rewrite conversation_app.
Qed.

(** ** Concrete runs

    Thread 2 runs, thread 4 is the idle thread.  The bus 11 is free; 30 is the
    keyboard's device with its configuration, 31 one that asks for 12 bits, 32
    one with three wires. *)
Definition demo_ready : SpiHw := {|
  spi_statr := fun _ _ => 3;
  spi_datar := fun _ n => Z.of_nat n;
  PCLK1_Frequency := 144000000;
  PCLK2_Frequency := 144000000
|}.
Definition demo_dead : SpiHw := {|
  spi_statr := fun _ _ => 0;
  spi_datar := fun _ _ => 0xFF;
  PCLK1_Frequency := 144000000;
  PCLK2_Frequency := 144000000
|}.
#[local] Instance spi_no_cleanup : CleanupCall := fun _ _ => mret tt.

Definition kb_config : rt_spi_configuration := SpiCfg (Z.lor RT_SPI_MSB RT_SPI_NO_CS) 8 115200.
Definition demo_devs : gmap ptr rt_spi_device :=
  {[30%positive := SpiDevice (Some 11%positive) kb_config None;
    31%positive := SpiDevice (Some 11%positive) (SpiCfg RT_SPI_MSB 12 115200) (Some (0, 16))]}.
Definition three_wire : rt_spi_device := SpiDevice (Some 11%positive) (SpiCfg (Z.lor RT_SPI_3WIRE RT_SPI_NO_CS) 8 115200) None.
Definition demo_bus : rt_spi_bus :=
  SpiBus RT_SPI_BUS_MODE_SPI None (Some 1) (SpiInit 0 0 0 0 0 0 0 0 0) (0, 0) (SpiPort 0 0 7 0 []).
Definition demo_spi : kst :=
  set_k_drv (set_dr_spidevs (<[32%positive := three_wire]> demo_devs) (set_dr_buses {[11%positive := demo_bus]} empty_drivers))
    (set_k_mutexes {[23%positive := free_mutex]}
    (set_k_objs (<[23%positive := demo_object 131 1]> (k_objs demo_mutex)) demo_mutex)).

Definition wires_of (s : kst) : list wire :=
  match dr_buses (k_drv s) !! 11%positive with Some B => sp_wire (bus_port B) | None => [] end.

(** The peripheral never answers: the transfer reports all three bytes, the
    buffer holds zeros, and nothing was sent. *)
Example dead_peripheral_succeeds :
  match exec 2000 (@rt_spi_transfer _ demo_dead 30 (Some [1; 2; 3]) (Some [9; 9; 9]) 3) demo_spi with
  | Ok r s => r = (3, Some [0; 0; 0]) /\ wires_of s = []
  | Fail _ => False
  end.
Proof. vm_compute. done. Qed.

(** A refused configuration: [rt_spi_configure] returns RT_EOK, and the next
    transfer runs under the old settings. *)
Example refused_configuration :
  match exec 200 (@rt_spi_transfer _ demo_ready 30 (Some [1]) None 1 ~;
                  r <~ @rt_spi_configure _ demo_ready 30 (SpiCfg RT_SPI_NO_CS 12 115200);
                  x <~ @rt_spi_transfer _ demo_ready 30 (Some [2]) None 1; Ret (r, fst x))%proc demo_spi with
  | Ok r s => r = (RT_EOK, 1) /\ wires_of s = [Shift_out 0x17C 1; Shift_in 2; Shift_out 0x17C 2; Shift_in 5]
  | Fail _ => False
  end.
Proof. vm_compute. done. Qed.

(** A three-wire device: its second transfer runs with the peripheral disabled
    (bit 6 of the settings). *)
Example three_wire_disabled :
  match exec 200 (@rt_spi_transfer _ demo_ready 32 (Some [1]) None 1 ~;
                  @rt_spi_transfer _ demo_ready 32 (Some [2]) None 1)%proc demo_spi with
  | Ok r s => fst r = 1 /\ map (fun e => match e with Shift_out c _ => Z.testbit c 6 | _ => true end) (wires_of s) = [true; true; false; true]
  | Fail _ => False
  end.
Proof. vm_compute. done. Qed.

(** The keyboard asks for at most 115200 Hz; at the board's 144 MHz even the
    largest divider, which is chosen, gives 562500 Hz. *)
Example keyboard_clock : prescaler (spi_max_hz kb_config) 144000000 = SPI_BaudRatePrescaler_256 /\
  144000000 / 256 = 562500 /\ spi_max_hz kb_config = 115200.
Proof. done. Qed.

(** ** Witnesses *)
Lemma ch32_spi_init_spec_witness : exists B, @ch32_spi_init demo_ready 11 kb_config demo_spi = Ok RT_EOK (upd_bus 11 B demo_spi) /\
  sp_wire (bus_port B) = [].
Proof.
  destruct (@ch32_spi_init_spec demo_ready 11 kb_config demo_spi demo_bus eq_refl) as (B & Hrun & _ & _ & _ & _ & Hw).
  exists B. split; [exact Hrun|exact Hw].
Defined.

Lemma rt_spi_transfer_ends_witness : 0 <= 3 < 2 ^ 32 /\
  ends (814 * Z.to_nat 3 + 14) (@rt_spi_transfer _ demo_dead 30 (Some [1; 2; 3]) None 3) (fun r => fst r = 3 \/ fst r = 0).
Proof. split; [lia|]. apply (@rt_spi_transfer_ends _ demo_dead 30 (Some [1; 2; 3]) None 3). lia. Defined.

(** Thread 2 makes two transfers. *)
Definition demo_program (t : ptr) (x : nat) : ptr * request := (30%positive, Transfer (Some [1; 2; 3]) (Some [0; 0; 0]) 3).
Definition demo_next (t : ptr) (x : nat) (r : response) : nat := S x.
Definition demo_users : gmap ptr nat := {[2%positive := 0%nat]}.

(** Moves of the current thread [t]. *)
Fixpoint moves_of {A} (n : nat) (t : ptr) (p : proc A) : K (proc A) := fun s =>
  match n with
  | O => Ok p s
  | S n => if bool_decide (k_cur s = Some t) then match tstep p s with Ok p' s' => moves_of n t p' s' | Fail e => Fail e end
           else Fail AssertFail
  end.

Lemma moves_of_steps {A} env n t p s p' s' (c : gmap ptr (proc A)) : moves_of n t p s = Ok p' s' -> c !! t = Some p ->
  exists c', rtc (sys_step env) (Sys s c) (Sys s' c') /\ c' !! t = Some p'.
Proof.
  revert p s c. induction n as [|n IH]; intros p s c Hm Hp; cbn [moves_of] in Hm.
  - injection Hm as -> ->. by exists c.
  - case_bool_decide as Hc; [|done]. destruct (tstep p s) as [p1 s1|] eqn:E; [|done].
    destruct (IH p1 s1 (<[t := p1]> c) Hm) as (c' & Hr & Hc'); [apply lookup_insert_eq|]. exists c'. split; [|done].
    eapply rtc_l; [by eapply sys_run|exact Hr].
Qed.

Lemma demo_spi_quiet : @bus_quiet demo_ready nat 11 4 1 demo_users demo_devs [] demo_spi.
Proof.
  split.
  - split; [|by exists (demo_object 131 1); repeat split; right|done|done|constructor].
    split; [apply kinv_check_ok; by vm_compute|by eexists|done].
  - done.
  - eexists. split; [done|by left].
  - exists demo_bus. repeat (split; [done|]). done.
  - intros d x. unfold demo_devs, demo_spi. cbn. intros Hd. rewrite lookup_insert_ne; [exact Hd|].
    intros <-. by vm_compute in Hd.
  - intros t [u Ht] Hc. cbn in Hc. injection Hc as <-. eexists. split; [done|by right].
Qed.

Lemma demo_devices_ok d x : demo_devs !! d = Some x -> device_ok 11 x.
Proof.
  unfold demo_devs. rewrite lookup_insert_Some, lookup_singleton_Some. intros [[_ <-]|[_ [_ <-]]]; split; try done; [by left|by right; eexists].
Qed.

Lemma demo_program_ok t x : is_Some (demo_users !! t) ->
  is_Some (demo_devs !! (demo_program t x).1) /\ request_ok (demo_program t x).2.
Proof.
  intros _. split; [by eexists|]. split; [done|]. constructor; [|constructor]. split; cbn; [lia|by intros l [= <-]|by intros l [= <-]|by left].
Qed.

Lemma spi_bus_shared_witness : exists s c done part,
  no_fault (Sys s c) /\ c !! 2%positive = Some (Ret 2%nat) /\ length (filter (fun e => en_thread e = 2%positive) done) = 2%nat /\
  concat (map en_events done) ++ part = conversation 0x17C [1; 2; 3; 1; 2; 3] [2; 5; 8; 11; 14; 17] /\
  Forall (@valid demo_ready 11 1 demo_devs) done.
Proof.
  pose (two := fun _ : ptr => 2%nat).
  assert (match moves_of 103 2 (@user _ demo_ready nat demo_program demo_next two 2 0%nat) demo_spi with
          | Ok p s => (ret_val p, wires_of s) | Fail _ => (None, []) end
          = (Some 2%nat, conversation 0x17C [1; 2; 3; 1; 2; 3] [2; 5; 8; 11; 14; 17])) as Hw by by vm_compute.
  destruct (moves_of 103 2 (@user _ demo_ready nat demo_program demo_next two 2 0%nat) demo_spi) as [p s|] eqn:E; [|discriminate Hw].
  pose proof (f_equal fst Hw) as Hp. apply (f_equal snd) in Hw. cbn [fst snd] in Hp, Hw. apply ret_val_Some in Hp as ->.
  destruct (moves_of_steps (@env no_app nat 11 4 demo_users demo_devs) 103 2 _ demo_spi _ s
    (@user_pool _ demo_ready nat demo_program demo_next two demo_users) E eq_refl) as (c & Hs & Hc).
  destruct (@spi_bus_shared no_app _ demo_ready nat demo_program demo_next two 11 4 1 demo_users demo_devs [] eq_refl
    demo_devices_ok demo_program_ok demo_spi (Sys s c) demo_spi_quiet Hs)
    as (Hnf & B & done_ & part & HB & Hwire & _ & Hv & Hr).
  exists s, c, done_, part. split; [exact Hnf|]. split; [exact Hc|].
  split; [apply (proj2 (Hr 2%positive 0%nat eq_refl) 2%nat Hc)|]. split; [|exact Hv]. cbn [sys_k] in HB.
  unfold wires_of in Hw. rewrite HB in Hw. by rewrite <- Hw, Hwire.
Defined.
