(* ===== verification/Serial.v ===== *)
(** * Serial devices (components/drivers/serial/serial.c) and the UART driver
    (libraries/hal_drivers/drv_usart.c)

    A received character goes from the UART, by the interrupt handler, into a
    FIFO, whose oldest character is dropped when it is full, and an indication
    tells the reader.  The theorems: the FIFO is a queue that keeps the last
    [bufsz - 1] characters; the handler stores what came and indicates it
    exactly if something can be read; a read takes the oldest characters; and
    serial.c keeps the promises device.c asks of a driver.

    No DMA and no POSIX layer is configured.  [rt_malloc] is the argument of
    the section; the UART behind the driver is the record [uart].  Its data
    register holds one character; while the handler runs, too, the line brings
    characters, and one that comes too early is lost. *)
From stdpp Require Import strings.
From S2P Require Import Prelude Ring DevState KState Scheduler Object Timer Proc Conc Thread Ipc Printf Completion Device.
#[local] Open Scope Z_scope.

Definition RT_SERIAL_EVENT_RX_IND : Z := 1.
Definition RT_SERIAL_EVENT_TX_DONE : Z := 2.
Definition RT_DEVICE_CTRL_RESUME : Z := 0x01.
Definition RT_DEVICE_CTRL_SUSPEND : Z := 0x02.
Definition RT_DEVICE_CTRL_CONFIG : Z := 0x03.
Definition RT_DEVICE_CTRL_CLOSE : Z := 0x04.
Definition RT_DEVICE_CTRL_SET_INT : Z := 0x10.
Definition RT_DEVICE_CTRL_CLR_INT : Z := 0x11.
Definition RT_SERIAL_CONFIG_DEFAULT : serial_configure := SerialCfg 115200 8 0 0 0 0 64 0.

Definition get_serial (dev : ptr) : K rt_serial_device := fun s => lift (dr_serials (k_drv s) !! dev) s.
Definition put_serial (dev : ptr) (x : rt_serial_device) : K unit :=
  modify (fun s => set_k_drv (set_dr_serials (<[dev := x]> (dr_serials (k_drv s))) (k_drv s)) s).

(** ** The UART (drv_usart.c) *)
Definition usart_of_config (cfg : serial_configure) : usart_init :=
  UsartInit (baud_rate cfg)
    (if data_bits cfg =? 8 then 0x0000 else if data_bits cfg =? 9 then 0x1000 else 0x0000)
    (if stop_bits cfg =? 0 then 0x0000 else if stop_bits cfg =? 1 then 0x2000 else 0x0000)
    (if parity cfg =? 0 then 0x0000 else if parity cfg =? 1 then 0x0600 else if parity cfg =? 2 then 0x0400 else 0x0000).

Definition ch32_configure (serial : ptr) (cfg : serial_configure) : K Z :=
  x ← get_serial serial;
  put_serial serial (set_ser_uart (set_ua_init (Some (usart_of_config cfg)) (ser_uart x)) x);;
  mret RT_EOK.

Definition set_rx_int (serial : ptr) (on : bool) : K unit :=
  x ← get_serial serial; put_serial serial (set_ser_uart (set_ua_rx_int on (ser_uart x)) x).

Definition ch32_control (serial : ptr) (cmd : Z) : K Z :=
  (if cmd =? RT_DEVICE_CTRL_CLR_INT then set_rx_int serial false
   else if cmd =? RT_DEVICE_CTRL_SET_INT then set_rx_int serial true
   else mret tt);;
  mret RT_EOK.

(** The loop that waits for the transmitter ends, which is up to the UART. *)
Definition ch32_putc (serial : ptr) (c : Z) : K Z :=
  x ← get_serial serial;
  put_serial serial (set_ser_uart (set_ua_sent (ua_sent (ser_uart x) ++ [u8 c]) (ser_uart x)) x);;
  mret 1.

(** *** The receiver

    A character comes over the line: into the data register, or it is lost if
    the register holds one that was not read. *)
Definition rc_latch (c : Z) (r : receiver) : receiver :=
  match rc_data r with
  | None => Receiver (rc_line r ++ [c]) (Some c) (rc_coming r) (rc_lost r)
  | Some d => Receiver (rc_line r ++ [c]) (Some d) (rc_coming r) (S (rc_lost r))
  end.
(** What the line brings until the driver looks the next time. *)
Definition rc_tick (r : receiver) : receiver :=
  match rc_coming r with
  | [] => r
  | o :: l =>
      let r := Receiver (rc_line r) (rc_data r) l (rc_lost r) in
      match o with Some c => rc_latch c r | None => r end
  end.
(** Reading the data register empties it; clearing RXNE loses the character. *)
Definition rc_read (r : receiver) : receiver := Receiver (rc_line r) None (rc_coming r) (rc_lost r).
Definition rc_clear (r : receiver) : receiver :=
  Receiver (rc_line r) None (rc_coming r) (match rc_data r with Some _ => S (rc_lost r) | None => rc_lost r end).

Definition put_receiver (serial : ptr) (r : receiver) : K unit :=
  x ← get_serial serial; put_serial serial (set_ser_uart (set_ua_rx r (ser_uart x)) x).

Definition ch32_getc (serial : ptr) : K Z :=
  x ← get_serial serial;
  let r := rc_tick (ua_rx (ser_uart x)) in
  match rc_data r with
  | None => put_receiver serial r;; mret (-1)
  | Some ch => put_receiver serial (rc_read r);; mret (Z.land ch 0xff)
  end.

Definition USART_ClearITPendingBit (serial : ptr) : K unit :=
  x ← get_serial serial; put_receiver serial (rc_clear (rc_tick (ua_rx (ser_uart x)))).

(** ** The receive FIFO *)

(** The handler's section for one character: the FIFO, and whether the oldest
    character was dropped. *)
Definition rx_push (bufsz : Z) (f : rt_serial_rx_fifo) (ch : Z) : option (rt_serial_rx_fifo * bool) :=
  buffer ← aset (rx_buffer f) (Z.to_nat (rx_put f)) (u8 ch);
  let put := u16 (rx_put f + 1) in
  let put := if bufsz <=? put then 0 else put in
  if put =? rx_get f then
    let get := u16 (rx_get f + 1) in
    Some (RxFifo buffer put (if bufsz <=? get then 0 else get) true, true)
  else Some (RxFifo buffer put (rx_get f) (rx_full f), false).

(** The reader's section for one character. *)
Definition rx_pop (bufsz : Z) (f : rt_serial_rx_fifo) : option (option (Z * rt_serial_rx_fifo)) :=
  if (rx_get f =? rx_put f) && negb (rx_full f) then Some None
  else
    ch ← aget (rx_buffer f) (Z.to_nat (rx_get f));
    let get := u16 (rx_get f + 1) in
    let get := if bufsz <=? get then 0 else get in
    let full := if rx_full f then false else rx_full f in
    Some (Some (Z.land ch 0xff, RxFifo (rx_buffer f) (rx_put f) get full)).

(** [rx_length] of the handler. *)
Definition rx_length (bufsz : Z) (f : rt_serial_rx_fifo) : Z :=
  if rx_get f <=? rx_put f then u32 (rx_put f - rx_get f) else u32 (bufsz - (rx_get f - rx_put f)).

Class RxIndicate := rx_indicate_call : positive -> ptr -> Z -> proc Z.

(** What [rt_malloc] returns for the two FIFO structures: whether it succeeds,
    and the address of the completion in the second. *)
Class SerialMalloc := { rx_fifo_memory : bool; tx_fifo_memory : option ptr }.

Section serial.
Context `{DriverOps} `{RxIndicate} `{SerialMalloc}.

Definition _serial_check_buffer_size : K unit :=
  already_output ← gets (fun s => dr_warned (k_drv s));
  if negb already_output then
    kprint (codes "[W/UART] "%string);;
    kprint (codes "Warning: There is no enough buffer for saving data, please increase the RT_SERIAL_RB_BUFSZ option."%string);;
    kprint [10];;
    modify (fun s => set_k_drv (set_dr_warned true (k_drv s)) s)
  else mret tt.

Definition rx_store (serial : ptr) (ch : Z) : K unit :=
  x ← get_serial serial;
  f ← lift (serial_rx x);
  r ← lift (rx_push (bufsz (ser_config x)) f ch);
  put_serial serial (set_serial_rx (Some (fst r)) x);;
  if snd r : bool then _serial_check_buffer_size else mret tt.

(** One unit of fuel for each character - the one in the data register and
    those that come - and one to see that there is no more. *)
Fixpoint rx_loop (fuel : nat) (serial : ptr) : K unit :=
  match fuel with
  | O => kfail OutOfFuel
  | S fuel =>
      ch ← ch32_getc serial;
      if ch =? -1 then mret tt else rx_store serial ch;; rx_loop fuel serial
  end.

(** [rt_hw_serial_isr]; no other interrupt comes between its sections. *)
Definition rx_ind_event (serial : ptr) : K unit :=
  x ← get_serial serial;
  RT_ASSERT (bool_decide (is_Some (serial_rx x)));;
  rx_loop (S (S (length (rc_coming (ua_rx (ser_uart x)))))) serial;;
  d ← get_dev serial;
  match dev_rx_indicate d with
  | None => mret tt
  | Some f =>
      x ← get_serial serial;
      fifo ← lift (serial_rx x);
      let len := rx_length (bufsz (ser_config x)) fifo in
      if negb (len =? 0) then exec 4 (rx_indicate_call f serial len);; mret tt else mret tt
  end.

Definition rt_hw_serial_isr (serial : ptr) (event : Z) : K unit :=
  let e := Z.land event 0xff in
  if e =? RT_SERIAL_EVENT_RX_IND then rx_ind_event serial
  else if e =? RT_SERIAL_EVENT_TX_DONE then
    x ← get_serial serial;
    tx ← lift (serial_tx x);
    exec 3 (rt_completion_done tx)
  else mret tt.

(** The interrupt handler of drv_usart.c: a character is there and its
    interrupt is on.  A character that comes after the last look at the data
    register is cleared away. *)
Definition uart_isr (serial : ptr) : K unit :=
  x ← get_serial serial;
  let u := ser_uart x in
  if ua_rx_int u && bool_decide (is_Some (rc_data (ua_rx u))) then
    rt_hw_serial_isr serial RT_SERIAL_EVENT_RX_IND;;
    USART_ClearITPendingBit serial
  else mret tt.

Definition USART1_IRQHandler (serial : ptr) : K unit :=
  rt_interrupt_enter;; uart_isr serial;; rt_interrupt_leave.

(** ** Reading and writing *)

(** The loop of [_serial_poll_rx]; the result is what was stored at [data]. *)
Definition _serial_poll_rx (serial : ptr) (length : Z) : proc (list Z) :=
  loop (fun st : Z * list Z =>
    if fst st =? 0 then Ret (inr (snd st))
    else
      ch <~ atomic (ch32_getc serial);
      if ch =? -1 then Ret (inr (snd st))
      else
        let data := snd st ++ [ch] in
        stream <~ atomic (d ← get_dev serial; mret (flagged (dev_open_flag d) RT_DEVICE_FLAG_STREAM));
        if stream && (ch =? 10) then Ret (inr data) else Ret (inl (fst st - 1, data)))%proc (length, []).

Definition int_rx_section (serial : ptr) : K (option Z) :=
  x ← get_serial serial;
  f ← lift (serial_rx x);
  r ← lift (rx_pop (bufsz (ser_config x)) f);
  match r with
  | None => mret None
  | Some (ch, f) => put_serial serial (set_serial_rx (Some f) x);; mret (Some ch)
  end.

Definition _serial_int_rx (serial : ptr) (length : Z) : proc (list Z) :=
  (atomic (x ← get_serial serial; RT_ASSERT (bool_decide (is_Some (serial_rx x)))) ~;
   loop (fun st : Z * list Z =>
     if fst st =? 0 then Ret (inr (snd st))
     else
       r <~ atomic (int_rx_section serial);
       match r with
       | None => Ret (inr (snd st))
       | Some ch => Ret (inl (fst st - 1, snd st ++ [ch]))
       end) (length, []))%proc.

(** [*data == '\n' && (open_flag & RT_DEVICE_FLAG_STREAM)] *)
Definition line_feed (serial : ptr) (c : Z) : K bool :=
  d ← get_dev serial; mret ((c =? 10) && flagged (dev_open_flag d) RT_DEVICE_FLAG_STREAM).

Fixpoint _serial_poll_tx (serial : ptr) (data : list Z) : proc unit :=
  match data with
  | [] => Ret tt
  | c :: data =>
      (lf <~ atomic (line_feed serial c);
       if lf : bool then
         atomic (ch32_putc serial 13) ~; atomic (ch32_putc serial c) ~; _serial_poll_tx serial data
       else atomic (ch32_putc serial c) ~; _serial_poll_tx serial data)%proc
  end.

(** [putc] that must wait for the transmitter: [true] after a wait, when the
    loop starts again with the same character. *)
Definition put_or_wait (serial tx : ptr) (c : Z) : proc bool :=
  (r <~ atomic (ch32_putc serial c);
   if r =? -1 then rt_completion_wait tx RT_WAITING_FOREVER ~; Ret true else Ret false)%proc.

Definition _serial_int_tx (serial : ptr) (data : list Z) : proc unit :=
  (x <~ atomic (x ← get_serial serial; RT_ASSERT (bool_decide (is_Some (serial_tx x)));; lift (serial_tx x));
   loop (fun data : list Z =>
     match data with
     | [] => Ret (inr tt)
     | c :: rest =>
         lf <~ atomic (line_feed serial c);
         again <~ (if lf : bool then put_or_wait serial x 13 else Ret false);
         if again : bool then Ret (inl data)
         else
           again <~ put_or_wait serial x c;
           Ret (inl (if again : bool then data else rest))
     end) data)%proc.

(** ** The device operations *)
Definition rt_serial_init (dev : ptr) : K Z :=
  x ← get_serial dev;
  put_serial dev (set_serial_tx None (set_serial_rx None x));;
  ch32_configure dev (ser_config x).

(** The FIFO's structure as [rt_serial_open] fills it. *)
Definition fresh_fifo (bufsz : Z) : rt_serial_rx_fifo := RxFifo (replicate (Z.to_nat bufsz) 0) 0 0 false.

Definition or_open_flag (dev : ptr) (f : Z) : K unit :=
  d ← get_dev dev; put_dev dev (set_dev_open_flag (Z.lor (dev_open_flag d) f) d).

Definition open_rx (dev : ptr) (oflag : Z) : K unit :=
  x ← get_serial dev;
  match serial_rx x with
  | None =>
      if flagged oflag RT_DEVICE_FLAG_INT_RX then
        RT_ASSERT rx_fifo_memory;;
        put_serial dev (set_serial_rx (Some (fresh_fifo (bufsz (ser_config x)))) x);;
        or_open_flag dev RT_DEVICE_FLAG_INT_RX;;
        ch32_control dev RT_DEVICE_CTRL_SET_INT;; mret tt
      else mret tt
  | Some _ => if flagged oflag RT_DEVICE_FLAG_INT_RX then or_open_flag dev RT_DEVICE_FLAG_INT_RX else mret tt
  end.

Definition open_tx (dev : ptr) (oflag : Z) : K unit :=
  x ← get_serial dev;
  match serial_tx x with
  | None =>
      if flagged oflag RT_DEVICE_FLAG_INT_TX then
        RT_ASSERT (bool_decide (is_Some tx_fifo_memory));;
        tx ← lift tx_fifo_memory;
        rt_completion_init tx;;
        put_serial dev (set_serial_tx (Some tx) x);;
        or_open_flag dev RT_DEVICE_FLAG_INT_TX;;
        ch32_control dev RT_DEVICE_CTRL_SET_INT;; mret tt
      else mret tt
  | Some _ => if flagged oflag RT_DEVICE_FLAG_INT_TX then or_open_flag dev RT_DEVICE_FLAG_INT_TX else mret tt
  end.

(** An operation asked for that the device does not have. *)
Definition lacks (oflag flag f : Z) : bool := flagged oflag f && negb (flagged flag f).

Definition rt_serial_open (dev : ptr) (oflag : Z) : K Z :=
  d ← get_dev dev;
  if lacks oflag (dev_flag d) RT_DEVICE_FLAG_DMA_RX then mret (- RT_EIO)
  else if lacks oflag (dev_flag d) RT_DEVICE_FLAG_DMA_TX then mret (- RT_EIO)
  else if lacks oflag (dev_flag d) RT_DEVICE_FLAG_INT_RX then mret (- RT_EIO)
  else if lacks oflag (dev_flag d) RT_DEVICE_FLAG_INT_TX then mret (- RT_EIO)
  else
    let stream_flag :=
      if flagged oflag RT_DEVICE_FLAG_STREAM || flagged (dev_open_flag d) RT_DEVICE_FLAG_STREAM
      then RT_DEVICE_FLAG_STREAM else 0 in
    put_dev dev (set_dev_open_flag (Z.land oflag 0xff) d);;
    open_rx dev oflag;;
    open_tx dev oflag;;
    or_open_flag dev stream_flag;;
    mret RT_EOK.

Definition clear_open_flag (dev : ptr) (f : Z) : K unit :=
  d ← get_dev dev; put_dev dev (set_dev_open_flag (Z.ldiff (dev_open_flag d) f) d).

Definition close_rx (dev : ptr) : K unit :=
  d ← get_dev dev;
  if flagged (dev_open_flag d) RT_DEVICE_FLAG_INT_RX then
    ch32_control dev RT_DEVICE_CTRL_CLR_INT;;
    clear_open_flag dev RT_DEVICE_FLAG_INT_RX;;
    x ← get_serial dev;
    RT_ASSERT (bool_decide (is_Some (serial_rx x)));;
    put_serial dev (set_serial_rx None x)
  else mret tt.

Definition close_tx (dev : ptr) : K unit :=
  d ← get_dev dev;
  if flagged (dev_open_flag d) RT_DEVICE_FLAG_INT_TX then
    ch32_control dev RT_DEVICE_CTRL_CLR_INT;;
    clear_open_flag dev RT_DEVICE_FLAG_INT_TX;;
    x ← get_serial dev;
    RT_ASSERT (bool_decide (is_Some (serial_tx x)));;
    put_serial dev (set_serial_tx None x)
  else mret tt.

Definition rt_serial_close (dev : ptr) : K Z :=
  d ← get_dev dev;
  if 1 <? dev_ref_count d then mret RT_EOK
  else
    close_rx dev;;
    close_tx dev;;
    ch32_control dev RT_DEVICE_CTRL_CLOSE;;
    d ← get_dev dev;
    put_dev dev (set_dev_flag (Z.ldiff (dev_flag d) RT_DEVICE_FLAG_ACTIVATED) d);;
    mret RT_EOK.

Definition rt_serial_read (dev : ptr) (pos size : Z) : proc (list Z) :=
  if size =? 0 then Ret []
  else
    (int_rx <~ atomic (d ← get_dev dev; mret (flagged (dev_open_flag d) RT_DEVICE_FLAG_INT_RX));
     if int_rx : bool then _serial_int_rx dev size else _serial_poll_rx dev size)%proc.

Definition rt_serial_write (dev : ptr) (pos : Z) (buffer : list Z) : proc Z :=
  match buffer with
  | [] => Ret 0
  | _ =>
      (int_tx <~ atomic (d ← get_dev dev; mret (flagged (dev_open_flag d) RT_DEVICE_FLAG_INT_TX));
       (if int_tx : bool then _serial_int_tx dev buffer else _serial_poll_tx dev buffer) ~;
       Ret (Z.of_nat (length buffer)))%proc
  end.

Definition rt_serial_control (dev : ptr) (cmd : Z) (args : ctl_arg) : K Z :=
  if cmd =? RT_DEVICE_CTRL_SUSPEND then
    d ← get_dev dev; put_dev dev (set_dev_flag (Z.lor (dev_flag d) RT_DEVICE_FLAG_SUSPENDED) d);; mret RT_EOK
  else if cmd =? RT_DEVICE_CTRL_RESUME then
    d ← get_dev dev; put_dev dev (set_dev_flag (Z.ldiff (dev_flag d) RT_DEVICE_FLAG_SUSPENDED) d);; mret RT_EOK
  else if cmd =? RT_DEVICE_CTRL_CONFIG then
    match args with
    | arg_config pconfig =>
        x ← get_serial dev;
        d ← get_dev dev;
        if negb (bufsz pconfig =? bufsz (ser_config x)) && negb (dev_ref_count d =? 0) then mret RT_EBUSY
        else
          put_serial dev (set_ser_config pconfig x);;
          (if negb (dev_ref_count d =? 0) then ch32_configure dev pconfig else mret RT_EOK);;
          mret RT_EOK
    | arg_flag _ => kfail BadPtr
    | arg_null => mret RT_EOK
    end
  else ch32_control dev cmd.

Definition rt_hw_serial_register (serial : ptr) (name : list Z) (flag : Z) : K Z :=
  d ← get_dev serial;
  put_dev serial (Device RT_Device_Class_Char (dev_flag d) (dev_open_flag d) (dev_ref_count d) None None serial_driver);;
  rt_device_register (Some serial) name flag.

(** The UARTs of the board, with their names. *)
Fixpoint rt_hw_usart_init (uarts : list (ptr * list Z)) : K Z :=
  match uarts with
  | [] => mret 0
  | (u, name) :: uarts =>
      x ← get_serial u;
      put_serial u (set_ser_config RT_SERIAL_CONFIG_DEFAULT x);;
      result ← rt_hw_serial_register u name (Z.lor RT_DEVICE_FLAG_RDWR RT_DEVICE_FLAG_INT_RX);
      RT_ASSERT (result =? RT_EOK);;
      match uarts with [] => mret result | _ => rt_hw_usart_init uarts end
  end.

Definition serial_ops : rt_device_ops := {|
  op_init := Some rt_serial_init;
  op_open := Some rt_serial_open;
  op_close := Some rt_serial_close;
  op_read := Some rt_serial_read;
  op_write := Some rt_serial_write;
  op_control := Some rt_serial_control
|}.
End serial.

(** ** The FIFO as a queue *)

(** [f] holds the characters [q], oldest first; one slot stays free. *)
Record rx_ok (bufsz : Z) (f : rt_serial_rx_fifo) (q : list Z) : Prop := {
  rx_ring : ring_at bufsz (rx_get f) (rx_buffer f) q;
  rx_size : 2 <= bufsz < 2 ^ 16;
  rx_room : Z.of_nat (length q) < bufsz;
  rx_tail : rx_put f = slot_of bufsz (rx_get f) (Z.of_nat (length q));
  rx_flag : rx_full f = true -> q <> [];
  rx_bytes : Forall (fun c => 0 <= c < 2 ^ 8) q
}.

(** The character that arrives at a full FIFO takes the place of the oldest. *)
Lemma rx_push_ok n f q ch : rx_ok n f q -> 0 <= ch < 2 ^ 8 ->
  exists f', rx_push n f ch = Some (f', bool_decide (Z.of_nat (length q) = n - 1)) /\
    rx_ok n f' (keep_last (n - 1) (q ++ [ch])).
Proof.
  intros [Hr Hn Hroom Ht Hf Hb] Hch. pose proof (ra_size _ _ _ _ Hr) as Hl. pose proof (ra_base _ _ _ _ Hr) as Hg.
  pose proof (slot_of_range n (rx_get f) (Z.of_nat (length q)) ltac:(lia)) as Hp. rewrite <- Ht in Hp.
  unfold rx_push, aset. rewrite (proj2 (Nat.ltb_lt _ _)) by lia. cbn [mbind option_bind].
  rewrite (next_index n (rx_put f)), (next_index n (rx_get f)), (wrap_small 8) by lia.
  assert (slot_of n (rx_put f) 1 = slot_of n (rx_get f) (Z.of_nat (length q) + 1)) as En by (by rewrite Ht, slot_of_assoc).
  pose proof (ring_push _ _ _ _ ch Hr Hroom) as Hpush. rewrite <- Ht in Hpush.
  assert (Forall (fun c => 0 <= c < 2 ^ 8) (q ++ [ch])) as Hb' by (apply Forall_app; split; [done|by constructor]).
  destruct (Z.eqb_spec (slot_of n (rx_put f) 1) (rx_get f)) as [E|Hne].
  - assert (Z.of_nat (length q) = n - 1) as Hfull.
    { destruct (decide (Z.of_nat (length q) = n - 1)); [done|]. rewrite En, <- (slot_of_0 n (rx_get f)) in E by done.
      rewrite slot_of_assoc in E. apply slot_of_inj in E; lia. }
    rewrite bool_decide_eq_true_2 by done. eexists. split; [done|].
    rewrite keep_last_snoc by lia. destruct q as [|c q]; [cbn in Hfull; lia|]. change (drop 1 (c :: q)) with q.
    rewrite length_cons in *. apply ring_pop in Hpush as [_ Hpush].
    split; cbn; [done|done|rewrite length_app; cbn; lia| |by intros _ ?%app_nil_r_inv|].
    + rewrite En, slot_of_assoc, length_app. f_equal. cbn [length]. lia.
    + by apply Forall_cons in Hb' as [_ Hb'].
  - assert (Z.of_nat (length q) <> n - 1) as Hfull.
    { intros E. apply Hne. rewrite En, E. replace (n - 1 + 1) with (0 + 1 * n) by lia. unfold slot_of.
      rewrite Z.add_assoc, Z_mod_plus_full. apply (slot_of_0 n); lia. }
    rewrite bool_decide_eq_false_2 by done. eexists. split; [done|]. rewrite keep_last_le by (rewrite length_app; cbn; lia).
    split; cbn; [done|done|rewrite length_app; cbn; lia| |by intros _ [_ ?]%app_nil|done].
    rewrite En, length_app. f_equal. cbn. lia.
Qed.

Lemma rx_pop_ok n f q : rx_ok n f q ->
  match q with
  | [] => rx_pop n f = Some None
  | ch :: q => exists f', rx_pop n f = Some (Some (ch, f')) /\ rx_ok n f' q
  end.
Proof.
  intros [Hr Hn Hroom Ht Hf Hb]. pose proof (ra_base _ _ _ _ Hr) as Hg. unfold rx_pop.
  destruct q as [|ch q].
  - rewrite Ht. cbn [length]. rewrite (slot_of_0 n) by done. rewrite Z.eqb_refl. destruct (rx_full f); [by destruct Hf|done].
  - rewrite length_cons in *. assert (rx_get f <> rx_put f) as Hne.
    { rewrite Ht. intros E. rewrite <- (slot_of_0 n (rx_get f)) in E at 1 by done. apply slot_of_inj in E; lia. }
    destruct (Z.eqb_spec (rx_get f) (rx_put f)); [done|]. cbn [andb]. apply Forall_cons in Hb as [Hch Hb].
    apply ring_pop in Hr as [Hv Hr]. unfold aget. rewrite Hv. cbn [mbind option_bind].
    change 0xff with (Z.ones 8). rewrite next_index, Z.land_ones, Z.mod_small by lia. eexists. split; [done|].
    split; cbn; [done|done|lia| |by destruct (rx_full f)|done].
    rewrite Ht, slot_of_assoc. f_equal. lia.
Qed.

Lemma rx_length_ok n f q : rx_ok n f q -> rx_length n f = Z.of_nat (length q).
Proof.
  intros [Hr Hn Hroom Ht Hf Hb]. pose proof (ra_base _ _ _ _ Hr) as Hg. unfold rx_length. rewrite Ht. unfold slot_of.
  destruct (Z.lt_ge_cases (rx_get f + Z.of_nat (length q)) n).
  - rewrite Z.mod_small by lia. destruct (Z.leb_spec (rx_get f) (rx_get f + Z.of_nat (length q))); [|lia].
    rewrite wrap_small by lia. lia.
  - replace (rx_get f + Z.of_nat (length q)) with (rx_get f + Z.of_nat (length q) - n + 1 * n) by lia.
    rewrite Z_mod_plus_full, Z.mod_small by lia.
    destruct (Z.leb_spec (rx_get f) (rx_get f + Z.of_nat (length q) - n)); [lia|]. rewrite wrap_small by lia. lia.
Qed.

Lemma fresh_fifo_ok n : 2 <= n < 2 ^ 16 -> rx_ok n (fresh_fifo n) [].
Proof. intros Hn. split; cbn; [|done|lia|by rewrite slot_of_0 by lia|done|done]. apply ring_empty; [rewrite length_replicate|]; lia. Qed.

(** ** What the receiver gives *)

Definition held (r : receiver) : list Z := option_list (rc_data r).
(** The characters that came and will come. *)
Definition rc_all (r : receiver) : list Z := rc_line r ++ omap id (rc_coming r).
(** Looking and reading. *)
Definition rc_take (r : receiver) : receiver := rc_read (rc_tick r).
Fixpoint takes (n : nat) (r : receiver) : receiver := match n with O => r | S n => takes n (rc_take r) end.

(** The characters that a reader gets who reads until there is none: the one
    that is there, and those that come one before each further look. *)
Fixpoint streak (l : list (option Z)) : list Z := match l with Some c :: l => c :: streak l | _ => [] end.
Definition burst (r : receiver) : list Z :=
  match rc_data r with Some c => c :: streak (tail (rc_coming r)) | None => streak (rc_coming r) end.
Definition drained (r : receiver) : receiver := takes (S (length (burst r))) r.

Lemma burst_some r c : rc_data (rc_tick r) = Some c -> burst r = c :: burst (rc_take r).
Proof. destruct r as [ln [d|] [|[b|] l] lo]; cbn; unfold rc_tick, rc_latch; cbn; congruence. Qed.
Lemma burst_none r : rc_data (rc_tick r) = None -> burst r = [].
Proof. destruct r as [ln [d|] [|[b|] l] lo]; cbn; unfold rc_tick, rc_latch; cbn; congruence. Qed.

Lemma streak_sublist l : streak l `sublist_of` omap id l.
Proof. induction l as [|[c|] l IH]; cbn; [done|by apply sublist_skip|apply sublist_nil_l]. Qed.
Lemma tail_sublist l : omap id (tail l) `sublist_of` omap (M:=list) (id : option Z -> option Z) l.
Proof. destruct l as [|[c|] l]; cbn; [done|by apply sublist_cons|done]. Qed.

Lemma burst_length r : (length (burst r) <= S (length (rc_coming r)))%nat.
Proof.
  assert (forall l, (length (streak l) <= length l)%nat) as Hs by (induction l as [|[c|] l IH]; cbn; lia).
  unfold burst. destruct (rc_data r); cbn [length]; [pose proof (Hs (tail (rc_coming r))); destruct (rc_coming r); cbn in *; lia|].
  pose proof (Hs (rc_coming r)). lia.
Qed.

(** The bytes of a receiver. *)
Definition rc_bytes (r : receiver) : Prop := Forall (fun c => 0 <= c < 2 ^ 8) (held r ++ omap id (rc_coming r)).

Lemma burst_bytes r : rc_bytes r -> Forall (fun c => 0 <= c < 2 ^ 8) (burst r).
Proof.
  unfold rc_bytes, burst, held. intros [H1 H2]%Forall_app. destruct (rc_data r) as [c|]; cbn in H1.
  - apply Forall_cons in H1 as [H1 _]. constructor; [done|]. eapply Forall_sublist; [|exact H2].
    etrans; [apply streak_sublist|apply tail_sublist].
  - eapply Forall_sublist; [apply streak_sublist|exact H2].
Qed.

(** From [r] to [r'] the characters [took] were read: they are part of what
    the register held and what came, in order, and the count of the others is
    the loss. *)
Definition arrived (r r' : receiver) (took : list Z) : Prop := exists arr,
  rc_line r' = rc_line r ++ arr /\ took ++ held r' `sublist_of` held r ++ arr /\
  (length (held r ++ arr) + rc_lost r = length (took ++ held r') + rc_lost r')%nat /\
  rc_all r' = rc_all r /\ (rc_bytes r -> rc_bytes r').

Lemma arrived_trans r r1 r2 t1 t2 : arrived r r1 t1 -> arrived r1 r2 t2 -> arrived r r2 (t1 ++ t2).
Proof.
  intros (a1 & L1 & S1 & N1 & A1 & B1) (a2 & L2 & S2 & N2 & A2 & B2). exists (a1 ++ a2).
  split; [by rewrite L2, L1, app_assoc|]. split; [|split; [|split; [congruence|auto]]].
  - rewrite <- app_assoc. etrans; [apply sublist_app; [reflexivity|exact S2]|]. rewrite !app_assoc. by apply sublist_app.
  - rewrite !length_app in *. lia.
Qed.

Lemma arrived_refl r : arrived r r [].
Proof. exists []. rewrite !app_nil_r. done. Qed.

Lemma arrived_latch r c coming : rc_coming r = Some c :: coming ->
  arrived r (rc_latch c (Receiver (rc_line r) (rc_data r) coming (rc_lost r))) [].
Proof.
  destruct r as [ln [d|] co lo]; cbn; intros ->; exists [c]; unfold rc_all, rc_bytes, held; cbn; (split; [done|]; split; [|split; [lia|split; [by rewrite <- app_assoc|]]]).
  - by apply sublist_skip, sublist_nil_l.
  - intros [H1 [_ H2]%Forall_cons]%Forall_cons. by constructor.
  - done.
  - done.
Qed.

Lemma arrived_tick r : arrived r (rc_tick r) [].
Proof.
  unfold rc_tick. destruct (rc_coming r) as [|[c|] l] eqn:E; [apply arrived_refl|by apply arrived_latch|].
  exists []. unfold rc_all, rc_bytes, held. cbn. rewrite E, !app_nil_r. done.
Qed.

Lemma arrived_read r : arrived r (rc_read r) (held r).
Proof.
  exists []. unfold rc_all, rc_bytes, held. cbn. rewrite !app_nil_r. do 4 (split; [done|]). by intros [_ ?]%Forall_app.
Qed.
Lemma arrived_take r : arrived r (rc_take r) (held (rc_tick r)).
Proof. exact (arrived_trans _ _ _ [] _ (arrived_tick r) (arrived_read _)). Qed.

Lemma arrived_clear r : arrived r (rc_clear r) [].
Proof.
  exists []. unfold rc_all, rc_bytes, held. cbn. rewrite !app_nil_r. split; [done|]. split; [apply sublist_nil_l|].
  split; [by destruct (rc_data r); cbn; lia|]. split; [done|]. by intros [_ ?]%Forall_app.
Qed.

Lemma arrived_drained r : arrived r (drained r) (burst r).
Proof.
  unfold drained. remember (length (burst r)) as k eqn:E. revert r E. induction k as [|k IH]; intros r E; cbn [takes].
  - destruct (burst r) eqn:Eb; [|done]. destruct (rc_data (rc_tick r)) as [c|] eqn:Ed; [by rewrite (burst_some r c Ed) in Eb|].
    pose proof (arrived_take r) as Ht. unfold held in Ht at 1. rewrite Ed in Ht. exact Ht.
  - destruct (rc_data (rc_tick r)) as [c|] eqn:Ed; [|by rewrite (burst_none r Ed) in E].
    rewrite (burst_some r c Ed) in E |- *. cbn [length] in E. pose proof (arrived_take r) as Ht. unfold held in Ht at 1. rewrite Ed in Ht.
    apply (arrived_trans _ (rc_take r) _ [c]); [exact Ht|]. apply IH. lia.
Qed.

(** ** Sending *)

(** What [putc] is given for some bytes: in stream mode a carriage return
    before each line feed. *)
Definition tx_text (stream : bool) (data : list Z) : list Z :=
  concat (map (fun c => if (c =? 10) && stream then [13; u8 c] else [u8 c]) data).

Definition add_sent (l : list Z) (x : rt_serial_device) : rt_serial_device :=
  set_ser_uart (set_ua_sent (ua_sent (ser_uart x) ++ l) (ser_uart x)) x.

Definition upd_serial (dev : ptr) (x : rt_serial_device) (s : kst) : kst :=
  set_k_drv (set_dr_serials (<[dev := x]> (dr_serials (k_drv s))) (k_drv s)) s.

Lemma get_serial_run s dev x : dr_serials (k_drv s) !! dev = Some x -> get_serial dev s = Ok x s.
Proof. unfold get_serial. by intros ->. Qed.

Lemma add_sent_nil x : add_sent [] x = x.
Proof. destruct x as [c r t [h b i u]]. unfold add_sent, set_ua_sent, set_ser_uart. cbn. by rewrite app_nil_r. Qed.
Lemma add_sent_app l1 l2 x : add_sent l2 (add_sent l1 x) = add_sent (l1 ++ l2) x.
Proof. destruct x as [c r t [h b i u]]. unfold add_sent, set_ua_sent, set_ser_uart. cbn. by rewrite app_assoc. Qed.
Lemma upd_serial_twice dev x y s : upd_serial dev y (upd_serial dev x s) = upd_serial dev y s.
Proof. unfold upd_serial. cbn. by rewrite insert_insert_eq. Qed.
Lemma upd_serial_id dev x s : dr_serials (k_drv s) !! dev = Some x -> upd_serial dev x s = s.
Proof. intros Hx. unfold upd_serial. rewrite insert_id by done. by destruct s as [? ? ? ? ? ? ? ? ? ? ? ? ? ? ? ? ? ? ? ? []]. Qed.

Lemma putc_run s dev x c : dr_serials (k_drv s) !! dev = Some x ->
  ch32_putc dev c s = Ok 1 (upd_serial dev (add_sent [u8 c] x) s).
Proof. intros Hx. unfold ch32_putc. by erewrite run_bind by (by apply get_serial_run). Qed.

Lemma line_feed_run s dev d c : dr_devs (k_drv s) !! dev = Some d ->
  line_feed dev c s = Ok ((c =? 10) && flagged (dev_open_flag d) RT_DEVICE_FLAG_STREAM) s.
Proof. intros Hd. unfold line_feed. by erewrite run_bind by (by apply get_dev_run). Qed.

(** One step of a run without interference. *)
Lemma exec_sec {A X} fuel (m : K X) (k : X -> proc A) s x s' :
  m s = Ok x s' -> exec (S fuel) (Sec m k) s = exec fuel (k x) s'.
Proof. intros H. cbn. by rewrite H. Qed.

Lemma poll_tx_exec {A} dev data : forall fuel (k : unit -> proc A) s d x,
  dr_devs (k_drv s) !! dev = Some d -> dr_serials (k_drv s) !! dev = Some x -> (3 * length data <= fuel)%nat ->
  exists fuel', (fuel <= fuel' + 3 * length data)%nat /\
    exec fuel (pbind (_serial_poll_tx dev data) k) s =
    exec fuel' (k tt) (upd_serial dev (add_sent (tx_text (flagged (dev_open_flag d) RT_DEVICE_FLAG_STREAM) data) x) s).
Proof.
  induction data as [|c data IH]; intros fuel k s d x Hd Hx Hf; cbn [length] in *.
  - exists fuel. split; [lia|]. cbn [pbind _serial_poll_tx]. by rewrite add_sent_nil, upd_serial_id.
  - destruct fuel as [|fuel]; [lia|]. cbn [_serial_poll_tx pbind atomic].
    rewrite (exec_sec _ _ _ _ _ _ (line_feed_run s dev d c Hd)).
    unfold tx_text. cbn [map concat]. fold (tx_text (flagged (dev_open_flag d) RT_DEVICE_FLAG_STREAM) data).
    destruct ((c =? 10) && flagged (dev_open_flag d) RT_DEVICE_FLAG_STREAM).
    + destruct fuel as [|[|fuel]]; [lia..|]. cbn [pbind atomic]. rewrite (exec_sec _ _ _ _ _ _ (putc_run s dev x 13 Hx)).
      cbn [pbind]. rewrite (exec_sec _ _ _ _ 1 (upd_serial dev (add_sent [u8 c] (add_sent [u8 13] x)) s)).
      2:{ erewrite putc_run by apply lookup_insert_eq. by rewrite upd_serial_twice. }
      cbn [pbind]. rewrite add_sent_app.
      destruct (IH fuel k (upd_serial dev (add_sent ([u8 13] ++ [u8 c]) x) s) d _ Hd (lookup_insert_eq _ _ _)) as (f' & Hf' & E); [lia|].
      exists f'. split; [lia|]. rewrite E, upd_serial_twice, add_sent_app. done.
    + destruct fuel as [|fuel]; [lia|]. cbn [pbind atomic]. rewrite (exec_sec _ _ _ _ _ _ (putc_run s dev x c Hx)). cbn [pbind].
      destruct (IH fuel k (upd_serial dev (add_sent [u8 c] x) s) d _ Hd (lookup_insert_eq _ _ _)) as (f' & Hf' & E); [lia|].
      exists f'. split; [lia|]. rewrite E, upd_serial_twice, add_sent_app. done.
Qed.

Section printing.
Context `{DriverOps} `{RxIndicate} `{SerialMalloc} (serial_entry : ops_of serial_driver = serial_ops).

(** The console, if there is one, is an open serial device that sends by
    polling. *)
Definition console_ok (s : kst) : Prop :=
  match dr_console (k_drv s) with
  | None => True
  | Some c => exists ob d x, k_objs s !! c = Some ob /\ ob_class ob = RT_Object_Class_Device /\
      dr_devs (k_drv s) !! c = Some d /\ dev_ref_count d <> 0 /\ dev_driver d = serial_driver /\
      flagged (dev_open_flag d) RT_DEVICE_FLAG_INT_TX = false /\ dr_serials (k_drv s) !! c = Some x
  end.

(** Only serial devices changed, and what each UART sent only grew. *)
Definition printed (s s' : kst) : Prop :=
  exists m, s' = set_k_drv (set_dr_serials m (k_drv s)) s /\
    forall dev, match dr_serials (k_drv s) !! dev with
                | Some x => exists l, m !! dev = Some (add_sent l x)
                | None => m !! dev = None
                end.

Lemma printed_refl s : printed s s.
Proof.
  exists (dr_serials (k_drv s)). split; [by destruct s as [? ? ? ? ? ? ? ? ? ? ? ? ? ? ? ? ? ? ? ? []]|].
  intros dev. destruct (_ !! dev) as [x|]; [|done]. exists []. by rewrite add_sent_nil.
Qed.

Lemma printed_send s dev x l : dr_serials (k_drv s) !! dev = Some x -> printed s (upd_serial dev (add_sent l x) s).
Proof.
  intros Hx. eexists. split; [done|]. intros d. destruct (decide (d = dev)) as [->|].
  - rewrite Hx, lookup_insert_eq. by exists l.
  - rewrite lookup_insert_ne by done. destruct (_ !! d) as [y|]; [|done]. exists []. by rewrite add_sent_nil.
Qed.

Lemma kprint_run text s c ob d x : dr_console (k_drv s) = Some c ->
  k_objs s !! c = Some ob -> ob_class ob = RT_Object_Class_Device ->
  dr_devs (k_drv s) !! c = Some d -> dev_ref_count d <> 0 -> dev_driver d = serial_driver ->
  flagged (dev_open_flag d) RT_DEVICE_FLAG_INT_TX = false -> dr_serials (k_drv s) !! c = Some x ->
  kprint text s = Ok tt (upd_serial c (add_sent (tx_text (flagged (dev_open_flag d) RT_DEVICE_FLAG_STREAM) text) x) s).
Proof.
  intros Hc Ho Hcl Hd Hr Hdr Hf Hx. unfold kprint, rt_kputs.
  replace (8 * length text + 16)%nat with (S (S (S (S (8 * length text + 12))))) by lia.
  cbn [pbind atomic]. rewrite (exec_sec _ _ _ s (Some c) s) by (unfold rt_console_get_device, gets; by rewrite Hc).
  unfold rt_device_write. cbn [pbind atomic]. rewrite (exec_sec _ _ _ s (Some d) s).
  2:{ unfold device_check. erewrite run_bind by (by eapply assert_type_run). erewrite run_bind by (by apply get_dev_run).
      by destruct (Z.eqb_spec (dev_ref_count d) 0). }
  rewrite Hdr, serial_entry. cbn [op_write serial_ops].
  destruct text as [|c0 text]; [cbn; by rewrite add_sent_nil, upd_serial_id|].
  cbn [rt_serial_write pbind atomic].
  rewrite (exec_sec _ _ _ s false s) by (by erewrite run_bind by (by apply get_dev_run); rewrite Hf).
  cbv iota. set (l := c0 :: text) in *. rewrite pbind_assoc.
  destruct (poll_tx_exec c l (S (8 * length l + 12)) (fun _ => Ret tt) s d x Hd Hx) as (f' & Hf' & E); [lia|].
  cbn [pbind]. rewrite E. by destruct f'; [lia|].
Qed.

Lemma kprint_ok text s : console_ok s -> exists s', kprint text s = Ok tt s' /\ printed s s'.
Proof.
  unfold console_ok. destruct (dr_console (k_drv s)) as [c|] eqn:Ec.
  - intros (ob & d & x & Ho & Hcl & Hd & Hr & Hdr & Hf & Hx).
    eexists. split; [by eapply kprint_run|by apply printed_send].
  - intros _. exists s. split; [|apply printed_refl]. unfold kprint, rt_kputs.
    replace (8 * length text + 16)%nat with (S (S (8 * length text + 14))) by lia. cbn [pbind atomic].
    by rewrite (exec_sec _ _ _ s None s) by (unfold rt_console_get_device, gets; by rewrite Ec).
Qed.

(** ** Receiving *)

(** What an interrupt leaves alone of a serial device; it may send. *)
Definition same_line (x x' : rt_serial_device) : Prop :=
  (ser_config x', serial_tx x', ua_rx_int (ser_uart x'), ua_init (ser_uart x'))
    = (ser_config x, serial_tx x, ua_rx_int (ser_uart x), ua_init (ser_uart x)) /\
  exists l, ua_sent (ser_uart x') = ua_sent (ser_uart x) ++ l.

(** Only serial devices change, and only [dev] receives. *)
Definition isr_frame (dev : ptr) (s s' : kst) : Prop :=
  exists m w, s' = set_k_drv (set_dr_warned w (set_dr_serials m (k_drv s))) s /\
    forall d, match dr_serials (k_drv s) !! d with
              | Some x => exists x', m !! d = Some x' /\ same_line x x' /\
                  (d <> dev -> serial_rx x' = serial_rx x /\ ua_rx (ser_uart x') = ua_rx (ser_uart x))
              | None => m !! d = None
              end.

(** [dev] has the FIFO contents [q], its UART the receiver [recv]. *)
Definition rx_state (dev : ptr) (n : Z) (recv : receiver) (q : list Z) (s : kst) : Prop :=
  exists x f, dr_serials (k_drv s) !! dev = Some x /\ bufsz (ser_config x) = n /\ serial_rx x = Some f /\
    ua_rx (ser_uart x) = recv /\ rx_ok n f q.

Lemma same_line_refl x : same_line x x.
Proof. split; [done|]. exists []. by rewrite app_nil_r. Qed.
Lemma same_line_trans x y z : same_line x y -> same_line y z -> same_line x z.
Proof. intros [E1 (l1 & Hm1)] [E2 (l2 & Hm2)]. split; [by rewrite E2|]. exists (l1 ++ l2). by rewrite Hm2, Hm1, app_assoc. Qed.
Lemma same_line_sent l x : same_line x (add_sent l x).
Proof. split; [done|by exists l]. Qed.

Lemma set_drv_id s : set_k_drv (k_drv s) s = s.
Proof. by destruct s. Qed.

Lemma isr_frame_refl dev s : isr_frame dev s s.
Proof.
  exists (dr_serials (k_drv s)), (dr_warned (k_drv s)). split; [by destruct s as [? ? ? ? ? ? ? ? ? ? ? ? ? ? ? ? ? ? ? ? []]|].
  intros d. destruct (_ !! d) as [x|]; [|done]. exists x. split; [done|]. split; [apply same_line_refl|done].
Qed.

Lemma isr_frame_trans dev s s1 s2 : isr_frame dev s s1 -> isr_frame dev s1 s2 -> isr_frame dev s s2.
Proof.
  intros (m1 & w1 & -> & Hm1) (m2 & w2 & -> & Hm2). exists m2, w2. split; [done|]. intros d. specialize (Hm1 d). specialize (Hm2 d). cbn in Hm2.
  destruct (dr_serials (k_drv s) !! d) as [x|]; [|by rewrite Hm1 in Hm2].
  destruct Hm1 as (x1 & E1 & L1 & D1). rewrite E1 in Hm2. destruct Hm2 as (x2 & E2 & L2 & D2). exists x2. split; [done|].
  split; [by eapply same_line_trans|]. intros Hne. destruct (D1 Hne), (D2 Hne). split; congruence.
Qed.

Lemma isr_frame_printed dev s s' : printed s s' -> isr_frame dev s s'.
Proof.
  intros (m & -> & Hm). exists m, (dr_warned (k_drv s)). split; [by destruct s as [? ? ? ? ? ? ? ? ? ? ? ? ? ? ? ? ? ? ? ? []]|].
  intros d. specialize (Hm d). destruct (_ !! d) as [x|]; [|done]. destruct Hm as (l & E). exists (add_sent l x).
  split; [done|]. split; [apply same_line_sent|done].
Qed.

Lemma isr_frame_upd dev x x' s : dr_serials (k_drv s) !! dev = Some x -> same_line x x' -> isr_frame dev s (upd_serial dev x' s).
Proof.
  intros Hx Hl. exists (<[dev := x']> (dr_serials (k_drv s))), (dr_warned (k_drv s)). split; [by destruct s as [? ? ? ? ? ? ? ? ? ? ? ? ? ? ? ? ? ? ? ? []]|].
  intros d. destruct (decide (d = dev)) as [->|].
  - rewrite Hx. exists x'. rewrite lookup_insert_eq. done.
  - rewrite lookup_insert_ne by done. destruct (_ !! d) as [y|]; [|done]. exists y. split; [done|]. split; [apply same_line_refl|done].
Qed.

Lemma console_ok_frame dev s s' : isr_frame dev s s' -> console_ok s -> console_ok s'.
Proof.
  intros (m & w & -> & Hm) Hc. unfold console_ok in *. cbn. destruct (dr_console (k_drv s)) as [c|]; [|done].
  destruct Hc as (ob & d & x & Ho & Hcl & Hd & Hr & Hdr & Hf & Hx). specialize (Hm c). rewrite Hx in Hm.
  destruct Hm as (x' & E & _). exists ob, d, x'. done.
Qed.

Lemma rx_state_printed dev n recv q s s' : printed s s' -> rx_state dev n recv q s -> rx_state dev n recv q s'.
Proof.
  intros (m & -> & Hm) (x & f & Hx & Hn & Hf & Hr & Hok). specialize (Hm dev). rewrite Hx in Hm. destruct Hm as (l & E).
  exists (add_sent l x), f. done.
Qed.

(** As long as the warning was not printed, nothing was. *)
Definition sent_on (dev : ptr) (s : kst) : option (list Z) :=
  (fun x => ua_sent (ser_uart x)) <$> dr_serials (k_drv s) !! dev.
Definition unwarned (s s' : kst) : Prop :=
  dr_warned (k_drv s') = false -> dr_warned (k_drv s) = false /\ forall d, sent_on d s' = sent_on d s.

Lemma unwarned_trans s s1 s2 : unwarned s s1 -> unwarned s1 s2 -> unwarned s s2.
Proof. intros HA HB Hw. destruct (HB Hw) as [Hw1 E2]. destruct (HA Hw1) as [Hw0 E1]. split; [done|]. intros d. by rewrite E2. Qed.

Lemma unwarned_upd dev x x' s : dr_serials (k_drv s) !! dev = Some x -> ua_sent (ser_uart x') = ua_sent (ser_uart x) ->
  unwarned s (upd_serial dev x' s).
Proof.
  intros Hx E Hw. split; [done|]. intros d. unfold sent_on. cbn. destruct (decide (d = dev)) as [->|].
  - rewrite lookup_insert_eq, Hx. cbn. by rewrite E.
  - by rewrite lookup_insert_ne.
Qed.

(** [_serial_check_buffer_size] prints at most once. *)
Lemma check_buffer_ok dev n recv q s : console_ok s -> rx_state dev n recv q s ->
  exists s', _serial_check_buffer_size s = Ok tt s' /\ isr_frame dev s s' /\ rx_state dev n recv q s' /\
    dr_warned (k_drv s') = true.
Proof.
  intros Hc Hx. unfold _serial_check_buffer_size. erewrite run_bind by done.
  destruct (dr_warned (k_drv s)) eqn:Ew; [exists s; split; [done|split; [apply isr_frame_refl|done]]|]. cbn [negb].
  assert (Hp : forall text s0, isr_frame dev s s0 -> rx_state dev n recv q s0 ->
    exists s1, kprint text s0 = Ok tt s1 /\ isr_frame dev s s1 /\ rx_state dev n recv q s1).
  { intros text s0 Hfr Hx0. destruct (kprint_ok text s0) as (s1 & Hrun & Hpr); [by eapply console_ok_frame|].
    exists s1. split; [done|]. split; [eapply isr_frame_trans; [done|by apply isr_frame_printed]|by eapply rx_state_printed]. }
  destruct (Hp (codes "[W/UART] "%string) s (isr_frame_refl _ _) Hx) as (s1 & E1 & F1 & X1). rewrite (run_bind _ _ _ _ _ E1).
  destruct (Hp (codes "Warning: There is no enough buffer for saving data, please increase the RT_SERIAL_RB_BUFSZ option."%string)
    s1 F1 X1) as (s2 & E2 & F2 & X2). rewrite (run_bind _ _ _ _ _ E2).
  destruct (Hp [10] s2 F2 X2) as (s3 & E3 & F3 & X3). rewrite (run_bind _ _ _ _ _ E3).
  eexists. split; [done|]. split; [|split; [|done]].
  - destruct F3 as (m & w & -> & Hm3). exists m, true. done.
  - destruct X3 as (x & f & Hm3). exists x, f. done.
Qed.

(** A step of the handler, and whether a character was [lost]. *)
Definition handled (dev : ptr) (n : Z) (recv : receiver) (q : list Z) (lost : Prop) (s s' : kst) : Prop :=
  isr_frame dev s s' /\ rx_state dev n recv q s' /\ unwarned s s' /\ (lost -> dr_warned (k_drv s') = true).

Lemma rx_store_ok dev n recv q ch s : console_ok s -> rx_state dev n recv q s -> 0 <= ch < 2 ^ 8 ->
  exists s', rx_store dev ch s = Ok tt s' /\
    handled dev n recv (keep_last (n - 1) (q ++ [ch])) (Z.of_nat (length q) = n - 1) s s'.
Proof.
  intros Hc (x & f & Hx & Hn & Hf & Hr & Hok) Hch. unfold rx_store. erewrite run_bind by (by apply get_serial_run).
  rewrite Hf, Hn. erewrite run_bind by done. destruct (rx_push_ok n f q ch Hok Hch) as (f' & -> & Hok').
  erewrite run_bind by done. cbn [fst snd].
  set (x' := set_serial_rx (Some f') x). set (s1 := upd_serial dev x' s).
  assert (isr_frame dev s s1) as F1 by (eapply isr_frame_upd; [done|]; split; [done|exists []; by rewrite app_nil_r]).
  assert (rx_state dev n recv (keep_last (n - 1) (q ++ [ch])) s1) as X1 by (exists x', f'; split; [apply lookup_insert_eq|done]).
  erewrite run_bind by (change (put_serial dev x' s) with (Ok tt s1); done).
  case_bool_decide as Hl; [|by exists s1; repeat split; [..|by apply (unwarned_upd dev x)|]].
  destruct (check_buffer_ok dev n recv _ s1 (console_ok_frame _ _ _ F1 Hc) X1) as (s2 & Hrun & F2 & X2 & W2).
  exists s2. split; [done|]. split; [by eapply isr_frame_trans|]. split; [done|]. split; [|done]. intros E. congruence.
Qed.

(** A new receiver, nothing else. *)
Lemma put_receiver_run dev n r r' q s : rx_state dev n r q s ->
  exists s', put_receiver dev r' s = Ok tt s' /\ isr_frame dev s s' /\ rx_state dev n r' q s' /\ unwarned s s'.
Proof.
  intros (x & f & Hx & Hn & Hf & Hr & Hok). unfold put_receiver. eexists. split; [by erewrite run_bind by (by apply get_serial_run)|].
  split; [|split].
  - eapply (isr_frame_upd dev x); [done|]. split; [done|]. exists []. by rewrite app_nil_r.
  - eexists _, f. split; [apply lookup_insert_eq|done].
  - by apply (unwarned_upd dev x).
Qed.

Lemma getc_run dev n r q s : rx_state dev n r q s -> rc_bytes r ->
  exists s', ch32_getc dev s = Ok (match rc_data (rc_tick r) with Some c => c | None => -1 end) s' /\
    isr_frame dev s s' /\ rx_state dev n (rc_take r) q s' /\ unwarned s s'.
Proof.
  intros Hx Hb. pose proof Hx as (x & f & Hx0 & Hn & Hf & Hr & Hok). unfold ch32_getc. erewrite run_bind by (by apply get_serial_run).
  rewrite Hr. cbv zeta. pose proof (arrived_tick r) as (_ & _ & _ & _ & _ & Hb'). apply Hb' in Hb as Hbt. clear Hb'.
  destruct (rc_data (rc_tick r)) as [c|] eqn:Ed.
  - destruct (put_receiver_run dev n r (rc_read (rc_tick r)) q s Hx) as (s' & Hrun & F & X & W). exists s'. split; [|done].
    rewrite (run_bind _ _ _ _ _ Hrun). unfold rc_bytes, held in Hbt. rewrite Ed in Hbt. apply Forall_cons in Hbt as [Hc _].
    change 0xff with (Z.ones 8). by rewrite Z.land_ones, Z.mod_small by lia.
  - destruct (put_receiver_run dev n r (rc_tick r) q s Hx) as (s' & Hrun & F & X & W). exists s'. split; [|split; [done|split; [|done]]].
    + by rewrite (run_bind _ _ _ _ _ Hrun).
    + unfold rc_take, rc_read. by replace (Receiver _ None _ _) with (rc_tick r) by (destruct (rc_tick r); cbn in *; congruence).
Qed.

Lemma rx_loop_ok dev n : forall fuel r q s, (length (burst r) < fuel)%nat -> console_ok s -> rx_state dev n r q s -> rc_bytes r ->
  exists s', rx_loop fuel dev s = Ok tt s' /\
    handled dev n (drained r) (keep_last (n - 1) (q ++ burst r)) (n - 1 < Z.of_nat (length (q ++ burst r))) s s'.
Proof.
  induction fuel as [|fuel IH]; intros r q s Hf Hc Hx Hb; [lia|]. cbn [rx_loop].
  destruct (getc_run dev n r q s Hx Hb) as (s1 & E1 & F1 & X1 & W1). rewrite (run_bind _ _ _ _ _ E1).
  pose proof (burst_bytes r Hb) as Hbb. pose proof (arrived_take r) as (_ & _ & _ & _ & _ & Hb1). unfold drained.
  destruct (rc_data (rc_tick r)) as [c|] eqn:Ed.
  - rewrite (burst_some r c Ed) in *. apply Forall_cons in Hbb as [Hch _]. destruct (Z.eqb_spec c (-1)); [lia|]. cbn [length] in *.
    destruct (rx_store_ok dev n (rc_take r) q c s1 (console_ok_frame _ _ _ F1 Hc) X1 Hch) as (s2 & E2 & F2 & X2 & W2 & L2).
    rewrite (run_bind _ _ _ _ _ E2). pose proof (isr_frame_trans _ _ _ _ F1 F2) as F12.
    destruct (IH (rc_take r) _ s2 ltac:(lia) (console_ok_frame _ _ _ F12 Hc) X2 (Hb1 Hb)) as (s3 & E3 & F3 & X3 & W3 & L3).
    exists s3. split; [done|]. split; [by eapply isr_frame_trans|]. rewrite keep_last_app_l, <- app_assoc in X3. split; [done|].
    split; [by eapply unwarned_trans; [|eapply unwarned_trans]|]. intros Hl. rewrite !length_app, length_cons in Hl.
    destruct (decide (Z.of_nat (length q) = n - 1)) as [Hfull|Hroom].
    + destruct (dr_warned (k_drv s3)) eqn:Ew; [done|]. destruct (W3 Ew) as [Ew2 _]. by rewrite (L2 Hfull) in Ew2.
    + apply L3. destruct Hx as (x & f & _ & _ & _ & _ & Hok). pose proof (rx_room _ _ _ Hok).
      rewrite keep_last_le, !length_app by (rewrite length_app; cbn; lia). cbn [length]. lia.
  - rewrite (burst_none r Ed). cbn [length takes Z.eqb]. change (-1 =? -1) with true. cbv iota.
    assert (Z.of_nat (length (q ++ [])) <= n - 1) as Hl.
    { rewrite app_nil_r. destruct Hx as (x & f & _ & _ & _ & _ & Hok). pose proof (rx_room _ _ _ Hok). lia. }
    exists s1. split; [done|]. split; [done|]. split; [by rewrite keep_last_le, app_nil_r|]. split; [done|lia].
Qed.

Lemma rx_interrupt_run dev n r q s d : console_ok s -> rx_state dev n r q s ->
  dr_devs (k_drv s) !! dev = Some d -> rc_bytes r ->
  exists s', handled dev n (drained r) (keep_last (n - 1) (q ++ burst r)) (n - 1 < Z.of_nat (length (q ++ burst r))) s s' /\
    rt_hw_serial_isr dev RT_SERIAL_EVENT_RX_IND s =
    match dev_rx_indicate d, keep_last (n - 1) (q ++ burst r) with
    | Some f, c :: l => (exec 4 (rx_indicate_call f dev (Z.of_nat (S (length l))));; mret tt) s'
    | _, _ => Ok tt s'
    end.
Proof.
  intros Hc Hx Hd Hb. unfold rt_hw_serial_isr. change (Z.land RT_SERIAL_EVENT_RX_IND 0xff =? RT_SERIAL_EVENT_RX_IND) with true.
  cbv iota. unfold rx_ind_event. pose proof Hx as (x & f & Hx0 & Hn & Hf & Hr & Hok).
  erewrite run_bind by (by apply get_serial_run). rewrite Hf, Hr. erewrite run_bind by done.
  destruct (rx_loop_ok dev n (S (S (length (rc_coming r)))) r q s) as (s' & E & HH); [pose proof (burst_length r); lia|done..|].
  exists s'. split; [done|]. destruct HH as (F & X & _). rewrite (run_bind _ _ _ _ _ E).
  assert (dr_devs (k_drv s') !! dev = Some d) as Hd' by (by destruct F as (m & w & -> & _)).
  erewrite run_bind by (by apply get_dev_run). destruct (dev_rx_indicate d) as [fn|]; [|done].
  destruct X as (x' & f' & Hx' & Hn' & Hf' & _ & Hok'). erewrite run_bind by (by apply get_serial_run).
  rewrite Hf', Hn'. erewrite run_bind by done. rewrite (rx_length_ok _ _ _ Hok').
  by destruct (keep_last (n - 1) (q ++ burst r)).
Qed.

(** C18: the receive interrupt: the character in the data register and those
    that come while the handler reads, one before each further look, go
    through the FIFO, which then has the last [bufsz - 1] of what it had and
    what came, in order; the UART is left as it is after these looks.  The
    oldest are dropped, and then the warning has been printed on the console;
    as long as it has not, no UART sent anything.  Nothing else changes.  Then,
    if the device has an indication callback and something can be read, it is
    called with the number of characters, and otherwise not. *)
Theorem rx_interrupt_spec dev n r q s d : console_ok s -> rx_state dev n r q s ->
  dr_devs (k_drv s) !! dev = Some d -> rc_bytes r ->
  exists s', handled dev n (drained r) (keep_last (n - 1) (q ++ burst r)) (n - 1 < Z.of_nat (length (q ++ burst r))) s s' /\
    rt_hw_serial_isr dev RT_SERIAL_EVENT_RX_IND s =
    match dev_rx_indicate d, keep_last (n - 1) (q ++ burst r) with
    | Some f, c :: l => (exec 4 (rx_indicate_call f dev (Z.of_nat (S (length l))));; mret tt) s'
    | _, _ => Ok tt s'
    end.
Proof. apply rx_interrupt_run. Qed.
End printing.

(** ** The promises of device.c's interface *)
Section laws.
Context `{SerialMalloc}.

Ltac keep_serial := unfold get_serial, put_serial; keep.

Lemma or_open_flag_keeps dev f : keeps refs_kept (or_open_flag dev f).
Proof. apply keeps_get_dev. intros d s a s' Hd. by apply (put_dev_keeps_last dev d). Qed.
Lemma clear_open_flag_keeps dev f : keeps refs_kept (clear_open_flag dev f).
Proof. apply keeps_get_dev. intros d s a s' Hd. by apply (put_dev_keeps_last dev d). Qed.

Lemma configure_keeps dev cfg : keeps refs_kept (ch32_configure dev cfg).
Proof. unfold ch32_configure. keep_serial. Qed.
Lemma control_keeps dev cmd : keeps refs_kept (ch32_control dev cmd).
Proof. unfold ch32_control, set_rx_int. keep_serial. Qed.
Lemma putc_keeps dev c : keeps refs_kept (ch32_putc dev c).
Proof. unfold ch32_putc. keep_serial. Qed.
Lemma line_feed_keeps dev c : keeps refs_kept (line_feed dev c).
Proof. unfold line_feed. apply keeps_get_dev. by intros d s a s' _ [= _ <-]. Qed.

Lemma queue_init_keeps q : keeps refs_kept (queue_init q).
Proof. intros s a s'. unfold queue_init. destruct (getq _ _); [|done]. by intros [= _ <-]. Qed.

Lemma open_rx_keeps dev oflag : keeps refs_kept (open_rx dev oflag).
Proof. unfold open_rx. keep_serial; auto using or_open_flag_keeps, control_keeps. Qed.
Lemma open_tx_keeps dev oflag : keeps refs_kept (open_tx dev oflag).
Proof. unfold open_tx, rt_completion_init, put_comp. keep_serial; auto using or_open_flag_keeps, control_keeps, queue_init_keeps. Qed.

Lemma close_rx_keeps dev : keeps refs_kept (close_rx dev).
Proof.
  unfold close_rx. apply keeps_get_dev. intros d s a s' _. revert s a s'.
  change (keeps refs_kept (if flagged (dev_open_flag d) RT_DEVICE_FLAG_INT_RX then
    ch32_control dev RT_DEVICE_CTRL_CLR_INT;; clear_open_flag dev RT_DEVICE_FLAG_INT_RX;;
    x ← get_serial dev; RT_ASSERT (bool_decide (is_Some (serial_rx x)));; put_serial dev (set_serial_rx None x) else mret tt)).
  keep_serial; auto using control_keeps, clear_open_flag_keeps.
Qed.
Lemma close_tx_keeps dev : keeps refs_kept (close_tx dev).
Proof.
  unfold close_tx. apply keeps_get_dev. intros d s a s' _. revert s a s'.
  change (keeps refs_kept (if flagged (dev_open_flag d) RT_DEVICE_FLAG_INT_TX then
    ch32_control dev RT_DEVICE_CTRL_CLR_INT;; clear_open_flag dev RT_DEVICE_FLAG_INT_TX;;
    x ← get_serial dev; RT_ASSERT (bool_decide (is_Some (serial_tx x)));; put_serial dev (set_serial_tx None x) else mret tt)).
  keep_serial; auto using control_keeps, clear_open_flag_keeps.
Qed.

Lemma serial_open_keeps dev oflag : keeps refs_kept (rt_serial_open dev oflag).
Proof.
  unfold rt_serial_open. apply keeps_get_dev. intros d s a s' Hd.
  destruct (lacks _ _ _); [by intros [= _ <-]|]. destruct (lacks _ _ _); [by intros [= _ <-]|].
  destruct (lacks _ _ _); [by intros [= _ <-]|]. destruct (lacks _ _ _); [by intros [= _ <-]|].
  apply (put_dev_keeps dev d); [done..|]. keep; auto using open_rx_keeps, open_tx_keeps, or_open_flag_keeps.
Qed.

Lemma serial_close_keeps dev : keeps refs_kept (rt_serial_close dev).
Proof.
  unfold rt_serial_close. apply keeps_get_dev. intros d s a s' _. destruct (1 <? dev_ref_count d); [by intros [= _ <-]|].
  intros Hrun. refine (keeps_bind _ refs_kept_trans (close_rx dev) _ _ _ s a s' Hrun); [apply close_rx_keeps|intros _].
  apply (keeps_bind _ refs_kept_trans); [apply close_tx_keeps|intros _].
  apply (keeps_bind _ refs_kept_trans); [apply control_keeps|intros _]. apply keeps_get_dev. intros d1 s1 a1 s1' Hd1.
  apply (put_dev_keeps dev d1); [done..|keep].
Qed.

Lemma completion_wait_keeps tx : sections_keep (rt_completion_wait tx RT_WAITING_FOREVER).
Proof.
  apply sections_bind.
  - apply atomic_keeps. unfold comp_wait_section, get_comp, put_comp, comp_suspend, queue_empty, set_error, RT_DEBUG_NOT_IN_INTERRUPT.
    change (0 <? RT_WAITING_FOREVER) with false. keep; auto using suspend_keeps, enqueue_keeps.
  - intros [e|thread]; [apply sk_ret|]. apply sk_sec; [apply schedule_keeps|]. intros [].
    apply sk_sec; [unfold wait_result; keep|]. intros r. apply sk_sec; [unfold put_comp; keep|]. intros []. apply sk_ret.
Qed.

Lemma put_or_wait_keeps dev tx c : sections_keep (put_or_wait dev tx c).
Proof.
  apply sk_sec; [apply putc_keeps|]. intros r. destruct (r =? -1); [|apply sk_ret].
  apply sections_bind; [apply completion_wait_keeps|]. intros _. apply sk_ret.
Qed.

Lemma poll_tx_keeps dev data : sections_keep (_serial_poll_tx dev data).
Proof.
  induction data as [|c data IH]; [apply sk_ret|]. apply sk_sec; [apply line_feed_keeps|].
  intros [|]; apply sk_sec; [apply putc_keeps|intros _; apply sk_sec; [apply putc_keeps|by intros _]|apply putc_keeps|by intros _].
Qed.

Lemma int_tx_keeps dev data : sections_keep (_serial_int_tx dev data).
Proof.
  apply sk_sec; [keep_serial|]. intros tx. apply sk_iter; [|intros; apply sk_ret]. intros [|c rest]; [apply sk_ret|].
  apply sk_sec; [apply line_feed_keeps|]. intros lf. apply sections_bind; [destruct lf; [apply put_or_wait_keeps|apply sk_ret]|].
  intros [|]; [apply sk_ret|]. apply sections_bind; [apply put_or_wait_keeps|intros; apply sk_ret].
Qed.

Lemma serial_write_keeps dev pos data : sections_keep (rt_serial_write dev pos data).
Proof.
  destruct data as [|c data]; [apply sk_ret|]. apply sk_sec.
  - apply keeps_get_dev. by intros d s a s' _ [= _ <-].
  - intros b. apply sections_bind; [destruct b; [apply int_tx_keeps|apply poll_tx_keeps]|intros; apply sk_ret].
Qed.

Lemma serial_init_keeps dev : keeps refs_kept (rt_serial_init dev).
Proof. unfold rt_serial_init. keep_serial. apply configure_keeps. Qed.

(** A table of drivers in which only serial.c has operations. *)
Definition serial_only : DriverOps := fun d => match d with serial_driver => serial_ops | _ => no_ops end.

#[export] Instance serial_laws : @DriverLaws serial_only.
Proof.
  split; intros [] f dev; try done; intros; cbn in *; simplify_eq;
    [apply serial_init_keeps|apply serial_open_keeps|apply serial_close_keeps|apply serial_write_keeps].
Qed.
End laws.

(** ** Reading, and opening a device twice *)
Section reading.
Context `{DriverOps} `{SerialMalloc} (serial_entry : ops_of serial_driver = serial_ops).

Lemma int_rx_section_ok dev n recv q s : rx_state dev n recv q s ->
  match q with
  | [] => int_rx_section dev s = Ok None s
  | c :: q => exists s', int_rx_section dev s = Ok (Some c) s' /\ isr_frame dev s s' /\ rx_state dev n recv q s'
  end.
Proof.
  intros (x & f & Hx & Hn & Hf & Hr & Hok). pose proof (rx_pop_ok n f q Hok) as Hpop.
  unfold int_rx_section. erewrite run_bind by (by apply get_serial_run). rewrite Hf, Hn. erewrite run_bind by done.
  destruct q as [|c q]; [by rewrite Hpop|]. destruct Hpop as (f' & -> & Hok'). erewrite run_bind by done.
  exists (upd_serial dev (set_serial_rx (Some f') x) s). split; [done|]. split.
  - apply (isr_frame_upd dev x); [done|]. split; [done|]. exists []. by rewrite app_nil_r.
  - exists (set_serial_rx (Some f') x), f'. split; [apply lookup_insert_eq|done].
Qed.

Lemma read_loop_ok {A} dev n recv size : forall fuel q data (k : list Z -> proc A) s,
  rx_state dev n recv q s -> (2 * size + 2 <= fuel)%nat ->
  exists fuel' s', (fuel <= fuel' + 2 * size + 2)%nat /\ isr_frame dev s s' /\ rx_state dev n recv (drop size q) s' /\
    exec fuel (Iter (fun st : Z * list Z =>
        if fst st =? 0 then Ret (inr (snd st))
        else pbind (atomic (int_rx_section dev)) (fun r =>
          match r with None => Ret (inr (snd st)) | Some ch => Ret (inl (fst st - 1, snd st ++ [ch])) end))
      (Z.of_nat size, data) k) s = exec fuel' (k (data ++ take size q)) s'.
Proof.
  induction size as [|size IH]; intros fuel q data k s Hx Hf.
  - exists (fuel - 1)%nat, s. split; [lia|]. split; [apply isr_frame_refl|]. split; [by rewrite drop_0|].
    destruct fuel as [|fuel]; [lia|]. cbn. by rewrite app_nil_r, Nat.sub_0_r.
  - destruct fuel as [|[|fuel]]; [lia..|]. pose proof (int_rx_section_ok dev n recv q s Hx) as Hs.
    cbn [exec fst snd]. destruct (Z.eqb_spec (Z.of_nat (S size)) 0); [lia|]. cbn [pbind atomic exec].
    destruct q as [|c q].
    + rewrite Hs. cbn [pbind]. exists fuel, s. split; [lia|]. split; [apply isr_frame_refl|]. split; [done|].
      by rewrite app_nil_r.
    + destruct Hs as (s1 & -> & F1 & X1). cbn [pbind]. replace (Z.of_nat (S size) - 1) with (Z.of_nat size) by lia.
      destruct (IH fuel q (data ++ [c]) k s1 X1 ltac:(lia)) as (fuel' & s' & Hf' & F & X & E).
      exists fuel', s'. split; [lia|]. split; [by eapply isr_frame_trans|]. split; [done|].
      etransitivity; [exact E|]. by rewrite <- app_assoc.
Qed.

(** A device object as the operations of device.c see it. *)
Definition device_at (dev : ptr) (d : rt_device) (s : kst) : Prop :=
  (exists ob, k_objs s !! dev = Some ob /\ ob_class ob = RT_Object_Class_Device) /\ dr_devs (k_drv s) !! dev = Some d.

Lemma device_assert_run dev d s : device_at dev d s -> assert_type dev RT_Object_Class_Device s = Ok tt s.
Proof. intros [(ob & Ho & Hc) _]. by eapply assert_type_run. Qed.

Lemma device_check_run dev d s : device_at dev d s -> dev_ref_count d <> 0 -> device_check dev s = Ok (Some d) s.
Proof.
  intros Hd Hr. unfold device_check. erewrite run_bind by (by eapply device_assert_run).
  erewrite run_bind by (apply get_dev_run, Hd). by destruct (Z.eqb_spec (dev_ref_count d) 0).
Qed.

(** a read of an open serial device in interrupt mode returns at once, with
    the oldest characters of the FIFO, as many as were asked for or as there
    are, and takes exactly these out. *)
Theorem serial_read_spec dev d n recv q size fuel s : device_at dev d s -> dev_driver d = serial_driver ->
  dev_ref_count d <> 0 -> flagged (dev_open_flag d) RT_DEVICE_FLAG_INT_RX = true -> rx_state dev n recv q s ->
  (2 * size + 8 <= fuel)%nat ->
  exists s', exec fuel (rt_device_read dev (-1) (Z.of_nat size)) s = Ok (take size q) s' /\
    isr_frame dev s s' /\ rx_state dev n recv (drop size q) s'.
Proof.
  intros Hd Hdr Hr Hf Hx Hfuel. destruct fuel as [|[|[|fuel]]]; [lia..|]. unfold rt_device_read. cbn [pbind atomic].
  rewrite (exec_sec _ _ _ _ _ _ (device_check_run dev d s Hd Hr)). rewrite Hdr, serial_entry. cbn [op_read serial_ops].
  unfold rt_serial_read. destruct (Z.eqb_spec (Z.of_nat size) 0) as [E|].
  - assert (size = 0%nat) as -> by lia. exists s. rewrite drop_0. split; [done|]. split; [apply isr_frame_refl|done].
  - cbn [pbind atomic]. rewrite (exec_sec _ _ _ s true s) by (erewrite run_bind by (apply get_dev_run, Hd); by rewrite Hf).
    cbv iota. unfold _serial_int_rx. cbn [pbind atomic]. rewrite (exec_sec _ _ _ s tt s).
    2:{ pose proof Hx as (x & f & Hx0 & _ & Hf0 & _). erewrite run_bind by (by apply get_serial_run). by rewrite Hf0. }
    destruct (read_loop_ok dev n recv size fuel q [] Ret s Hx ltac:(lia)) as (fuel' & s' & Hf' & F & X & E).
    exists s'. split; [|done]. unfold loop. etransitivity; [exact E|]. by destruct fuel' as [|fuel']; [lia|].
Qed.

Definition upd_dev (dev : ptr) (d : rt_device) (s : kst) : kst :=
  set_k_drv (set_dr_devs (<[dev := d]> (dr_devs (k_drv s))) (k_drv s)) s.

Lemma or_open_flag_run s dev d f : dr_devs (k_drv s) !! dev = Some d ->
  or_open_flag dev f s = Ok tt (upd_dev dev (set_dev_open_flag (Z.lor (dev_open_flag d) f) d) s).
Proof. intros Hd. unfold or_open_flag. by erewrite run_bind by (by apply get_dev_run). Qed.

Lemma device_at_upd dev d d' s : device_at dev d s -> device_at dev d' (upd_dev dev d' s).
Proof. intros [Ho _]. split; [done|]. apply lookup_insert_eq. Qed.
Lemma rx_state_upd dev d n recv q s : rx_state dev n recv q s -> rx_state dev n recv q (upd_dev dev d s).
Proof. done. Qed.

(** Opening a device that is open and has a receive FIFO, without asking for
    interrupt mode: the flags lose [RT_DEVICE_FLAG_INT_RX]. *)
Lemma reopen_run dev d n recv q oflag s : rx_state dev n recv q s -> dr_devs (k_drv s) !! dev = Some d ->
  flagged oflag RT_DEVICE_FLAG_INT_RX = false -> flagged oflag RT_DEVICE_FLAG_DMA_RX = false ->
  flagged oflag RT_DEVICE_FLAG_INT_TX = false -> flagged oflag RT_DEVICE_FLAG_DMA_TX = false ->
  exists st d', (st = 0 \/ st = RT_DEVICE_FLAG_STREAM) /\ d' = set_dev_open_flag (Z.lor (Z.land oflag 0xff) st) d /\
    rt_serial_open dev oflag s = Ok RT_EOK (upd_dev dev d' s).
Proof.
  intros Hx Hd H1 H2 H3 H4. unfold rt_serial_open, lacks. erewrite run_bind by (by apply get_dev_run).
  rewrite H1, H2, H3, H4. cbn [andb]. set (st := if _ || _ then _ else _).
  exists st, (set_dev_open_flag (Z.lor (Z.land oflag 0xff) st) d). split; [unfold st; destruct (_ || _); auto|]. split; [done|].
  set (d1 := set_dev_open_flag (Z.land oflag 0xff) d).
  erewrite run_bind by (change (put_dev dev d1 s) with (Ok tt (upd_dev dev d1 s)); done).
  destruct Hx as (x & f & Hx & Hn & Hf & Hr & Hok).
  assert (open_rx dev oflag (upd_dev dev d1 s) = Ok tt (upd_dev dev d1 s)) as E1.
  { unfold open_rx. erewrite run_bind by (by apply get_serial_run). by rewrite Hf, H1. }
  assert (open_tx dev oflag (upd_dev dev d1 s) = Ok tt (upd_dev dev d1 s)) as E2.
  { unfold open_tx. erewrite run_bind by (by apply get_serial_run). rewrite H3. by destruct (serial_tx x). }
  rewrite (run_bind _ _ _ _ _ E1), (run_bind _ _ _ _ _ E2).
  erewrite run_bind by (apply or_open_flag_run; apply lookup_insert_eq). unfold upd_dev. cbn. by rewrite insert_insert_eq.
Qed.

Lemma masked_int_rx oflag st : st = 0 \/ st = RT_DEVICE_FLAG_STREAM ->
  flagged (Z.lor (Z.lor (Z.land oflag 0xff) st) RT_DEVICE_OFLAG_OPEN) RT_DEVICE_FLAG_INT_RX = false.
Proof.
  intros Hst. unfold flagged. rewrite !Z.land_lor_distr_l, <- Z.land_assoc. change (Z.land 0xff RT_DEVICE_FLAG_INT_RX) with 0.
  rewrite Z.land_0_r. by destruct Hst as [-> | ->].
Qed.

(** opening an open serial device again without RT_DEVICE_FLAG_INT_RX -
    as [rt_console_set_device] does - succeeds and turns reading into polling:
    whatever the receive FIFO holds, a read then returns nothing if the data
    register is empty, although the interrupt goes on filling the FIFO. *)
Theorem reopen_hides_fifo dev d n r q oflag size s : device_at dev d s -> dev_driver d = serial_driver ->
  flagged (dev_flag d) RT_DEVICE_FLAG_ACTIVATED = true -> flagged (dev_flag d) RT_DEVICE_FLAG_STANDALONE = false ->
  0 < dev_ref_count d < 2 ^ 8 - 1 -> rx_state dev n r q s -> rc_data r = None -> rc_coming r = [] ->
  flagged oflag RT_DEVICE_FLAG_INT_RX = false -> flagged oflag RT_DEVICE_FLAG_DMA_RX = false ->
  flagged oflag RT_DEVICE_FLAG_INT_TX = false -> flagged oflag RT_DEVICE_FLAG_DMA_TX = false ->
  exists s', rt_device_open dev oflag s = Ok RT_EOK s' /\ rx_state dev n r q s' /\
    exec 9 (rt_device_read dev (-1) size) s' = Ok [] s'.
Proof.
  intros Hd Hdr Ha Hst Hr Hx Hdata Hcoming H1 H2 H3 H4.
  destruct (reopen_run dev d n r q oflag s Hx (proj2 Hd) H1 H2 H3 H4) as (st & d1 & Hst1 & E1 & Hopen).
  set (d2 := set_dev_ref_count (dev_ref_count d + 1) (set_dev_open_flag (Z.lor (dev_open_flag d1) RT_DEVICE_OFLAG_OPEN) d1)).
  set (s' := upd_dev dev d2 (upd_dev dev d1 s)). exists s'. split; [|split].
  - unfold rt_device_open. erewrite run_bind by (by eapply device_assert_run).
    assert (open_activate dev s = Ok RT_EOK s) as Eact.
    { unfold open_activate. erewrite run_bind by (apply get_dev_run, Hd). by rewrite Ha. }
    rewrite (run_bind _ _ _ _ _ Eact). change (negb (RT_EOK =? RT_EOK)) with false. cbv iota.
    erewrite run_bind by (apply get_dev_run, Hd). rewrite Hst, Hdr, serial_entry. cbn [andb op_open serial_ops].
    rewrite (run_bind _ _ _ _ _ Hopen). change ((RT_EOK =? RT_EOK) || _) with true. cbv iota.
    erewrite run_bind; [done|]. erewrite run_bind by (apply get_dev_run; apply lookup_insert_eq). cbv zeta.
    assert (dev_ref_count d1 = dev_ref_count d) as Er by (by rewrite E1). rewrite Er, wrap_small by lia.
    erewrite run_bind by done. destruct (Z.eqb_spec (dev_ref_count d + 1) 0); [lia|]. done.
  - by apply rx_state_upd, rx_state_upd.
  - assert (device_at dev d2 s') as Hd2 by (eapply device_at_upd, device_at_upd, Hd).
    unfold rt_device_read. cbn [pbind atomic].
    rewrite (exec_sec _ _ _ _ _ _ (device_check_run dev d2 s' Hd2 ltac:(cbn; lia))).
    assert (dev_driver d2 = serial_driver) as -> by (by cbn; rewrite E1). rewrite serial_entry. cbn [op_read serial_ops].
    unfold rt_serial_read. destruct (Z.eqb_spec size 0) as [->|Hnz]; [done|]. cbn [pbind atomic].
    rewrite (exec_sec _ _ _ s' false s').
    2:{ erewrite run_bind by (apply get_dev_run, Hd2). unfold mret, K_ret. do 2 f_equal. cbn. rewrite E1. cbn. by apply masked_int_rx. }
    cbv iota. unfold _serial_poll_rx, loop. cbn [exec fst snd]. destruct (Z.eqb_spec size 0); [done|]. cbn [pbind atomic exec].
    destruct Hx as (x & f & Hx & _ & _ & Hrecv & _).
    assert (dr_serials (k_drv s') !! dev = Some x) as Hx' by exact Hx.
    assert (ch32_getc dev s' = Ok (-1) s') as Eget; [|unfold mbind, K_bind; by rewrite Eget].
    unfold ch32_getc. rewrite (run_bind _ _ s' x s') by (by apply get_serial_run). rewrite Hrecv. unfold rc_tick. rewrite Hcoming, Hdata.
    assert (put_receiver dev r s' = Ok tt s') as Eput; [|by rewrite (run_bind _ _ _ _ _ Eput)].
    unfold put_receiver. rewrite (run_bind _ _ s' x s') by (by apply get_serial_run).
    change (Ok tt (upd_serial dev (set_ser_uart (set_ua_rx r (ser_uart x)) x) s') = Ok tt s'). f_equal.
    rewrite <- Hrecv. replace (set_ser_uart (set_ua_rx (ua_rx (ser_uart x)) (ser_uart x)) x) with x by (by destruct x as [? ? ? []]).
    by apply upd_serial_id.
Qed.

(** a write to an open serial device, run alone, sends every byte in order
    and returns the number of bytes; in stream mode a carriage return goes
    before each line feed, and nothing else is added. *)
Theorem serial_write_spec dev d x buf fuel s : device_at dev d s -> dev_driver d = serial_driver ->
  dev_ref_count d <> 0 -> flagged (dev_open_flag d) RT_DEVICE_FLAG_INT_TX = false ->
  dr_serials (k_drv s) !! dev = Some x -> (3 * length buf + 8 <= fuel)%nat ->
  exec fuel (rt_device_write dev 0 buf) s = Ok (Z.of_nat (length buf))
    (upd_serial dev (add_sent (tx_text (flagged (dev_open_flag d) RT_DEVICE_FLAG_STREAM) buf) x) s).
Proof.
  intros Hd Hdr Hr Hf Hx Hfuel. destruct fuel as [|[|fuel]]; [lia..|]. unfold rt_device_write. cbn [pbind atomic].
  rewrite (exec_sec _ _ _ _ _ _ (device_check_run dev d s Hd Hr)). rewrite Hdr, serial_entry. cbn [op_write serial_ops].
  destruct buf as [|c buf]; [by cbn; rewrite add_sent_nil, upd_serial_id|]. cbn [rt_serial_write pbind atomic].
  rewrite (exec_sec _ _ _ s false s) by (erewrite run_bind by (apply get_dev_run, Hd); by rewrite Hf).
  destruct (poll_tx_exec dev (c :: buf) fuel (fun _ => Ret (Z.of_nat (length (c :: buf)))) s d x (proj2 Hd) Hx) as (f' & Hf' & E);
    [cbn in *; lia|]. etransitivity; [exact E|]. by destruct f' as [|f']; [cbn in *; lia|].
Qed.
End reading.

(** ** Witnesses

    The UART 30 of [demo_kernel], open and in interrupt mode, with room for
    three characters: two are in its FIFO. *)
Definition demo_malloc : SerialMalloc := {| rx_fifo_memory := true; tx_fifo_memory := Some 31%positive |}.
Definition demo_ops : DriverOps := @serial_only demo_malloc.
Definition demo_line (r : receiver) : rt_serial_device :=
  Serial (SerialCfg 115200 8 0 0 0 0 4 0) (Some (RxFifo [98; 0; 0; 97] 1 3 false)) None (Uart r [] true None).
Definition quiet_line : receiver := Receiver [] None [] 0.
(** Two characters came; the first is in the data register, a third comes when
    the first has been read, and a fourth after the last look. *)
Definition busy_line : receiver := Receiver [99] (Some 99) [None; Some 100; None; Some 101] 0.
Definition demo_tty : rt_device :=
  Device RT_Device_Class_Char 0x113 0x148 1 None None serial_driver.
Definition demo_uart (recv : receiver) : kst :=
  set_k_drv (set_dr_serials {[30%positive := demo_line recv]} (set_dr_devs {[30%positive := demo_tty]} empty_drivers))
    (set_k_objs (<[30%positive := demo_object 137 1]> (k_objs demo_kernel)) demo_kernel).

Lemma demo_rx_state recv : rx_state 30 4 recv [97; 98] (demo_uart recv).
Proof.
  exists (demo_line recv), (RxFifo [98; 0; 0; 97] 1 3 false). repeat split; try done; try lia; [|by repeat constructor].
  intros [|[|i]] x [= <-]; done.
Qed.

Lemma demo_device_at recv : device_at 30 demo_tty (demo_uart recv).
Proof. split; [by eexists|done]. Qed.

(** Two more characters come while the handler reads: the oldest is dropped. *)
Lemma rx_interrupt_spec_witness : exists s',
  @rt_hw_serial_isr demo_ops (fun _ _ _ => Ret 0) 30 RT_SERIAL_EVENT_RX_IND (demo_uart busy_line) = Ok tt s' /\
  rx_state 30 4 (Receiver [99; 100] None [Some 101] 0) [98; 99; 100] s'.
Proof.
  destruct (@rx_interrupt_spec demo_ops (fun _ _ _ => Ret 0) demo_malloc eq_refl 30 4 busy_line [97; 98] (demo_uart busy_line) demo_tty I
    (demo_rx_state _) eq_refl) as (s' & (_ & Hx & _) & Hrun); [by repeat constructor|].
  exists s'. split; [exact Hrun|exact Hx].
Defined.

(** The fourth comes before [USART_ClearITPendingBit] and is lost: it is
    neither in the FIFO nor in the UART, and nothing was printed. *)
Example character_cleared_away : exists s',
  @USART1_IRQHandler demo_ops (fun _ _ _ => Ret 0) 30 (demo_uart (Receiver [99] (Some 99) [None; None; Some 101] 0)) = Ok tt s' /\
  rx_state 30 4 (Receiver [99; 101] None [] 1) [97; 98; 99] s' /\ dr_warned (k_drv s') = false.
Proof.
  destruct (@USART1_IRQHandler demo_ops (fun _ _ _ => Ret 0) 30 (demo_uart (Receiver [99] (Some 99) [None; None; Some 101] 0))) as [[] s'|] eqn:E;
    [|by vm_compute in E].
  exists s'. split; [done|]. vm_compute in E. injection E as <-. split; [|done].
  eexists _, _. split; [vm_compute; reflexivity|]. split; [done|]. split; [done|]. split; [done|]. split; try done; [|by repeat constructor].
  split; [done|cbn; lia|cbn; lia|]. intros [|[|[|i]]] x [= <-]; done.
Qed.

Lemma serial_read_spec_witness : exists s',
  exec 20 (@rt_device_read demo_ops 30 (-1) 5) (demo_uart busy_line) = Ok [97; 98] s' /\ rx_state 30 4 busy_line [] s'.
Proof.
  destruct (@serial_read_spec demo_ops demo_malloc eq_refl 30 demo_tty 4 busy_line [97; 98] 5 20 (demo_uart busy_line) (demo_device_at _)
    eq_refl ltac:(discriminate) eq_refl (demo_rx_state _) ltac:(cbn; lia)) as (s' & Hrun & _ & Hx).
  exists s'. split; [exact Hrun|exact Hx].
Defined.

(** The flags [rt_console_set_device] opens with. *)
Lemma reopen_hides_fifo_witness : exists s',
  @rt_device_open demo_ops 30 (Z.lor RT_DEVICE_OFLAG_RDWR RT_DEVICE_FLAG_STREAM) (demo_uart quiet_line) = Ok RT_EOK s' /\
  rx_state 30 4 quiet_line [97; 98] s' /\ exec 9 (@rt_device_read demo_ops 30 (-1) 1) s' = Ok [] s'.
Proof.
  apply (@reopen_hides_fifo demo_ops demo_malloc eq_refl 30 demo_tty 4 quiet_line [97; 98] _ 1 (demo_uart quiet_line) (demo_device_at _));
    [exact eq_refl|exact eq_refl|exact eq_refl|cbn; lia|exact (demo_rx_state _)|exact eq_refl..].
Defined.

Lemma serial_write_spec_witness : exists x,
  exec 20 (@rt_device_write demo_ops 30 0 [111; 107; 10]) (demo_uart quiet_line) = Ok 3 (upd_serial 30 x (demo_uart quiet_line)) /\
  ua_sent (ser_uart x) = [111; 107; 13; 10].
Proof.
  eexists. split.
  - apply (@serial_write_spec demo_ops demo_malloc eq_refl 30 demo_tty (demo_line quiet_line) [111; 107; 10] 20 (demo_uart quiet_line) (demo_device_at _));
      [exact eq_refl|discriminate|exact eq_refl|exact eq_refl|cbn; lia].
  - exact eq_refl.
Defined.

(** Opened a second time and closed once. *)
Lemma device_count_witness : exists s fs,
  @dev_uses demo_ops 30 (demo_uart quiet_line) fs s /\ ref_count 30 s = Some 1.
Proof.
  destruct (@rt_device_open demo_ops 30 RT_DEVICE_FLAG_INT_RX (demo_uart quiet_line)) as [r s1|] eqn:E1; [|by vm_compute in E1].
  destruct (@rt_device_close demo_ops 30 s1) as [r2 s2|] eqn:E2; [|vm_compute in E1; injection E1 as <- <-; by vm_compute in E2].
  assert (r = 0) as -> by (vm_compute in E1; by injection E1 as <- _).
  assert (@dev_uses demo_ops 30 (demo_uart quiet_line) [fun n => n + 1; fun n => Z.max 0 (n - 1)] s2) as Hu.
  { eapply uses_cons; [exact (@use_open demo_ops 30 RT_DEVICE_FLAG_INT_RX (demo_uart quiet_line) 0 s1 ltac:(discriminate) E1)|].
    eapply uses_cons; [by eapply use_close|constructor]. }
  exists s2, [fun n => n + 1; fun n => Z.max 0 (n - 1)]. split; [exact Hu|].
  exact (proj1 (@device_count demo_ops (@serial_laws demo_malloc) 30 (demo_uart quiet_line) _ s2 1 eq_refl ltac:(lia) Hu)).
Defined.
