(* ===== verification/Startup.v ===== *)
(** * From power-on to the running tasks (rt-thread/src/components.c, idle.c,
    board/board.c, applications/main.c, the initialisation functions of
    input.c, keyboard.c, sequencer.c and shell.c)

    [rtthread_startup] runs with interrupts disabled, up to the first thread:
    it is one computation.  Then interrupts are on, and the main thread is a
    process. *)
From stdpp Require Import strings gmap.
From S2P Require Import Prelude DevState KState Scheduler Object Timer Proc Conc Thread Ipc Mutex Event MsgQueue Printf.
From S2P Require Import Completion Device Gpio Pin I2c Spi SpiCore Serial Keyboard.
#[local] Open Scope Z_scope.

(** ** Addresses

    Of static objects, as the linker could lay them out, and of objects that
    [rt_malloc] returns; of functions and stacks only the number counts. *)
Definition addr_uart1 : ptr := 2.
Definition addr_spi1 : ptr := 4.
Definition addr_spi2 : ptr := 6.
Definition addr_hw_pin : ptr := 8.
Definition addr_i2c1 : ptr := 10.
Definition addr_heap_sem : ptr := 12.
Definition addr_idle : ptr := 16.
Definition addr_kb_led_data : ptr := 1.
Definition main_thread_entry_addr : Z := 1.
Definition idle_entry_addr : Z := 2.
Definition finsh_entry_addr : Z := 3.
Definition inputTaskEntry_addr : Z := 4.
Definition seqTaskEntry_addr : Z := 5.

(** What [rt_malloc] returns: [None] when it fails. *)
Class BootMemory := {
  mem_main : option ptr; stack_main : option Z;
  mem_shell : option ptr; mem_tshell : option ptr; stack_tshell : option Z;
  mem_event : option ptr;
  mem_spidev : option ptr; mem_cs : bool;
  mem_mq : option ptr; pool_mq : option (Z -> list Z);
  mem_input : option ptr; stack_input : option Z;
  mem_seq : option ptr; stack_seq : option Z
}.

Definition IDLE_THREAD_STACK_SIZE : Z := 512.
Definition RT_MAIN_THREAD_STACK_SIZE : Z := 2048.
Definition RT_MAIN_THREAD_PRIORITY : Z := 5.
Definition FINSH_THREAD_STACK_SIZE : Z := 2048.
Definition FINSH_THREAD_PRIORITY : Z := 11.
Definition LED0_PIN : Z := 0.
Definition SysTicK_IRQn : Z := 12.
Definition Software_IRQn : Z := 14.

Section startup.
Context `{CleanupCall} `{DriverOps} `{SpiHw} `{BootMemory}.

Definition name_of (s : String.string) : list Z := codes s.

(** A line of [rt_kprintf] without directives, and with numbers. *)
Definition printed (fmt : String.string) (args : list Z) : K (list Z) := lift (expand no_strings (codes fmt ++ [10]) args).

(** ** The board (board.c) *)

(** The timer's registers are not modelled. *)
Definition _SysTick_Config : K unit :=
  x ← get_pins;
  put_pins (set_pn_vectors (NVIC_EnableIRQ Software_IRQn (NVIC_EnableIRQ SysTicK_IRQn (pn_vectors x))) x).

(** [rt_system_heap_init]: the semaphore; the heap itself is Mem's. *)
Definition heap_sem_init : K unit := rt_sem_init addr_heap_sem (codes "heap"%string) 1 RT_IPC_FLAG_FIFO;; mret tt.

(** The functions the linker collects, between two marks. *)
Fixpoint run_init_table (tbl : list (K Z)) : K unit :=
  match tbl with [] => mret tt | fn :: tbl => fn;; run_init_table tbl end.
Definition rti_mark : K Z := mret 0.
Definition board_table : list (K Z) :=
  [rti_mark;
   rt_hw_pin_init addr_hw_pin;
   rt_hw_i2c_init [(addr_i2c1, (22, 23), codes "i2c1"%string)];
   rt_hw_spi_bus_init [(addr_spi1, 1, codes "spi1"%string); (addr_spi2, 2, codes "spi2"%string)]].
Definition rt_components_board_init (tbl : list (K Z)) : K unit := run_init_table tbl.

Definition rt_hw_board_init (tbl : list (K Z)) : K unit :=
  _SysTick_Config;;
  heap_sem_init;;
  rt_hw_usart_init [(addr_uart1, codes "uart1"%string)];;
  rt_console_set_device (codes "uart1"%string);;
  rt_components_board_init tbl.

(** ** The kernel (components.c, kservice.c, idle.c) *)

(** The date of the build is left open. *)
Definition rt_show_version (date : list Z) : K unit :=
  kprint ([10] ++ codes " \ | /"%string ++ [10]);;
  kprint (codes "- RT -     Thread Operating System"%string ++ [10]);;
  text ← lift (expand no_strings (codes " / | \     %d.%d.%d build "%string) [4; 0; 4]);
  kprint (text ++ date ++ [10]);;
  kprint (codes " 2006 - 2021 Copyright by rt-thread team"%string ++ [10]).

Definition rt_application_init : K unit :=
  tid ← rt_thread_create (codes "main"%string) main_thread_entry_addr 0 RT_MAIN_THREAD_STACK_SIZE RT_MAIN_THREAD_PRIORITY 20 mem_main stack_main;
  RT_ASSERT (bool_decide (is_Some tid));;
  tid ← lift tid;
  rt_thread_startup tid;;
  mret tt.

(** Soft timers are not configured. *)
Definition rt_system_timer_thread_init : K unit := mret tt.

Definition rt_thread_idle_init : K unit :=
  rt_thread_init addr_idle (codes "tidle0"%string) idle_entry_addr 0 0 IDLE_THREAD_STACK_SIZE (RT_THREAD_PRIORITY_MAX - 1) 32;;
  rt_thread_startup addr_idle;;
  mret tt.

Definition rtthread_startup (tbl : list (K Z)) (date : list Z) : K unit :=
  rt_hw_board_init tbl;;
  rt_show_version date;;
  rt_system_timer_init;;
  rt_system_scheduler_init;;
  rt_application_init;;
  rt_system_timer_thread_init;;
  rt_thread_idle_init;;
  rt_system_scheduler_start.

(** ** The shell (shell.c) *)

(** Its structure is Shell's; here are the thread and the semaphore in it. *)
Definition finsh_system_init : proc Z :=
  match mem_shell with
  | None => (rt_kputs (codes "no memory for shell"%string ++ [10]) ~; Ret (-1))%proc
  | Some rx_sem =>
      (tid <~ atomic (rt_thread_create (codes "tshell"%string) finsh_entry_addr 0 FINSH_THREAD_STACK_SIZE FINSH_THREAD_PRIORITY 10 mem_tshell stack_tshell);
       atomic (rt_sem_init rx_sem (codes "shrx"%string) 0 0) ~;
       match tid with
       | Some tid => atomic (rt_thread_startup tid) ~; Ret 0
       | None => Ret 0
       end)%proc
  end.

Definition libc_system_init : proc Z := Ret 0.

Fixpoint run_init_procs (tbl : list (proc Z)) : proc unit :=
  match tbl with [] => Ret tt | fn :: tbl => (fn ~; run_init_procs tbl)%proc end.
Definition component_table : list (proc Z) := [Ret 0; rt_i2c_core_init; libc_system_init; finsh_system_init].
Definition rt_components_init (tbl : list (proc Z)) : proc unit := run_init_procs tbl.

(** ** The tasks *)

(** [cs_gpiox] is the number of the port.  The structures come from
    [rt_malloc]: their contents are arbitrary. *)
Definition rt_hw_spi_device_attach (bus_name device_name : list Z) (cs_gpiox : nat) (cs_gpio_pin : Z) (junk : rt_device * rt_spi_device) : K Z :=
  on_port cs_gpiox (GPIO_Init (GpioInit cs_gpio_pin GPIO_Speed_50MHz GPIO_Mode_Out_PP));;
  on_port cs_gpiox (Gpio.GPIO_WriteBit cs_gpio_pin 1);;
  RT_ASSERT (bool_decide (is_Some mem_spidev));;
  spi_device ← lift mem_spidev;
  put_dev spi_device (fst junk);;
  put_spidev spi_device (snd junk);;
  RT_ASSERT mem_cs;;
  result ← rt_spi_bus_attach_device spi_device device_name bus_name (Some (Z.of_nat cs_gpiox, cs_gpio_pin));
  RT_ASSERT (result =? RT_EOK);;
  mret result.

Definition kb_cfg : rt_spi_configuration := SpiCfg (Z.lor RT_SPI_MSB RT_SPI_NO_CS) 8 115200.

(** The result is [kb_spi_dev].  After a failed attachment, which asserts, no
    message is printed. *)
Definition kbInit (junk : rt_device * rt_spi_device) : proc (option ptr) :=
  (atomic (rt_hw_spi_device_attach (codes "spi1"%string) (codes "spi10"%string) 0 (Z.shiftl 1 4) junk) ~;
   kb_spi_dev <~ atomic (rt_device_find (codes "spi10"%string));
   match kb_spi_dev with
   | None => rt_kputs (codes "failed to find spi10 device :/"%string ++ [10]) ~; atomic (kfail AssertFail)
   | Some dev =>
       r <~ rt_spi_configure dev kb_cfg;
       (if negb (r =? RT_EOK) then rt_kputs (codes "failed to configure spi10 device D:"%string ++ [10]) else Ret tt) ~;
       atomic (rt_pin_mode KB_LATCH_PIN PIN_MODE_OUTPUT) ~;
       atomic (rt_pin_write KB_LATCH_PIN PIN_HIGH) ~;
       Ret (Some dev)
   end)%proc.

(** [name] and the rest of a task's start; the message in case of a failure. *)
Definition start_task (tid : option ptr) (failed : String.string) : proc unit :=
  match tid with
  | Some tid => (atomic (rt_thread_startup tid) ~; Ret tt)%proc
  | None => rt_kputs (codes failed)
  end.

(** The result: [kb_spi_dev] and [input_event_mq].  Between the two, encInit
    sets registers of timer 3, which nothing else uses; it is left out. *)
Definition inputTaskInit (junk : rt_device * rt_spi_device) : proc (option ptr * option ptr) :=
  (kb_spi_dev <~ kbInit junk;
   input_event_mq <~ atomic (rt_mq_create (codes "input_event_mq"%string) 20 8 RT_IPC_FLAG_PRIO mem_mq pool_mq);
   tid <~ atomic (rt_thread_create (codes "inputTaskEntry"%string) inputTaskEntry_addr 0 4096 7 10 mem_input stack_input);
   start_task tid "failed to start inputTask" ~;
   Ret (kb_spi_dev, input_event_mq))%proc.

Definition sequencerTaskInit : proc unit :=
  (tid <~ atomic (rt_thread_create (codes "sequencerTaskEntry"%string) seqTaskEntry_addr 0 4096 6 10 mem_seq stack_seq);
   start_task tid "failed to start sequencerTask")%proc.

(** ** main *)

(** [LED1_BLINK_INIT] of board.c. *)
Definition LED1_BLINK_INIT : K unit := on_port 0 (GPIO_Init (GpioInit 1 GPIO_Speed_50MHz GPIO_Mode_Out_PP)).

Definition SystemCoreClock : Z := 144000000.

(** [main] up to its loop; the result: [inst_trig_event], [kb_spi_dev] and
    [input_event_mq]. *)
Definition main_init (junk : rt_device * rt_spi_device) : proc (option ptr * (option ptr * option ptr)) :=
  (rt_kputs (codes "MCU: CH32V307"%string ++ [10]) ~;
   text <~ atomic (printed "SysClk: %dHz" [SystemCoreClock]);
   rt_kputs text ~;
   rt_kputs (codes "www.wch.cn"%string ++ [10]) ~;
   atomic (rt_pin_mode LED0_PIN PIN_MODE_OUTPUT) ~;
   atomic (rt_pin_write LED0_PIN PIN_LOW) ~;
   inst_trig_event <~ atomic (rt_event_create (codes "inst_trig_event"%string) RT_IPC_FLAG_PRIO mem_event);
   r <~ inputTaskInit junk;
   sequencerTaskInit ~;
   atomic LED1_BLINK_INIT ~;
   atomic (on_port 0 (GPIO_ResetBits 1)) ~;
   Ret (inst_trig_event, r))%proc.

Definition blink_round : proc unit :=
  (atomic (on_port 0 (GPIO_SetBits 1)) ~;
   rt_thread_mdelay 500 ~;
   atomic (on_port 0 (GPIO_ResetBits 1)) ~;
   rt_thread_mdelay 500 ~;
   Ret tt)%proc.
Definition blink : thread_code := loop (fun _ : unit => blink_round ~; Ret (inl tt))%proc tt.

Definition main_thread_init (tbl : list (proc Z)) (junk : rt_device * rt_spi_device) : proc (option ptr * (option ptr * option ptr)) :=
  (rt_components_init tbl ~; main_init junk)%proc.
(** [main] does not return. *)
Definition main_thread_entry (tbl : list (proc Z)) (junk : rt_device * rt_spi_device) : thread_code :=
  (main_thread_init tbl junk ~; blink)%proc.
End startup.

(** ** The state at power-on

    Static storage is zero; [sda] says what the data line of the I2C bus shows. *)
Definition no_device : rt_device := Device 0 0 0 0 None None no_driver.
Definition no_usart : usart_init := UsartInit 0 0 0 0.
Definition reset_port (indr : Z) : gpio_port := GpioPort 0x44444444 0x44444444 indr 0.
Definition power_on (sda : bool) : kst :=
  set_k_mem {[addr_kb_led_data := [0; 0; 0]]}
    (set_k_drv (Drivers
       (<[addr_uart1 := no_device]> (<[addr_spi1 := no_device]> (<[addr_spi2 := no_device]>
         (<[addr_hw_pin := no_device]> {[addr_i2c1 := no_device]}))))
       {[addr_uart1 := Serial (SerialCfg 0 0 0 0 0 0 0 0) None None (Uart (Receiver [] None [] 0) [] false None)]}
       ∅ ∅
       (<[addr_spi1 := SpiBus 0 None None (SpiInit 0 0 0 0 0 0 0 0 0) (0, 0) (SpiPort 0 0 7 0 [])]>
         {[addr_spi2 := SpiBus 0 None None (SpiInit 0 0 0 0 0 0 0 0 0) (0, 0) (SpiPort 0 0 7 0 [])]})
       ∅
       {[addr_i2c1 := I2cBus false 0 0 0 0 None]}
       (set_pn_ports (<[1%nat := reset_port (if sda then 0x80 else 0)]> (replicate 5 (reset_port 0))) reset_pins)
       false 0 None []) empty_kst).
