(* ===== verification/App.v ===== *)
(** * The two tasks (applications/input/input.c, logic/sequencer.c, main.c)

    The input task scans the keyboard every 10 ms and sends an event when a
    key of the main row changed; the sequencer task receives the events,
    toggles the steps of the current page and redraws the LED image, which the
    input task shifts out at its next scan.  The two share the message queue
    [input_event_mq] and the array [kb_led_data], an entry of [k_mem].

    A task is a process: every access to shared memory is a section of its
    own, kernel calls are the sections of their own files.  [struct
    InputEvents] travels as its 20 bytes. *)
From S2P Require Import Prelude DevState KState Scheduler Object Timer Proc Thread Ipc Event MsgQueue Keyboard Sequencer.
From S2P Require Import Conc.

(** ** The bytes of [struct InputEvents]

    [main_row] at 0, 4 and 8, [function] at 2, 6 and 10, [enc_button] at 12,
    [enc_rotation] at 16; the other bytes are padding of a zero-initialised
    static structure. *)
Definition SIZEOF_INPUT_EVENTS : Z := 20.

Definition put16 (v : Z) : list Z := [u8 v; u8 (Z.shiftr v 8)].
Definition put32 (v : Z) : list Z := [u8 v; u8 (Z.shiftr v 8); u8 (Z.shiftr v 16); u8 (Z.shiftr v 24)].
Definition put_button_data (b : ButtonData) : list Z := put16 (main_row b) ++ [u8 (function b); 0].
Definition encode (ev : InputEvents) : list Z :=
  put_button_data (is_held (button_events ev)) ++
  put_button_data (just_pressed (button_events ev)) ++
  put_button_data (just_released (button_events ev)) ++
  [u8 (enc_button ev); 0; 0; 0] ++ put32 (enc_rotation ev).

Definition get16 (b0 b1 : Z) : Z := Z.lor b0 (Z.shiftl b1 8).
Definition get32 (b0 b1 b2 b3 : Z) : Z := swrap 32 (Z.lor (get16 b0 b1) (Z.shiftl (get16 b2 b3) 16)).
Definition decode (bytes : list Z) : option InputEvents :=
  match bytes with
  | [h0; h1; h2; _; p0; p1; p2; _; r0; r1; r2; _; e; _; _; _; n0; n1; n2; n3] =>
      Some {| button_events :=
                {| is_held := {| main_row := get16 h0 h1; function := h2 |};
                   just_pressed := {| main_row := get16 p0 p1; function := p2 |};
                   just_released := {| main_row := get16 r0 r1; function := r2 |} |};
              enc_button := e; enc_rotation := get32 n0 n1 n2 n3 |}
  | _ => None
  end.

(** A structure whose fields fit their types. *)
Definition data_wf (b : ButtonData) : Prop := 0 <= main_row b < 2 ^ 16 /\ 0 <= function b < 2 ^ 8.
Definition events_wf (ev : InputEvents) : Prop :=
  data_wf (is_held (button_events ev)) /\ data_wf (just_pressed (button_events ev)) /\
  data_wf (just_released (button_events ev)) /\ 0 <= enc_button ev < 2 ^ 8 /\ - 2 ^ 31 <= enc_rotation ev < 2 ^ 31.

Lemma get16_put16 v : get16 (u8 v) (u8 (Z.shiftr v 8)) = u16 v.
Proof. by apply (wrap_join 8 8). Qed.

Lemma get32_put32 v : - 2 ^ 31 <= v < 2 ^ 31 ->
  get32 (u8 v) (u8 (Z.shiftr v 8)) (u8 (Z.shiftr v 16)) (u8 (Z.shiftr v 24)) = v.
Proof.
  intros Hv. unfold get32. rewrite get16_put16.
  replace (Z.shiftr v 24) with (Z.shiftr (Z.shiftr v 16) 8) by (by rewrite Z.shiftr_shiftr).
  rewrite get16_put16, (wrap_join 16 16), swrap_wrap by lia. apply swrap_small; [lia|]. by change (32 - 1) with 31.
Qed.

Lemma decode_encode_run ev : events_wf ev -> decode (encode ev) = Some ev.
Proof.
  destruct ev as [[[h hf] [p pf] [r rf]] b n]. intros ([] & [] & [] & Hb & Hn). cbn in *.
  rewrite !get16_put16, get32_put32, !wrap_small by done. done.
Qed.

(** the structure survives the queue: the 20 bytes stored for an event whose
    fields fit their C types read back as the same event, with negative
    rotations and all four bytes of every field. *)
Theorem events_roundtrip ev : events_wf ev -> length (encode ev) = Z.to_nat SIZEOF_INPUT_EVENTS /\ decode (encode ev) = Some ev.
Proof. intros H. split; [done|by apply decode_encode_run]. Qed.

Lemma encode_length ev : length (encode ev) = 20%nat.
Proof. done. Qed.

(** ** Shared memory *)
Definition get_mem (a : ptr) : K (list Z) := fun s => lift (k_mem s !! a) s.
Definition put_mem (a : ptr) (v : list Z) : K unit := modify (fun s => set_k_mem (<[a := v]> (k_mem s)) s).

Definition INPUT_TASK_FREQ : Z := 100.

(** [encUpdate]: the encoder is not read yet. *)
Definition encUpdate (input_events : InputEvents) : Z * InputEvents := (0, input_events).

Section tasks.
(** The queue [input_event_mq] points to, the address of [kb_led_data], and
    the keyboard's shift registers at each transfer: the bytes shifted back for
    the LED bytes sent, or a failed transfer. *)
Context (input_event_mq kb_led_data : ptr) (spi : nat -> list Z -> option (list Z)).

(** ** The input task *)

(** [memcpy(led_data, kb_led_data, KB_CHAIN_LENGTH)], byte by byte. *)
Fixpoint led_copy (n i : nat) (led_data : list Z) : proc (list Z) :=
  match n with
  | O => Ret led_data
  | S n =>
      (led_data <~ atomic (kb ← get_mem kb_led_data; b ← lift (aget kb i); lift (aset led_data i b));
       led_copy n (S i) led_data)%proc
  end.

(** [kbTransferData(led, buttons)].  The chain's log [dr_chain] - what was
    shifted out and back at each transfer - is the hardware's state: its length
    says which transfer this is. *)
Definition chain_transfer (led buttons : list Z) : K (list hw_event * list Z) :=
  chain ← gets (fun s => dr_chain (k_drv s));
  let answer := spi (length chain) in
  r ← lift (kbTransferData answer led buttons);
  let sent := take KB_CHAIN_LENGTH led in
  modify (fun s => set_k_drv (set_dr_chain (chain ++ [(sent, answer sent)]) (k_drv s)) s);;
  mret r.

Definition inputQueueSend (input_events : InputEvents) : proc unit :=
  (r <~ rt_mq_send input_event_mq (encode input_events);
   (* a failure is only printed *)
   Ret tt)%proc.

(** The variables of the loop; [in_prev] is the static array of
    [kbParseButtons]. *)
Record input_vars := InputVars {
  in_tick : Z;
  in_events : InputEvents;
  in_buttons : list Z;
  in_led : list Z;
  in_prev : list Z
}.

(** One round of [while (1)]. *)
Definition input_round (delay : Z) (v : input_vars) : proc input_vars :=
  (led <~ led_copy KB_CHAIN_LENGTH 0 (in_led v);
   r <~ atomic (chain_transfer led (in_buttons v));
   let buttons : list Z := snd r in
   p <~ atomic (lift (kbParseButtons buttons (in_prev v) (in_events v)));
   let '(update, prevs, events) := p : Z * list Z * InputEvents in
   let '(enc, events) := if update =? 0 then encUpdate events else (0, events) in
   (if negb (update =? 0) || negb (enc =? 0) then inputQueueSend events else Ret tt) ~;
   d <~ rt_thread_delay_until (in_tick v) delay;
   Ret (InputVars (snd d) events buttons led prevs))%proc.

Definition no_buttons : ButtonData := {| main_row := 0; function := 0 |}.
Definition zero_events : InputEvents :=
  {| button_events := {| is_held := no_buttons; just_pressed := no_buttons; just_released := no_buttons |};
     enc_button := 0; enc_rotation := 0 |}.

Definition inputTaskEntry : thread_code :=
  (let delay := rt_tick_from_millisecond (1000 / INPUT_TASK_FREQ) in
   tick <~ atomic rt_tick_get;
   loop (fun v => v' <~ input_round delay v; Ret (inl v'))
     (InputVars tick zero_events (replicate KB_CHAIN_LENGTH 0) (replicate KB_CHAIN_LENGTH 0)
        (replicate KB_CHAIN_LENGTH 0)))%proc.

(** ** The sequencer task *)

(** [bytes] is the structure before the call; a failed call leaves it. *)
Definition seqInputQueueGet (bytes : list Z) : proc (list Z) :=
  (r <~ rt_mq_recv input_event_mq SIZEOF_INPUT_EVENTS RT_WAITING_FOREVER;
   Ret (copy_in (snd r) bytes))%proc.

(** [kbLEDDataSend(kb_led_data, ...)] on the shared array: the [memset] and
    each [|=] are sections. *)
Fixpoint draw_inner (n j : nat) (seq : list SeqData) (state : MachineState) (i : nat) : proc unit :=
  match n with
  | O => Ret tt
  | S n =>
      (atomic (kb ← get_mem kb_led_data; kb ← lift (led_or kb seq state i j); put_mem kb_led_data kb) ~;
       draw_inner n (S j) seq state i)%proc
  end.
Fixpoint draw_outer (n i : nat) (seq : list SeqData) (state : MachineState) : proc unit :=
  match n with
  | O => Ret tt
  | S n => (draw_inner 8 0 seq state i ~; draw_outer n (S i) seq state)%proc
  end.
Definition led_clear : K unit :=
  kb ← get_mem kb_led_data;
  if (KB_CHAIN_LENGTH <=? length kb)%nat then
    put_mem kb_led_data (replicate KB_CHAIN_LENGTH 0 ++ drop KB_CHAIN_LENGTH kb)
  else kfail BadPtr.
Definition led_draw (seq : list SeqData) (state : MachineState) : proc unit :=
  (atomic led_clear ~; draw_outer 2 0 seq state)%proc.

Record seq_vars := SeqVars {
  sq_sequence : list SeqData;
  sq_input : list Z;
  sq_state : MachineState
}.

(** One round of [while (1)]; an uninitialised structure is bytes. *)
Definition seq_round (v : seq_vars) : proc seq_vars :=
  (bytes <~ seqInputQueueGet (sq_input v);
   sequence <~ atomic (events ← lift (decode bytes); lift (seqStepToggle (sq_sequence v) events (sq_state v)));
   led_draw sequence (sq_state v) ~;
   Ret (SeqVars sequence bytes (sq_state v)))%proc.

(** [junk]: the bytes of the uninitialised local structure. *)
Definition seqTaskEntry (junk : list Z) : thread_code :=
  loop (fun v => v' <~ seq_round v; Ret (inl v'))%proc (SeqVars [zero_seq] junk zero_state).
End tasks.

(** ** Witness *)
Definition demo_event : InputEvents :=
  {| button_events :=
       {| is_held := {| main_row := 0xA5C3; function := 0 |};
          just_pressed := {| main_row := 0x8001; function := 0 |};
          just_released := {| main_row := 0; function := 255 |} |};
     enc_button := 1; enc_rotation := -7 |}.

Lemma events_roundtrip_witness : decode (encode demo_event) = Some demo_event.
Proof. apply (events_roundtrip demo_event). repeat split; cbn; lia. Defined.
