(* ===== verification/Pipeline.v ===== *)
(** * From keys to LEDs: the two tasks together

    The input task, the sequencer task and the rest of the system interleave
    section by section.  What happens at the two ends is observed from outside
    the tasks, in the states of a run: what the shift registers were sent and
    answered, the messages that appear in the queue and leave it, and the
    changes of the LED array.  A specification of the drum machine's front end
    reads these observations in order: which event a scan makes of the one
    before, that the event is queued unless the queue is full, that the
    messages leave it in order, that the registers are sent the LED array.
    Each task is proved, with the rules of [Conc], to do only what this reader
    accepts, whatever the others do, and to leave the LED array and the queue
    as the reader then expects them. *)
From S2P Require Import Prelude DevState KState Scheduler Object Timer Proc Thread Ipc Event MsgQueue Keyboard Sequencer.
From S2P Require Import Conc App.

(** ** What a run is observed to do *)
Inductive action :=
| Scanned (sent : list Z) (answer : option (list Z))
| Queued (bytes : list Z)
| Taken (bytes : list Z)
| Redrawn (leds : list Z)
| Garbled.

(** The messages of the queue, from its head on along the links. *)
Fixpoint follow (fuel : nat) (pool : gmap Z rt_mq_message) (start : option Z) : list (list Z) :=
  match fuel, start with
  | S fuel, Some x => match pool !! x with Some b => msg_data b :: follow fuel pool (msg_next b) | None => [] end
  | _, _ => []
  end.
Definition contents (mq : ptr) (s : kst) : list (list Z) :=
  match k_mqs s !! mq with Some m => follow (size (mq_pool m)) (mq_pool m) (mq_queue_head m) | None => [] end.

(** The new transfers of the shift registers. *)
Definition chain_seen (c c' : list (list Z * option (list Z))) : list action :=
  if decide (take (length c) c' = c) then (fun e => Scanned e.1 e.2) <$> drop (length c) c' else [Garbled].
(** One message more at the end, or one less at the front. *)
Definition queue_seen (q q' : list (list Z)) : list action :=
  if decide (q' = q) then []
  else if decide (q = take 1 q ++ q') then Taken <$> take 1 q
  else if decide (take (length q) q' = q /\ length q' = S (length q)) then Queued <$> drop (length q) q'
  else [Garbled].
Definition leds_seen (l l' : option (list Z)) : list action :=
  if decide (l' = l) then [] else match l' with Some l' => [Redrawn l'] | None => [Garbled] end.
Definition observe (mq kb : ptr) (s s' : kst) : list action :=
  chain_seen (dr_chain (k_drv s)) (dr_chain (k_drv s')) ++ queue_seen (contents mq s) (contents mq s') ++
  leds_seen (k_mem s !! kb) (k_mem s' !! kb).

(** ** The front end of the drum machine

    The main-row bytes of the last scan; the event that waits to be queued and
    how many messages the queue held when it was made; the events in the queue
    and those the sequencer took; the LED array at the last scan and after each
    change since. *)
Record story := Story {
  st_keys : Z * Z;
  st_pend : option InputEvents;
  st_backlog : nat;
  st_queue : list InputEvents;
  st_got : list InputEvents;
  st_leds : list (list Z)
}.
Definition story0 : story := Story (0, 0) None 0 [] [] [[0; 0; 0]].

(** What the keyboard hands over at a scan. *)
Definition buttons_of (r : option (list Z)) : list Z :=
  match r with Some r => (fun b => 255 - b) <$> r | None => [255; 255; 255] end.

(** The event of a scan with the main row [a0 a1] after [p]. *)
Definition edges (p : Z * Z) (a0 a1 : Z) : option InputEvents :=
  if (a0 =? p.1) && (a1 =? p.2) then None
  else Some {| button_events := scan_events a0 a1 p.1 p.2; enc_button := 0; enc_rotation := 0 |}.

(** An event is dropped only when seven messages or more wait: the queue has
    eight blocks, and the sequencer may still read one that it took. *)
Definition may_scan (st : story) : Prop := is_Some (st_pend st) -> (7 <= st_backlog st)%nat.

(** The bytes sent are bytes of the LED array since the last scan. *)
Definition shown (leds : list (list Z)) (sent : list Z) : bool :=
  (length sent =? KB_CHAIN_LENGTH)%nat &&
  forallb (fun i => existsb (fun l => bool_decide (sent !! i = l !! i)) leds) (seq 0 KB_CHAIN_LENGTH).

Definition tell (o : action) (st : story) : option story :=
  match o with
  | Scanned sent answer =>
      match buttons_of answer, st_pend st with
      | [a0; a1; _], p =>
          if (if p then 7 <=? st_backlog st else true)%nat && shown (st_leds st) sent
          then Some (Story (a0, a1) (edges (st_keys st) a0 a1) (length (st_queue st)) (st_queue st) (st_got st)
                 (drop (length (st_leds st) - 1) (st_leds st)))
          else None
      | _, _ => None
      end
  | Queued bytes =>
      match st_pend st with
      | Some ev =>
          if decide (bytes = encode ev)
          then Some (Story (st_keys st) None (st_backlog st) (st_queue st ++ [ev]) (st_got st) (st_leds st)) else None
      | None => None
      end
  | Taken bytes =>
      match st_queue st with
      | ev :: rest =>
          if decide (bytes = encode ev)
          then Some (Story (st_keys st) (st_pend st) (st_backlog st) rest (st_got st ++ [ev]) (st_leds st)) else None
      | [] => None
      end
  | Redrawn l => Some (Story (st_keys st) (st_pend st) (st_backlog st) (st_queue st) (st_got st) (st_leds st ++ [l]))
  | Garbled => None
  end.

(** The keys pressed an odd number of times. *)
Definition xor_pressed (evs : list InputEvents) : Z :=
  foldl (fun r ev => Z.lxor r (main_row (just_pressed (button_events ev)))) 0 evs.

#[local] Arguments encode : simpl never.

Lemma xor_pressed_snoc evs ev :
  xor_pressed (evs ++ [ev]) = Z.lxor (xor_pressed evs) (main_row (just_pressed (button_events ev))).
Proof. unfold xor_pressed. by rewrite foldl_app. Qed.

(** *** Reading the observations *)
Lemma follow_linked fuel pool st l : linked pool st l -> (length l <= fuel)%nat -> follow fuel pool st = l.*2.
Proof.
  revert fuel st. induction l as [|[x d] l IH]; intros fuel st; cbn [linked].
  - intros -> _. by destruct fuel.
  - intros (-> & next & Hx & Hl) Hf. destruct fuel as [|fuel]; cbn in Hf; [lia|]. cbn. rewrite Hx. cbn. f_equal. apply IH; [done|lia].
Qed.

Lemma contents_ok mq a s : mq_ok mq a s -> contents mq s = (qa_queue a).*2.
Proof.
  intros (_ & _ & m & Hm & Hr). unfold contents. rewrite Hm. apply follow_linked; [apply Hr|].
  destruct a as [q f fl]. pose proof (rel_fuel _ _ _ _ Hr). cbn. lia.
Qed.

Lemma chain_seen_same c : chain_seen c c = [].
Proof. unfold chain_seen. by rewrite take_ge, drop_ge, decide_True by done. Qed.
Lemma chain_seen_snoc c e : chain_seen c (c ++ [e]) = [Scanned e.1 e.2].
Proof. unfold chain_seen. by rewrite take_app_length, drop_app_length, decide_True by done. Qed.
Lemma queue_seen_same q : queue_seen q q = [].
Proof. unfold queue_seen. by rewrite decide_True by done. Qed.
Lemma queue_seen_snoc q m : queue_seen q (q ++ [m]) = [Queued m].
Proof.
  unfold queue_seen. rewrite decide_False, decide_False, decide_True, drop_app_length; [done|..].
  - by rewrite take_app_length, length_app, Nat.add_comm.
  - intros E. apply (f_equal length) in E. rewrite !length_app in E. cbn in E. lia.
  - intros E. apply (f_equal length) in E. rewrite length_app in E. cbn in E. lia.
Qed.
Lemma queue_seen_cons q m : queue_seen (m :: q) q = [Taken m].
Proof. unfold queue_seen. cbn. rewrite decide_False, decide_True; [by rewrite take_0|by rewrite take_0|]. intros E. apply (f_equal length) in E. cbn in E. lia. Qed.

Lemma leds_seen_same l : leds_seen l l = [].
Proof. unfold leds_seen. by rewrite decide_True by done. Qed.

Lemma shown_ok leds sent : length sent = KB_CHAIN_LENGTH ->
  (forall i b, sent !! i = Some b -> exists l, l ∈ leds /\ l !! i = Some b) -> shown leds sent = true.
Proof.
  intros Hlen Hs. unfold shown. rewrite Hlen, Nat.eqb_refl. apply forallb_forall. intros i [_ Hi]%in_seq.
  destruct (lookup_lt_is_Some_2 sent i) as [b Hb]; [lia|]. destruct (Hs i b Hb) as (l & Hl & Ei).
  apply existsb_exists. exists l. split; [by apply list_elem_of_In|]. apply bool_decide_eq_true. congruence.
Qed.

Record ghost := Gh {
  g_a : mqa;
  g_own : gmap ptr Z;
  g_st : story;
  g_idle : bool
}.

(** [1] for a block in the hands of a task. *)
Definition in_hand (b : option Z) : nat := if b then 1 else 0.

Section pipeline.
Context (app : positive -> ptr -> K unit).
Context (mq kb : ptr) (spi : nat -> list Z -> option (list Z)) (ti ts tid : ptr).
Context (Hdist : ti <> ts /\ ti <> tid /\ ts <> tid).
Context (Hspi : forall n sent r, spi n sent = Some r -> chain_bytes r).

(** ** The invariant *)

(** The story matches the queue, and the eight blocks are queued, free or in
    the hands of a task. *)
Record ghost_ok (g : ghost) : Prop := {
  gh_own t x : g_own g !! t = Some x -> is_Some (qa_flight (g_a g) !! x);
  gh_apart t t' x : g_own g !! t = Some x -> g_own g !! t' = Some x -> t = t';
  gh_count : (length (qa_queue (g_a g)) + length (qa_free (g_a g)) + in_hand (g_own g !! ti) + in_hand (g_own g !! ts) = 8)%nat;
  gh_blocks : Forall (fun b => length b.2 = 20%nat) (qa_free (g_a g));
  gh_fifo : (qa_queue (g_a g)).*2 = encode <$> st_queue (g_st g);
  gh_wf : Forall events_wf (st_queue (g_st g));
  gh_pend ev : st_pend (g_st g) = Some ev -> events_wf ev /\ (length (st_queue (g_st g)) <= st_backlog (g_st g))%nat
}.

(** The kernel's side: the idle thread can always run, the sequencer never
    uses its timer. *)
Record kernel_ok (a : mqa) (s : kst) : Prop := {
  kn_mq : mq_ok mq a s;
  kn_lock : k_lock s = 0;
  kn_idle : exists th, k_threads s !! tid = Some th /\ runnable th;
  kn_size : mq_msg_size <$> k_mqs s !! mq = Some 20;
  kn_timer : thread_timer ts ∉ k_tlist s
}.

(** The story knows the LED array; when the sequencer is done with what it
    received the LEDs show it. *)
Definition led_ok (g : ghost) (s : kst) : Prop :=
  exists l, k_mem s !! kb = Some l /\ last (st_leds (g_st g)) = Some l /\ length l = 3%nat /\
    (g_idle g = true -> led_row l = Some (xor_pressed (st_got (g_st g)))).

(** Only the sequencer waits at the queue, and only when it is empty. *)
Definition waiters_ok (g : ghost) (s : kst) : Prop :=
  forall x, x ∈ getq (k_qs s) (QSuspend mq) -> x = ts /\ g_idle g = true /\ st_queue (g_st g) = [].

Record inv (w : ghost * kst) : Prop := {
  iv_ghost : ghost_ok w.1;
  iv_kernel : kernel_ok (g_a w.1) w.2;
  iv_led : led_ok w.1 w.2;
  iv_waiters : waiters_ok w.1 w.2
}.

(** ** Rely and guarantee *)
Definition same_error (s s' : kst) : Prop :=
  forall e, th_error <$> k_threads s !! ts = Some e -> th_error <$> k_threads s' !! ts = Some e.

Record rely (t : ptr) (w w' : ghost * kst) : Prop := {
  rl_awake : t = ti \/ t = ts -> awake t w.2 -> awake t w'.2;
  rl_own : g_own w'.1 !! t = g_own w.1 !! t;
  rl_block x : g_own w.1 !! t = Some x -> qa_flight (g_a w'.1) !! x = qa_flight (g_a w.1) !! x;
  rl_input : t = ti -> st_keys (g_st w'.1) = st_keys (g_st w.1) /\ st_pend (g_st w'.1) = st_pend (g_st w.1) /\
    st_backlog (g_st w'.1) = st_backlog (g_st w.1) /\ exists more, st_leds (g_st w'.1) = st_leds (g_st w.1) ++ more;
  rl_seq : t = ts -> st_got (g_st w'.1) = st_got (g_st w.1) /\ g_idle w'.1 = g_idle w.1 /\
    k_mem w'.2 !! kb = k_mem w.2 !! kb /\ same_error w.2 w'.2
}.
(** What is observed, the story tells. *)
Definition told (w w' : ghost * kst) : Prop :=
  tells tell (observe mq kb w.2 w'.2) (g_st w.1) = Some (g_st w'.1).
Definition guar (t : ptr) (w w' : ghost * kst) : Prop := (forall t', t' <> t -> rely t' w w') /\ told w w'.

Lemma same_error_refl s : same_error s s.
Proof. by intros e. Qed.
#[local] Hint Resolve same_error_refl : core.

Lemma told_refl w : told w w.
Proof. unfold told, observe. by rewrite chain_seen_same, queue_seen_same, leds_seen_same. Qed.
Lemma rely_refl t w : rely t w w.
Proof. split; auto. intros _. repeat (split; [done|]). exists []. by rewrite app_nil_r. Qed.
Lemma guar_refl t w : guar t w w.
Proof. split; [intros t' _; apply rely_refl|apply told_refl]. Qed.

(** With the drivers' state and the LED array unchanged only the queue is to
    be read. *)
Lemma told_queue g g' s s' : mq_ok mq (g_a g) s -> mq_ok mq (g_a g') s' -> k_drv s' = k_drv s -> k_mem s' = k_mem s ->
  tells tell (queue_seen (qa_queue (g_a g)).*2 (qa_queue (g_a g')).*2) (g_st g) = Some (g_st g') -> told (g, s) (g', s').
Proof.
  intros H H' Ed Em. unfold told, observe. cbn [fst snd].
  by rewrite Ed, Em, chain_seen_same, (contents_ok _ _ _ H), (contents_ok _ _ _ H'), leds_seen_same, app_nil_r.
Qed.

(** ** The environment: ticks, the scheduler, and other threads that keep to
    what is their own. *)
Record elsewhere (s s' : kst) : Prop := {
  el_calm : calm s';
  el_objs : objs_step (k_objs s) (k_objs s');
  el_mqs : k_mqs s' !! mq = k_mqs s !! mq;
  el_mem : k_mem s' !! kb = k_mem s !! kb;
  el_chain : dr_chain (k_drv s') = dr_chain (k_drv s);
  el_lock : k_lock s' = k_lock s;
  el_runnable x th : x ∈ [ti; ts; tid] -> k_threads s !! x = Some th -> runnable th ->
    exists th', k_threads s' !! x = Some th' /\ runnable th';
  el_switched t : t ∈ [ti; ts] -> k_cur s' = Some t ->
    k_cur s = Some t \/ exists th, k_threads s' !! t = Some th /\ runnable th;
  el_queue x : x ∈ getq (k_qs s') (QSuspend mq) -> x ∈ getq (k_qs s) (QSuspend mq);
  el_error : thread_timer ts ∉ k_tlist s -> same_error s s';
  el_timer : thread_timer ts ∉ k_tlist s -> thread_timer ts ∉ k_tlist s'
}.

Lemma background_elsewhere s s' : calm s -> background app s s' -> elsewhere s s'.
Proof.
  intros Hc Hb. destruct (background_ok app s s' Hc Hb) as [Hc' [Q1 Q2 Q3 _ Q5 Q6 Q7 Q8]]. split; try done.
  - exact (f_equal (fun x => k_mqs x !! mq) Q1).
  - exact (f_equal (fun x => k_mem x !! kb) Q1).
  - exact (f_equal (fun x => dr_chain (k_drv x)) Q1).
  - exact (f_equal k_lock Q1).
  - intros x th _. apply Q5.
  - intros t _ Ht. by apply Q6.
  - intros x Hin. eapply elem_of_submseteq; [exact Hin|]. by apply sublist_submseteq, Q3.
  - intros Hn e. by rewrite Q8.
  - intros Hn Hin. by apply Hn, Q7.
Qed.

Definition env (s s' : kst) : Prop := background app s s' \/ elsewhere s s'.

Lemma awake_elsewhere t s s' : t ∈ [ti; ts] -> elsewhere s s' -> awake t s -> awake t s'.
Proof.
  intros Ht He Ha Hc'. destruct (el_switched _ _ He t Ht Hc') as [Hc|]; [|done].
  destruct (Ha Hc) as (th & E & Hr). apply (el_runnable _ _ He t th); [set_solver|done..].
Qed.

Lemma mq_ok_same a s s' : mq_ok mq a s -> calm s' -> objs_step (k_objs s) (k_objs s') ->
  k_mqs s' !! mq = k_mqs s !! mq -> mq_ok mq a s'.
Proof.
  intros (Hc & Ho & m & Hm & Hr) Hc' Hobj E.
  apply (mq_ok_intro _ _ _ m); [apply (mq_live_step mq s s'); [by split|done|done]|by rewrite E|done].
Qed.

Lemma env_keeps g s s' : inv (g, s) -> env s s' ->
  inv (g, s') /\ (forall t, rely t (g, s) (g, s')) /\ told (g, s) (g, s').
Proof.
  intros [Hg [K1 K2 K3 K4 K5] L1 L2] Henv. cbn [fst snd] in *.
  assert (elsewhere s s') as He by (destruct Henv; [apply background_elsewhere; [apply K1|done]|done]).
  assert (mq_ok mq (g_a g) s') as K1' by (eapply mq_ok_same; [exact K1|apply He..]).
  split; [split; cbn [fst snd]; [done|split| |]|split; [intros t; split; cbn [fst snd]; try done|]].
  - done.
  - by rewrite (el_lock _ _ He).
  - destruct K3 as (th & E & Hr). apply (el_runnable _ _ He tid th); [set_solver|done..].
  - by rewrite (el_mqs _ _ He).
  - by apply (el_timer _ _ He).
  - destruct L1 as (l & E & H). exists l. by rewrite (el_mem _ _ He).
  - intros x Hin. by apply L2, (el_queue _ _ He).
  - intros Ht Ha. apply (awake_elsewhere _ s); [destruct Ht as [->| ->]; set_solver|done|done].
  - intros _. repeat (split; [done|]). exists []. by rewrite app_nil_r.
  - intros ->. split; [done|]. split; [done|]. split; [apply (el_mem _ _ He)|by apply (el_error _ _ He)].
  - unfold told, observe. cbn [fst snd]. rewrite (el_chain _ _ He), chain_seen_same, (contents_ok _ _ _ K1), (contents_ok _ _ _ K1').
    by rewrite (el_mem _ _ He), queue_seen_same, leds_seen_same.
Qed.

(** ** Sections of the two tasks *)

(** Giving up the processor: when the thread goes on, it is runnable. *)
Lemma schedule_run t g s : t ∈ [ti; ts] -> inv (g, s) -> k_cur s = Some t ->
  exists s', rt_schedule s = Ok tt s' /\ env s s' /\ awake t s'.
Proof.
  intros Ht [_ [(Hc & _) Hl Hid _ _] _ _] Hcur. cbn [fst snd] in *.
  destruct (schedule_awake app t tid s Hc Hl Hid) as (s' & Hrun & Hb & Ha); [|done|].
  - intros ->. clear -Ht Hdist. set_solver.
  - exists s'. split; [done|]. split; [by left|done].
Qed.

Lemma inv_calm g s : inv (g, s) -> calm s.
Proof. intros [_ [(Hc & _) _ _ _ _] _ _]. done. Qed.

(** What a section of [t] may change of the ghost state. *)
Record ghost_moves (t : ptr) (g g' : ghost) : Prop := {
  gm_own t' : t' <> t -> g_own g' !! t' = g_own g !! t';
  gm_block t' x : t' <> t -> g_own g !! t' = Some x -> qa_flight (g_a g') !! x = qa_flight (g_a g) !! x;
  gm_input : t <> ti -> st_keys (g_st g') = st_keys (g_st g) /\ st_pend (g_st g') = st_pend (g_st g) /\
    st_backlog (g_st g') = st_backlog (g_st g);
  gm_leds : st_leds (g_st g') = st_leds (g_st g);
  gm_seq : t <> ts -> st_got (g_st g') = st_got (g_st g) /\ g_idle g' = g_idle g;
  gm_told : tells tell (queue_seen (qa_queue (g_a g)).*2 (qa_queue (g_a g')).*2) (g_st g) = Some (g_st g')
}.

Lemma ghost_moves_refl t g : ghost_moves t g g.
Proof. split; auto. by rewrite queue_seen_same. Qed.

Lemma gentle_rely t g g' s s' go : k_cur s = Some t -> gentle go t s s' -> ghost_moves t g g' ->
  forall t', t' <> t -> rely t' (g, s) (g', s').
Proof.
  intros Hcur Hf [M1 M2 M3 ML M4 _] t' Ht'. split; cbn [fst snd]; [|auto|eauto| |].
  - intros _ _ Hc. rewrite (gn_cur _ _ _ _ Hf), Hcur in Hc. congruence.
  - intros ->. destruct M3 as (-> & -> & ->); [congruence|]. repeat (split; [done|]). exists []. by rewrite ML, app_nil_r.
  - intros ->. destruct M4 as [E1 E2]; [congruence|]. split; [done|]. split; [done|].
    split; [by rewrite (gn_mem _ _ _ _ Hf)|]. intros e. rewrite (gn_error _ _ _ _ Hf); [done|congruence].
Qed.

Lemma kernel_step t a a' s s' go : t ∈ [ti; ts] -> kernel_ok a s -> mq_ok mq a' s' -> mq_frame mq go t s s' ->
  (t = ts -> go = true \/ k_tlist s' = k_tlist s) -> kernel_ok a' s'.
Proof.
  intros Ht [_ K2 K3 K4 K5] Hok [Hf Hs] Hts. split; [done|by rewrite (gn_lock _ _ _ _ Hf)| |by rewrite Hs|].
  - destruct K3 as (th & E & Hr). apply (gn_runnable _ _ _ _ Hf tid th); [|done|done].
    left. intros ->. clear -Ht Hdist. set_solver.
  - intros Hin. destruct (decide (t = ts)) as [->|Hne].
    + destruct (Hts eq_refl) as [-> |E]; [|by rewrite E in Hin].
      destruct (gn_tlist _ _ _ _ Hf _ Hin) as [|[? _]]; done.
    + destruct (gn_tlist _ _ _ _ Hf _ Hin) as [|[_ E]]; [done|]. injection E as ->. done.
Qed.

(** While the sequencer runs nobody waits. *)
Lemma no_waiters g s x : inv (g, s) -> k_cur s = Some ts -> awake ts s -> x ∉ getq (k_qs s) (QSuspend mq).
Proof.
  intros Hi Hcur Ha Hx. destruct (iv_waiters _ Hi x Hx) as [-> _]. cbn [snd] in *.
  destruct (awake_running ts s) as (th & E & Hr); [by eapply inv_calm|done|done|].
  apply (runnable_no_waiter s ts th (QSuspend mq)); [apply (iv_kernel _ Hi)|done|by right|done|exact Hx].
Qed.

(** A section of the sequencer that goes on leaves no waiter, and one of the
    input task leaves those that waited. *)
Lemma waiters_seq g g' s s' : inv (g, s) -> k_cur s = Some ts -> awake ts s -> gentle true ts s s' -> waiters_ok g' s'.
Proof.
  intros Hi Hcur Ha Hf x Hx. exfalso. apply (no_waiters g s x Hi Hcur Ha).
  apply (gn_queues _ _ _ _ Hf _ x); [done|by right|done].
Qed.
Lemma waiters_input g g' s s' : inv (g, s) -> gentle true ti s s' -> g_idle g' = g_idle g ->
  st_queue (g_st g') = st_queue (g_st g) -> waiters_ok g' s'.
Proof.
  intros Hi Hf E1 E2 x Hx. rewrite E1, E2. apply (iv_waiters _ Hi). apply (gn_queues _ _ _ _ Hf _ x); [done|by right|done].
Qed.
(** Linking a message wakes the sequencer. *)
Lemma waiters_link g g' s s' : inv (g, s) -> woken_first (QSuspend mq) s s' -> waiters_ok g' s'.
Proof.
  intros Hi Hw x Hx. exfalso. apply Hw in Hx.
  pose proof (qo_nodup _ _ (ro_queues _ _ _ (proj1 (ki_sched _ _ (cm_kinv _ (inv_calm _ _ Hi))))) (QSuspend mq)) as Hnd.
  destruct (getq (k_qs s) (QSuspend mq)) as [|y l] eqn:E; [by apply not_elem_of_nil in Hx|]. cbn [tail] in Hx.
  apply NoDup_cons in Hnd as [Hy _]. pose proof (iv_waiters _ Hi) as Hall. unfold waiters_ok in Hall. cbn [fst snd] in Hall. rewrite E in Hall.
  destruct (Hall y) as [-> _]; [by left|]. destruct (Hall x) as [-> _]; [by right|]. done.
Qed.

(** ** What a task knows *)
Inductive local :=
| LCopy (keys : Z * Z) (pend : option InputEvents) (img : list Z)
| LIn (keys : Z * Z) (pend : option InputEvents) (ready : bool)
| LSeq (got : list InputEvents) (idle : bool) (led : list Z) (woken : bool).

(** Its part of the story - at the start of a round also the bytes of the LED
    array that it copied -, the block it holds, and whether it can go on. *)
Record view := View {
  v_local : local;
  v_block : option (Z * rt_mq_message);
  v_awake : bool
}.

Definition known_local (t : ptr) (l : local) (w : ghost * kst) : Prop :=
  match l with
  | LCopy keys pend img => t = ti /\ st_keys (g_st w.1) = keys /\ st_pend (g_st w.1) = pend /\ may_scan (g_st w.1) /\
      (forall i b, img !! i = Some b -> exists l, l ∈ st_leds (g_st w.1) /\ l !! i = Some b)
  | LIn keys pend ready => t = ti /\ st_keys (g_st w.1) = keys /\ st_pend (g_st w.1) = pend /\
      (ready = true -> may_scan (g_st w.1))
  | LSeq got idle led woken => t = ts /\ st_got (g_st w.1) = got /\ g_idle w.1 = idle /\ k_mem w.2 !! kb = Some led /\
      (woken = true -> th_error <$> k_threads w.2 !! ts = Some RT_EOK)
  end.
Definition holds (t : ptr) (b : option (Z * rt_mq_message)) (g : ghost) : Prop :=
  match b with
  | Some (x, m) => g_own g !! t = Some x /\ qa_flight (g_a g) !! x = Some m
  | None => g_own g !! t = None
  end.
Record known (t : ptr) (v : view) (w : ghost * kst) : Prop := {
  kn_local : known_local t (v_local v) w;
  kn_block : holds t (v_block v) w.1;
  kn_awake : v_awake v = true -> awake t w.2
}.

Lemma known_task t v w : known t v w -> t = ti \/ t = ts.
Proof. intros [H _ _]. destruct (v_local v); [left|left|right]; apply H. Qed.

Lemma known_stable t v : stable inv (rely t) (known t v).
Proof.
  intros w w' _ Hk [R1 R2 RB R3 R4] _. pose proof (known_task _ _ _ Hk) as Ht. destruct Hk as [Hl Hb Ha]. split; [| |auto].
  - destruct (v_local v) as [keys pend img|keys pend ready|got idle led woken]; cbn in *.
    + destruct Hl as (E & <- & <- & Hr & Himg). destruct (R3 E) as (E1 & E2 & E3 & more & E4). rewrite E1, E2, E4. split; [done|].
      split; [done|]. split; [done|]. split; [unfold may_scan; by rewrite E2, E3|].
      intros i b Hb'. destruct (Himg i b Hb') as (l & Hl & Hi). exists l. split; [apply elem_of_app; by left|done].
    + destruct Hl as (E & <- & <- & Hr). destruct (R3 E) as (E1 & E2 & E3 & _). rewrite E1, E2. split; [done|]. split; [done|].
      split; [done|]. intros ?. unfold may_scan. rewrite E2, E3. by apply Hr.
    + destruct Hl as (E & <- & <- & <- & He). destruct (R4 E) as (-> & -> & -> & Hse). split; [done|]. repeat (split; [done|]). intros Hw. by apply Hse, He.
  - destruct (v_block v) as [[x m]|]; cbn in *; [|by rewrite R2]. destruct Hb as [Ho Hx]. by rewrite R2, (RB x Ho).
Qed.

Abbreviation triple_of t := (triple inv t (rely t) (guar t) (known t)).

(** A section of [t] that moves the story from [g] to [g']. *)
Lemma moves t v g g' s s' go : inv (g, s) -> known t v (g, s) -> k_cur s = Some t ->
  mq_ok mq (g_a g') s' -> mq_frame mq go t s s' -> ghost_ok g' -> ghost_moves t g g' -> waiters_ok g' s' ->
  (t = ts -> (go = true \/ k_tlist s' = k_tlist s) /\
     (g_idle g' = true -> g_idle g = true /\ st_got (g_st g') = st_got (g_st g))) ->
  inv (g', s') /\ guar t (g, s) (g', s').
Proof.
  intros Hi Hk Hcur Hok Hf Hg Hm Hw Hts. pose proof (mf_gentle _ _ _ _ _ Hf) as Hgen.
  pose proof (known_task _ _ _ Hk) as Ht. pose proof Hi as [Hg0 Hk0 Hl _]. cbn [fst snd] in *.
  split; [split; cbn [fst snd]; [done| | |done]|split; [by eapply gentle_rely|]].
  - eapply kernel_step; [|done|done|exact Hf|].
    + destruct Ht as [->| ->]; set_solver.
    + intros E. by apply Hts.
  - destruct Hl as (l & E & Elast & Hl & Hrow). exists l. split; [by rewrite (gn_mem _ _ _ _ Hgen)|].
    split; [by rewrite (gm_leds _ _ _ Hm)|]. split; [done|].
    intros Hid. destruct (decide (t = ts)) as [Et|Hne].
    + destruct (proj2 (Hts Et) Hid) as [Hid' ->]. auto.
    + destruct (gm_seq _ _ _ Hm Hne) as [-> E2]. rewrite E2 in Hid. auto.
  - apply told_queue; [apply Hk0|done|apply (gn_drv _ _ _ _ Hgen)|apply (gn_mem _ _ _ _ Hgen)|apply Hm].
Qed.

(** The same when the story stays. *)
Lemma moves_quiet t l b aw g s s' go : inv (g, s) -> known t (View l b aw) (g, s) -> k_cur s = Some t ->
  mq_ok mq (g_a g) s' -> mq_frame mq go t s s' -> waiters_ok g s' -> (t = ts -> go = true \/ k_tlist s' = k_tlist s) ->
  inv (g, s') /\ guar t (g, s) (g, s').
Proof.
  intros Hi Hk Hcur Hok Hf Hw Hts. eapply moves; [done|done|done|done|exact Hf|apply Hi|apply ghost_moves_refl|done|auto].
Qed.

(** What is known of the story outlives a section. *)
Definition forget (l : local) : local := match l with LSeq got idle led _ => LSeq got idle led false | _ => l end.

Lemma known_gentle t l b aw g s s' go : known t (View l b aw) (g, s) -> k_cur s = Some t -> gentle go t s s' ->
  known t (View (forget l) b (go && aw)) (g, s').
Proof.
  intros [Hl Hb Ha] Hcur Hf. split; cbn in *; [|done|].
  - destruct l as [keys pend img|keys pend ready|got idle led woken]; cbn in *; [done|done|].
    rewrite (gn_mem _ _ _ _ Hf). naive_solver.
  - intros [Eg Ea]%andb_true_iff. eapply awake_gentle; [done|exact Hf|done|by apply Ha].
Qed.

(** ** The kernel calls of the tasks *)

Lemma schedule_task t l b aw :
  triple_of t (View l b aw) (atomic rt_schedule) (fun _ v => v = View l b true).
Proof.
  apply triple_sec; [apply known_stable|]. intros [g s] Hi Hk Hcur. cbn [snd] in Hcur.
  destruct (schedule_run t g s) as (s' & Hrun & Henv & Ha); [|done|done|].
  { destruct (known_task _ _ _ Hk) as [->| ->]; set_solver. }
  destruct (env_keeps g s s' Hi Henv) as (Hi' & Hrely & Htold).
  exists tt, (g, s'), (View l b true). split; [done|]. split; [done|]. split; [split; [by intros t' _|done]|]. split; [|done].
  destruct (known_stable t (View l b aw) _ _ Hi Hk (Hrely t) Hi') as [H1 H2 _]. by split.
Qed.

(** [if (need) rt_schedule();] *)
Lemma schedule_if_task {A} t l b (need : bool) (a : A) :
  triple_of t (View l b true) (if need then atomic rt_schedule ~; Ret a else Ret a)%proc
    (fun r v => r = a /\ v = View l b true).
Proof.
  destruct need; [|apply triple_ret; [apply known_stable|done]].
  eapply triple_bind; [apply schedule_task|]. intros [] v ->. apply triple_ret; [apply known_stable|done].
Qed.

Lemma self_task t v : triple_of t v (atomic rt_thread_self) (fun r v' => r = Some t /\ v' = v).
Proof.
  apply triple_read; [apply known_stable|apply guar_refl|]. intros [g s] _ _ Hcur. cbn [snd] in *. exists (Some t).
  split; [|done]. unfold rt_thread_self, gets. by rewrite Hcur.
Qed.

(** The thread record of an awake task. *)
Lemma task_caller t l b g s timeout since : inv (g, s) -> known t (View l b true) (g, s) -> k_cur s = Some t ->
  timeout < HALF_TICK -> match since with Some td => 0 < timeout -> u32 (k_tick s - td) < 2 ^ 31 | None => True end ->
  caller s (Some t) timeout since.
Proof.
  intros Hi Hk Hcur Ht Hs. right. destruct (awake_running t s) as (th & E & Hr); [by apply (inv_calm g)|done|by apply Hk|].
  exists t, th. done.
Qed.

(** *** rt_thread_delay_until *)
Lemma clear_error_gentle s t th : k_threads s !! t = Some th -> state_of th <> RT_THREAD_CLOSE ->
  exists s', clear_timeout_error t s = Ok tt s' /\ gentle true t s s' /\ k_mqs s' = k_mqs s /\
    (s' = s \/ s' = with_error t th RT_EOK s).
Proof.
  intros Hth Hcl. unfold clear_timeout_error. erewrite run_bind by (by apply get_thread_run).
  destruct (th_error th =? - RT_ETIMEOUT).
  - exists (with_error t th RT_EOK s). split; [done|]. split; [by apply gentle_error|]. split; [done|by right].
  - exists s. split; [done|]. split; [apply gentle_refl|]. split; [done|by left].
Qed.

Lemma clear_error_task l b :
  triple_of ti (View l b true) (atomic (clear_timeout_error ti)) (fun _ v => v = View (forget l) b true).
Proof.
  apply triple_sec; [apply known_stable|]. intros [g s] Hi Hk Hcur. cbn [snd] in Hcur.
  destruct (awake_running ti s) as (th & E & Hr); [by apply (inv_calm g)|done|by apply Hk|].
  destruct (clear_error_gentle s ti th E) as (s' & Hrun & Hg & Hm & Hs'); [by rewrite Hr|].
  assert (mq_ok mq (g_a g) s') as Hok.
  { pose proof (kn_mq _ _ (iv_kernel _ Hi)) as Hok. destruct Hs' as [->| ->]; [done|by apply mq_error_ok]. }
  exists tt, (g, s'), (View (forget l) b true). split; [done|].
  destruct (moves_quiet ti l b true g s s' true) as [Hi' Hgu]; [done..|by apply mq_frame_step|by eapply waiters_input|by left|].
  split; [done|]. split; [done|]. split; [|done]. by apply (known_gentle ti l b true g s s' true).
Qed.

Lemma waiters_slept g s s' t th n : inv (g, s) -> slept t th n s s' -> waiters_ok g s'.
Proof.
  intros Hi Hsl x Hx. apply (iv_waiters _ Hi). destruct (rest_fields _ _ (sl_rest _ _ _ _ _ Hsl)) as (_ & _ & E3 & _).
  rewrite E3, getq_suspended, list_elem_of_filter in Hx. by destruct Hx.
Qed.

Lemma delay_until_task keys pend ready tick inc : inc < HALF_TICK ->
  triple_of ti (View (LIn keys pend ready) None true) (rt_thread_delay_until tick inc)
    (fun _ v => v = View (LIn keys pend ready) None true).
Proof.
  intros Hinc. eapply (triple_bind _ _ _ _ _ _ _ _
    (fun r v => (fst r = None \/ fst r = Some ti) /\ exists aw, (fst r = None -> aw = true) /\ v = View (LIn keys pend ready) None aw)).
  - apply triple_sec; [apply known_stable|]. intros [g s] Hi Hk Hcur. cbn [snd] in Hcur.
    destruct (awake_running ti s) as (th & E & Hr); [by apply (inv_calm g)|done|by apply Hk|].
    pose proof (kn_mq _ _ (iv_kernel _ Hi)) as Hok. cbn [fst snd] in Hok.
    pose proof (delay_until_run s ti th tick inc (cm_kinv _ (proj1 Hok)) Hcur E Hr Hinc) as H. cbv zeta in H.
    destruct (u32 (k_tick s - tick) <? inc).
    + destruct H as (s' & Hrun & Hsl). pose proof (gentle_slept _ _ _ _ _ Hsl Hcur) as Hg.
      pose proof (sl_step _ _ _ _ _ Hsl) as Hks.
      eexists _, (g, s'), (View (LIn keys pend ready) None false). split; [exact Hrun|].
      destruct (moves_quiet ti (LIn keys pend ready) None true g s s' false) as [Hi' Hgu];
        [done..| | |by eapply waiters_slept|intros E'; by destruct (proj1 Hdist)|].
      * eapply mq_ok_step; [done|eapply calm_kstep; [apply Hok|apply Hsl|done|apply Hg]|apply Hks|apply (ks_mqs Hks)].
      * apply mq_frame_step; [done|apply (ks_mqs Hks)].
      * split; [done|]. split; [done|]. split; [by apply (known_gentle ti (LIn keys pend ready) None true g s s' false)|].
        split; [by right|]. by exists false.
    + eexists _, (g, s), (View (LIn keys pend ready) None true). split; [exact H|]. split; [done|]. split; [apply guar_refl|].
      split; [done|]. split; [by left|]. by exists true.
  - intros [r tick'] v' (Hr & aw & Haw & ->). cbn [fst] in *. destruct Hr as [->| ->].
    + rewrite Haw by done. by apply triple_ret; [apply known_stable|].
    + eapply triple_bind; [apply schedule_task|]. intros [] v ->.
      eapply triple_bind; [apply clear_error_task|]. intros [] v ->. by apply triple_ret; [apply known_stable|].
Qed.

(** ** The story at the events of the queue *)
Definition with_queue (a : mqa) (own : gmap ptr Z) (g : ghost) : ghost := Gh a own (g_st g) (g_idle g).

Lemma listed_not_flying a s x : mq_ok mq a s -> x ∈ (qa_queue a).*1 ++ (qa_free a).*1 -> qa_flight a !! x = None.
Proof.
  intros (_ & _ & m & _ & Hr) Hx. destruct (qa_flight a !! x) eqn:E; [|done].
  by destruct (mr_disjoint _ _ Hr x (ex_intro _ _ E)).
Qed.

(** The hands of the tasks when [t] takes or gives a block. *)
Lemma hands_take (own : gmap ptr Z) t x : t = ti \/ t = ts -> own !! t = None ->
  (in_hand (<[t := x]> own !! ti) + in_hand (<[t := x]> own !! ts) = S (in_hand (own !! ti) + in_hand (own !! ts)))%nat.
Proof.
  destruct Hdist as (Hne & _ & _). intros [->| ->] E; rewrite E, lookup_insert_eq, lookup_insert_ne by done; cbn; lia.
Qed.
Lemma hands_give (own : gmap ptr Z) t x : t = ti \/ t = ts -> own !! t = Some x ->
  (S (in_hand (delete t own !! ti) + in_hand (delete t own !! ts)) = in_hand (own !! ti) + in_hand (own !! ts))%nat.
Proof.
  destruct Hdist as (Hne & _ & _). intros [->| ->] E; rewrite E, lookup_delete_eq, lookup_delete_ne by done; cbn; lia.
Qed.

(** The block [x], in no hands before, is taken by [t]. *)
Lemma take_block g t x b : ghost_ok g -> qa_flight (g_a g) !! x = None ->
  let own := <[t := x]> (g_own g) in let fl := <[x := b]> (qa_flight (g_a g)) in
  (forall t' y, own !! t' = Some y -> is_Some (fl !! y)) /\
  (forall t1 t2 y, own !! t1 = Some y -> own !! t2 = Some y -> t1 = t2) /\
  (forall t' y, g_own g !! t' = Some y -> fl !! y = qa_flight (g_a g) !! y).
Proof.
  intros Hg Hx own fl.
  assert (forall t' y, g_own g !! t' = Some y -> y <> x) as Hne by (intros t' y Hy ->; destruct (gh_own _ Hg t' x Hy); congruence).
  split; [|split].
  - intros t' y. unfold own, fl. rewrite lookup_insert_Some. intros [[<- <-]|[_ Hy]]; [rewrite lookup_insert_eq; eauto|].
    rewrite lookup_insert_ne by (by apply not_eq_sym, (Hne t')). by eapply gh_own.
  - intros t1 t2 y. unfold own. rewrite !lookup_insert_Some.
    intros [[<- <-]|[_ H1]] [[<- E]|[_ H2]]; [done|by destruct (Hne t2 x H2)|subst; by destruct (Hne t1 y H1)|by eapply gh_apart].
  - intros t' y Hy. unfold fl. by rewrite lookup_insert_ne by (by apply not_eq_sym, (Hne t')).
Qed.

(** [t] gives its block [x] up. *)
Lemma give_block g t x : ghost_ok g -> g_own g !! t = Some x ->
  let own := delete t (g_own g) in let fl := delete x (qa_flight (g_a g)) in
  (forall t' y, own !! t' = Some y -> is_Some (fl !! y)) /\
  (forall t1 t2 y, own !! t1 = Some y -> own !! t2 = Some y -> t1 = t2) /\
  (forall t' y, t' <> t -> g_own g !! t' = Some y -> fl !! y = qa_flight (g_a g) !! y).
Proof.
  intros Hg Hx own fl.
  assert (forall t' y, t' <> t -> g_own g !! t' = Some y -> x <> y) as Hne by (intros t' y Hn Hy ->; by apply Hn, (gh_apart _ Hg t' t y)).
  split; [|split].
  - intros t' y. unfold own, fl. rewrite lookup_delete_Some. intros [Hn Hy].
    rewrite lookup_delete_ne by (by apply (Hne t')). by eapply gh_own.
  - intros t1 t2 y. unfold own. rewrite !lookup_delete_Some. intros [_ H1] [_ H2]. by eapply gh_apart.
  - intros t' y Hn Hy. unfold fl. by rewrite lookup_delete_ne by (by apply (Hne t')).
Qed.

Lemma ghost_alloc g s x a' : ghost_ok g -> mq_ok mq (g_a g) s -> g_own g !! ti = None -> mqa_do (EvAlloc x) (g_a g) = Some a' ->
  let g' := with_queue a' (<[ti := x]> (g_own g)) g in
  exists b, length (msg_data b) = 20%nat /\ holds ti (Some (x, b)) g' /\ ghost_ok g' /\ ghost_moves ti g g'.
Proof.
  intros Hg Hok Hn Ha g'. pose proof (listed_not_flying _ _ x Hok) as Hfly.
  destruct (g_a g) as [q f fl] eqn:Ea. cbn in Ha, Hfly. destruct f as [|[y d] f]; [done|].
  case_decide as Ex; [|done]. subst y. injection Ha as <-.
  destruct (take_block g ti x (MqMsg (fst <$> head f) d) Hg) as (H1 & H2 & H3); [rewrite Ea; apply Hfly; set_solver|].
  pose proof (hands_take _ ti x (or_introl eq_refl) Hn) as Hh. destruct Hg as [G1 G2 G3 G4 G5 G6 G7].
  rewrite Ea in *. cbn in *. apply Forall_cons in G4 as [Hd G4].
  exists (MqMsg (fst <$> head f) d). split; [exact Hd|]. split; [cbn; by rewrite !lookup_insert_eq|].
  split; [by split; cbn; try done; lia|]. split; cbn; rewrite ?Ea; try done.
  - intros t' Ht'. by rewrite lookup_insert_ne.
  - intros t' y _ Hy. by eapply H3.
  - cbn. by rewrite queue_seen_same.
Qed.

Lemma ghost_fill g t x buffer b a' : ghost_ok g -> holds t (Some (x, b)) g ->
  mqa_do (EvFill x buffer) (g_a g) = Some a' ->
  let g' := with_queue a' (g_own g) g in
  holds t (Some (x, MqMsg None (copy_in buffer (msg_data b)))) g' /\ ghost_ok g' /\ ghost_moves t g g'.
Proof.
  intros Hg [Ho Hx] Ha g'. destruct (g_a g) as [q f fl] eqn:Ea. cbn in Ha, Hx. unfold refill in Ha. cbn in Ha.
  rewrite Hx in Ha. injection Ha as <-. destruct Hg as [G1 G2 G3 G4 G5 G6 G7]. rewrite Ea in *. cbn in *.
  split; [by rewrite lookup_insert_eq|]. split.
  - split; try done. intros t' y Hy. cbn. destruct (decide (y = x)) as [->|Hne]; [rewrite lookup_insert_eq; eauto|].
    rewrite lookup_insert_ne by done. by eapply G1.
  - split; cbn; rewrite ?Ea; try done; [|cbn; by rewrite queue_seen_same].
    intros t' y Hne Hy. apply lookup_insert_ne. intros <-. by apply Hne, (G2 t' t x).
Qed.

(** The event that waited is queued. *)
Definition queued (ev : InputEvents) (st : story) : story :=
  Story (st_keys st) None (st_backlog st) (st_queue st ++ [ev]) (st_got st) (st_leds st).

Lemma ghost_link g x ev a' : ghost_ok g -> holds ti (Some (x, MqMsg None (encode ev))) g -> st_pend (g_st g) = Some ev ->
  mqa_do (EvLink x) (g_a g) = Some a' ->
  let g' := Gh a' (delete ti (g_own g)) (queued ev (g_st g)) (g_idle g) in ghost_ok g' /\ ghost_moves ti g g'.
Proof.
  intros Hg [Ho Hx] Ep Ha g'. destruct (give_block g ti x Hg Ho) as (H1 & H2 & H3).
  pose proof (hands_give _ ti x (or_introl eq_refl) Ho) as Hh.
  destruct (g_a g) as [q f fl] eqn:Ea. cbn in Ha, Hx. rewrite Hx in Ha. injection Ha as <-.
  destruct Hg as [G1 G2 G3 G4 G5 G6 G7]. rewrite Ea in *. cbn in *. split; [split; cbn; try done|split; cbn; rewrite ?Ea; try done].
  - rewrite length_app. cbn. lia.
  - by rewrite !fmap_app, G5.
  - apply Forall_app. split; [done|]. apply Forall_singleton. by destruct (G7 ev Ep).
  - intros t' Ht'. by rewrite lookup_delete_ne.
  - cbn. rewrite fmap_app. change ([(x, encode ev)].*2) with [encode ev]. rewrite queue_seen_snoc. cbn. by rewrite Ep, decide_True.
Qed.

Lemma ghost_free g t x b a' : t = ti \/ t = ts -> ghost_ok g -> holds t (Some (x, b)) g -> length (msg_data b) = 20%nat ->
  mqa_do (EvFree x) (g_a g) = Some a' ->
  let g' := with_queue a' (delete t (g_own g)) g in ghost_ok g' /\ ghost_moves t g g'.
Proof.
  intros Ht Hg [Ho Hx] Hlen Ha g'. destruct (give_block g t x Hg Ho) as (H1 & H2 & H3).
  pose proof (hands_give _ t x Ht Ho) as Hh.
  destruct (g_a g) as [q f fl] eqn:Ea. cbn in Ha, Hx. rewrite Hx in Ha. injection Ha as <-.
  destruct Hg as [G1 G2 G3 G4 G5 G6 G7]. rewrite Ea in *. cbn in *. split; [split; cbn; try done|split; cbn; rewrite ?Ea; try done].
  - lia.
  - by constructor.
  - intros t' Ht'. by rewrite lookup_delete_ne.
  - cbn. by rewrite queue_seen_same.
Qed.

(** The sequencer task takes the next event. *)
Definition received (ev : InputEvents) (rest : list InputEvents) (st : story) : story :=
  Story (st_keys st) (st_pend st) (st_backlog st) rest (st_got st ++ [ev]) (st_leds st).

Lemma ghost_unlink g s x a' : ghost_ok g -> mq_ok mq (g_a g) s -> g_own g !! ts = None -> mqa_do (EvUnlink x) (g_a g) = Some a' ->
  exists ev rest next, events_wf ev /\ let g' := Gh a' (<[ts := x]> (g_own g)) (received ev rest (g_st g)) false in
    holds ts (Some (x, MqMsg next (encode ev))) g' /\ ghost_ok g' /\ ghost_moves ts g g'.
Proof.
  intros Hg Hok Hn Ha. pose proof (listed_not_flying _ _ x Hok) as Hfly.
  destruct (g_a g) as [q f fl] eqn:Ea. cbn in Ha, Hfly. destruct q as [|[y d] q]; [done|].
  case_decide as Ex; [|done]. subst y. injection Ha as <-.
  destruct (take_block g ts x (MqMsg (fst <$> head q) d) Hg) as (H1 & H2 & H3); [rewrite Ea; apply Hfly; set_solver|].
  pose proof (hands_take _ ts x (or_intror eq_refl) Hn) as Hh. destruct Hg as [G1 G2 G3 G4 G5 G6 G7].
  rewrite Ea in *. cbn in *. destruct (st_queue (g_st g)) as [|ev rest] eqn:Eq; [done|]. injection G5 as -> G5.
  apply Forall_cons in G6 as [Hwf G6].
  exists ev, rest, (fst <$> head q). split; [done|]. split; [cbn; by rewrite !lookup_insert_eq|]. split.
  - split; cbn; try done; [lia|]. intros e He. destruct (G7 e He) as [? Hle]. cbn in Hle. split; [done|lia].
  - split; cbn; rewrite ?Ea; try done.
    + intros t' Ht'. by rewrite lookup_insert_ne.
    + intros t' z _ Hy. by eapply H3.
    + cbn. rewrite queue_seen_cons. cbn. by rewrite Eq, decide_True.
Qed.

(** *** Sending *)
Lemma queue_live w : inv w -> exists m ob, k_mqs w.2 !! mq = Some m /\ mq_msg_size m = 20 /\
  ipc_object w.2 mq RT_Object_Class_MessageQueue ob.
Proof.
  intros [_ [(_ & [ob Ho] & m & Hm & _) _ _ Hs _] _ _]. exists m, ob. split; [done|]. split; [|done].
  rewrite Hm in Hs. by injection Hs.
Qed.

(** A section of the input task on the queue. *)
Lemma input_moves keys pend ready b g g' s s' b' keys' pend' ready' :
  inv (g, s) -> known ti (View (LIn keys pend ready) b true) (g, s) -> k_cur s = Some ti ->
  mq_ok mq (g_a g') s' -> mq_frame mq true ti s s' -> ghost_ok g' -> ghost_moves ti g g' -> waiters_ok g' s' -> holds ti b' g' ->
  st_keys (g_st g') = keys' -> st_pend (g_st g') = pend' -> (ready' = true -> may_scan (g_st g')) ->
  inv (g', s') /\ guar ti (g, s) (g', s') /\ known ti (View (LIn keys' pend' ready') b' true) (g', s').
Proof.
  intros Hi Hk Hcur Hok Hf Hg Hm Hw Hb E1 E2 E3.
  destruct (moves ti _ g g' s s' true Hi Hk Hcur Hok Hf Hg Hm Hw) as [Hi' Hgu]; [intros E'; by destruct (proj1 Hdist)|].
  split; [done|]. split; [done|]. split; cbn; [done|done|]. intros _.
  eapply awake_gentle; [done|apply Hf|done|by apply Hk].
Qed.

(** No free block while the input task holds none: the queue has seven or
    more messages. *)
Lemma refused g ev : ghost_ok g -> g_own g !! ti = None -> (forall x, mqa_do (EvAlloc x) (g_a g) = None) ->
  st_pend (g_st g) = Some ev -> may_scan (g_st g).
Proof.
  intros [_ _ G3 _ G5 _ G7] Hn Hd Ep _. rewrite Hn in G3. destruct (G7 ev Ep) as [_ Hle].
  apply (f_equal length) in G5. rewrite !length_fmap in G5.
  destruct (qa_free (g_a g)) as [|[y d] f] eqn:Ef; [|specialize (Hd y); cbn in Hd; rewrite Ef, decide_True in Hd by done; done].
  destruct (g_own g !! ts); cbn in G3; lia.
Qed.

Lemma alloc_task keys ev ready :
  triple_of ti (View (LIn keys (Some ev) ready) None true) (ipc_loop (mq_alloc_section mq (Some ti)) 0)
    (fun r v => match r with
     | inl _ => v = View (LIn keys (Some ev) true) None true
     | inr x => exists b, length (msg_data b) = 20%nat /\ v = View (LIn keys (Some ev) ready) (Some (x, b)) true
     end).
Proof.
  set (v0 := View (LIn keys (Some ev) ready) None true).
  apply (triple_loop _ _ _ _ _ (known_stable ti) (guar_refl ti) _ (fun st v => st = (0, None) /\ v = v0)); [|done].
  intros st v [-> ->]. cbn [fst snd].
  eapply (triple_bind _ _ _ _ _ _ _ _ (fun r v => match r with
     | ipc_done x => exists b, length (msg_data b) = 20%nat /\ v = View (LIn keys (Some ev) ready) (Some (x, b)) true
     | ipc_fail _ => v = View (LIn keys (Some ev) true) None true
     | ipc_wait _ _ _ => False
     end)).
  - apply triple_sec; [apply known_stable|]. intros [g s] Hi Hk Hcur. cbn [snd] in Hcur.
    pose proof (kn_mq _ _ (iv_kernel _ Hi)) as Hok. cbn [fst snd] in Hok. pose proof (iv_ghost _ Hi) as Hg. cbn [fst] in Hg.
    pose proof (kn_local _ _ _ Hk) as (_ & Es & Ep & Er). pose proof (kn_block _ _ _ Hk) as Hn. cbn [fst] in Es, Ep, Er, Hn.
    destruct (mq_alloc_run mq (g_a g) s (Some ti) 0 None Hok) as (rem & r & s' & Hl & Hrun & [(a' & Ha & Hok') Hf Hdry Hend]); [by left|].
    injection Hl as <-.
    specialize (Hf ti (fun t' (E : Some ti = Some t') => eq_sym (Some_inj _ _ E))).
    destruct r as [x|e|t timeout td]; [| |by destruct Hend as (_ & _ & ? & _)].
    + destruct (ghost_alloc g s x a' Hg Hok Hn Ha) as (b & Hlen & Hb & Hg' & Hm).
      destruct (input_moves _ _ _ _ _ (with_queue a' (<[ti := x]> (g_own g)) g) _ s' (Some (x, b)) keys (Some ev) ready Hi Hk Hcur Hok' Hf Hg' Hm) as (H1 & H2 & H3); [|done..|].
      { by apply (waiters_input g _ s s' Hi (mf_gentle _ _ _ _ _ Hf)). }
      exists (ipc_done x), (with_queue a' (<[ti := x]> (g_own g)) g, s'), (View (LIn keys (Some ev) ready) (Some (x, b)) true).
      split; [done|]. split; [done|]. split; [done|]. split; [done|]. by exists b.
    + injection Ha as <-.
      destruct (input_moves _ _ _ _ _ g _ s' None keys (Some ev) true Hi Hk Hcur Hok' Hf Hg (ghost_moves_refl _ _)) as (H1 & H2 & H3);
        [|done..|intros _; by eapply refused|].
      { by apply (waiters_input g _ s s' Hi (mf_gentle _ _ _ _ _ Hf)). }
      eexists (ipc_fail e), (_, s'), _. split; [done|]. split; [exact H1|]. split; [exact H2|]. by split.
  - intros [x|e|] v Hv; [| |done]; (apply triple_ret; [apply known_stable|done]).
Qed.

Lemma fill_task keys ev ready x b : length (msg_data b) = 20%nat ->
  triple_of ti (View (LIn keys (Some ev) ready) (Some (x, b)) true) (atomic (mq_fill mq x (encode ev)))
    (fun _ v => v = View (LIn keys (Some ev) ready) (Some (x, MqMsg None (encode ev))) true).
Proof.
  intros Hlen.
  apply triple_sec; [apply known_stable|]. intros [g s] Hi Hk Hcur. cbn [snd] in Hcur.
  pose proof (kn_mq _ _ (iv_kernel _ Hi)) as Hok. pose proof (iv_ghost _ Hi) as Hg. cbn [fst snd] in Hok, Hg.
  pose proof (kn_local _ _ _ Hk) as (_ & Es & Ep & Er). pose proof (kn_block _ _ _ Hk) as Hb. cbn [fst v_block] in Es, Ep, Er, Hb.
  destruct (mq_fill_ok mq (g_a g) s Hok x (encode ev) b) as (a' & Ha & Hwp); [apply Hb|].
  destruct (ghost_fill g ti x (encode ev) b a' Hg Hb Ha) as (Hb' & Hg' & Hm).
  unfold copy_in in Hb'. rewrite drop_ge, app_nil_r in Hb' by (by rewrite Hlen, encode_length).
  apply wp_inv in Hwp as ([] & s' & Hrun & Hok' & Hf).
  destruct (input_moves _ _ _ _ _ (with_queue a' (g_own g) g) _ s' (Some (x, MqMsg None (encode ev))) keys (Some ev) ready Hi Hk Hcur Hok' (Hf ti) Hg' Hm) as (H1 & H2 & H3);
    [by apply (waiters_input g _ s s' Hi (mf_gentle _ _ _ _ _ (Hf ti)))|exact Hb'|done..|].
  eexists tt, (_, s'), _. split; [done|]. split; [exact H1|]. split; [exact H2|]. by split.
Qed.

Lemma link_task keys ev ready x :
  triple_of ti (View (LIn keys (Some ev) ready) (Some (x, MqMsg None (encode ev))) true) (atomic (mq_link_section mq x))
    (fun _ v => v = View (LIn keys None true) None true).
Proof.
  apply triple_sec; [apply known_stable|]. intros [g s] Hi Hk Hcur. cbn [snd] in Hcur.
  pose proof (kn_mq _ _ (iv_kernel _ Hi)) as Hok. pose proof (iv_ghost _ Hi) as Hg. cbn [fst snd] in Hok, Hg.
  pose proof (kn_local _ _ _ Hk) as (_ & Es & Ep & Er). pose proof (kn_block _ _ _ Hk) as Hb. cbn [fst v_block] in Es, Ep, Er, Hb.
  destruct (mq_link_ok mq (g_a g) s Hok x (encode ev)) as (a' & Ha & Hwp); [apply Hb|].
  destruct (ghost_link g x ev a' Hg Hb Ep Ha) as (Hg' & Hm).
  apply wp_inv in Hwp as (r & s' & Hrun & _ & Hok' & Hf & Hw).
  destruct (input_moves _ _ _ _ _ (Gh a' _ _ _) _ s' None keys None true Hi Hk Hcur Hok' (Hf ti) Hg' Hm) as (H1 & H2 & H3);
    [by eapply waiters_link|cbn; by rewrite lookup_delete_eq|done|done|by intros _ [? [=]]|].
  eexists r, (_, s'), _. split; [done|]. split; [exact H1|]. split; [exact H2|]. by split.
Qed.

Lemma send_task keys ev ready :
  triple_of ti (View (LIn keys (Some ev) ready) None true) (inputQueueSend mq ev)
    (fun _ v => exists pend, v = View (LIn keys pend true) None true).
Proof.
  unfold inputQueueSend. eapply triple_bind; [|intros r v Hv; apply triple_ret; [apply known_stable|exact Hv]].
  unfold rt_mq_send, rt_mq_send_wait. rewrite encode_length.
  eapply (triple_bind _ _ _ _ _ _ _ _ (fun m v => mq_msg_size m = 20 /\ v = View (LIn keys (Some ev) ready) None true)).
  { apply triple_read; [apply known_stable|apply guar_refl|]. intros w Hi Hk Hcur.
    destruct (queue_live w Hi) as (m & ob & Hm & Hs & Ho). exists m. split; [|done].
    erewrite run_bind by (by eapply ipc_assert_run). erewrite run_bind by done. by apply get_mq_run. }
  intros m v [-> ->]. cbn [Z.ltb]. change (20 <? Z.of_nat 20) with false. cbv iota.
  eapply triple_bind; [apply self_task|]. intros th v [-> ->].
  eapply triple_bind; [apply alloc_task|]. intros [e|x] v Hv.
  { apply triple_ret; [apply known_stable|]. by eexists. }
  destruct Hv as (b & Hlen & ->).
  eapply triple_bind; [by apply fill_task|]. intros [] v ->.
  eapply triple_bind; [apply link_task|]. intros [e need] v ->. eapply triple_weaken; [apply known_stable| |apply schedule_if_task].
  intros r v [_ ->]. by eexists.
Qed.

(** ** The input task *)

(** What is known more. *)
Lemma triple_from {A} t v v' (p : proc A) Q : (forall w, inv w -> known t v w -> known t v' w) -> triple_of t v' p Q -> triple_of t v p Q.
Proof. intros Hv Hp n w Hi Hk. apply Hp; auto. Qed.

Lemma led_copy_task keys pend n i led_data : (i + n = KB_CHAIN_LENGTH)%nat -> length led_data = KB_CHAIN_LENGTH ->
  triple_of ti (View (LCopy keys pend (take i led_data)) None true) (led_copy kb n i led_data)
    (fun led v => length led = KB_CHAIN_LENGTH /\ v = View (LCopy keys pend led) None true).
Proof.
  revert i led_data. induction n as [|n IH]; intros i led_data Hi Hlen; cbn [led_copy].
  { apply triple_ret; [apply known_stable|]. split; [done|]. by rewrite take_ge by lia. }
  eapply (triple_bind _ _ _ _ _ _ _ _ (fun led v => length led = KB_CHAIN_LENGTH /\ v = View (LCopy keys pend (take (S i) led)) None true)).
  - apply triple_sec; [apply known_stable|]. intros [g s] Hiv Hk _. pose proof (iv_led _ Hiv) as (l & El & Elast & Hl & _).
    cbn [fst snd] in *.
    destruct (lookup_lt_is_Some_2 l i) as [b Hb]; [unfold KB_CHAIN_LENGTH in *; lia|].
    set (led := <[i := b]> led_data). exists led, (g, s), (View (LCopy keys pend (take (S i) led)) None true). split.
    { erewrite run_bind by (by unfold get_mem; rewrite El). erewrite run_bind by (by unfold aget; rewrite Hb).
      unfold aset. by rewrite (proj2 (Nat.ltb_lt _ _)) by lia. }
    split; [done|]. split; [apply guar_refl|]. split; [|split; [by unfold led; rewrite length_insert|done]].
    destruct Hk as [(H1 & H2 & H3 & H4 & Himg) Hk2 Hk3]. split; [|done|done]. repeat (split; [done|]).
    intros j b' [Hj Hlt]%lookup_take_Some. unfold led in Hj. destruct (decide (j = i)) as [->|Hne].
    + rewrite list_lookup_insert_eq in Hj by lia. injection Hj as <-. exists l. split; [by apply last_Some_elem_of|done].
    + rewrite list_lookup_insert_ne in Hj by done. apply Himg. apply lookup_take_Some. split; [done|lia].
  - intros led v [Hled ->]. apply IH; [lia|done].
Qed.

Lemma buttons_of_bytes n sent : chain_bytes (buttons_of (spi n sent)).
Proof.
  unfold buttons_of. destruct (spi n sent) as [r|] eqn:E.
  - destruct (Hspi _ _ _ E) as [Hl Hb]. split; [by rewrite length_fmap|]. apply Forall_fmap. eapply Forall_impl; [done|].
    cbv beta. unfold compose. change (2 ^ 8) with 256. intros b Hb'. lia.
  - split; [done|]. repeat (constructor; [lia|]). constructor.
Qed.

Lemma changed_range a p : 0 <= a < 2 ^ 8 -> 0 <= changed a p < 2 ^ 8.
Proof. unfold changed. case_match; lia. Qed.

Lemma scan_events_wf a0 a1 p0 p1 : 0 <= a0 < 2 ^ 8 -> 0 <= a1 < 2 ^ 8 -> 0 <= p0 < 2 ^ 8 -> 0 <= p1 < 2 ^ 8 ->
  events_wf {| button_events := scan_events a0 a1 p0 p1; enc_button := 0; enc_rotation := 0 |}.
Proof.
  intros ????. unfold events_wf, data_wf, scan_events.
  cbn [button_events is_held just_pressed just_released main_row function enc_button enc_rotation].
  rewrite <- !row_ldiff by done.
  repeat split; try lia; apply row_range; first [by apply changed_range|by apply ldiff_range].
Qed.

(** A state with another log of the shift registers. *)
Definition with_chain (c : list (list Z * option (list Z))) (s : kst) : kst := set_k_drv (set_dr_chain c (k_drv s)) s.

(** The scan the story tells. *)
Definition scanned (a0 a1 : Z) (st : story) : story :=
  Story (a0, a1) (edges (st_keys st) a0 a1) (length (st_queue st)) (st_queue st) (st_got st)
    (drop (length (st_leds st) - 1) (st_leds st)).

Definition key_bytes (p : Z * Z) : Prop := 0 <= p.1 < 2 ^ 8 /\ 0 <= p.2 < 2 ^ 8.

Lemma scanned_ok g a0 a1 : ghost_ok g -> key_bytes (st_keys (g_st g)) -> key_bytes (a0, a1) ->
  ghost_ok (Gh (g_a g) (g_own g) (scanned a0 a1 (g_st g)) (g_idle g)).
Proof.
  intros [G1 G2 G3 G4 G5 G6 G7] [Hp0 Hp1] [Ha0 Ha1]. split; cbn; try done. unfold edges. intros ev.
  case_match; [done|]. intros [= <-]. split; [by apply scan_events_wf|lia].
Qed.

Lemma tell_scanned sent answer a0 a1 a2 st : buttons_of answer = [a0; a1; a2] -> may_scan st -> shown (st_leds st) sent = true ->
  tell (Scanned sent answer) st = Some (scanned a0 a1 st).
Proof.
  intros E Hm Hsh. cbn [tell]. rewrite E, Hsh. destruct (st_pend st) as [ev|] eqn:Ep; [|done].
  rewrite (proj2 (Nat.leb_le _ _)); [done|]. apply Hm. rewrite Ep. by eexists.
Qed.

Lemma last_drop {A} (l : list A) : last (drop (length l - 1) l) = last l.
Proof.
  destruct l as [|x l] using rev_ind; [done|]. rewrite length_app. cbn [length].
  replace (length l + 1 - 1)%nat with (length l) by lia. by rewrite drop_app_length, last_snoc.
Qed.

Lemma transfer_task keys pend led buttons : length led = KB_CHAIN_LENGTH -> length buttons = KB_CHAIN_LENGTH -> key_bytes keys ->
  triple_of ti (View (LCopy keys pend led) None true) (atomic (chain_transfer spi led buttons))
    (fun r v => exists a0 a1 a2, snd r = [a0; a1; a2] /\ chain_bytes [a0; a1; a2] /\
       v = View (LIn (a0, a1) (edges keys a0 a1) (if edges keys a0 a1 then false else true)) None true).
Proof.
  intros Hled Hlen Hkb. apply triple_sec; [apply known_stable|]. intros [g s] Hi Hk Hcur. cbn [snd] in Hcur.
  pose proof (kn_local _ _ _ Hk) as (_ & Es & Ep & Er & Himg). cbn [fst] in Es, Ep, Er, Himg.
  set (c := dr_chain (k_drv s)). set (sent := take KB_CHAIN_LENGTH led). set (answer := spi (length c) sent).
  pose proof (buttons_of_bytes (length c) sent) as Hbytes. fold answer in Hbytes.
  destruct (buttons_of answer) as [|a0 [|a1 [|a2 [|]]]] eqn:Eb; try (by destruct Hbytes).
  assert (key_bytes (a0, a1)) as Hab by (destruct Hbytes as [_ Hb]; rewrite !Forall_cons in Hb; by destruct Hb as (? & ? & _)).
  assert (exists log, chain_transfer spi led buttons s = Ok (log, [a0; a1; a2]) (with_chain (c ++ [(sent, answer)]) s)) as [log Hrun].
  { unfold chain_transfer. erewrite run_bind by done. fold c. rewrite kbTransferData_run by (done || apply Hspi).
    fold sent answer. rewrite <- Eb. unfold buttons_of. by destruct answer; eexists. }
  set (g' := Gh (g_a g) (g_own g) (scanned a0 a1 (g_st g)) (g_idle g)).
  exists (log, [a0; a1; a2]), (g', with_chain (c ++ [(sent, answer)]) s), (View (LIn (a0, a1) (edges keys a0 a1) (if edges keys a0 a1 then false else true)) None true).
  split; [exact Hrun|]. destruct Hi as [Hg [K1 K2 K3 K4 K5] Hl Hw]. cbn [fst snd] in *.
  assert (mq_ok mq (g_a g) (with_chain (c ++ [(sent, answer)]) s)) as K1'.
  { apply (mq_ok_same (g_a g) s); [done|split; [|apply K1..]|apply objs_step_refl|done].
    unfold kinv. cbn [with_chain k_tick set_k_drv]. apply (kinv_ext _ s); try done; apply K1. }
  split; [split; cbn [fst snd]; [|by split| |done]|split; [split|split]].
  - apply scanned_ok; [done|by rewrite Es|done].
  - destruct Hl as (l & E1 & E2 & E3). exists l. split; [done|]. split; [|done]. cbn. by rewrite last_drop.
  - intros t' Hne. split; cbn; auto; [by intros ->|]. intros _. repeat (split; [done|]). by intros e.
  - unfold told, observe. cbn [fst snd]. rewrite (contents_ok _ _ _ K1), (contents_ok _ _ _ K1'), queue_seen_same, leds_seen_same.
    change (dr_chain (k_drv (with_chain (c ++ [(sent, answer)]) s))) with (c ++ [(sent, answer)]). fold c.
    rewrite chain_seen_snoc. change ((h ← tell (Scanned sent answer) (g_st g); Some h) = Some (g_st g')).
    rewrite (tell_scanned sent answer a0 a1 a2); [done|done|done|].
    unfold sent. rewrite take_ge by lia. by apply shown_ok.
  - split; cbn; [|apply Hk|].
    + rewrite Es. split; [done|]. split; [done|]. split; [done|]. unfold may_scan. cbn. rewrite Es.
      destruct (edges keys a0 a1); [done|]. by intros _ [? [=]].
    + intros _. by apply Hk.
  - by exists a0, a1, a2.
Qed.

(** What [kbParseButtons] makes of the buttons is the event of the story. *)
Lemma parse_ok a0 a1 a2 p0 p1 p2 ev : chain_bytes [a0; a1; a2] -> chain_bytes [p0; p1; p2] ->
  enc_button ev = 0 -> enc_rotation ev = 0 ->
  exists upd prevs' ev', kbParseButtons [a0; a1; a2] [p0; p1; p2] ev = Some (upd, prevs', ev') /\
    prevs' = [a0; a1; p2] /\ chain_bytes prevs' /\ enc_button ev' = 0 /\ enc_rotation ev' = 0 /\
    edges (p0, p1) a0 a1 = (if upd =? 0 then None else Some ev').
Proof.
  intros Ha Hp He Hn. rewrite (kbParseButtons_spec' a0 a1 a2 p0 p1 p2 ev) by done. unfold edges. cbn [fst snd].
  assert (chain_bytes [a0; a1; p2]) as Hc.
  { destruct Ha as [? Ha], Hp as [? Hp]. split; [done|]. rewrite !Forall_cons in *. tauto. }
  destruct ((a0 =? p0) && (a1 =? p1)) eqn:E; eexists _, _, _; (split; [done|]).
  - apply andb_true_iff in E as [->%Z.eqb_eq ->%Z.eqb_eq]. done.
  - rewrite He, Hn. done.
Qed.

(** The loop's invariant. *)
Definition input_inv (v : input_vars) (w : view) : Prop :=
  exists p0 p1 p2 pend, w = View (LIn (p0, p1) pend true) None true /\ in_prev v = [p0; p1; p2] /\ chain_bytes [p0; p1; p2] /\
    enc_button (in_events v) = 0 /\ enc_rotation (in_events v) = 0 /\
    length (in_led v) = KB_CHAIN_LENGTH /\ length (in_buttons v) = KB_CHAIN_LENGTH.

Lemma chain_key_bytes p0 p1 p2 : chain_bytes [p0; p1; p2] -> key_bytes (p0, p1).
Proof. intros [_ Hb]. rewrite !Forall_cons in Hb. by destruct Hb as (? & ? & _). Qed.

Lemma input_round_task delay v w : delay < HALF_TICK -> input_inv v w ->
  triple_of ti w (input_round mq kb spi delay v) input_inv.
Proof.
  intros Hdelay (p0 & p1 & p2 & pend & -> & Hprev & Hp & He & Hn & Hled & Hbut). unfold input_round.
  apply (triple_from _ _ (View (LCopy (p0, p1) pend (take 0 (in_led v))) None true)).
  { intros w _ [(H1 & H2 & H3 & H4) H5 H6]. split; [|done|done]. repeat (split; [done|]). split; [by apply H4|]. by intros i b. }
  eapply triple_bind; [by apply led_copy_task|]. intros led w [Hled' ->].
  eapply triple_bind; [apply transfer_task; [done|done|by eapply chain_key_bytes]|].
  intros [log buttons] w (a0 & a1 & a2 & Eb & Ha & ->). cbn [snd] in *. subst buttons. rewrite Hprev.
  destruct (parse_ok a0 a1 a2 p0 p1 p2 (in_events v) Ha Hp He Hn) as (upd & prevs & ev & Hrun & Ev & Hc & He' & Hn' & Ee).
  set (v1 := View (LIn (a0, a1) (edges (p0, p1) a0 a1) (if edges (p0, p1) a0 a1 then false else true)) None true).
  apply (triple_bind _ _ _ _ _ _ _ _ (fun p w => p = (upd, prevs, ev) /\ w = v1)).
  { apply triple_read; [apply known_stable|apply guar_refl|]. intros w _ _ _. exists (upd, prevs, ev). by rewrite Hrun. }
  intros p w [-> ->]. unfold encUpdate.
  assert (triple_of ti v1
    ((if negb (upd =? 0) || negb (0 =? 0) then inputQueueSend mq ev else Ret tt) ~;
     d <~ rt_thread_delay_until (in_tick v) delay;
     Ret (InputVars (snd d) ev [a0; a1; a2] led prevs))%proc input_inv) as H by
    (apply (triple_bind _ _ _ _ _ _ _ _ (fun _ w => exists pend', w = View (LIn (a0, a1) pend' true) None true));
     [unfold v1; rewrite Ee; destruct (upd =? 0); cbn [negb orb];
       [apply triple_ret; [apply known_stable|by eexists]|apply send_task]|];
     intros [] w (pend' & ->); eapply triple_bind; [by apply delay_until_task|]; intros d w ->;
     apply triple_ret; [apply known_stable|]; exists a0, a1, p2, pend'; cbn; subst prevs; done).
  destruct (upd =? 0); exact H.
Qed.

Lemma input_task : triple_of ti (View (LIn (0, 0) None true) None true) (inputTaskEntry mq kb spi) (fun _ _ => True).
Proof.
  unfold inputTaskEntry. apply (triple_bind _ _ _ _ _ _ _ _ (fun _ w => w = View (LIn (0, 0) None true) None true)).
  { apply triple_read; [apply known_stable|apply guar_refl|]. intros [g s] _ _ _. by exists (k_tick s). }
  intros tick w ->. apply (triple_loop _ _ _ _ _ (known_stable ti) (guar_refl ti) _ input_inv).
  - intros v w Hv. eapply triple_bind; [apply input_round_task; [by vm_compute|done]|]. intros v' w' Hv'.
    by apply triple_ret; [apply known_stable|].
  - exists 0, 0, 0, None. split; [done|]. split; [done|]. split; [|done]. split; [done|].
    repeat (constructor; [lia|]). constructor.
Qed.

(** ** The sequencer task *)

(** A section of the sequencer task on the queue. *)
Lemma seq_moves got idle led wk b g g' s s' b' got' idle' :
  inv (g, s) -> known ts (View (LSeq got idle led wk) b true) (g, s) -> k_cur s = Some ts ->
  mq_ok mq (g_a g') s' -> mq_frame mq true ts s s' -> ghost_ok g' -> ghost_moves ts g g' -> holds ts b' g' ->
  st_got (g_st g') = got' -> g_idle g' = idle' -> (idle' = true -> idle = true /\ got' = got) ->
  inv (g', s') /\ guar ts (g, s) (g', s') /\ known ts (View (LSeq got' idle' led false) b' true) (g', s').
Proof.
  intros Hi Hk Hcur Hok Hf Hg Hm Hb E1 E2 Hid. pose proof (kn_local _ _ _ Hk) as (_ & Eg & Ei & El & _).
  cbn [fst snd] in Eg, Ei, El.
  destruct (moves ts _ g g' s s' true Hi Hk Hcur Hok Hf Hg Hm) as [Hi' Hgu].
  { eapply waiters_seq; [done|done|by apply Hk|apply Hf]. }
  { intros _. split; [by left|]. rewrite E1, E2, Eg, Ei. done. }
  split; [done|]. split; [done|]. split; cbn; [|done|].
  - rewrite (gn_mem _ _ _ _ (mf_gentle _ _ _ _ _ Hf)). done.
  - intros _. eapply awake_gentle; [done|apply Hf|done|by apply Hk].
Qed.

(** The first section of a receive, with the LEDs up to date. *)
Lemma enter_task got led wk : led_row led = Some (xor_pressed got) ->
  triple_of ts (View (LSeq got false led wk) None true)
    (atomic (assert_type mq RT_Object_Class_MessageQueue;; RT_ASSERT (negb (SIZEOF_INPUT_EVENTS =? 0));; rt_thread_self))
    (fun r v => r = Some ts /\ v = View (LSeq got true led false) None true).
Proof.
  intros Hrow. apply triple_sec; [apply known_stable|]. intros [g s] Hi Hk Hcur. cbn [snd] in Hcur.
  destruct (queue_live _ Hi) as (m & ob & _ & _ & Ho). cbn [snd] in Ho.
  pose proof (kn_local _ _ _ Hk) as (_ & Eg & _ & El & _). pose proof (kn_block _ _ _ Hk) as Hb. cbn [fst snd] in Eg, El, Hb.
  set (g' := Gh (g_a g) (g_own g) (g_st g) true). exists (Some ts), (g', s), (View (LSeq got true led false) None true).
  cbn [snd]. split.
  { erewrite run_bind by (by eapply ipc_assert_run). erewrite run_bind by done. unfold rt_thread_self, gets. by rewrite Hcur. }
  assert (waiters_ok g' s) as Hw.
  { intros x Hx. exfalso. apply (no_waiters g s x Hi Hcur); [by apply Hk|done]. }
  destruct Hi as [[G1 G2 G3 G4 G5 G6 G7] Hkn (l & E & Elast & Hl & _) _]. cbn [fst snd] in *.
  split; [split; [by split|done| |done]|split; [split|split; [|done]]].
  - exists l. split; [done|]. split; [done|]. split; [done|]. intros _. cbn. rewrite Eg. by assert (l = led) as -> by congruence.
  - intros t' Hne. split; cbn; auto; [|by intros ->]. intros _. repeat (split; [done|]). exists []. by rewrite app_nil_r.
  - apply told_queue; [apply Hkn|apply Hkn|done|done|]. by rewrite queue_seen_same.
  - split; [by cbn|done|apply Hk].
Qed.

(** The sequencer starts to wait, for the queue is empty. *)
Lemma waiters_wait g s s' : inv (g, s) -> k_cur s = Some ts -> awake ts s -> gentle false ts s s' -> g_idle g = true ->
  (forall x, mqa_do (EvUnlink x) (g_a g) = None) -> waiters_ok g s'.
Proof.
  intros Hi Hcur Ha Hf Hid Hdry x Hx. destruct (decide (x = ts)) as [->|Hne].
  - split; [done|]. split; [done|]. pose proof (gh_fifo _ (iv_ghost _ Hi)) as E. cbn [fst] in E.
    destruct (qa_queue (g_a g)) as [|[y d] q] eqn:Eq; [by destruct (st_queue (g_st g))|].
    specialize (Hdry y). cbn in Hdry. by rewrite Eq, decide_True in Hdry.
  - exfalso. apply (no_waiters g s x Hi Hcur Ha). apply (gn_queues _ _ _ _ Hf _ x); [done|by left|done].
Qed.

Lemma unlink_task got led :
  triple_of ts (View (LSeq got true led false) None true) (ipc_loop (mq_unlink_section mq (Some ts)) RT_WAITING_FOREVER)
    (fun r v => exists x ev next, r = inr x /\ events_wf ev /\
       v = View (LSeq (got ++ [ev]) false led false) (Some (x, MqMsg next (encode ev))) true).
Proof.
  apply (triple_loop _ _ _ _ _ (known_stable ts) (guar_refl ts) _
    (fun st v => fst st = RT_WAITING_FOREVER /\ exists wk, v = View (LSeq got true led wk) None true)); [|split; [done|by eexists]].
  intros [timeout since] v [Ht [wk ->]]. cbn [fst snd] in *. subst timeout.
  apply (triple_bind _ _ _ _ _ _ _ _ (fun r v => match r with
     | ipc_done x => exists ev next, events_wf ev /\ v = View (LSeq (got ++ [ev]) false led false) (Some (x, MqMsg next (encode ev))) true
     | ipc_fail _ => False
     | ipc_wait t timeout _ => t = ts /\ timeout = RT_WAITING_FOREVER /\ v = View (LSeq got true led true) None false
     end)).
  - apply triple_sec; [apply known_stable|]. intros [g s] Hi Hk Hcur. cbn [snd] in Hcur.
    pose proof (kn_mq _ _ (iv_kernel _ Hi)) as Hok. pose proof (iv_ghost _ Hi) as Hg. cbn [fst snd] in Hok, Hg.
    pose proof (kn_local _ _ _ Hk) as (_ & Eg & Ei & El & _). pose proof (kn_block _ _ _ Hk) as Hn. cbn [fst snd] in Eg, Ei, El, Hn.
    assert (caller s (Some ts) RT_WAITING_FOREVER since) as Hcl.
    { eapply task_caller; [done|exact Hk|done|done|]. by destruct since. }
    destruct (mq_unlink_run mq (g_a g) s (Some ts) _ since Hok Hcl) as (rem & r & s' & Hl & Hrun & [(a' & Ha & Hok') Hf Hdry Hend]).
    assert (rem = RT_WAITING_FOREVER) as -> by (destruct since; by injection Hl).
    specialize (Hf ts (fun t' (E : Some ts = Some t') => eq_sym (Some_inj _ _ E))). destruct r as [x|e|t timeout td]; [|done|].
    + destruct (ghost_unlink g s x a' Hg Hok Hn Ha) as (ev & rest & next & Hwf & Hb & Hg' & Hm).
      destruct (seq_moves _ _ _ _ _ _ (Gh a' (<[ts := x]> (g_own g)) (received ev rest (g_st g)) false) _ _ _ (got ++ [ev]) false
        Hi Hk Hcur Hok' Hf Hg' Hm Hb) as (H1 & H2 & H3); [cbn; by rewrite Eg|done|done|].
      eexists (ipc_done x), (_, s'), _. split; [done|]. split; [exact H1|]. split; [exact H2|]. split; [exact H3|]. eauto.
    + destruct Hend as ([= <-] & -> & _ & He & Hlist). injection Ha as <-.
      destruct (moves_quiet ts _ None true g s s' false Hi Hk Hcur Hok' Hf) as [H1 H2].
      { eapply waiters_wait; [done|done|by apply Hk|apply Hf|done|done]. }
      { intros _. right. by apply Hlist. }
      exists (ipc_wait ts RT_WAITING_FOREVER td), (g, s'), (View (LSeq got true led true) None false).
      split; [done|]. split; [done|]. split; [done|]. split; [|done].
      split; cbn; [|done|done]. by rewrite (gn_mem _ _ _ _ (mf_gentle _ _ _ _ _ Hf)).
  - intros [x|e|t timeout td] v Hv; [|done|].
    + destruct Hv as (ev & next & Hwf & ->). apply triple_ret; [apply known_stable|]. eauto 10.
    + destruct Hv as (-> & -> & ->). eapply triple_bind; [apply schedule_task|]. intros [] v ->.
      eapply (triple_bind _ _ _ _ _ _ _ _ (fun e v => e = RT_EOK /\ v = View (LSeq got true led true) None true)).
      * apply triple_read; [apply known_stable|apply guar_refl|]. intros [g s] Hi Hk Hcur.
        pose proof (kn_local _ _ _ Hk) as (_ & _ & _ & _ & He). specialize (He eq_refl). cbn [snd] in *.
        destruct (k_threads s !! ts) as [th|] eqn:E; [|done]. exists RT_EOK. split; [|done].
        unfold wait_result. erewrite run_bind by (by apply get_thread_run). by injection He as ->.
      * intros e v [-> ->]. apply triple_ret; [apply known_stable|]. split; [done|by eexists].
Qed.

Lemma copy_task got led x next ev :
  let v := View (LSeq got false led false) (Some (x, MqMsg next (encode ev))) true in
  triple_of ts v (atomic (mq_copy_out mq x SIZEOF_INPUT_EVENTS)) (fun bytes v' => bytes = encode ev /\ v' = v).
Proof.
  intros v. apply triple_read; [apply known_stable|apply guar_refl|]. intros w Hi Hk _.
  destruct (queue_live w Hi) as (m & ob & Hm & Hs & _). pose proof (kn_mq _ _ (iv_kernel _ Hi)) as Hok.
  exists (encode ev). split; [|done]. rewrite (mq_copy_ok mq _ _ Hok x _ _ m (proj2 (kn_block _ _ _ Hk)) Hm).
  by rewrite Hs.
Qed.

Lemma free_task got led x next ev :
  triple_of ts (View (LSeq got false led false) (Some (x, MqMsg next (encode ev))) true) (atomic (mq_free_section mq x))
    (fun _ v => v = View (LSeq got false led false) None true).
Proof.
  apply triple_sec; [apply known_stable|]. intros [g s] Hi Hk Hcur. cbn [snd] in Hcur.
  pose proof (kn_mq _ _ (iv_kernel _ Hi)) as Hok. pose proof (iv_ghost _ Hi) as Hg. cbn [fst snd] in Hok, Hg.
  pose proof (kn_local _ _ _ Hk) as (_ & Eg & Ei & _). pose proof (kn_block _ _ _ Hk) as Hb. cbn [fst v_block] in Eg, Ei, Hb.
  destruct (mq_free_ok mq (g_a g) s Hok x (MqMsg next (encode ev))) as (a' & Ha & Hwp); [apply Hb|].
  destruct (ghost_free g ts x _ a' (or_intror eq_refl) Hg Hb (encode_length ev) Ha) as (Hg' & Hm).
  apply wp_inv in Hwp as (need & s' & Hrun & Hok' & Hf).
  destruct (seq_moves _ _ _ _ _ _ (with_queue a' (delete ts (g_own g)) g) _ _ None got false Hi Hk Hcur Hok' (Hf ts) Hg' Hm)
    as (H1 & H2 & H3); [cbn; by rewrite lookup_delete_eq|done..|].
  eexists need, (_, s'), _. split; [done|]. split; [exact H1|]. split; [exact H2|]. by split.
Qed.

Lemma receive_task got led wk bytes : led_row led = Some (xor_pressed got) -> length bytes = 20%nat ->
  triple_of ts (View (LSeq got false led wk) None true) (seqInputQueueGet mq bytes)
    (fun r v => exists ev, events_wf ev /\ r = encode ev /\ v = View (LSeq (got ++ [ev]) false led false) None true).
Proof.
  intros Hrow Hlen. unfold seqInputQueueGet.
  eapply (triple_bind _ _ _ _ _ _ _ _ (fun r v => exists ev, events_wf ev /\ snd r = encode ev /\
    v = View (LSeq (got ++ [ev]) false led false) None true)).
  - unfold rt_mq_recv. eapply triple_bind; [by apply enter_task|]. intros th v [-> ->].
    eapply triple_bind; [apply unlink_task|]. intros r v (x & ev & next & -> & Hwf & ->).
    eapply triple_bind; [apply copy_task|]. intros b v [-> ->].
    eapply triple_bind; [apply free_task|]. intros need v ->.
    eapply triple_weaken; [apply known_stable| |apply schedule_if_task]. intros r v [-> ->]. by exists ev.
  - intros r v (ev & Hwf & Er & ->). apply triple_ret; [apply known_stable|]. exists ev.
    split; [done|]. split; [|done]. unfold copy_in. by rewrite Er, drop_ge, app_nil_r by (by rewrite encode_length, Hlen).
Qed.

(** The LED array changes from [l] to [l'], if it does. *)
Definition redrawn (l l' : list Z) (st : story) : story :=
  if decide (Some l' = Some l) then st
  else Story (st_keys st) (st_pend st) (st_backlog st) (st_queue st) (st_got st) (st_leds st ++ [l']).

Lemma redrawn_fields l l' st : st_keys (redrawn l l' st) = st_keys st /\ st_pend (redrawn l l' st) = st_pend st /\
  st_backlog (redrawn l l' st) = st_backlog st /\ st_queue (redrawn l l' st) = st_queue st /\
  st_got (redrawn l l' st) = st_got st /\ (last (st_leds st) = Some l -> last (st_leds (redrawn l l' st)) = Some l') /\
  exists more, st_leds (redrawn l l' st) = st_leds st ++ more.
Proof.
  unfold redrawn. case_decide as E; cbn; repeat (split; [done|]).
  - split; [congruence|]. exists []. by rewrite app_nil_r.
  - split; [by rewrite last_snoc|eauto].
Qed.

Lemma tell_redrawn l l' st : tells tell (leds_seen (Some l) (Some l')) st = Some (redrawn l l' st).
Proof. unfold leds_seen, redrawn. by case_decide. Qed.

(** A section that redraws the LED array. *)
Lemma led_section got led wk (m : K unit) led' : length led' = 3%nat ->
  (forall s, k_mem s !! kb = Some led -> m s = Ok tt (set_k_mem (<[kb := led']> (k_mem s)) s)) ->
  triple_of ts (View (LSeq got false led wk) None true) (atomic m)
    (fun _ v => v = View (LSeq got false led' wk) None true).
Proof.
  intros Hlen Hm. apply triple_sec; [apply known_stable|]. intros [g s] Hi Hk Hcur. cbn [snd] in Hcur.
  pose proof (kn_local _ _ _ Hk) as (_ & Eg & Ei & El & He). pose proof (kn_block _ _ _ Hk) as Hb. cbn [fst snd] in Eg, Ei, El, He, Hb.
  set (s' := set_k_mem (<[kb := led']> (k_mem s)) s).
  assert (waiters_ok g s') as Hw.
  { intros x Hx. exfalso. apply (no_waiters g s x Hi Hcur); [by apply Hk|exact Hx]. }
  destruct Hi as [Hg [K1 K2 K3 K4 K5] (l & El' & Elast & _) _]. cbn [fst snd] in *. assert (l = led) as -> by congruence.
  set (g' := Gh (g_a g) (g_own g) (redrawn led led' (g_st g)) (g_idle g)).
  exists tt, (g', s'), (View (LSeq got false led' wk) None true). split; [by apply Hm|].
  assert (mq_ok mq (g_a g) s') as K1'.
  { apply (mq_ok_same (g_a g) s); [done|split; [|apply K1..]|apply objs_step_refl|done].
    unfold kinv. cbn [snd s' k_tick set_k_mem]. apply (kinv_ext _ s); try done; apply K1. }
  destruct (redrawn_fields led led' (g_st g)) as (R1 & R2 & R3 & R4 & R5 & R6 & more & R7).
  split; [split; cbn [fst snd]; [|by split| |]|split; [split|split; [|done]]].
  - destruct Hg as [G1 G2 G3 G4 G5 G6 G7]. split; cbn; try done; [by rewrite R4|by rewrite R4|]. rewrite R2, R3, R4. exact G7.
  - exists led'. cbn. rewrite lookup_insert_eq, R6 by done. repeat (split; [done|]). by rewrite Ei.
  - intros x Hx. cbn. rewrite R4. exact (Hw x Hx).
  - intros t' Hne. split; cbn; auto; [|by intros ->]. intros _. rewrite R1, R2, R3, R7. eauto.
  - unfold told, observe. cbn [fst snd]. rewrite (contents_ok _ _ _ K1), (contents_ok _ _ _ K1').
    change (dr_chain (k_drv s')) with (dr_chain (k_drv s)). rewrite chain_seen_same, queue_seen_same.
    change (k_mem s' !! kb) with (<[kb := led']> (k_mem s) !! kb). rewrite lookup_insert_eq, El. apply tell_redrawn.
  - split; cbn; [|done|apply Hk]. by rewrite lookup_insert_eq, R5.
Qed.

(** *** Drawing *)
Lemma led_or_run seq st i j led b : plain_page seq st -> (i < 2)%nat -> (j < 8)%nat -> length led = 3%nat ->
  led !! (i + 1)%nat = Some b -> exists b', led_or led seq st i j = Some (<[(i + 1)%nat := b']> led).
Proof.
  intros Hp Hi Hj Hlen Hb. unfold led_or. rewrite plain_type by (done || lia). cbn [mbind option_bind].
  unfold aget, aset. rewrite Hb. cbn [mbind option_bind].
  rewrite (proj2 (Nat.ltb_lt _ _)) by lia. eauto.
Qed.

Lemma draw_inner_task got wk seq st i n : plain_page seq st -> (i < 2)%nat -> forall j led,
  (j + n <= 8)%nat -> length led = 3%nat ->
  triple_of ts (View (LSeq got false led wk) None true) (draw_inner kb n j seq st i)
    (fun _ v => exists led', led_inner n j led seq st i = Some led' /\ length led' = 3%nat /\
       v = View (LSeq got false led' wk) None true).
Proof.
  intros Hp Hi. induction n as [|n IH]; intros j led Hj Hlen; cbn [draw_inner led_inner].
  { apply triple_ret; [apply known_stable|]. by exists led. }
  destruct (lookup_lt_is_Some_2 led (i + 1)) as [b Hb]; [lia|].
  destruct (led_or_run seq st i j led b) as [b' Hor]; [done|done|lia|done..|]. rewrite Hor.
  eapply triple_bind; [apply (led_section _ _ _ _ (<[(i + 1)%nat := b']> led)); [by rewrite length_insert|]|].
  - intros s Hs. unfold get_mem. erewrite run_bind by (by rewrite Hs). rewrite Hor. by erewrite run_bind by done.
  - intros [] v ->. apply IH; [lia|by rewrite length_insert].
Qed.

Lemma draw_outer_task got wk seq st n : plain_page seq st -> forall i led,
  (i + n <= 2)%nat -> length led = 3%nat ->
  triple_of ts (View (LSeq got false led wk) None true) (draw_outer kb n i seq st)
    (fun _ v => exists led', led_outer n i led seq st = Some led' /\ v = View (LSeq got false led' wk) None true).
Proof.
  intros Hp. induction n as [|n IH]; intros i led Hi Hlen; cbn [draw_outer led_outer].
  { apply triple_ret; [apply known_stable|]. by exists led. }
  eapply triple_bind; [apply draw_inner_task; [done|lia|lia|done]|].
  intros [] v (led' & E & Hlen' & ->). rewrite E. apply IH; [lia|done].
Qed.

Lemma draw_task got wk seq st led : plain_page seq st -> length led = 3%nat ->
  triple_of ts (View (LSeq got false led wk) None true) (led_draw kb seq st)
    (fun _ v => exists led', kbLEDDataSend led seq st = Some led' /\ v = View (LSeq got false led' wk) None true).
Proof.
  intros Hp Hlen. unfold led_draw, kbLEDDataSend.
  eapply triple_bind; [apply (led_section _ _ _ _ (replicate KB_CHAIN_LENGTH 0 ++ drop KB_CHAIN_LENGTH led))|].
  - by rewrite length_app, length_drop, length_replicate, Hlen.
  - intros s Hs. unfold led_clear, get_mem. erewrite run_bind by (by rewrite Hs). by rewrite Hlen.
  - intros [] v ->. rewrite Hlen, Nat.leb_refl. apply draw_outer_task; [done|lia|].
    by rewrite length_app, length_drop, length_replicate, Hlen.
Qed.

(** The steps of the page are the events so far. *)
Definition shows (evs : list InputEvents) (seq : list SeqData) (st : MachineState) : Prop :=
  plain_page seq st /\ forall j, (j < 16)%nat -> lit seq st j = Z.testbit (xor_pressed evs) (Z.of_nat j).

Lemma xor_pressed_range evs : Forall events_wf evs -> 0 <= xor_pressed evs < 2 ^ 16.
Proof.
  induction evs as [|ev evs IH] using rev_ind; intros H; [done|]. rewrite xor_pressed_snoc.
  apply Forall_app in H as [H Hev]. rewrite Forall_singleton in Hev. destruct Hev as (_ & [Hp _] & _).
  pose proof (IH H) as Hx. apply testbit_range; [lia|by apply Z.lxor_nonneg; lia|]. intros i Hi.
  by rewrite Z.lxor_spec, !(testbit_above 16) by done.
Qed.

Lemma shows_toggle evs ev seq st : shows evs seq st ->
  exists seq', seqStepToggle seq ev st = Some seq' /\ shows (evs ++ [ev]) seq' st.
Proof.
  intros [Hp Hl]. destruct (toggle_loop_spec 16 0 seq ev st) as (seq' & Hrun & Hs); [lia| |].
  { intros i Hi. rewrite plain_type by done. eauto. }
  assert (Hlit : forall j, (j < 16)%nat -> get_type seq' st j =
      Some (Z.b2z (xorb (lit seq st j) (Z.testbit (pressed ev) (Z.of_nat j))))).
  { intros j Hj. apply (lit_toggle seq ev); [done..|]. intros k t Hk Ht. rewrite Hs, decide_True, Ht; [done|]. split; [done|lia]. }
  exists seq'. split; [done|]. split.
  - intros j Hj. rewrite Hlit by done. destruct (xorb _ _); auto.
  - intros j Hj. rewrite xor_pressed_snoc, Z.lxor_spec, <- Hl by done. unfold lit at 1. rewrite Hlit by done.
    fold (pressed ev). by destruct (xorb _ _).
Qed.

Lemma shows_row evs seq st led led' : shows evs seq st -> Forall events_wf evs -> length led = KB_CHAIN_LENGTH ->
  kbLEDDataSend led seq st = Some led' -> length led' = KB_CHAIN_LENGTH /\ led_row led' = Some (xor_pressed evs).
Proof.
  intros [Hp Hl] Hwf Hlen Hrun. destruct (led_image led seq st Hlen Hp) as (b1 & b2 & E & Hb1 & Hb2 & Hbits).
  rewrite Hrun in E. injection E as ->. split; [done|]. cbn. f_equal. apply Z.bits_inj'. intros k Hk.
  destruct (Z.lt_ge_cases k 16).
  - rewrite <- (Z2Nat.id k) by done. by rewrite Hbits, Hl by lia.
  - rewrite (testbit_above 16 (row_of b2 b1)) by (done || by apply row_range).
    by rewrite (testbit_above 16 (xor_pressed evs)) by (done || by apply xor_pressed_range).
Qed.

(** The loop's invariant. *)
Definition seq_inv (v : seq_vars) (w : view) : Prop :=
  exists got led wk, w = View (LSeq got false led wk) None true /\ Forall events_wf got /\ length led = KB_CHAIN_LENGTH /\
    led_row led = Some (xor_pressed got) /\ shows got (sq_sequence v) (sq_state v) /\ length (sq_input v) = 20%nat.

Lemma seq_round_task v w : seq_inv v w -> triple_of ts w (seq_round mq kb v) seq_inv.
Proof.
  intros (got & led & wk & -> & Hwf & Hlen & Hrow & Hsh & Hin). unfold seq_round.
  eapply triple_bind; [by apply receive_task|]. intros bytes w (ev & Hev & -> & ->).
  destruct (shows_toggle got ev _ _ Hsh) as (seq' & Hrun & Hsh').
  eapply (triple_bind _ _ _ _ _ _ _ _ (fun r w => r = seq' /\ w = View (LSeq (got ++ [ev]) false led false) None true)).
  { apply triple_read; [apply known_stable|apply guar_refl|]. intros w _ _ _. exists seq'. split; [|done].
    rewrite decode_encode_run by done. erewrite run_bind by done. by rewrite Hrun. }
  intros r w [-> ->]. eapply triple_bind; [apply draw_task; [apply Hsh'|done]|]. intros [] w (led' & Hdraw & ->).
  assert (Forall events_wf (got ++ [ev])) as Hwf' by (apply Forall_app; split; [done|by apply Forall_singleton]).
  destruct (shows_row _ _ _ _ _ Hsh' Hwf' Hlen Hdraw) as [Hlen' Hrow'].
  apply triple_ret; [apply known_stable|]. by exists (got ++ [ev]), led', false.
Qed.

Lemma seq_task junk led : length junk = 20%nat -> length led = KB_CHAIN_LENGTH -> led_row led = Some 0 ->
  triple_of ts (View (LSeq [] false led false) None true) (seqTaskEntry mq kb junk) (fun _ _ => True).
Proof.
  intros Hj Hlen Hrow. apply (triple_loop _ _ _ _ _ (known_stable ts) (guar_refl ts) _ seq_inv).
  - intros v w Hv. eapply triple_bind; [by apply seq_round_task|]. intros v' w' Hv'.
    by apply triple_ret; [apply known_stable|].
  - exists [], led, false. split; [done|]. split; [done|]. split; [done|]. split; [done|]. split; [|done].
    split; [apply zero_plain|]. intros j Hj'. unfold lit. cbn. rewrite Z.testbit_0_l.
    do 16 (destruct j as [|j]; [reflexivity|]). lia.
Qed.

(** ** The system *)

(** The state after [inputTaskInit] created the queue: it is empty, eight free
    blocks of the size of the structure, nobody waits, the LEDs are dark, the
    idle thread can run; the tasks need not exist yet, the environment may
    create and start them. *)
Record booted (s : kst) : Prop := {
  bt_queue : exists free, mq_ok mq (MQA [] free ∅) s /\ length free = 8%nat /\ Forall (fun b => length b.2 = 20%nat) free;
  bt_waiters : getq (k_qs s) (QSuspend mq) = [];
  bt_size : mq_msg_size <$> k_mqs s !! mq = Some 20;
  bt_lock : k_lock s = 0;
  bt_leds : k_mem s !! kb = Some [0; 0; 0];
  bt_idle : exists th, k_threads s !! tid = Some th /\ runnable th;
  bt_tasks t th : t ∈ [ti; ts] -> k_threads s !! t = Some th -> runnable th;
  bt_timer : thread_timer ts ∉ k_tlist s
}.

Definition tasks (junk : list Z) : gmap ptr thread_code :=
  <[ti := inputTaskEntry mq kb spi]> {[ts := seqTaskEntry mq kb junk]}.

Lemma booted_awake s t : booted s -> t ∈ [ti; ts] -> awake t s.
Proof.
  intros Hb Ht Hcur. destruct (bt_queue _ Hb) as (free & (Hc & _) & _).
  destruct (proj1 (proj2 (ki_sched _ _ (cm_kinv _ Hc))) t Hcur) as (th & E & _).
  exists th. split; [done|]. by apply (bt_tasks _ Hb t).
Qed.

Definition ghost0 (free : list (Z * list Z)) : ghost := Gh (MQA [] free ∅) ∅ story0 false.

Lemma booted_inv s free : booted s -> mq_ok mq (MQA [] free ∅) s -> length free = 8%nat ->
  Forall (fun b => length b.2 = 20%nat) free -> inv (ghost0 free, s).
Proof.
  intros Hb Hok Hlen Hf. split; cbn [fst snd].
  - split; cbn; try done. by rewrite Hlen.
  - split; [done|apply Hb|apply Hb..].
  - exists [0; 0; 0]. split; [apply Hb|done].
  - intros x Hx. rewrite (bt_waiters _ Hb) in Hx. by apply not_elem_of_nil in Hx.
Qed.

Lemma tasks_safe junk n s free : booted s -> mq_ok mq (MQA [] free ∅) s -> length free = 8%nat ->
  Forall (fun b => length b.2 = 20%nat) free -> length junk = 20%nat ->
  pool_safe inv rely guar (fun _ _ _ => True) n (tasks junk) (ghost0 free, s).
Proof.
  intros Hb Hok Hlen Hf Hj t p. pose proof (booted_inv s free Hb Hok Hlen Hf) as Hi. unfold tasks.
  rewrite lookup_insert_Some. intros [[<- <-]|[Hne [<- <-]%lookup_singleton_Some]];
    (eapply safe_weaken; [done|done|done|]).
  - apply input_task; [done|]. split; [by split; [|split; [|split; [|intros _ [? [=]]]]]|done|]. intros _.
    apply booted_awake; [done|set_solver].
  - apply (seq_task junk [0; 0; 0]); [done..|]. split; [|done|].
    + cbn. split; [done|]. split; [done|]. split; [done|]. split; [apply Hb|done].
    + intros _. apply booted_awake; [done|set_solver].
Qed.

(** C1: from keys to LEDs, in the whole system.  The input task and the
    sequencer task run from their entry points under the kernel's scheduler,
    interrupted anywhere between two sections by ticks (time-slice ends and
    timeouts included), by each other and by threads that keep off the queue,
    the shift registers and the LED array and do not stop the tasks.  Whatever
    run this is, no section of either task fails, and what the run did - the
    transfers of the shift registers, the messages that entered and left the
    queue, the changes of the LED array, in the order observed - is what the
    front end [tell] does: a scan that changes the main row makes the event of
    its edges; the event is the next message queued, before the next scan,
    unless seven messages or more were waiting; messages leave the queue in
    order; the bytes sent to the registers are bytes of the LED array since the
    scan before.  And whenever the sequencer waits, the queue is empty and the
    LED row is the exclusive or of the presses of all the events that left it.
    (That the tasks go on scanning and receiving is not claimed: it depends on
    the threads around them.) *)
Theorem keys_to_leds s junk T S : booted s -> length junk = 20%nat ->
  traced env (observe mq kb) (Sys s (tasks junk)) T S ->
  no_fault S /\ exists st, tells tell T story0 = Some st /\
    contents mq (sys_k S) = encode <$> st_queue st /\
    k_mem (sys_k S) !! kb = last (st_leds st) /\
    (ts ∈ getq (k_qs (sys_k S)) (QSuspend mq) ->
       st_queue st = [] /\ exists l, last (st_leds st) = Some l /\ led_row l = Some (xor_pressed (st_got st))).
Proof.
  intros Hb Hj Hrun. destruct (bt_queue _ Hb) as (free & Hok & Hlen & Hf).
  destruct (pool_told (A := Empty_set) inv rely guar env (fun _ _ _ => True) told) with (observe := observe mq kb) (tell := tell) (story := g_st)
    (T := T) (S := Sys s (tasks junk)) (S' := S) (g := ghost0 free) as (g & Hi & Ht & Hnf & _); [|by intros ??? []|apply told_refl| |done| | |done|].
  - intros t t' w w' Hne Hg. by apply Hg.
  - intros g s1 s2 Hi He. exists g. by apply env_keeps.
  - by apply booted_inv.
  - intros n. by apply tasks_safe.
  - split; [done|]. exists (g_st g). split; [exact Ht|].
    destruct Hi as [Hg Hk (l & E1 & E2 & _ & Hrow) Hw]. cbn [fst snd] in *.
    split; [by rewrite (contents_ok _ _ _ (kn_mq _ _ Hk)), (gh_fifo _ Hg)|]. split; [by rewrite E1, E2|].
    intros Hin. destruct (Hw _ Hin) as (_ & Hid & Hq). split; [done|]. exists l. auto.
Qed.
End pipeline.

(** ** Witness: the boot state

    Thread 2 is [main] (priority 5), asleep until tick 600; thread 6 is the
    input task (7), thread 8 the sequencer task (6), both ready; thread 4, the
    idle thread (31), runs; object 20 is the message queue, address 3 the LED
    array.  The keyboard answers that keys 1 and 3 are held. *)
Definition demo_boot : kst :=
  set_k_tick 100 (set_k_cur (Some 4%positive) (set_k_group (2 ^ 6 + 2 ^ 7)
   (set_k_qs (<[QReady 6 := [8%positive]]> (<[QReady 7 := [6%positive]]> ∅))
    (set_k_threads (<[2%positive := demo_thread RT_THREAD_SUSPEND 5]>
       (<[4%positive := demo_thread RT_THREAD_RUNNING 31]>
       (<[6%positive := demo_thread RT_THREAD_READY 7]>
       (<[8%positive := demo_thread RT_THREAD_READY 6]> ∅))))
    (set_k_objs (<[2%positive := demo_object 129 0]> (<[4%positive := demo_object 129 0]>
       (<[6%positive := demo_object 129 0]> (<[8%positive := demo_object 129 0]>
       (<[5%positive := demo_object 138 1]> (<[9%positive := demo_object 138 0]>
       (<[13%positive := demo_object 138 0]> (<[17%positive := demo_object 138 0]>
       (<[20%positive := demo_object 134 1]> ∅)))))))))
    (set_k_timers (<[5%positive := demo_own 2 600]> (<[9%positive := demo_own 4 0]>
       (<[13%positive := demo_own 6 0]> (<[17%positive := demo_own 8 0]> ∅))))
    (set_k_mqs (<[20%positive := empty_mq (fun _ => replicate 20 0) 20 8]> ∅)
    (set_k_tlist [5%positive] (set_k_mem (<[3%positive := [0; 0; 0]]> ∅) empty_kst))))))))).
Definition demo_keys (n : nat) (sent : list Z) : option (list Z) := Some [255; 250; 255].

Lemma demo_boot_queue : mq_ok 20 (MQA [] (free_blocks (fun _ => replicate 20 0) 24 8) ∅) demo_boot.
Proof.
  split; [split; [apply kinv_check_ok; by vm_compute|by eexists|done]|].
  split; [exists (demo_object 134 1); repeat split; by right|].
  eexists. split; [done|]. apply (empty_mq_rel _ 20 8); [done|by vm_compute].
Qed.

Lemma demo_booted : booted 20 3 6 8 4 demo_boot.
Proof.
  split; try done; [|by eexists; split; [|right]| |by apply not_elem_of_cons; split; [|apply not_elem_of_nil]].
  - eexists. split; [apply demo_boot_queue|]. split; [done|]. by repeat (constructor; [done|]).
  - intros t th Ht E. left. repeat (apply elem_of_cons in Ht as [->|Ht]); [..|by apply not_elem_of_nil in Ht];
      vm_compute in E; by injection E as <-.
Qed.

(** The threads run until one without code does, the idle thread. *)
Fixpoint run_threads {O} (observe : kst -> kst -> list O) (n : nat) (s : kst) (c : gmap ptr thread_code)
    : option (list O * kst * gmap ptr thread_code) :=
  match n with
  | O => None
  | S n =>
      t ← k_cur s;
      match c !! t with
      | None => Some ([], s, c)
      | Some p =>
          match tstep p s with
          | Ok p' s' => r ← run_threads observe n s' (<[t := p']> c); Some (observe s s' ++ r.1.1, r.1.2, r.2)
          | Fail _ => None
          end
      end
  end.

Lemma run_threads_traced {O} env (observe : kst -> kst -> list O) n s c T s' c' :
  run_threads observe n s c = Some (T, s', c') -> traced env observe (Sys s c) T (Sys s' c').
Proof.
  revert s c T. induction n as [|n IH]; intros s c T; cbn [run_threads]; [done|].
  destruct (k_cur s) as [t|] eqn:Et; [|done]. cbn. destruct (c !! t) as [p|] eqn:Ep; [|intros [= <- <- <-]; constructor].
  destruct (tstep p s) as [p' s1|] eqn:E; [|done].
  destruct (run_threads observe n s1 (<[t := p']> c)) as [[[T1 s2] c2]|] eqn:Er; [|done]. cbn. intros [= <- <- <-].
  apply (traced_cons env observe (Sys s c) (Sys s1 (<[t := p']> c))); [by eapply sys_run|by apply IH].
Qed.

Definition demo_threads : gmap ptr thread_code := tasks 20 3 demo_keys 6 8 (replicate 20 0).
Definition demo_press : InputEvents :=
  {| button_events := scan_events 0 5 0 0; enc_button := 0; enc_rotation := 0 |}.
(** From the boot state the scheduler starts the sequencer, which waits; the
    input task scans and sends; the sequencer draws and waits again, the input
    task sleeps, the idle thread is back. *)
Definition demo_run : option (list action * kst * gmap ptr thread_code) :=
  match rt_schedule demo_boot with
  | Ok _ s => run_threads (observe 20 3) 500 s demo_threads
  | Fail _ => None
  end.

Definition demo_trace : list action :=
  [Scanned [0; 0; 0] (Some [255; 250; 255]); Queued (encode demo_press); Taken (encode demo_press);
   Redrawn [0; 1; 0]; Redrawn [0; 5; 0]].

Lemma keys_to_leds_witness : exists S,
  traced (env no_app 20 3 6 8 4) (observe 20 3) (Sys demo_boot demo_threads) demo_trace S /\ no_fault S /\
  8%positive ∈ getq (k_qs (sys_k S)) (QSuspend 20) /\
  exists st, tells tell demo_trace story0 = Some st /\ st_got st = [demo_press] /\ st_queue st = [] /\
    k_mem (sys_k S) !! 3%positive = last (st_leds st) /\ last (st_leds st) = Some [0; 5; 0] /\
    led_row [0; 5; 0] = Some (xor_pressed (st_got st)).
Proof.
  destruct (rt_schedule demo_boot) as [[] s0|] eqn:E0; [|by vm_compute in E0].
  assert (match demo_run with Some (T, s, _) => (T, getq (k_qs s) (QSuspend 20)) | None => ([], []) end
    = (demo_trace, [8%positive])) as Hw by by vm_compute.
  unfold demo_run in Hw. rewrite E0 in Hw.
  destruct (run_threads (observe 20 3) 500 s0 demo_threads) as [[[T s] c]|] eqn:E; [|discriminate Hw].
  injection Hw as ET Hq. exists (Sys s c).
  assert (traced (env no_app 20 3 6 8 4) (observe 20 3) (Sys demo_boot demo_threads) demo_trace (Sys s c)) as HT.
  { rewrite <- ET. change T with ([] ++ T).
    replace ([] : list action) with (observe 20 3 demo_boot s0) by (vm_compute in E0; injection E0 as <-; by vm_compute).
    apply (traced_cons _ _ (Sys demo_boot demo_threads) (Sys s0 demo_threads)); [|by eapply run_threads_traced].
    apply sys_env. left. by apply background_schedule. }
  destruct (keys_to_leds no_app 20 3 demo_keys 6 8 4 ltac:(done)
    ltac:(intros n sent r [= <-]; split; [done|]; repeat (constructor; [lia|]); constructor)
    demo_boot (replicate 20 0) demo_trace (Sys s c) demo_booted eq_refl HT) as (Hnf & st & Ht & Hc & Hm & Hl).
  assert (8%positive ∈ getq (k_qs s) (QSuspend 20)) as Hin by (rewrite Hq; by left).
  destruct (Hl Hin) as (Hempty & l & Hlast & Hrow).
  assert (st_got st = [demo_press] /\ st_leds st = [[0; 0; 0]; [0; 1; 0]; [0; 5; 0]]) as [Hg Hs].
  { vm_compute in Ht. injection Ht as <-. done. }
  split; [exact HT|]. split; [exact Hnf|]. split; [exact Hin|]. exists st. split; [exact Ht|]. split; [exact Hg|].
  split; [exact Hempty|]. split; [exact Hm|]. rewrite Hs in Hlast |- *. injection Hlast as <-. by split.
Defined.
