(* ===== verification/Boot.v ===== *)
(** * The boot, in every interleaving with the tick (over Startup)

    While [main] initializes the program its thread is the most urgent one, so
    only the tick interrupt comes between its sections, and all that a tick
    changes is the time and the rest of [main]'s time slice.  A section then
    does the same whenever it runs: it is computed once, on the state at
    power-on or after the sections before it, with the time, the time slice
    and the output so far as variables. *)
From stdpp Require Import strings gmap.
From S2P Require Import Prelude DevState KState Scheduler Object Timer Proc Conc Thread Ipc Mutex Event MsgQueue Printf.
From S2P Require Import Completion Device Gpio Pin I2c Spi SpiCore SpiBus Serial Keyboard Sequencer App Pipeline Startup.
#[local] Open Scope Z_scope.

(** ** States up to the time, the time slice and the output *)
Section bump.
Context (main tty : ptr).

Definition set_sent (o : list Z) (x : rt_serial_device) : rt_serial_device :=
  set_ser_uart (set_ua_sent o (ser_uart x)) x.

(** [N] at the tick [t], with [r] ticks of [main]'s time slice left, when the
    console has sent [o]. *)
Definition bump (t r : Z) (o : list Z) (N : kst) : kst :=
  set_k_tick t
    (set_k_threads (alter (set_th_remaining_tick r) main (k_threads N))
      (set_k_drv (set_dr_serials (alter (set_sent o) tty (dr_serials (k_drv N))) (k_drv N)) N)).

(** [main] runs and is more urgent than every ready thread; no timer runs. *)
Record tickable (N : kst) : Prop := {
  tk_cur : k_cur N = Some main;
  tk_nest : k_nest N = 0;
  tk_lock : k_lock N = 0;
  tk_tlist : k_tlist N = [];
  tk_tlocal : k_tlocal N = [];
  tk_main : exists th, k_threads N !! main = Some th /\ th_stat th = RT_THREAD_RUNNING /\
    Z.land (k_group N) (Z.lnot (th_number_mask th)) = k_group N /\
    0 <= th_current_priority th < u32 (__rt_ffs (k_group N) - 1) /\ u32 (__rt_ffs (k_group N) - 1) < RT_THREAD_PRIORITY_MAX;
  tk_group : k_group N <> 0;
  tk_head : is_Some (head (getq (k_qs N) (QReady (u32 (__rt_ffs (k_group N) - 1)))));
  tk_unlinked : unlink main (k_qs N) = k_qs N
}.

Definition tickable_check (N : kst) : bool :=
  let h := u32 (__rt_ffs (k_group N) - 1) in
  bool_decide (k_cur N = Some main) && (k_nest N =? 0) && (k_lock N =? 0) &&
  bool_decide (k_tlist N = []) && bool_decide (k_tlocal N = []) &&
  match k_threads N !! main with
  | Some th => (th_stat th =? RT_THREAD_RUNNING) && (Z.land (k_group N) (Z.lnot (th_number_mask th)) =? k_group N) &&
      (0 <=? th_current_priority th) && (th_current_priority th <? h) && (h <? RT_THREAD_PRIORITY_MAX)
  | None => false
  end && negb (k_group N =? 0) && bool_decide (is_Some (head (getq (k_qs N) (QReady h)))) &&
  bool_decide (unlink main (k_qs N) = k_qs N).

Lemma tickable_check_ok N : tickable_check N = true -> tickable N.
Proof.
  unfold tickable_check. rewrite !andb_true_iff. intros [[[[[[[[H1 H2] H3] H4] H5] H6] H7] H8] H9].
  apply bool_decide_eq_true in H1, H4, H5, H8, H9. apply Z.eqb_eq in H2, H3. apply negb_true_iff, Z.eqb_neq in H7.
  split; try done. destruct (k_threads N !! main) as [th|]; [|done]. rewrite !andb_true_iff in H6.
  exists th. split; [done|]. lia.
Qed.

Lemma alter_Some {A} (f : A -> A) (m : gmap ptr A) i x : m !! i = Some x -> alter f i m = <[i := f x]> m.
Proof.
  intros E. apply map_eq. intros j. destruct (decide (i = j)) as [<-|Hne].
  - by rewrite lookup_alter_eq, E, lookup_insert_eq.
  - by rewrite lookup_alter_ne, lookup_insert_ne.
Qed.

Lemma bump_main t r o N th : k_threads N !! main = Some th ->
  k_threads (bump t r o N) !! main = Some (set_th_remaining_tick r th).
Proof. intros E. cbn. by rewrite lookup_alter_eq, E. Qed.

(** Writing back [main] with another time slice. *)
Lemma bump_put t r o N th r' : k_threads N !! main = Some th ->
  set_k_threads (<[main := set_th_remaining_tick r' th]> (k_threads (bump t r o N))) (bump t r o N) = bump t r' o N.
Proof.
  intros E. unfold bump. cbn. rewrite !(alter_Some _ _ _ _ E), insert_insert_eq. done.
Qed.

(** [rt_schedule] keeps a running thread that is more urgent than all ready
    ones. *)
Lemma main_keeps_running s th p x : k_cur s = Some main -> k_lock s = 0 -> k_threads s !! main = Some th ->
  k_group s <> 0 -> u32 (__rt_ffs (k_group s) - 1) = p -> 0 <= th_current_priority th < p -> p < RT_THREAD_PRIORITY_MAX ->
  head (getq (k_qs s) (QReady p)) = Some x -> unlink main (k_qs s) = k_qs s ->
  Z.land (k_group s) (Z.lnot (th_number_mask th)) = k_group s -> state_of th = RT_THREAD_RUNNING ->
  rt_schedule s = Ok tt (set_k_threads (<[main := clear_yield th]> (k_threads s)) s).
Proof.
  intros Hc Hl Ht Hg Hp Hpr Hmax Hx Hu Hm Hst. unfold rt_schedule. do 2 erewrite run_bind by done. rewrite Hl.
  destruct (Z.eqb_spec (k_group s) 0); [done|]. cbn [Z.eqb andb negb].
  rewrite (run_bind _ _ _ (x, p) s).
  2:{ unfold _get_highest_priority_thread. erewrite run_bind by done. rewrite Hp.
      rewrite (run_bind _ _ _ _ _ (priority_table_run p s ltac:(lia))).
      by rewrite (run_bind _ _ _ x s) by (unfold queue_head; by rewrite Hx). }
  cbv beta iota. erewrite run_bind by (by apply self_run). erewrite run_bind by (by apply get_thread_run).
  rewrite Hst. cbn [Z.eqb]. rewrite (proj2 (Z.ltb_lt (th_current_priority th) p)) by lia.
  set (th1 := set_th_stat _ th). set (s1 := set_k_threads (<[main := th1]> (k_threads s)) s).
  rewrite (run_bind _ _ _ (main, false) s1) by done. cbv beta iota.
  rewrite bool_decide_eq_true_2 by done. cbn [negb].
  set (s2 := set_k_threads (<[main := th1]> (k_threads s)) (set_k_qs (k_qs s) s)).
  assert (k_threads s1 !! main = Some th1) as Ht1 by (cbn; apply lookup_insert_eq).
  rewrite (run_bind _ _ _ tt s1).
  2:{ unfold rt_schedule_remove_thread. erewrite run_bind by (by apply get_thread_run). unfold dequeue_node. erewrite run_bind by done.
      cbn [k_qs set_k_threads s1]. rewrite Hu. erewrite run_bind by (apply priority_table_run; cbn; lia).
      unfold queue_empty. erewrite run_bind by done. cbn [k_qs set_k_qs set_k_threads s1].
      assert (set_k_qs (k_qs s) s1 = s1) as Es by (unfold s1; clear; by destruct s).
      destruct (getq (k_qs s) (QReady (th_current_priority th1))); [|by rewrite Es]. rewrite Es. change (th_number_mask th1) with (th_number_mask th).
      change (Ok tt (set_k_group (Z.land (k_group s) (Z.lnot (th_number_mask th))) s1) = Ok tt s1).
      by rewrite Hm. }
  erewrite run_bind by (by apply get_thread_run). unfold put_thread, modify. f_equal. cbn [k_threads set_k_threads s1].
  rewrite insert_insert_eq, with_state_same; [done|]. unfold th1. by rewrite <- Hst, state_clear_yield.
Qed.

(** A tick. *)
Context `{TimeoutCall}.
Lemma tick_bump fuel t r o N s' : tickable N -> SysTick_Handler fuel (bump t r o N) = Ok tt s' ->
  exists r', s' = bump (u32 (t + 1)) r' o N.
Proof.
  intros [T1 T2 T3 T4 T5 (th & E & Es & Eg & Hp & Hmax) T7 [x T8] T9] Hrun.
  unfold SysTick_Handler in Hrun. erewrite run_bind in Hrun by done.
  set (s1 := set_k_nest _ _) in Hrun.
  assert (forall s2, k_tlist s2 = [] -> rt_timer_check fuel s2 = Ok tt (set_k_tlocal [] s2) \/ rt_timer_check fuel s2 = Fail OutOfFuel) as Hcheck.
  { intros s2 E2. unfold rt_timer_check, rt_tick_get. do 2 erewrite run_bind by done.
    destruct fuel as [|fuel]; [by right|left]. cbn [timer_check_loop]. erewrite run_bind by done. cbn [k_tlist set_k_tlocal]. by rewrite E2. }
  set (s2 := set_k_tick (u32 (t + 1)) s1).
  assert (exists r', rt_tick_increase fuel s1 = rt_timer_check fuel (set_k_nest 1 (bump (u32 (t + 1)) r' o N))) as [r' Hr].
  { assert (s2 = set_k_nest 1 (bump (u32 (t + 1)) r o N)) as E2 by (unfold s2, s1; cbn; by rewrite T2).
    unfold rt_tick_increase. rewrite (run_bind _ _ _ tt s2) by done. rewrite (run_bind _ _ _ main s2) by (by apply self_run).
    set (th1 := set_th_remaining_tick r th).
    assert (k_threads s2 !! main = Some th1) as Ht by (change (k_threads (bump t r o N) !! main = Some th1); by apply bump_main).
    rewrite (run_bind _ _ _ th1 s2) by (by apply get_thread_run). cbv zeta.
    assert (forall m r', m s2 = Ok tt (set_k_threads (<[main := set_th_remaining_tick r' th]> (k_threads s2)) s2) ->
      (m;; rt_timer_check fuel) s2 = rt_timer_check fuel (set_k_nest 1 (bump (u32 (t + 1)) r' o N))) as Hput.
    { intros m r' Hm. rewrite (run_bind _ _ _ _ _ Hm). f_equal. rewrite E2. cbn [k_threads set_k_nest].
      by rewrite <- (bump_put _ r o N th r' E). }
    destruct (u32 (th_remaining_tick th1 - 1) =? 0); [exists (th_init_tick th)|exists (u32 (th_remaining_tick th1 - 1))]; apply Hput; [|done].
    unfold put_thread. erewrite run_bind by done. set (th2 := set_th_stat _ _).
    erewrite (main_keeps_running _ th2 _ x); [|done|done|cbn; apply lookup_insert_eq|exact T7|done|exact Hp|exact Hmax|exact T8|exact T9|exact Eg|
      unfold state_of, th2, th1; cbn [set_th_stat th_stat set_th_remaining_tick]; by rewrite Es].
    assert (clear_yield th2 = set_th_remaining_tick (th_init_tick th) th) as ->
      by (unfold th2, th1; clear -Es; destruct th; cbn in *; subst; reflexivity).
    cbn. by rewrite insert_insert_eq. }
  destruct (Hcheck (set_k_nest 1 (bump (u32 (t + 1)) r' o N)) T4) as [Hc|Hc]; rewrite Hc in Hr.
  - rewrite (run_bind _ _ _ _ _ Hr) in Hrun. exists r'. injection Hrun as <-. clear -T2 T5. destruct N. cbn in *. by subst.
  - unfold mbind, K_bind in Hrun. by rewrite Hr in Hrun.
Qed.

(** ** Code that only ticks interrupt *)
Definition ticks (s s' : kst) : Prop := exists fuel, SysTick_Handler fuel s = Ok tt s'.
Definition HORIZON : Z := 2 ^ 32.

(** From [N], with any time, slice and output, the code is over after a bounded
    number of moves, none of which fails; it returns [a] and leads to [N']. *)
Definition bumped (o : list Z) (N s : kst) : Prop := exists t r, 0 <= t < HORIZON /\ s = bump t r o N.
Definition boots {A} (p : proc A) (N : kst) (o : list Z) (a : A) (N' : kst) (o' : list Z) : Prop :=
  exists n, forall s, bumped o N s -> surely ticks n p s (fun x s' => x = a /\ bumped o' N' s').

Lemma ticks_bumped o N s s' : tickable N -> bumped o N s -> rtc ticks s s' -> bumped o N s'.
Proof.
  intros HN Hs Ht. induction Ht as [|s s1 s' [fuel Ht] _ IH]; [done|]. apply IH.
  destruct Hs as (t & r & Hr & ->). destruct (tick_bump _ _ _ _ _ _ HN Ht) as [r' ->].
  exists (u32 (t + 1)), r'. split; [by apply wrap_range|done].
Qed.

Lemma boots_ret {A} (a : A) N o : tickable N -> boots (Ret a) N o a N o.
Proof. intros HN. exists 0%nat. intros s Hs s' Ht. split; [done|]. by eapply ticks_bumped. Qed.

Lemma boots_sec {A X} (m : K X) (k : X -> proc A) N o x N1 o1 a N' o' : tickable N ->
  (forall t r, 0 <= t < HORIZON -> m (bump t r o N) = Ok x (bump t r o1 N1)) ->
  boots (k x) N1 o1 a N' o' -> boots (Sec m k) N o a N' o'.
Proof.
  intros HN Hm [n Hk]. exists (S n). intros s Hs s1 Ht. destruct (ticks_bumped _ _ _ _ HN Hs Ht) as (t & r & Hr & ->).
  exists x, (bump t r o1 N1). split; [by apply Hm|]. apply Hk. by exists t, r.
Qed.

Lemma boots_loop {A X Y} (body : X -> proc (X + Y)) x (k : Y -> proc A) N o a N' o' :
  boots (pbind (body x) (fun r => match r with inl x' => Iter body x' k | inr y => k y end)) N o a N' o' ->
  boots (Iter body x k) N o a N' o'.
Proof. intros [n Hb]. by exists (S n). Qed.

Lemma boots_bind {A B} (p : proc A) (f : A -> proc B) N o a N1 o1 b N' o' :
  boots p N o a N1 o1 -> boots (f a) N1 o1 b N' o' -> boots (pbind p f) N o b N' o'.
Proof.
  intros [n Hp] [m Hf]. exists (n + m)%nat. intros s Hs. eapply surely_bind; [by apply Hp|].
  intros x s1 [-> H1]. by apply Hf.
Qed.

(** ** Printing *)
Context `{DriverOps} `{RxIndicate} `{SerialMalloc} (serial_entry : ops_of serial_driver = serial_ops).

(** [tty] is the console, open in stream mode, and sends by polling. *)
Record printable (N : kst) : Prop := {
  pt_console : dr_console (k_drv N) = Some tty;
  pt_object : exists ob, k_objs N !! tty = Some ob /\ ob_class ob = RT_Object_Class_Device;
  pt_device : exists d, dr_devs (k_drv N) !! tty = Some d /\ dev_ref_count d <> 0 /\ dev_driver d = serial_driver /\
    flagged (dev_open_flag d) RT_DEVICE_FLAG_INT_TX = false /\ flagged (dev_open_flag d) RT_DEVICE_FLAG_STREAM = true;
  pt_serial : is_Some (dr_serials (k_drv N) !! tty)
}.

Definition printable_check (N : kst) : bool :=
  bool_decide (dr_console (k_drv N) = Some tty) &&
  match k_objs N !! tty with Some ob => ob_class ob =? RT_Object_Class_Device | None => false end &&
  match dr_devs (k_drv N) !! tty with
  | Some d => negb (dev_ref_count d =? 0) && match dev_driver d with serial_driver => true | _ => false end &&
      negb (flagged (dev_open_flag d) RT_DEVICE_FLAG_INT_TX) && flagged (dev_open_flag d) RT_DEVICE_FLAG_STREAM
  | None => false
  end && bool_decide (is_Some (dr_serials (k_drv N) !! tty)).

Lemma printable_check_ok N : printable_check N = true -> printable N.
Proof.
  unfold printable_check. rewrite !andb_true_iff. intros [[[P1 P2] P3] P4]. apply bool_decide_eq_true in P1, P4.
  destruct (k_objs N !! tty) as [ob|] eqn:Eo; [|done]. destruct (dr_devs (k_drv N) !! tty) as [d|] eqn:Ed; [|done].
  rewrite !andb_true_iff in P3. destruct P3 as [[[P5 P6] P7] P8]. split; [done|rewrite Eo; eexists; by rewrite <- Z.eqb_eq| |done].
  apply negb_true_iff in P5, P7. apply Z.eqb_neq in P5. rewrite Ed. exists d. repeat (split; [done|]). split; [by destruct (dev_driver d)|done].
Qed.

Lemma bump_serial t r o N x : dr_serials (k_drv N) !! tty = Some x ->
  dr_serials (k_drv (bump t r o N)) !! tty = Some (set_sent o x).
Proof. intros E. cbn. by rewrite lookup_alter_eq, E. Qed.

Lemma bump_send t r o N x l : dr_serials (k_drv N) !! tty = Some x ->
  upd_serial tty (add_sent l (set_sent o x)) (bump t r o N) = bump t r (o ++ l) N.
Proof. intros E. unfold upd_serial, bump. cbn. rewrite !(alter_Some _ _ _ _ E), insert_insert_eq. done. Qed.

Lemma putc_bump t r o N c : printable N -> ch32_putc tty c (bump t r o N) = Ok 1 (bump t r (o ++ [u8 c]) N).
Proof.
  intros [_ _ _ [x Hx]]. rewrite (putc_run _ _ _ _ (bump_serial t r o N x Hx)). by rewrite bump_send.
Qed.

Lemma kprint_bump text t r o N : printable N -> kprint text (bump t r o N) = Ok tt (bump t r (o ++ tx_text true text) N).
Proof.
  intros [P1 (ob & Ho & Hcl) (d & Hd & Hr & Hdr & Hf & Hs) [x Hx]].
  rewrite (kprint_run serial_entry text _ tty ob d (set_sent o x)); [|exact P1|exact Ho|exact Hcl|exact Hd|exact Hr|exact Hdr|exact Hf|by apply bump_serial].
  by rewrite Hs, bump_send.
Qed.

Lemma poll_tx_boots data N o : tickable N -> printable N ->
  boots (_serial_poll_tx tty data) N o tt N (o ++ tx_text true data).
Proof.
  intros HN HP. destruct (pt_device _ HP) as (d & Hd & _ & _ & _ & Hs). revert o. induction data as [|c data IH]; intros o.
  - cbn. rewrite app_nil_r. by apply boots_ret.
  - cbn [_serial_poll_tx pbind atomic]. unfold tx_text. cbn [map concat]. fold (tx_text true data).
    apply (boots_sec _ _ _ _ ((c =? 10) && true) N o); [done| |].
    { intros t r _. rewrite (line_feed_run _ _ d) by done. by rewrite Hs. }
    destruct ((c =? 10) && true); cbn [pbind atomic].
    + apply (boots_sec _ _ _ _ 1 N (o ++ [13])); [done|by intros; apply putc_bump|].
      apply (boots_sec _ _ _ _ 1 N ((o ++ [13]) ++ [u8 c])); [done|by intros; apply putc_bump|].
      rewrite (app_assoc o). change [13; u8 c] with ([13] ++ [u8 c]). rewrite (app_assoc o [13]). apply IH.
    + apply (boots_sec _ _ _ _ 1 N (o ++ [u8 c])); [done|by intros; apply putc_bump|]. rewrite app_assoc. apply IH.
Qed.

Lemma kputs_boots text N o : tickable N -> printable N ->
  boots (rt_kputs text) N o tt N (o ++ tx_text true text).
Proof.
  intros HN HP. pose proof HP as [P1 (ob & Ho & Hcl) (d & Hd & Hr & Hdr & Hf & Hs) P4]. unfold rt_kputs. cbn [pbind atomic].
  apply (boots_sec _ _ _ _ (Some tty) N o); [done|intros; unfold rt_console_get_device, gets; cbn; by rewrite P1|].
  unfold rt_device_write. cbn [pbind atomic]. apply (boots_sec _ _ _ _ (Some d) N o); [done| |].
  { intros t r _. unfold device_check. erewrite run_bind by (by eapply assert_type_run). erewrite run_bind by (by apply get_dev_run).
    by destruct (Z.eqb_spec (dev_ref_count d) 0). }
  rewrite Hdr, serial_entry. cbn [op_write serial_ops]. destruct text as [|c text]; [cbn; rewrite app_nil_r; by apply boots_ret|].
  cbn [rt_serial_write pbind atomic]. apply (boots_sec _ _ _ _ false N o); [done| |].
  { intros t r _. erewrite run_bind by (by apply get_dev_run). by rewrite Hf. }
  cbv iota. rewrite pbind_assoc. eapply boots_bind; [by apply poll_tx_boots|]. cbn [pbind]. by apply boots_ret.
Qed.
End bump.

(** ** One layout of the memory

    Where [rt_malloc] puts the objects; its other results are arbitrary.  The
    clock of APB2 is the one that system_ch32v30x.c sets up for 144 MHz. *)
Section system.
Context `{TimeoutCall} `{CleanupCall} `{RxIndicate} `{SerialMalloc}.
Context (other_ops : driver -> rt_device_ops) (statr datar : ptr -> nat -> Z) (apb1 : Z).
Context (stack : nat -> Z) (bytes : Z -> list Z) (date : list Z) (junk : rt_device * rt_spi_device).

#[local] Instance system_ops : DriverOps := fun d => match d with serial_driver => serial_ops | _ => other_ops d end.
#[local] Instance system_clocks : SpiHw :=
  {| spi_statr := statr; spi_datar := datar; PCLK1_Frequency := apb1; PCLK2_Frequency := 144000000 |}.
#[local] Instance system_memory : BootMemory := {|
  mem_main := Some 14%positive; stack_main := Some (stack 0);
  mem_shell := Some 18%positive; mem_tshell := Some 20%positive; stack_tshell := Some (stack 1);
  mem_event := Some 24%positive; mem_spidev := Some 22%positive; mem_cs := true; mem_mq := Some 26%positive; pool_mq := Some bytes;
  mem_input := Some 28%positive; stack_input := Some (stack 2); mem_seq := Some 30%positive; stack_seq := Some (stack 3) |}.

Definition outcome_of {A} (r : res A) : kst := match r with Ok _ s => s | Fail _ => empty_kst end.
Definition sent_by (s : kst) : list Z :=
  match dr_serials (k_drv s) !! addr_uart1 with Some x => ua_sent (ser_uart x) | None => [] end.

(** The I2C lines are on port 1: the state [p] of this port depends on what the
    data line shows, and nothing else does. *)
Definition port1 (s : kst) : gpio_port := nth 1 (pn_ports (dr_pins (k_drv s))) (reset_port 0).
Definition set_port1 (p : gpio_port) (s : kst) : kst :=
  let pins := dr_pins (k_drv s) in
  set_k_drv (set_dr_pins (set_pn_ports (<[1%nat := p]> (pn_ports pins)) pins) (k_drv s)) s.
Definition board_up (p : gpio_port) : kst := set_port1 p (outcome_of (rt_hw_board_init board_table (power_on true))).
Definition board_text : list Z := tx_text true (codes "[I/I2C] I2C bus [i2c1] registered"%string ++ [10]).

Lemma board_runs sda : exists p,
  rt_hw_board_init board_table (power_on sda) = Ok tt (bump 14 addr_uart1 0 0 board_text (board_up p)).
Proof. exists (port1 (outcome_of (rt_hw_board_init board_table (power_on sda)))). destruct sda; vm_compute; reflexivity. Qed.

Definition version_text : list Z :=
  tx_text true ([10] ++ codes " \ | /"%string ++ [10]) ++
  tx_text true (codes "- RT -     Thread Operating System"%string ++ [10]) ++
  tx_text true (codes " / | \     4.0.4 build "%string ++ date ++ [10]) ++
  tx_text true (codes " 2006 - 2021 Copyright by rt-thread team"%string ++ [10]).

Lemma show_version_runs N t r o : printable addr_uart1 N ->
  rt_show_version date (bump 14 addr_uart1 t r o N) = Ok tt (bump 14 addr_uart1 t r (o ++ version_text) N).
Proof.
  intros HN. unfold rt_show_version. rewrite (run_bind _ _ _ _ _ (kprint_bump 14 addr_uart1 eq_refl _ t r _ N HN)).
  rewrite (run_bind _ _ _ _ _ (kprint_bump 14 addr_uart1 eq_refl _ t r _ N HN)).
  rewrite (run_bind _ _ _ (codes " / | \     4.0.4 build "%string) (bump 14 addr_uart1 t r _ N)) by done.
  rewrite (run_bind _ _ _ _ _ (kprint_bump 14 addr_uart1 eq_refl _ t r _ N HN)).
  rewrite (kprint_bump 14 addr_uart1 eq_refl _ t r _ N HN). unfold version_text. by rewrite <- !app_assoc.
Qed.

Lemma board_printable p : printable addr_uart1 (board_up p).
Proof. apply printable_check_ok. by vm_compute. Qed.

(** [rtthread_startup] after the banner. *)
Definition start_kernel : K unit :=
  rt_system_timer_init;; rt_system_scheduler_init;; rt_application_init;; rt_system_timer_thread_init;;
  rt_thread_idle_init;; rt_system_scheduler_start.
Definition kernel_up (p : gpio_port) : kst := outcome_of (start_kernel (board_up p)).

Lemma start_kernel_runs p o :
  start_kernel (bump 14 addr_uart1 0 0 o (board_up p)) = Ok tt (bump 14 addr_uart1 0 20 o (kernel_up p)).
Proof. vm_compute; reflexivity. Qed.

Lemma startup_split tbl : rtthread_startup tbl date = (rt_hw_board_init tbl;; rt_show_version date;; start_kernel).
Proof. unfold rtthread_startup, start_kernel. reflexivity. Qed.

Lemma startup_runs sda : exists p, rtthread_startup board_table date (power_on sda) =
  Ok tt (bump 14 addr_uart1 0 20 (board_text ++ version_text) (kernel_up p)).
Proof.
  destruct (board_runs sda) as [p Hp]. exists p. rewrite startup_split, (run_bind _ _ _ _ _ Hp).
  rewrite (run_bind _ _ _ _ _ (show_version_runs _ 0 0 _ (board_printable p))).
  apply start_kernel_runs.
Qed.

(** ** The main thread up to its loop *)
Definition value_of {A} (r : res A) : option A := match r with Ok x _ => Some x | Fail _ => None end.

Lemma boots_run {A X} (m : K X) (k : X -> proc A) N o x N1 a N' o' : tickable_check 14 N = true ->
  (forall t r, m (bump 14 addr_uart1 t r o N) = Ok x (bump 14 addr_uart1 t r o N1)) ->
  boots 14 addr_uart1 (k x) N1 o a N' o' -> boots 14 addr_uart1 (Sec m k) N o a N' o'.
Proof. intros HN Hm. apply boots_sec; [by apply tickable_check_ok|auto]. Qed.

(** [N1] in normal form. *)
Ltac boot_sec :=
  match goal with
  | |- boots _ _ (Sec ?m ?k) ?N ?o _ _ _ =>
      let res := eval vm_compute in (m N) in
      match res with
      | Ok ?x ?s => apply (boots_run m k N o x s);
          [vm_cast_no_check (eq_refl true)
          |intros; vm_compute; reflexivity
          |cbv beta iota; cbn [pbind atomic]]
      end
  end.

Lemma boots_done {A} (a : A) N o N' : tickable_check 14 N = true ->
  (forall t r, bump 14 addr_uart1 t r o N = bump 14 addr_uart1 t r o N') -> boots 14 addr_uart1 (Ret a) N o a N' o.
Proof.
  intros HN HNN'. destruct (boots_ret 14 addr_uart1 a N o) as [n Hn]; [by apply tickable_check_ok|]. exists n.
  intros s Hs. eapply surely_weaken; [by apply Hn|]. intros x s' [-> (t & r & Hr & ->)]. split; [done|]. exists t, r. auto.
Qed.

Lemma boots_print text N o : tickable_check 14 N = true -> printable_check addr_uart1 N = true ->
  boots 14 addr_uart1 (rt_kputs text) N o tt N (o ++ tx_text true text).
Proof. intros HN HP. apply (kputs_boots 14 addr_uart1 eq_refl); [by apply tickable_check_ok|by apply printable_check_ok]. Qed.

Ltac vm_true := vm_cast_no_check (eq_refl true).
Ltac boot_move :=
  cbn [pbind atomic];
  lazymatch goal with
  | |- boots _ _ (pbind (rt_kputs _) _) _ _ _ _ _ => eapply boots_bind; [apply boots_print; vm_true|cbv beta]
  | |- boots _ _ (pbind (pbind (rt_kputs _) _) _) _ _ _ _ _ => rewrite pbind_assoc
  | |- boots _ _ (Sec _ _) _ _ _ _ _ => boot_sec
  | |- boots _ _ (Iter _ _ _) _ _ _ _ _ => apply boots_loop
  | |- boots _ _ (Ret _) _ _ _ _ _ => apply boots_done; [vm_true|intros; match goal with |- _ = ?rhs => vm_cast_no_check (eq_refl rhs) end]
  | |- boots _ _ ?p _ _ _ _ _ => let p' := eval hnf in p in change p with p'
  end.

Definition components_up p : kst := outcome_of (exec 100 (rt_components_init component_table) (kernel_up p)).
Lemma components_boot p o :
  boots 14 addr_uart1 (rt_components_init component_table) (kernel_up p) o tt (components_up p) o.
Proof. repeat boot_move. Qed.

Definition main_up p : kst := outcome_of (exec 2000 (main_init junk) (components_up p)).
Definition main_text : list Z :=
  tx_text true (codes "MCU: CH32V307"%string ++ [10]) ++ tx_text true (codes "SysClk: 144000000Hz"%string ++ [10]) ++
  tx_text true (codes "www.wch.cn"%string ++ [10]).
Lemma main_boot p o :
  boots 14 addr_uart1 (main_init junk) (components_up p) o (Some 24%positive, (Some 22%positive, Some 26%positive))
    (main_up p) (o ++ main_text).
Proof. unfold main_text. rewrite !app_assoc. unfold main_init. repeat boot_move. Qed.

Lemma main_thread_boot p o :
  boots 14 addr_uart1 (main_thread_init component_table junk) (kernel_up p) o
    (Some 24%positive, (Some 22%positive, Some 26%positive)) (main_up p) (o ++ main_text).
Proof. unfold main_thread_init. eapply boots_bind; [apply components_boot|apply main_boot]. Qed.

(** ** What the tasks start from *)
Definition spi10 : rt_spi_device := SpiDevice (Some addr_spi1) kb_cfg (Some (0, 16)).

(** The input task is 28, the sequencer task 30, the shell 20, the idle thread
    16; the message queue is 26. *)
Record ready (s : kst) : Prop := {
  rd_main : k_cur s = Some 14%positive;
  rd_queued : getq (k_qs s) (QReady 6) = [30%positive] /\ getq (k_qs s) (QReady 7) = [28%positive] /\
    getq (k_qs s) (QReady FINSH_THREAD_PRIORITY) = [20%positive] /\ getq (k_qs s) (QReady 31) = [addr_idle];
  rd_pipeline : Pipeline.booted 26 addr_kb_led_data 28 30 addr_idle s;
  rd_spi (X : Type) (users : gmap ptr X) : SpiBus.bus_quiet addr_spi1 addr_idle 1 users {[22%positive := spi10]} [] s
}.

Context (bytes_size : forall i, length (bytes i) = 20%nat).

Section ready.
Context (p : gpio_port) (t r : Z) (o : list Z) (t_range : 0 <= t < HORIZON).
Abbreviation s := (bump 14 addr_uart1 t r o (main_up p)).
Ltac by_state := match goal with |- ?l = ?r => vm_cast_no_check (eq_refl r) end.

Lemma ready_kinv : kinv s.
Proof.
  apply kinv_check_ok. unfold kinv_check. apply andb_true_intro. split; [apply andb_true_intro; split|].
  - by_state.
  - apply Z.leb_le, t_range.
  - apply Z.ltb_lt, t_range.
Qed.

Lemma ready_cur : k_cur s = Some 14%positive.
Proof. by_state. Qed.
Lemma ready_nest : k_nest s = 0.
Proof. by_state. Qed.
Lemma ready_lock : k_lock s = 0.
Proof. by_state. Qed.
Lemma ready_calm : calm s.
Proof. split; [apply ready_kinv|rewrite ready_cur; by eexists|apply ready_nest]. Qed.

Lemma ready_object o' cls : ob_class <$> k_objs s !! o' = Some cls -> ob_flag <$> k_objs s !! o' = Some RT_IPC_FLAG_PRIO ->
  exists ob, ipc_object s o' cls ob /\ ob_flag ob = RT_IPC_FLAG_PRIO.
Proof.
  intros Hc Hf. destruct (k_objs s !! o') as [ob|] eqn:E; [|done]. exists ob. injection Hc as Hc. injection Hf as Hf.
  split; [split; [done|split; [done|by right]]|done].
Qed.

Lemma ready_threads x : x ∈ [28; 30; 16]%positive -> state_of <$> k_threads s !! x = Some RT_THREAD_READY.
Proof. intros Hx. repeat (apply elem_of_cons in Hx as [->|Hx]; [by_state|]). by apply not_elem_of_nil in Hx. Qed.

Lemma ready_runnable x th : x ∈ [28; 30; 16]%positive -> k_threads s !! x = Some th -> runnable th.
Proof. intros Hx E. pose proof (ready_threads x Hx) as Hr. rewrite E in Hr. left. by injection Hr. Qed.

Lemma ready_idle : exists th, k_threads s !! addr_idle = Some th /\ runnable th.
Proof.
  destruct (k_threads s !! addr_idle) as [th|] eqn:E.
  - exists th. split; [reflexivity|]. apply (ready_runnable addr_idle); [clear; unfold addr_idle; set_solver|exact E].
  - pose proof (ready_threads addr_idle ltac:(clear; unfold addr_idle; set_solver)) as H'. rewrite E in H'. discriminate H'.
Qed.

Lemma ready_queue : mq_ok 26 (MQA [] (free_blocks bytes 24 8) ∅) s.
Proof.
  split; [apply ready_calm|]. split; [destruct (ready_object 26 RT_Object_Class_MessageQueue) as (ob & Ho & _); [by_state..|by exists ob]|].
  exists (empty_mq bytes 20 8). split; [by_state|]. apply (empty_mq_rel _ 20 8); [done|by vm_compute].
Qed.

Lemma ready_booted : Pipeline.booted 26 addr_kb_led_data 28 30 addr_idle s.
Proof.
  split.
  - eexists. split; [apply ready_queue|]. split; [reflexivity|]. by repeat (constructor; [apply bytes_size|]).
  - by_state.
  - by_state.
  - apply ready_lock.
  - by_state.
  - apply ready_idle.
  - intros x th Hx. apply ready_runnable. clear -Hx. set_solver.
  - replace (k_tlist s) with (@nil ptr) by (symmetry; by_state). apply not_elem_of_nil.
Qed.

Lemma ready_mutex : mtx_ok (bus_lock addr_spi1) free_mutex s.
Proof.
  assert (getq (k_qs s) (QSuspend (bus_lock addr_spi1)) = []) as Hq by by_state.
  split; [apply ready_calm|apply ready_object; by_state|by_state|split; [done|by split]|rewrite Hq; constructor].
Qed.

Lemma spi10_device : dr_spidevs (k_drv s) !! 22%positive = Some spi10.
Proof. by_state. Qed.

Definition bus_view (B : rt_spi_bus) : option positive * option Z * list wire * Z :=
  (bus_owner B, bus_config B, sp_wire (bus_port B), sp_ctlr1 (bus_port B)).

Lemma spi1_bus : bus_view <$> dr_buses (k_drv s) !! addr_spi1 = Some (None, Some 1, [], 0).
Proof. by_state. Qed.

Lemma ready_quiet (X : Type) (users : gmap ptr X) :
  SpiBus.bus_quiet addr_spi1 addr_idle 1 users {[22%positive := spi10]} [] s.
Proof.
  split; [apply ready_mutex|apply ready_lock|apply ready_idle| | |].
  - pose proof spi1_bus as Hb. destruct (dr_buses (k_drv s) !! addr_spi1) as [B|]; [|discriminate Hb].
    apply Some_inj in Hb. injection Hb as Eo Ec Ew Er. exists B. split; [done|]. split; [exact Ec|]. split; [exact Ew|].
    split; [intros d Hd; rewrite Eo in Hd; discriminate Hd|by rewrite Er].
  - intros d x [<- <-]%lookup_singleton_Some. apply spi10_device.
  - intros x _ Hx. rewrite ready_cur in Hx. injection Hx as <-.
    assert (state_of <$> k_threads s !! 14%positive = Some RT_THREAD_RUNNING) as Hm by by_state.
    destruct (k_threads s !! 14%positive) as [th|] eqn:E; [|discriminate Hm]. exists th. split; [reflexivity|].
    right. by injection Hm.
Qed.

Lemma ready_sent : sent_by s = o.
Proof. by_state. Qed.

Lemma ready_ok : ready s.
Proof. split; [apply ready_cur|repeat split; by_state|apply ready_booted|apply ready_quiet]. Qed.
End ready.

(** What the console has shown. *)
Definition boot_text : list Z := board_text ++ version_text ++ main_text.

End system.

(** ** Witness: a boot

    The data line is high, the memory for the receive buffers is there, the
    queue's memory is zero; the version is built on 1 January. *)
#[local] Instance demo_timeouts : TimeoutCall := thread_timeouts no_app.
#[local] Instance demo_cleanup : CleanupCall := fun _ _ => mret tt.
#[local] Instance demo_malloc : SerialMalloc := {| rx_fifo_memory := true; tx_fifo_memory := None |}.
Definition demo_date : list Z := codes "Jan  1 2024"%string.
Definition demo_junk : rt_device * rt_spi_device := (no_device, spi10).
#[local] Instance demo_ops : DriverOps := system_ops (fun _ => no_ops).
#[local] Instance demo_hw : SpiHw := system_clocks (fun _ _ => 2) (fun _ _ => 0) 72000000.
#[local] Instance demo_memory : BootMemory := system_memory (fun _ => 0) (fun _ => replicate 20 0).

