(* ===== verification/Msh.v ===== *)
(** * The module shell (components/finsh/msh.c)

    A command line is split in place: blanks and closing quotes become null
    characters and [argv] holds the positions of the arguments.  The first
    word is looked up in the table of commands the linker collects, which is a
    parameter; a table entry carries its function, applied to the strings it
    finds behind [argv].  The [char] array of the line is a list, an access
    outside it is [None], and what goes to the console is a list of events,
    one for each call of rt_kprintf (Printf.kprintf_spec says what of a long
    text arrives). *)
From stdpp Require Import strings.
From S2P Require Import Prelude Object KService Printf.
Open Scope Z_scope.

(** Commands of the table; names and descriptions without the final null. *)
Record finsh_syscall := Syscall {
  name : list Z;
  desc : list Z;
  func : list (list Z) -> Z
}.

Inductive event :=
  | Printed (text : list Z)
  | Ran (cmd : list Z) (args : list (list Z)).

Definition FINSH_ARG_MAX : nat := 8.
Definition cTAB : Z := 9.
Definition cNEWLINE : Z := 10.
Definition cQUOTE : Z := 34.
Definition cBACKSLASH : Z := 92.

(** The bytes rt_kprintf sends for a text. *)
Definition sent (text : list Z) : list Z :=
  if (length text <=? 126)%nat then text else take 126 text ++ [0].
Definition rt_kprintf_text (text : list Z) : event := Printed (sent text).

(** The C string at a position of a buffer; [None] when no null character ends it. *)
Fixpoint cstring (a : list Z) : option (list Z) :=
  match a with
  | [] => None
  | c :: a => if c =? 0 then Some [] else s ← cstring a; Some (c :: s)
  end.
Definition cstring_at (a : list Z) (i : nat) : option (list Z) := cstring (drop i a).

(** [strncmp(x, y, n) == 0] of the C library on two buffers. *)
Fixpoint strncmp_eq (n : nat) (x y : list Z) : option bool :=
  match n with
  | O => Some true
  | S n =>
      match x, y with
      | c :: x, d :: y =>
          if c =? d then if c =? 0 then Some true else strncmp_eq n x y else Some false
      | _, _ => None
      end
  end.

Definition is_blank (c : Z) : bool := (c =? cSPACE) || (c =? cTAB).

(** ** msh_split

    [ptr] is an index of the array; [position < length] of the code is
    [ptr < last], both counters advancing together. *)
Fixpoint strip_loop (fuel : nat) (a : list Z) (ptr last : nat) : option (list Z * nat) :=
  match fuel with
  | O => None
  | S fuel =>
      c ← aget a ptr;
      if is_blank c && (ptr <? last)%nat then a ← aset a ptr 0; strip_loop fuel a (S ptr) last
      else Some (a, ptr)
  end.

Fixpoint quote_loop (fuel : nat) (a : list Z) (ptr last : nat) : option nat :=
  match fuel with
  | O => None
  | S fuel =>
      c ← aget a ptr;
      if negb (c =? cQUOTE) && (ptr <? last)%nat then
        ptr ← (if c =? cBACKSLASH then d ← aget a (S ptr); Some (if d =? cQUOTE then S ptr else ptr) else Some ptr);
        quote_loop fuel a (S ptr) last
      else Some ptr
  end.

Fixpoint word_loop (fuel : nat) (a : list Z) (ptr last : nat) : option nat :=
  match fuel with
  | O => None
  | S fuel =>
      c ← aget a ptr;
      if negb (is_blank c) && (ptr <? last)%nat then word_loop fuel a (S ptr) last else Some ptr
  end.

(** The outer loop; the flag says that it stopped for too many arguments. *)
Fixpoint split_loop (fuel : nat) (a : list Z) (ptr last : nat) (argv : list nat) : option (list Z * list nat * bool) :=
  match fuel with
  | O => None
  | S fuel =>
      if negb (ptr <? last)%nat then Some (a, argv, false)
      else
        let steps := S (length a) in
        '(a, ptr) ← strip_loop steps a ptr last;
        if (FINSH_ARG_MAX <=? length argv)%nat then Some (a, argv, true)
        else if (last <=? ptr)%nat then Some (a, argv, false)
        else
          c ← aget a ptr;
          if c =? cQUOTE then
            let argv := argv ++ [S ptr] in
            ptr ← quote_loop steps a (S ptr) last;
            if (last <=? ptr)%nat then Some (a, argv, false)
            else a ← aset a ptr 0; split_loop fuel a (S ptr) last argv
          else
            let argv := argv ++ [ptr] in
            ptr ← word_loop steps a ptr last;
            if (last <=? ptr)%nat then Some (a, argv, false) else split_loop fuel a ptr last argv
  end.

Definition too_many (args : list (list Z)) : list event :=
  rt_kprintf_text (codes "Too many args ! We only Use:"%string ++ [cNEWLINE]) ::
  map (fun w => rt_kprintf_text (w ++ [cSPACE])) args ++ [rt_kprintf_text [cNEWLINE]].

Definition msh_split (a : list Z) (cmd length : nat) : option (list Z * list nat * list event) :=
  '(a, argv, many) ← split_loop (S (S FINSH_ARG_MAX)) a cmd (cmd + length) [];
  if many : bool then args ← mapM (cstring_at a) argv; Some (a, argv, too_many args)
  else Some (a, argv, []).

(** ** Looking up and running a command *)
Definition cmd_prefix : list Z := codes "__cmd_"%string.

Section Table.
Variable syscall_table : list finsh_syscall.

  (** [strncmp(index->name, "__cmd_", 6) == 0] *)
Definition is_command (f : finsh_syscall) : option bool := strncmp_eq 6 (name f ++ [0]) (cmd_prefix ++ [0]).

Fixpoint msh_get_cmd (table : list finsh_syscall) (a : list Z) (cmd size : nat) : option (option finsh_syscall) :=
    match table with
    | [] => Some None
    | index :: table =>
        b ← is_command index;
        if negb (b : bool) then msh_get_cmd table a cmd size
        else
          same ← strncmp_eq size (drop 6 (name index ++ [0])) (drop cmd a);
          found ← (if same : bool then c ← aget (name index ++ [0]) (6 + size); Some (c =? 0) else Some false);
          if found : bool then Some (Some index) else msh_get_cmd table a cmd size
    end.

  (** [Some None]: the code returns -RT_ERROR and leaves [*retp]. *)
Definition _msh_exec_cmd (a : list Z) (cmd length : nat) : option (option (Z * list event)) :=
    cmd0_end ← word_loop (S (List.length a)) a cmd (cmd + length);
    let cmd0_size := (cmd0_end - cmd)%nat in
    if (cmd0_size =? 0)%nat then Some None
    else
      cmd_func ← msh_get_cmd syscall_table a cmd cmd0_size;
      match cmd_func with
      | None => Some None
      | Some f =>
          '(a, argv, log) ← msh_split a cmd length;
          if (List.length argv =? 0)%nat then Some None
          else
            args ← mapM (cstring_at a) argv;
            Some (Some (func f args, log ++ [Ran (drop 6 (name f)) args]))
      end.

Fixpoint trim_loop (fuel : nat) (a : list Z) (cmd length : nat) : option (nat * nat) :=
    match fuel with
    | O => None
    | S fuel =>
        if (0 <? length)%nat then
          c ← aget a cmd;
          if is_blank c then trim_loop fuel a (S cmd) (length - 1) else Some (cmd, length)
        else Some (cmd, length)
    end.

Fixpoint trunc_loop (fuel : nat) (a : list Z) (tcmd : nat) : option nat :=
    match fuel with
    | O => None
    | S fuel =>
        c ← aget a tcmd;
        if negb (c =? cSPACE) && negb (c =? 0) then trunc_loop fuel a (S tcmd) else Some tcmd
    end.

  (** The return value and what the console gets; the caller clears the line. *)
Definition msh_exec (a : list Z) (cmd length : nat) : option (Z * list event) :=
    '(cmd, length) ← trim_loop (S length) a cmd length;
    if (length =? 0)%nat then Some (0, [])
    else
      r ← _msh_exec_cmd a cmd length;
      match r with
      | Some (cmd_ret, log) => Some (cmd_ret, log)
      | None =>
          tcmd ← trunc_loop (S (List.length a)) a cmd;
          a ← aset a tcmd 0;
          shown ← cstring_at a cmd;
          Some (-1, [rt_kprintf_text (shown ++ codes ": command not found."%string ++ [cNEWLINE])])
      end.

  (** ** Completion *)
Fixpoint str_common (str1 str2 : list Z) : nat :=
    match str1, str2 with
    | c :: str1, d :: str2 => if c =? d then S (str_common str1 str2) else O
    | _, _ => O
    end.

Definition help_line (f : finsh_syscall) : event :=
    rt_kprintf_text (string_text (Directive LEFT 16 (-1) 0) (drop 6 (name f)) ++ codes " - "%string ++ desc f ++ [cNEWLINE]).

Fixpoint help_loop (table : list finsh_syscall) : option (list event) :=
    match table with
    | [] => Some []
    | index :: table =>
        b ← is_command index;
        log ← help_loop table;
        Some (if b : bool then help_line index :: log else log)
    end.

Definition msh_help : option (list event) :=
    log ← help_loop syscall_table;
    Some (rt_kprintf_text (codes "RT-Thread shell commands:"%string ++ [cNEWLINE]) :: log ++ [rt_kprintf_text [cNEWLINE]]).

  (** [name_ptr] and [min_length]; [None] is RT_NULL. *)
Fixpoint complete_loop (table : list finsh_syscall) (prefix : list Z) (name_ptr : option (list Z)) (min_length : nat)
      : option (option (list Z) * nat * list event) :=
    match table with
    | [] => Some (name_ptr, min_length, [])
    | index :: table =>
        b ← is_command index;
        if negb (b : bool) then complete_loop table prefix name_ptr min_length
        else
          let cmd_name := drop 6 (name index) in
          same ← strncmp_eq (length prefix) (prefix ++ [0]) (cmd_name ++ [0]);
          if negb (same : bool) then complete_loop table prefix name_ptr min_length
          else
            let '(name_ptr, min_length) :=
              if (min_length =? 0)%nat then (Some cmd_name, length cmd_name) else (name_ptr, min_length) in
            let len := str_common (default [] name_ptr) cmd_name in
            let min_length := if (len <? min_length)%nat then len else min_length in
            '(p, m, log) ← complete_loop table prefix name_ptr min_length;
            Some (p, m, rt_kprintf_text (cmd_name ++ [cNEWLINE]) :: log)
    end.

  (** [prefix] is the line itself: the buffer after, and the console. *)
Definition msh_auto_complete (line : list Z) : option (list Z * list event) :=
    c ← aget line 0;
    if c =? 0 then log ← msh_help; Some (line, log)
    else
      prefix ← cstring line;
      '(name_ptr, min_length, log) ← complete_loop syscall_table prefix None 0;
      match name_ptr with
      | None => Some (line, log)
      | Some p =>
          if (min_length <=? length line)%nat
          then Some (rt_strncpy p min_length ++ drop min_length line, log) else None
      end.
End Table.

(** ** Reference: the arguments of a line *)
Fixpoint skip_blanks (t : list Z) : list Z :=
  match t with
  | c :: t' => if is_blank c then skip_blanks t' else t
  | [] => []
  end.

(** What stands before the closing quote, and what after it; a quote behind
    a backslash does not close, and the backslash stays. *)
Fixpoint quoted (t : list Z) : list Z * list Z :=
  match t with
  | [] => ([], [])
  | c :: u =>
      if c =? cQUOTE then ([], u)
      else
        match u with
        | d :: v =>
            if (c =? cBACKSLASH) && (d =? cQUOTE) then (c :: d :: (quoted v).1, (quoted v).2)
            else (c :: (quoted u).1, (quoted u).2)
        | [] => ([c], [])
        end
  end.

Fixpoint word (t : list Z) : list Z * list Z :=
  match t with
  | [] => ([], [])
  | c :: u => if is_blank c then ([], t) else (c :: (word u).1, (word u).2)
  end.

Definition next_word (t : list Z) : option (list Z * list Z) :=
  match skip_blanks t with
  | [] => None
  | c :: u => Some (if c =? cQUOTE then quoted u else word (c :: u))
  end.

(** At most [n] words, and whether anything is left behind the last one. *)
Fixpoint split_words (n : nat) (t : list Z) : list (list Z) * bool :=
  match n with
  | O => ([], negb (length t =? 0)%nat)
  | S n =>
      match next_word t with
      | None => ([], false)
      | Some (w, t) => (w :: (split_words n t).1, (split_words n t).2)
      end
  end.

Example split_words_ex : split_words 8 (codes "  led 3 on"%string ++ [34] ++ codes "a b"%string ++ [34]) =
  ([codes "led"%string; codes "3"%string; codes "on"%string ++ [34; 97]; [98; 34]], false).
Proof. reflexivity. Qed.

(** ** Strings in a buffer *)
Definition nonzero (t : list Z) : Prop := Forall (fun c => c <> 0) t.

Lemma cstring_app t suf : nonzero t -> cstring (t ++ 0 :: suf) = Some t.
Proof.
  induction 1 as [|c t Hc _ IH]; cbn [app cstring]; [done|].
  destruct (Z.eqb_spec c 0); [done|]. by rewrite IH.
Qed.

Lemma cstring_Some a s : cstring a = Some s -> nonzero s /\ exists suf, a = s ++ 0 :: suf.
Proof.
  revert s. induction a as [|c a IH]; intros s; cbn [cstring]; [done|].
  destruct (Z.eqb_spec c 0) as [->|Hc]; [intros [= <-]; split; [constructor|by exists a]|].
  destruct (cstring a) as [s'|]; [|done]. intros [= <-]. destruct (IH s' eq_refl) as [Hn [suf ->]].
  split; [by constructor|by exists suf].
Qed.

Lemma cstring_zero a : 0 ∈ a -> is_Some (cstring a).
Proof.
  induction a as [|c a IH]; intros H; [by apply not_elem_of_nil in H|]. cbn [cstring].
  destruct (Z.eqb_spec c 0); [by eexists|]. apply elem_of_cons in H as [H|H]; [congruence|].
  destruct (IH H) as [s ->]. by eexists.
Qed.

Lemma skip_split t : exists b, t = b ++ skip_blanks t /\ Forall (fun c => is_blank c = true) b.
Proof.
  induction t as [|c t (b & Hb & Hf)]; cbn [skip_blanks]; [by exists []|].
  destruct (is_blank c) eqn:Hc; [|by exists []]. exists (c :: b). split; [cbn [app]; by rewrite <- Hb|by constructor].
Qed.

Lemma skip_head t : match skip_blanks t with [] => True | c :: _ => is_blank c = false end.
Proof. induction t as [|c t IH]; cbn [skip_blanks]; [done|]. by destruct (is_blank c) eqn:Hc. Qed.

Lemma word_split t : t = (word t).1 ++ (word t).2 /\ Forall (fun c => is_blank c = false) (word t).1 /\
  match (word t).2 with [] => True | c :: _ => is_blank c = true end.
Proof.
  induction t as [|c t (IH & Hf & Hh)]; cbn [word]; [done|]. destruct (is_blank c) eqn:Hc; cbn [fst snd app]; [done|].
  split; [by rewrite <- IH|]. split; [by constructor|done].
Qed.

Lemma quoted_cons2 c d t : quoted (c :: d :: t) =
  if c =? cQUOTE then ([], d :: t)
  else if (c =? cBACKSLASH) && (d =? cQUOTE) then (c :: d :: (quoted t).1, (quoted t).2)
  else (c :: (quoted (d :: t)).1, (quoted (d :: t)).2).
Proof. reflexivity. Qed.

(** Induction on a list two elements at a time. *)
Lemma list_ind2 (P : list Z -> Prop) : P [] -> (forall c, P [c]) -> (forall c d t, P t -> P (d :: t) -> P (c :: d :: t)) -> forall t, P t.
Proof.
  intros H0 H1 H2 t. cut (P t /\ forall c, P (c :: t)); [tauto|]. induction t as [|d t [IH IH']]; [done|].
  split; [apply IH'|]. intros c. by apply H2.
Qed.

Lemma quoted_split t : exists q, t = (quoted t).1 ++ q /\ (q = [] /\ (quoted t).2 = [] \/ q = cQUOTE :: (quoted t).2).
Proof.
  induction t as [|c|c d t (q & IH & Hq) (q' & IH' & Hq')] using list_ind2.
  - exists []. split; [done|by left].
  - cbn [quoted]. destruct (Z.eqb_spec c cQUOTE) as [->|]; cbn [fst snd app]; [exists [cQUOTE]|exists []]; auto.
  - rewrite quoted_cons2. destruct (Z.eqb_spec c cQUOTE) as [->|]; cbn [fst snd app]; [eexists; eauto|].
    destruct ((c =? cBACKSLASH) && (d =? cQUOTE)); cbn [fst snd app].
    + exists q. by rewrite <- IH.
    + exists q'. by rewrite <- IH'.
Qed.

Lemma aget_app_next l x y r : aget (l ++ x :: y :: r) (S (length l)) = Some y.
Proof. unfold aget. rewrite lookup_app_r by lia. by rewrite Nat.sub_succ_l, Nat.sub_diag by lia. Qed.

(** ** The loops over a line held as [pre ++ t ++ 0 :: suf] *)
Section Loops.
Context (suf : list Z).

Lemma strip_blanks b : Forall (fun c => is_blank c = true) b -> forall fuel pre u, (length b < fuel)%nat ->
  match u with [] => True | c :: _ => is_blank c = false end ->
  strip_loop fuel (pre ++ b ++ u ++ 0 :: suf) (length pre) (length pre + length (b ++ u)) =
    Some (pre ++ replicate (length b) 0 ++ u ++ 0 :: suf, (length pre + length b)%nat).
Proof.
  induction 1 as [|c b Hc _ IH]; intros [|fuel] pre u Hf Hu; cbn [length] in Hf; try lia; cbn [strip_loop app length replicate].
  - rewrite Nat.add_0_r. destruct u as [|c u]; cbn [app length].
    + rewrite aget_app. cbn [mbind option_bind]. by rewrite Nat.add_0_r, Nat.ltb_irrefl, andb_false_r.
    + rewrite aget_app. cbn [mbind option_bind]. by rewrite Hu.
  - rewrite aget_app. cbn [mbind option_bind]. rewrite Hc, (proj2 (Nat.ltb_lt _ _)) by lia. cbn [andb].
    rewrite aset_app. cbn [mbind option_bind]. specialize (IH fuel (pre ++ [0]) u).
    rewrite length_app in IH. cbn [length] in IH. rewrite <- app_assoc in IH. cbn [app] in IH.
    replace (length pre + 1)%nat with (S (length pre)) in IH by lia. rewrite Nat.add_succ_r.
    rewrite <- (Nat.add_succ_l (length pre)), IH by (done || lia). rewrite <- app_assoc. cbn [app]. f_equal. f_equal. lia.
Qed.

Lemma strip_run t : forall fuel pre, (length t < fuel)%nat -> exists k, (length t = k + length (skip_blanks t))%nat /\
  strip_loop fuel (pre ++ t ++ 0 :: suf) (length pre) (length pre + length t) =
    Some (pre ++ replicate k 0 ++ skip_blanks t ++ 0 :: suf, (length pre + k)%nat) /\
  (k = O -> match t with [] => True | c :: _ => is_blank c = false end).
Proof.
  intros fuel pre Hf. destruct (skip_split t) as (b & Ht & Hb). exists (length b).
  assert (length t = length b + length (skip_blanks t))%nat as Hl by (rewrite Ht at 1; by rewrite length_app).
  split; [done|]. split.
  - rewrite Ht at 1 2. rewrite <- app_assoc. apply strip_blanks; [done|lia|apply skip_head].
  - intros H0. apply length_zero_iff_nil in H0 as ->. pose proof (skip_head t) as Hh. by rewrite Ht.
Qed.

Lemma word_run w : Forall (fun c => is_blank c = false) w -> forall fuel pre r, (length w < fuel)%nat ->
  match r with [] => True | c :: _ => is_blank c = true end ->
  word_loop fuel (pre ++ w ++ r ++ 0 :: suf) (length pre) (length pre + length (w ++ r)) = Some (length pre + length w)%nat.
Proof.
  induction 1 as [|c w Hc _ IH]; intros [|fuel] pre r Hf Hr; cbn [length] in Hf; try lia; cbn [word_loop app length].
  - rewrite Nat.add_0_r. destruct r as [|c r]; cbn [app length]; rewrite aget_app; cbn [mbind option_bind].
    + by rewrite Nat.add_0_r, Nat.ltb_irrefl, andb_false_r.
    + by rewrite Hr.
  - rewrite aget_app. cbn [mbind option_bind]. rewrite Hc, (proj2 (Nat.ltb_lt _ _)) by lia. cbn [negb andb].
    specialize (IH fuel (pre ++ [c]) r). rewrite length_app, <- app_assoc in IH. cbn [length app] in IH.
    replace (length pre + 1)%nat with (S (length pre)) in IH by lia. rewrite Nat.add_succ_r, <- Nat.add_succ_l, IH by (done || lia). f_equal. lia.
Qed.

Lemma quote_run t : forall fuel pre, (length t < fuel)%nat ->
  quote_loop fuel (pre ++ t ++ 0 :: suf) (length pre) (length pre + length t) = Some (length pre + length (quoted t).1)%nat.
Proof.
  induction t as [|c|c d t IH IH'] using list_ind2; intros [|fuel] pre Hf; cbn [length] in Hf; try lia; cbn [quote_loop app length].
  - rewrite aget_app. cbn [mbind option_bind]. rewrite (Nat.add_0_r (length pre)), Nat.ltb_irrefl, andb_false_r. cbn [quoted fst length]. f_equal. lia.
  - rewrite aget_app. cbn [mbind option_bind]. cbn [quoted]. destruct (Z.eqb_spec c cQUOTE); cbn [negb andb fst length]; [by rewrite Nat.add_0_r|].
    rewrite (proj2 (Nat.ltb_lt _ _)) by lia.
    pose proof (aget_app_next pre c 0 suf) as Hn.
    destruct (Z.eqb_spec c cBACKSLASH); [rewrite Hn|]; cbn [mbind option_bind]; destruct fuel as [|fuel]; try lia; cbn [quote_loop];
      change (0 =? cQUOTE) with false; rewrite Nat.add_1_r, Hn; cbn [mbind option_bind negb andb];
      change (0 =? cQUOTE) with false; by rewrite Nat.ltb_irrefl.
  - rewrite aget_app. cbn [mbind option_bind]. rewrite quoted_cons2. destruct (Z.eqb_spec c cQUOTE); cbn [negb andb fst length]; [by rewrite Nat.add_0_r|].
    rewrite (proj2 (Nat.ltb_lt _ _)) by lia.
    pose proof (aget_app_next pre c d (t ++ 0 :: suf)) as Hn.
    specialize (IH fuel (pre ++ [c; d])). specialize (IH' fuel (pre ++ [c])). rewrite length_app, <- app_assoc in IH, IH'. cbn [length app] in IH, IH'.
    replace (length pre + 1)%nat with (S (length pre)) in IH' by lia. replace (length pre + 2)%nat with (S (S (length pre))) in IH by lia.
    replace (length pre + S (S (length t)))%nat with (S (length pre) + S (length t))%nat by lia.
    destruct (Z.eqb_spec c cBACKSLASH); cbn [andb]; [rewrite Hn; cbn [mbind option_bind]; destruct (Z.eqb_spec d cQUOTE)|cbn [mbind option_bind]];
      cbn [fst length].
    + replace (S (length pre) + S (length t))%nat with (S (S (length pre)) + length t)%nat by lia. rewrite IH by lia. f_equal. lia.
    + rewrite IH' by lia. f_equal. lia.
    + rewrite IH' by lia. f_equal. lia.
Qed.
End Loops.

Lemma cstring_at_app pre w x : nonzero w -> cstring_at (pre ++ w ++ 0 :: x) (length pre) = Some w.
Proof. intros Hw. unfold cstring_at. rewrite drop_app_length. by apply cstring_app. Qed.

(** [t] has become [t'] by writing null characters, one over a leading blank. *)
Definition cut_blank (t t' : list Z) : Prop :=
  length t' = length t /\ match t with [] => True | c :: _ => is_blank c = true -> head t' = Some 0 end.

Definition args_at (a : list Z) (offs : list nat) (ws : list (list Z)) : Prop :=
  Forall2 (fun o w => cstring_at a o = Some w) offs ws.

Lemma skip_cut t k : length t = (k + length (skip_blanks t))%nat -> (k = O -> match t with [] => True | c :: _ => is_blank c = false end) ->
  forall v, length v = length (skip_blanks t) -> cut_blank t (replicate k 0 ++ v).
Proof.
  intros Hl Hk v Hv. split; [rewrite length_app, length_replicate; lia|].
  destruct t as [|c t]; [done|]. intros Hc. destruct k; [|done]. by rewrite Hk in Hc.
Qed.

Lemma split_words_nil n : split_words n [] = ([], false).
Proof. by destruct n. Qed.

(** What the loop does behind the blanks, for an argument in quotes and for a
    plain one, when the next iterations do what they should. *)
Section Step.
Context (suf : list Z) (fuel n : nat).
Definition splits (pre t : list Z) (argv : list nat) (r : option (list Z * list nat * bool)) : Prop :=
  exists t' offs, r = Some (pre ++ t' ++ 0 :: suf, argv ++ offs, (split_words n t).2) /\ cut_blank t t' /\
    args_at (pre ++ t' ++ 0 :: suf) offs (split_words n t).1.
Definition loop_splits : Prop := forall pre t argv, (n + length argv = FINSH_ARG_MAX)%nat -> nonzero t ->
  splits pre t argv (split_loop fuel (pre ++ t ++ 0 :: suf) (length pre) (length pre + length t) argv).

Lemma split_quote_step pre u argv steps : loop_splits -> (S n + length argv = FINSH_ARG_MAX)%nat -> nonzero u -> (length u < steps)%nat ->
  exists u' offs,
    (ptr ← quote_loop steps (pre ++ u ++ 0 :: suf) (length pre) (length pre + length u);
     if (length pre + length u <=? ptr)%nat then Some (pre ++ u ++ 0 :: suf, argv ++ [length pre], false)
     else a ← aset (pre ++ u ++ 0 :: suf) ptr 0; split_loop fuel a (S ptr) (length pre + length u) (argv ++ [length pre])) =
    Some (pre ++ u' ++ 0 :: suf, argv ++ offs, (split_words n (quoted u).2).2) /\ length u' = length u /\
    args_at (pre ++ u' ++ 0 :: suf) offs ((quoted u).1 :: (split_words n (quoted u).2).1).
Proof.
  intros IH Hargv Hnz Hsteps. rewrite quote_run by lia. cbn [mbind option_bind].
  destruct (quoted_split u) as (q & Hu & Hq). set (w := (quoted u).1) in *. set (r := (quoted u).2) in *.
  assert (nonzero w /\ nonzero q) as [Hw Hnq] by (rewrite Hu in Hnz; by apply Forall_app in Hnz).
  assert (length u = length w + length q)%nat as Hl by (rewrite Hu at 1; apply length_app).
  rewrite Hu, (length_app w q), <- !app_assoc. destruct Hq as [[-> ->]| ->].
  - rewrite Nat.add_0_r, Nat.leb_refl, split_words_nil. exists w, [length pre]. split; [done|]. split; [done|].
    constructor; [by apply cstring_at_app|constructor].
  - rewrite (proj2 (Nat.leb_gt _ _)) by (cbn [length]; lia). rewrite (app_assoc pre w), <- length_app. cbn [app].
    rewrite aset_app. cbn [mbind option_bind]. apply Forall_cons in Hnq as [_ Hr].
    destruct (IH ((pre ++ w) ++ [0]) r (argv ++ [length pre])) as (r' & offs & Hrun & [Hl' _] & Ha);
      [rewrite length_app; cbn [length]; lia|done|].
    rewrite <- app_assoc, (length_app (pre ++ w)) in Hrun. cbn [app length] in Hrun. rewrite Nat.add_1_r in Hrun.
    replace (length pre + (length w + length (cQUOTE :: r)))%nat with (S (length (pre ++ w)) + length r)%nat
      by (rewrite length_app; cbn [length]; lia).
    rewrite Hrun. exists (w ++ 0 :: r'), (length pre :: offs). rewrite <- ?app_assoc in Ha |- *. cbn [app] in Ha |- *. rewrite <- ?app_assoc.
    split; [done|]. split; [rewrite length_app; cbn [length]; lia|]. constructor; [by apply cstring_at_app|done].
Qed.

Lemma split_plain_step pre u argv steps : loop_splits -> (S n + length argv = FINSH_ARG_MAX)%nat -> nonzero u -> (length u < steps)%nat ->
  exists u' offs,
    (ptr ← word_loop steps (pre ++ u ++ 0 :: suf) (length pre) (length pre + length u);
     if (length pre + length u <=? ptr)%nat then Some (pre ++ u ++ 0 :: suf, argv ++ [length pre], false)
     else split_loop fuel (pre ++ u ++ 0 :: suf) ptr (length pre + length u) (argv ++ [length pre])) =
    Some (pre ++ u' ++ 0 :: suf, argv ++ offs, (split_words n (word u).2).2) /\ length u' = length u /\
    args_at (pre ++ u' ++ 0 :: suf) offs ((word u).1 :: (split_words n (word u).2).1).
Proof.
  intros IH Hargv Hnz Hsteps. destruct (word_split u) as (Hu & Hb & Hh). set (w := (word u).1) in *. set (r := (word u).2) in *.
  assert (nonzero w /\ nonzero r) as [Hw Hr] by (rewrite Hu in Hnz; by apply Forall_app in Hnz).
  assert (length w < steps)%nat by (rewrite Hu, length_app in Hsteps; lia).
  rewrite Hu, <- !app_assoc. rewrite word_run by done. cbn [mbind option_bind].
  rewrite (length_app w). destruct r as [|b r].
  - rewrite Nat.add_0_r, Nat.leb_refl, split_words_nil. exists w, [length pre]. split; [done|]. split; [done|].
    constructor; [by apply cstring_at_app|constructor].
  - rewrite (proj2 (Nat.leb_gt _ _)) by (cbn [length]; lia). rewrite (app_assoc pre w), Nat.add_assoc, <- (length_app pre w).
    destruct (IH (pre ++ w) (b :: r) (argv ++ [length pre])) as (r' & offs & Hrun & [Hl' Hh'] & Ha); [rewrite length_app; cbn [length]; lia|done|].
    rewrite Hrun. exists (w ++ r'), (length pre :: offs). rewrite <- !app_assoc in *. split; [done|]. split; [rewrite length_app; lia|].
    constructor; [|done]. specialize (Hh' Hh). destruct r' as [|z r']; [done|]. injection Hh' as ->. by apply cstring_at_app.
Qed.
End Step.

Lemma split_loop_run suf n : forall fuel, (n < fuel)%nat -> loop_splits suf fuel n.
Proof.
  induction n as [|n IH]; intros [|fuel] Hf pre t argv Hargv Hnz; try lia; cbn [split_loop];
    (destruct t as [|x t]; [cbn [app length]; rewrite Nat.add_0_r, Nat.ltb_irrefl; exists [], []; rewrite split_words_nil, app_nil_r; repeat constructor|]);
    rewrite (proj2 (Nat.ltb_lt _ _)) by (cbn [length]; lia); cbn [negb];
    (set (steps := S (length (pre ++ (x :: t) ++ 0 :: suf)));
    assert (length (x :: t) < steps)%nat as Hsteps by (unfold steps; rewrite !length_app; lia);
    destruct (strip_run suf (x :: t) steps pre Hsteps) as (k & Hk & Hrun & H0));
    rewrite Hrun; cbn [mbind option_bind]; set (u := skip_blanks (x :: t)) in *;
    pose proof (skip_cut (x :: t) k Hk H0) as Hcut; fold u in Hcut.
  - rewrite (proj2 (Nat.leb_le _ _)) by lia. exists (replicate k 0 ++ u), []. rewrite <- app_assoc, app_nil_r.
    split; [done|]. split; [by apply Hcut|constructor].
  - rewrite (proj2 (Nat.leb_gt _ _)) by lia. unfold splits. cbn [split_words]. unfold next_word. fold u.
    destruct (skip_split (x :: t)) as (b & Hb & _). fold u in Hb.
    assert (nonzero u) as Hu by (rewrite Hb in Hnz; by apply Forall_app in Hnz as [_ ?]).
    pose proof (skip_head (x :: t)) as Hhead. fold u in Hhead. rewrite Hk, Nat.add_assoc.
    assert ((length pre + k)%nat = length (pre ++ replicate k 0)) as Ep by (by rewrite length_app, length_replicate).
    rewrite Ep, (app_assoc pre). specialize (IH fuel ltac:(lia)).
    destruct u as [|c u].
    + cbn [length]. rewrite Nat.add_0_r, Nat.leb_refl. exists (replicate k 0 ++ []), []. specialize (Hcut [] eq_refl). rewrite <- !app_assoc, app_nil_r.
      split; [done|]. split; [done|constructor].
    + rewrite (proj2 (Nat.leb_gt _ _)) by (cbn [length]; lia). cbn [app]. rewrite aget_app. cbn [mbind option_bind].
      destruct (Z.eqb_spec c cQUOTE) as [->|Hq].
      * apply Forall_cons in Hu as [_ Hu].
        destruct (split_quote_step suf fuel n ((pre ++ replicate k 0) ++ [cQUOTE]) u argv steps IH Hargv Hu ltac:(cbn [length] in *; lia)) as (u' & offs & Hs & Hl & Ha).
        rewrite (length_app (pre ++ _) [cQUOTE]), <- (app_assoc (pre ++ _) [cQUOTE]) in Hs. cbn [app length] in Hs. rewrite Nat.add_1_r, Nat.add_succ_comm in Hs.
        cbn [length]. rewrite Hs. exists (replicate k 0 ++ cQUOTE :: u'), offs. destruct (quoted u). rewrite <- !app_assoc in *. cbn [app] in *.
        split; [done|]. split; [apply Hcut; cbn [length]; by rewrite Hl|done].
      * destruct (split_plain_step suf fuel n (pre ++ replicate k 0) (c :: u) argv steps IH Hargv Hu ltac:(lia)) as (u' & offs & Hs & Hl & Ha).
        cbn [app] in Hs. rewrite Hs. exists (replicate k 0 ++ u'), offs. destruct (word (c :: u)). rewrite <- !app_assoc in *.
        split; [done|]. split; [by apply Hcut|done].
Qed.

Lemma msh_split_run pre t suf : nonzero t -> exists a' argv,
  msh_split (pre ++ t ++ 0 :: suf) (length pre) (length t) =
    Some (a', argv, if (split_words FINSH_ARG_MAX t).2 then too_many (split_words FINSH_ARG_MAX t).1 else []) /\
  args_at a' argv (split_words FINSH_ARG_MAX t).1.
Proof.
  intros Hnz. destruct (split_loop_run suf FINSH_ARG_MAX (S (S FINSH_ARG_MAX)) ltac:(lia) pre t [] eq_refl Hnz) as (t' & offs & Hrun & _ & Ha).
  unfold msh_split. rewrite Hrun. cbn [mbind option_bind app]. exists (pre ++ t' ++ 0 :: suf), offs. split; [|done].
  destruct (split_words FINSH_ARG_MAX t).2; [|done]. apply mapM_Some in Ha. rewrite Ha. done.
Qed.

(** ** Looking a command up *)
Lemma strncmp_eq_sym n : forall x y, strncmp_eq n x y = strncmp_eq n y x.
Proof.
  induction n as [|n IH]; intros [|c x] [|d y]; cbn [strncmp_eq]; try done. rewrite Z.eqb_sym.
  destruct (Z.eqb_spec d c) as [->|]; [|done]. by rewrite IH.
Qed.

Lemma strncmp_eq_run n : forall x w s r, nonzero x -> nonzero w -> (n <= length w)%nat ->
  strncmp_eq n (x ++ 0 :: s) (w ++ r) = Some (bool_decide (take n x = take n w)).
Proof.
  induction n as [|n IH]; intros x [|d w] s r Hx Hw Hl; cbn [length] in Hl; try lia; cbn [strncmp_eq take app]; try (by rewrite bool_decide_true).
  apply Forall_cons in Hw as [Hd Hw]. destruct x as [|c x]; cbn [app take].
  - destruct (Z.eqb_spec 0 d); [congruence|]. by rewrite bool_decide_false.
  - apply Forall_cons in Hx as [Hc Hx]. destruct (Z.eqb_spec c d) as [->|Hcd].
    + destruct (Z.eqb_spec d 0); [done|]. rewrite IH by (done || lia). do 2 f_equal. apply bool_decide_ext.
      split; [congruence|by intros [=]].
    + rewrite bool_decide_false; [done|]. by intros [=].
Qed.

Definition names_ok (table : list finsh_syscall) : Prop := Forall (fun f => nonzero (name f)) table.
Definition lookup_cmd (table : list finsh_syscall) (w : list Z) : option finsh_syscall :=
  List.find (fun f => bool_decide (name f = cmd_prefix ++ w)) table.

Lemma cmd_prefix_nonzero : nonzero cmd_prefix.
Proof. vm_compute. repeat constructor; done. Qed.

Lemma is_command_run f : nonzero (name f) -> is_command f = Some (bool_decide (take 6 (name f) = cmd_prefix)).
Proof. intros Hf. unfold is_command. rewrite (strncmp_eq_run 6 _ _ [] [0] Hf cmd_prefix_nonzero); [done|done]. Qed.

Lemma name_of_command f : take 6 (name f) = cmd_prefix -> exists nm, name f = cmd_prefix ++ nm.
Proof. intros Hp. exists (drop 6 (name f)). by rewrite <- Hp, take_drop. Qed.

Lemma get_cmd_run table a cmd w r : names_ok table -> nonzero w -> drop cmd a = w ++ r ->
  msh_get_cmd table a cmd (length w) = Some (lookup_cmd table w).
Proof.
  intros Ht Hw Ha. induction Ht as [|f table Hf _ IH]; [done|]. cbn [msh_get_cmd lookup_cmd List.find].
  rewrite is_command_run by done. cbn [mbind option_bind]. rewrite IH. clear IH. unfold lookup_cmd.
  destruct (bool_decide_reflect (take 6 (name f) = cmd_prefix)) as [Hp|Hp]; cbn [negb].
  - destruct (name_of_command f Hp) as [nm Hnm']. rewrite !Hnm' in *. apply Forall_app in Hf as [_ Hnm].
    rewrite Ha. change (drop 6 ((cmd_prefix ++ nm) ++ [0])) with (nm ++ [0]).
    rewrite strncmp_eq_run by done. cbn [mbind option_bind]. rewrite (take_ge w) by done.
    assert (bool_decide (cmd_prefix ++ nm = cmd_prefix ++ w) = bool_decide (nm = w)) as ->
      by (apply bool_decide_ext; split; [by intros ?%app_inv_head|congruence]).
    destruct (bool_decide_reflect (take (length w) nm = w)) as [Hw'|Hw']; cbn [mbind option_bind].
    + change (aget ((cmd_prefix ++ nm) ++ [0]) (6 + length w)) with (aget (nm ++ [0]) (length w)).
      rewrite <- (take_drop (length w) nm), Hw'. destruct (drop (length w) nm) as [|c x] eqn:Hd.
      * rewrite app_nil_r, aget_app. cbn [mbind option_bind]. by rewrite (bool_decide_true _ eq_refl).
      * rewrite <- app_assoc. cbn [app]. rewrite aget_app. cbn [mbind option_bind].
        assert (c <> 0) as Hc by (rewrite <- (take_drop (length w) nm), Hd in Hnm; apply Forall_app in Hnm as [_ Hnm]; by apply Forall_cons in Hnm as [? _]).
        destruct (Z.eqb_spec c 0); [done|]. rewrite bool_decide_false; [done|]. intros E%(f_equal length). rewrite length_app in E. cbn [length] in E. lia.
    + rewrite bool_decide_false; [done|]. intros ->. by rewrite take_ge in Hw'.
  - rewrite bool_decide_false; [done|]. intros E. by rewrite E in Hp.
Qed.

(** ** msh_exec *)
Fixpoint until_space (t : list Z) : list Z :=
  match t with
  | [] => []
  | c :: t => if c =? cSPACE then [] else c :: until_space t
  end.

Definition not_found (shown : list Z) : event := rt_kprintf_text (shown ++ codes ": command not found."%string ++ [cNEWLINE]).

(** What running the text [t] does: nothing for a blank one; otherwise the
    first table entry named by the first word runs on the words. *)
Definition exec_text (table : list finsh_syscall) (t : list Z) : Z * list event :=
  match skip_blanks t with
  | [] => (0, [])
  | c :: u =>
      match lookup_cmd table (word (c :: u)).1 with
      | Some f =>
          let '(ws, many) := split_words FINSH_ARG_MAX (c :: u) in
          (func f ws, (if many then too_many ws else []) ++ [Ran (word (c :: u)).1 ws])
      | None => (-1, [not_found (until_space (c :: u))])
      end
  end.

Lemma trim_blanks b suf : Forall (fun c => is_blank c = true) b -> forall fuel pre u, (length b < fuel)%nat ->
  match u with [] => True | c :: _ => is_blank c = false end ->
  trim_loop fuel (pre ++ b ++ u ++ suf) (length pre) (length (b ++ u)) = Some ((length pre + length b)%nat, length u).
Proof.
  induction 1 as [|c b Hc _ IH]; intros [|fuel] pre u Hf Hu; cbn [length] in Hf; try lia; cbn [trim_loop app length].
  - rewrite Nat.add_0_r. destruct u as [|c u]; cbn [app length Nat.ltb Nat.leb]; [done|].
    rewrite aget_app. cbn [mbind option_bind]. by rewrite Hu.
  - cbn [Nat.ltb Nat.leb]. rewrite aget_app. cbn [mbind option_bind]. rewrite Hc.
    specialize (IH fuel (pre ++ [c]) u). rewrite length_app, <- app_assoc in IH. cbn [length app] in IH.
    replace (length pre + 1)%nat with (S (length pre)) in IH by lia. rewrite Nat.sub_succ, Nat.sub_0_r, IH by (done || lia). do 2 f_equal. lia.
Qed.

Lemma until_space_split t : exists r, t = until_space t ++ r /\ match r with [] => True | c :: _ => c = cSPACE end.
Proof.
  induction t as [|c t (r & IH & Hr)]; cbn [until_space]; [by exists []|].
  destruct (Z.eqb_spec c cSPACE); [by exists (c :: t)|]. exists r. cbn [app]. by rewrite <- IH.
Qed.

Lemma until_space_none t : Forall (fun c => c <> cSPACE) (until_space t).
Proof. induction t as [|c t IH]; cbn [until_space]; [constructor|]. destruct (Z.eqb_spec c cSPACE); by constructor. Qed.

Lemma trunc_run s : nonzero s -> Forall (fun c => c <> cSPACE) s -> forall fuel pre c r, (length s < fuel)%nat -> c = 0 \/ c = cSPACE ->
  trunc_loop fuel (pre ++ s ++ c :: r) (length pre) = Some (length pre + length s)%nat.
Proof.
  induction s as [|x s IH]; intros Hn Hs [|fuel] pre c r Hf Hc; cbn [length] in Hf; try lia; cbn [trunc_loop app length]; rewrite aget_app; cbn [mbind option_bind].
  - rewrite Nat.add_0_r. by destruct Hc as [-> | ->].
  - apply Forall_cons in Hn as [Hx Hn]. apply Forall_cons in Hs as [Hx' Hs].
    rewrite (proj2 (Z.eqb_neq _ _) Hx), (proj2 (Z.eqb_neq _ _) Hx'). cbn [negb andb].
    specialize (IH Hn Hs fuel (pre ++ [x]) c r). rewrite length_app, <- app_assoc in IH. cbn [length app] in IH.
    replace (length pre + 1)%nat with (S (length pre)) in IH by lia. rewrite IH by (done || lia). f_equal. lia.
Qed.

Lemma not_found_run u suf pre : nonzero u ->
  (tcmd ← trunc_loop (S (length (pre ++ u ++ 0 :: suf))) (pre ++ u ++ 0 :: suf) (length pre);
   a ← aset (pre ++ u ++ 0 :: suf) tcmd 0; shown ← cstring_at a (length pre);
   Some (-1, [not_found shown])) = Some (-1, [not_found (until_space u)]).
Proof.
  intros Hu. destruct (until_space_split u) as (r & Er & Hr). pose proof (until_space_none u) as Hs. set (s := until_space u) in *.
  assert (nonzero s) as Hn by (rewrite Er in Hu; by apply Forall_app in Hu as [? _]).
  assert (exists c x, u ++ 0 :: suf = s ++ c :: x /\ (c = 0 \/ c = cSPACE)) as (c & x & E & Hc).
  { rewrite Er, <- app_assoc. destruct r as [|c r]; [exists 0, suf; auto|]. exists c, (r ++ 0 :: suf). auto. }
  rewrite E, (trunc_run s Hn Hs) by (done || rewrite !length_app; lia). cbn [mbind option_bind].
  rewrite app_assoc, <- length_app, aset_app. cbn [mbind option_bind]. rewrite <- app_assoc, cstring_at_app by done. done.
Qed.

Lemma split_words_some c u : is_blank c = false -> (0 < length (split_words FINSH_ARG_MAX (c :: u)).1)%nat.
Proof.
  intros Hc. unfold FINSH_ARG_MAX. cbn [split_words]. unfold next_word. cbn [skip_blanks]. rewrite Hc.
  destruct (if c =? cQUOTE then quoted u else word (c :: u)). cbn [fst length]. lia.
Qed.

(** The command part runs the entry the first word names. *)
Lemma exec_cmd_run table pre c u suf : names_ok table -> nonzero (c :: u) -> is_blank c = false ->
  _msh_exec_cmd table (pre ++ (c :: u) ++ 0 :: suf) (length pre) (length (c :: u)) =
    Some (f ← lookup_cmd table (word (c :: u)).1;
          let '(ws, many) := split_words FINSH_ARG_MAX (c :: u) in
          Some (func f ws, (if many : bool then too_many ws else []) ++ [Ran (word (c :: u)).1 ws])).
Proof.
  intros Ht Hn Hc. unfold _msh_exec_cmd. destruct (word_split (c :: u)) as (Hu & Hb & Hh).
  set (w := (word (c :: u)).1) in *. set (r := (word (c :: u)).2) in *.
  assert (nonzero w) as Hw by (rewrite Hu in Hn; by apply Forall_app in Hn as [? _]).
  assert (0 < length w)%nat as Hlw by (subst w; cbn [word]; rewrite Hc; cbn [fst length]; lia).
  rewrite Hu at 2 3. rewrite <- app_assoc. rewrite word_run by (done || rewrite Hu, !length_app; lia). cbn [mbind option_bind].
  replace (length pre + length w - length pre)%nat with (length w) by lia. rewrite (proj2 (Nat.eqb_neq _ _)) by lia.
  erewrite get_cmd_run; [|done..|by rewrite drop_app_length, Hu, <- app_assoc]. cbn [mbind option_bind].
  destruct (lookup_cmd table w) as [f|] eqn:Hf; [|done].
  destruct (msh_split_run pre (c :: u) suf Hn) as (a' & argv & Hs & Ha). rewrite Hs. cbn [mbind option_bind].
  assert (drop 6 (name f) = w) as -> by (apply List.find_some in Hf as [_ E%bool_decide_eq_true]; by rewrite E).
  pose proof (Forall2_length _ _ _ Ha) as Hl. rewrite (proj2 (Nat.eqb_neq _ _)); [|rewrite Hl; by apply Nat.neq_sym, Nat.lt_neq, split_words_some].
  apply mapM_Some in Ha. rewrite Ha. cbn [mbind option_bind]. by destruct (split_words FINSH_ARG_MAX (c :: u)).
Qed.

Lemma exec_run table pre t suf : names_ok table -> nonzero t ->
  msh_exec table (pre ++ t ++ 0 :: suf) (length pre) (length t) = Some (exec_text table t).
Proof.
  intros Ht Hn. unfold msh_exec, exec_text. destruct (skip_split t) as (b & Hb & Hbb). pose proof (skip_head t) as Hh.
  set (u := skip_blanks t) in *. clearbody u. subst t. apply Forall_app in Hn as [_ Hn].
  rewrite <- app_assoc. rewrite (trim_blanks b (0 :: suf) Hbb) by (done || rewrite !length_app; lia). cbn [mbind option_bind].
  destruct u as [|c u]; [done|]. cbn [length Nat.eqb]. rewrite app_assoc, <- length_app. change (S (length u)) with (length (c :: u)).
  rewrite exec_cmd_run by done. cbn [mbind option_bind].
  destruct (lookup_cmd table (word (c :: u)).1) as [f|]; cbn [mbind option_bind]; [by destruct (split_words FINSH_ARG_MAX (c :: u))|].
  by apply not_found_run.
Qed.

(** ** Completion *)
Definition commands (table : list finsh_syscall) : list (list Z) :=
  map (fun f => drop 6 (name f)) (List.filter (fun f => bool_decide (take 6 (name f) = cmd_prefix)) table).
Definition candidates (table : list finsh_syscall) (p : list Z) : list (list Z) :=
  List.filter (fun c => bool_decide (take (length p) c = p)) (commands table).
Definition candidate_line (c : list Z) : event := rt_kprintf_text (c ++ [cNEWLINE]).

Lemma str_common_le x : forall y, (str_common x y <= length x)%nat.
Proof. induction x as [|c x IH]; intros [|d y]; cbn [str_common length]; try lia. destruct (c =? d); [specialize (IH y)|]; lia. Qed.

Lemma str_common_prefix x : forall y, take (str_common x y) x `prefix_of` y.
Proof.
  induction x as [|c x IH]; intros [|d y]; cbn [str_common take]; try apply prefix_nil.
  destruct (Z.eqb_spec c d) as [->|]; [|apply prefix_nil]. cbn [take]. by apply prefix_cons.
Qed.

Lemma str_common_max x : forall y k, (k <= length x)%nat -> take k x `prefix_of` y -> (k <= str_common x y)%nat.
Proof.
  induction x as [|c x IH]; intros y k Hk Hp; cbn [length] in Hk; [cbn; lia|]. destruct k as [|k]; [lia|]. cbn [take] in Hp.
  destruct y as [|d y]; [by apply prefix_nil_not in Hp|]. pose proof (prefix_cons_inv_1 _ _ _ _ Hp) as ->. apply prefix_cons_inv_2 in Hp.
  cbn [str_common]. rewrite Z.eqb_refl. specialize (IH y k). cbn in Hk. assert (k <= str_common x y)%nat by (apply IH; [lia|done]). lia.
Qed.

Lemma strncpy_take src n : nonzero src -> (n <= length src)%nat -> rt_strncpy src n = take n src.
Proof.
  revert n. induction src as [|c src IH]; intros [|n] Hs Hn; cbn [length] in Hn; try lia; [done..|]. cbn [rt_strncpy take].
  apply Forall_cons in Hs as [Hc Hs]. destruct (Z.eqb_spec c 0); [done|]. by rewrite IH by (done || lia).
Qed.

Lemma commands_nonzero table : names_ok table -> Forall nonzero (commands table).
Proof.
  intros Ht. unfold commands. apply Forall_map. apply Forall_forall. intros f Hf. apply list_elem_of_In, List.filter_In in Hf as [Hf _].
  apply list_elem_of_In in Hf. unfold names_ok in Ht. rewrite Forall_forall in Ht. specialize (Ht f Hf). by apply Forall_drop.
Qed.

(** The longest common part of [nm] and the candidates, [m] characters so far. *)
Fixpoint common_len (nm : list Z) (m : nat) (cs : list (list Z)) : nat :=
  match cs with
  | [] => m
  | c :: cs => common_len nm (Nat.min (str_common nm c) m) cs
  end.

Lemma common_len_spec nm cs : forall m, (m <= length nm)%nat ->
  (common_len nm m cs <= m)%nat /\ (forall c, c ∈ cs -> take (common_len nm m cs) nm `prefix_of` c) /\
  (forall k, (k <= m)%nat -> (forall c, c ∈ cs -> take k nm `prefix_of` c) -> (k <= common_len nm m cs)%nat).
Proof.
  induction cs as [|c cs IH]; intros m Hm; cbn [common_len]; [split; [done|]; split; [by intros c ?%not_elem_of_nil|done]|].
  destruct (IH (Nat.min (str_common nm c) m)) as (H1 & H2 & H3); [lia|]. split; [lia|]. split.
  - intros d Hd. apply elem_of_cons in Hd as [->|Hd]; [|by apply H2]. etrans; [|apply (str_common_prefix nm)].
    set (k := common_len _ _ _) in *. replace k with (Nat.min k (str_common nm c)) by lia. rewrite <- take_take. apply prefix_take.
  - intros k Hk Hall. apply H3; [|intros d Hd; apply Hall; by apply list_elem_of_further].
    assert (k <= str_common nm c)%nat; [|lia]. apply str_common_max; [lia|]. apply Hall. apply list_elem_of_here.
Qed.

Lemma complete_step p f table nm m : nonzero p -> nonzero (name f) ->
  complete_loop (f :: table) p nm m =
    (if bool_decide (take 6 (name f) = cmd_prefix) && bool_decide (take (length p) (drop 6 (name f)) = p) then
       let c := drop 6 (name f) in
       let '(nm, m) := if (m =? 0)%nat then (Some c, length c) else (nm, m) in
       '(q, k, log) ← complete_loop table p nm (Nat.min (str_common (default [] nm) c) m);
       Some (q, k, candidate_line c :: log)
     else complete_loop table p nm m).
Proof.
  intros Hp Hf. cbn [complete_loop]. rewrite is_command_run by done. cbn [mbind option_bind].
  destruct (bool_decide_reflect (take 6 (name f) = cmd_prefix)); cbn [negb andb]; [|done].
  rewrite strncmp_eq_sym, strncmp_eq_run by (done || by apply Forall_drop). cbn [mbind option_bind]. rewrite (take_ge p) by done.
  case_bool_decide; cbn [negb]; [|done].
  destruct (m =? 0)%nat; (set (k := str_common _ _)); [set (m' := length _)|set (m' := m)];
    (replace (if (k <? m')%nat then k else m') with (Nat.min k m') by (destruct (Nat.ltb_spec k m'); lia)); done.
Qed.

Lemma candidates_cons f table p : candidates (f :: table) p =
  (if bool_decide (take 6 (name f) = cmd_prefix) && bool_decide (take (length p) (drop 6 (name f)) = p)
   then drop 6 (name f) :: candidates table p else candidates table p).
Proof.
  unfold candidates, commands. cbn [List.filter]. destruct (bool_decide (take 6 (name f) = cmd_prefix)); cbn [map List.filter andb]; [|done].
  by case_bool_decide.
Qed.

Lemma complete_some p : nonzero p -> (0 < length p)%nat -> forall table nm m, names_ok table ->
  take (length p) nm = p -> (length p <= m <= length nm)%nat ->
  complete_loop table p (Some nm) m =
    Some (Some nm, common_len nm m (candidates table p), map candidate_line (candidates table p)).
Proof.
  intros Hp Hlp table. induction table as [|f table IH]; intros nm m Ht Hnm Hm; [done|].
  apply Forall_cons in Ht as [Hf Ht]. rewrite complete_step, candidates_cons by done.
  destruct (bool_decide (take 6 (name f) = cmd_prefix)); cbn [andb]; [|by apply IH].
  case_bool_decide as Hc; [|by apply IH]. cbn zeta. rewrite (proj2 (Nat.eqb_neq _ _)) by lia. change (default [] (Some nm)) with nm.
  assert (length p <= str_common nm (drop 6 (name f)))%nat.
  { apply str_common_max; [lia|]. rewrite Hnm, <- Hc. apply prefix_take. }
  rewrite IH by (done || lia). done.
Qed.

Lemma complete_none p : nonzero p -> (0 < length p)%nat -> forall table, names_ok table ->
  complete_loop table p None 0 =
    Some (match candidates table p with
          | [] => (None, O, [])
          | c :: cs => (Some c, common_len c (length c) (c :: cs), map candidate_line (c :: cs))
          end).
Proof.
  intros Hp Hlp table Ht. induction Ht as [|f table Hf Ht IH]; [done|]. rewrite complete_step, candidates_cons by done.
  destruct (bool_decide (take 6 (name f) = cmd_prefix)); cbn [andb]; [|done].
  case_bool_decide as Hc; [|done]. cbn zeta. cbn [Nat.eqb]. set (c := drop 6 (name f)) in *. change (default [] (Some c)) with c.
  assert (length p <= length c)%nat by (rewrite <- Hc, length_take; lia).
  assert (str_common c c = length c) as Hcc by (apply Nat.le_antisymm; [apply str_common_le|by apply str_common_max; rewrite ?take_ge by done]).
  rewrite complete_some by (done || rewrite Hcc; lia). done.
Qed.

Lemma candidate_command table p c : c ∈ candidates table p -> c ∈ commands table.
Proof. intros H. apply list_elem_of_In, List.filter_In in H as [H _]. by apply list_elem_of_In. Qed.

(** The part all candidates share; it extends what was typed. *)
Definition shared_part (cs : list (list Z)) (l : list Z) : Prop :=
  (forall c, c ∈ cs -> l `prefix_of` c) /\ (forall l', (forall c, c ∈ cs -> l' `prefix_of` c) -> l' `prefix_of` l).

Lemma common_len_shared c cs : let l := take (common_len c (length c) (c :: cs)) c in
  length l = common_len c (length c) (c :: cs) /\ shared_part (c :: cs) l.
Proof.
  destruct (common_len_spec c (c :: cs) (length c) (Nat.le_refl _)) as (H1 & H2 & H3). set (k := common_len _ _ _) in *. cbn zeta.
  split; [rewrite length_take; lia|]. split; [done|]. intros l' Hl'. pose proof (Hl' c (list_elem_of_here _ _)) as [x Hx].
  assert (length l' <= length c)%nat by (rewrite Hx, length_app; lia).
  assert (take (length l') c = l') as E by (by rewrite Hx, take_app_length).
  assert (length l' <= k)%nat as Hk by (apply H3; [done|]; by rewrite E).
  rewrite <- E, <- (Nat.min_l _ _ Hk), <- take_take. apply prefix_take.
Qed.

Lemma auto_complete_run table p suf : names_ok table -> nonzero p -> p <> [] ->
  Forall (fun c => (length c <= length (p ++ 0%Z :: suf))%nat) (commands table) ->
  exists l, msh_auto_complete table (p ++ 0 :: suf) =
      Some (l ++ drop (length l) (p ++ 0 :: suf), map candidate_line (candidates table p)) /\
    match candidates table p with [] => l = p | cs => shared_part cs l end.
Proof.
  intros Ht Hp Hne Hfit. assert (0 < length p)%nat as Hlp by (destruct p; [done|cbn; lia]).
  unfold msh_auto_complete. destruct p as [|c0 p0] eqn:Ep; [done|]. rewrite <- Ep in *. assert (aget (p ++ 0 :: suf) 0 = Some c0) as -> by (by rewrite Ep).
  cbn [mbind option_bind]. destruct (Z.eqb_spec c0 0) as [->|_]; [rewrite Ep in Hp; by apply Forall_cons in Hp as [? _]|].
  rewrite cstring_app by done. cbn [mbind option_bind]. rewrite complete_none by done. cbn [mbind option_bind].
  destruct (candidates table p) as [|c cs] eqn:Hcs.
  - exists p. by rewrite drop_app_length.
  - destruct (common_len_shared c cs) as [Hl Hs]. set (l := take _ c) in *.
    assert (c ∈ commands table) as Hin by (apply (candidate_command table p c); rewrite Hcs; by apply list_elem_of_here).
    rewrite Forall_forall in Hfit. pose proof (Hfit c Hin). pose proof (commands_nonzero table Ht) as Hnz. rewrite Forall_forall in Hnz.
    destruct (common_len_spec c (c :: cs) (length c) (Nat.le_refl _)) as (Hk & _).
    rewrite (proj2 (Nat.leb_le _ _)) by lia. exists l. rewrite Hl. by rewrite strncpy_take by (done || by apply Hnz).
Qed.

Lemma completion_extends table p l : match candidates table p with [] => l = p | cs => shared_part cs l end -> p `prefix_of` l.
Proof.
  destruct (candidates table p) as [|c cs] eqn:E; [by intros ->|]. intros [_ Hmax]. apply Hmax. intros d Hd. rewrite <- E in Hd.
  apply list_elem_of_In, List.filter_In in Hd as [_ Hd%bool_decide_eq_true]. rewrite <- Hd at 1. apply prefix_take.
Qed.

Lemma help_run table : names_ok table -> exists log, msh_help table = Some log.
Proof.
  intros Ht. unfold msh_help. assert (exists log, help_loop table = Some log) as [log ->]; [|by eexists].
  induction Ht as [|f table Hf _ [log IH]]; [by eexists|]. cbn [help_loop]. rewrite is_command_run, IH by done. by eexists.
Qed.

(** ** No fault on any line

    After a line of 80 characters was discarded the bytes behind the text are
    not zero; the loops still stay inside the array, because its last byte is. *)
Section Total.
Context (z : nat).

Definition zero_at (a : list Z) : Prop := a !! z = Some 0.

Lemma aget_total a i : zero_at a -> (i <= z)%nat -> exists c, aget a i = Some c.
Proof. intros Hz Hi. apply lookup_lt_Some in Hz. unfold aget. destruct (a !! i) eqn:E; [by eexists|]. apply lookup_ge_None in E. lia. Qed.

Lemma aset_total a i : zero_at a -> (i <= z)%nat -> exists a', aset a i 0 = Some a' /\ zero_at a'.
Proof.
  intros Hz Hi. pose proof (lookup_lt_Some _ _ _ Hz). unfold aset. rewrite (proj2 (Nat.ltb_lt _ _)) by lia. eexists. split; [done|].
  unfold zero_at. destruct (decide (i = z)) as [->|]; [by apply list_lookup_insert_eq|by rewrite list_lookup_insert_ne].
Qed.

Lemma strip_total fuel : forall a ptr last, zero_at a -> (ptr <= last)%nat -> (last < z)%nat -> (last < ptr + fuel)%nat ->
  exists a' ptr', strip_loop fuel a ptr last = Some (a', ptr') /\ (ptr' <= last)%nat /\ zero_at a'.
Proof.
  induction fuel as [|fuel IH]; intros a ptr last Ha Hp Hl Hf; [lia|]. cbn [strip_loop].
  destruct (aget_total a ptr Ha) as [c ->]; [lia|]. cbn [mbind option_bind]. destruct (is_blank c); cbn [andb]; [|by exists a, ptr].
  destruct (Nat.ltb_spec ptr last); [|by exists a, ptr].
  destruct (aset_total a ptr Ha) as (a' & -> & Ha'); [lia|]. cbn [mbind option_bind]. apply IH; [done|lia..].
Qed.

Lemma quote_total fuel : forall a ptr last, zero_at a -> (ptr <= S last)%nat -> (last < z)%nat -> (S last < ptr + fuel)%nat ->
  exists ptr', quote_loop fuel a ptr last = Some ptr' /\ (ptr' <= S last)%nat.
Proof.
  induction fuel as [|fuel IH]; intros a ptr last Ha Hp Hl Hf; [lia|]. cbn [quote_loop].
  destruct (aget_total a ptr Ha) as [c ->]; [lia|]. cbn [mbind option_bind]. destruct (c =? cQUOTE); cbn [negb andb]; [by exists ptr|].
  destruct (Nat.ltb_spec ptr last); [|by exists ptr].
  destruct (aget_total a (S ptr) Ha) as [d Hd]; [lia|].
  destruct (c =? cBACKSLASH); [rewrite Hd; cbn [mbind option_bind]; destruct (d =? cQUOTE)|]; cbn [mbind option_bind]; apply IH; done || lia.
Qed.

Lemma word_total fuel : forall a ptr last, zero_at a -> (ptr <= last)%nat -> (last < z)%nat -> (last < ptr + fuel)%nat ->
  exists ptr', word_loop fuel a ptr last = Some ptr' /\ (ptr <= ptr' <= last)%nat.
Proof.
  induction fuel as [|fuel IH]; intros a ptr last Ha Hp Hl Hf; [lia|]. cbn [word_loop].
  destruct (aget_total a ptr Ha) as [c ->]; [lia|]. cbn [mbind option_bind]. destruct (is_blank c); cbn [negb andb]; [by exists ptr|].
  destruct (Nat.ltb_spec ptr last); [|by exists ptr]. destruct (IH a (S ptr) last Ha) as (ptr' & -> & ?); [lia..|].
  exists ptr'. split; [done|lia].
Qed.

Lemma zero_length a : zero_at a -> (z < length a)%nat.
Proof. by apply lookup_lt_Some. Qed.

Lemma split_total n : forall fuel a ptr last argv, (n < fuel)%nat -> (n + length argv = FINSH_ARG_MAX)%nat ->
  zero_at a -> (last < z)%nat -> Forall (fun o => (o <= last)%nat) argv ->
  exists a' argv' m, split_loop fuel a ptr last argv = Some (a', argv', m) /\ zero_at a' /\ Forall (fun o => (o <= last)%nat) argv' /\
    (length argv <= length argv')%nat.
Proof.
  induction n as [|n IH]; intros [|fuel] a ptr last argv Hf Hargv Ha Hl Ho; try lia; cbn [split_loop]; cbn zeta;
    (destruct (Nat.ltb_spec ptr last); cbn [negb]; [|by exists a, argv, false]); pose proof (zero_length a Ha);
    (destruct (strip_total (S (length a)) a ptr last) as (a1 & p1 & -> & Hp1 & Ha1); [done|lia..|]); cbn [mbind option_bind].
  - rewrite (proj2 (Nat.leb_le _ _)) by lia. by exists a1, argv, true.
  - rewrite (proj2 (Nat.leb_gt _ _)) by lia. destruct (Nat.leb_spec last p1); [by exists a1, argv, false|].
    destruct (aget_total a1 p1 Ha1) as [c ->]; [lia|]. cbn [mbind option_bind].
    assert (forall o, (o <= last)%nat -> Forall (fun o => (o <= last)%nat) (argv ++ [o])) as Ho'
      by (intros o ?; apply Forall_app; split; [done|by repeat constructor]).
    assert (forall a2 p2 o, zero_at a2 -> (o <= last)%nat -> exists a' argv' m, split_loop fuel a2 p2 last (argv ++ [o]) = Some (a', argv', m) /\
      zero_at a' /\ Forall (fun o => (o <= last)%nat) argv' /\ (length argv <= length argv')%nat) as Hrec.
    { intros a2 p2 o Ha2 Hlo. destruct (IH fuel a2 p2 last (argv ++ [o])) as (a' & v & m & -> & ? & ? & Hv);
        [lia|rewrite length_app; cbn [length]; lia|done|done|by apply Ho'|]. exists a', v, m. rewrite length_app in Hv. cbn [length] in Hv. repeat split; [done..|lia]. }
    destruct (c =? cQUOTE).
    + destruct (quote_total (S (length a)) a1 (S p1) last) as (p2 & -> & Hp2); [done|lia..|]. cbn [mbind option_bind].
      destruct (Nat.leb_spec last p2); [|destruct (aset_total a1 p2 Ha1) as (a2 & -> & Ha2); [lia|]; cbn [mbind option_bind]; apply Hrec; [done|lia]].
      exists a1, (argv ++ [S p1]), false. rewrite length_app. repeat split; [done|apply Ho'; lia|lia].
    + destruct (word_total (S (length a)) a1 p1 last) as (p2 & -> & Hp2); [done|lia..|]. cbn [mbind option_bind].
      destruct (Nat.leb_spec last p2); [|apply Hrec; [done|lia]].
      exists a1, (argv ++ [p1]), false. rewrite length_app. repeat split; [done|apply Ho'; lia|lia].
Qed.

Lemma args_total a argv : zero_at a -> Forall (fun o => (o <= z)%nat) argv -> exists args, mapM (cstring_at a) argv = Some args.
Proof.
  intros Ha. induction 1 as [|o argv Ho _ [args IH]]; [by exists []|].
  destruct (cstring_zero (drop o a)) as [s Hs].
  { apply list_elem_of_lookup. exists (z - o)%nat. rewrite lookup_drop. by replace (o + (z - o))%nat with z by lia. }
  exists (s :: args). change (mapM (cstring_at a) (o :: argv)) with (x ← cstring_at a o; k ← mapM (cstring_at a) argv; Some (x :: k)).
  assert (cstring_at a o = Some s) as -> by done. cbn [mbind option_bind]. by rewrite IH.
Qed.

Lemma trunc_total fuel : forall a cmd, zero_at a -> (cmd <= z)%nat -> (z < cmd + fuel)%nat ->
  exists t, trunc_loop fuel a cmd = Some t /\ (cmd <= t <= z)%nat.
Proof.
  induction fuel as [|fuel IH]; intros a cmd Ha Hc Hf; [lia|]. cbn [trunc_loop]. destruct (aget_total a cmd Ha Hc) as [c Hac].
  rewrite Hac. cbn [mbind option_bind]. destruct (Z.eqb_spec c cSPACE); cbn [negb andb]; [exists cmd; split; [done|lia]|].
  destruct (Z.eqb_spec c 0); cbn [negb]; [exists cmd; split; [done|lia]|].
  assert (cmd <> z) by (intros ->; unfold aget in Hac; rewrite Ha in Hac; congruence).
  destruct (IH a (S cmd) Ha) as (t & -> & ?); [lia..|]. exists t. split; [done|lia].
Qed.

Lemma trim_total fuel : forall a cmd len, zero_at a -> (cmd + len < z)%nat -> (len < fuel)%nat ->
  exists cmd' len', trim_loop fuel a cmd len = Some (cmd', len') /\ (cmd <= cmd' /\ cmd' + len' = cmd + len)%nat.
Proof.
  induction fuel as [|fuel IH]; intros a cmd len Ha Hc Hf; [lia|]. cbn [trim_loop]. destruct (Nat.ltb_spec 0 len); [|exists cmd, len; split; [done|lia]].
  destruct (aget_total a cmd Ha) as [c ->]; [lia|]. cbn [mbind option_bind]. destruct (is_blank c); [|exists cmd, len; split; [done|lia]].
  destruct (IH a (S cmd) (len - 1)%nat Ha) as (c' & l' & -> & ?); [lia..|]. exists c', l'. split; [done|lia].
Qed.

(** A text without null characters at the start of the array, whatever
    stands behind it, runs without leaving the array. *)
Lemma exec_total table t x : names_ok table -> nonzero t -> zero_at (t ++ x) -> (length t < z)%nat ->
  exists r, msh_exec table (t ++ x) 0 (length t) = Some r.
Proof.
  intros Ht Hn Ha Hlt. unfold msh_exec. pose proof (zero_length _ Ha) as Hz.
  destruct (trim_total (S (length t)) (t ++ x) 0 (length t) Ha) as (cmd & len & -> & Hc & Hlen); [lia..|]. cbn [mbind option_bind].
  destruct (Nat.eqb_spec len 0); [by eexists|]. unfold _msh_exec_cmd.
  destruct (word_total (S (length (t ++ x))) (t ++ x) cmd (cmd + len)) as (e & -> & He); [done|lia..|]. cbn [mbind option_bind].
  assert (exists r, (tcmd ← trunc_loop (S (length (t ++ x))) (t ++ x) cmd; a ← aset (t ++ x) tcmd 0; shown ← cstring_at a cmd;
    Some (-1, [rt_kprintf_text (shown ++ codes ": command not found."%string ++ [cNEWLINE])])) = Some r) as Hnf.
  { destruct (trunc_total (S (length (t ++ x))) (t ++ x) cmd Ha) as (tc & -> & ?); [lia..|]. cbn [mbind option_bind].
    destruct (aset_total _ tc Ha) as (a' & -> & Ha'); [lia|]. cbn [mbind option_bind].
    destruct (args_total a' [cmd] Ha') as [args Hargs]; [repeat constructor; lia|].
    apply mapM_Some in Hargs. inversion Hargs as [|? s ? ? Hs]; subst. rewrite Hs. by eexists. }
  destruct (Nat.eqb_spec (e - cmd) 0); [done|].
  set (w := take (e - cmd) (drop cmd t)).
  assert (length w = (e - cmd)%nat) as Hw by (unfold w; rewrite length_take, length_drop; lia).
  rewrite <- Hw. erewrite get_cmd_run; [|done|unfold w; by apply Forall_take, Forall_drop| ].
  2:{ rewrite drop_app_le by lia. unfold w. rewrite <- (take_drop (e - cmd) (drop cmd t)) at 1. by rewrite <- app_assoc. }
  cbn [mbind option_bind]. destruct (lookup_cmd table w) as [f|]; [|done].
  unfold msh_split. destruct (split_total FINSH_ARG_MAX (S (S FINSH_ARG_MAX)) (t ++ x) cmd (cmd + len) []) as (a' & argv & m & -> & Ha' & Ho & _); [lia|done|done|lia|constructor|].
  destruct (args_total a' argv Ha') as [args Hargs]; [eapply Forall_impl; [exact Ho|]; cbn beta; intros; lia|].
  cbn [mbind option_bind]. rewrite Hargs. destruct m; cbn [mbind option_bind]; destruct (length argv =? 0)%nat; (exact Hnf || (try rewrite Hargs; by eexists)).
Qed.
End Total.

(** ** The command line *)

(** C29: msh_exec on a line whose text is closed by a null character never
    leaves the buffer and does what the words of the text say: nothing for
    a blank text; if the first word names an entry of the command table, the
    first such entry runs on the words of the text, quotes taken off, at most
    eight of them, with a message when something follows the eighth; otherwise
    "command not found" with the text up to its first space, and -1. *)
Theorem msh_exec_spec table pre t suf : names_ok table -> nonzero t ->
  msh_exec table (pre ++ t ++ 0 :: suf) (length pre) (length t) = Some (exec_text table t).
Proof. apply exec_run. Qed.

(** Completion of a typed text lists the commands that begin with it, in
    table order, and replaces it by the longest text that all of them begin
    with; without a candidate the line is unchanged.  No other byte of the line
    changes and nothing outside is touched, if every command fits the line. *)
Theorem msh_auto_complete_spec table p suf : names_ok table -> nonzero p -> p <> [] ->
  Forall (fun c => (length c <= length (p ++ 0%Z :: suf))%nat) (commands table) ->
  exists l, msh_auto_complete table (p ++ 0 :: suf) =
      Some (l ++ drop (length l) (p ++ 0 :: suf), map candidate_line (candidates table p)) /\
    p `prefix_of` l /\ match candidates table p with [] => l = p | cs => shared_part cs l end.
Proof.
  intros Ht Hp Hne Hfit. destruct (auto_complete_run table p suf Ht Hp Hne Hfit) as (l & Hrun & Hl). exists l.
  split; [done|]. split; [|done]. by apply (completion_extends table).
Qed.

(** ** Witnesses *)
Definition demo_table : list finsh_syscall :=
  [Syscall (codes "__cmd_list_thread"%string) (codes "list thread"%string) (fun _ => 0);
   Syscall (codes "hello"%string) (codes "say hello world"%string) (fun _ => 0);
   Syscall (codes "__cmd_list_timer"%string) (codes "list timer in system"%string) (fun _ => 0);
   Syscall (codes "__cmd_free"%string) (codes "Show the memory usage in the system."%string) (fun args => Z.of_nat (length args))].

Lemma demo_table_ok : names_ok demo_table.
Proof. unfold names_ok, demo_table. repeat constructor; vm_compute; repeat constructor; done. Qed.

(** Eight words and a blank behind them are reported as too many. *)
Example too_many_ex : (exec_text demo_table (codes "free 1 2 3 4 5 6 7 "%string)).2 =
  too_many (split_words FINSH_ARG_MAX (codes "free 1 2 3 4 5 6 7"%string)).1 ++
  [Ran (codes "free"%string) (split_words FINSH_ARG_MAX (codes "free 1 2 3 4 5 6 7"%string)).1].
Proof. reflexivity. Qed.

Lemma msh_exec_spec_witness :
  msh_exec demo_table ([7; 7] ++ codes " free a 'b c'"%string ++ 0 :: [1; 2]) 2 13 =
    Some (4, [Ran (codes "free"%string) [codes "free"%string; [97]; [39; 98]; [99; 39]]]).
Proof.
  etrans; [apply (msh_exec_spec demo_table [7; 7] (codes " free a 'b c'"%string) [1; 2]);
    [exact demo_table_ok|vm_compute; repeat constructor; discriminate]|]. vm_compute. reflexivity.
Defined.

Lemma msh_auto_complete_spec_witness : exists l,
  msh_auto_complete demo_table (codes "li"%string ++ 0 :: replicate 78 0) =
    Some (l ++ drop (length l) (codes "li"%string ++ 0 :: replicate 78 0), map candidate_line [codes "list_thread"%string; codes "list_timer"%string]) /\
  codes "li"%string `prefix_of` l /\ shared_part [codes "list_thread"%string; codes "list_timer"%string] l.
Proof.
  destruct (msh_auto_complete_spec demo_table (codes "li"%string) (replicate 78 0)) as (l & H1 & H2 & H3).
  - exact demo_table_ok.
  - vm_compute. repeat constructor; discriminate.
  - discriminate.
  - vm_compute. repeat constructor.
  - exists l. split; [exact H1|]. split; [exact H2|exact H3].
Defined.
