(* ===== verification/Shell.v ===== *)
(** * The line editor of the shell (components/finsh/shell.c, shell.h)

    [finsh_thread_entry] reads characters from the console and edits the line
    of [struct finsh_shell]: cursor keys come as escape sequences, the up and
    down keys recall one of the last five lines, tab completes, return runs the
    line (Msh).  The structure is a record, its arrays are lists, and an access
    outside an array is [None].  Each call of rt_kprintf is an event.

    The specification is an editor that keeps the text before and behind the
    cursor, the bytes left in the buffer behind the text, and the list of
    earlier lines; the theorems show that the arrays and counters implement it,
    what a terminal shows, and which lines the history keeps.  One behaviour
    breaks it: a discarded line of 80 characters stays in the buffer, and
    completing it leaves the cursor behind the end. *)
From stdpp Require Import strings.
From S2P Require Import Prelude Printf Msh.
Open Scope Z_scope.

Definition FINSH_CMD_SIZE : nat := 80.
Definition FINSH_HISTORY_LINES : nat := 5.
Definition cBS : Z := 8.
Definition cRETURN : Z := 13.
Definition cESC : Z := 27.
Definition cDEL : Z := 127.

Inductive input_stat := WAIT_NORMAL | WAIT_SPEC_KEY | WAIT_FUNC_KEY.

Record finsh_shell := Shell {
  stat : input_stat;
  echo_mode : Z;
  prompt_mode : Z;
  current_history : Z;
  history_count : Z;
  cmd_history : list (list Z);
  line : list Z;
  line_position : Z;
  line_curpos : Z;
  finsh_prompt_custom : option (list Z);
  console : list event
}.

Definition set_input (v : input_stat) (s : finsh_shell) : finsh_shell :=
  Shell v (echo_mode s) (prompt_mode s) (current_history s) (history_count s) (cmd_history s) (line s)
    (line_position s) (line_curpos s) (finsh_prompt_custom s) (console s).
Definition set_modes (echo prompt : Z) (s : finsh_shell) : finsh_shell :=
  Shell (stat s) echo prompt (current_history s) (history_count s) (cmd_history s) (line s)
    (line_position s) (line_curpos s) (finsh_prompt_custom s) (console s).
Definition set_history (current count : Z) (rows : list (list Z)) (s : finsh_shell) : finsh_shell :=
  Shell (stat s) (echo_mode s) (prompt_mode s) current count rows (line s)
    (line_position s) (line_curpos s) (finsh_prompt_custom s) (console s).
Definition set_line (a : list Z) (position curpos : Z) (s : finsh_shell) : finsh_shell :=
  Shell (stat s) (echo_mode s) (prompt_mode s) (current_history s) (history_count s) (cmd_history s) a
    position curpos (finsh_prompt_custom s) (console s).
Definition set_custom (p : option (list Z)) (s : finsh_shell) : finsh_shell :=
  Shell (stat s) (echo_mode s) (prompt_mode s) (current_history s) (history_count s) (cmd_history s) (line s)
    (line_position s) (line_curpos s) p (console s).
Definition put (log : list event) (s : finsh_shell) : finsh_shell :=
  Shell (stat s) (echo_mode s) (prompt_mode s) (current_history s) (history_count s) (cmd_history s) (line s)
    (line_position s) (line_curpos s) (finsh_prompt_custom s) (console s ++ log).

Definition at_line (a : list Z) (s : finsh_shell) : finsh_shell := set_line a (line_position s) (line_curpos s) s.
Definition at_pos (position curpos : Z) (s : finsh_shell) : finsh_shell := set_line (line s) position curpos s.

(** ** Prompt and modes *)
Definition finsh_get_prompt (s : finsh_shell) : list Z :=
  if prompt_mode s =? 0 then []
  else match finsh_prompt_custom s with
       | Some p => take (Z.to_nat RT_CONSOLEBUF_SIZE) p
       | None => codes "msh "%string ++ codes ">"%string
       end.

(** [prompt] is RT_NULL or a string; the flag is what rt_malloc answers. *)
Definition finsh_set_prompt (prompt : option (list Z)) (malloc_ok : bool) (s : finsh_shell) : finsh_shell :=
  set_custom (match prompt with Some p => if malloc_ok then Some p else None | None => None end) s.

Definition finsh_get_prompt_mode (s : finsh_shell) : Z := prompt_mode s.
Definition finsh_get_echo (s : finsh_shell) : Z := echo_mode s.
(** One-bit fields. *)
Definition finsh_set_prompt_mode (mode : Z) (s : finsh_shell) : finsh_shell := set_modes (echo_mode s) (wrap 1 mode) s.
Definition finsh_set_echo (echo : Z) (s : finsh_shell) : finsh_shell := set_modes (wrap 1 (u8 echo)) (prompt_mode s) s.

(** [rt_kprintf(FINSH_PROMPT)]: the prompt is the format. *)
Definition show_prompt (s : finsh_shell) : option finsh_shell :=
  text ← expand no_strings (finsh_get_prompt s) [];
  Some (put [rt_kprintf_text text] s).

(** ** Helpers on the arrays *)

(** [rt_memmove(&a[dst], &a[src], n)] *)
Definition move (a : list Z) (dst src n : nat) : option (list Z) :=
  if ((dst + n <=? length a) && (src + n <=? length a))%nat%bool
  then Some (take dst a ++ take n (drop src a) ++ drop (dst + n) a) else None.

(** [memcmp(x, y, FINSH_CMD_SIZE) == 0] *)
Definition same_cmd (x y : list Z) : option bool :=
  if ((FINSH_CMD_SIZE <=? length x) && (FINSH_CMD_SIZE <=? length y))%nat%bool
  then Some (bool_decide (take FINSH_CMD_SIZE x = take FINSH_CMD_SIZE y)) else None.

Definition row_set (rows : list (list Z)) (i : nat) (row : list Z) : option (list (list Z)) :=
  if (i <? length rows)%nat then Some (<[i := row]> rows) else None.

(** [memset] of a history row to zero and [memcpy] of the text into it. *)
Definition history_row (a : list Z) (position : Z) : option (list Z) :=
  let n := Z.to_nat position in
  if (n <=? FINSH_CMD_SIZE)%nat && (n <=? length a)%nat then Some (take n a ++ replicate (FINSH_CMD_SIZE - n) 0) else None.

(** The loop that moves the history up by a row. *)
Fixpoint shift_loop (n index : nat) (rows : list (list Z)) : option (list (list Z)) :=
  match n with
  | O => Some rows
  | S n =>
      row ← rows !! S index;
      rows ← row_set rows index row;
      shift_loop n (S index) rows
  end.

(** [for (i = 0; i < n; i++) rt_kprintf("\b")] *)
Definition backspaces (n : Z) : list event := replicate (Z.to_nat n) (rt_kprintf_text [cBS]).

Definition strlen_line (a : list Z) : option Z := t ← cstring a; Some (u16 (Z.of_nat (length t))).

(** ** History *)
Definition shell_handle_history (s : finsh_shell) : option finsh_shell :=
  text ← cstring (line s);
  Some (put [rt_kprintf_text (cESC :: codes "[2K"%string ++ [cRETURN]); rt_kprintf_text (finsh_get_prompt s ++ text)] s).

Definition shell_push_history (s : finsh_shell) : option finsh_shell :=
  s ← (if negb (line_position s =? 0) then
         if Z.of_nat FINSH_HISTORY_LINES <=? history_count s then
           last ← cmd_history s !! (FINSH_HISTORY_LINES - 1)%nat;
           same ← same_cmd last (line s);
           if negb (same : bool) then
             rows ← shift_loop (FINSH_HISTORY_LINES - 1) 0 (cmd_history s);
             row ← history_row (line s) (line_position s);
             rows ← row_set rows (FINSH_HISTORY_LINES - 1) row;
             Some (set_history (current_history s) (Z.of_nat FINSH_HISTORY_LINES) rows s)
           else Some s
         else
           push ← (if history_count s =? 0 then Some true
                   else last ← cmd_history s !! Z.to_nat (history_count s - 1); same ← same_cmd last (line s); Some (negb same));
           if push : bool then
             row ← history_row (line s) (line_position s);
             rows ← row_set (cmd_history s) (Z.to_nat (history_count s)) row;
             Some (set_history (history_count s) (u16 (history_count s + 1)) rows s)
           else Some s
       else Some s);
  Some (set_history (history_count s) (history_count s) (cmd_history s) s).

(** [memcpy(shell->line, &shell->cmd_history[current][0], FINSH_CMD_SIZE)] and
    what follows, for both keys. *)
Definition recall (current : Z) (s : finsh_shell) : option finsh_shell :=
  let s := set_history current (history_count s) (cmd_history s) s in
  row ← cmd_history s !! Z.to_nat current;
  if ((FINSH_CMD_SIZE <=? length row) && (FINSH_CMD_SIZE <=? length (line s)))%nat%bool then
    let a := take FINSH_CMD_SIZE row ++ drop FINSH_CMD_SIZE (line s) in
    n ← strlen_line a;
    shell_handle_history (set_line a n n s)
  else None.

(** ** The keys *)
Definition up_key (s : finsh_shell) : option finsh_shell :=
  if 0 <? current_history s then recall (u16 (current_history s - 1)) s
  else Some (set_history 0 (history_count s) (cmd_history s) s).

Definition down_key (s : finsh_shell) : option finsh_shell :=
  if current_history s <? history_count s - 1 then recall (u16 (current_history s + 1)) s
  else if negb (history_count s =? 0) then recall (u16 (history_count s - 1)) s
  else Some s.

Definition left_key (s : finsh_shell) : option finsh_shell :=
  if negb (line_curpos s =? 0) then Some (at_pos (line_position s) (u16 (line_curpos s - 1)) (put [rt_kprintf_text [cBS]] s))
  else Some s.

Definition right_key (s : finsh_shell) : option finsh_shell :=
  if line_curpos s <? line_position s then
    c ← aget (line s) (Z.to_nat (line_curpos s));
    Some (at_pos (line_position s) (u16 (line_curpos s + 1)) (put [rt_kprintf_text [c]] s))
  else Some s.

Definition backspace_key (s : finsh_shell) : option finsh_shell :=
  if line_curpos s =? 0 then Some s
  else
    let s := at_pos (u16 (line_position s - 1)) (u16 (line_curpos s - 1)) s in
    let position := Z.to_nat (line_position s) in
    let curpos := Z.to_nat (line_curpos s) in
    if line_curpos s <? line_position s then
      a ← move (line s) curpos (curpos + 1) (position - curpos);
      a ← aset a position 0;
      text ← cstring_at a curpos;
      Some (put (rt_kprintf_text (cBS :: text ++ [cSPACE; cSPACE; cBS]) :: backspaces (line_position s - line_curpos s + 1)) (at_line a s))
    else
      a ← aset (line s) position 0;
      Some (at_line a (put [rt_kprintf_text [cBS; cSPACE; cBS]] s)).

Definition normal_key (ch : Z) (s : finsh_shell) : option finsh_shell :=
  (* it's a large line, discard it *)
  let s := if Z.of_nat FINSH_CMD_SIZE <=? line_position s then at_pos 0 (line_curpos s) s else s in
  let position := Z.to_nat (line_position s) in
  let curpos := Z.to_nat (line_curpos s) in
  s ← (if line_curpos s <? line_position s then
         a ← move (line s) (curpos + 1) curpos (position - curpos);
         a ← aset a curpos ch;
         shown ← (if negb (echo_mode s =? 0) then text ← cstring_at a curpos; Some [rt_kprintf_text text] else Some []);
         Some (put (shown ++ backspaces (line_position s - line_curpos s)) (at_line a s))
       else
         a ← aset (line s) position ch;
         Some (put (if negb (echo_mode s =? 0) then [rt_kprintf_text [ch]] else []) (at_line a s)));
  let s := at_pos (u16 (line_position s + 1)) (u16 (line_curpos s + 1)) s in
  (* clear command line *)
  Some (if Z.of_nat FINSH_CMD_SIZE <=? line_position s then at_pos 0 0 s else s).

Section Commands.
Variable syscall_table : list finsh_syscall.

Definition shell_auto_complete (s : finsh_shell) : option finsh_shell :=
    '(a, log) ← msh_auto_complete syscall_table (line s);
    text ← cstring a;
    Some (put (rt_kprintf_text [cNEWLINE] :: log ++ [rt_kprintf_text (finsh_get_prompt s ++ text)]) (at_line a s)).

Definition tab_key (s : finsh_shell) : option finsh_shell :=
    s ← shell_auto_complete (put (backspaces (line_curpos s)) s);
    n ← strlen_line (line s);
    Some (at_pos n n s).

Definition return_key (s : finsh_shell) : option finsh_shell :=
    s ← shell_push_history s;
    let s := if negb (echo_mode s =? 0) then put [rt_kprintf_text [cNEWLINE]] s else s in
    '(_, log) ← msh_exec syscall_table (line s) 0 (Z.to_nat (line_position s));
    s ← show_prompt (put log s);
    Some (set_line (replicate (S FINSH_CMD_SIZE) 0) 0 0 s).

  (** The loop body behind the handling of escape sequences. *)
Definition plain_char (ch : Z) (s : finsh_shell) : option finsh_shell :=
    if (ch =? 0) || (ch =? 0xff) then Some s
    else if ch =? cTAB then tab_key s
    else if (ch =? cDEL) || (ch =? cBS) then backspace_key s
    else if (ch =? cRETURN) || (ch =? cNEWLINE) then return_key s
    else normal_key ch s.

  (** One round of the loop, for the character [finsh_getchar] returned. *)
Definition finsh_char (ch : Z) (s : finsh_shell) : option finsh_shell :=
    if ch =? cESC then Some (set_input WAIT_SPEC_KEY s)
    else
      match stat s with
      | WAIT_SPEC_KEY =>
          if ch =? 0x5b then Some (set_input WAIT_FUNC_KEY s) else plain_char ch (set_input WAIT_NORMAL s)
      | WAIT_FUNC_KEY =>
          let s := set_input WAIT_NORMAL s in
          if ch =? 0x41 then up_key s
          else if ch =? 0x42 then down_key s
          else if ch =? 0x44 then left_key s
          else if ch =? 0x43 then right_key s
          else plain_char ch s
      | WAIT_NORMAL => plain_char ch s
      end.

Fixpoint finsh_chars (input : list Z) (s : finsh_shell) : option finsh_shell :=
    match input with
    | [] => Some s
    | ch :: input => s ← finsh_char ch s; finsh_chars input s
    end.

Definition finsh_thread_entry (input : list Z) (s : finsh_shell) : option finsh_shell :=
    s ← show_prompt (set_modes 1 (prompt_mode s) s);
    finsh_chars input s.
End Commands.

(** The zeroed structure rt_calloc returns, with the prompt switched on. *)
Definition finsh_system_init : finsh_shell :=
  finsh_set_prompt_mode 1
    (Shell WAIT_NORMAL 0 0 0 0 (replicate FINSH_HISTORY_LINES (replicate FINSH_CMD_SIZE 0)) (replicate (S FINSH_CMD_SIZE) 0) 0 0 None []).

Example shell_ex : option_map (fun s => (line_position s, line_curpos s, history_count s, take 6 (line s)))
  (finsh_thread_entry demo_table (codes "free"%string ++ [13; 27; 91; 65; 27; 91; 68; 97; 8; 8; 98]) finsh_system_init) =
  Some (4, 3, 1, codes "frbe"%string ++ [0; 0]).
Proof. vm_compute. reflexivity. Qed.

(** A line of 80 characters is discarded but stays in the buffer; completing it
    moves the cursor behind the end, and the second backspace after the next
    character makes the position wrap. *)
Definition overrun_keys : list Z := replicate 80 97 ++ [9; 98; 8].

(** ** The specification: an editor *)
Inductive key : Set := KNone | KUp | KDown | KLeft | KRight | KTab | KBackspace | KReturn | KChar (c : Z).

Definition plain_key (ch : Z) : key :=
  if (ch =? 0) || (ch =? 0xff) then KNone
  else if ch =? cTAB then KTab
  else if (ch =? cDEL) || (ch =? cBS) then KBackspace
  else if (ch =? cRETURN) || (ch =? cNEWLINE) then KReturn
  else KChar ch.

#[global] Instance key_eq_dec : EqDecision key.
Proof. solve_decision. Defined.

(** ESC [ A, B, C, D are the cursor keys; anything else counts for itself. *)
Definition decode_key (st : input_stat) (ch : Z) : input_stat * key :=
  if ch =? cESC then (WAIT_SPEC_KEY, KNone)
  else
    match st with
    | WAIT_SPEC_KEY => if ch =? 0x5b then (WAIT_FUNC_KEY, KNone) else (WAIT_NORMAL, plain_key ch)
    | WAIT_FUNC_KEY =>
        (WAIT_NORMAL, if ch =? 0x41 then KUp else if ch =? 0x42 then KDown
                      else if ch =? 0x44 then KLeft else if ch =? 0x43 then KRight else plain_key ch)
    | WAIT_NORMAL => (WAIT_NORMAL, plain_key ch)
    end.

(** The text is [e_before] and [e_after]; [e_stale] are the bytes of the
    buffer behind it, zero unless a line was discarded. *)
Record editor := Editor {
  e_before : list Z;
  e_after : list Z;
  e_stale : list Z;
  e_hist : list (list Z);
  e_cur : nat
}.

Definition e_text (e : editor) : list Z := e_before e ++ e_after e.
Definition e_buffer (e : editor) : list Z := e_text e ++ e_stale e ++ [0].
Definition zeros_to (l : list Z) : list Z := replicate (FINSH_CMD_SIZE - length l) 0.
Definition fresh (hist : list (list Z)) (cur : nat) (text : list Z) : editor := Editor text [] (zeros_to text) hist cur.

(** What a reader of the C string sees of some bytes. *)
Fixpoint visible (l : list Z) : list Z :=
  match l with
  | [] => []
  | c :: l => if c =? 0 then [] else c :: visible l
  end.

(** A line is remembered unless it is empty or equals the last one. *)
Definition remember (hist : list (list Z)) (text stale : list Z) : list (list Z) :=
  if (length text =? 0)%nat then hist
  else
    match last hist with
    | Some h => if bool_decide (h ++ zeros_to h = text ++ stale) then hist
                else (if (length hist <? FINSH_HISTORY_LINES)%nat then hist else drop 1 hist) ++ [text]
    | None => [text]
    end.

Definition outputs (text : list Z) : list event := [rt_kprintf_text text].
Definition back (n : nat) : list event := replicate n (rt_kprintf_text [cBS]).

Section Editor.
Variable syscall_table : list finsh_syscall.
Variable echo : bool.
Variable prompt : list Z.

Definition echoed (log : list event) : list event := if echo then log else [].

Definition show_line (hist : list (list Z)) (cur : nat) : editor * list event :=
    let text := default [] (hist !! cur) in
    (fresh hist cur text, outputs (cESC :: codes "[2K"%string ++ [cRETURN]) ++ outputs (prompt ++ text)).

Definition edit_char (c : Z) (e : editor) : editor * list event :=
    let '(Editor before after stale hist cur) := e in
    let stale := drop 1 stale in
    (if (length (before ++ c :: after) =? FINSH_CMD_SIZE)%nat
     then Editor [] [] (before ++ c :: after) hist cur
     else Editor (before ++ [c]) after stale hist cur,
     match after with
     | [] => echoed (outputs [c])
     | _ => echoed (outputs (c :: after ++ visible stale)) ++ back (length after)
     end).

Definition edit_backspace (e : editor) : editor * list event :=
    match last (e_before e) with
    | None => (e, [])
    | Some _ =>
        (Editor (removelast (e_before e)) (e_after e) (0 :: e_stale e) (e_hist e) (e_cur e),
         match e_after e with
         | [] => outputs [cBS; cSPACE; cBS]
         | after => outputs (cBS :: after ++ [cSPACE; cSPACE; cBS]) ++ back (S (length after))
         end)
    end.

Definition edit (k : key) (e : editor) : option (editor * list event) :=
    match k with
    | KNone => Some (e, [])
    | KUp => Some (match e_cur e with O => (e, []) | S cur => show_line (e_hist e) cur end)
    | KDown =>
        Some (if (length (e_hist e) =? 0)%nat then (e, [])
              else show_line (e_hist e) (if (S (e_cur e) <? length (e_hist e))%nat then S (e_cur e) else length (e_hist e) - 1)%nat)
    | KLeft =>
        Some (match last (e_before e) with
              | None => (e, [])
              | Some c => (Editor (removelast (e_before e)) (c :: e_after e) (e_stale e) (e_hist e) (e_cur e), outputs [cBS])
              end)
    | KRight =>
        Some (match e_after e with
              | [] => (e, [])
              | c :: after => (Editor (e_before e ++ [c]) after (e_stale e) (e_hist e) (e_cur e), outputs [c])
              end)
    | KChar c => Some (edit_char c e)
    | KBackspace => Some (edit_backspace e)
    | KReturn =>
        let hist := remember (e_hist e) (e_text e) (e_stale e) in
        '(_, log) ← msh_exec syscall_table (e_buffer e) 0 (length (e_text e));
        Some (fresh hist (length hist) [], echoed (outputs [cNEWLINE]) ++ log ++ outputs prompt)
    | KTab =>
        '(a, log) ← msh_auto_complete syscall_table (e_buffer e);
        let text := visible a in
        if (length text <? FINSH_CMD_SIZE)%nat then
          Some (Editor text [] (take (FINSH_CMD_SIZE - length text) (drop (length text) a)) (e_hist e) (e_cur e),
                back (length (e_before e)) ++ outputs [cNEWLINE] ++ log ++ outputs (prompt ++ text))
        else None
    end.

Fixpoint edit_keys (input : list Z) (st : input_stat) (e : editor) : option (input_stat * editor * list event) :=
    match input with
    | [] => Some (st, e, [])
    | ch :: input =>
        let '(st, k) := decode_key st ch in
        '(e, log) ← edit k e;
        '(st, e, log') ← edit_keys input st e;
        Some (st, e, log ++ log')
    end.

  (** ** The editor's invariant *)
Record editor_ok (e : editor) : Prop := {
    eo_text : nonzero (e_text e);
    eo_size : (length (e_text e) + length (e_stale e) = FINSH_CMD_SIZE)%nat;
    eo_room : (length (e_text e) < FINSH_CMD_SIZE)%nat;
    eo_count : (length (e_hist e) <= FINSH_HISTORY_LINES)%nat;
    eo_hist : Forall (fun h => nonzero h /\ (0 < length h < FINSH_CMD_SIZE)%nat) (e_hist e);
    eo_cur : (e_cur e <= length (e_hist e))%nat
  }.

  (** How the structure of the code holds an editor. *)
Record represents (st : input_stat) (e : editor) (s : finsh_shell) : Prop := {
    re_stat : stat s = st;
    re_echo : echo_mode s = if echo then 1 else 0;
    re_prompt : finsh_get_prompt s = prompt;
    re_cur : current_history s = Z.of_nat (e_cur e);
    re_count : history_count s = Z.of_nat (length (e_hist e));
    re_rows : length (cmd_history s) = FINSH_HISTORY_LINES;
    re_hist : forall i h, e_hist e !! i = Some h -> cmd_history s !! i = Some (h ++ zeros_to h);
    re_line : line s = e_buffer e;
    re_pos : line_position s = Z.of_nat (length (e_text e));
    re_curpos : line_curpos s = Z.of_nat (length (e_before e))
  }.
End Editor.

Arguments re_stat {echo prompt st e s}.
Arguments re_echo {echo prompt st e s}.
Arguments re_prompt {echo prompt st e s}.
Arguments re_cur {echo prompt st e s}.
Arguments re_count {echo prompt st e s}.
Arguments re_rows {echo prompt st e s}.
Arguments re_hist {echo prompt st e s}.
Arguments re_line {echo prompt st e s}.
Arguments re_pos {echo prompt st e s}.
Arguments re_curpos {echo prompt st e s}.

(** ** Arrays *)
Lemma visible_app t x : nonzero t -> visible (t ++ x) = t ++ visible x.
Proof. induction 1 as [|c t Hc _ IH]; cbn [app visible]; [done|]. destruct (Z.eqb_spec c 0); [done|]. by rewrite IH. Qed.

Lemma visible_nonzero l : nonzero (visible l).
Proof. induction l as [|c l IH]; cbn [visible]; [constructor|]. destruct (Z.eqb_spec c 0); by constructor. Qed.

Lemma visible_zero l : visible (l ++ [0]) = visible l.
Proof. induction l as [|c l IH]; cbn [app visible]; [done|]. by rewrite IH. Qed.

Lemma visible_zeros n : visible (replicate n 0) = [].
Proof. by destruct n. Qed.

Lemma visible_split l : exists r, l = visible l ++ r.
Proof. induction l as [|c l [r IH]]; cbn [visible]; [by exists []|]. destruct (c =? 0); [by exists (c :: l)|]. exists r. cbn [app]. by rewrite <- IH. Qed.

Lemma cstring_visible l : cstring (l ++ [0]) = Some (visible l).
Proof. induction l as [|c l IH]; cbn [app cstring visible]; [done|]. destruct (c =? 0); [done|]. by rewrite IH. Qed.

Lemma move_insert b a x r c :
  (l ← move (b ++ a ++ x :: r) (length b + 1) (length b) (length a); aset l (length b) c) = Some (b ++ c :: a ++ r).
Proof.
  unfold move. rewrite !length_app. cbn [length]. rewrite (proj2 (Nat.leb_le _ _)), (proj2 (Nat.leb_le _ _)) by lia. cbn [andb mbind option_bind].
  rewrite drop_app_length, take_app_length.
  assert (exists y w, a ++ x :: r = y :: w) as (y & w & E) by (destruct a; cbn [app]; eauto).
  assert (take (length b + 1) (b ++ a ++ x :: r) = b ++ [y]) as -> by (by rewrite E, take_app_add).
  assert (drop (length b + 1 + length a) (b ++ a ++ x :: r) = r) as ->.
  { rewrite <- Nat.add_assoc, drop_app_add. rewrite (cons_middle x), app_assoc, drop_app_length' by (rewrite length_app; cbn [length]; lia). done. }
  rewrite <- app_assoc. cbn [app]. by rewrite aset_app.
Qed.

Lemma drop_shifted (c : Z) a r : exists y, drop (length a) (c :: a ++ r) = y :: r.
Proof. revert c. induction a as [|d a IH]; intros c; [by exists c|apply IH]. Qed.

Lemma move_delete b c a r :
  (l ← move (b ++ c :: a ++ r) (length b) (length b + 1) (length a); aset l (length b + length a) 0) = Some (b ++ a ++ 0 :: r).
Proof.
  unfold move. rewrite !length_app. cbn [length]. rewrite length_app, (proj2 (Nat.leb_le _ _)), (proj2 (Nat.leb_le _ _)) by lia. cbn [andb mbind option_bind].
  rewrite take_app_length, drop_app_add. change (drop 1 (c :: a ++ r)) with (a ++ r). rewrite take_app_length, drop_app_add.
  destruct (drop_shifted c a r) as [y ->].
  rewrite (app_assoc b a), <- length_app, aset_app. by rewrite <- app_assoc.
Qed.

Lemma u16_nat n : (n <= 81)%nat -> u16 (Z.of_nat n) = Z.of_nat n.
Proof. intros. apply wrap_small. lia. Qed.

Lemma u16_succ n : (n <= 80)%nat -> u16 (Z.of_nat n + 1) = Z.of_nat (S n).
Proof. intros. rewrite <- (u16_nat (S n)) by lia. f_equal. lia. Qed.

Lemma u16_pred n : (n <= 80)%nat -> u16 (Z.of_nat (S n) - 1) = Z.of_nat n.
Proof. intros. rewrite <- (u16_nat n) by lia. f_equal. lia. Qed.

Lemma prompt_line a p c s : finsh_get_prompt (set_line a p c s) = finsh_get_prompt s.
Proof. reflexivity. Qed.
Lemma prompt_history c n rows s : finsh_get_prompt (set_history c n rows s) = finsh_get_prompt s.
Proof. reflexivity. Qed.
Lemma prompt_put log s : finsh_get_prompt (put log s) = finsh_get_prompt s.
Proof. reflexivity. Qed.

(** ** Refinement *)
Section Refinement.
Context (syscall_table : list finsh_syscall) (echo : bool) (prompt : list Z).
Context (Hnames : names_ok syscall_table) (Hfit : Forall (fun c => (length c < FINSH_CMD_SIZE)%nat) (commands syscall_table)).
Context (Hprompt : expand no_strings prompt [] = Some prompt).
Local Notation rep := (represents echo prompt).
Local Notation press := (edit syscall_table echo prompt).

(** The operation ends without a fault, holds [e'], and printed [log]. *)
Definition implements (r : option finsh_shell) (st : input_stat) (s : finsh_shell) (res : editor * list event) : Prop :=
  exists s', r = Some s' /\ rep st res.1 s' /\ console s' = console s ++ res.2.

Lemma rep_stat st st' e s : rep st e s -> rep st' e (set_input st' s).
Proof. intros []. by constructor. Qed.

Lemma rep_put st e s log : rep st e s -> rep st e (put log s).
Proof. intros []. by constructor. Qed.

(** Only the line, the cursor and the console differ. *)
Lemma rep_line st e s s1 b a stale : rep st e s ->
  (stat s1, echo_mode s1, finsh_get_prompt s1, current_history s1, history_count s1, cmd_history s1) =
    (stat s, echo_mode s, finsh_get_prompt s, current_history s, history_count s, cmd_history s) ->
  line s1 = b ++ a ++ stale ++ [0] -> line_position s1 = Z.of_nat (length b + length a) -> line_curpos s1 = Z.of_nat (length b) ->
  rep st (Editor b a stale (e_hist e) (e_cur e)) s1.
Proof.
  intros [] [= H1 H2 H3 H4 H5 H6] Hl Hp Hc. constructor; cbn; try congruence.
  - rewrite H6. done.
  - unfold e_buffer, e_text. cbn. by rewrite Hl, <- app_assoc.
  - unfold e_text. cbn. by rewrite Hp, length_app.
Qed.

Lemma implements_id st e s : rep st e s -> implements (Some s) st s (e, []).
Proof. intros H. exists s. by rewrite app_nil_r. Qed.

Lemma buffer_size e : editor_ok e -> length (e_buffer e) = S FINSH_CMD_SIZE.
Proof. intros He. unfold e_buffer. rewrite !length_app. pose proof (eo_size _ He). cbn [length]. lia. Qed.

Lemma last_split (l : list Z) c : last l = Some c -> l = removelast l ++ [c].
Proof. intros H. apply last_Some in H as [l' ->]. by rewrite removelast_last. Qed.

Lemma editor_small e : editor_ok e -> (length (e_before e) + length (e_after e) <= 79)%nat.
Proof. intros He. pose proof (eo_room _ He) as H. unfold e_text, FINSH_CMD_SIZE in H. rewrite length_app in H. lia. Qed.

Lemma left_key_ok st e s : rep st e s -> editor_ok e -> forall r, press KLeft e = Some r -> implements (left_key s) st s r.
Proof.
  intros Hr He r [= <-]. unfold left_key. rewrite (re_curpos Hr). pose proof (editor_small e He).
  destruct (last (e_before e)) as [c|] eqn:Hl; [|apply last_None in Hl; rewrite Hl; by apply implements_id].
  apply last_split in Hl. set (b := removelast (e_before e)) in *. clearbody b.
  assert (length (e_before e) = S (length b)) as Hlen by (rewrite Hl, length_app; cbn [length]; lia).
  rewrite Hlen. cbn [Z.eqb Z.of_nat negb]. change (Z.pos (Pos.of_succ_nat (length b))) with (Z.of_nat (S (length b))).
  eexists. split; [done|]. split; [|done]. cbn [fst].
  apply (rep_line st e s); [done|done|cbn [line at_pos set_line put]|cbn [line_position at_pos set_line put]|apply u16_pred; lia].
  - rewrite (re_line Hr). unfold e_buffer, e_text. rewrite Hl. by rewrite <- !app_assoc.
  - rewrite (re_pos Hr). unfold e_text. rewrite length_app. cbn [length]. lia.
Qed.

Lemma right_key_ok st e s : rep st e s -> editor_ok e -> forall r, press KRight e = Some r -> implements (right_key s) st s r.
Proof.
  intros Hr He r [= <-]. unfold right_key. rewrite (re_curpos Hr), (re_pos Hr), (re_line Hr). pose proof (editor_small e He).
  unfold e_buffer, e_text. rewrite length_app. destruct (e_after e) as [|c a] eqn:Ha; cbn [length] in *.
  - rewrite Nat.add_0_r, Z.ltb_irrefl. by apply implements_id.
  - rewrite (proj2 (Z.ltb_lt _ _)) by lia. rewrite Nat2Z.id, <- app_assoc. cbn [app]. rewrite aget_app. cbn [mbind option_bind].
    eexists. split; [done|]. split; [|done]. cbn [fst].
    apply (rep_line st e s); [done|done|cbn [line at_pos set_line put]|cbn; rewrite length_app; cbn [length]; lia|cbn; rewrite length_app, u16_succ by lia; cbn [length]; lia].
    rewrite (re_line Hr). unfold e_buffer, e_text. rewrite Ha. by rewrite <- !app_assoc.
Qed.
Lemma buffer_tail e : editor_ok e -> drop FINSH_CMD_SIZE (e_buffer e) = [0].
Proof. intros He. unfold e_buffer. rewrite app_assoc, drop_app_length' by (rewrite length_app; symmetry; apply (eo_size _ He)). done. Qed.

Lemma hist_entry e i : editor_ok e -> (i < length (e_hist e))%nat ->
  exists h, e_hist e !! i = Some h /\ nonzero h /\ (0 < length h < FINSH_CMD_SIZE)%nat.
Proof.
  intros He Hi. destruct (lookup_lt_is_Some_2 _ _ Hi) as [h Hh]. exists h. split; [done|]. pose proof (eo_hist _ He) as H. rewrite Forall_lookup in H. by apply (H i).
Qed.

Lemma row_length (h : list Z) : (length h <= FINSH_CMD_SIZE)%nat -> length (h ++ zeros_to h) = FINSH_CMD_SIZE.
Proof. intros. unfold zeros_to. rewrite length_app, length_replicate. lia. Qed.

Lemma cstring_row h : nonzero h -> cstring (h ++ zeros_to h ++ [0]) = Some h.
Proof.
  intros Hn. unfold zeros_to. rewrite app_assoc, cstring_visible, visible_app, visible_zeros by done. by rewrite app_nil_r.
Qed.

Lemma recall_ok st e s i : rep st e s -> editor_ok e -> (i < length (e_hist e))%nat ->
  implements (recall (Z.of_nat i) s) st s (show_line prompt (e_hist e) i).
Proof.
  intros Hr He Hi. destruct (hist_entry e i He Hi) as (h & Hh & Hn & Hl). unfold recall. cbn zeta. rewrite Nat2Z.id.
  cbn [cmd_history set_history line]. rewrite (re_hist Hr i h Hh). cbn [mbind option_bind].
  rewrite row_length, (re_line Hr), buffer_size by (done || lia). cbn [Nat.leb FINSH_CMD_SIZE andb].
  rewrite buffer_tail by done. rewrite take_ge by (rewrite row_length by lia; done). rewrite <- app_assoc.
  unfold strlen_line. rewrite cstring_row by done. cbn [mbind option_bind]. unfold shell_handle_history. cbn [line set_line]. rewrite cstring_row by done.
  cbn [mbind option_bind]. unfold FINSH_CMD_SIZE in Hl. rewrite u16_nat by lia. unfold show_line. rewrite Hh. change (default [] (Some h)) with h.
  eexists. split; [done|]. split.
  - destruct Hr. constructor; try done; cbn [line set_line put e_buffer e_text fresh e_before e_after e_stale fst]; unfold e_buffer, e_text; cbn; by rewrite app_nil_r.
  - cbn [snd console put set_line set_history]. by rewrite prompt_line, prompt_history, (re_prompt Hr).
Qed.

Lemma up_key_ok st e s : rep st e s -> editor_ok e -> forall r, press KUp e = Some r -> implements (up_key s) st s r.
Proof.
  intros Hr He r [= <-]. unfold up_key. rewrite (re_cur Hr). pose proof (eo_cur _ He). pose proof (eo_count _ He) as Hc. unfold FINSH_HISTORY_LINES in Hc.
  destruct (e_cur e) as [|i] eqn:Ei.
  - eexists. split; [done|]. split; [|by rewrite app_nil_r]. destruct Hr. constructor; try done. cbn. by rewrite Ei.
  - rewrite (proj2 (Z.ltb_lt _ _)), u16_pred by lia. apply recall_ok; [done..|lia].
Qed.

Lemma down_key_ok st e s : rep st e s -> editor_ok e -> forall r, press KDown e = Some r -> implements (down_key s) st s r.
Proof.
  intros Hr He r [= <-]. unfold down_key. rewrite (re_cur Hr), (re_count Hr). pose proof (eo_cur _ He). pose proof (eo_count _ He) as Hc. unfold FINSH_HISTORY_LINES in Hc.
  destruct (Nat.eqb_spec (length (e_hist e)) 0) as [E0|].
  - rewrite E0 in *. rewrite (proj2 (Z.ltb_ge _ _)) by lia. by apply implements_id.
  - destruct (Z.ltb_spec (Z.of_nat (e_cur e)) (Z.of_nat (length (e_hist e)) - 1)).
    + rewrite (proj2 (Nat.ltb_lt _ _)), u16_succ by lia. apply recall_ok; [done..|lia].
    + rewrite (proj2 (Z.eqb_neq _ _)) by lia. cbn [negb]. rewrite (proj2 (Nat.ltb_ge _ _)) by lia.
      replace (length (e_hist e)) with (S (length (e_hist e) - 1)) at 1 by lia. rewrite u16_pred by lia. apply recall_ok; [done..|lia].
Qed.

Lemma backspace_key_ok st e s : rep st e s -> editor_ok e -> forall r, press KBackspace e = Some r -> implements (backspace_key s) st s r.
Proof.
  intros Hr He r [= <-]. unfold backspace_key, edit_backspace. rewrite (re_curpos Hr). pose proof (editor_small e He).
  destruct (last (e_before e)) as [c|] eqn:Hl; [|apply last_None in Hl; rewrite Hl; by apply implements_id].
  apply last_split in Hl. set (b := removelast (e_before e)) in *. clearbody b.
  assert (length (e_before e) = S (length b)) as Hlen by (rewrite Hl, length_app; cbn [length]; lia).
  rewrite (proj2 (Z.eqb_neq _ _)) by lia. cbn zeta. cbn [line_position line_curpos at_pos set_line line]. rewrite (re_pos Hr), (re_line Hr), Hlen, u16_pred by lia.
  assert (length (e_text e) = S (length b + length (e_after e))) as Ht by (unfold e_text; rewrite length_app; lia).
  rewrite Ht, u16_pred by lia. rewrite !Nat2Z.id.
  assert (e_buffer e = b ++ c :: e_after e ++ e_stale e ++ [0]) as Eb by (unfold e_buffer, e_text; rewrite Hl; by rewrite <- !app_assoc).
  assert (nonzero (e_after e)) as Ha by (pose proof (eo_text _ He) as Hn; unfold e_text in Hn; by apply Forall_app in Hn as [_ ?]).
  rewrite Eb. destruct (e_after e) as [|x a] eqn:Ea.
  - cbn [length]. rewrite Nat.add_0_r, Z.ltb_irrefl. cbn [app]. rewrite aset_app. cbn [mbind option_bind].
    eexists. split; [done|]. split; [|done]. cbn [fst]. apply (rep_line st e s); [done|done|done|cbn; lia|done].
  - cbn [length] in *. rewrite (proj2 (Z.ltb_lt _ _)) by lia.
    replace (length b + S (length a) - length b)%nat with (length (x :: a)) by (cbn [length]; lia).
    pose proof (move_delete b c (x :: a) (e_stale e ++ [0])) as Hm. apply bind_Some in Hm as (l & Hm & Hs). rewrite Hm. cbn [mbind option_bind].
    change (length b + S (length a))%nat with (length b + length (x :: a))%nat. rewrite Hs. cbn [mbind option_bind].
    rewrite cstring_at_app by done. cbn [mbind option_bind].
    eexists. split; [done|]. split; [apply (rep_line st e s); [done|done|done|cbn; lia|done]|].
    cbn [console put at_line set_line at_pos snd]. unfold outputs, back, backspaces. cbn [app]. do 3 f_equal. cbn [length]. lia.
Qed.
Lemma stale_split e : editor_ok e -> exists x stale, e_stale e = x :: stale.
Proof.
  intros He. pose proof (eo_size _ He). pose proof (eo_room _ He). destruct (e_stale e) as [|x l]; [|eauto]. cbn [length] in *. lia.
Qed.

(** What the two branches of a normal character leave, before the counters move. *)
Lemma insert_run st e s c stale x : rep st e s -> editor_ok e -> c <> 0 -> e_stale e = x :: stale ->
  (if line_curpos s <? line_position s then
     a ← move (line s) (Z.to_nat (line_curpos s) + 1) (Z.to_nat (line_curpos s)) (Z.to_nat (line_position s) - Z.to_nat (line_curpos s));
     a ← aset a (Z.to_nat (line_curpos s)) c;
     shown ← (if negb (echo_mode s =? 0) then text ← cstring_at a (Z.to_nat (line_curpos s)); Some [rt_kprintf_text text] else Some []);
     Some (put (shown ++ backspaces (line_position s - line_curpos s)) (at_line a s))
   else
     a ← aset (line s) (Z.to_nat (line_position s)) c;
     Some (put (if negb (echo_mode s =? 0) then [rt_kprintf_text [c]] else []) (at_line a s))) =
  Some (put (edit_char echo c e).2 (at_line (e_before e ++ c :: e_after e ++ stale ++ [0]) s)).
Proof.
  intros Hr He Hc Hs. rewrite (re_curpos Hr), (re_pos Hr), (re_line Hr), (re_echo Hr), !Nat2Z.id. unfold e_buffer, e_text. rewrite length_app, Hs.
  destruct e as [b a stl hist cur]. cbn [e_before e_after e_stale edit_char snd drop] in *. subst stl.
  assert (negb ((if echo then 1 else 0) =? 0) = echo) as -> by by destruct echo.
  rewrite <- app_assoc. destruct a as [|y a].
  - cbn [length app]. rewrite Nat.add_0_r, Z.ltb_irrefl, aset_app. cbn [mbind option_bind]. unfold echoed, outputs. by destruct echo.
  - rewrite (proj2 (Z.ltb_lt _ _)) by (cbn [length]; lia). replace (length b + length (y :: a) - length b)%nat with (length (y :: a)) by lia.
    pose proof (move_insert b (y :: a) x (stale ++ [0]) c) as Hm. apply bind_Some in Hm as (l & Hm & Hset). cbn [app] in *. rewrite Hm. cbn [mbind option_bind].
    rewrite Hset. cbn [mbind option_bind].
    assert (cstring_at (b ++ c :: y :: a ++ stale ++ [0]) (length b) = Some (c :: y :: a ++ visible stale)) as ->.
    { unfold cstring_at. rewrite drop_app_length. change (c :: y :: a ++ stale ++ [0]) with ((c :: y :: a) ++ stale ++ [0]).
      rewrite app_assoc, cstring_visible, visible_app; [done|]. constructor; [done|]. pose proof (eo_text _ He) as Hn. by apply Forall_app in Hn as [_ ?]. }
    unfold echoed, outputs, back, backspaces. replace (Z.to_nat _) with (length (y :: a)) by lia. by destruct echo.
Qed.

Lemma normal_key_ok st e s c : rep st e s -> editor_ok e -> c <> 0 -> forall r, press (KChar c) e = Some r -> implements (normal_key c s) st s r.
Proof.
  intros Hr He Hc r [= <-]. pose proof (editor_small e He) as Hlen. destruct (stale_split e He) as (x & stale & Hs).
  unfold normal_key. pose proof (re_pos Hr) as Hp. unfold e_text in Hp. rewrite length_app in Hp.
  assert ((Z.of_nat FINSH_CMD_SIZE <=? line_position s) = false) as -> by (rewrite Hp; apply Z.leb_gt; unfold FINSH_CMD_SIZE; lia).
  cbn zeta. rewrite (insert_run st e s c stale x) by done. cbn [mbind option_bind].
  set (s1 := put _ _). change (line_position s1) with (line_position s). change (line_curpos s1) with (line_curpos s).
  rewrite Hp, (re_curpos Hr), !u16_succ by lia. cbn [line_position at_pos set_line].
  assert (e_stale e = x :: stale) as Hs' by done. destruct e as [b a stl hist cur]. cbn [e_before e_after e_stale edit_char] in *. subst stl. rewrite length_app. cbn [length].
  eexists. split; [done|]. unfold FINSH_CMD_SIZE. destruct (Nat.eqb_spec (length b + S (length a)) 80).
  - rewrite (proj2 (Z.leb_le _ _)) by lia. split; [|done].
    apply (rep_line st (Editor b a (x :: stale) hist cur) s); try done. cbn. rewrite <- !app_assoc. cbn [app]. do 3 f_equal.
    pose proof (eo_size _ He) as Hz. unfold e_text, FINSH_CMD_SIZE in Hz. cbn [e_before e_after e_stale length] in Hz. rewrite length_app in Hz. destruct stale; [done|cbn [length] in Hz; lia].
  - rewrite (proj2 (Z.leb_gt _ _)) by lia. split; [|done].
    apply (rep_line st (Editor b a (x :: stale) hist cur) s); try done; cbn; rewrite ?length_app; cbn [length]; try lia. by rewrite <- !app_assoc.
Qed.
(** *** History *)
Lemma same_cmd_run e h : editor_ok e -> (length h <= FINSH_CMD_SIZE)%nat ->
  same_cmd (h ++ zeros_to h) (e_buffer e) = Some (bool_decide (h ++ zeros_to h = e_text e ++ e_stale e)).
Proof.
  intros He Hh. unfold same_cmd. rewrite row_length, buffer_size by done. cbn [Nat.leb FINSH_CMD_SIZE andb].
  rewrite (take_ge (h ++ _)) by (by rewrite row_length). unfold e_buffer. rewrite app_assoc, take_app_length'; [done|].
  rewrite length_app. symmetry. apply (eo_size _ He).
Qed.

Lemma history_row_run e : editor_ok e -> history_row (e_buffer e) (Z.of_nat (length (e_text e))) = Some (e_text e ++ zeros_to (e_text e)).
Proof.
  intros He. unfold history_row. rewrite Nat2Z.id, buffer_size by done. pose proof (eo_room _ He).
  rewrite (proj2 (Nat.leb_le _ _)), (proj2 (Nat.leb_le _ _)) by lia. cbn [andb]. unfold e_buffer. by rewrite take_app_length.
Qed.

Lemma shift_rows rows : length rows = FINSH_HISTORY_LINES -> exists rows', shift_loop (FINSH_HISTORY_LINES - 1) 0 rows = Some rows' /\
  length rows' = FINSH_HISTORY_LINES /\ forall i, (i < FINSH_HISTORY_LINES - 1)%nat -> rows' !! i = rows !! S i.
Proof.
  destruct rows as [|r0 [|r1 [|r2 [|r3 [|r4 [|]]]]]]; try discriminate. intros _. eexists. split; [reflexivity|]. split; [done|].
  intros [|[|[|[|i]]]] Hi; try done. cbn in Hi. lia.
Qed.

Lemma rep_history st e s rows hist cur : rep st e s -> length rows = FINSH_HISTORY_LINES ->
  (forall i h, hist !! i = Some h -> rows !! i = Some (h ++ zeros_to h)) ->
  rep st (Editor (e_before e) (e_after e) (e_stale e) hist cur) (set_history (Z.of_nat cur) (Z.of_nat (length hist)) rows s).
Proof. intros [] H1 H2. by constructor. Qed.

Lemma row_set_run rows i (row : list Z) : (i < length rows)%nat -> row_set rows i row = Some (<[i := row]> rows).
Proof. intros H. unfold row_set. by rewrite (proj2 (Nat.ltb_lt _ _)). Qed.

(** Adding the text to a history that is full, and to one that is not. *)
Lemma push_full st e s : rep st e s -> editor_ok e -> length (e_hist e) = FINSH_HISTORY_LINES ->
  exists rows', (rows ← shift_loop (FINSH_HISTORY_LINES - 1) 0 (cmd_history s); row ← history_row (line s) (line_position s);
      row_set rows (FINSH_HISTORY_LINES - 1) row) = Some rows' /\ length rows' = FINSH_HISTORY_LINES /\
    forall i h, (drop 1 (e_hist e) ++ [e_text e]) !! i = Some h -> rows' !! i = Some (h ++ zeros_to h).
Proof.
  intros Hr He Hn. destruct (shift_rows (cmd_history s) (re_rows Hr)) as (rows & -> & Hl & Hrows). cbn [mbind option_bind].
  rewrite (re_line Hr), (re_pos Hr), history_row_run by done. cbn [mbind option_bind]. rewrite row_set_run by (rewrite Hl; unfold FINSH_HISTORY_LINES; lia).
  eexists. split; [done|]. split; [by rewrite length_insert|]. intros i h Hi.
  assert (length (drop 1 (e_hist e)) = FINSH_HISTORY_LINES - 1)%nat as Hd by (rewrite length_drop; lia).
  apply lookup_app_Some in Hi as [Hi|[Hge Hi]].
  - pose proof (lookup_lt_Some _ _ _ Hi). rewrite list_lookup_insert_ne by lia. rewrite Hrows by lia. rewrite lookup_drop in Hi. by apply (re_hist Hr).
  - apply list_lookup_singleton_Some in Hi as [Hi <-]. replace i with (FINSH_HISTORY_LINES - 1)%nat by lia. rewrite list_lookup_insert_eq; [done|]. rewrite Hl. unfold FINSH_HISTORY_LINES. lia.
Qed.

Lemma push_room st e s : rep st e s -> editor_ok e -> (length (e_hist e) < FINSH_HISTORY_LINES)%nat ->
  exists rows', (row ← history_row (line s) (line_position s); row_set (cmd_history s) (Z.to_nat (history_count s)) row) = Some rows' /\
    length rows' = FINSH_HISTORY_LINES /\
    forall i h, (e_hist e ++ [e_text e]) !! i = Some h -> rows' !! i = Some (h ++ zeros_to h).
Proof.
  intros Hr He Hn. pose proof (re_rows Hr) as Hl. rewrite (re_line Hr), (re_pos Hr), (re_count Hr), Nat2Z.id, history_row_run by done. cbn [mbind option_bind].
  rewrite row_set_run by lia. eexists. split; [done|]. split; [by rewrite length_insert|]. intros i h Hi.
  apply lookup_app_Some in Hi as [Hi|[Hge Hi]].
  - pose proof (lookup_lt_Some _ _ _ Hi). rewrite list_lookup_insert_ne by lia. by apply (re_hist Hr).
  - apply list_lookup_singleton_Some in Hi as [Hi <-]. replace i with (length (e_hist e)) by lia. rewrite list_lookup_insert_eq; [done|lia].
Qed.

Lemma last_lookup_row st e s h : rep st e s -> last (e_hist e) = Some h ->
  cmd_history s !! (length (e_hist e) - 1)%nat = Some (h ++ zeros_to h).
Proof. intros Hr H. apply (re_hist Hr). rewrite last_lookup in H. by rewrite <- Nat.sub_1_r in H. Qed.

Lemma last_small e h : editor_ok e -> last (e_hist e) = Some h -> (length h <= FINSH_CMD_SIZE)%nat.
Proof.
  intros He Hl. pose proof (eo_hist _ He) as H. rewrite Forall_forall in H. destruct (H h) as [_ ?]; [by apply last_Some_elem_of|lia].
Qed.

(** What pushing leaves, for the new history. *)
Definition pushed_line (st : input_stat) (e : editor) (s : finsh_shell) (hist : list (list Z)) (r : option finsh_shell) : Prop :=
  exists s', r = Some s' /\ console s' = console s /\ line s' = line s /\ line_position s' = line_position s /\ echo_mode s' = echo_mode s /\
    rep st (Editor (e_before e) (e_after e) (e_stale e) hist (length hist)) s'.

Lemma pushed_line_intro st e s hist rows cur count : rep st e s -> count = Z.of_nat (length hist) -> length rows = FINSH_HISTORY_LINES ->
  (forall i h, hist !! i = Some h -> rows !! i = Some (h ++ zeros_to h)) ->
  pushed_line st e s hist (let s1 := set_history cur count rows s in Some (set_history (history_count s1) (history_count s1) (cmd_history s1) s1)).
Proof.
  intros Hr -> Hl Hh. eexists. split; [done|]. repeat (split; [done|]). by apply (rep_history st e s rows hist (length hist)).
Qed.

Lemma set_history_id s : set_history (current_history s) (history_count s) (cmd_history s) s = s.
Proof. by destruct s. Qed.

Lemma push_history_ok st e s : rep st e s -> editor_ok e ->
  pushed_line st e s (remember (e_hist e) (e_text e) (e_stale e)) (shell_push_history s).
Proof.
  intros Hr He. unfold shell_push_history, remember. pose proof (eo_count _ He) as Hc.
  pose proof (pushed_line_intro st e s (e_hist e) (cmd_history s) (current_history s) (history_count s) Hr (re_count Hr) (re_rows Hr) (re_hist Hr)) as Hsame.
  cbn zeta in Hsame. rewrite set_history_id in Hsame. rewrite (re_pos Hr).
  destruct (Nat.eqb_spec (length (e_text e)) 0) as [E0|E0]; [by rewrite E0|]. rewrite (proj2 (Z.eqb_neq _ _)) by lia. cbn [negb].
  destruct (Z.leb_spec (Z.of_nat FINSH_HISTORY_LINES) (history_count s)) as [Hfull|Hroom]; rewrite (re_count Hr) in *.
  - assert (length (e_hist e) = FINSH_HISTORY_LINES) as Hn by lia.
    destruct (last (e_hist e)) as [h|] eqn:Hlast; [|apply last_None in Hlast; rewrite Hlast in Hn; discriminate].
    pose proof (last_lookup_row st e s h Hr Hlast) as Hrow. rewrite Hn in Hrow. rewrite Hrow. cbn [mbind option_bind].
    rewrite (re_line Hr), same_cmd_run by (done || by apply (last_small e)). cbn [mbind option_bind].
    case_bool_decide as Hsm; cbn [negb mbind option_bind]; [rewrite (re_count Hr); exact Hsame|]. rewrite <- (re_line Hr), <- (re_pos Hr). rewrite (proj2 (Nat.ltb_ge _ _)) by lia.
    destruct (push_full st e s Hr He Hn) as (rows' & H & Hl & Hh).
    apply bind_Some in H as (rows1 & -> & H). apply bind_Some in H as (row & -> & H). cbn [mbind option_bind]. rewrite H. cbn [mbind option_bind].
    apply pushed_line_intro; [done| |done|done]. rewrite length_app, length_drop. cbn [length]. unfold FINSH_HISTORY_LINES in *. lia.
  - assert (length (e_hist e) < FINSH_HISTORY_LINES)%nat as Hn by lia.
    destruct (push_room st e s Hr He Hn) as (rows' & H & Hl & Hh). apply bind_Some in H as (row & Hrow & H).
    assert (pushed_line st e s (e_hist e ++ [e_text e])
      (s0 ← (row ← history_row (line s) (line_position s); rows ← row_set (cmd_history s) (Z.to_nat (history_count s)) row;
             Some (set_history (history_count s) (u16 (history_count s + 1)) rows s));
       Some (set_history (history_count s0) (history_count s0) (cmd_history s0) s0))) as Hpush.
    { rewrite Hrow. cbn [mbind option_bind]. rewrite H. cbn [mbind option_bind]. apply pushed_line_intro; [done| |done|done].
      rewrite (re_count Hr), u16_succ by (unfold FINSH_HISTORY_LINES in *; lia). rewrite length_app. cbn [length]. lia. }
    rewrite (re_pos Hr), (re_count Hr) in Hpush.
    destruct (last (e_hist e)) as [h|] eqn:Hlast.
    + destruct (Z.eqb_spec (Z.of_nat (length (e_hist e))) 0) as [E|_]; [destruct (e_hist e); [discriminate|cbn [length] in E; lia]|].
      replace (Z.to_nat (Z.of_nat (length (e_hist e)) - 1)) with (length (e_hist e) - 1)%nat by lia.
      rewrite (last_lookup_row st e s h Hr Hlast). cbn [mbind option_bind]. rewrite (re_line Hr) in *. rewrite same_cmd_run by (done || by apply (last_small e)).
      cbn [mbind option_bind]. case_bool_decide as Hsm; cbn [negb mbind option_bind]; [rewrite (re_count Hr); exact Hsame|]. rewrite (proj2 (Nat.ltb_lt _ _)) by done. exact Hpush.
    + apply last_None in Hlast. rewrite Hlast in Hpush |- *. exact Hpush.
Qed.
(** *** Return and tab *)
Lemma return_key_ok st e s : rep st e s -> editor_ok e -> forall r, press KReturn e = Some r -> implements (return_key syscall_table s) st s r.
Proof.
  intros Hr He r. unfold return_key. cbn [edit].
  destruct (push_history_ok st e s Hr He) as (s1 & -> & Hcon & Hline & Hpos & Hecho & Hr1). cbn [mbind option_bind].
  set (hist := remember _ _ _) in *. destruct (msh_exec syscall_table (e_buffer e) 0 (length (e_text e))) as [[ret log]|] eqn:Hx; [|done].
  intros [= <-]. set (s2 := if negb (echo_mode s1 =? 0) then _ else _).
  assert (s2 = put (echoed echo (outputs [cNEWLINE])) s1) as ->.
  { unfold s2. rewrite Hecho, (re_echo Hr). destruct echo; [done|]. destruct s1. unfold put. cbn. by rewrite app_nil_r. }
  cbn [line line_position put]. rewrite Hline, Hpos, (re_line Hr), (re_pos Hr), Nat2Z.id, Hx. cbn [mbind option_bind].
  unfold show_prompt. rewrite !prompt_put, (re_prompt Hr1), Hprompt. cbn [mbind option_bind].
  eexists. split; [done|]. split; [|cbn [console put set_line snd]; rewrite Hcon, <- !app_assoc; done].
  destruct Hr1. by constructor.
Qed.

Lemma auto_complete_length line a log : msh_auto_complete syscall_table line = Some (a, log) -> length a = length line.
Proof.
  unfold msh_auto_complete. intros H. apply bind_Some in H as (c & _ & H). destruct (c =? 0).
  - apply bind_Some in H as (lg & _ & [= <- _]). done.
  - apply bind_Some in H as (p & _ & H). apply bind_Some in H as ([[[q|] m] lg] & _ & H); [|by injection H as <- _].
    destruct (Nat.leb_spec m (length line)); [|done]. injection H as <- _. rewrite length_app, Object.strncpy_length, length_drop. lia.
Qed.

Lemma visible_rest (l : list Z) : exists suf, l ++ [0] = visible l ++ 0 :: suf.
Proof. by destruct (cstring_Some _ _ (cstring_visible l)). Qed.

(** Completion leaves the last byte of the buffer alone. *)
Lemma complete_last e a log : editor_ok e -> msh_auto_complete syscall_table (e_buffer e) = Some (a, log) -> exists l, length l = FINSH_CMD_SIZE /\ a = l ++ [0].
Proof.
  intros He H. pose proof (auto_complete_length _ _ _ H) as Hlen. rewrite buffer_size in Hlen by done.
  cut (a !! FINSH_CMD_SIZE = Some 0).
  { intros Ha. exists (take FINSH_CMD_SIZE a). split; [rewrite length_take; lia|]. rewrite <- (take_drop FINSH_CMD_SIZE a) at 1. f_equal.
    rewrite (drop_S _ _ _ Ha). by rewrite drop_ge by lia. }
  assert (e_buffer e !! FINSH_CMD_SIZE = Some 0) as Hz.
  { pose proof (buffer_tail e He) as Ht. rewrite <- (Nat.add_0_r FINSH_CMD_SIZE), <- lookup_drop, Ht. done. }
  destruct (visible_rest (e_text e ++ e_stale e)) as (suf & Eb). rewrite <- app_assoc in Eb. fold (e_buffer e) in Eb.
  set (p := visible _) in *. destruct (decide (p = [])) as [Hp|Hp].
  - rewrite Hp in Eb. cbn [app] in Eb. rewrite Eb in H. unfold msh_auto_complete in H. cbn in H. apply bind_Some in H as (lg & _ & [= <- _]). by rewrite <- Eb.
  - assert (length p <= FINSH_CMD_SIZE)%nat as Hpl by (pose proof (buffer_size e He) as Hb; rewrite Eb, length_app in Hb; cbn [length] in Hb; lia).
    destruct (auto_complete_run syscall_table p suf Hnames (visible_nonzero _) Hp) as (l & Hrun & Hl).
    { rewrite <- Eb, buffer_size by done. eapply Forall_impl; [exact Hfit|]. cbn beta. lia. }
    rewrite <- Eb in Hrun. rewrite Hrun in H. injection H as <- _.
    assert (length l <= FINSH_CMD_SIZE)%nat.
    { destruct (candidates syscall_table p) as [|c cs] eqn:Ec; [by rewrite Hl|]. destruct Hl as [Hall _].
      pose proof (prefix_length _ _ (Hall c (list_elem_of_here _ _))). pose proof Hfit as Hf. rewrite Forall_forall in Hf.
      specialize (Hf c). cbn beta in Hf. enough (length c < FINSH_CMD_SIZE)%nat by lia. apply Hf, (candidate_command _ p). rewrite Ec. apply list_elem_of_here. }
    rewrite lookup_app_r, lookup_drop by lia. by replace (length l + (FINSH_CMD_SIZE - length l))%nat with FINSH_CMD_SIZE by lia.
Qed.

Lemma tab_key_ok st e s : rep st e s -> editor_ok e -> forall r, press KTab e = Some r -> implements (tab_key syscall_table s) st s r.
Proof.
  intros Hr He r. unfold tab_key, shell_auto_complete. cbn [edit]. cbn [line put].
  rewrite (re_line Hr). destruct (msh_auto_complete syscall_table (e_buffer e)) as [[a log]|] eqn:Ha; [|done]. cbn [mbind option_bind].
  destruct (complete_last e a log He Ha) as (l & Hl & ->). rewrite visible_zero, cstring_visible. cbn [mbind option_bind].
  destruct (Nat.ltb_spec (length (visible l)) FINSH_CMD_SIZE) as [Hroom|]; [|done]. intros [= <-].
  cbn [line put at_line set_line]. unfold strlen_line. rewrite cstring_visible. cbn [mbind option_bind].
  unfold FINSH_CMD_SIZE in Hroom. rewrite u16_nat by lia.
  eexists. split; [done|]. split; [|cbn [console put set_line at_line at_pos snd]; unfold backspaces, back; rewrite (re_curpos Hr), Nat2Z.id, <- !app_assoc; do 4 f_equal;
    by rewrite prompt_put, (re_prompt Hr)].
  destruct (visible_split l) as [rest Hrest].
  apply (rep_line st e s); [done|done| |cbn; by rewrite Nat.add_0_r|done].
  cbn [line at_pos set_line at_line put app]. set (v := visible l) in *. clearbody v. subst l. rewrite length_app in Hl.
  rewrite <- !app_assoc, drop_app_length, take_app_length' by lia. done.
Qed.
(** *** One character, and a run *)
Definition key_ok (k : key) : Prop := match k with KChar c => c <> 0 | _ => True end.

Lemma plain_key_ok ch : key_ok (plain_key ch).
Proof.
  unfold plain_key. destruct (Z.eqb_spec ch 0); cbn [orb]; [done|]. destruct (ch =? 0xff); [done|]. destruct (ch =? cTAB); [done|].
  destruct ((ch =? cDEL) || (ch =? cBS)); [done|]. by destruct ((ch =? cRETURN) || (ch =? cNEWLINE)).
Qed.

Lemma decode_key_ok st ch : key_ok (decode_key st ch).2.
Proof.
  unfold decode_key. destruct (ch =? cESC); [done|]. destruct st; cbn [snd]; [apply plain_key_ok|destruct (ch =? 0x5b); [done|apply plain_key_ok]|].
  repeat (case_match; [done|]). apply plain_key_ok.
Qed.

Lemma plain_char_ok st e s ch r : rep st e s -> editor_ok e -> press (plain_key ch) e = Some r -> implements (plain_char syscall_table ch s) st s r.
Proof.
  intros Hr He. pose proof (plain_key_ok ch) as Hk. unfold plain_key, plain_char in *. destruct ((ch =? 0) || (ch =? 255)) eqn:E0.
  { intros [= <-]. by apply implements_id. }
  destruct (ch =? cTAB); [by apply tab_key_ok|]. destruct ((ch =? cDEL) || (ch =? cBS)); [by apply backspace_key_ok|].
  destruct ((ch =? cRETURN) || (ch =? cNEWLINE)); [by apply return_key_ok|]. by apply normal_key_ok.
Qed.

Lemma implements_stat f st st' s r : implements f st' (set_input st s) r -> implements f st' s r.
Proof. done. Qed.

Lemma finsh_char_ok st e s ch r : rep st e s -> editor_ok e -> press (decode_key st ch).2 e = Some r ->
  implements (finsh_char syscall_table ch s) (decode_key st ch).1 s r.
Proof.
  intros Hr He. unfold decode_key, finsh_char. rewrite (re_stat Hr).
  assert (forall st', rep st' e (set_input st' s)) as Hst by (intros st'; by eapply rep_stat).
  destruct (ch =? cESC); cbn [fst snd].
  { intros [= <-]. eapply (implements_stat _ WAIT_SPEC_KEY), implements_id, Hst. }
  destruct st; cbn [fst snd]; intros H.
  - by apply (plain_char_ok _ e).
  - destruct (ch =? 91); cbn [fst snd] in *; [injection H as <-; eapply (implements_stat _ WAIT_FUNC_KEY), implements_id, Hst|].
    eapply (implements_stat _ WAIT_NORMAL), plain_char_ok; [apply Hst|done..].
  - eapply (implements_stat _ WAIT_NORMAL). cbn zeta. specialize (Hst WAIT_NORMAL).
    destruct (ch =? 65); [by apply (up_key_ok _ e)|]. destruct (ch =? 66); [by apply (down_key_ok _ e)|].
    destruct (ch =? 68); [by apply (left_key_ok _ e)|]. destruct (ch =? 67); [by apply (right_key_ok _ e)|]. by apply (plain_char_ok _ e).
Qed.

Lemma fresh_ok hist cur text : nonzero text -> (length text < FINSH_CMD_SIZE)%nat -> (length hist <= FINSH_HISTORY_LINES)%nat ->
  Forall (fun h => nonzero h /\ (0 < length h < FINSH_CMD_SIZE)%nat) hist -> (cur <= length hist)%nat -> editor_ok (fresh hist cur text).
Proof.
  intros. constructor; unfold fresh, e_text; cbn [e_before e_after e_stale e_hist e_cur]; rewrite ?app_nil_r; try done.
  unfold zeros_to. rewrite length_replicate. lia.
Qed.

Lemma remember_ok e : editor_ok e -> let hist := remember (e_hist e) (e_text e) (e_stale e) in
  (length hist <= FINSH_HISTORY_LINES)%nat /\ Forall (fun h => nonzero h /\ (0 < length h < FINSH_CMD_SIZE)%nat) hist.
Proof.
  intros He. unfold remember. pose proof (eo_count _ He) as Hc. pose proof (eo_hist _ He) as Hh.
  destruct (Nat.eqb_spec (length (e_text e)) 0); [done|].
  assert (nonzero (e_text e) /\ (0 < length (e_text e) < FINSH_CMD_SIZE)%nat) as Ht by (split; [apply He|pose proof (eo_room _ He); lia]).
  destruct (last (e_hist e)); [|split; [cbn; unfold FINSH_HISTORY_LINES; lia|by constructor]].
  case_bool_decide; [done|]. destruct (Nat.ltb_spec (length (e_hist e)) FINSH_HISTORY_LINES); rewrite length_app; cbn [length]; rewrite Forall_app.
  - split; [lia|]. split; [done|by constructor].
  - rewrite length_drop. unfold FINSH_HISTORY_LINES in *. split; [lia|]. split; [by apply Forall_drop|by constructor].
Qed.

Lemma show_line_ok e i : editor_ok e -> (i < length (e_hist e))%nat -> editor_ok (show_line prompt (e_hist e) i).1.
Proof.
  intros He Hi. destruct (hist_entry e i He Hi) as (h & Hh & Hn & Hl). unfold show_line. rewrite Hh. cbn [fst].
  apply fresh_ok; try apply He; [done|cbn; lia|lia].
Qed.

(** Moving text between the parts keeps the editor well formed. *)
Lemma reshape_ok e b a stale : editor_ok e -> nonzero (b ++ a) -> (length (b ++ a) < FINSH_CMD_SIZE)%nat ->
  (length (b ++ a) + length stale = FINSH_CMD_SIZE)%nat -> editor_ok (Editor b a stale (e_hist e) (e_cur e)).
Proof. intros []. by constructor. Qed.

Lemma edit_char_ok e c : editor_ok e -> c <> 0 -> editor_ok (edit_char echo c e).1.
Proof.
  intros He Hc. pose proof (eo_size _ He) as Hs. pose proof (eo_room _ He) as Hr. pose proof (eo_text _ He) as Ht. destruct (stale_split e He) as (x & stale & Hst).
  destruct e as [b a stl hist cur]. cbn [edit_char fst]. unfold e_text in *. cbn [e_before e_after e_stale] in *. subst stl. change (drop 1 (x :: stale)) with stale.
  rewrite length_app in *. cbn [length] in *.
  destruct (Nat.eqb_spec (length b + S (length a)) FINSH_CMD_SIZE).
  - apply (reshape_ok (Editor b a (x :: stale) hist cur)); [done|constructor|cbn; unfold FINSH_CMD_SIZE; lia|]. cbn [app length]. rewrite length_app. cbn [length]. lia.
  - apply Forall_app in Ht as [Hb Ha].
    apply (reshape_ok (Editor b a (x :: stale) hist cur)); [done| |rewrite !length_app; cbn [length]; lia..]. repeat (apply Forall_app; split); try done. by constructor.
Qed.

Lemma edit_keeps k e r : editor_ok e -> key_ok k -> press k e = Some r -> editor_ok r.1.
Proof.
  intros He Hk. pose proof (eo_size _ He) as Hs. pose proof (eo_room _ He) as Hr. pose proof (eo_text _ He) as Ht. destruct k; cbn [edit].
  - by intros [= <-].
  - intros [= <-]. pose proof (eo_cur _ He). destruct (e_cur e) eqn:E; [done|]. apply show_line_ok; [done|lia].
  - intros [= <-]. destruct (Nat.eqb_spec (length (e_hist e)) 0); [done|]. apply show_line_ok; [done|]. destruct (Nat.ltb_spec (S (e_cur e)) (length (e_hist e))); lia.
  - intros [= <-]. destruct (last (e_before e)) as [c|] eqn:Hl; [|done]. apply last_split in Hl. cbn [fst].
    assert (removelast (e_before e) ++ c :: e_after e = e_text e) as E by (unfold e_text; rewrite Hl at 2; by rewrite <- app_assoc).
    apply reshape_ok; by rewrite ?E.
  - intros [= <-]. destruct (e_after e) as [|c a] eqn:Ha; [done|]. cbn [fst].
    assert ((e_before e ++ [c]) ++ a = e_text e) as E by (unfold e_text; rewrite Ha; by rewrite <- app_assoc).
    apply reshape_ok; by rewrite ?E.
  - destruct (msh_auto_complete syscall_table (e_buffer e)) as [[a log]|] eqn:Ha; [|done]. cbn [mbind option_bind].
    destruct (Nat.ltb_spec (length (visible a)) FINSH_CMD_SIZE); [|done]. intros [= <-]. cbn [fst].
    destruct (complete_last e a log He Ha) as (l & Hl & ->). pose proof (visible_nonzero (l ++ [0])). destruct (visible_rest l) as [suf Es].
    rewrite visible_zero in *. apply (f_equal length) in Es. rewrite !length_app in Es. cbn [length] in Es.
    apply reshape_ok; rewrite ?app_nil_r; [done..|]. rewrite length_take, length_drop, length_app. cbn [length]. lia.
  - intros [= <-]. unfold edit_backspace. destruct (last (e_before e)) as [c|] eqn:Hl; [|done]. apply last_split in Hl. cbn [fst].
    unfold e_text in *. rewrite Hl in Hs, Hr, Ht. rewrite !length_app in Hs, Hr. cbn [length] in *. apply Forall_app in Ht as [Hb Ha]. apply Forall_app in Hb as [Hb _].
    apply reshape_ok; rewrite ?length_app; cbn [length]; [done|by apply Forall_app|lia..].
  - intros H. apply bind_Some in H as ([ret log] & _ & [= <-]). cbn [fst]. destruct (remember_ok e He). apply fresh_ok; [constructor|cbn; unfold FINSH_CMD_SIZE; lia|done..].
  - intros [= <-]. by apply edit_char_ok.
Qed.

Lemma finsh_chars_ok input : forall st e s st' e' log, rep st e s -> editor_ok e ->
  edit_keys syscall_table echo prompt input st e = Some (st', e', log) ->
  exists s', finsh_chars syscall_table input s = Some s' /\ rep st' e' s' /\ editor_ok e' /\ console s' = console s ++ log.
Proof.
  induction input as [|ch input IH]; intros st e s st' e' log Hr He; cbn [edit_keys finsh_chars].
  - intros [= <- <- <-]. exists s. by rewrite app_nil_r.
  - destruct (decode_key st ch) as [st1 k] eqn:Hd. pose proof (decode_key_ok st ch) as Hk. rewrite Hd in Hk. cbn [snd] in Hk.
    destruct (press k e) as [[e1 log1]|] eqn:Hed; [|done]. cbn [mbind option_bind].
    destruct (edit_keys syscall_table echo prompt input st1 e1) as [[[st2 e2] log2]|] eqn:Hks; [|done]. cbn [mbind option_bind]. intros [= <- <- <-].
    pose proof (finsh_char_ok st e s ch (e1, log1) Hr He) as Hc. rewrite Hd in Hc. cbn [fst snd] in Hc. destruct (Hc Hed) as (s1 & -> & Hr1 & Hc1).
    cbn [mbind option_bind]. pose proof (edit_keeps k e (e1, log1) He Hk Hed) as He1.
    destruct (IH st1 e1 s1 st2 e2 log2 Hr1 He1 Hks) as (s2 & -> & Hr2 & He2 & Hc2). exists s2. split; [done|]. split; [done|]. split; [done|].
    rewrite Hc2, Hc1. cbn [snd]. by rewrite <- app_assoc.
Qed.

(** *** When the editor accepts *)

(** Nothing of a discarded line is left behind the text. *)
Definition clean (e : editor) : Prop := Forall (fun c => c = 0) (e_stale e).
#[global] Instance clean_dec e : Decision (clean e).
Proof. unfold clean. apply _. Defined.

Lemma clean_stale e : editor_ok e -> clean e -> e_stale e = zeros_to (e_text e).
Proof.
  intros He Hc. unfold zeros_to. replace (_ - _)%nat with (length (e_stale e)) by (pose proof (eo_size _ He); lia).
  symmetry. apply replicate_as_Forall. split; [done|]. eapply Forall_impl; [exact Hc|]. by intros ? ->.
Qed.

Lemma clean_buffer e : editor_ok e -> clean e -> e_buffer e = e_text e ++ 0 :: zeros_to (e_text e).
Proof.
  intros He Hc. unfold e_buffer. rewrite (clean_stale e He Hc). unfold zeros_to. f_equal. by rewrite <- replicate_S_end.
Qed.

Lemma fresh_clean hist cur text : clean (fresh hist cur text).
Proof. unfold clean, fresh, zeros_to. cbn. apply Forall_replicate. done. Qed.

(** Completing a clean line gives a text [l], with zeros behind it. *)
Definition completed (e : editor) (l : list Z) (log : list event) : Prop :=
  (length l < FINSH_CMD_SIZE)%nat /\ nonzero l /\
  (l = e_text e \/ exists c, c ∈ commands syscall_table /\ l `prefix_of` c) /\
  (if (length (e_text e) =? 0)%nat then l = [] /\ msh_help syscall_table = Some log
   else log = map candidate_line (candidates syscall_table (e_text e)) /\
     match candidates syscall_table (e_text e) with [] => l = e_text e | cs => shared_part cs l end).

Lemma complete_clean e : editor_ok e -> clean e -> exists l log, completed e l log /\
  msh_auto_complete syscall_table (e_buffer e) = Some (l ++ 0 :: zeros_to l, log).
Proof.
  intros He Hc. rewrite (clean_buffer e He Hc). set (p := e_text e) in *. pose proof (eo_text _ He) as Hp. pose proof (eo_room _ He) as Hr. unfold completed. fold p in Hp, Hr |- *.
  destruct (Nat.eqb_spec (length p) 0) as [E|E].
  - destruct p; [|done]. destruct (help_run syscall_table Hnames) as [log Hlog]. exists [], log. split; [split; [done|]; split; [constructor|]; auto|].
    cbn [app]. unfold msh_auto_complete. cbn [aget lookup list_lookup mbind option_bind Z.eqb]. by rewrite Hlog.
  - destruct (auto_complete_run syscall_table p (zeros_to p) Hnames Hp) as (l & Hrun & Hl); [by intros ->|..].
    { rewrite length_app. cbn [length]. unfold zeros_to. rewrite length_replicate. eapply Forall_impl; [exact Hfit|]. cbn beta. lia. }
    pose proof (completion_extends syscall_table p l Hl) as Hpl. apply prefix_length in Hpl.
    assert (l = p \/ exists c, c ∈ commands syscall_table /\ l `prefix_of` c) as Hor.
    { destruct (candidates syscall_table p) as [|c cs] eqn:Ec; [by left|right]. exists c. split; [|apply Hl, list_elem_of_here].
      apply (candidate_command _ p). rewrite Ec. apply list_elem_of_here. }
    assert ((length l < FINSH_CMD_SIZE)%nat /\ nonzero l) as [Hll Hln].
    { destruct Hor as [->|(c & Hcin & x & ->)]; [done|]. pose proof Hfit as Hf. rewrite Forall_forall in Hf. specialize (Hf _ Hcin). rewrite length_app in Hf.
      pose proof (commands_nonzero syscall_table Hnames) as Hn. rewrite Forall_forall in Hn. specialize (Hn _ Hcin). apply Forall_app in Hn as [Hn _]. split; [lia|done]. }
    exists l, (map candidate_line (candidates syscall_table p)). split; [done|]. rewrite Hrun. do 3 f_equal.
    change (0 :: zeros_to p) with (replicate (S (FINSH_CMD_SIZE - length p)) 0). rewrite drop_app_ge, drop_replicate by done.
    change (0 :: zeros_to l) with (replicate (S (FINSH_CMD_SIZE - length l)) 0). f_equal. lia.
Qed.

Lemma edit_accepts k e : editor_ok e -> (k = KTab -> clean e) -> exists r, press k e = Some r.
Proof.
  intros He Hk. destruct k; cbn [edit]; try by eexists.
  - destruct (complete_clean e He (Hk eq_refl)) as (l & log & (Hl & Hn & _) & ->). cbn [mbind option_bind].
    rewrite visible_app by done. cbn [visible Z.eqb]. rewrite app_nil_r, (proj2 (Nat.ltb_lt _ _)) by done. by eexists.
  - destruct (exec_total FINSH_CMD_SIZE syscall_table (e_text e) (e_stale e ++ [0]) Hnames) as [[ret log] Hx]; [apply He| |apply He|].
    + unfold zero_at. change (e_text e ++ e_stale e ++ [0]) with (e_buffer e). rewrite <- (Nat.add_0_r FINSH_CMD_SIZE), <- lookup_drop, buffer_tail by done. done.
    + change (e_text e ++ e_stale e ++ [0]) with (e_buffer e) in Hx. rewrite Hx. by eexists.
Qed.

(** Every input is accepted, except for a tab on a line that is not clean. *)
Lemma edit_keys_or_tab input : forall st e, editor_ok e ->
  (exists r, edit_keys syscall_table echo prompt input st e = Some r) \/
  (exists pre ch rest st' e' log, input = pre ++ ch :: rest /\ edit_keys syscall_table echo prompt pre st e = Some (st', e', log) /\
     (decode_key st' ch).2 = KTab /\ ~ clean e').
Proof.
  induction input as [|ch input IH]; intros st e He; [left; by eexists|].
  destruct (decide ((decode_key st ch).2 = KTab /\ ~ clean e)) as [Hbad|Hgood].
  { right. exists [], ch, input, st, e, []. by destruct Hbad. }
  destruct (edit_accepts (decode_key st ch).2 e He) as [[e1 log1] Hed].
  { intros Hk. destruct (decide (clean e)); [done|]. exfalso. by apply Hgood. }
  pose proof (edit_keeps _ _ _ He (decode_key_ok st ch) Hed) as He1. cbn [fst] in He1.
  destruct (IH (decode_key st ch).1 e1 He1) as [[[[st2 e2] log2] Hks]|(pre & c & rest & st' & e' & log & -> & Hks & Hd & Hn)].
  - left. cbn [edit_keys]. destruct (decode_key st ch) as [st1 k]. cbn [fst snd] in *. rewrite Hed. cbn [mbind option_bind]. rewrite Hks. by eexists.
  - right. exists (ch :: pre), c, rest, st', e', (log1 ++ log). split; [done|]. split; [|done].
    cbn [edit_keys]. destruct (decode_key st ch) as [st1 k]. cbn [fst snd] in *. rewrite Hed. cbn [mbind option_bind]. by rewrite Hks.
Qed.
End Refinement.

(** ** From start-up *)
Definition default_prompt : list Z := codes "msh >"%string.
Definition first_editor : editor := fresh [] 0 [].

Lemma first_editor_ok : editor_ok first_editor.
Proof. apply fresh_ok; cbn; try constructor; unfold FINSH_CMD_SIZE, FINSH_HISTORY_LINES; lia. Qed.

Lemma default_prompt_ok : expand no_strings default_prompt [] = Some default_prompt.
Proof. reflexivity. Qed.

Definition table_ok (table : list finsh_syscall) : Prop :=
  names_ok table /\ Forall (fun c => (length c < FINSH_CMD_SIZE)%nat) (commands table).

Definition start_log : list event := [rt_kprintf_text default_prompt].

Lemma start_ok table input st e log : table_ok table ->
  edit_keys table true default_prompt input WAIT_NORMAL first_editor = Some (st, e, log) ->
  exists s, finsh_thread_entry table input finsh_system_init = Some s /\ represents true default_prompt st e s /\ editor_ok e /\
    console s = start_log ++ log.
Proof.
  intros [Hn Hf] Hk. unfold finsh_thread_entry.
  assert (exists s0, show_prompt (set_modes 1 (prompt_mode finsh_system_init) finsh_system_init) = Some s0 /\
    represents true default_prompt WAIT_NORMAL first_editor s0 /\ console s0 = start_log) as (s0 & -> & Hr & Hcon).
  { eexists. split; [reflexivity|]. split; [|done]. constructor; by try intros [] ?. }
  cbn [mbind option_bind]. rewrite <- Hcon.
  exact (finsh_chars_ok table true default_prompt Hn Hf default_prompt_ok input WAIT_NORMAL first_editor s0 st e log Hr first_editor_ok Hk).
Qed.

(** C17: For every command table whose names fit the line and for every input
    from start-up on, the shell follows the editor: it never leaves an
    array, its line, cursor, history and counters hold the editor's state, and
    it prints what the editor says - unless the input has a tab at a moment
    when the bytes of a discarded line are still behind the text. *)
Theorem shell_refines_editor table input : table_ok table ->
  (exists st e log s, edit_keys table true default_prompt input WAIT_NORMAL first_editor = Some (st, e, log) /\
     finsh_thread_entry table input finsh_system_init = Some s /\ represents true default_prompt st e s /\ console s = start_log ++ log) \/
  (exists pre ch rest st e log, input = pre ++ ch :: rest /\
     edit_keys table true default_prompt pre WAIT_NORMAL first_editor = Some (st, e, log) /\ (decode_key st ch).2 = KTab /\ ~ clean e).
Proof.
  intros Ht. pose proof Ht as [Hn Hf].
  destruct (edit_keys_or_tab table true default_prompt Hn Hf input WAIT_NORMAL first_editor first_editor_ok) as [[[[st e] log] Hk]|Hbad]; [left|by right].
  destruct (start_ok table input st e log Ht Hk) as (s & Hs & Hr & _ & Hc). by exists st, e, log, s.
Qed.

(** The exception is real: after 80 characters the line is discarded but
    its bytes stay; a tab then puts the cursor behind them, the next character
    makes the length 1 with the cursor at 81, and at the second backspace the
    length wraps to 65535 and the memmove runs over the end of the line.  Up
    to that backspace no array is left. *)
Theorem discarded_line_overruns : exists s,
  finsh_thread_entry demo_table overrun_keys finsh_system_init = Some s /\
  line_position s = 0 /\ line_curpos s = 80 /\ finsh_thread_entry demo_table (overrun_keys ++ [cBS]) finsh_system_init = None.
Proof. eexists. split; [vm_compute; reflexivity|]. vm_compute. auto. Qed.

(** ** Witness *)
Lemma demo_table_fits : table_ok demo_table.
Proof. split; [exact demo_table_ok|]. vm_compute. repeat constructor. Qed.

Definition demo_keys : list Z := codes "fr"%string ++ [9; 13].

Lemma shell_refines_editor_witness : exists st e log s,
  edit_keys demo_table true default_prompt demo_keys WAIT_NORMAL first_editor = Some (st, e, log) /\
  finsh_thread_entry demo_table demo_keys finsh_system_init = Some s /\ represents true default_prompt st e s /\ console s = start_log ++ log.
Proof.
  destruct (shell_refines_editor demo_table demo_keys demo_table_fits) as [H|H]; [exact H|exfalso].
  destruct H as (pre & ch & rest & st & e & log & Hi & Hk & Hd & Hc).
  destruct pre as [|c0 [|c1 [|c2 [|c3 pre]]]]; [| | | |destruct pre; discriminate Hi]; injection Hi; intros; subst;
    vm_compute in Hk; injection Hk; intros; subst; try discriminate Hd.
  apply Hc. vm_compute. repeat constructor.
Defined.
