(* ===== verification/Terminal.v ===== *)
(** * What the user of the shell sees (shell.c on a terminal)

    A terminal is the reference here: it interprets the control characters the
    shell prints - backspace, line feed, carriage return and the escape
    sequence that erases the line - on the cells left and right of its cursor.
    The theorems compose the line editor of Shell with it and with the
    history: after every key the current row of the terminal shows the prompt
    and the text of the line, with the cursor where the next character goes;
    and pressing the up key after entering lines brings them back. *)
From stdpp Require Import strings.
From S2P Require Import Prelude Printf Msh Shell.
Open Scope Z_scope.

(** ** A terminal *)
Record term := Term { lft : list Z; rgt : list Z }.
Definition blank_row : term := Term [] [].

(** One character; the cell under the cursor is overwritten. *)
Definition tput (c : Z) (t : term) : term :=
  if c =? cBS then match last (lft t) with Some x => Term (removelast (lft t)) (x :: rgt t) | None => t end
  else if c =? cNEWLINE then blank_row
  else if c =? cRETURN then Term [] (lft t ++ rgt t)
  else Term (lft t ++ [c]) (drop 1 (rgt t)).

(** ESC [ 2 K erases the row and leaves the cursor. *)
Fixpoint ttext (l : list Z) (t : term) : term :=
  match l with
  | 27 :: 91 :: 50 :: 75 :: l => ttext l (Term (replicate (length (lft t)) cSPACE) [])
  | c :: l => ttext l (tput c t)
  | [] => t
  end.

(** A command leaves the cursor at the start of a row. *)
Definition tevent (t : term) (ev : event) : term :=
  match ev with Printed l => ttext l t | Ran _ _ => blank_row end.
Definition tshow (log : list event) (t : term) : term := foldl tevent t log.

(** Characters with a cell of their own. *)
Definition printable (c : Z) : Prop := 32 <= c <= 126.
Definition shown (l : list Z) : Prop := Forall printable l.

Lemma tput_printable c t : printable c -> tput c t = Term (lft t ++ [c]) (drop 1 (rgt t)).
Proof. unfold printable, tput, cBS, cNEWLINE, cRETURN. intros. repeat (rewrite (proj2 (Z.eqb_neq _ _)) by lia). done. Qed.

Lemma ttext_cons c l t : c <> 27 -> ttext (c :: l) t = ttext l (tput c t).
Proof. intros H. cbn [ttext]. repeat (case_match; try done; try congruence). Qed.

Lemma ttext_app x : Forall (fun c => c <> 27) x -> forall l t, ttext (x ++ l) t = ttext l (ttext x t).
Proof. induction 1 as [|c x Hc _ IH]; intros l t; cbn [app]; [done|]. by rewrite !ttext_cons. Qed.

Lemma shown_no_esc x : shown x -> Forall (fun c => c <> 27) x.
Proof. intros H. eapply Forall_impl; [exact H|]. unfold printable. cbn. lia. Qed.

Lemma shown_nonzero l : shown l -> nonzero l.
Proof. intros H. eapply Forall_impl; [exact H|]. unfold printable. cbn. lia. Qed.

Lemma ttext_shown x : shown x -> forall l r, ttext x (Term l r) = Term (l ++ x) (drop (length x) r).
Proof.
  induction 1 as [|c x Hc _ IH]; intros l r; [by rewrite app_nil_r|]. rewrite ttext_cons, tput_printable by (unfold printable in Hc; lia || done).
  cbn [lft rgt length]. rewrite IH, <- app_assoc, drop_drop. done.
Qed.

Lemma ttext_write x y l r : shown x -> ttext (x ++ y) (Term l r) = ttext y (Term (l ++ x) (drop (length x) r)).
Proof. intros H. by rewrite (ttext_app _ (shown_no_esc _ H)), ttext_shown. Qed.

Lemma ttext_bs y l x r : ttext (cBS :: y) (Term (l ++ [x]) r) = ttext y (Term l (x :: r)).
Proof. rewrite ttext_cons by done. unfold tput. cbn [Z.eqb cBS]. change (cBS =? cBS) with true. cbn [lft rgt]. by rewrite last_snoc, removelast_last. Qed.

Lemma ttext_newline x t : Forall (fun c => c <> 27) x -> ttext (x ++ [cNEWLINE]) t = blank_row.
Proof. intros H. rewrite ttext_app by done. done. Qed.

Lemma tshow_app a b t : tshow (a ++ b) t = tshow b (tshow a t).
Proof. apply foldl_app. Qed.

Lemma sent_short x : (length x <= 126)%nat -> sent x = x.
Proof. intros H. unfold sent. by rewrite (proj2 (Nat.leb_le _ _)). Qed.

Lemma tshow_outputs x t : (length x <= 126)%nat -> tshow (outputs x) t = ttext x t.
Proof. intros H. unfold outputs, tshow, rt_kprintf_text. cbn. by rewrite sent_short. Qed.

Lemma tshow_back x : forall l r, tshow (back (length x)) (Term (l ++ x) r) = Term l (x ++ r).
Proof.
  induction x as [|c x IH] using rev_ind; intros l r; [by rewrite app_nil_r|].
  rewrite length_app, Nat.add_1_r. unfold back, tshow. cbn [replicate foldl]. rewrite app_assoc.
  change (tevent (Term ((l ++ x) ++ [c]) r) (rt_kprintf_text [cBS])) with (ttext [cBS] (Term ((l ++ x) ++ [c]) r)).
  rewrite ttext_bs. cbn [ttext]. rewrite <- app_assoc. apply IH.
Qed.

(** The terminal shows the prompt and the text, blanks behind it. *)
Definition on_screen (prompt : list Z) (e : editor) (t : term) : Prop :=
  exists n, t = Term (prompt ++ e_before e) (e_after e ++ replicate n cSPACE).

(** ** The keys on the screen *)
Section Screen.
Context (table : list finsh_syscall) (prompt : list Z).
Context (Htable : table_ok table) (Hcmds : Forall shown (commands table)).
Context (Hprompt : shown prompt) (Hplen : (length prompt <= 40)%nat).
Local Notation press := (edit table true prompt).

Record visible_editor (e : editor) : Prop := {
  ve_ok : editor_ok e;
  ve_clean : clean e;
  ve_text : shown (e_text e);
  ve_hist : Forall shown (e_hist e)
}.

Lemma drop_blanks k n : drop k (replicate n cSPACE) = replicate (n - k) cSPACE.
Proof. apply drop_replicate. Qed.

Lemma ve_parts e : visible_editor e -> shown (e_before e) /\ shown (e_after e) /\ (length (e_before e) + length (e_after e) <= 79)%nat.
Proof. intros He. pose proof (ve_text _ He) as H. apply Forall_app in H as [H1 H2]. split; [done|]. split; [done|]. by apply editor_small, He. Qed.

Lemma screen_text text t : shown text -> (length text <= 79)%nat -> lft t = [] -> (exists n, rgt t = replicate n cSPACE) ->
  forall e, e_before e = text -> e_after e = [] -> on_screen prompt e (tshow (outputs (prompt ++ text)) t).
Proof.
  intros Ht Hl Hlf [n Hr] e Hb Ha. destruct t as [l r]. cbn [lft rgt] in *. subst. rewrite tshow_outputs by (rewrite length_app; lia).
  rewrite ttext_shown by (by apply Forall_app). exists (n - length (prompt ++ e_before e))%nat. by rewrite Ha, drop_blanks.
Qed.

Lemma screen_left e t r : visible_editor e -> on_screen prompt e t -> press KLeft e = Some r -> on_screen prompt r.1 (tshow r.2 t).
Proof.
  intros He [n ->] H. cbn [edit] in H. apply (inj Some) in H as <-. destruct (last (e_before e)) as [c|] eqn:Hl; [|by exists n]. apply last_split in Hl. cbn [fst snd].
  exists n. rewrite tshow_outputs by (cbn; lia). rewrite Hl at 1. rewrite app_assoc, ttext_bs. done.
Qed.

Lemma screen_right e t r : visible_editor e -> on_screen prompt e t -> press KRight e = Some r -> on_screen prompt r.1 (tshow r.2 t).
Proof.
  intros He [n ->] H. cbn [edit] in H. apply (inj Some) in H as <-. destruct (ve_parts e He) as (_ & Ha & _). destruct (e_after e) as [|c a] eqn:Hea; [exists n; cbn [fst]; by rewrite Hea|]. cbn [fst snd].
  apply Forall_cons in Ha as [Hc _]. exists n. rewrite tshow_outputs by (cbn; lia). rewrite ttext_shown by (by constructor). cbn. by rewrite <- app_assoc.
Qed.

Lemma screen_backspace e t r : visible_editor e -> on_screen prompt e t -> press KBackspace e = Some r -> on_screen prompt r.1 (tshow r.2 t).
Proof.
  intros He [n ->] H. cbn [edit] in H. apply (inj Some) in H as <-. destruct (ve_parts e He) as (_ & Ha & Hlen). unfold edit_backspace. destruct (last (e_before e)) as [c|] eqn:Hl; [|by exists n].
  apply last_split in Hl. set (b := removelast (e_before e)) in *. clearbody b. rewrite Hl, app_assoc. cbn [fst snd]. destruct (e_after e) as [|x a] eqn:Hea.
  - exists (S n). rewrite tshow_outputs by (cbn; lia). rewrite ttext_bs. change [cSPACE; cBS] with ([cSPACE] ++ [cBS]).
    rewrite ttext_write by (constructor; [unfold printable, cSPACE; lia|constructor]). rewrite ttext_bs. done.
  - rewrite tshow_app, tshow_outputs by (cbn [length]; rewrite length_app; cbn [length] in *; lia). rewrite ttext_bs.
    set (a' := x :: a) in *. rewrite (ttext_write a') by done. destruct (drop_shifted c a' (replicate n cSPACE)) as [z ->].
    change [cSPACE; cSPACE; cBS] with ([cSPACE; cSPACE] ++ [cBS]). rewrite ttext_write by (repeat constructor; unfold printable, cSPACE; lia).
    change [cSPACE; cSPACE] with ([cSPACE] ++ [cSPACE]) at 1. rewrite (app_assoc _ [cSPACE] [cSPACE]), ttext_bs. cbn [ttext].
    exists (S (S (n - 1))). rewrite <- app_assoc. replace (S (length a')) with (length (a' ++ [cSPACE])) by (rewrite length_app; cbn [length]; lia).
    rewrite tshow_back. f_equal. cbn [length drop e_after]. rewrite drop_blanks, <- app_assoc. done.
Qed.

Lemma screen_char c e t r : visible_editor e -> on_screen prompt e t -> printable c -> press (KChar c) e = Some r ->
  (length (e_text e) < 79)%nat -> on_screen prompt r.1 (tshow r.2 t).
Proof.
  intros He [n ->] Hc H Hroom. cbn [edit] in H. apply (inj Some) in H as <-. destruct (ve_parts e He) as (_ & Ha & Hlen).
  pose proof (clean_stale e (ve_ok _ He) (ve_clean _ He)) as Hst. destruct e as [b a stale hist cur]. cbn [edit_char e_before e_after e_stale fst snd] in *.
  unfold e_text in *. cbn [e_before e_after] in *. subst stale. rewrite !length_app in *. cbn [length].
  unfold FINSH_CMD_SIZE. rewrite (proj2 (Nat.eqb_neq _ _)) by lia. unfold zeros_to. rewrite drop_replicate, visible_zeros.
  unfold echoed. exists (n - 1)%nat. destruct a as [|x a].
  - rewrite tshow_outputs by (cbn; lia). rewrite ttext_shown by (by constructor). cbn [length app e_before e_after]. by rewrite drop_blanks, app_assoc.
  - set (a' := x :: a) in *. rewrite app_nil_r, tshow_app, tshow_outputs by (cbn [length]; lia).
    rewrite ttext_shown by (by constructor). rewrite (cons_middle c), app_assoc, tshow_back. cbn [e_before e_after].
    rewrite (app_assoc prompt). f_equal. f_equal. change (length (c :: a')) with (S (length a')). rewrite <- (Nat.add_1_r (length a')), drop_app_add.
    apply drop_blanks.
Qed.
Lemma ve_small e : visible_editor e -> (length (e_text e) <= 79)%nat.
Proof. intros He. pose proof (eo_room _ (ve_ok _ He)) as H. unfold FINSH_CMD_SIZE in H. lia. Qed.

Lemma ve_line e i : visible_editor e -> (i < length (e_hist e))%nat ->
  exists h, e_hist e !! i = Some h /\ shown h /\ (length h <= 79)%nat.
Proof.
  intros He Hi. destruct (hist_entry e i (ve_ok _ He) Hi) as (h & Hh & _ & Hl). exists h. split; [done|]. pose proof (ve_hist _ He) as Hs. rewrite Forall_forall in Hs.
  split; [by apply Hs, (list_elem_of_lookup_2 _ i)|unfold FINSH_CMD_SIZE in Hl; lia].
Qed.

Lemma screen_recall e t i : visible_editor e -> (i < length (e_hist e))%nat ->
  on_screen prompt (show_line prompt (e_hist e) i).1 (tshow (show_line prompt (e_hist e) i).2 t).
Proof.
  intros He Hi. destruct (ve_line e i He Hi) as (h & Hh & Hs & Hl). unfold show_line. rewrite Hh. cbn [fst snd]. rewrite tshow_app.
  rewrite (tshow_outputs (cESC :: _)) by (cbn; lia). change (default [] (Some h)) with h.
  change (ttext (cESC :: _) t) with (Term [] (replicate (length (lft t)) cSPACE ++ [])). rewrite app_nil_r.
  apply (screen_text h); [exact Hs|exact Hl|reflexivity|by eexists|reflexivity|reflexivity].
Qed.

Lemma screen_up e t r : visible_editor e -> on_screen prompt e t -> press KUp e = Some r -> on_screen prompt r.1 (tshow r.2 t).
Proof.
  intros He Ht H. cbn [edit] in H. apply (inj Some) in H as <-. pose proof (eo_cur _ (ve_ok _ He)). destruct (e_cur e) as [|i]; [done|]. apply screen_recall; [done|lia].
Qed.

Lemma screen_down e t r : visible_editor e -> on_screen prompt e t -> press KDown e = Some r -> on_screen prompt r.1 (tshow r.2 t).
Proof.
  intros He Ht H. cbn [edit] in H. apply (inj Some) in H as <-. destruct (Nat.eqb_spec (length (e_hist e)) 0); [done|].
  apply screen_recall; [done|]. destruct (Nat.ltb_spec (S (e_cur e)) (length (e_hist e))); lia.
Qed.

Lemma exec_screen text : shown text -> (length text <= 79)%nat -> tshow (exec_text table text).2 blank_row = blank_row.
Proof.
  intros Ht Hl. unfold exec_text. destruct (skip_split text) as (b & Hb & _). set (u := skip_blanks text) in *. clearbody u. subst text.
  apply Forall_app in Ht as [_ Hu]. rewrite length_app in Hl. destruct u as [|c u]; [done|]. destruct (lookup_cmd table _) as [f|].
  - destruct (split_words FINSH_ARG_MAX (c :: u)) as [ws many]. cbn [snd]. by rewrite tshow_app.
  - cbn [snd]. destruct (until_space_split (c :: u)) as (r & Er & _). set (v := until_space (c :: u)) in *. clearbody v. rewrite Er in Hu, Hl.
    apply Forall_app in Hu as [Hv _]. rewrite length_app in Hl. change [not_found v] with (outputs (v ++ codes ": command not found."%string ++ [cNEWLINE])).
    rewrite tshow_outputs by (rewrite length_app; cbn; lia). rewrite app_assoc, ttext_newline; [done|]. apply Forall_app. split; [by apply shown_no_esc|].
    vm_compute. repeat constructor; discriminate.
Qed.

Lemma screen_return e t r : visible_editor e -> on_screen prompt e t -> press KReturn e = Some r -> on_screen prompt r.1 (tshow r.2 t).
Proof.
  intros He [n ->] H. cbn [edit] in H. rewrite (clean_buffer e (ve_ok _ He) (ve_clean _ He)) in H.
  pose proof (exec_run table [] (e_text e) (zeros_to (e_text e)) (proj1 Htable) (shown_nonzero _ (ve_text _ He))) as Hx. cbn [app length] in Hx. rewrite Hx in H.
  cbn [mbind option_bind] in H. destruct (exec_text table (e_text e)) as [ret log] eqn:Ex. apply (inj Some) in H as <-. cbn [fst snd].
  rewrite !tshow_app. pose proof (exec_screen (e_text e) (ve_text _ He) (ve_small e He)) as Hlog. rewrite Ex in Hlog. cbn [snd] in Hlog.
  rewrite (tshow_outputs [cNEWLINE]) by (cbn; lia). change (ttext [cNEWLINE] _) with blank_row. rewrite Hlog.
  pose proof (screen_text [] blank_row) as Hs. rewrite app_nil_r in Hs. apply Hs; [constructor|cbn; lia|reflexivity|by exists O|reflexivity|reflexivity].
Qed.

Lemma candidates_screen cs : Forall (fun c => shown c /\ (length c < FINSH_CMD_SIZE)%nat) cs -> tshow (map candidate_line cs) blank_row = blank_row.
Proof.
  induction 1 as [|c cs [Hc Hl] _ IH]; [done|]. cbn [map]. change (candidate_line c :: map candidate_line cs) with (outputs (c ++ [cNEWLINE]) ++ map candidate_line cs).
  rewrite tshow_app, tshow_outputs by (rewrite length_app; unfold FINSH_CMD_SIZE in Hl; cbn; lia). rewrite ttext_newline; [done|]. by apply shown_no_esc.
Qed.

Lemma candidates_shown p : Forall (fun c => shown c /\ (length c < FINSH_CMD_SIZE)%nat) (candidates table p).
Proof.
  apply Forall_forall. intros c Hc%candidate_command. pose proof Hcmds as H1. pose proof (proj2 Htable) as H2. rewrite Forall_forall in H1, H2. auto.
Qed.

Lemma help_screen log t : msh_help table = Some log -> tshow log t = blank_row.
Proof. unfold msh_help. intros H. apply bind_Some in H as (l & _ & [= <-]). rewrite app_comm_cons, tshow_app. done. Qed.

Lemma completed_shown e l log : visible_editor e -> completed table e l log -> shown l.
Proof.
  intros He (_ & _ & [->|(c & Hc & x & ->)] & _); [apply (ve_text _ He)|]. pose proof Hcmds as H. rewrite Forall_forall in H. by apply H, Forall_app in Hc as [? _].
Qed.

Lemma screen_tab e t r : visible_editor e -> on_screen prompt e t -> press KTab e = Some r -> on_screen prompt r.1 (tshow r.2 t).
Proof.
  intros He [n ->] H. cbn [edit] in H. destruct (complete_clean table (proj1 Htable) (proj2 Htable) e (ve_ok _ He) (ve_clean _ He)) as (l & log & Hcm & Hrun).
  pose proof (completed_shown e l log He Hcm) as Hs. rewrite Hrun in H. cbn [mbind option_bind] in H.
  rewrite visible_app in H by (by apply shown_nonzero). cbn [visible Z.eqb] in H. rewrite app_nil_r in H. destruct Hcm as (Hl & _ & _ & Hlog).
  rewrite (proj2 (Nat.ltb_lt _ _)) in H by done. apply (inj Some) in H as <-. cbn [fst snd]. rewrite !tshow_app, tshow_back.
  rewrite (tshow_outputs [cNEWLINE]) by (cbn; lia). change (ttext [cNEWLINE] _) with blank_row.
  assert (tshow log blank_row = blank_row) as ->.
  { destruct (Nat.eqb_spec (length (e_text e)) 0); destruct Hlog as [Hl1 Hl2]; [exact (help_screen log _ Hl2)|rewrite Hl1; apply candidates_screen, candidates_shown]. }
  unfold FINSH_CMD_SIZE in Hl. apply (screen_text l); [exact Hs|lia|reflexivity|by exists O|reflexivity|reflexivity].
Qed.
(** *** Runs *)

(** Printable characters, and never an eightieth one. *)
Definition key_fits (k : key) (e : editor) : Prop :=
  match k with KChar c => printable c /\ (length (e_text e) < 79)%nat | _ => True end.

Fixpoint typed_ok (input : list Z) (st : input_stat) (e : editor) : Prop :=
  match input with
  | [] => True
  | ch :: input =>
      key_fits (decode_key st ch).2 e /\
      match press (decode_key st ch).2 e with Some (e', _) => typed_ok input (decode_key st ch).1 e' | None => True end
  end.

Lemma screen_key k e t r : visible_editor e -> on_screen prompt e t -> key_fits k e -> press k e = Some r -> on_screen prompt r.1 (tshow r.2 t).
Proof.
  intros He Ht Hk H. destruct k.
  - apply (inj Some) in H as <-. exact Ht.
  - by eapply screen_up.
  - by eapply screen_down.
  - by eapply screen_left.
  - by eapply screen_right.
  - by eapply screen_tab.
  - by eapply screen_backspace.
  - by eapply screen_return.
  - destruct Hk. by eapply screen_char.
Qed.

Lemma remember_shown e : visible_editor e -> Forall shown (remember (e_hist e) (e_text e) (e_stale e)).
Proof.
  intros He. unfold remember. pose proof (ve_hist _ He) as Hh. pose proof (ve_text _ He) as Ht.
  destruct (length (e_text e) =? 0)%nat; [done|]. destruct (last (e_hist e)); [|by constructor].
  case_bool_decide; [done|]. apply Forall_app. split; [|by constructor]. destruct (length (e_hist e) <? FINSH_HISTORY_LINES)%nat; [done|by apply Forall_drop].
Qed.
Lemma shown_app a b : shown (a ++ b) <-> shown a /\ shown b.
Proof. apply Forall_app. Qed.

Lemma ve_reshape e b a stale : visible_editor e -> editor_ok (Editor b a stale (e_hist e) (e_cur e)) -> shown (b ++ a) ->
  Forall (fun c => c = 0) stale -> visible_editor (Editor b a stale (e_hist e) (e_cur e)).
Proof. intros [] ???. by constructor. Qed.

Lemma ve_fresh hist cur text : editor_ok (fresh hist cur text) -> shown text -> Forall shown hist -> visible_editor (fresh hist cur text).
Proof. intros. constructor; [done|apply fresh_clean|unfold e_text; cbn; by rewrite app_nil_r|done]. Qed.

Lemma ve_recall e i : visible_editor e -> (i < length (e_hist e))%nat -> editor_ok (show_line prompt (e_hist e) i).1 ->
  visible_editor (show_line prompt (e_hist e) i).1.
Proof.
  intros He Hi. destruct (ve_line e i He Hi) as (h & Hh & Hs & _). unfold show_line. rewrite Hh. cbn [fst]. intros Hok. by apply ve_fresh; [| |apply He].
Qed.

Lemma ve_keeps k e r : visible_editor e -> key_fits k e -> press k e = Some r -> visible_editor r.1.
Proof.
  intros He Hk H. pose proof (edit_keeps table true prompt (proj1 Htable) (proj2 Htable) k e r (ve_ok _ He)) as Hok.
  assert (key_ok k) as Hk0 by (destruct k; try done; destruct Hk as [Hk _]; cbn; unfold printable in Hk; lia). specialize (Hok Hk0 H).
  destruct (ve_parts e He) as (Hb & Ha & _). pose proof (ve_clean _ He) as Hc. pose proof (eo_cur _ (ve_ok _ He)).
  destruct k; cbn [edit] in H; try apply (inj Some) in H as <-; cbn [fst] in *.
  - done.
  - destruct (e_cur e) as [|i]; [done|]. apply ve_recall; [done|lia|done].
  - destruct (Nat.eqb_spec (length (e_hist e)) 0); [done|]. apply ve_recall; [done|destruct (Nat.ltb_spec (S (e_cur e)) (length (e_hist e))); lia|done].
  - destruct (last (e_before e)) as [c|] eqn:Hl; [|done]. apply last_split in Hl. cbn [fst] in *. rewrite Hl in Hb. apply Forall_app in Hb as [Hb Hc1].
    apply ve_reshape; [done|done| |done]. apply Forall_app. split; [done|]. apply Forall_cons. split; [by apply Forall_cons in Hc1 as [? _]|done].
  - destruct (e_after e) as [|c a] eqn:Hea; [done|]. cbn [fst] in *. apply Forall_cons in Ha as [Hc1 Ha].
    apply ve_reshape; [done|done| |done]. rewrite !shown_app. split; [split; [done|by constructor]|done].
  - destruct (complete_clean table (proj1 Htable) (proj2 Htable) e (ve_ok _ He) Hc) as (l & log & Hcm & Hrun).
    pose proof (completed_shown e l log He Hcm) as Hs. rewrite Hrun in H. cbn [mbind option_bind] in H. rewrite visible_app in H by (by apply shown_nonzero).
    cbn [visible Z.eqb] in H. rewrite app_nil_r in H. destruct (length l <? FINSH_CMD_SIZE)%nat; [|done]. apply (inj Some) in H as <-. cbn [fst] in *.
    apply ve_reshape; [done|done|by rewrite app_nil_r|]. rewrite drop_app_length. apply Forall_take. constructor; [done|]. by apply Forall_replicate.
  - unfold edit_backspace in *. destruct (last (e_before e)) as [c|] eqn:Hl; [|done]. apply last_split in Hl. cbn [fst] in *. rewrite Hl in Hb. apply Forall_app in Hb as [Hb _].
    apply ve_reshape; [done|done|by apply shown_app|by constructor].
  - apply bind_Some in H as ([ret log] & _ & H). apply (inj Some) in H as <-. cbn [fst] in *. apply ve_fresh; [done|constructor|by apply remember_shown].
  - destruct Hk as [Hp Hroom]. destruct e as [b a stale hist cur]. unfold e_text in Hroom. cbn [edit_char fst e_before e_after] in *. rewrite length_app in *. cbn [length] in *.
    unfold FINSH_CMD_SIZE in *. rewrite (proj2 (Nat.eqb_neq _ _)) in * by lia.
    apply (ve_reshape (Editor b a stale hist cur)); [done|done| |by apply Forall_drop]. rewrite !shown_app. split; [split; [done|by constructor]|done].
Qed.

Lemma screen_run input : forall st e t, visible_editor e -> on_screen prompt e t -> typed_ok input st e ->
  exists st' e' log, edit_keys table true prompt input st e = Some (st', e', log) /\ visible_editor e' /\ on_screen prompt e' (tshow log t).
Proof.
  induction input as [|ch input IH]; intros st e t He Ht Hin; [by exists st, e, []|]. cbn [typed_ok edit_keys] in *. destruct Hin as [Hk Hin].
  destruct (edit_accepts table true prompt (proj1 Htable) (proj2 Htable) (decode_key st ch).2 e (ve_ok _ He)) as [[e1 log1] H]; [intros _; apply He|].
  rewrite H in Hin. pose proof (screen_key _ _ _ _ He Ht Hk H) as Ht1. pose proof (ve_keeps _ _ _ He Hk H) as He1. cbn [fst snd] in *.
  destruct (IH _ _ _ He1 Ht1 Hin) as (st' & e' & log' & Hrun & He' & Ht'). destruct (decode_key st ch) as [st1 k]. cbn [fst snd] in *.
  rewrite H. cbn [mbind option_bind]. rewrite Hrun. exists st', e', (log1 ++ log'). split; [done|]. split; [done|]. by rewrite tshow_app.
Qed.
End Screen.

(** ** The terminal shows the line *)
Lemma default_prompt_shown : shown default_prompt.
Proof. unfold shown, printable. vm_compute. repeat constructor; discriminate. Qed.

(** C28: As long as only printable characters are typed and no line reaches 80 of
    them, the row of the terminal after start-up and any keys - characters,
    cursor keys, backspace, tab, return, history - is the prompt and the text
    of the line buffer followed by blanks, and the cursor of the terminal is
    where the line buffer's cursor is. *)
Theorem screen_shows_line table input : table_ok table -> Forall shown (commands table) ->
  typed_ok table default_prompt input WAIT_NORMAL first_editor ->
  exists s b a n, finsh_thread_entry table input finsh_system_init = Some s /\
    line s = (b ++ a) ++ replicate (S FINSH_CMD_SIZE - length (b ++ a)) 0 /\ line_position s = Z.of_nat (length (b ++ a)) /\ line_curpos s = Z.of_nat (length b) /\
    tshow (console s) blank_row = Term (default_prompt ++ b) (a ++ replicate n cSPACE).
Proof.
  intros Ht Hc Hin.
  assert (visible_editor first_editor) as Hv by (apply ve_fresh; [apply first_editor_ok|constructor..]).
  assert (on_screen default_prompt first_editor (tshow start_log blank_row)) as H0 by (exists O; reflexivity).
  destruct (screen_run table default_prompt Ht Hc default_prompt_shown ltac:(vm_compute; lia) input WAIT_NORMAL first_editor _ Hv H0 Hin) as (st & e & log & Hk & He & [n Hs]).
  destruct (start_ok table input st e log Ht Hk) as (s & Hrun & Hr & _ & Hcon). exists s, (e_before e), (e_after e), n.
  split; [done|]. split; [|split; [apply (re_pos Hr)|split; [apply (re_curpos Hr)|by rewrite Hcon, tshow_app]]].
  rewrite (re_line Hr), (clean_buffer e (ve_ok _ He) (ve_clean _ He)). pose proof (eo_room _ (ve_ok _ He)). unfold e_text in *.
  by rewrite (Nat.sub_succ_l (length _)) by lia.
Qed.

(** ** The history brings lines back *)

(** The lines worth remembering, in order: not empty, and not the same as the
    one remembered before. *)
Definition add_line (l : list (list Z)) (w : list Z) : list (list Z) :=
  if (length w =? 0)%nat then l else if bool_decide (last l = Some w) then l else l ++ [w].
Definition worth_keeping (ws : list (list Z)) : list (list Z) := foldl add_line [] ws.
Definition last_five {A} (l : list A) : list A := drop (length l - FINSH_HISTORY_LINES) l.

Definition enter (ws : list (list Z)) : list Z := concat (map (fun w => w ++ [cRETURN]) ws).
Definition ups (n : nat) : list Z := concat (replicate n [cESC; 0x5b; 0x41]).

Lemma history_row_inj h w : nonzero h -> nonzero w -> h ++ zeros_to h = w ++ zeros_to w <-> h = w.
Proof.
  intros Hh Hw. split; [|by intros ->]. intros E%(f_equal visible). unfold zeros_to in E.
  by rewrite !visible_app, !visible_zeros, !app_nil_r in E.
Qed.

Lemma last_last_five {A} (l : list A) : last (last_five l) = last l.
Proof.
  unfold last_five. destruct l as [|x l] using rev_ind; [done|]. rewrite last_snoc, length_app. cbn [length].
  rewrite drop_app_le by (unfold FINSH_HISTORY_LINES; lia). apply last_snoc.
Qed.

Lemma remember_last_five l w : Forall nonzero l -> nonzero w ->
  remember (last_five l) w (zeros_to w) = last_five (add_line l w).
Proof.
  intros Hl Hw. unfold remember, add_line. destruct (length w =? 0)%nat; [done|]. rewrite last_last_five.
  destruct (last l) as [h|] eqn:E; [|apply last_None in E as ->; reflexivity].
  assert (nonzero h) as Hh by (rewrite Forall_forall in Hl; by apply Hl, last_Some_elem_of).
  rewrite (bool_decide_ext _ (h = w)) by (by apply history_row_inj). rewrite (bool_decide_ext (Some h = Some w) (h = w)) by (split; [by intros [=]|by intros ->]).
  case_bool_decide; [done|]. unfold last_five, FINSH_HISTORY_LINES. rewrite length_drop, length_app. cbn [length].
  destruct (Nat.ltb_spec (length l - (length l - 5)) 5).
  - replace (length l - 5)%nat with 0%nat by lia. replace (length l + 1 - 5)%nat with 0%nat by lia. done.
  - rewrite drop_drop, drop_app_le by lia. f_equal. f_equal. lia.
Qed.

Lemma add_line_nonzero l w : Forall nonzero l -> nonzero w -> Forall nonzero (add_line l w).
Proof. intros Hl Hw. unfold add_line. destruct (length w =? 0)%nat; [done|]. case_bool_decide; [done|]. apply Forall_app. split; [done|by constructor]. Qed.

Section Recall.
Context (table : list finsh_syscall) (Htable : table_ok table).
Local Notation keys := (edit_keys table true default_prompt).

Lemma keys_app i1 i2 st e st1 e1 log1 st2 e2 log2 : keys i1 st e = Some (st1, e1, log1) -> keys i2 st1 e1 = Some (st2, e2, log2) ->
  keys (i1 ++ i2) st e = Some (st2, e2, log1 ++ log2).
Proof.
  revert st e log1. induction i1 as [|ch i1 IH]; intros st e log1; cbn [edit_keys app]; [by intros [= <- <- <-]|].
  destruct (decode_key st ch) as [st' k]. intros H H2. apply bind_Some in H as ([e' log'] & -> & H). apply bind_Some in H as ([[st'' e''] log''] & H & [= <- <- <-]).
  cbn [mbind option_bind]. rewrite (IH _ _ _ H H2). cbn [mbind option_bind]. by rewrite app_assoc.
Qed.

Lemma decode_printable c : printable c -> decode_key WAIT_NORMAL c = (WAIT_NORMAL, KChar c).
Proof.
  unfold printable, decode_key, plain_key, cESC, cTAB, cDEL, cBS, cRETURN, cNEWLINE. intros. repeat (rewrite (proj2 (Z.eqb_neq _ _)) by lia). done.
Qed.

Lemma type_line w : shown w -> forall b hist cur, (length b + length w < FINSH_CMD_SIZE)%nat ->
  exists log, keys w WAIT_NORMAL (Editor b [] (zeros_to b) hist cur) = Some (WAIT_NORMAL, Editor (b ++ w) [] (zeros_to (b ++ w)) hist cur, log).
Proof.
  induction 1 as [|c w Hc _ IH]; intros b hist cur Hl; cbn [edit_keys length] in *; [exists []; by rewrite app_nil_r|].
  rewrite decode_printable by done. cbn [edit edit_char mbind option_bind]. rewrite length_app. cbn [length].
  rewrite (proj2 (Nat.eqb_neq _ _)) by lia.
  assert (drop 1 (zeros_to b) = zeros_to (b ++ [c])) as -> by (unfold zeros_to; rewrite drop_replicate, length_app; cbn [length]; f_equal; lia).
  destruct (IH (b ++ [c]) hist cur) as [log Hlog]; [rewrite length_app; cbn [length]; lia|]. rewrite <- app_assoc in Hlog. rewrite Hlog. by eexists.
Qed.

Lemma enter_line w hist cur : shown w -> (length w < FINSH_CMD_SIZE)%nat -> exists log,
  let hist' := remember hist w (zeros_to w) in
  keys (w ++ [cRETURN]) WAIT_NORMAL (fresh hist cur []) = Some (WAIT_NORMAL, fresh hist' (length hist') [], log).
Proof.
  intros Hw Hl. destruct (type_line w Hw [] hist cur Hl) as [log1 H1]. cbn [app] in H1.
  pose proof (exec_run table [] w (zeros_to w) (proj1 Htable) (shown_nonzero _ Hw)) as Hx. cbn [app length] in Hx. destruct (exec_text table w) as [ret xlog].
  eexists. cbn zeta. eapply keys_app; [exact H1|]. cbn [edit_keys]. change (decode_key WAIT_NORMAL cRETURN) with (WAIT_NORMAL, KReturn). cbn [edit].
  unfold e_buffer, e_text. cbn [e_before e_after e_stale e_hist]. rewrite app_nil_r.
  assert (zeros_to w ++ [0] = 0 :: zeros_to w) as -> by (unfold zeros_to; by rewrite <- replicate_S_end).
  rewrite Hx. cbn [mbind option_bind]. reflexivity.
Qed.

Lemma enter_lines ws : Forall (fun w => shown w /\ (length w < FINSH_CMD_SIZE)%nat) ws -> forall l cur, Forall nonzero l -> exists cur' log,
  (ws = [] -> cur' = cur) /\ (ws <> [] -> cur' = length (last_five (foldl add_line l ws))) /\
  keys (enter ws) WAIT_NORMAL (fresh (last_five l) cur []) = Some (WAIT_NORMAL, fresh (last_five (foldl add_line l ws)) cur' [], log).
Proof.
  induction 1 as [|w ws [Hw Hl] _ IH]; intros l cur Hn; [exists cur, []; split; [done|]; by split|].
  destruct (enter_line w (last_five l) cur Hw Hl) as [log1 H1]. rewrite (remember_last_five l w Hn (shown_nonzero _ Hw)) in H1. cbn zeta in H1.
  destruct (IH (add_line l w) (length (last_five (add_line l w))) (add_line_nonzero l w Hn (shown_nonzero _ Hw))) as (cur' & log2 & Hnil & Hcons & H2).
  assert (cur' = length (last_five (foldl add_line l (w :: ws)))) as -> by (destruct ws; [by apply Hnil|by apply Hcons]).
  eexists _, (log1 ++ log2). split; [discriminate|]. split; [reflexivity|].
  change (enter (w :: ws)) with ((w ++ [cRETURN]) ++ enter ws). eapply keys_app; [exact H1|exact H2].
Qed.

Lemma up_lines n hist : (n <= length hist)%nat -> exists e log,
  keys (ups n) WAIT_NORMAL (fresh hist (length hist) []) = Some (WAIT_NORMAL, e, log) /\
  e = fresh hist (length hist - n) (match n with O => [] | S _ => default [] (hist !! (length hist - n)%nat) end).
Proof.
  induction n as [|n IH]; intros Hn; [exists (fresh hist (length hist) []), []; by rewrite Nat.sub_0_r|].
  destruct IH as (e & log & H & ->); [lia|]. unfold ups. replace (S n) with (n + 1)%nat by lia. rewrite replicate_add, concat_app. fold (ups n).
  set (e0 := fresh hist (length hist - n) _) in H. assert (e_cur e0 = S (length hist - S n)) as Hc by (unfold e0, fresh; cbn; lia).
  eexists _, _. split.
  - eapply keys_app; [exact H|]. cbn [replicate concat app edit_keys].
    change (decode_key WAIT_NORMAL cESC) with (WAIT_SPEC_KEY, KNone). cbn [edit mbind option_bind].
    change (decode_key WAIT_SPEC_KEY 91) with (WAIT_FUNC_KEY, KNone). cbn [edit mbind option_bind].
    change (decode_key WAIT_FUNC_KEY 65) with (WAIT_NORMAL, KUp). cbn [edit mbind option_bind]. rewrite Hc. reflexivity.
  - rewrite Nat.add_1_r. reflexivity.
Qed.
End Recall.

(** C30: After any lines have been entered, the up key pressed n times puts into
    the line buffer, ready to edit, the n-th last of those lines that are not
    empty and do not repeat the line before them; five lines are kept. *)
Theorem history_recall table ws n w : table_ok table -> Forall (fun w => shown w /\ (length w < FINSH_CMD_SIZE)%nat) ws ->
  (1 <= n <= FINSH_HISTORY_LINES)%nat -> (n <= length (worth_keeping ws))%nat -> worth_keeping ws !! (length (worth_keeping ws) - n)%nat = Some w ->
  exists s, finsh_thread_entry table (enter ws ++ ups n) finsh_system_init = Some s /\
    line s = w ++ replicate (S FINSH_CMD_SIZE - length w) 0 /\ line_position s = Z.of_nat (length w) /\ line_curpos s = Z.of_nat (length w).
Proof.
  intros Ht Hws Hn Hle Hw. destruct (enter_lines table Ht ws Hws [] 0%nat) as (cur & log1 & _ & Hcur & H1); [constructor|].
  fold (worth_keeping ws) in *. set (l := worth_keeping ws) in *.
  assert (ws <> []) as Hne by (intros ->; cbn in Hle; lia). rewrite Hcur in H1 by done.
  assert (length (last_five l) = Nat.min (length l) 5) as Hlen by (unfold last_five, FINSH_HISTORY_LINES; rewrite length_drop; lia).
  unfold FINSH_HISTORY_LINES in Hn. destruct (up_lines table n (last_five l)) as (e & log2 & H2 & ->); [lia|].
  destruct (start_ok table (enter ws ++ ups n) WAIT_NORMAL _ _ Ht (keys_app table _ _ _ _ _ _ _ _ _ _ H1 H2)) as (s & Hs & Hr & Hok & _).
  assert (last_five l !! (length (last_five l) - n)%nat = Some w) as Hlook.
  { rewrite Hlen. unfold last_five. rewrite lookup_drop, <- Hw. unfold FINSH_HISTORY_LINES. f_equal. lia. }
  destruct n as [|n]; [lia|]. rewrite Hlook in Hr, Hok. cbn [default] in Hr, Hok. change (id w) with w in Hr, Hok.
  exists s. split; [done|]. rewrite (re_line Hr), (re_pos Hr), (re_curpos Hr). unfold e_buffer, e_text, fresh, zeros_to. cbn [e_before e_after e_stale].
  rewrite app_nil_r. split; [|done]. f_equal. change [0] with (replicate 1 0). rewrite <- replicate_add. f_equal.
  pose proof (eo_room _ Hok) as Hroom. unfold e_text, fresh in Hroom. cbn [e_before e_after] in Hroom. rewrite app_nil_r in Hroom. lia.
Qed.

(** ** Witnesses *)
Definition demo_typing : list Z := codes "fre"%string ++ [27; 91; 68; 27; 91; 68; 120; 8; 9; 13; 27; 91; 65].

Lemma screen_shows_line_witness : exists s b a n, finsh_thread_entry demo_table demo_typing finsh_system_init = Some s /\
  line s = (b ++ a) ++ replicate (S FINSH_CMD_SIZE - length (b ++ a)) 0 /\ line_position s = Z.of_nat (length (b ++ a)) /\ line_curpos s = Z.of_nat (length b) /\
  tshow (console s) blank_row = Term (default_prompt ++ b) (a ++ replicate n cSPACE).
Proof.
  apply (screen_shows_line demo_table demo_typing demo_table_fits).
  - vm_compute. repeat constructor; discriminate.
  - vm_compute. repeat split; try discriminate; repeat constructor.
Defined.

Lemma history_recall_witness : exists s,
  finsh_thread_entry demo_table (enter [codes "free"%string; []; codes "ps"%string; codes "ps"%string; codes "list"%string] ++ ups 3) finsh_system_init = Some s /\
  line s = codes "free"%string ++ replicate 77 0 /\ line_position s = 4 /\ line_curpos s = 4.
Proof.
  apply (history_recall demo_table [codes "free"%string; []; codes "ps"%string; codes "ps"%string; codes "list"%string] 3 (codes "free"%string)).
  - exact demo_table_fits.
  - vm_compute. repeat constructor; discriminate.
  - vm_compute. repeat constructor.
  - vm_compute. repeat constructor.
  - vm_compute. reflexivity.
Defined.
