(* ===== verification/Console.v ===== *)
(** * The shell on its console (shell.c, kservice.c, over Serial and Device)

    A character comes over the line, the UART interrupts, the handler puts it
    into the receive FIFO and the indication [finsh_rx_ind] releases a
    semaphore; the shell thread, which waits for it, reads the FIFO, edits its
    line and prints through the console device.  Here the pieces are put
    together: the thread from its entry point, the interrupt handler, the
    kernel and the rest of the system interleave section by section.

    The structure [shell] is the thread's own, except for [rx_sem], so a round
    of the loop is one section followed by the printing.  A command is what it
    prints. *)
From stdpp Require Import strings.
From S2P Require Import Prelude DevState KState Scheduler Object Timer Proc Conc Thread Ipc Printf Completion Device Serial Msh Shell.
#[local] Open Scope Z_scope.

Section code.
Context (table : list finsh_syscall) (command : list Z -> list (list Z) -> list (list Z)).
Context `{DriverOps} (rx_sem : ptr).

Definition finsh_rx_ind (dev : ptr) (size : Z) : proc Z := (rt_sem_release rx_sem ~; Ret RT_EOK)%proc.

(** [shell->device] is [device]. *)
Definition finsh_getchar (device : ptr) : proc Z :=
  loop (fun _ : unit =>
    data <~ rt_device_read device (-1) 1;
    match data with
    | [ch] => Ret (inr ch)
    | _ => rt_sem_take rx_sem RT_WAITING_FOREVER ~; Ret (inl tt)
    end)%proc tt.

(** The device and the structure afterwards. *)
Definition finsh_set_device (device_name : list Z) (device : option ptr) (sh : finsh_shell) : K (option ptr * finsh_shell) :=
  dev ← rt_device_find device_name;
  match dev with
  | None => kprint (sent (codes "finsh: can not find device: "%string ++ visible_name device_name ++ [10]));; mret (device, sh)
  | Some dev =>
      if bool_decide (device = Some dev) then mret (device, sh)
      else
        result ← rt_device_open dev (Z.lor (Z.lor RT_DEVICE_OFLAG_RDWR RT_DEVICE_FLAG_INT_RX) RT_DEVICE_FLAG_STREAM);
        if result =? RT_EOK then
          match device with
          | Some old => rt_device_close old;; rt_device_set_rx_indicate old None
          | None => mret RT_EOK
          end;;
          rt_device_set_rx_indicate dev (Some 1%positive);;
          mret (Some dev, set_line (replicate (S FINSH_CMD_SIZE) 0) 0 0 sh)
        else mret (device, sh)
  end.

(** "set console device as shell device" *)
Definition finsh_attach (device : option ptr) (sh : finsh_shell) : K (option ptr * finsh_shell) :=
  match device with
  | Some _ => mret (device, sh)
  | None =>
      console ← rt_console_get_device;
      match console with
      | Some c => o ← get_obj c; finsh_set_device (ob_name o) device sh
      | None => mret (device, sh)
      end
  end.

Definition finsh_get_device (device : ptr) : K (list Z) := o ← get_obj device; mret (ob_name o).

(** What the shell prints for an event. *)
Definition event_texts (ev : event) : list (list Z) :=
  match ev with Printed l => [l] | Ran c args => command c args end.

Fixpoint show_texts (texts : list (list Z)) : proc unit :=
  match texts with
  | [] => Ret tt
  | t :: texts => (rt_kputs t ~; show_texts texts)%proc
  end.

(** Some code of the shell, and the printing. *)
Definition shell_does (f : finsh_shell -> option finsh_shell) (sh : finsh_shell) : proc finsh_shell :=
  (sh' <~ atomic (lift (f sh));
   show_texts (concat (map event_texts (drop (length (Shell.console sh)) (Shell.console sh')))) ~;
   Ret sh')%proc.

Definition shell_round (device : ptr) (sh : finsh_shell) : proc finsh_shell :=
  (ch <~ finsh_getchar device;
   if ch <? 0 then Ret sh else shell_does (finsh_char table ch) sh)%proc.

(** [finsh_thread_entry] once the device is set. *)
Definition shell_thread (device : ptr) (sh : finsh_shell) : thread_code :=
  (sh <~ shell_does (fun sh => show_prompt (set_modes 1 (prompt_mode sh) sh)) sh;
   loop (fun sh => sh' <~ shell_round device sh; Ret (inl sh')) sh)%proc.
End code.

(** The indication callback of the UARTs. *)
Definition shell_indicate (rx_sem : ptr) : RxIndicate := fun _ dev size => finsh_rx_ind rx_sem dev size.

(** ** The typed input and what the shell prints *)

Lemma tx_text_app b l1 l2 : tx_text b (l1 ++ l2) = tx_text b l1 ++ tx_text b l2.
Proof. unfold tx_text. by rewrite map_app, concat_app. Qed.

Lemma edit_keys_app table echo prompt l1 : forall l2 st e,
  edit_keys table echo prompt (l1 ++ l2) st e =
  ('(st1, e1, log1) ← edit_keys table echo prompt l1 st e;
   '(st2, e2, log2) ← edit_keys table echo prompt l2 st1 e1; Some (st2, e2, log1 ++ log2)).
Proof.
  induction l1 as [|c l1 IH]; intros l2 st e; cbn [app edit_keys mbind option_bind].
  - by destruct (edit_keys table echo prompt l2 st e) as [[[? ?] ?]|].
  - destruct (decode_key st c) as [st0 k]. destruct (edit table echo prompt k e) as [[e0 log0]|]; [|done].
    cbn [mbind option_bind]. rewrite IH. destruct (edit_keys table echo prompt l1 st0 e0) as [[[st1 e1] log1]|]; [|done].
    cbn [mbind option_bind]. destruct (edit_keys table echo prompt l2 st1 e1) as [[[st2 e2] log2]|]; [|done].
    cbn [mbind option_bind]. by rewrite app_assoc.
Qed.

Section typed.
Context (table : list finsh_syscall) (command : list Z -> list (list Z) -> list (list Z)) (Htable : table_ok table).

Definition typed (input : list Z) : option (input_stat * editor * list event) :=
  edit_keys table true default_prompt input WAIT_NORMAL first_editor.

(** The bytes of some events on the line. *)
Definition log_bytes (log : list event) : list Z := tx_text true (concat (concat (map (event_texts command) log))).
(** All that the shell sends for an input. *)
Definition output_of (input : list Z) : list Z :=
  match finsh_thread_entry table input finsh_system_init with Some sh => log_bytes (Shell.console sh) | None => [] end.

(** The shell's structure after an input. *)
Definition shell_is (input : list Z) (sh : finsh_shell) : Prop :=
  exists st e log, typed input = Some (st, e, log) /\ represents true default_prompt st e sh /\ editor_ok e /\
    Shell.console sh = start_log ++ log.

(** The editor stays inside its arrays whichever of the characters are lost. *)
Definition accepts (input : list Z) : Prop := forall c, c `sublist_of` input -> is_Some (typed c).

Lemma log_bytes_app l1 l2 : log_bytes (l1 ++ l2) = log_bytes l1 ++ log_bytes l2.
Proof. unfold log_bytes. by rewrite map_app, !concat_app, tx_text_app. Qed.

Lemma shell_is_output input sh : shell_is input sh -> output_of input = log_bytes (Shell.console sh).
Proof.
  intros (st & e & log & Ht & _ & _ & ->). destruct (start_ok table input st e log Htable Ht) as (s & E & _ & _ & Hc).
  unfold output_of. by rewrite E, Hc.
Qed.

Lemma shell_is_start : exists sh,
  show_prompt (set_modes 1 (prompt_mode finsh_system_init) finsh_system_init) = Some sh /\ shell_is [] sh.
Proof.
  destruct (start_ok table [] WAIT_NORMAL first_editor [] Htable eq_refl) as (s & E & Hr & He & Hc).
  unfold finsh_thread_entry in E. destruct (show_prompt _) as [sh|]; [|done]. cbn in E. injection E as ->.
  exists s. split; [done|]. by exists WAIT_NORMAL, first_editor, [].
Qed.

Lemma shell_is_char input ch sh : shell_is input sh -> is_Some (typed (input ++ [ch])) ->
  exists sh' log, finsh_char table ch sh = Some sh' /\ shell_is (input ++ [ch]) sh' /\
    Shell.console sh' = Shell.console sh ++ log.
Proof.
  intros (st & e & log & Ht & Hr & He & Hc) [r Hn]. unfold typed in Hn, Ht. rewrite edit_keys_app, Ht in Hn.
  cbn [mbind option_bind edit_keys] in Hn. destruct (decode_key st ch) as [st1 k] eqn:Ed.
  destruct (edit table true default_prompt k e) as [[e1 log1]|] eqn:Ee; [|done]. clear Hn r.
  pose proof (finsh_char_ok table true default_prompt (proj1 Htable) (proj2 Htable) default_prompt_ok st e sh ch (e1, log1) Hr He) as Hok.
  rewrite Ed in Hok. destruct (Hok Ee) as (sh' & Hrun & Hr' & Hc'). exists sh', log1. split; [done|]. split; [|done].
  exists st1, e1, (log ++ log1). split; [|split; [done|split; [|by rewrite Hc', Hc, app_assoc]]].
  - unfold typed. rewrite edit_keys_app, Ht. cbn [mbind option_bind edit_keys]. rewrite Ed, Ee. cbn [mbind option_bind]. by rewrite app_nil_r.
  - pose proof (decode_key_ok st ch) as Hk. rewrite Ed in Hk.
    exact (edit_keeps table true default_prompt (proj1 Htable) (proj2 Htable) k e (e1, log1) He Hk Ee).
Qed.

(** Input without a tab is accepted. *)
Lemma no_tab_accepted input : Forall (fun c => c <> cTAB) input -> accepts input.
Proof.
  intros Hf c Hc. assert (Forall (fun c => c <> cTAB) c) as Hfc by (by eapply Forall_sublist).
  destruct (edit_keys_or_tab table true default_prompt (proj1 Htable) (proj2 Htable) c WAIT_NORMAL first_editor first_editor_ok)
    as [|(pre & ch & rest & st' & e' & log & -> & _ & Hk & _)]; [done|exfalso].
  apply Forall_app in Hfc as [_ Hfc]. apply Forall_cons in Hfc as [Hch _]. revert Hk. unfold decode_key, plain_key.
  repeat case_match; cbn; try congruence; lia.
Qed.
End typed.

(** ** The system *)

(** The device after [finsh_set_device]. *)
Record shell_device (d : rt_device) : Prop := {
  sd_driver : dev_driver d = serial_driver;
  sd_open : dev_ref_count d <> 0;
  sd_rx : flagged (dev_open_flag d) RT_DEVICE_FLAG_INT_RX = true;
  sd_tx : flagged (dev_open_flag d) RT_DEVICE_FLAG_INT_TX = false;
  sd_stream : flagged (dev_open_flag d) RT_DEVICE_FLAG_STREAM = true;
  sd_indicate : is_Some (dev_rx_indicate d)
}.

(** What the shell thread took from the FIFO and what it sent. *)
Record chist := CHist { g_got : list Z; g_out : list Z }.

Section console.
Context (app : positive -> ptr -> K unit).
Context (table : list finsh_syscall) (command : list Z -> list (list Z) -> list (list Z)) (Htable : table_ok table).
Context `{SerialMalloc} `{!DriverOps} (serial_entry : ops_of serial_driver = serial_ops).
Context (tty rx_sem ts tid : ptr) (n : Z) (d : rt_device) (sent0 : list Z).
Context (Hdist : ts <> tid) (Hdev : shell_device d).
#[local] Existing Instance shell_indicate.
Abbreviation output := (output_of table command).
Abbreviation handler := (@USART1_IRQHandler _ (shell_indicate rx_sem) tty).

(** *** The invariant *)

(** The line: the history [g], the warning flag, the FIFO's contents [q]. *)
Record line_at (g : chist) (warned : bool) (q : list Z) (x : rt_serial_device) : Prop := {
  la_size : bufsz (ser_config x) = n;
  la_fifo : exists f, serial_rx x = Some f /\ rx_ok n f q;
  la_int : ua_rx_int (ser_uart x) = true;
  la_bytes : rc_bytes (ua_rx (ser_uart x));
  la_accepts : accepts table (rc_all (ua_rx (ser_uart x)));
  la_order : g_got g ++ q ++ held (ua_rx (ser_uart x)) `sublist_of` rc_line (ua_rx (ser_uart x));
  la_all : warned = false ->
    length (rc_line (ua_rx (ser_uart x))) = (length (g_got g ++ q ++ held (ua_rx (ser_uart x))) + rc_lost (ua_rx (ser_uart x)))%nat /\
    ua_sent (ser_uart x) = sent0 ++ g_out g
}.

Definition waiting (s : kst) : Prop := ts ∈ getq (k_qs s) (QSuspend rx_sem).

Record inv (w : chist * kst) : Prop := {
  iv_sem : exists v, sem_ok rx_sem v w.2;
  iv_lock : k_lock w.2 = 0;
  iv_idle : exists th, k_threads w.2 !! tid = Some th /\ runnable th;
  iv_waiters x : x ∈ getq (k_qs w.2) (QSuspend rx_sem) -> x = ts;
  iv_dev : device_at tty d w.2;
  iv_console : dr_console (k_drv w.2) = Some tty;
  iv_out : g_out w.1 `prefix_of` output (g_got w.1);
  iv_line : exists x q, dr_serials (k_drv w.2) !! tty = Some x /\ line_at w.1 (dr_warned (k_drv w.2)) q x /\
    (waiting w.2 -> q = [] /\ g_out w.1 = output (g_got w.1))
}.

Lemma console_calm w : inv w -> calm w.2.
Proof. intros Hi. destruct (iv_sem _ Hi) as [v Hv]. apply Hv. Qed.

(** The thread does not wait, and a wait would not sleep through a character:
    nothing to read, or a unit. *)
Definition dry (s : kst) : Prop :=
  ~ waiting s /\
  ((exists x f, dr_serials (k_drv s) !! tty = Some x /\ serial_rx x = Some f /\ rx_ok n f []) \/
   (exists v, sem_ok rx_sem v s /\ 0 < v)).

(** *** Rely and guarantee: only the shell thread has code here *)
Definition rely (t : ptr) (w w' : chist * kst) : Prop :=
  t = ts -> w'.1 = w.1 /\ (awake ts w.2 -> awake ts w'.2) /\ (dry w.2 -> dry w'.2).
Definition guar (t : ptr) (w w' : chist * kst) : Prop := forall t', t' <> t -> rely t' w w'.

Lemma guar_ts w w' : guar ts w w'.
Proof. by intros t' Hne ->. Qed.

(** *** The environment *)

(** Other threads keep off the console's device, the semaphore and the two
    threads. *)
Record elsewhere (s s' : kst) : Prop := {
  el_calm : calm s';
  el_objs : objs_step (k_objs s) (k_objs s');
  el_dev : dr_devs (k_drv s') !! tty = dr_devs (k_drv s) !! tty;
  el_serial : dr_serials (k_drv s') !! tty = dr_serials (k_drv s) !! tty;
  el_console : dr_console (k_drv s') = dr_console (k_drv s);
  el_warned : dr_warned (k_drv s') = dr_warned (k_drv s);
  el_sem : k_sems s' !! rx_sem = k_sems s !! rx_sem;
  el_lock : k_lock s' = k_lock s;
  el_runnable x th : x ∈ [ts; tid] -> k_threads s !! x = Some th -> runnable th ->
    exists th', k_threads s' !! x = Some th' /\ runnable th';
  el_switched : k_cur s' = Some ts ->
    k_cur s = Some ts \/ exists th, k_threads s' !! ts = Some th /\ runnable th;
  el_queue : getq (k_qs s') (QSuspend rx_sem) `sublist_of` getq (k_qs s) (QSuspend rx_sem)
}.

(** A character comes over the line, or what it brings during the next
    interrupt is other than it was.  All are bytes, and the shell stays inside
    its arrays whichever of them it gets. *)
Definition set_receiver (r : receiver) (x : rt_serial_device) : rt_serial_device := set_ser_uart (set_ua_rx r (ser_uart x)) x.
Inductive line_event (r : receiver) : receiver -> Prop :=
| line_char c : line_event r (rc_latch c r)
| line_coming l : line_event r (Receiver (rc_line r) (rc_data r) l (rc_lost r)).
Definition arrives (s s' : kst) : Prop :=
  exists x r, dr_serials (k_drv s) !! tty = Some x /\ line_event (ua_rx (ser_uart x)) r /\ rc_bytes r /\ accepts table (rc_all r) /\
    s' = upd_serial tty (set_receiver r x) s.

Definition env (s s' : kst) : Prop :=
  background app s s' \/ arrives s s' \/ handler s = Ok tt s' \/ elsewhere s s'.

Lemma console_background s s' : calm s -> background app s s' -> elsewhere s s'.
Proof.
  intros Hc Hb. destruct (background_ok app s s' Hc Hb) as [Hc' [Q1 Q2 Q3 _ Q5 Q6 _ _]]. split; try done.
  - exact (f_equal (fun x => dr_devs (k_drv x) !! tty) Q1).
  - exact (f_equal (fun x => dr_serials (k_drv x) !! tty) Q1).
  - exact (f_equal (fun x => dr_console (k_drv x)) Q1).
  - exact (f_equal (fun x => dr_warned (k_drv x)) Q1).
  - exact (f_equal (fun x => k_sems x !! rx_sem) Q1).
  - exact (f_equal k_lock Q1).
  - intros x th _. apply Q5.
  - apply Q6.
  - by apply Q3.
Qed.

Lemma device_at_step s s' : objs_step (k_objs s) (k_objs s') -> dr_devs (k_drv s') !! tty = dr_devs (k_drv s) !! tty ->
  device_at tty d s -> device_at tty d s'.
Proof.
  intros Ho Hd [(ob & Hob & Hc) Hx]. split; [|by rewrite Hd]. specialize (Ho tty). rewrite Hob in Ho.
  destruct Ho as (v & E & _). by eexists.
Qed.

Lemma sem_ok_step v s s' : calm s' -> objs_step (k_objs s) (k_objs s') -> k_sems s' !! rx_sem = k_sems s !! rx_sem ->
  getq (k_qs s') (QSuspend rx_sem) `sublist_of` getq (k_qs s) (QSuspend rx_sem) -> sem_ok rx_sem v s -> sem_ok rx_sem v s'.
Proof.
  intros Hc Ho Hs Hq [H1 [ob H2] H3 H4 H5]. split; [done| |by rewrite Hs|done|].
  - exists ob. by eapply ipc_object_step.
  - intros Hpos. rewrite (H5 Hpos) in Hq. by apply sublist_nil_r in Hq.
Qed.

Lemma elsewhere_keeps g s s' : inv (g, s) -> elsewhere s s' -> inv (g, s') /\ rely ts (g, s) (g, s').
Proof.
  intros Hi He. pose proof (console_calm _ Hi) as Hcalm. destruct Hi as [[v H1] H2 (th & Eth & Hth) H4 H5 H6 H7 (x & q & Hx & Hl & Hw)]. cbn [fst snd] in *.
  assert (forall v, sem_ok rx_sem v s -> sem_ok rx_sem v s') as Hsem by (intros v' Hv'; apply (sem_ok_step v' s); [apply He..|done]).
  assert (forall y, y ∈ getq (k_qs s') (QSuspend rx_sem) -> y ∈ getq (k_qs s) (QSuspend rx_sem)) as Hsub.
  { intros y Hy. eapply elem_of_submseteq; [exact Hy|]. apply sublist_submseteq, He. }
  split; [split; cbn [fst snd]|].
  - exists v. auto.
  - by rewrite (el_lock _ _ He).
  - apply (el_runnable _ _ He tid th); [set_solver|done..].
  - auto.
  - eapply device_at_step; [apply He..|done].
  - by rewrite (el_console _ _ He).
  - done.
  - exists x, q. rewrite (el_serial _ _ He), (el_warned _ _ He). split; [done|]. split; [done|]. intros Hq. by apply Hw, Hsub.
  - intros _. cbn [fst snd]. split; [done|]. split.
    + intros Ha Hc'. destruct (el_switched _ _ He Hc') as [Hc|]; [|done].
      destruct (Ha Hc) as (th1 & E & Hr). apply (el_runnable _ _ He ts th1); [set_solver|done..].
    + intros [Hnw [(x1 & f & E & Hf)|(v1 & Hv1 & Hpos)]]; (split; [intros Hin; by apply Hnw, Hsub|]); [left|right].
      * exists x1, f. by rewrite (el_serial _ _ He).
      * exists v1. auto.
Qed.

(** The line changes, nothing else. *)
Lemma inv_upd g g' s x' q' : inv (g, s) -> line_at g' (dr_warned (k_drv s)) q' x' ->
  g_out g' `prefix_of` output (g_got g') -> (waiting s -> q' = [] /\ g_out g' = output (g_got g')) ->
  inv (g', upd_serial tty x' s).
Proof.
  intros [[v [S1 S2 S3 S4 S5]] H2 H3 H4 H5 H6 _ _] Hl Ho Hw. cbn [fst snd] in *. split; cbn [fst snd]; try done.
  - exists v. split; [by apply calm_drv|done..].
  - exists x', q'. split; [apply lookup_insert_eq|]. split; [exact Hl|done].
Qed.

(** What a change of the line does to [dry]: only the FIFO matters. *)
Lemma dry_upd s x x' : dr_serials (k_drv s) !! tty = Some x -> serial_rx x' = serial_rx x -> dry s -> dry (upd_serial tty x' s).
Proof.
  intros Hx E [Hnw [(x1 & f & E1 & Hf)|(v & [S1 S2 S3 S4 S5] & Hpos)]]; (split; [exact Hnw|]); [left|right].
  - exists x', f. split; [apply lookup_insert_eq|]. rewrite E. by assert (x1 = x) as <- by congruence.
  - exists v. split; [|done]. split; [by apply calm_drv|done..].
Qed.

Lemma arrived_char c r : held (rc_latch c r) `sublist_of` held r ++ [c] /\ rc_line (rc_latch c r) = rc_line r ++ [c] /\
  (length (held r) + 1 + rc_lost r = length (held (rc_latch c r)) + rc_lost (rc_latch c r))%nat.
Proof. destruct r as [ln [d0|] co lo]; cbn; (split; [|split; [done|lia]]); [by apply sublist_skip, sublist_nil_l|done]. Qed.

Lemma arrives_keeps g s s' : inv (g, s) -> arrives s s' -> inv (g, s') /\ rely ts (g, s) (g, s').
Proof.
  intros Hi (x & r & Hx & He & Hb & Ha & ->). pose proof (iv_line _ Hi) as (x0 & q & Hx0 & Hl & Hw). cbn [fst snd] in *.
  assert (x0 = x) as -> by congruence. split.
  - apply (inv_upd g g s _ q); [done| |apply (iv_out _ Hi)|done]. destruct Hl as [L1 L2 L3 L4 L5 L6 L7]. split; cbn; try done.
    + destruct He as [c|l]; [|done]. destruct (arrived_char c (ua_rx (ser_uart x))) as (Hs & -> & _).
      rewrite app_assoc. etrans; [apply sublist_app; [reflexivity|exact Hs]|]. rewrite app_assoc. apply sublist_app; [|done]. by rewrite <- app_assoc.
    + intros Hwr. destruct (L7 Hwr) as [E1 E2]. split; [|done]. destruct He as [c|l]; [|done].
      destruct (arrived_char c (ua_rx (ser_uart x))) as (_ & -> & Hn). rewrite !length_app in *. cbn [length] in *. lia.
  - intros _. split; [done|]. split; [done|]. by apply (dry_upd s x).
Qed.

(** *** The interrupt *)

(** What the release of the semaphore does, in an interrupt or not. *)
Record released (s s' : kst) : Prop := {
  rd_kinv : kinv s';
  rd_cur : is_Some (k_cur s');
  rd_nest : k_nest s' = k_nest s;
  rd_lock : k_lock s' = k_lock s;
  rd_drv : k_drv s' = k_drv s;
  rd_objs : objs_step (k_objs s) (k_objs s');
  rd_runnable x th : k_threads s !! x = Some th -> runnable th -> exists th', k_threads s' !! x = Some th' /\ runnable th';
  rd_awake : awake ts s -> awake ts s';
  rd_queue : getq (k_qs s') (QSuspend rx_sem) = [];
  rd_value : exists v, k_sems s' !! rx_sem = Some (Sem v) /\ 0 <= v <= RT_UINT16_MAX /\
    (getq (k_qs s) (QSuspend rx_sem) = [] -> 0 < v)
}.

Lemma awake_runnable s s' : (forall x th, k_threads s !! x = Some th -> runnable th ->
    exists th', k_threads s' !! x = Some th' /\ runnable th') -> switched s s' -> awake ts s -> awake ts s'.
Proof.
  intros Hr Hs Ha Hc. destruct (Hs ts Hc) as [Hc0|]; [|done]. destruct (Ha Hc0) as (th & E & Hth). by eapply Hr.
Qed.

Lemma release_run s v ob dev size : kinv s -> is_Some (k_cur s) -> ipc_object s rx_sem RT_Object_Class_Semaphore ob ->
  k_sems s !! rx_sem = Some (Sem v) -> 0 <= v <= RT_UINT16_MAX ->
  (forall x, x ∈ getq (k_qs s) (QSuspend rx_sem) -> x = ts) ->
  exists s', exec 4 (finsh_rx_ind rx_sem dev size) s = Ok RT_EOK s' /\ released s s'.
Proof.
  intros Hk Hc Ho Hs Hv Hq. unfold finsh_rx_ind, rt_sem_release. cbn [pbind atomic].
  assert (forall r s1, sem_release_section rx_sem s = Ok r s1 ->
    exec 4 (Sec (sem_release_section rx_sem) (fun x => pbind (if snd x : bool then Sec rt_schedule (fun x0 => pbind (Ret x0) (fun _ => Ret (fst x))) else Ret (fst x)) (fun _ => Ret RT_EOK))) s
    = exec 3 (pbind (if snd r : bool then Sec rt_schedule (fun x0 => pbind (Ret x0) (fun _ => Ret (fst r))) else Ret (fst r)) (fun _ => Ret RT_EOK)) s1) as Hstep.
  { intros r s1 E. cbn [exec]. by rewrite E. }
  unfold sem_release_section in Hstep |- *. pose proof (qo_nodup _ _ (ro_queues _ _ _ (proj1 (ki_sched _ _ Hk))) (QSuspend rx_sem)) as Hnd.
  destruct (getq (k_qs s) (QSuspend rx_sem)) as [|t l] eqn:Eq.
  - assert (exists v', sem_release_section rx_sem s = Ok (if v <? RT_UINT16_MAX then RT_EOK else - RT_EFULL, false) (set_k_sems (<[rx_sem := Sem v']> (k_sems s)) s)
      /\ 0 < v' <= RT_UINT16_MAX) as (v' & E & Hv').
    { unfold sem_release_section. erewrite run_bind by (by eapply ipc_assert_run). erewrite run_bind by (by apply get_sem_run).
      erewrite run_bind by (by apply queue_empty_run). rewrite Eq. cbn [negb sem_value]. unfold RT_UINT16_MAX in *. destruct (Z.ltb_spec v 65535).
      - exists (v + 1). erewrite run_bind by done. rewrite wrap_small by lia. split; [done|lia].
      - exists v. split; [|lia]. unfold mret, K_ret. f_equal. rewrite insert_id by done. by destruct s. }
    eexists. split; [etransitivity; [by eapply Hstep|]; cbn; reflexivity|].
    split; try done.
    + by apply kinv_put_sems.
    + apply objs_step_refl.
    + intros x th Ex Hr. by exists th.
    + exists v'. split; [apply lookup_insert_eq|]. split; [lia|intros _; lia].
  - assert (t = ts) as -> by (apply Hq; set_solver). assert (l = []) as ->.
    { destruct l as [|y l]; [done|]. assert (y = ts) as -> by (apply Hq; set_solver). apply NoDup_cons in Hnd as [Hn _]. set_solver. }
    destruct (rt_ipc_list_resume_ok _ s (QSuspend rx_sem) ts [] Hk eq_refl Eq) as (th & s1 & Ht & Hst & Hrun & Hk1 & Hks & Hwk).
    assert (sem_release_section rx_sem s = Ok (RT_EOK, true) s1) as E.
    { unfold sem_release_section. erewrite run_bind by (by eapply ipc_assert_run). erewrite run_bind by (by apply get_sem_run).
      erewrite run_bind by (by apply queue_empty_run). rewrite Eq. cbn [negb]. by rewrite (run_bind _ _ _ _ _ Hrun). }
    pose proof (gentle_woken ts s s1 ts th Ht Hks Hwk) as Hg.
    assert (is_Some (k_cur s1)) as Hc1 by (by rewrite (gn_cur _ _ _ _ Hg)).
    destruct (rt_schedule_ok s1 (ki_sched _ _ Hk1) Hc1) as (s2 & Hrun2 & Hs2 & Hstep2).
    pose proof (ss_frame _ _ Hstep2) as F.
    exists s2. split; [etransitivity; [by eapply Hstep|]; cbn; by rewrite Hrun2|].
    assert (forall x th0, k_threads s !! x = Some th0 -> runnable th0 -> exists th', k_threads s2 !! x = Some th' /\ runnable th') as Hrn.
    { intros x th0 Ex Hr. destruct (gn_runnable _ _ _ _ Hg x th0) as (th1 & E1 & Hr1); [by right|done..|]. by eapply sched_step_runnable. }
    split.
    + unfold kinv. rewrite (fr_tick F). eapply (kinv_sched_step _ s1); [|done..]. by rewrite (ks_tick Hks).
    + by apply (ss_cur _ _ Hstep2).
    + rewrite (fr_nest F). apply (ks_nest Hks).
    + rewrite (ks_lock (sched_frame_kstep _ _ F)). apply (ks_lock Hks).
    + rewrite (ks_drv (sched_frame_kstep _ _ F)). apply (ks_drv Hks).
    + rewrite (fr_objs F). apply Hks.
    + done.
    + apply awake_runnable; [done|]. intros x Hx. destruct (ss_switched _ _ Hstep2 x Hx) as [Hx1|]; [|by right]. left.
      by rewrite <- (gn_cur _ _ _ _ Hg).
    + rewrite (ss_queues _ _ Hstep2) by done. eapply woken_head; [apply Hk|done..].
    + exists v. rewrite (ks_sems (sched_frame_kstep _ _ F)), (ks_sems Hks). split; [done|]. split; [done|]. congruence.
Qed.

(** The state inside the handler, and behind it. *)
Lemma handler_empty s x : k_nest s = 0 -> dr_serials (k_drv s) !! tty = Some x -> rc_data (ua_rx (ser_uart x)) = None ->
  handler s = Ok tt s.
Proof.
  intros Hn Hx Hr. unfold USART1_IRQHandler, rt_interrupt_enter, uart_isr, rt_interrupt_leave.
  erewrite run_bind by done. erewrite run_bind.
  2:{ erewrite run_bind by (by apply get_serial_run). rewrite Hr, (bool_decide_eq_false_2 (is_Some None)), andb_false_r by (by intros []). done. }
  unfold modify. f_equal. destruct s. cbn in *. by subst.
Qed.

Lemma kinv_set_nest v s : kinv s -> kinv (set_k_nest v s).
Proof. intros Hk. unfold kinv. apply (kinv_ext _ s); try done. apply Hk. Qed.

(** A character in the UART: it and those that come reach the FIFO, the
    thread is told, and the receiver is as [USART_ClearITPendingBit] leaves it. *)
Lemma handler_run g s x q : inv (g, s) -> dr_serials (k_drv s) !! tty = Some x -> line_at g (dr_warned (k_drv s)) q x ->
  is_Some (rc_data (ua_rx (ser_uart x))) ->
  let r := ua_rx (ser_uart x) in
  exists s1 s2 x2, handler s = Ok tt (upd_serial tty (set_receiver (rc_clear (rc_tick (drained r))) x2) (set_k_nest 0 s2)) /\
    handled tty n (drained r) (keep_last (n - 1) (q ++ burst r)) (n - 1 < Z.of_nat (length (q ++ burst r))) (set_k_nest 1 s) s1 /\
    released s1 s2 /\ dr_serials (k_drv s2) !! tty = Some x2.
Proof.
  intros Hi Hx [L1 (f & L2 & Lf) L3 L4 L5 L6 L7] Hne r. pose proof (console_calm _ Hi) as [Hk Hc Hn].
  destruct Hi as [[v [S1 [ob S2] S3 S4 S5]] H2 H3 H4 [H5o H5] H6 H7 _]. cbn [fst snd] in *.
  set (s0 := set_k_nest 1 s).
  destruct (@rx_interrupt_run _ (shell_indicate rx_sem) _ serial_entry tty n r q s0 d)
    as (s1 & Hh & Hrun); [|by exists x, f|done..|].
  { unfold console_ok. change (k_drv s0) with (k_drv s). rewrite H6. destruct H5o as (obd & Hob & Hcls).
    exists obd, d, x. repeat (split; [done || apply Hdev|]). done. }
  pose proof Hh as ((m & w & E1 & _) & (x2 & f2 & Hx2 & _ & _ & Hr2 & _) & _).
  destruct (release_run s1 v ob tty (Z.of_nat (length (keep_last (n - 1) (q ++ burst r)))))
    as (s2 & Hrel & Hrd); [rewrite E1; by apply kinv_drv, kinv_set_nest|by rewrite ?E1..|].
  assert (dr_serials (k_drv s2) !! tty = Some x2) as Hx2' by (by rewrite (rd_drv _ _ Hrd)).
  exists s1, s2, x2. split; [|split; [done|split; [done|done]]].
  unfold USART1_IRQHandler, rt_interrupt_enter, rt_interrupt_leave, uart_isr. erewrite run_bind by done. rewrite Hn.
  change (set_k_nest (u8 (0 + 1)) s) with s0.
  set (s3 := upd_serial tty (set_receiver (rc_clear (rc_tick (drained r))) x2) s2).
  rewrite (run_bind _ _ s0 tt s3).
  { unfold modify. f_equal. change (k_nest s3) with (k_nest s2). rewrite (rd_nest _ _ Hrd), E1. reflexivity. }
  erewrite run_bind by (by apply get_serial_run). rewrite L3, bool_decide_eq_true_2 by done. cbn [andb].
  assert (@rt_hw_serial_isr _ (shell_indicate rx_sem) tty RT_SERIAL_EVENT_RX_IND s0 = Ok tt s2) as Eisr.
  { etransitivity; [exact Hrun|]. destruct (sd_indicate _ Hdev) as [fn ->].
    destruct (keep_last (n - 1) (q ++ burst r)) as [|c l] eqn:El.
    { exfalso. pose proof (rx_size _ _ _ Lf) as Hsz. assert (length (keep_last (n - 1) (q ++ burst r)) = 0%nat) as E by (by rewrite El).
      unfold keep_last in E. rewrite length_drop, length_app in E. assert (burst r <> []) as Hb by (unfold burst, r; by destruct Hne as [c ->]).
      destruct (burst r); [done|]. cbn in E. lia. }
    unfold mbind, K_bind. change (@rx_indicate_call (shell_indicate rx_sem)) with (fun (_ : positive) => finsh_rx_ind rx_sem). cbv beta.
    rewrite length_cons in Hrel. by rewrite Hrel. }
  rewrite (run_bind _ _ _ _ _ Eisr). unfold USART_ClearITPendingBit, put_receiver. do 2 erewrite run_bind by (by apply get_serial_run).
  by rewrite Hr2.
Qed.

Lemma keep_last_sublist m (l : list Z) : keep_last m l `sublist_of` l.
Proof. unfold keep_last. apply sublist_drop. Qed.

Lemma handler_keeps g s : inv (g, s) -> exists s', handler s = Ok tt s' /\ inv (g, s') /\ rely ts (g, s) (g, s').
Proof.
  intros Hi. pose proof (iv_line _ Hi) as (x & q & Hx & Hl & Hw). pose proof (console_calm _ Hi) as [Hk Hc Hn]. cbn [fst snd] in *.
  destruct (decide (rc_data (ua_rx (ser_uart x)) = None)) as [Er|Hne].
  { exists s. split; [by eapply handler_empty|]. split; [done|]. by intros _. }
  apply not_eq_None_Some in Hne. set (r := ua_rx (ser_uart x)) in *.
  destruct (handler_run g s x q Hi Hx Hl Hne) as (s1 & s2 & x2 & Hrun & Hh & Hrd & Hx2). fold r in Hrun, Hh.
  destruct Hh as ((m & w & E1 & Hm) & (x' & f' & Hx' & Hn' & Hf' & Hr' & Hok') & Hun & Hlost).
  assert (x2 = x') as -> by (rewrite (rd_drv _ _ Hrd) in Hx2; congruence). fold r in Hl.
  assert (m !! tty = Some x') as Hmx by (rewrite E1 in Hx'; done). pose proof (Hm tty) as Hsame. cbn in Hsame.
  rewrite Hx, Hmx in Hsame. destruct Hsame as (y & [= <-] & [Hsl _] & _). injection Hsl as Ecfg Etx Eint Einit.
  destruct Hi as [[v [S1 [ob S2] S3 S4 S5]] H2 (th & Eth & Hth) H4 H5 H6 H7 _]. cbn [fst snd] in *.
  assert (arrived r (rc_clear (rc_tick (drained r))) (burst r)) as Harr.
  { rewrite <- (app_nil_r (burst r)). eapply arrived_trans; [apply arrived_drained|]. rewrite <- (app_nil_r []).
    eapply arrived_trans; [apply arrived_tick|apply arrived_clear]. }
  set (r2 := rc_clear (rc_tick (drained r))) in *. clearbody r2. destruct Harr as (arr & Eline & Hsub & Hcnt & Eall & Hbt).
  set (x3 := set_receiver r2 x') in *.
  assert (calm (set_k_nest 0 s2)) as Hcalm by (split; [apply kinv_set_nest, Hrd|apply Hrd|done]).
  assert (objs_step (k_objs s) (k_objs s2)) as Hobj by (pose proof (rd_objs _ _ Hrd) as E; by rewrite E1 in E).
  destruct (rd_value _ _ Hrd) as (v2 & Ev2 & Hv2 & Hpos2). set (s3 := upd_serial tty x3 (set_k_nest 0 s2)) in *.
  assert (sem_ok rx_sem v2 s3) as Hsem.
  { split; [by apply calm_drv|exists ob; by eapply (ipc_object_step s)|done|done|]. intros _. apply (rd_queue _ _ Hrd). }
  exists s3. split; [done|]. split; [split; cbn [fst snd]|].
  - by exists v2.
  - change (k_lock s2 = 0). by rewrite (rd_lock _ _ Hrd), E1.
  - apply (rd_runnable _ _ Hrd tid th); [by rewrite E1|done].
  - intros y. change (y ∈ getq (k_qs s2) (QSuspend rx_sem) -> y = ts). rewrite (rd_queue _ _ Hrd). by intros ?%not_elem_of_nil.
  - apply (device_at_step s); [done| |done]. cbn. by rewrite (rd_drv _ _ Hrd), E1.
  - cbn. by rewrite (rd_drv _ _ Hrd), E1.
  - done.
  - eexists x3, (keep_last (n - 1) (q ++ burst r)). split; [apply lookup_insert_eq|].
    split; [|unfold waiting; change (k_qs s3) with (k_qs s2); rewrite (rd_queue _ _ Hrd); by intros ?%not_elem_of_nil].
    change (dr_warned (k_drv s3)) with (dr_warned (k_drv s2)). rewrite (rd_drv _ _ Hrd).
    destruct Hl as [L1 L2 L3 L4 L5 L6 L7]. split; cbn.
    + done.
    + by exists f'.
    + by rewrite Eint.
    + by apply Hbt.
    + change (accepts table (rc_all r2)). by rewrite Eall.
    + rewrite Eline. etrans; [apply sublist_app; [reflexivity|apply sublist_app; [apply keep_last_sublist|reflexivity]]|].
      rewrite <- app_assoc, app_assoc. etrans; [apply sublist_app; [reflexivity|exact Hsub]|]. rewrite app_assoc. apply sublist_app; [|done].
      by rewrite <- app_assoc.
    + intros Hw1. destruct (Hun Hw1) as [Hw0 Hsent]. destruct (L7 Hw0) as [El Es].
      assert (Z.of_nat (length (q ++ burst r)) <= n - 1) as Hle.
      { destruct (Z.le_gt_cases (Z.of_nat (length (q ++ burst r))) (n - 1)); [done|]. rewrite Hlost in Hw1; [done|lia]. }
      rewrite keep_last_le by done. split; [fold r in El; rewrite Eline, !length_app in *; lia|].
      specialize (Hsent tty). unfold sent_on in Hsent. rewrite Hx' in Hsent. change (k_drv (set_k_nest 1 s)) with (k_drv s) in Hsent.
      rewrite Hx in Hsent. injection Hsent as ->. done.
  - intros _. cbn [fst snd]. split; [done|]. split.
    + intros Ha. apply (rd_awake _ _ Hrd). by rewrite E1.
    + intros [Hnw _]. split; [unfold waiting; change (k_qs s3) with (k_qs s2); rewrite (rd_queue _ _ Hrd); apply not_elem_of_nil|].
      right. exists v2. split; [done|]. apply Hpos2. rewrite E1. change (getq (k_qs s) (QSuspend rx_sem) = []).
      unfold waiting in Hnw. destruct (getq (k_qs s) (QSuspend rx_sem)) as [|t l] eqn:Eq; [done|].
      exfalso. apply Hnw. rewrite <- (H4 t); set_solver.
Qed.

Lemma console_env_keeps g s s' : inv (g, s) -> env s s' -> inv (g, s') /\ rely ts (g, s) (g, s').
Proof.
  intros Hi [Hb|[Ha|[Hh|He]]].
  - apply elsewhere_keeps; [done|]. apply console_background; [by apply (console_calm (g, s))|done].
  - by apply arrives_keeps.
  - destruct (handler_keeps g s Hi) as (s1 & Hrun & H1). rewrite Hh in Hrun. by injection Hrun as ->.
  - by apply elsewhere_keeps.
Qed.

(** *** What the shell thread knows *)
Record cview := CView { v_got : list Z; v_out : list Z; v_dry : bool; v_awake : bool }.
Record known (v : cview) (w : chist * kst) : Prop := {
  kn_got : g_got w.1 = v_got v;
  kn_out : g_out w.1 = v_out v;
  kn_dry : v_dry v = true -> dry w.2;
  kn_awake : v_awake v = true -> awake ts w.2
}.

Lemma console_known_stable v : stable inv (rely ts) (known v).
Proof. intros w w' _ [H1 H2 H3 H4] HR _. destruct (HR eq_refl) as (E & Ha & Hd). split; rewrite ?E; auto. Qed.

Abbreviation triple_of := (triple inv ts (rely ts) (guar ts) known).

Lemma read_task {A} v (m : K A) (Q : A -> Prop) :
  (forall g s, inv (g, s) -> known v (g, s) -> exists a, m s = Ok a s /\ Q a) ->
  triple_of v (atomic m) (fun a v' => Q a /\ v' = v).
Proof.
  intros Hm. apply triple_read; [apply console_known_stable|intros w; apply guar_ts|]. intros [g s] Hi Hk _.
  destruct (Hm g s Hi Hk) as (a & Hrun & HQ). by exists a.
Qed.

(** A section on the line by the awake thread. *)
Lemma line_task {A} got out b (m : K A) (Q : A -> cview -> Prop) :
  (forall s x q, dr_serials (k_drv s) !! tty = Some x -> line_at (CHist got out) (dr_warned (k_drv s)) q x ->
     device_at tty d s -> exists a x' q' got' out' b', m s = Ok a (upd_serial tty x' s) /\
       line_at (CHist got' out') (dr_warned (k_drv s)) q' x' /\ (out `prefix_of` output got -> out' `prefix_of` output got') /\
       (b' = true -> q' = []) /\ Q a (CView got' out' b' true)) ->
  triple_of (CView got out b true) (atomic m) Q.
Proof.
  intros Hm. apply triple_sec; [apply console_known_stable|]. intros [[got0 out0] s] Hi [Hg Ho _ Ha] Hcur. cbn in Hg, Ho, Ha, Hcur. subst got0 out0.
  pose proof (iv_line _ Hi) as (x & q & Hx & Hl & _). pose proof (console_calm _ Hi) as Hc. cbn [fst snd] in *.
  destruct (awake_running ts s Hc Hcur (Ha eq_refl)) as (th & Eth & Hr).
  assert (~ waiting s) as Hnw by (apply (runnable_no_waiter s ts th); [apply Hc|done|by right|done]).
  destruct (Hm s x q Hx Hl (iv_dev _ Hi)) as (a & x' & q' & got' & out' & b' & Hrun & Hl' & Hp & Hb & HQ).
  exists a, (CHist got' out', upd_serial tty x' s), (CView got' out' b' true). split; [exact Hrun|]. split; [|split; [apply guar_ts|split; [|exact HQ]]].
  - apply (inv_upd (CHist got out) _ s _ q'); [exact Hi|exact Hl'|exact (Hp (iv_out _ Hi))|done].
  - split; cbn; [done|done| |by auto]. intros E. split; [exact Hnw|]. left. destruct (la_fifo _ _ _ _ Hl') as (f & Ef & Hf).
    exists x', f. split; [apply lookup_insert_eq|]. split; [done|]. by rewrite <- (Hb E).
Qed.

Lemma console_schedule got out b a : triple_of (CView got out b a) (atomic rt_schedule) (fun _ v => v = CView got out false true).
Proof.
  apply triple_sec; [apply console_known_stable|]. intros [g s] Hi [H1 H2 _ _] Hcur. cbn [snd] in Hcur.
  destruct (schedule_awake app ts tid s (console_calm _ Hi) (iv_lock _ Hi) (iv_idle _ Hi) Hdist Hcur) as (s' & Hrun & Hb & Ha).
  destruct (console_env_keeps g s s' Hi (or_introl Hb)) as [Hi' _].
  exists tt, (g, s'), (CView got out false true). split; [done|]. split; [done|]. split; [apply guar_ts|]. split; [|done]. by split.
Qed.

(** *** Waiting for a character *)
Lemma rx_ok_empty f q : rx_ok n f [] -> rx_ok n f q -> q = [].
Proof. intros HA%rx_length_ok HB%rx_length_ok. rewrite HA in HB. destruct q; [done|]. cbn in HB. lia. Qed.

Lemma sem_ok_unique v v' s : sem_ok rx_sem v s -> sem_ok rx_sem v' s -> v = v'.
Proof. intros HA%so_value HB%so_value. congruence. Qed.

Lemma take_task got : triple_of (CView got (output got) true true) (atomic (sem_take_section rx_sem RT_WAITING_FOREVER))
  (fun r v => match r with inl _ => v = CView got (output got) false true
              | inr t => t = ts /\ v = CView got (output got) false false end).
Proof.
  apply triple_sec; [apply console_known_stable|]. intros [g s] Hi [Hg Ho Hd Ha] Hcur. cbn in Hg, Ho, Hd, Ha, Hcur.
  pose proof (console_calm _ Hi) as Hc. cbn [snd] in Hc.
  destruct (awake_running ts s Hc Hcur (Ha eq_refl)) as (th & Eth & Hr). destruct (Hd eq_refl) as [Hnw Hdry].
  pose proof Hi as [[v Hsem] H2 H3 H4 H5 H6 H7 (x & q & Hx & Hl & Hw)]. cbn [fst snd] in *. pose proof Hsem as [_ [ob S2] S3 S4 S5].
  destruct (decide (0 < v)) as [Hpos|Hneg].
  - exists (inl RT_EOK), (g, set_k_sems (<[rx_sem := Sem (v - 1)]> (k_sems s)) s), (CView got (output got) false true).
    assert (sem_take_section rx_sem RT_WAITING_FOREVER s = Ok (inl RT_EOK) (set_k_sems (<[rx_sem := Sem (v - 1)]> (k_sems s)) s)) as E.
    { unfold sem_take_section. erewrite run_bind by (by eapply ipc_assert_run). erewrite run_bind by (by apply get_sem_run).
      cbn [sem_value]. destruct (Z.ltb_spec 0 v); [|lia]. erewrite run_bind by done. unfold RT_UINT16_MAX in S4. by rewrite wrap_small by lia. }
    split; [exact E|]. split; [|split; [apply guar_ts|split; [|done]]].
    + split; cbn [fst snd]; try done; [|by exists x, q]. exists (v - 1).
      split; [by apply calm_put_sems|by exists ob|apply lookup_insert_eq|lia|]. intros _. by apply S5.
    + by split.
  - destruct (sem_wait_ok s ts th rx_sem ob (Sem v) RT_WAITING_FOREVER) as (s' & Hrun & Hwt); try done; [apply Hc|by right|apply Hc|].
    assert (q = []) as ->.
    { destruct Hdry as [(x1 & f1 & E1 & E2 & Hf1)|(v1 & Hv1 & Hp)]; [|pose proof (sem_ok_unique _ _ _ Hv1 Hsem); lia].
      assert (x1 = x) as -> by congruence. destruct (la_fifo _ _ _ _ Hl) as (f & Ef & Hf).
      apply (rx_ok_empty f); [congruence|done]. }
    pose proof (wt_step _ _ _ _ _ _ _ Hwt) as Hks. pose proof (gentle_waits _ _ _ _ _ _ _ Hwt) as Hgen.
    exists (inr ts), (g, s'), (CView got (output got) false false). split; [exact Hrun|]. split; [|split; [apply guar_ts|]].
    + split; cbn [fst snd].
      * exists v. split; [by eapply calm_wait|exists ob; eapply ipc_object_step; [apply Hks|done|done]|by rewrite (ks_sems Hks)|done|lia].
      * by rewrite (ks_lock Hks).
      * destruct H3 as (thi & Ei & Hri). apply (gn_runnable _ _ _ _ Hgen tid thi); [by left|done..].
      * intros y Hy. destruct (decide (y = ts)) as [|Hne]; [done|]. apply H4, (gn_queues _ _ _ _ Hgen); [done|by left|done].
      * eapply device_at_step; [apply Hks|by rewrite (ks_drv Hks)|done].
      * by rewrite (ks_drv Hks).
      * done.
      * exists x, []. rewrite (ks_drv Hks). split; [done|]. split; [done|]. intros _. split; [done|]. by rewrite Hg, Ho.
    + split; [|done]. by split.
Qed.

(** *** Reading a character *)
Lemma device_task got out b a : triple_of (CView got out b a) (atomic (device_check tty)) (fun r v => r = Some d /\ v = CView got out b a).
Proof. apply read_task. intros g s Hi _. exists (Some d). split; [|done]. eapply device_check_run; [apply (iv_dev _ Hi)|apply Hdev]. Qed.

Lemma flag_task got out b a f : triple_of (CView got out b a)
  (atomic (d ← get_dev tty; mret (flagged (dev_open_flag d) f)))
  (fun r v => r = flagged (dev_open_flag d) f /\ v = CView got out b a).
Proof.
  apply read_task. intros g s Hi _. eexists. split; [|done]. by erewrite run_bind by (apply get_dev_run, (iv_dev _ Hi)).
Qed.

Lemma output_snoc got ch : is_Some (typed table (got ++ [ch])) -> output got `prefix_of` output (got ++ [ch]).
Proof.
  intros [r Hr]. destruct (typed table got) as [[[st e] log]|] eqn:Et.
  2:{ unfold typed in Hr, Et. rewrite edit_keys_app, Et in Hr. done. }
  destruct (start_ok table got st e log Htable Et) as (sh & _ & Hrep & He & Hcon).
  assert (shell_is table got sh) as Hsh by (exists st, e, log; done).
  destruct (shell_is_char table Htable got ch sh Hsh) as (sh' & l & _ & Hsh' & Hc); [by eexists|].
  rewrite (shell_is_output table command Htable _ _ Hsh), (shell_is_output table command Htable _ _ Hsh'), Hc, log_bytes_app. by eexists.
Qed.

(** A character from the FIFO. *)
Definition next_char (got : list Z) (c : Z) : Prop := 0 <= c < 2 ^ 8 /\ is_Some (typed table (got ++ [c])).

Lemma pop_task got out : triple_of (CView got out false true) (atomic (int_rx_section tty)) (fun r v =>
  match r with
  | None => v = CView got out true true
  | Some c => next_char got c /\ v = CView (got ++ [c]) out false true
  end).
Proof.
  apply line_task. intros s x q Hx [L1 (f & L2 & Lf) L3 L4 L5 L6 L7] _. unfold int_rx_section.
  pose proof (rx_pop_ok n f q Lf) as Hpop. destruct q as [|c q].
  - exists None, x, [], got, out, true. split.
    { erewrite run_bind by (by apply get_serial_run). rewrite L2, L1. erewrite run_bind by done. rewrite Hpop.
      erewrite run_bind by done. by rewrite upd_serial_id. }
    split; [|done]. split; try done. by exists f.
  - destruct Hpop as (f' & Epop & Hf'). cbn [g_got g_out] in *.
    exists (Some c), (set_serial_rx (Some f') x), q, (got ++ [c]), out, false. split.
    { erewrite run_bind by (by apply get_serial_run). rewrite L2, L1. erewrite run_bind by done. rewrite Epop. by erewrite run_bind by done. }
    assert (next_char got c) as Hnc.
    { split; [pose proof (rx_bytes _ _ _ Lf) as Hb; by apply Forall_cons in Hb as [? _]|]. apply L5. unfold rc_all.
      apply sublist_inserts_r. etrans; [|exact L6].
      change ((c :: q) ++ held (ua_rx (ser_uart x))) with ([c] ++ q ++ held (ua_rx (ser_uart x))). rewrite app_assoc.
      apply sublist_inserts_r. done. }
    split; [|split; [|split; [done|split; [exact Hnc|done]]]].
    + split; cbn; try done; [by exists f'|by rewrite <- app_assoc|]. intros Hw. rewrite <- app_assoc. exact (L7 Hw).
    + intros Hp. etrans; [exact Hp|]. apply output_snoc, Hnc.
Qed.

Lemma read_char_task got out : triple_of (CView got out false true) (rt_device_read tty (-1) 1) (fun r v =>
  match r with
  | [c] => next_char got c /\ v = CView (got ++ [c]) out false true
  | _ => v = CView got out true true
  end).
Proof.
  unfold rt_device_read. eapply triple_bind; [apply device_task|]. intros r v [-> ->].
  rewrite (sd_driver _ Hdev), serial_entry. cbn [op_read serial_ops]. unfold rt_serial_read. change (1 =? 0) with false. cbv iota.
  eapply triple_bind; [apply flag_task|]. intros r v [-> ->]. rewrite (sd_rx _ Hdev). unfold _serial_int_rx.
  eapply triple_bind; [apply (read_task _ _ (fun _ => True))|].
  { intros g s Hi _. pose proof (iv_line _ Hi) as (x & q & Hx & Hl & _). cbn [fst snd] in *. exists tt. split; [|done].
    erewrite run_bind by (by apply get_serial_run). destruct (la_fifo _ _ _ _ Hl) as (f & -> & _). done. }
  intros [] v [_ ->]. apply (triple_loop _ _ _ _ _ console_known_stable (fun w => guar_ts w w) _
    (fun st v => (st = (1, []) /\ v = CView got out false true) \/
       exists c, st = (0, [c]) /\ next_char got c /\ v = CView (got ++ [c]) out false true)); [|by left].
  intros st v [[-> ->]|(c & -> & Hc & ->)]; cbn [fst snd].
  - change (1 =? 0) with false. cbv iota. eapply triple_bind; [apply pop_task|]. intros [c|] v.
    + intros [Hc ->]. apply triple_ret; [apply console_known_stable|]. right. by exists c.
    + intros ->. by apply triple_ret; [apply console_known_stable|].
  - apply triple_ret; [apply console_known_stable|]. done.
Qed.

Lemma wait_result_task got out : triple_of (CView got out false true) (wait_end ts) (fun _ v => v = CView got out false true).
Proof.
  unfold wait_end. eapply triple_bind; [|intros e v Hv; apply triple_ret; [apply console_known_stable|exact Hv]].
  apply triple_read; [apply console_known_stable|intros w; apply guar_ts|]. intros [g s] _ [_ _ _ Ha] Hcur. cbn [snd] in *.
  destruct (Ha eq_refl Hcur) as (th & E & _). exists (th_error th). split; [|done].
  unfold wait_result. by erewrite run_bind by (by apply get_thread_run).
Qed.

Lemma getchar_task got : triple_of (CView got (output got) false true) (finsh_getchar rx_sem tty)
  (fun c v => next_char got c /\ v = CView (got ++ [c]) (output got) false true).
Proof.
  apply (triple_loop _ _ _ _ _ console_known_stable (fun w => guar_ts w w) _ (fun _ v => v = CView got (output got) false true)); [|done].
  intros [] v ->. eapply triple_bind; [apply read_char_task|].
  assert (triple_of (CView got (output got) true true) (rt_sem_take rx_sem RT_WAITING_FOREVER ~; Ret (inl tt))%proc
    (fun (r : unit + Z) v' => match r with
      | inl _ => v' = CView got (output got) false true
      | inr c => next_char got c /\ v' = CView (got ++ [c]) (output got) false true end)) as Htake.
  { eapply (triple_bind _ _ _ _ _ _ _ _ (fun _ v => v = CView got (output got) false true)).
    - unfold rt_sem_take. eapply triple_bind; [apply take_task|]. intros [e|t] v.
      + intros ->. by apply triple_ret; [apply console_known_stable|].
      + intros [-> ->]. unfold after_wait. eapply triple_bind; [apply console_schedule|]. intros [] v ->. apply wait_result_task.
    - intros _ v ->. by apply triple_ret; [apply console_known_stable|]. }
  intros [|c [|c' l]] v; [intros ->; exact Htake| |intros ->; exact Htake].
  intros [Hc ->]. by apply triple_ret; [apply console_known_stable|].
Qed.

(** *** Printing *)
Lemma putc_task got out c : (out ++ [u8 c]) `prefix_of` output got ->
  triple_of (CView got out false true) (atomic (ch32_putc tty c)) (fun _ v => v = CView got (out ++ [u8 c]) false true).
Proof.
  intros Hp. apply line_task. intros s x q Hx [L1 (f & L2 & Lf) L3 L4 L5 L6 L7] _.
  exists 1, (add_sent [u8 c] x), q, got, (out ++ [u8 c]), false. split; [by apply putc_run|]. split; [|done].
  split; cbn; try done; [by exists f|]. intros Hw. destruct (L7 Hw) as [E1 E2]. split; [done|]. by rewrite E2, app_assoc.
Qed.

Lemma poll_tx_task got data : forall out, (out ++ tx_text true data) `prefix_of` output got ->
  triple_of (CView got out false true) (_serial_poll_tx tty data) (fun _ v => v = CView got (out ++ tx_text true data) false true).
Proof.
  induction data as [|c data IH]; intros out Hp; cbn [_serial_poll_tx].
  { apply triple_ret; [apply console_known_stable|]. by rewrite app_nil_r. }
  unfold tx_text in *. cbn [map concat] in Hp |- *. fold (tx_text true data) in *.
  eapply triple_bind; [apply (read_task _ _ (fun r => r = (c =? 10) && true))|].
  { intros g s Hi _. eexists. split; [apply line_feed_run, (iv_dev _ Hi)|]. by rewrite (sd_stream _ Hdev). }
  intros lf v [-> ->]. destruct ((c =? 10) && true).
  - eapply triple_bind; [apply putc_task|].
    { etrans; [|exact Hp]. exists (u8 c :: tx_text true data). by rewrite <- app_assoc. }
    intros _ v ->. eapply triple_bind; [apply putc_task|].
    { etrans; [|exact Hp]. exists (tx_text true data). by rewrite <- !app_assoc. }
    intros _ v ->. eapply triple_weaken; [apply console_known_stable| |apply IH].
    + intros [] v ->. by rewrite <- !app_assoc.
    + etrans; [|exact Hp]. exists []. by rewrite <- !app_assoc, app_nil_r.
  - eapply triple_bind; [apply putc_task|].
    { etrans; [|exact Hp]. exists (tx_text true data). by rewrite <- app_assoc. }
    intros _ v ->. eapply triple_weaken; [apply console_known_stable| |apply IH].
    + intros [] v ->. by rewrite <- app_assoc.
    + etrans; [|exact Hp]. exists []. by rewrite <- !app_assoc, app_nil_r.
Qed.

Lemma kputs_task got out t : (out ++ tx_text true t) `prefix_of` output got ->
  triple_of (CView got out false true) (rt_kputs t) (fun _ v => v = CView got (out ++ tx_text true t) false true).
Proof.
  intros Hp. unfold rt_kputs. eapply triple_bind; [apply (read_task _ _ (fun r => r = Some tty))|].
  { intros g s Hi _. exists (Some tty). split; [|done]. pose proof (iv_console _ Hi) as E. cbn [snd] in E. unfold rt_console_get_device, gets. by rewrite E. }
  intros c v [-> ->]. eapply (triple_bind _ _ _ _ _ _ _ _ (fun _ v => v = CView got (out ++ tx_text true t) false true));
    [|intros _ v ->; by apply triple_ret; [apply console_known_stable|]].
  unfold rt_device_write. eapply triple_bind; [apply device_task|]. intros r v [-> ->].
  rewrite (sd_driver _ Hdev), serial_entry. cbn [op_write serial_ops]. destruct t as [|c t].
  { apply triple_ret; [apply console_known_stable|]. by rewrite app_nil_r. }
  unfold rt_serial_write. eapply triple_bind; [apply flag_task|]. intros r v [-> ->]. rewrite (sd_tx _ Hdev).
  eapply triple_bind; [by apply poll_tx_task|]. intros [] v ->. by apply triple_ret; [apply console_known_stable|].
Qed.

Lemma show_task got texts : forall out, (out ++ tx_text true (concat texts)) `prefix_of` output got ->
  triple_of (CView got out false true) (show_texts texts) (fun _ v => v = CView got (out ++ tx_text true (concat texts)) false true).
Proof.
  induction texts as [|t texts IH]; intros out Hp; cbn [show_texts concat] in *.
  { apply triple_ret; [apply console_known_stable|]. by rewrite app_nil_r. }
  rewrite tx_text_app, app_assoc in *. eapply triple_bind; [apply kputs_task|].
  - etrans; [|exact Hp]. by eexists.
  - intros [] v ->. by apply IH.
Qed.

(** Some code of the shell, with its printing. *)
Lemma does_task f sh sh' input got out log : f sh = Some sh' -> Shell.console sh' = Shell.console sh ++ log ->
  shell_is table input sh' -> input = got -> out ++ log_bytes command log = output got ->
  triple_of (CView got out false true) (shell_does command f sh) (fun r v => r = sh' /\ v = CView got (output got) false true).
Proof.
  intros Hf Hc Hsh -> Ho. unfold shell_does. eapply triple_bind; [apply (read_task _ _ (fun r => r = sh'))|].
  { intros g s _ _. exists sh'. by rewrite Hf. }
  intros r v [-> ->]. rewrite Hc, drop_app_length. eapply triple_bind; [apply show_task|].
  - exists []. rewrite app_nil_r. symmetry. exact Ho.
  - intros [] v ->. apply triple_ret; [apply console_known_stable|]. split; [done|]. f_equal. exact Ho.
Qed.

(** *** The thread *)
Definition shell_inv (sh : finsh_shell) (v : cview) : Prop :=
  exists got, v = CView got (output got) false true /\ shell_is table got sh.

Lemma round_task sh v : shell_inv sh v -> triple_of v (shell_round table command rx_sem tty sh) shell_inv.
Proof.
  intros (got & -> & Hsh). unfold shell_round. eapply triple_bind; [apply getchar_task|]. intros ch v [[Hch Hty] ->].
  destruct (Z.ltb_spec ch 0); [lia|]. destruct (shell_is_char table Htable got ch sh Hsh Hty) as (sh' & log & Hrun & Hsh' & Hc).
  eapply triple_weaken; [apply console_known_stable| |eapply (does_task _ sh sh' (got ++ [ch]) _ _ log); try done].
  - intros r v [-> ->]. by exists (got ++ [ch]).
  - by rewrite (shell_is_output table command Htable _ _ Hsh), (shell_is_output table command Htable _ _ Hsh'), Hc, log_bytes_app.
Qed.

Lemma thread_task : triple_of (CView [] [] false true) (shell_thread table command rx_sem tty finsh_system_init) (fun _ _ => True).
Proof.
  unfold shell_thread. destruct (shell_is_start table Htable) as (sh & Hrun & Hsh). eapply triple_bind.
  - apply (does_task _ finsh_system_init sh [] [] [] (Shell.console sh)); [exact Hrun|done|done|done|].
    by rewrite (shell_is_output table command Htable _ _ Hsh).
  - intros r v [-> ->]. apply (triple_loop _ _ _ _ _ console_known_stable (fun w => guar_ts w w) _ shell_inv); [|by exists []].
    intros sh1 v Hv. eapply triple_bind; [by apply round_task|]. intros sh2 v' Hv'. by apply triple_ret; [apply console_known_stable|].
Qed.

(** *** The system *)

(** The shell thread is about to run, its device is set and open; nothing has
    come in. *)
Record started (s : kst) : Prop := {
  sr_sem : exists v, sem_ok rx_sem v s;
  sr_lock : k_lock s = 0;
  sr_idle : exists th, k_threads s !! tid = Some th /\ runnable th;
  sr_shell th : k_threads s !! ts = Some th -> runnable th;
  sr_waiters : getq (k_qs s) (QSuspend rx_sem) = [];
  sr_dev : device_at tty d s;
  sr_console : dr_console (k_drv s) = Some tty;
  sr_line : exists x f, dr_serials (k_drv s) !! tty = Some x /\ bufsz (ser_config x) = n /\ serial_rx x = Some f /\
    rx_ok n f [] /\ ua_rx_int (ser_uart x) = true /\ ua_rx (ser_uart x) = Receiver [] None [] 0 /\
    ua_sent (ser_uart x) = sent0
}.

(** The history behind a state: the shell took the characters [got] and sent
    [out], [q] is in the FIFO. As long as the FIFO dropped none, the characters
    missing are those counted by [rc_lost]. *)
Record explained (x : rt_serial_device) (got q out : list Z) (s : kst) : Prop := {
  ex_line : dr_serials (k_drv s) !! tty = Some x;
  ex_fifo : exists f, serial_rx x = Some f /\ rx_ok n f q;
  ex_order : got ++ q ++ held (ua_rx (ser_uart x)) `sublist_of` rc_line (ua_rx (ser_uart x));
  ex_out : out `prefix_of` output got;
  ex_all : dr_warned (k_drv s) = false ->
    length (rc_line (ua_rx (ser_uart x))) = (length (got ++ q ++ held (ua_rx (ser_uart x))) + rc_lost (ua_rx (ser_uart x)))%nat /\
    ua_sent (ser_uart x) = sent0 ++ out;
  ex_wait : waiting s -> q = [] /\ out = output got
}.

Lemma started_inv s : started s -> inv (CHist [] [], s).
Proof.
  intros [H1 H2 H3 H4 H5 H6 H7 (x & f & Hx & Hn & Hf & Hok & Hint & Hr & Hs)]. split; cbn [fst snd]; try done.
  - intros y Hy. rewrite H5 in Hy. by apply not_elem_of_nil in Hy.
  - apply prefix_nil.
  - exists x, []. split; [done|]. split; [|unfold waiting; rewrite H5; by intros ?%not_elem_of_nil]. split; try done.
    + by exists f.
    + rewrite Hr. by unfold rc_bytes.
    + rewrite Hr. intros c Hc. apply sublist_nil_r in Hc as ->. by eexists.
    + by rewrite Hr.
    + intros _. split; [by rewrite Hr|by rewrite Hs, app_nil_r].
Qed.

End console.

(** ** Setting the device *)
Section setting.
Context `{SerialMalloc} `{!DriverOps} (serial_entry : ops_of serial_driver = serial_ops) (fifo_memory : rx_fifo_memory = true).

Definition SHELL_OFLAG : Z := Z.lor (Z.lor RT_DEVICE_OFLAG_RDWR RT_DEVICE_FLAG_INT_RX) RT_DEVICE_FLAG_STREAM.

(** Opening a device without a receive FIFO in interrupt mode, by the driver. *)
Lemma serial_open_run dev d x s : dr_devs (k_drv s) !! dev = Some d -> dr_serials (k_drv s) !! dev = Some x ->
  flagged (dev_flag d) RT_DEVICE_FLAG_INT_RX = true -> serial_rx x = None ->
  rt_serial_open dev SHELL_OFLAG s =
    Ok RT_EOK (upd_dev dev (set_dev_open_flag 0x143 d)
      (upd_serial dev (set_ser_uart (set_ua_rx_int true (ser_uart x))
         (set_serial_rx (Some (fresh_fifo (bufsz (ser_config x)))) x)) s)).
Proof.
  intros Hd Hx Hf Hrx. unfold rt_serial_open, lacks. erewrite run_bind by (by apply get_dev_run). rewrite Hf.
  change (flagged SHELL_OFLAG RT_DEVICE_FLAG_DMA_RX) with false. change (flagged SHELL_OFLAG RT_DEVICE_FLAG_DMA_TX) with false.
  change (flagged SHELL_OFLAG RT_DEVICE_FLAG_INT_TX) with false. change (flagged SHELL_OFLAG RT_DEVICE_FLAG_STREAM) with true.
  rewrite andb_false_r. cbn [andb orb]. change (Z.land SHELL_OFLAG 0xff) with 0x43.
  set (d1 := set_dev_open_flag 0x43 d). erewrite run_bind by (change (put_dev dev d1 s) with (Ok tt (upd_dev dev d1 s)); done).
  set (fifo := fresh_fifo (bufsz (ser_config x))). set (x1 := set_serial_rx (Some fifo) x).
  set (d2 := set_dev_open_flag 0x143 d).
  assert (open_rx dev SHELL_OFLAG (upd_dev dev d1 s) = Ok tt (upd_serial dev
    (set_ser_uart (set_ua_rx_int true (ser_uart x)) x1)
    (upd_dev dev d2 (upd_serial dev x1 (upd_dev dev d1 s))))) as E1.
  { unfold open_rx. erewrite run_bind by (by apply get_serial_run). rewrite Hrx.
    change (flagged SHELL_OFLAG RT_DEVICE_FLAG_INT_RX) with true. cbv iota. rewrite fifo_memory. erewrite run_bind by done.
    erewrite run_bind by (change (put_serial dev x1 (upd_dev dev d1 s)) with (Ok tt (upd_serial dev x1 (upd_dev dev d1 s))); done).
    erewrite run_bind by (apply or_open_flag_run; apply lookup_insert_eq). change (Z.lor (dev_open_flag d1) RT_DEVICE_FLAG_INT_RX) with 0x143.
    erewrite run_bind; [done|]. unfold ch32_control. change (RT_DEVICE_CTRL_SET_INT =? RT_DEVICE_CTRL_CLR_INT) with false.
    change (RT_DEVICE_CTRL_SET_INT =? RT_DEVICE_CTRL_SET_INT) with true. cbv iota. unfold set_rx_int.
    erewrite run_bind; [done|]. by erewrite run_bind by (apply get_serial_run; apply lookup_insert_eq). }
  rewrite (run_bind _ _ _ _ _ E1).
  assert (forall s1 x1, dr_serials (k_drv s1) !! dev = Some x1 -> open_tx dev SHELL_OFLAG s1 = Ok tt s1) as E2.
  { intros s1 y Hy. unfold open_tx. erewrite run_bind by (by apply get_serial_run).
    change (flagged SHELL_OFLAG RT_DEVICE_FLAG_INT_TX) with false. by destruct (serial_tx y). }
  erewrite run_bind by (eapply E2; apply lookup_insert_eq).
  erewrite run_bind by (apply or_open_flag_run; apply lookup_insert_eq). unfold upd_dev, upd_serial, mret, K_ret. f_equal.
  destruct s as [? ? ? ? ? ? ? ? ? ? ? ? ? ? ? ? ? ? ? ? []]. cbn. by rewrite !insert_insert_eq.
Qed.

(** From a thread, with the name of a registered UART that is initialized and
    has no receive FIFO - new, or opened by [rt_console_set_device] only: the
    device is the shell's, open once more, with an empty FIFO, its interrupt
    on and [finsh_rx_ind] as the indication; nothing was read or sent. *)
Lemma finsh_set_device_ok s name sh dev d x : sinv s -> oinv s -> 0 <= k_lock s < 32767 -> k_nest s = 0 -> Forall char_ok name ->
  head (filter (fun o => named (k_objs s) name o = true) (objects_of s RT_Object_Class_Device)) = Some dev ->
  device_at dev d s -> dev_driver d = serial_driver -> 0 <= dev_ref_count d < 2 ^ 8 - 1 ->
  flagged (dev_flag d) RT_DEVICE_FLAG_ACTIVATED = true -> flagged (dev_flag d) RT_DEVICE_FLAG_STANDALONE = false ->
  flagged (dev_flag d) RT_DEVICE_FLAG_INT_RX = true ->
  dr_serials (k_drv s) !! dev = Some x -> serial_rx x = None -> 2 <= bufsz (ser_config x) < 2 ^ 16 ->
  exists s' d' x' f, finsh_set_device name None sh s = Ok (Some dev, set_line (replicate (S FINSH_CMD_SIZE) 0) 0 0 sh) s' /\
    device_at dev d' s' /\ shell_device d' /\ dev_ref_count d' = dev_ref_count d + 1 /\
    dr_serials (k_drv s') !! dev = Some x' /\ ser_config x' = ser_config x /\ serial_rx x' = Some f /\ rx_ok (bufsz (ser_config x)) f [] /\
    ua_rx_int (ser_uart x') = true /\
    (ua_rx (ser_uart x'), ua_sent (ser_uart x')) = (ua_rx (ser_uart x), ua_sent (ser_uart x)).
Proof.
  intros Hs Ho Hl Hn Hname Hhead Hat Hdr Hr Hact Hst Hint Hx Hrx Hsz.
  destruct (rt_object_find_spec s RT_Object_Class_Device name Hs Ho Hl Hn ltac:(by apply (bool_decide_unpack _); vm_compute) Hname) as (s1 & Hfind & _ & _ & Hstep).
  pose proof (sched_frame_kstep _ _ (ss_frame _ _ Hstep)) as Hks.
  assert (k_objs s1 = k_objs s) as Eo by apply (fr_objs (ss_frame _ _ Hstep)).
  assert (k_drv s1 = k_drv s) as Ed by apply (ks_drv Hks).
  assert (device_at dev d s1) as Hat1 by (unfold device_at; by rewrite Eo, Ed).
  unfold finsh_set_device, rt_device_find. rewrite Hhead in Hfind. rewrite (run_bind _ _ _ _ _ Hfind).
  rewrite bool_decide_eq_false_2 by done. fold SHELL_OFLAG.
  set (x1 := set_ser_uart (set_ua_rx_int true (ser_uart x))
         (set_serial_rx (Some (fresh_fifo (bufsz (ser_config x)))) x)).
  set (d1 := set_dev_open_flag 0x143 d).
  set (d2 := set_dev_ref_count (dev_ref_count d + 1) (set_dev_open_flag (Z.lor 0x143 RT_DEVICE_OFLAG_OPEN) d1)).
  set (s2 := upd_dev dev d2 (upd_dev dev d1 (upd_serial dev x1 s1))).
  assert (rt_device_open dev SHELL_OFLAG s1 = Ok RT_EOK s2) as Hopen.
  { unfold rt_device_open. erewrite run_bind by (by eapply device_assert_run).
    assert (open_activate dev s1 = Ok RT_EOK s1) as Eact.
    { unfold open_activate. erewrite run_bind by (apply get_dev_run, Hat1). by rewrite Hact. }
    rewrite (run_bind _ _ _ _ _ Eact). change (negb (RT_EOK =? RT_EOK)) with false. cbv iota.
    erewrite run_bind by (apply get_dev_run, Hat1). rewrite Hst, Hdr, serial_entry. cbn [andb op_open serial_ops].
    erewrite run_bind by (apply serial_open_run; [apply Hat1|by rewrite Ed|done|done]).
    change ((RT_EOK =? RT_EOK) || _) with true. cbv iota. erewrite run_bind; [done|].
    erewrite run_bind by (apply get_dev_run; apply lookup_insert_eq). cbv zeta.
    change (dev_ref_count (set_dev_open_flag 323 d)) with (dev_ref_count d). rewrite wrap_small by lia.
    erewrite run_bind by done. by destruct (Z.eqb_spec (dev_ref_count d + 1) 0); [lia|]. }
  rewrite (run_bind _ _ _ _ _ Hopen). change (RT_EOK =? RT_EOK) with true. cbv iota. erewrite run_bind by done.
  assert (device_at dev d2 s2) as Hat2 by (eapply device_at_upd, device_at_upd; exact Hat1).
  set (d3 := set_dev_rx_indicate (Some 1%positive) d2).
  assert (rt_device_set_rx_indicate dev (Some 1%positive) s2 = Ok RT_EOK (upd_dev dev d3 s2)) as Eind.
  { unfold rt_device_set_rx_indicate. erewrite run_bind by (by eapply device_assert_run). by erewrite run_bind by (apply get_dev_run, Hat2). }
  rewrite (run_bind _ _ _ _ _ Eind). exists (upd_dev dev d3 s2), d3, x1, (fresh_fifo (bufsz (ser_config x))).
  split; [done|]. split; [by eapply device_at_upd|]. split.
  { split; try done. cbn. lia. }
  split; [done|]. split; [apply lookup_insert_eq|]. split; [done|]. split; [done|]. split; [by apply fresh_fifo_ok|done].
Qed.
End setting.

(** ** Witness

    Thread 8 is the shell, ready; thread 4 the idle thread; the UART 30 and
    the semaphore 21 are set up; an [a] is typed, a [b] comes when the handler
    has read it, and a [c] after its last look. *)
Definition demo_device : rt_device := Device RT_Device_Class_Char 0x113 0x14b 1 (Some 1%positive) None serial_driver.
Definition demo_tty_serial : rt_serial_device :=
  Serial (SerialCfg 115200 8 0 0 0 0 4 0) (Some (fresh_fifo 4)) None (Uart quiet_line [] true None).
Definition demo_console : kst :=
  set_k_drv (set_dr_console (Some 30%positive)
    (set_dr_serials {[30%positive := demo_tty_serial]} (set_dr_devs {[30%positive := demo_device]} empty_drivers)))
    (set_k_sems {[21%positive := Sem 0]}
    (set_k_objs (<[30%positive := demo_object 137 1]> (<[21%positive := demo_object 130 1]> (k_objs demo_kernel))) demo_kernel)).

Lemma demo_console_calm : calm demo_console.
Proof. split; [|by eexists|done]. apply kinv_check_ok. by vm_compute. Qed.

Lemma demo_started : started 30 21 8 4 4 demo_device [] demo_console.
Proof.
  split; try done.
  - exists 0. split; [apply demo_console_calm|exists (demo_object 130 1); repeat split; by right|done|by vm_compute|done].
  - eexists. split; [done|by left].
  - intros th [= <-]. by left.
  - split; [by eexists|done].
  - exists demo_tty_serial, (fresh_fifo 4). repeat (split; [done|]). by repeat (split; [done || by apply fresh_fifo_ok|]).
Qed.

Lemma demo_shell_device : shell_device demo_device.
Proof. by split. Qed.

Definition demo_coming : receiver := Receiver [] None [None; Some 98; None; Some 99] 0.
Definition demo_typed : kst :=
  upd_serial 30 (set_receiver (rc_latch 97 demo_coming) (set_receiver demo_coming demo_tty_serial))
    (upd_serial 30 (set_receiver demo_coming demo_tty_serial) demo_console).

